(* ===== verification/_CoqProject ===== *)
-Q . S2P
Prelude.v
Status.v
Checked.v
Tri.v
Tick.v
Hash.v
OMap.v
Flow.v
Tables.v
Policy.v
PolicyFacts.v
Impact.v
Classification.v
Intervention.v
InterventionFacts.v
Governor.v
GovernorFacts.v
GovernorIntents.v
GovernorRuns.v
Codec.v
CodecFacts.v
Restore.v
RestoreFacts.v
SnapshotFacts.v
Journal.v
JournalFacts.v
Durable.v
DurableFacts.v
Service.v
ServiceFacts.v
Text.v
TextFacts.v
Double.v
Json.v
Names.v
Explain.v
ExplainFacts.v
Transport.v
TransportFacts.v
Sockets.v
SocketsFacts.v
Cluster.v
ClusterFacts.v
ClusterAgree.v
ClusterReport.v
Benchmark.v
BenchmarkFacts.v
BenchmarkReport.v
Scenario.v
ScenarioFacts.v
Apps.v
AppsFacts.v
RunnerFacts.v
