(* ===== verification/Prelude.v ===== *)
(** * Elephant Flow Governor: a verification library

    The program classifies network flows as elephants from logical-time evidence and
    produces bounded governance intents for them. It is deterministic and clock free:
    time is a [Tick] the caller supplies, every input carries a validity window and a
    generation, and a decision holds only while everything that justified it does.

    ** The parts of the program and where they are modelled

    - [include/efg/status.hpp]: statuses and early return. [Status.v]: [StatusOr] as a
      sum, a check as a chain of [refuse_if], a mutating method as a function
      [M S A := S -> S * StatusOr A] that keeps its mutations when it returns early.
    - [include/efg/checked.hpp]: overflow-checked 64 bit arithmetic. [Checked.v].
    - [include/efg/tri.hpp]: three-valued logic and the reason bits. [Tri.v].
    - [include/efg/tick.hpp], [include/efg/identity.hpp]: ticks, validity windows, the
      tick guard, generations, epochs, provenance. [Tick.v].
    - [include/efg/hash.hpp], [src/hash.cpp]: FNV-1a digests with a finalizer, CRC-32C,
      bounded byte writer and reader. [Hash.v].
    - [std::map]: an association list kept in key order, with its laws. [OMap.v].
    - [include/efg/flow.hpp], [src/flow.cpp]: samples, the evidence ledger of one flow
      generation and the measurements derived from it. [Flow.v].
    - [include/efg/capacity.hpp], [include/efg/path.hpp] and their sources: the tables of
      capacity snapshots and path descriptors. [Tables.v], with the class
      [EvidenceTable] for what a table promises to the governor and one instance each.
    - [include/efg/policy.hpp], [src/policy.cpp]: thresholds, rule graphs, hysteresis,
      authorization and policy documents. [Policy.v] has the definitions,
      [PolicyFacts.v] the reference semantics of rules and the theorems.
    - [include/efg/impact.hpp], [src/impact.cpp]: the impact of a flow. [Impact.v].
    - [include/efg/classification.hpp], [src/classification.cpp]: states, authority
      vectors, classifications and their bounded history. [Classification.v].
    - [include/efg/intervention.hpp], [src/intervention.cpp]: envelopes, intents and the
      intent ledger. [Intervention.v] and [InterventionFacts.v].
    - [include/efg/governor.hpp], [src/governor.cpp]: the decision engine that owns all of
      the above. [Governor.v] has the whole of it except explanations and durable state;
      [GovernorFacts.v] is about one decision, [GovernorIntents.v] about the intents it
      produces and [GovernorRuns.v] about sequences of operations.
    - [include/efg/codec.hpp], [src/codec.cpp]: the encoding of every stored structure.
      [Codec.v] has the overloads as instances of [Encode] and [Decode]; [CodecFacts.v]
      their contract, as classes with an instance per structure.
    - [serialize], [deserialize] and [resume_after_restore] of [src/governor.cpp]: the
      governor's durable state. [Restore.v], [RestoreFacts.v] about restoring any bytes and
      [SnapshotFacts.v] about restoring those that were written.
    - [include/efg/persistence.hpp], [src/persistence.cpp]: the journal and snapshot files
      ([Journal.v], [JournalFacts.v]) and the durable governor that records its inputs and
      recovers from them ([Durable.v], [DurableFacts.v]).
    - [include/efg/service.hpp], [src/service.cpp]: the bounded queue and the worker thread
      in front of a governor. [Service.v] has one definition per locked section and
      [ServiceFacts.v] the interleavings.
    - [include/efg/text.hpp], [src/text.cpp]: text as bytes. [Text.v] and [TextFacts.v];
      binary64 values and [append_json_number] are in [Double.v].
    - [to_string] and [parse_*] of the enumerations in the sources above: the class [Named]
      with an instance each, and the parsers. [Names.v].
    - [include/efg/explain.hpp], [src/explain.cpp], [Governor::explain]: explanations of
      decisions as lines, text and JSON. [Explain.v] and [ExplainFacts.v]; [Json.v] is a
      reader of JSON, down to the UTF-8 of its strings: the reference the renderings are
      checked against.
    - [include/efg/transport.hpp], [src/transport.cpp]: frames and the streams that carry
      them. [Transport.v] and [TransportFacts.v]; [Sockets.v] has the sockets behind the
      streams, their owners and the calls that make and close them, [SocketsFacts.v] who owns
      them.
    - [include/efg/cluster.hpp], [src/cluster.cpp]: the coordinator that serves sessions for
      a governor, and the worker at the other end. [Cluster.v], [ClusterFacts.v] about the
      coordinator whatever it receives, [ClusterAgree.v] about the two ends together and
      [ClusterReport.v] about the report it writes.
    - [include/efg/benchmark.hpp], [src/benchmark.cpp]: synthetic populations and the run of
      a governor over one. [Benchmark.v], [BenchmarkFacts.v] and, with the two renderings of a
      result, [BenchmarkReport.v].
    - [apps/cli.cpp]: the arguments of the programs and the sharded scenario they share.
      [Scenario.v] and [ScenarioFacts.v].
    - [apps/efg_governor.cpp], [apps/efg_bench.cpp], [apps/efg_worker.cpp],
      [apps/efg_coordinator.cpp], [examples/downstream_consumer/main.cpp]: the programs.
      [Apps.v] has each [main], [AppsFacts.v] is about the worker, [RunnerFacts.v] about the
      scenario runner.

    ** How code and model correspond

    A struct or class is a [Record t] in a [Module] of its name, an enum an [Inductive]
    with its constructors, a method a definition of its name in that module. Member
    assignment is the record update [r <| member := v |>]. An unsigned integer is a [Z]
    kept at its width by [wrap]; identifiers and generations are [Z] with 0 for absent.
    A reference into [flows_] is the pair of governor and record that
    [Governor.with_record] takes out and writes back: while a record is being worked on
    the code touches no other one. A long method is cut at its own comments into named
    steps composed in the order of the code (for [Governor::evaluate]: [competition],
    [measure], [contention_of], [decide], [candidate_of], [unchanged], [commit]).

    Files are modelled by their bytes and by how many of them are known to be on stable
    storage. Every call into the operating system takes its outcome from a list of faults, a
    failing write leaving any strict prefix of its bytes, so a theorem about every list is
    about every way of failing; a crash keeps any prefix that contains the synced bytes.

    A stream is what the system hands out of it, piece by piece, until it is closed, broken or
    silent for ever, and what the system takes at each call to [send]. The sockets have no
    timeout, so a call on a silent peer, or a [send] to one that does not read, does not return:
    the stream is then [blocked], the session that reads it and the [run] around it have no
    result ([None]), and a program is [Stuck]. Connections, the calls to [stop] from another thread and the text of a
    status are arguments. The descriptors the system hands out are a parameter of [Sockets.v],
    with the two things it promises of them as hypotheses: a new one is not open and is not
    negative. A program is a function in a small monad of its own, [P]: it prints, writes files
    and goes on, exits with a code, or never gets past a statement.

    Recursion that is not structural carries fuel: the rule evaluator and the validator
    recurse with [RuleSet.eval_fuel], two more than the depth [kMaxRuleDepth] at which the
    code itself gives up, so the depth test answers before the fuel runs out; the division
    loop runs its 128 iterations; the replay of a journal starts with one unit more than
    the file has bytes, and every record takes at least 24 of them ([replay_total] shows
    that it never runs out); a session has as much as bytes arrive, of which every frame takes
    at least 56 ([sessions_end]). Every definition is executable, and the witnesses
    evaluate them.

    ** What the theorems show

    - Decisions ([GovernorFacts.v]): an elephant rests on fresh inputs, authority
      excludes obligations under a policy that protects them, over any history of evaluations
      a flow enters and leaves at exactly the window that completes the configured
      confirmation, a suspended flow needs new evidence, the binding resource is the scarcest
      one.
    - Intents ([GovernorIntents.v]): what an evaluation adds to the ledger is authorized.
    - Runs ([GovernorRuns.v]): one invariant for every sequence of operations, resets included
      (what a restore keeps is in [RestoreFacts.v]), generations are never reused until a reset
      or a restore, a tick only withdraws, a new policy and a suspension
      withdraw everything they must.
    - Components: the evidence ledger keeps one contiguous run and measures it exactly;
      tables never roll back; rule verdicts are stable under more evidence, validated
      rules are acyclic and decide; severity is exact; envelopes narrow to the greatest
      common one; the intent ledger is consistent and idempotent; histories chain;
      scaled products are exact; digests and checksums detect a changed byte.
    - The codec ([CodecFacts.v]): encodings round trip, are refused when cut anywhere, and
      decode to values in range only, for every overload.
    - Durable state ([RestoreFacts.v], [SnapshotFacts.v]): a restored governor has no
      authority, no bytes break its structure, and a snapshot of a governor that meets the
      conditions of [snapshot_ready] brings back everything else: the whole governor round
      trips, but for the withdrawal.
    - Files ([JournalFacts.v]): what an intact, synced journal has acknowledged survives any
      crash up to the first append that fails, damaged records are never applied, replay ends on
      every file and shows every intact record up to the first damaged one, snapshots are replaced
      as a whole.
    - The store ([DurableFacts.v]): without snapshots recovery is the re-execution of the recorded
      inputs; with or without compaction evidence is durable before it is decided on. Both are
      about a journal that is intact and forces every record out. This is where the codec's round trips,
      the journal's contract and the governor's operations meet.
    - The service ([ServiceFacts.v]): under every interleaving nothing is lost track of and
      requests are served in order; with its callers in turn, [stop] drains the queue and
      returns.
    - Transport ([TransportFacts.v]): frames survive the wire however it cuts them, damaged
      ones are refused. Sockets ([SocketsFacts.v]): every open one has exactly one owner, and
      none is leaked, closed twice or used after its end.
    - The cluster ([ClusterFacts.v], [ClusterAgree.v]): a session ends unless its peer stalls, and
      [run] waits for a connection or inside a stalled session, only registered
      sessions reach the governor, the books stay bounded; worker and coordinator agree on a
      registration and on a batch. Here the codec, the frames, the store and the governor
      meet.
    - Text ([TextFacts.v], [ExplainFacts.v], [ClusterReport.v], [BenchmarkReport.v]): decimal text round trips,
      fixed point text is exact, truncation keeps characters whole, splitting inverts joining;
      an explanation is the decision it explains, its lines are bounded and complete unless
      they say otherwise, and what it, the coordinator's report and the benchmark's
      report render is JSON that reads back as what was rendered, whatever the rates are; the
      coordinator's report is JSON exactly when the strings it was given are UTF-8.
    - Synthetic load ([BenchmarkFacts.v], [ScenarioFacts.v]): the benchmark's policy selects
      what its thresholds select and its books balance; options are read back and the last
      one wins; the shards of a scenario partition its population, and all their samples pass
      the validation of the governor.
    - Programs ([AppsFacts.v], [RunnerFacts.v]): a worker that exits with zero has put its
      whole shard on the wire, and a runner that does reports the governor its operations led
      to. Two of the programs are run against each other as an example.
    - Where the code departs from what it says, a theorem shows the behaviour it has:
      the 128 bit division refuses wide dividends and shares saturate, oversized samples
      discard evidence, validated rules can be too deep to evaluate, synthesized exit
      rules need not be weaker, eviction leaves an index entry behind, expired capacity
      can justify a share, leaving keeps the enter streak, re-recording conflicts after a
      transition, narrowed durations are labelled as authorized and the duplicate check
      sees sixteen intents only; a rejected restore is not undone, some snapshots cannot be
      read back, two fences do not survive a restart, appends behind a torn tail are lost, a
      policy can be in force without being durable, replaying a journal re-establishes
      authority, a [stop] that races with [start] discards accepted work, a label that is not UTF-8
      spoils the coordinator's report, and the benchmark takes the fastest mouse of adjacent
      ranges for an elephant.

    ** What is not modelled

    Outside the model are status messages and other free text (the detail of an outcome is an
    argument of the report), what the programs print on the error stream, the clock, the
    scheduler and the operating system's files and sockets (their answers are arguments), the
    branches for another operating system than POSIX, and the tests. The state of the governor
    after a program's last statement is not followed into the destructors, and whether a file
    outlives its [fclose] is not followed either. *)
From Stdlib Require Export ZArith Lia Bool.
From stdpp Require Export base numbers option tactics.
From stdpp Require Export list.

#[global] Open Scope Z_scope.
#[global] Set Default Goal Selector "!".

(** ** Fixed-width unsigned integers

    An unsigned C++ integer is a [Z] together with the width at which the code
    keeps it; [wrap w] is the reduction the language applies to the result of an
    unsigned operation. *)

Definition wrap (w : Z) (z : Z) : Z := z mod 2 ^ w.

Definition in_range (w : Z) (z : Z) : Prop := 0 <= z < 2 ^ w.

Abbreviation u8_ok := (in_range 8).
Abbreviation u16_ok := (in_range 16).
Abbreviation u32_ok := (in_range 32).
Abbreviation u64_ok := (in_range 64).

Definition u64_max : Z := 2 ^ 64 - 1.
Definition u32_max : Z := 2 ^ 32 - 1.

(** [++counter] on a 64 bit (resp. 32 bit) unsigned counter, [counter += n]. *)
Definition inc64 (z : Z) : Z := wrap 64 (z + 1).
Definition inc32 (z : Z) : Z := wrap 32 (z + 1).
Definition add64 (n z : Z) : Z := wrap 64 (z + n).

(** [static_cast<std::uint64_t>(container.size())]. *)
Definition size_of {A} (l : list A) : Z := Z.of_nat (length l).

Declare Scope efg_scope.
Delimit Scope efg_scope with efg.
#[global] Open Scope efg_scope.

(** ** Functional record update

    The source mutates struct members in place. [r <| f := v |>] is [r] with the
    member [f] assigned and [r <| f ::= g |>] the member replaced by [g] of its
    old value. A record opts in by giving its eta expansion. *)

Class Eta (R : Type) := eta : R -> R.
Class Setter {R T : Type} (f : R -> T) := update : (T -> T) -> R -> R.

Ltac derive_setter :=
  lazymatch goal with
  | |- @Setter ?R ?T ?f =>
      let e := eval hnf in (@eta R _) in
      exact (fun (u : T -> T) (r : R) =>
        ltac:(let b := eval cbv beta in (e r) in
              let p := eval pattern (f r) in b in
              lazymatch p with
              | ?g _ => let b' := eval cbv beta in (g (u (f r))) in exact b'
              end))
  end.
#[global] Hint Extern 0 (Setter _) => derive_setter : typeclass_instances.

#[warnings="-postfix-notation-not-level-1"]
Notation "r <| f := v |>" := (update (f:=f) (fun _ => v) r)
  (at level 12, left associativity, v at level 200) : efg_scope.
#[warnings="-postfix-notation-not-level-1"]
Notation "r <| f ::= g |>" := (update (f:=f) g r)
  (at level 12, left associativity, g at level 200) : efg_scope.

(** ** Proof automation *)

Create HintDb efg.

(** Case analysis on the conditionals and matches of the goal. *)
Ltac split_ifs :=
  repeat match goal with
         | |- context [if ?b then _ else _] => destruct b eqn:?
         end.

(** Case analysis on the conditionals of a hypothesis. *)
Ltac split_ifs_in H :=
  repeat match type of H with
         | context [if ?b then _ else _] => destruct b eqn:?
         end.

(** Booleans of the code as the propositions they decide. *)
Ltac boolify :=
  repeat match goal with
         | H : negb _ = true |- _ => apply negb_true_iff in H
         | H : negb _ = false |- _ => apply negb_false_iff in H
         | H : _ && _ = true |- _ => apply andb_true_iff in H; destruct H
         | H : _ || _ = false |- _ => apply orb_false_iff in H; destruct H
         | H : (_ <? _) = true |- _ => apply Z.ltb_lt in H
         | H : (_ <? _) = false |- _ => apply Z.ltb_ge in H
         | H : (_ <=? _) = true |- _ => apply Z.leb_le in H
         | H : (_ <=? _) = false |- _ => apply Z.leb_gt in H
         | H : (_ =? _) = true |- _ => apply Z.eqb_eq in H
         | H : (_ =? _) = false |- _ => apply Z.eqb_neq in H
         end.

(** ** Shared arithmetic *)

(** [lia] after exposing the ranges of the machine integers in sight. *)
Ltac ulia := unfold in_range, wrap, u64_max, u32_max, inc64, inc32, add64 in *; lia.

(** Goals that state the outcome of a comparison of the code. *)
Ltac blia :=
  rewrite ?Z.geb_leb, ?Z.gtb_ltb;
  lazymatch goal with
  | |- (_ <=? _) = true => apply Z.leb_le
  | |- (_ <=? _) = false => apply Z.leb_gt
  | |- (_ <? _) = true => apply Z.ltb_lt
  | |- (_ <? _) = false => apply Z.ltb_ge
  | |- (_ =? _) = true => apply Z.eqb_eq
  | |- (_ =? _) = false => apply Z.eqb_neq
  end; ulia.

Lemma wrap_range w z : 0 <= w -> in_range w (wrap w z).
Proof. intros. unfold in_range, wrap. apply Z.mod_pos_bound. lia. Qed.

Lemma wrap_small w z : in_range w z -> wrap w z = z.
Proof. intros. apply Z.mod_small. exact H. Qed.

Lemma wrap_wrap w z : wrap w (wrap w z) = wrap w z.
Proof. apply Z.mod_mod_divide. exists 1. lia. Qed.

#[export] Hint Resolve wrap_range : efg.

Lemma land_ones_mod z w : 0 <= w -> Z.land z (2 ^ w - 1) = z mod 2 ^ w.
Proof. intros. rewrite <- Z.land_ones by lia. f_equal. rewrite Z.ones_equiv. lia. Qed.

(** A value below [2 ^ w] and one shifted left by [w] do not overlap. *)
Lemma lor_shiftl_add a b w :
  0 <= w -> 0 <= a < 2 ^ w -> Z.lor a (Z.shiftl b w) = a + b * 2 ^ w.
Proof.
  intros Hw Ha. assert (Hdis : Z.land a (Z.shiftl b w) = 0).
  { apply Z.bits_inj'. intros n Hn. rewrite Z.land_spec, Z.bits_0.
    destruct (Z.ltb_spec n w).
    - rewrite (Z.shiftl_spec_low b w n) by lia. apply andb_false_r.
    - rewrite <- (Z.mod_small a (2 ^ w)) by lia.
      rewrite Z.mod_pow2_bits_high by lia. reflexivity. }
  rewrite <- Z.lxor_lor, <- Z.add_nocarry_lxor, Z.shiftl_mul_pow2 by auto. reflexivity.
Qed.

Lemma size_of_nonneg {A} (l : list A) : 0 <= size_of l.
Proof. unfold size_of. lia. Qed.

#[export] Hint Resolve size_of_nonneg : efg.
