(* ===== verification/Status.v ===== *)
(** * Status and result plumbing ([include/efg/status.hpp])

    [StatusCode] and [StatusOr] of the runtime, and the two shapes fallible code
    takes: a pure check that returns a [Status], and a method that mutates its
    object and may return early ([EFG_TRY]) with the mutations made so far kept.
    A [Status] also carries a fixed message; the source compares statuses by code
    alone ([operator==]), and the code is what is modelled. *)
From S2P Require Import Prelude.

Module StatusCode.
Inductive t : Type :=
| Ok
| InvalidArgument
| OutOfRange
| Overflow
| Underflow
| DivideByZero
| NotFound
| AlreadyExists
| Conflict
| CapacityExceeded
| Unsupported
| Stale
| Expired
| UnknownEvidence
| ContradictoryEvidence
| DuplicateEvidence
| GapDetected
| GenerationMismatch
| AuthorityMismatch
| EpochMismatch
| BootMismatch
| RevalidationRequired
| PolicyViolation
| ProtectionViolation
| Corrupt
| Truncated
| Oversized
| VersionMismatch
| IntegrityFailure
| IoError
| Closed
| Cancelled
| ShuttingDown
| Busy
| Internal.

#[global] Instance eq_dec : EqDecision t.
Proof. solve_decision. Defined.

Definition is_ok (c : t) : bool := bool_decide (c = Ok).

Definition is_retryable (c : t) : bool :=
  match c with
  | Busy | CapacityExceeded | Stale | Expired | GapDetected
  | RevalidationRequired | UnknownEvidence => true
  | _ => false
  end.

Definition is_integrity_failure (c : t) : bool :=
  match c with
  | Corrupt | Truncated | Oversized | VersionMismatch | IntegrityFailure
  | ContradictoryEvidence => true
  | _ => false
  end.
End StatusCode.

(** Either a value or the code of a non-ok status. *)
Inductive StatusOr (A : Type) : Type :=
| Val (value : A)
| Err (code : StatusCode.t).
Arguments Val {A} value.
Arguments Err {A} code.

(** [Status] is [Ok] exactly when it is [Val tt]. *)
Abbreviation Status := (StatusOr unit).

Definition ok {A} (r : StatusOr A) : bool :=
  match r with Val _ => true | Err _ => false end.

Definition code {A} (r : StatusOr A) : StatusCode.t :=
  match r with Val _ => StatusCode.Ok | Err c => c end.

Definition value_or {A} (r : StatusOr A) (fallback : A) : A :=
  match r with Val v => v | Err _ => fallback end.

Definition ok_status : Status := Val tt.

(** [EFG_TRY] / [EFG_TRY_ASSIGN] on pure results. *)
#[global] Instance StatusOr_ret : MRet StatusOr := fun _ x => Val x.
#[global] Instance StatusOr_bind : MBind StatusOr := fun _ _ f r =>
  match r with Val v => f v | Err c => Err c end.

(** [if (condition) { return make_status(code, ...); }] *)
Definition refuse_if (condition : bool) (c : StatusCode.t) : Status :=
  if condition then Err c else Val tt.

(** ** Methods: state passing with early return *)

Definition M (S A : Type) : Type := S -> S * StatusOr A.

#[global] Instance M_ret S : MRet (M S) := fun _ x s => (s, Val x).
#[global] Instance M_bind S : MBind (M S) := fun _ _ f m s =>
  match m s with
  | (s', Val v) => f v s'
  | (s', Err c) => (s', Err c)
  end.

Definition get {S} : M S S := fun s => (s, Val s).
Definition modify {S} (f : S -> S) : M S unit := fun s => (f s, Val tt).
Definition fail {S A} (c : StatusCode.t) : M S A := fun s => (s, Err c).
Definition lift {S A} (r : StatusOr A) : M S A := fun s => (s, r).

(** Run a method of a member object. *)
Definition on {S T A} (proj : S -> T) `{!Setter proj} (m : M T A) : M S A := fun s =>
  let '(t', r) := m (proj s) in (s <| proj := t' |>, r).

(** Observe the outcome of a call instead of propagating its failure. *)
Definition catch {S A} (m : M S A) : M S (StatusOr A) := fun s =>
  let '(s', r) := m s in (s', Val r).

(** [for (x : l) { EFG_TRY(f(x)); }] *)
Fixpoint for_each {S A} (f : A -> M S unit) (l : list A) : M S unit :=
  match l with
  | [] => mret tt
  | x :: l => f x ;; for_each f l
  end.

(** ** Inversion of successful runs *)

Lemma refuse_if_bind {A} b c (k : unit -> StatusOr A) v :
  (refuse_if b c ≫= k) = Val v <-> b = false /\ k tt = Val v.
Proof. destruct b; simpl; split; [done | by intros [[=] _] | done | by intros [_ ?]]. Qed.

Lemma refuse_if_ok b c u : refuse_if b c = Val u <-> b = false.
Proof. destruct b, u; simpl; done. Qed.

Lemma StatusOr_bind_Val {A B} (r : StatusOr A) (k : A -> StatusOr B) v :
  (r ≫= k) = Val v <-> exists x, r = Val x /\ k x = Val v.
Proof.
  destruct r; simpl; split; [by eauto | by intros (? & [= ->] & ?) | done | by intros (? & [=] & ?)].
Qed.

Lemma M_bind_Val {S A B} (m : M S A) (k : A -> M S B) s s' v :
  (m ≫= k) s = (s', Val v) <->
  exists s1 x, m s = (s1, Val x) /\ k x s1 = (s', Val v).
Proof.
  unfold mbind, M_bind. destruct (m s) as [s1 [x|c]]; split;
    [by eauto | by intros (? & ? & [= -> ->] & ?) | done | by intros (? & ? & [=] & ?)].
Qed.

(** Peel the guards of a pure check known to have succeeded. *)
Ltac inv_status H :=
  repeat (first
    [ rewrite refuse_if_bind in H;
      let G := fresh "Hguard" in destruct H as [G H]
    | rewrite refuse_if_ok in H
    | rewrite StatusOr_bind_Val in H;
      let x := fresh "x" in let G := fresh "Hstep" in destruct H as (x & G & H) ]).
