(* ===== verification/Checked.v ===== *)
(** * Checked arithmetic ([include/efg/checked.hpp])

    Every helper of the source that reports overflow through its return value and
    writes its result through a reference is a function to [option Z]: [Some out]
    when the call succeeds and [out] is written, [None] when it refuses. *)
From S2P Require Import Prelude Status.

Definition kBasisPointsScale : Z := 10000.
Definition kKiloTickScale : Z := 1000.

Definition add_overflow (a b : Z) : option Z :=
  if a >? u64_max - b then None else Some (wrap 64 (a + b)).

Definition sub_overflow (a b : Z) : option Z :=
  if b >? a then None else Some (wrap 64 (a - b)).

Definition mul_overflow (a b : Z) : option Z :=
  if negb (a =? 0) && (b >? u64_max / a) then None else Some (wrap 64 (a * b)).

(** 64x64 to 128 bit widening multiply with 32 bit limbs; the result is [(hi, lo)]. *)
Definition widening_mul (a b : Z) : Z * Z :=
  let a_lo := Z.land a 0xFFFFFFFF in
  let a_hi := Z.shiftr a 32 in
  let b_lo := Z.land b 0xFFFFFFFF in
  let b_hi := Z.shiftr b 32 in
  let p0 := wrap 64 (a_lo * b_lo) in
  let p1 := wrap 64 (a_lo * b_hi) in
  let p2 := wrap 64 (a_hi * b_lo) in
  let p3 := wrap 64 (a_hi * b_hi) in
  let mid := wrap 64 (Z.shiftr p0 32 + Z.land p1 0xFFFFFFFF + Z.land p2 0xFFFFFFFF) in
  let lo := Z.lor (wrap 64 (Z.shiftl mid 32)) (Z.land p0 0xFFFFFFFF) in
  let hi := wrap 64 (p3 + Z.shiftr p1 32 + Z.shiftr p2 32 + Z.shiftr mid 32) in
  (hi, lo).

(** The body of [divmod128]'s loop from bit [n - 1] down to bit 0. *)
Fixpoint divmod128_loop (n : nat) (hi lo divisor q r : Z) : option (Z * Z) :=
  match n with
  | O => Some (q, r)
  | S n' =>
      let bit := Z.of_nat n' in
      let next_bit := if bit >=? 64 then Z.land (Z.shiftr hi (bit - 64)) 1
                      else Z.land (Z.shiftr lo bit) 1 in
      let carry := Z.shiftr r 63 in
      let r := Z.land (Z.lor (wrap 64 (Z.shiftl r 1)) next_bit) u64_max in
      if negb (carry =? 0) || (r >=? divisor) then
        let r := wrap 64 (r - divisor) in
        if bit <? 64
        then divmod128_loop n' hi lo divisor (Z.lor q (Z.shiftl 1 bit)) r
        else None
      else divmod128_loop n' hi lo divisor q r
  end.

Definition divmod128 (hi lo divisor : Z) : option (Z * Z) :=
  if divisor =? 0 then None
  else if hi =? 0 then Some (lo / divisor, lo mod divisor)
  else if hi >=? divisor then None
  else divmod128_loop 128 hi lo divisor 0 hi.

Definition mul_div (a b divisor : Z) : option Z :=
  if divisor =? 0 then None
  else if (a =? 0) || (b =? 0) then Some 0
  else if a mod divisor =? 0 then mul_overflow (a / divisor) b
  else if b mod divisor =? 0 then mul_overflow (b / divisor) a
  else
    let '(hi, lo) := widening_mul a b in
    fst <$> divmod128 hi lo divisor.

Definition saturating_add (a b : Z) : Z :=
  match add_overflow a b with Some out => out | None => u64_max end.

Definition saturating_mul (a b : Z) : Z :=
  match mul_overflow a b with Some out => out | None => u64_max end.

Definition clamp_to (value ceiling : Z) : Z := if value >? ceiling then ceiling else value.
Definition min_of (a b : Z) : Z := if a <? b then a else b.
Definition max_of (a b : Z) : Z := if a >? b then a else b.

Definition apply_basis_points (total bp : Z) : option Z :=
  if bp >? kBasisPointsScale then None else mul_div total bp kBasisPointsScale.

Definition to_basis_points (part whole : Z) : Z :=
  if whole =? 0 then 0
  else if part >=? whole then kBasisPointsScale
  else match mul_div part kBasisPointsScale whole with
       | None => kBasisPointsScale
       | Some out => if out >? kBasisPointsScale then kBasisPointsScale else out
       end.

Definition narrow_u32 (value : Z) : option Z :=
  if value >? u32_max then None else Some (wrap 32 value).

Definition checked_add (a b : Z) : StatusOr Z :=
  match add_overflow a b with None => Err StatusCode.Overflow | Some out => Val out end.

Definition checked_sub (a b : Z) : StatusOr Z :=
  match sub_overflow a b with None => Err StatusCode.Underflow | Some out => Val out end.

Definition checked_mul (a b : Z) : StatusOr Z :=
  match mul_overflow a b with None => Err StatusCode.Overflow | Some out => Val out end.

Definition checked_mul_div (a b divisor : Z) : StatusOr Z :=
  if divisor =? 0 then Err StatusCode.DivideByZero
  else match mul_div a b divisor with
       | None => Err StatusCode.Overflow
       | Some out => Val out
       end.

#[global] Arguments add_overflow : simpl never.
#[global] Arguments sub_overflow : simpl never.
#[global] Arguments mul_overflow : simpl never.
#[global] Arguments widening_mul : simpl never.
#[global] Arguments divmod128 : simpl never.
#[global] Arguments mul_div : simpl never.
#[global] Arguments to_basis_points : simpl never.
#[global] Arguments apply_basis_points : simpl never.

(** ** Overflow detection is exact *)

Lemma add_overflow_spec a b :
  u64_ok a -> u64_ok b ->
  add_overflow a b = if a + b <? 2 ^ 64 then Some (a + b) else None.
Proof.
  intros. unfold add_overflow. destruct (Z.ltb_spec (a + b) (2 ^ 64)); split_ifs; try ulia.
  - rewrite wrap_small; [done|ulia].
  - done.
Qed.

Lemma sub_overflow_spec a b :
  u64_ok a -> u64_ok b ->
  sub_overflow a b = if b <=? a then Some (a - b) else None.
Proof.
  intros. unfold sub_overflow. destruct (Z.leb_spec b a); split_ifs; try ulia.
  - rewrite wrap_small; [done|ulia].
  - done.
Qed.

Lemma mul_overflow_spec a b :
  u64_ok a -> u64_ok b ->
  mul_overflow a b = if a * b <? 2 ^ 64 then Some (a * b) else None.
Proof.
  intros Ha Hb. unfold mul_overflow.
  destruct (Z.eqb_spec a 0) as [->|Hn]; simpl.
  { destruct (Z.ltb_spec (0 * b) (2 ^ 64)); [done|ulia]. }
  pose proof (Z.mul_div_le u64_max a ltac:(ulia)).
  pose proof (Z.mod_pos_bound u64_max a ltac:(ulia)).
  pose proof (Z.div_mod u64_max a Hn).
  destruct (Z.ltb_spec (a * b) (2 ^ 64)); destruct (b >? u64_max / a) eqn:E.
  - exfalso. assert (u64_max / a + 1 <= b) by lia. unfold in_range, u64_max in *. nia.
  - rewrite wrap_small; [done|]. unfold in_range in *. nia.
  - done.
  - exfalso. assert (b <= u64_max / a) by lia. unfold in_range, u64_max in *. nia.
Qed.

Lemma saturating_add_spec a b :
  u64_ok a -> u64_ok b -> saturating_add a b = Z.min (a + b) u64_max.
Proof.
  intros. unfold saturating_add. rewrite add_overflow_spec by done.
  destruct (Z.ltb_spec (a + b) (2 ^ 64)); ulia.
Qed.

Lemma saturating_add_range a b : u64_ok a -> u64_ok b -> u64_ok (saturating_add a b).
Proof. intros. rewrite saturating_add_spec by done. ulia. Qed.
#[export] Hint Resolve saturating_add_range : efg.

Lemma min_of_min a b : min_of a b = Z.min a b.
Proof. unfold min_of. destruct (Z.ltb_spec a b); lia. Qed.

Lemma max_of_max a b : max_of a b = Z.max a b.
Proof. unfold max_of. destruct (a >? b) eqn:E; lia. Qed.

(** ** The widening multiply *)

(** The limb products, with every intermediate wrap discharged. *)
Lemma widening_mul_limbs al ah bl bh :
  0 <= al < 2 ^ 32 -> 0 <= ah < 2 ^ 32 -> 0 <= bl < 2 ^ 32 -> 0 <= bh < 2 ^ 32 ->
  0 <= al * bl < 2 ^ 64 /\ 0 <= al * bh < 2 ^ 64 /\
  0 <= ah * bl < 2 ^ 64 /\ 0 <= ah * bh <= (2 ^ 32 - 1) * (2 ^ 32 - 1).
Proof. intros. nia. Qed.

Lemma widening_mul_hi_bound al ah bl bh :
  0 <= al < 2 ^ 32 -> 0 <= ah < 2 ^ 32 -> 0 <= bl < 2 ^ 32 -> 0 <= bh < 2 ^ 32 ->
  (al * bh) / 2 ^ 32 <= 2 ^ 32 - 2 /\ (ah * bl) / 2 ^ 32 <= 2 ^ 32 - 2.
Proof.
  intros. split; apply Z.lt_succ_r, Z.div_lt_upper_bound; nia.
Qed.

Lemma limb_split x :
  u64_ok x ->
  0 <= x mod 2 ^ 32 < 2 ^ 32 /\ 0 <= x / 2 ^ 32 < 2 ^ 32 /\
  x = x / 2 ^ 32 * 2 ^ 32 + x mod 2 ^ 32.
Proof.
  intros. unfold in_range in *. split; [apply Z.mod_pos_bound; lia|].
  split; [split; [apply Z.div_pos; lia | apply Z.div_lt_upper_bound; lia]|].
  pose proof (Z.div_mod x (2 ^ 32)). lia.
Qed.

(** Carrying the middle limbs: the sum of the shifted partial products, reassembled
    from [hi] and [lo] the way the source does it. *)
Lemma widening_mul_carry p0 p1 p2 p3 :
  0 <= p0 < 2 ^ 64 -> 0 <= p1 -> 0 <= p2 -> 0 <= p3 <= (2 ^ 32 - 1) * (2 ^ 32 - 1) ->
  p1 / 2 ^ 32 <= 2 ^ 32 - 2 -> p2 / 2 ^ 32 <= 2 ^ 32 - 2 ->
  let mid := p0 / 2 ^ 32 + p1 mod 2 ^ 32 + p2 mod 2 ^ 32 in
  let lo := mid mod 2 ^ 32 * 2 ^ 32 + p0 mod 2 ^ 32 in
  let hi := p3 + p1 / 2 ^ 32 + p2 / 2 ^ 32 + mid / 2 ^ 32 in
  0 <= mid < 2 ^ 64 /\ 0 <= lo < 2 ^ 64 /\ 0 <= hi < 2 ^ 64 /\
  p3 * 2 ^ 64 + (p1 + p2) * 2 ^ 32 + p0 = 2 ^ 64 * hi + lo.
Proof.
  intros Hp0 Hp1 Hp2 Hp3 H1 H2 mid lo hi.
  assert (E0 := Z.div_mod p0 (2 ^ 32) ltac:(lia)).
  assert (E1 := Z.div_mod p1 (2 ^ 32) ltac:(lia)).
  assert (E2 := Z.div_mod p2 (2 ^ 32) ltac:(lia)).
  assert (R0 := Z.mod_pos_bound p0 (2 ^ 32) ltac:(lia)).
  assert (R1 := Z.mod_pos_bound p1 (2 ^ 32) ltac:(lia)).
  assert (R2 := Z.mod_pos_bound p2 (2 ^ 32) ltac:(lia)).
  assert (D0 := Z.div_lt_upper_bound p0 (2 ^ 32) (2 ^ 32) ltac:(lia) ltac:(lia)).
  assert (P0 := Z.div_pos p0 (2 ^ 32) ltac:(lia) ltac:(lia)).
  assert (P1 := Z.div_pos p1 (2 ^ 32) ltac:(lia) ltac:(lia)).
  assert (P2 := Z.div_pos p2 (2 ^ 32) ltac:(lia) ltac:(lia)).
  assert (Hmid : 0 <= mid < 3 * 2 ^ 32) by (unfold mid; lia).
  assert (Em := Z.div_mod mid (2 ^ 32) ltac:(lia)).
  assert (Rm := Z.mod_pos_bound mid (2 ^ 32) ltac:(lia)).
  unfold lo, hi. unfold mid in Em at 1. lia.
Qed.

(** [widening_mul] is the exact 128 bit product. *)
Lemma widening_mul_exact a b :
  u64_ok a -> u64_ok b ->
  widening_mul a b = (a * b / 2 ^ 64, a * b mod 2 ^ 64).
Proof.
  intros Ha Hb. unfold widening_mul. cbv zeta.
  change 0xFFFFFFFF with (2 ^ 32 - 1).
  rewrite !land_ones_mod, !Z.shiftr_div_pow2, !Z.shiftl_mul_pow2 by lia.
  destruct (limb_split a Ha) as (Hal & Hah & Ea).
  destruct (limb_split b Hb) as (Hbl & Hbh & Eb).
  revert Hal Hah Ea Hbl Hbh Eb.
  generalize (a mod 2 ^ 32) (a / 2 ^ 32) (b mod 2 ^ 32) (b / 2 ^ 32).
  intros al ah bl bh Hal Hah Ea Hbl Hbh Eb.
  destruct (widening_mul_limbs al ah bl bh) as (B0 & B1 & B2 & B3); [lia..|].
  destruct (widening_mul_hi_bound al ah bl bh) as (H1 & H2); [lia..|].
  assert (E : a * b = ah * bh * 2 ^ 64 + (al * bh + ah * bl) * 2 ^ 32 + al * bl)
    by (rewrite Ea, Eb; ring).
  rewrite !(wrap_small 64 (_ * _)) by (unfold in_range; lia). rewrite E.
  revert B0 B1 B2 B3 H1 H2. generalize (al * bl) (al * bh) (ah * bl) (ah * bh).
  intros p0 p1 p2 p3 B0 B1 B2 B3 H1 H2.
  destruct (widening_mul_carry p0 p1 p2 p3) as (Hmid & Hlo & Hhi & ->); [lia..|].
  rewrite (wrap_small 64 (_ / _ + _ + _)) by exact Hmid.
  rewrite (wrap_small 64 (p3 + _ + _ + _)) by exact Hhi.
  rewrite <- (Z.div_unique _ (2 ^ 64) _ _ (or_introl Hlo) eq_refl).
  rewrite <- (Z.mod_unique _ (2 ^ 64) _ _ (or_introl Hlo) eq_refl).
  f_equal. unfold wrap. change (2 ^ 64) with (2 ^ 32 * 2 ^ 32).
  rewrite Z.mul_mod_distr_r, Z.lor_comm, <- Z.shiftl_mul_pow2 by lia.
  rewrite lor_shiftl_add; [|lia|apply Z.mod_pos_bound; lia].
  rewrite Z.shiftl_mul_pow2 by lia. apply Z.add_comm.
Qed.

(** ** The 128 bit division

    The loop starts with the remainder already holding [hi] and then shifts the 64
    bits of [hi] in a second time. Whenever [hi] is not zero it therefore reaches the
    divisor while still above bit 63 and refuses. *)

Lemma divmod128_step_value r b :
  0 <= r < 2 ^ 63 -> 0 <= b <= 1 ->
  Z.land (Z.lor (wrap 64 (Z.shiftl r 1)) b) u64_max = 2 * r + b.
Proof.
  intros Hr Hb. rewrite Z.shiftl_mul_pow2, (wrap_small 64) by ulia.
  rewrite Z.lor_comm, <- Z.shiftl_mul_pow2 by lia.
  rewrite lor_shiftl_add by lia. unfold u64_max. rewrite land_ones_mod by lia.
  rewrite Z.mod_small by lia. lia.
Qed.

Lemma next_bit_range x i : 0 <= Z.land (Z.shiftr x i) 1 <= 1.
Proof.
  change (Z.land (Z.shiftr x i) 1) with (Z.land (Z.shiftr x i) (2 ^ 1 - 1)).
  rewrite land_ones_mod by lia. pose proof (Z.mod_pos_bound (Z.shiftr x i) (2 ^ 1)). lia.
Qed.

Lemma divmod128_loop_refuses k : forall hi lo divisor q r,
  1 <= r < divisor -> divisor < 2 ^ 64 -> divisor <= r * 2 ^ Z.of_nat k ->
  divmod128_loop (k + 64) hi lo divisor q r = None.
Proof.
  induction k as [|k IH]; intros hi lo divisor q r Hr Hd Hk;
    [exfalso; change (2 ^ Z.of_nat 0) with 1 in Hk; lia|].
  change (S k + 64)%nat with (S (k + 64)). cbn [divmod128_loop]. cbv zeta.
  assert (Hbit : (Z.of_nat (k + 64) >=? 64) = true) by blia.
  assert (Hbit' : (Z.of_nat (k + 64) <? 64) = false) by blia.
  rewrite Hbit, Hbit'. rewrite Z.shiftr_div_pow2 with (n := 63) by lia.
  destruct (Z.lt_ge_cases r (2 ^ 63)) as [Hs|Hs].
  - rewrite Z.div_small by lia. rewrite divmod128_step_value by (auto using next_bit_range; lia).
    pose proof (next_bit_range hi (Z.of_nat (k + 64) - 64)).
    set (b := Z.land _ _) in *. simpl negb. rewrite orb_false_l.
    destruct (2 * r + b >=? divisor) eqn:E; [done|].
    apply IH; [lia|lia|]. rewrite Nat2Z.inj_succ, Z.pow_succ_r in Hk by lia. nia.
  - assert (Hc : (r / 2 ^ 63 =? 0) = false).
    { apply Z.eqb_neq. assert (1 <= r / 2 ^ 63) by (apply Z.div_le_lower_bound; lia). lia. }
    rewrite Hc. done.
Qed.

(** The division as it behaves: it only ever divides a 64 bit dividend. *)
Lemma divmod128_spec hi lo divisor :
  0 <= hi -> u64_ok divisor ->
  divmod128 hi lo divisor =
    if negb (divisor =? 0) && (hi =? 0) then Some (lo / divisor, lo mod divisor) else None.
Proof.
  intros Hhi Hd. unfold divmod128.
  destruct (Z.eqb_spec divisor 0); [done|]. destruct (Z.eqb_spec hi 0); [done|].
  destruct (hi >=? divisor) eqn:E; [done|].
  apply (divmod128_loop_refuses 64); [lia|ulia|]. change (2 ^ Z.of_nat 64) with (2 ^ 64). ulia.
Qed.

(** ** Scaled products *)

(** The quotient is taken exactly, and only [a * b] that fits 64 bits, or a factor the
    divisor divides, lets [mul_div] succeed. *)
Definition mul_div_value (a b divisor : Z) : option Z :=
  if negb (divisor =? 0) &&
     ((a * b <? 2 ^ 64) || (a mod divisor =? 0) || (b mod divisor =? 0)) &&
     (a * b / divisor <? 2 ^ 64)
  then Some (a * b / divisor) else None.

Lemma div_le_self x d : 0 <= x -> 0 < d -> 0 <= x / d <= x.
Proof.
  intros. split; [apply Z.div_pos; lia|]. apply Z.div_le_upper_bound; [lia|nia].
Qed.

Lemma mul_overflow_exact a b divisor :
  u64_ok a -> u64_ok b -> 0 < divisor -> a mod divisor = 0 ->
  mul_overflow (a / divisor) b =
    if a * b / divisor <? 2 ^ 64 then Some (a * b / divisor) else None.
Proof.
  intros Ha Hb Hd Hm. rewrite mul_overflow_spec; [|split|done].
  - replace (a * b / divisor) with (a / divisor * b); [done|].
    apply Z.mod_divide in Hm; [|lia]. destruct Hm as [c ->].
    rewrite Z.div_mul by lia. replace (c * divisor * b) with (c * b * divisor) by ring.
    rewrite Z.div_mul by lia. reflexivity.
  - apply Z.div_pos; ulia.
  - apply Z.div_lt_upper_bound; unfold in_range in *; nia.
Qed.

Lemma mul_div_spec a b divisor :
  u64_ok a -> u64_ok b -> u64_ok divisor -> mul_div a b divisor = mul_div_value a b divisor.
Proof.
  intros Ha Hb Hd. unfold mul_div, mul_div_value.
  destruct (Z.eqb_spec divisor 0) as [->|Hn]; [done|].
  cbn [negb andb orb]. destruct (Z.eqb_spec a 0) as [->|Ha0]; [done|].
  destruct (Z.eqb_spec b 0) as [->|Hb0]; cbn [negb andb orb].
  { rewrite Z.mul_0_r. done. }
  destruct (Z.eqb_spec (a mod divisor) 0) as [Hma|Hma].
  { rewrite mul_overflow_exact, orb_true_r by (done || ulia). done. }
  destruct (Z.eqb_spec (b mod divisor) 0) as [Hmb|Hmb].
  { rewrite mul_overflow_exact, !orb_true_r, (Z.mul_comm b a) by (done || ulia). done. }
  rewrite widening_mul_exact by done. rewrite !orb_false_r, divmod128_spec; [|apply Z.div_pos; ulia|done].
  destruct (Z.ltb_spec (a * b) (2 ^ 64)) as [Hf|Hf]; simpl.
  - rewrite (Z.div_small (a * b) (2 ^ 64)) by ulia. rewrite Z.mod_small by ulia.
    destruct (Z.eqb_spec divisor 0); [done|]. cbn [negb andb orb].
    destruct (Z.ltb_spec (a * b / divisor) (2 ^ 64)) as [|Hc]; [done|].
    exfalso. pose proof (div_le_self (a * b) divisor ltac:(ulia) ltac:(ulia)). lia.
  - assert (1 <= a * b / 2 ^ 64) by (apply Z.div_le_lower_bound; lia).
    replace (a * b / 2 ^ 64 =? 0) with false by lia. rewrite andb_false_r. done.
Qed.

Lemma mul_div_sound a b divisor r :
  u64_ok a -> u64_ok b -> u64_ok divisor ->
  mul_div a b divisor = Some r -> r = a * b / divisor /\ u64_ok r /\ divisor <> 0.
Proof.
  intros Ha Hb Hd. rewrite mul_div_spec by done. unfold mul_div_value.
  split_ifs; [|done]. intros [= <-]. boolify. split; [done|]. split; [|done].
  split; [|done]. apply Z.div_pos; ulia.
Qed.

Lemma mul_div_small a b divisor :
  u64_ok a -> u64_ok b -> u64_ok divisor -> divisor <> 0 -> a * b < 2 ^ 64 ->
  mul_div a b divisor = Some (a * b / divisor).
Proof.
  intros Ha Hb Hd Hn Hf. rewrite mul_div_spec by done. unfold mul_div_value.
  pose proof (div_le_self (a * b) divisor ltac:(ulia) ltac:(ulia)).
  replace (divisor =? 0) with false by lia. replace (a * b <? 2 ^ 64) with true by lia.
  replace (a * b / divisor <? 2 ^ 64) with true by lia. done.
Qed.

(** ** Basis points *)

Lemma to_basis_points_range part whole : 0 <= part -> u64_ok whole ->
  0 <= to_basis_points part whole <= kBasisPointsScale.
Proof.
  intros Hp Hw. unfold to_basis_points.
  destruct (Z.eqb_spec whole 0); [unfold kBasisPointsScale; lia|].
  destruct (part >=? whole) eqn:E; [unfold kBasisPointsScale; lia|].
  destruct (mul_div part kBasisPointsScale whole) as [out|] eqn:Em;
    [|unfold kBasisPointsScale; lia].
  apply mul_div_sound in Em as (-> & Hr & _); [|ulia| unfold kBasisPointsScale; ulia |done].
  split_ifs; unfold in_range, kBasisPointsScale in *; lia.
Qed.

(** Below the 64 bit product limit the share is the exact floor. *)
Lemma to_basis_points_exact part whole :
  0 <= part < whole -> u64_ok whole -> part * kBasisPointsScale < 2 ^ 64 ->
  to_basis_points part whole = part * kBasisPointsScale / whole.
Proof.
  intros Hp Hw Hf. unfold to_basis_points.
  replace (whole =? 0) with false by lia. replace (part >=? whole) with false by lia.
  rewrite mul_div_small by (unfold kBasisPointsScale in *; ulia).
  assert (part * kBasisPointsScale / whole <= kBasisPointsScale)
    by (apply Z.div_le_upper_bound; unfold kBasisPointsScale; lia).
  split_ifs; lia.
Qed.

Lemma apply_basis_points_bound total bp out :
  u64_ok total -> 0 <= bp -> apply_basis_points total bp = Some out -> 0 <= out <= total.
Proof.
  intros Ht Hb. unfold apply_basis_points. destruct (bp >? kBasisPointsScale) eqn:E; [done|].
  intros Hm. apply mul_div_sound in Hm as (-> & Hr & _);
    [|done|unfold kBasisPointsScale in *; ulia..].
  split; [ulia|]. apply Z.div_le_upper_bound; unfold in_range, kBasisPointsScale in *; nia.
Qed.

(** ** Properties *)

(** C36: [mul_div] answers exactly the floor of the full product over the divisor,
    never a wrapped value; and it answers only when, besides the quotient fitting, the product
    itself fits 64 bits or the divisor divides one of the factors. *)
Theorem mul_div_characterized (a b divisor q : Z) :
  u64_ok a -> u64_ok b -> u64_ok divisor ->
  mul_div a b divisor = Some q <->
  divisor <> 0 /\ q = a * b / divisor /\ q < 2 ^ 64 /\
  (a * b < 2 ^ 64 \/ (divisor | a) \/ (divisor | b)).
Proof.
  intros Ha Hb Hd. rewrite mul_div_spec by done. unfold mul_div_value.
  destruct (Z.eqb_spec divisor 0) as [->|Hn]; simpl; [split; [done|by intros []]|].
  rewrite <- !(Z.mod_divide _ divisor) by done.
  destruct (_ || _ || _) eqn:E; simpl.
  - destruct (Z.ltb_spec (a * b / divisor) (2 ^ 64)); split; [|intros (_ & -> & _); done|done|lia].
    intros [= <-]. rewrite !orb_true_iff, Z.ltb_lt, !Z.eqb_eq in E. tauto.
  - split; [done|]. intros (_ & _ & _ & H). exfalso.
    apply orb_false_iff in E as [E H3]. apply orb_false_iff in E as [H1 H2]. boolify. lia.
Qed.

Lemma mul_div_characterized_witness :
  mul_div 6 7 4 = Some 10 /\ mul_div (2 ^ 63) 10000 (2 ^ 63 + 1) = None.
Proof.
  split.
  - apply (mul_div_characterized 6 7 4 10); [ulia..|]. split_and!; try reflexivity; [lia|left; lia].
  - vm_compute. reflexivity.
Defined.

(** A share whose scaled part no longer fits 64 bits is reported as the whole:
    whatever fraction of the whole the part is, [to_basis_points] answers 10000. *)
Theorem wide_share_saturates (part whole : Z) :
  0 <= part < whole -> u64_ok whole -> 2 ^ 64 <= part * kBasisPointsScale ->
  to_basis_points part whole = kBasisPointsScale.
Proof.
  intros Hp Hw Hbig. unfold to_basis_points, kBasisPointsScale in *.
  replace (whole =? 0) with false by lia. replace (part >=? whole) with false by lia.
  rewrite mul_div_spec by ulia. unfold mul_div_value.
  rewrite (Z.mod_small part) by lia. rewrite (Z.mod_small 10000) by lia.
  replace (part * 10000 <? 2 ^ 64) with false by lia. replace (part =? 0) with false by lia.
  simpl. by rewrite andb_false_r.
Qed.

(** A quarter, reported as all of it. *)
Lemma wide_share_saturates_witness : to_basis_points (2 ^ 61) (2 ^ 63) = 10000.
Proof. apply (wide_share_saturates (2 ^ 61) (2 ^ 63)); [lia|ulia|unfold kBasisPointsScale; lia]. Defined.
