(* ===== verification/Tri.v ===== *)
(** * Three valued reasoning and reason codes ([include/efg/tri.hpp])

    Kleene connectives over [True_], [False_], [Unknown], and the bitmask of reason
    codes. The information order [tri_le] ("[Unknown] may become anything, a known
    answer stays") is what the policy evaluator's theorems are stated in. *)
From S2P Require Import Prelude.

Module Tri.
Inductive t : Type := False_ | True_ | Unknown.
#[global] Instance eq_dec : EqDecision t.
Proof. solve_decision. Defined.

(** [static_cast<u8>(value)]. *)
Definition to_u8 (v : t) : Z := match v with False_ => 0 | True_ => 1 | Unknown => 2 end.
End Tri.

Definition tri_not (value : Tri.t) : Tri.t :=
  match value with
  | Tri.False_ => Tri.True_
  | Tri.True_ => Tri.False_
  | Tri.Unknown => Tri.Unknown
  end.

Definition tri_is (v w : Tri.t) : bool := bool_decide (v = w).

Definition tri_and (lhs rhs : Tri.t) : Tri.t :=
  if tri_is lhs Tri.False_ || tri_is rhs Tri.False_ then Tri.False_
  else if tri_is lhs Tri.Unknown || tri_is rhs Tri.Unknown then Tri.Unknown
  else Tri.True_.

Definition tri_or (lhs rhs : Tri.t) : Tri.t :=
  if tri_is lhs Tri.True_ || tri_is rhs Tri.True_ then Tri.True_
  else if tri_is lhs Tri.Unknown || tri_is rhs Tri.Unknown then Tri.Unknown
  else Tri.False_.

Definition tri_from_bool (value : bool) : Tri.t := if value then Tri.True_ else Tri.False_.
Definition tri_is_true (value : Tri.t) : bool := tri_is value Tri.True_.
Definition tri_is_unknown (value : Tri.t) : bool := tri_is value Tri.Unknown.

(** ** Reason codes: bits of a 64 bit mask *)

Module ReasonCode.
Definition None : Z := 0.
Definition VolumeThresholdMet : Z := Z.shiftl 1 0.
Definition DurationThresholdMet : Z := Z.shiftl 1 1.
Definition SustainedRateThresholdMet : Z := Z.shiftl 1 2.
Definition ResourceShareThresholdMet : Z := Z.shiftl 1 3.
Definition PolicyRuleSatisfied : Z := Z.shiftl 1 4.
Definition HysteresisHeld : Z := Z.shiftl 1 5.
Definition ExitThresholdNotReached : Z := Z.shiftl 1 6.
Definition BelowVolumeThreshold : Z := Z.shiftl 1 8.
Definition BelowDurationThreshold : Z := Z.shiftl 1 9.
Definition BelowRateThreshold : Z := Z.shiftl 1 10.
Definition BelowShareThreshold : Z := Z.shiftl 1 11.
Definition PolicyRuleNotSatisfied : Z := Z.shiftl 1 12.
Definition EvidenceMissing : Z := Z.shiftl 1 13.
Definition EvidenceStale : Z := Z.shiftl 1 14.
Definition EvidenceUnknownField : Z := Z.shiftl 1 15.
Definition TelemetryGap : Z := Z.shiftl 1 16.
Definition CapacityMissing : Z := Z.shiftl 1 17.
Definition CapacityStale : Z := Z.shiftl 1 18.
Definition PathUnknown : Z := Z.shiftl 1 19.
Definition PathGenerationChanged : Z := Z.shiftl 1 20.
Definition FlowGenerationChanged : Z := Z.shiftl 1 21.
Definition PolicyChanged : Z := Z.shiftl 1 22.
Definition FlowCompleted : Z := Z.shiftl 1 23.
Definition PolicyRuleIndeterminate : Z := Z.shiftl 1 24.
Definition RevalidationRequired : Z := Z.shiftl 1 25.
Definition ProtectedObligation : Z := Z.shiftl 1 32.
Definition NonPreemptibleObligation : Z := Z.shiftl 1 33.
Definition ReservedCapacityBounded : Z := Z.shiftl 1 34.
Definition ControlClassBounded : Z := Z.shiftl 1 35.
Definition GovernanceAuthorized : Z := Z.shiftl 1 40.
Definition GovernanceSuppressed : Z := Z.shiftl 1 41.
Definition GovernanceClampedToBounds : Z := Z.shiftl 1 42.
Definition ImpactBelowActionThreshold : Z := Z.shiftl 1 43.
Definition ContentionBelowActionThreshold : Z := Z.shiftl 1 44.
End ReasonCode.

Definition has_reason (set flag : Z) : bool := negb (Z.land set flag =? 0).
Definition clear_reason (set flag : Z) : Z := Z.ldiff set flag.

(** ** The information order *)

Definition tri_le (a b : Tri.t) : Prop := a = Tri.Unknown \/ a = b.

#[global] Instance tri_le_preorder : PreOrder tri_le.
Proof. split; [by right | intros ? ? ? [-> | <-] ?; [by left|done]]. Qed.

#[global] Instance tri_not_proper : Proper (tri_le ==> tri_le) tri_not.
Proof. intros [] [] [|]; simplify_eq; unfold tri_le; auto. Qed.

#[global] Instance tri_and_proper : Proper (tri_le ==> tri_le ==> tri_le) tri_and.
Proof. intros [] [] [|] [] [] [|]; simplify_eq; unfold tri_le; auto. Qed.

#[global] Instance tri_or_proper : Proper (tri_le ==> tri_le ==> tri_le) tri_or.
Proof. intros [] [] [|] [] [] [|]; simplify_eq; unfold tri_le; auto. Qed.

Lemma tri_le_known a b : tri_le a b -> a <> Tri.Unknown -> b = a.
Proof. intros [-> | ->]; done. Qed.

Lemma tri_and_True a b : tri_and a b = Tri.True_ <-> a = Tri.True_ /\ b = Tri.True_.
Proof. destruct a, b; split; try done; by intros []. Qed.

Lemma tri_or_True a b : tri_or a b = Tri.True_ <-> a = Tri.True_ \/ b = Tri.True_.
Proof. destruct a, b; split; try done; try (by intros [|]); auto. Qed.

Lemma tri_and_False a b : tri_and a b = Tri.False_ <-> a = Tri.False_ \/ b = Tri.False_.
Proof. destruct a, b; split; try done; try (by intros [|]); auto. Qed.

Lemma tri_and_assoc a b c : tri_and a (tri_and b c) = tri_and (tri_and a b) c.
Proof. by destruct a, b, c. Qed.

Lemma tri_de_morgan a b : tri_not (tri_and a b) = tri_or (tri_not a) (tri_not b).
Proof. by destruct a, b. Qed.

(** ** Reason masks *)

Lemma has_reason_lor_l a b flag : has_reason a flag = true -> has_reason (Z.lor a b) flag = true.
Proof.
  unfold has_reason. rewrite !negb_true_iff, !Z.eqb_neq, Z.land_lor_distr_l.
  intros H E. apply Z.lor_eq_0_iff in E. tauto.
Qed.

Lemma has_reason_lor_r a b flag : has_reason b flag = true -> has_reason (Z.lor a b) flag = true.
Proof. rewrite Z.lor_comm. apply has_reason_lor_l. Qed.

Lemma has_reason_lor a b flag :
  has_reason (Z.lor a b) flag = has_reason a flag || has_reason b flag.
Proof.
  destruct (has_reason a flag) eqn:Ea; [by apply has_reason_lor_l|].
  destruct (has_reason b flag) eqn:Eb; [by apply has_reason_lor_r|].
  unfold has_reason in *. boolify.
  apply negb_false_iff, Z.eqb_eq. rewrite Z.land_lor_distr_l, Ea, Eb. done.
Qed.

#[export] Hint Resolve has_reason_lor_l has_reason_lor_r : efg.
