(* ===== verification/Tick.v ===== *)
(** * Logical time and identity ([include/efg/tick.hpp], [include/efg/identity.hpp])

    Ticks are 64 bit integers supplied by the caller. [TickSpan] and
    [ValidityWindow] are half open intervals; [TickGuard] refuses a decision tick
    below the last one committed. Identifiers are 64 bit values with 0 reserved for
    "absent"; generations are advanced with an exhaustion check. *)
From S2P Require Import Prelude Status Checked.

Abbreviation Tick := Z.

Module TickSpan.
Record t := mk { begin_ : Tick; end_ : Tick }.
#[global] Instance eta_t : Eta t := fun r => mk (begin_ r) (end_ r).
#[global] Instance eq_dec : EqDecision t.
Proof. solve_decision. Defined.

Definition default : t := mk 0 0.
Definition empty (s : t) : bool := end_ s <=? begin_ s.
Definition length (s : t) : Z :=
  if end_ s >? begin_ s then wrap 64 (end_ s - begin_ s) else 0.
Definition contains (s : t) (x : Tick) : bool := (x >=? begin_ s) && (x <? end_ s).
Definition overlaps (s other : t) : bool :=
  (begin_ s <? end_ other) && (begin_ other <? end_ s).
Definition adjoins (s other : t) : bool :=
  (end_ s =? begin_ other) || (end_ other =? begin_ s).
End TickSpan.

Module ValidityWindow.
Record t := mk { issued_at : Tick; expires_at : Tick }.
#[global] Instance eta_t : Eta t := fun r => mk (issued_at r) (expires_at r).
#[global] Instance eq_dec : EqDecision t.
Proof. solve_decision. Defined.

Definition default : t := mk 0 0.
Definition well_formed (w : t) : bool := expires_at w >? issued_at w.
Definition contains (w : t) (now : Tick) : bool :=
  well_formed w && (now >=? issued_at w) && (now <? expires_at w).
Definition expired_at (w : t) (now : Tick) : bool :=
  well_formed w && (now >=? expires_at w).
Definition future_at (w : t) (now : Tick) : bool := now <? issued_at w.
Definition length (w : t) : Z :=
  if expires_at w >? issued_at w then wrap 64 (expires_at w - issued_at w) else 0.
End ValidityWindow.

Module FreshnessVerdict.
Inductive t : Type := Fresh | NotYetValid | Expired | Malformed | Regressed.
#[global] Instance eq_dec : EqDecision t.
Proof. solve_decision. Defined.
End FreshnessVerdict.

Definition evaluate_freshness (window : ValidityWindow.t) (now : Tick) : FreshnessVerdict.t :=
  if negb (ValidityWindow.well_formed window) then FreshnessVerdict.Malformed
  else if now <? ValidityWindow.issued_at window then FreshnessVerdict.NotYetValid
  else if now >=? ValidityWindow.expires_at window then FreshnessVerdict.Expired
  else FreshnessVerdict.Fresh.

Definition is_fresh (window : ValidityWindow.t) (now : Tick) : bool :=
  bool_decide (evaluate_freshness window now = FreshnessVerdict.Fresh).

Definition make_validity (issued_at : Tick) (duration : Z) : StatusOr ValidityWindow.t :=
  if duration =? 0 then Err StatusCode.InvalidArgument
  else match add_overflow issued_at duration with
       | None => Err StatusCode.Overflow
       | Some expires => Val (ValidityWindow.mk issued_at expires)
       end.

Module TickGuard.
Record t := mk { last_ : Tick; initialized_ : bool }.
#[global] Instance eta_t : Eta t := fun r => mk (last_ r) (initialized_ r).
Definition default : t := mk 0 false.

Definition observe (now : Tick) : M t unit := fun g =>
  if initialized_ g && (now <? last_ g) then (g, Err StatusCode.Stale)
  else (g <| initialized_ := true |> <| last_ := now |>, Val tt).

Definition reset (g : t) : t := g <| initialized_ := false |> <| last_ := 0 |>.
End TickGuard.

(** ** Identities *)

Abbreviation FlowId := Z.
Abbreviation PathId := Z.
Abbreviation ResourceId := Z.
Abbreviation EvidenceWindowId := Z.
Abbreviation CapacitySnapshotId := Z.
Abbreviation PolicyId := Z.
Abbreviation ClassificationId := Z.
Abbreviation IntentId := Z.
Abbreviation AttemptId := Z.
Abbreviation EpochId := Z.
Abbreviation BootId := Z.
Abbreviation PublisherId := Z.
Abbreviation ReservationId := Z.
Abbreviation TenantId := Z.
Abbreviation SequenceNumber := Z.
Abbreviation Generation := Z.

(** [StrongId::valid] and [Generation::valid]. *)
Definition id_valid (v : Z) : bool := negb (v =? 0).

Definition generation_initial : Generation := 1.

Definition generation_next (g : Generation) : StatusOr Generation :=
  if g =? u64_max then Err StatusCode.Overflow else Val (wrap 64 (g + 1)).

Definition advance_generation (current : Generation) : StatusOr Generation :=
  match generation_next current with
  | Val next => Val next
  | Err _ => Err StatusCode.Overflow
  end.

Module EpochCounter.
Record t := mk { current_ : EpochId }.
#[global] Instance eta_t : Eta t := fun r => mk (current_ r).
Definition advance : M t EpochId := fun c =>
  if current_ c =? u64_max then (c, Err StatusCode.Overflow)
  else let c' := c <| current_ := wrap 64 (current_ c + 1) |> in (c', Val (current_ c')).
Definition force (value : EpochId) (c : t) : t := c <| current_ := value |>.
End EpochCounter.

Module BindingVerdict.
Inductive t : Type :=
| Match
| FlowGenerationChanged
| PathGenerationChanged
| CapacityGenerationChanged
| PolicyGenerationChanged
| EvidenceWindowSuperseded
| EpochChanged
| BootChanged
| PublisherChanged
| PublisherIncarnationChanged
| Absent.
#[global] Instance eq_dec : EqDecision t.
Proof. solve_decision. Defined.
End BindingVerdict.

Module PublisherRef.
Record t := mk { publisher : PublisherId; boot : BootId; epoch : EpochId; sequence : SequenceNumber }.
#[global] Instance eta_t : Eta t := fun r => mk (publisher r) (boot r) (epoch r) (sequence r).
#[global] Instance eq_dec : EqDecision t.
Proof. solve_decision. Defined.
Definition default : t := mk 0 0 0 0.
Definition valid (p : t) : bool := id_valid (publisher p) && id_valid (boot p).
End PublisherRef.

Definition kSchemaVersion : Z := 1.

Module Provenance.
Record t := mk {
  publisher : PublisherRef.t; emitted_at : Tick; schema_version : Z; digest : Z }.
#[global] Instance eta_t : Eta t :=
  fun r => mk (publisher r) (emitted_at r) (schema_version r) (digest r).
#[global] Instance eq_dec : EqDecision t.
Proof. solve_decision. Defined.
Definition default : t := mk PublisherRef.default 0 kSchemaVersion 0.
Definition valid (p : t) : bool :=
  PublisherRef.valid (publisher p) && negb (schema_version p =? 0).
End Provenance.

Module BootIdentity.
Record t := mk { boot : BootId; epoch : EpochId; started_at : Tick; monotonic_seed : Z }.
#[global] Instance eta_t : Eta t := fun r => mk (boot r) (epoch r) (started_at r) (monotonic_seed r).
Definition default : t := mk 0 0 0 0.
Definition valid (b : t) : bool := id_valid (boot b).
End BootIdentity.

(** ** Facts *)

Lemma is_fresh_spec w now :
  is_fresh w now = true <->
  ValidityWindow.issued_at w <= now < ValidityWindow.expires_at w.
Proof.
  unfold is_fresh, evaluate_freshness, ValidityWindow.well_formed.
  rewrite bool_decide_eq_true. split_ifs; split; intros; try done; lia.
Qed.

Lemma expired_not_fresh w now :
  ValidityWindow.expired_at w now || negb (ValidityWindow.well_formed w) = true ->
  is_fresh w now = false.
Proof.
  intros H. apply not_true_iff_false. rewrite is_fresh_spec.
  unfold ValidityWindow.expired_at, ValidityWindow.well_formed in H. lia.
Qed.

Lemma make_validity_fresh issued duration w now :
  u64_ok issued -> u64_ok duration ->
  make_validity issued duration = Val w ->
  is_fresh w now = true <-> issued <= now < issued + duration.
Proof.
  intros Hi Hd. unfold make_validity. rewrite add_overflow_spec by done. rewrite is_fresh_spec.
  split_ifs; simpl; intros [= <-]. done.
Qed.

Lemma generation_next_lt g g' : u64_ok g -> generation_next g = Val g' -> g < g' /\ u64_ok g'.
Proof.
  intros Hg. unfold generation_next. split_ifs; [done|]. intros [= <-].
  rewrite wrap_small; ulia.
Qed.
