(* ===== verification/Hash.v ===== *)
(** * Digests, checksums and byte buffers ([include/efg/hash.hpp], [src/hash.cpp])

    [Hasher] is the FNV-1a digest with a splitmix finalizer, [crc32c] the table
    driven Castagnoli checksum, [ByteWriter] and [ByteReader] the bounded buffers
    of the canonical codecs. A byte is a [Z] in [0, 256). *)
From Stdlib Require Import Btauto.
From S2P Require Import Prelude.

(** The bytes of [value] in the order the writers emit them:
    [(value >> shift) & 0xFF] for [shift = 0, 8, ...]. *)
Definition le_bytes (n : nat) (value : Z) : list Z :=
  (fun i : nat => Z.land (Z.shiftr value (8 * Z.of_nat i)) 0xFF) <$> seq 0 n.

Definition byte_ok (b : Z) : Prop := 0 <= b < 256.

Module Hasher.
Definition kFnvOffsetBasis : Z := 0xCBF29CE484222325.
Definition kFnvPrime : Z := 0x00000100000001B3.

(** The state of a [Hasher] is its single member [state_]. *)
Definition write_byte (state value : Z) : Z := wrap 64 (Z.lxor state value * kFnvPrime).
Definition write (bytes : list Z) (state : Z) : Z := foldl write_byte state bytes.

(** [write_decimal]: the digits of the value, most significant first. Twenty digits
    cover the 64 bit range. *)
Fixpoint decimal_digits (fuel : nat) (value : Z) (acc : list Z) : list Z :=
  match fuel with
  | O => acc
  | S fuel => if value =? 0 then acc
              else decimal_digits fuel (value / 10) (48 + value mod 10 :: acc)
  end.
Definition write_decimal (value state : Z) : Z :=
  if value =? 0 then write_byte state 48 else write (decimal_digits 20 value []) state.

Definition write_u8 (value state : Z) : Z := write_byte state value.
Definition write_u16 (value state : Z) : Z := write (le_bytes 2 value) state.
Definition write_u32 (value state : Z) : Z := write (le_bytes 4 value) state.
Definition write_u64 (value state : Z) : Z := write (le_bytes 8 value) state.
Definition write_bool (value : bool) (state : Z) : Z := write_byte state (if value then 1 else 0).
Definition write_digest (digest state : Z) : Z := write_u64 digest state.

Definition finish (state : Z) : Z :=
  let z := state in
  let z := wrap 64 (Z.lxor z (Z.shiftr z 30) * 0xBF58476D1CE4E5B9) in
  let z := wrap 64 (Z.lxor z (Z.shiftr z 27) * 0x94D049BB133111EB) in
  Z.lxor z (Z.shiftr z 31).

(** A fresh [Hasher] fed a sequence of writes and finished. *)
Definition digest_of (writes : list (Z -> Z)) : Z :=
  finish (foldl (fun s w => w s) kFnvOffsetBasis writes).
End Hasher.

Definition stable_hash64 (bytes : list Z) : Z :=
  Hasher.finish (Hasher.write bytes Hasher.kFnvOffsetBasis).

(** ** CRC-32C *)

Definition kCrc32cPolynomial : Z := 0x82F63B78.

Definition crc_bit (crc : Z) : Z :=
  if negb (Z.land crc 1 =? 0) then Z.lxor (Z.shiftr crc 1) kCrc32cPolynomial
  else Z.shiftr crc 1.

(** [Crc32cTable::entries[index]]. *)
Definition crc_entry (index : Z) : Z := Nat.iter 8 crc_bit index.

Definition crc_step (crc b : Z) : Z :=
  Z.lxor (crc_entry (Z.land (Z.lxor crc b) 0xFF)) (Z.shiftr crc 8).

Definition crc32c (bytes : list Z) : Z :=
  Z.lxor (foldl crc_step 0xFFFFFFFF bytes) 0xFFFFFFFF.

Module Crc32c.
Record t := mk { value_ : Z; size_ : Z }.
#[global] Instance eta_t : Eta t := fun r => mk (value_ r) (size_ r).
Definition default : t := mk 0 0.
Definition update (bytes : list Z) (c : t) : t :=
  let crc := foldl crc_step (Z.lxor (value_ c) 0xFFFFFFFF) bytes in
  c <| value_ := Z.lxor crc 0xFFFFFFFF |> <| size_ := wrap 64 (size_ c + size_of bytes) |>.
Definition empty (c : t) : bool := size_ c =? 0.
End Crc32c.

(** ** Bounded byte writer *)

Module ByteWriter.
Record t := mk { buffer_ : list Z; ceiling_ : Z; overflowed_ : bool }.
#[global] Instance eta_t : Eta t := fun r => mk (buffer_ r) (ceiling_ r) (overflowed_ r).
Definition make (ceiling : Z) : t := mk [] ceiling false.
Definition size (w : t) : Z := size_of (buffer_ w).

Definition reserve (additional : Z) (w : t) : t * bool :=
  if overflowed_ w then (w, false)
  else if (additional >? ceiling_ w) || (size w >? ceiling_ w - additional)
  then (w <| overflowed_ := true |>, false)
  else (w, true).

(** [reserve(n)] followed by pushing [n] bytes. *)
Definition push (bytes : list Z) (w : t) : t * bool :=
  let '(w, r) := reserve (size_of bytes) w in
  if r then (w <| buffer_ ::= (fun b => b ++ bytes) |>, true) else (w, false).

Definition write_u8 (value : Z) (w : t) : t * bool := push [value] w.
Definition write_u16 (value : Z) (w : t) : t * bool := push (le_bytes 2 value) w.
Definition write_u32 (value : Z) (w : t) : t * bool := push (le_bytes 4 value) w.
Definition write_u64 (value : Z) (w : t) : t * bool := push (le_bytes 8 value) w.
Definition write_bool (value : bool) (w : t) : t * bool := write_u8 (if value then 1 else 0) w.
Definition write_bytes (bytes : list Z) (w : t) : t * bool := push bytes w.
Definition write_string (text : list Z) (w : t) : t * bool :=
  if size_of text >? 0xFFFFFFFF then (w <| overflowed_ := true |>, false)
  else
    let '(w, r) := write_u32 (size_of text) w in
    if r then push text w else (w, false).
End ByteWriter.

(** ** Bounds-checked byte reader

    A read that fails leaves no output: [None]. *)

Module ByteReader.
Record t := mk { data_ : list Z; offset_ : nat }.
#[global] Instance eta_t : Eta t := fun r => mk (data_ r) (offset_ r).
Definition make (data : list Z) : t := mk data 0.
Definition remaining (r : t) : nat := (length (data_ r) - offset_ r)%nat.
Definition at_end (r : t) : bool := (offset_ r =? length (data_ r))%nat.

(** [value |= byte << (8 * i)] over the next [n] bytes. *)
Definition le_value (bytes : list Z) : Z :=
  foldr (fun b acc => Z.lor b (Z.shiftl acc 8)) 0 bytes.

Definition read_le (n : nat) (r : t) : t * option Z :=
  if (remaining r <? n)%nat then (r, None)
  else (r <| offset_ ::= Nat.add n |>, Some (le_value (take n (drop (offset_ r) (data_ r))))).

Definition read_u8 : t -> t * option Z := read_le 1.
Definition read_u16 : t -> t * option Z := read_le 2.
Definition read_u32 : t -> t * option Z := read_le 4.
Definition read_u64 : t -> t * option Z := read_le 8.

Definition read_bool (r : t) : t * option bool :=
  let '(r, raw) := read_u8 r in
  match raw with
  | None => (r, None)
  | Some raw => if raw >? 1 then (r, None) else (r, Some (raw =? 1))
  end.

Definition read_bytes (count : Z) (r : t) : t * option (list Z) :=
  if Z.of_nat (remaining r) <? count then (r, None)
  else (r <| offset_ ::= Nat.add (Z.to_nat count) |>,
        Some (take (Z.to_nat count) (drop (offset_ r) (data_ r)))).

Definition read_string (max_bytes : Z) (r : t) : t * option (list Z) :=
  let '(r, length) := read_u32 r in
  match length with
  | None => (r, None)
  | Some length => if length >? max_bytes then (r, None) else read_bytes length r
  end.
End ByteReader.

#[global] Arguments le_bytes : simpl never.

(** ** Little endian bytes *)

Lemma length_le_bytes n v : length (le_bytes n v) = n.
Proof. unfold le_bytes. by rewrite length_fmap, length_seq. Qed.

Lemma le_bytes_0 v : le_bytes 0 v = [].
Proof. done. Qed.

Lemma le_bytes_S n v : le_bytes (S n) v = v mod 256 :: le_bytes n (v / 256).
Proof.
  unfold le_bytes. cbn [seq fmap list_fmap]. f_equal.
  - change 0xFF with (2 ^ 8 - 1). rewrite land_ones_mod, Z.shiftr_0_r by lia. done.
  - rewrite <- fmap_S_seq, <- list_fmap_compose. apply list_fmap_ext. intros i x _. simpl.
    change (v / 256) with (v / 2 ^ 8). rewrite <- Z.shiftr_div_pow2 by lia.
    rewrite Z.shiftr_shiftr by lia. do 2 f_equal. lia.
Qed.

Lemma le_bytes_ok n : forall v, Forall byte_ok (le_bytes n v).
Proof.
  induction n; intros v; [constructor|]. rewrite le_bytes_S. constructor; [|done].
  unfold byte_ok. apply Z.mod_pos_bound. lia.
Qed.

Lemma le_value_cons b bs : byte_ok b ->
  ByteReader.le_value (b :: bs) = b + 256 * ByteReader.le_value bs.
Proof.
  intros. unfold ByteReader.le_value. cbn [foldr]. change 256 with (2 ^ 8).
  rewrite lor_shiftl_add; [lia|lia|done].
Qed.

Lemma le_value_bytes n : forall v, ByteReader.le_value (le_bytes n v) = v mod 256 ^ Z.of_nat n.
Proof.
  induction n as [|n IH]; intros v.
  - simpl. rewrite Z.mod_1_r. done.
  - rewrite le_bytes_S, le_value_cons, IH by (apply Z.mod_pos_bound; lia).
    rewrite Nat2Z.inj_succ, Z.pow_succ_r by lia.
    rewrite Z.rem_mul_r by lia. lia.
Qed.

Lemma le_bytes_inj n v w :
  0 <= v < 256 ^ Z.of_nat n -> 0 <= w < 256 ^ Z.of_nat n -> le_bytes n v = le_bytes n w -> v = w.
Proof.
  intros Hv Hw E. apply (f_equal ByteReader.le_value) in E.
  rewrite !le_value_bytes, !Z.mod_small in E by done. done.
Qed.

(** ** Injectivity of the digest steps *)

(** Multiplication by an odd constant is undone by its inverse. *)
Lemma wrap_mul_inj c c' x y :
  wrap 64 (c * c') = 1 -> u64_ok x -> u64_ok y ->
  wrap 64 (x * c) = wrap 64 (y * c) -> x = y.
Proof.
  intros Hc Hx Hy E. unfold wrap in *.
  apply (f_equal (fun z => (z * c') mod 2 ^ 64)) in E.
  rewrite !Z.mul_mod_idemp_l in E by lia.
  rewrite <- !Z.mul_assoc, <- !(Z.mul_mod_idemp_r _ (c * c')), Hc, !Z.mul_1_r in E by lia.
  rewrite !Z.mod_small in E by done. done.
Qed.

(** [z ^ (z >> k)] is injective. *)
Lemma xorshift_inj k x y :
  0 < k -> 0 <= x -> 0 <= y ->
  Z.lxor x (Z.shiftr x k) = Z.lxor y (Z.shiftr y k) -> x = y.
Proof.
  intros Hk Hx Hy E. set (d := Z.lxor x y).
  assert (Hd : d = Z.shiftr d k).
  { unfold d. rewrite Z.shiftr_lxor. apply Z.lxor_eq.
    rewrite <- (Z.lxor_nilpotent (Z.lxor x (Z.shiftr x k))). rewrite E at 2.
    apply Z.bits_inj'. intros n Hn. rewrite !Z.lxor_spec. btauto. }
  assert (0 <= d) by (apply Z.lxor_nonneg; lia).
  rewrite Z.shiftr_div_pow2 in Hd by lia.
  assert (2 <= 2 ^ k) by (change 2 with (2 ^ 1) at 1; apply Z.pow_le_mono_r; lia).
  destruct (Z.eq_dec d 0) as [Hz|Hz]; [by apply Z.lxor_eq|].
  pose proof (Z.div_lt d (2 ^ k)). lia.
Qed.

Lemma lxor_range w x y : 0 <= w -> in_range w x -> in_range w y -> in_range w (Z.lxor x y).
Proof.
  intros Hw Hx Hy. unfold in_range in *. split; [apply Z.lxor_nonneg; lia|].
  destruct (Z.eq_dec (Z.lxor x y) 0) as [->|Hn]; [lia|].
  assert (0 <= Z.lxor x y) by (apply Z.lxor_nonneg; lia).
  apply Z.log2_lt_pow2; [lia|].
  pose proof (Z.log2_lxor x y ltac:(lia) ltac:(lia)).
  destruct (Z.eq_dec w 0) as [->|Hw0].
  { assert (x = 0) by lia. assert (y = 0) by lia. subst. done. }
  assert (Hlog : forall z, 0 <= z < 2 ^ w -> Z.log2 z < w).
  { intros z Hz. destruct (Z.eq_dec z 0) as [->|]; [change (Z.log2 0) with 0; lia|].
    apply Z.log2_lt_pow2; lia. }
  pose proof (Hlog x Hx). pose proof (Hlog y Hy). lia.
Qed.

Lemma shiftr_range w x k : 0 <= k -> in_range w x -> in_range w (Z.shiftr x k).
Proof.
  intros Hk [H1 H2]. unfold in_range. rewrite Z.shiftr_div_pow2 by lia. split.
  - apply Z.div_pos; lia.
  - apply Z.le_lt_trans with x; [|done]. apply Z.div_le_upper_bound; [lia|].
    assert (1 <= 2 ^ k) by lia. nia.
Qed.
#[export] Hint Resolve lxor_range shiftr_range : efg.

Lemma finish_range s : u64_ok s -> u64_ok (Hasher.finish s).
Proof. intros. unfold Hasher.finish. auto 8 with efg lia. Qed.

Lemma finish_inj s s' :
  u64_ok s -> u64_ok s' -> Hasher.finish s = Hasher.finish s' -> s = s'.
Proof.
  intros Hs Hs' E. unfold Hasher.finish in E.
  apply xorshift_inj in E; [|lia|apply wrap_range; lia|apply wrap_range; lia].
  apply (wrap_mul_inj _ 3573116690164977347) in E; [|done|auto with efg lia..].
  apply xorshift_inj in E; [|lia|apply wrap_range; lia|apply wrap_range; lia].
  apply (wrap_mul_inj _ 10871156337175269513) in E; [|done|auto with efg lia..].
  apply xorshift_inj in E; [done|lia|ulia|ulia].
Qed.

Lemma byte_u64 b : byte_ok b -> u64_ok b.
Proof. unfold byte_ok. ulia. Qed.
#[export] Hint Resolve byte_u64 finish_range : efg.

Lemma lxor_cancel_l a x y : Z.lxor a x = Z.lxor a y -> x = y.
Proof.
  intros E. apply (f_equal (Z.lxor a)) in E.
  rewrite <- !Z.lxor_assoc in E. rewrite Z.lxor_nilpotent, !Z.lxor_0_l in E. done.
Qed.

Lemma digest_range ws : u64_ok (Hasher.digest_of ws).
Proof.
  unfold Hasher.digest_of, Hasher.finish. set (z := wrap 64 (_ * 0x94D049BB133111EB)).
  assert (Hz : u64_ok z) by (apply wrap_range; lia). clearbody z. auto with efg lia.
Qed.

Lemma write_byte_range s b : u64_ok (Hasher.write_byte s b).
Proof. apply wrap_range. lia. Qed.
#[export] Hint Resolve write_byte_range : efg.

Lemma write_byte_inj_state b s s' :
  byte_ok b -> u64_ok s -> u64_ok s' ->
  Hasher.write_byte s b = Hasher.write_byte s' b -> s = s'.
Proof.
  intros Hb Hs Hs' E. apply (wrap_mul_inj _ 14886173955864302971) in E;
    [|done|auto with efg lia..].
  rewrite !(Z.lxor_comm _ b) in E. by apply lxor_cancel_l in E.
Qed.

Lemma write_byte_inj_byte s b b' :
  byte_ok b -> byte_ok b' -> u64_ok s ->
  Hasher.write_byte s b = Hasher.write_byte s b' -> b = b'.
Proof.
  intros Hb Hb' Hs E. apply (wrap_mul_inj _ 14886173955864302971) in E;
    [|done|auto with efg lia..].
  by apply lxor_cancel_l in E.
Qed.

Lemma write_range bytes s : u64_ok s -> u64_ok (Hasher.write bytes s).
Proof.
  revert s. induction bytes; intros s Hs; [done|]. simpl. apply IHbytes. auto with efg.
Qed.
#[export] Hint Resolve write_range : efg.

Lemma write_inj_state bytes : Forall byte_ok bytes -> forall s s',
  u64_ok s -> u64_ok s' -> Hasher.write bytes s = Hasher.write bytes s' -> s = s'.
Proof.
  induction 1 as [|b bytes Hb Hbs IH]; intros s s' Hs Hs' E; [done|].
  simpl in E. apply IH in E; [|auto with efg..]. by apply write_byte_inj_state in E.
Qed.

Lemma write_app bs bs' s : Hasher.write (bs ++ bs') s = Hasher.write bs' (Hasher.write bs s).
Proof. unfold Hasher.write. by rewrite foldl_app. Qed.

(** ** CRC-32C *)

(** The top byte of a table entry names its index: the table of the indices by top
    byte, and the check that it inverts [crc_entry]. *)
Definition crc_index_of_top : list Z :=
  [0; 241; 226; 19; 196; 53; 38; 215; 136; 121; 106; 155; 76; 189; 174; 95;
   16; 225; 242; 3; 212; 37; 54; 199; 152; 105; 122; 139; 92; 173; 190; 79;
   32; 209; 194; 51; 228; 21; 6; 247; 168; 89; 74; 187; 108; 157; 142; 127;
   48; 193; 210; 35; 244; 5; 22; 231; 184; 73; 90; 171; 124; 141; 158; 111;
   177; 64; 83; 162; 117; 132; 151; 102; 57; 200; 219; 42; 253; 12; 31; 238;
   161; 80; 67; 178; 101; 148; 135; 118; 41; 216; 203; 58; 237; 28; 15; 254;
   145; 96; 115; 130; 85; 164; 183; 70; 25; 232; 251; 10; 221; 44; 63; 206;
   129; 112; 99; 146; 69; 180; 167; 86; 9; 248; 235; 26; 205; 60; 47; 222;
   98; 147; 128; 113; 166; 87; 68; 181; 234; 27; 8; 249; 46; 223; 204; 61;
   114; 131; 144; 97; 182; 71; 84; 165; 250; 11; 24; 233; 62; 207; 220; 45;
   66; 179; 160; 81; 134; 119; 100; 149; 202; 59; 40; 217; 14; 255; 236; 29;
   82; 163; 176; 65; 150; 103; 116; 133; 218; 43; 56; 201; 30; 239; 252; 13;
   211; 34; 49; 192; 23; 230; 245; 4; 91; 170; 185; 72; 159; 110; 125; 140;
   195; 50; 33; 208; 7; 246; 229; 20; 75; 186; 169; 88; 143; 126; 109; 156;
   243; 2; 17; 224; 55; 198; 213; 36; 123; 138; 153; 104; 191; 78; 93; 172;
   227; 18; 1; 240; 39; 214; 197; 52; 107; 154; 137; 120; 175; 94; 77; 188].

Definition crc_top_inverted : bool :=
  forallb (fun i => nth (Z.to_nat (Z.shiftr (crc_entry i) 24)) crc_index_of_top (-1) =? i)
    (Z.of_nat <$> seq 0 256).

Lemma crc_top_inverted_true : crc_top_inverted = true.
Proof. vm_compute. reflexivity. Qed.

Lemma byte_in_seq i : byte_ok i -> In i (Z.of_nat <$> seq 0 256).
Proof.
  intros Hi. apply list_elem_of_In, list_elem_of_fmap. exists (Z.to_nat i).
  unfold byte_ok in Hi. split; [lia|]. apply elem_of_seq. lia.
Qed.

Lemma crc_top_inj i j :
  byte_ok i -> byte_ok j -> Z.shiftr (crc_entry i) 24 = Z.shiftr (crc_entry j) 24 -> i = j.
Proof.
  intros Hi Hj E. pose proof crc_top_inverted_true as H. unfold crc_top_inverted in H.
  rewrite forallb_forall in H.
  pose proof (H i (byte_in_seq i Hi)) as H1. pose proof (H j (byte_in_seq j Hj)) as H2.
  apply Z.eqb_eq in H1, H2. rewrite <- H1, <- H2, E. done.
Qed.

Lemma crc_bit_range c : u32_ok c -> u32_ok (crc_bit c).
Proof.
  intros. unfold crc_bit. split_ifs; auto with efg lia.
  apply lxor_range; [lia|auto with efg lia|]. unfold in_range, kCrc32cPolynomial. lia.
Qed.

Lemma crc_entry_range i : byte_ok i -> u32_ok (crc_entry i).
Proof.
  intros. unfold crc_entry. apply Nat.iter_invariant; [auto using crc_bit_range|].
  unfold byte_ok in *. ulia.
Qed.

Lemma crc_index_ok crc b : byte_ok (Z.land (Z.lxor crc b) 0xFF).
Proof.
  change 0xFF with (2 ^ 8 - 1). rewrite land_ones_mod by lia. apply Z.mod_pos_bound. lia.
Qed.

Lemma crc_step_range crc b : u32_ok crc -> u32_ok (crc_step crc b).
Proof.
  intros. unfold crc_step. apply lxor_range; [lia| |auto with efg lia].
  apply crc_entry_range, crc_index_ok.
Qed.

(** From the result of a step its table index, hence the old state's upper bits. *)
Lemma crc_step_index crc b crc' b' :
  u32_ok crc -> u32_ok crc' -> crc_step crc b = crc_step crc' b' ->
  Z.land (Z.lxor crc b) 0xFF = Z.land (Z.lxor crc' b') 0xFF /\
  Z.shiftr crc 8 = Z.shiftr crc' 8.
Proof.
  intros Hc Hc' E. unfold crc_step in E.
  assert (Hi : Z.land (Z.lxor crc b) 0xFF = Z.land (Z.lxor crc' b') 0xFF).
  { apply crc_top_inj; [apply crc_index_ok..|].
    apply (f_equal (fun z => Z.shiftr z 24)) in E. rewrite !Z.shiftr_lxor in E.
    assert (Hz : forall c, u32_ok c -> Z.shiftr (Z.shiftr c 8) 24 = 0).
    { intros c Hr. rewrite Z.shiftr_shiftr, Z.shiftr_div_pow2 by lia.
      apply Z.div_small. ulia. }
    rewrite !Hz, !Z.lxor_0_r in E by done. done. }
  split; [done|]. rewrite Hi in E. by apply lxor_cancel_l in E.
Qed.

Lemma land_ff_split c : Z.land c 0xFF = c mod 256 /\ Z.shiftr c 8 = c / 256.
Proof.
  change 0xFF with (2 ^ 8 - 1). rewrite land_ones_mod, Z.shiftr_div_pow2 by lia. done.
Qed.

Lemma crc_step_inj_state b crc crc' :
  u32_ok crc -> u32_ok crc' -> crc_step crc b = crc_step crc' b -> crc = crc'.
Proof.
  intros Hc Hc' E. destruct (crc_step_index _ _ _ _ Hc Hc' E) as [Hl Hh].
  assert (Hlow : Z.land crc 0xFF = Z.land crc' 0xFF).
  { apply Z.bits_inj'. intros n Hn. apply (f_equal (fun z => Z.testbit z n)) in Hl.
    rewrite !Z.land_spec, !Z.lxor_spec in *.
    destruct (Z.testbit 255 n), (Z.testbit b n), (Z.testbit crc n), (Z.testbit crc' n); done. }
  rewrite (proj1 (land_ff_split crc)), (proj1 (land_ff_split crc')) in Hlow.
  rewrite (proj2 (land_ff_split crc)), (proj2 (land_ff_split crc')) in Hh.
  rewrite (Z.div_mod crc 256), (Z.div_mod crc' 256) by lia. lia.
Qed.

Lemma crc_step_inj_byte crc b b' :
  u32_ok crc -> byte_ok b -> byte_ok b' -> crc_step crc b = crc_step crc b' -> b = b'.
Proof.
  intros Hc Hb Hb' E. destruct (crc_step_index _ _ _ _ Hc Hc E) as [Hl _].
  assert (Hlow : Z.land b 0xFF = Z.land b' 0xFF).
  { apply Z.bits_inj'. intros n Hn. apply (f_equal (fun z => Z.testbit z n)) in Hl.
    rewrite !Z.land_spec, !Z.lxor_spec in *.
    destruct (Z.testbit 255 n), (Z.testbit crc n), (Z.testbit b n), (Z.testbit b' n); done. }
  rewrite (proj1 (land_ff_split b)), (proj1 (land_ff_split b')), !Z.mod_small in Hlow by done.
  done.
Qed.

Lemma crc_fold_range bytes : forall crc, u32_ok crc -> u32_ok (foldl crc_step crc bytes).
Proof.
  induction bytes; intros crc H; [done|]. simpl. apply IHbytes, crc_step_range, H.
Qed.

Lemma crc_fold_inj_state bytes : forall crc crc',
  u32_ok crc -> u32_ok crc' ->
  foldl crc_step crc bytes = foldl crc_step crc' bytes -> crc = crc'.
Proof.
  induction bytes as [|b bytes IH]; intros crc crc' Hc Hc' E; [done|].
  simpl in E. apply IH in E; [|by apply crc_step_range..]. by apply crc_step_inj_state in E.
Qed.

Lemma lxor_cancel_r a x y : Z.lxor x a = Z.lxor y a -> x = y.
Proof. rewrite !(Z.lxor_comm _ a). apply lxor_cancel_l. Qed.

(** ** Reader and writer *)

(** What a reader has not consumed yet. *)
Definition rest (r : ByteReader.t) : list Z :=
  drop (ByteReader.offset_ r) (ByteReader.data_ r).

Lemma read_le_rest n bytes tail r :
  length bytes = n -> rest r = bytes ++ tail ->
  exists r', ByteReader.read_le n r = (r', Some (ByteReader.le_value bytes)) /\ rest r' = tail.
Proof.
  intros Hn Hr. unfold ByteReader.read_le, ByteReader.remaining.
  assert (Hlen := length_drop (ByteReader.data_ r) (ByteReader.offset_ r)).
  unfold rest in *. rewrite Hr, length_app in Hlen.
  destruct (Nat.ltb_spec (length (ByteReader.data_ r) - ByteReader.offset_ r) n); [lia|].
  rewrite Hr, take_app_length' by done. eexists. split; [done|]. simpl.
  rewrite Nat.add_comm, <- drop_drop, Hr, drop_app_length' by done. done.
Qed.

Lemma read_le_short n r :
  (length (rest r) < n)%nat -> ByteReader.read_le n r = (r, None).
Proof.
  unfold rest, ByteReader.read_le, ByteReader.remaining. rewrite length_drop.
  intros. destruct (Nat.ltb_spec (length (ByteReader.data_ r) - ByteReader.offset_ r) n); [done|lia].
Qed.

(** A writer that has not overflowed holds everything pushed into it and stays below
    its ceiling. *)
Definition writer_ok (w : ByteWriter.t) : Prop :=
  ByteWriter.size w <= ByteWriter.ceiling_ w.

Lemma push_spec bytes w :
  writer_ok w ->
  let w' := fst (ByteWriter.push bytes w) in
  writer_ok w' /\ ByteWriter.ceiling_ w' = ByteWriter.ceiling_ w /\
  (ByteWriter.overflowed_ w' = false ->
     ByteWriter.overflowed_ w = false /\ ByteWriter.buffer_ w' = ByteWriter.buffer_ w ++ bytes).
Proof.
  intros Hw. unfold ByteWriter.push, ByteWriter.reserve.
  destruct (ByteWriter.overflowed_ w) eqn:Eo; simpl; [by rewrite Eo|].
  destruct (_ || _) eqn:E; simpl; [done|]. boolify. split; [|done].
  unfold writer_ok, ByteWriter.size, size_of in *. simpl. rewrite length_app. lia.
Qed.

(** ** Properties *)

(** Changing one byte of the input of [stable_hash64], anywhere in it, always
    changes the digest: the FNV step is injective in the byte and in the running state, and the
    finalizer is injective. *)
Theorem digest_detects_byte_change (before after : list Z) (b b' : Z) :
  Forall byte_ok before -> Forall byte_ok after -> byte_ok b -> byte_ok b' -> b <> b' ->
  stable_hash64 (before ++ b :: after) <> stable_hash64 (before ++ b' :: after).
Proof.
  intros Hl Hr Hb Hb' Hne E. unfold stable_hash64 in E.
  assert (Hseed : u64_ok Hasher.kFnvOffsetBasis) by (unfold Hasher.kFnvOffsetBasis; ulia).
  apply finish_inj in E; [|auto with efg..].
  rewrite !write_app in E. simpl in E.
  apply write_inj_state in E; [|auto with efg..].
  apply write_byte_inj_byte in E; auto with efg.
Qed.

Lemma digest_detects_byte_change_witness :
  stable_hash64 ([1; 2] ++ 3 :: [4]) <> stable_hash64 ([1; 2] ++ 7 :: [4]).
Proof.
  apply (digest_detects_byte_change [1; 2] [4] 3 7);
    repeat constructor; try (unfold byte_ok; lia); lia.
Defined.

(** CRC-32C over two spans fed one after the other through [Crc32c::update] is
    [crc32c] of their concatenation, so streaming verification agrees with the one-shot checksum. *)
Lemma crc_streaming (first second : list Z) :
  Crc32c.value_ (Crc32c.update second (Crc32c.update first Crc32c.default)) =
  crc32c (first ++ second).
Proof.
  unfold Crc32c.update, crc32c. simpl. rewrite foldl_app.
  rewrite Z.lxor_assoc, Z.lxor_nilpotent, Z.lxor_0_r. done.
Qed.

(** A journal record or frame whose payload differs from the checksummed one in a
    single byte has a different CRC-32C. *)
Theorem crc_detects_byte_change (before after : list Z) (b b' : Z) :
  byte_ok b -> byte_ok b' -> b <> b' ->
  crc32c (before ++ b :: after) <> crc32c (before ++ b' :: after).
Proof.
  intros Hb Hb' Hne E. unfold crc32c in E. apply lxor_cancel_r in E.
  rewrite !foldl_app in E. simpl in E.
  assert (Hr : u32_ok (foldl crc_step 0xFFFFFFFF before)) by (apply crc_fold_range; ulia).
  apply crc_fold_inj_state in E; [|by apply crc_step_range..].
  apply crc_step_inj_byte in E; auto.
Qed.

Lemma crc_detects_byte_change_witness :
  crc32c ([1; 2] ++ 3 :: [4]) <> crc32c ([1; 2] ++ 7 :: [4]).
Proof. apply (crc_detects_byte_change [1; 2] [4] 3 7); (unfold byte_ok; lia) || lia. Defined.
