(* ===== verification/OMap.v ===== *)
(** * Ordered maps

    [std::map] as the association list its iteration visits: keys strictly
    increasing under the key order. The code depends on that order wherever it
    iterates (listings, digests, the choice of an eviction victim), so the order is
    part of the model; lookups obey the usual insert and erase laws. *)
From Stdlib Require Import Sorted.
From S2P Require Import Prelude.

(** The strict total order of a key type ([std::less]). *)
Class OrdKey (K : Type) := {
  key_cmp : K -> K -> comparison;
  key_cmp_eq : forall a b, key_cmp a b = Eq <-> a = b;
  key_cmp_anti : forall a b, key_cmp b a = CompOpp (key_cmp a b);
  key_cmp_trans : forall a b c, key_cmp a b = Lt -> key_cmp b c = Lt -> key_cmp a c = Lt }.

#[global] Instance Z_key : OrdKey Z.
Proof.
  refine {| key_cmp := Z.compare |}.
  - apply Z.compare_eq_iff.
  - intros. apply Z.compare_antisym.
  - intros a b c. rewrite !Z.compare_lt_iff. lia.
Defined.

(** [std::pair]: lexicographic. *)
#[global] Instance pair_key {A B} `{OrdKey A, OrdKey B} : OrdKey (A * B).
Proof.
  refine {| key_cmp := fun p q =>
    match key_cmp p.1 q.1 with Eq => key_cmp p.2 q.2 | c => c end |}.
  - intros [a b] [c d]. simpl. destruct (key_cmp a c) eqn:E.
    + apply key_cmp_eq in E as ->. rewrite key_cmp_eq. naive_solver.
    + split; [done|]. intros [= -> ->].
      by rewrite (proj2 (key_cmp_eq c c) eq_refl) in E.
    + split; [done|]. intros [= -> ->].
      by rewrite (proj2 (key_cmp_eq c c) eq_refl) in E.
  - intros [a b] [c d]. simpl. rewrite (key_cmp_anti a c).
    destruct (key_cmp a c); simpl; [apply key_cmp_anti|done..].
  - intros [a b] [c d] [e f]. simpl.
    destruct (key_cmp a c) eqn:E1, (key_cmp c e) eqn:E2; try done; intros H1 H2.
    + apply key_cmp_eq in E1 as ->. rewrite E2. by eapply key_cmp_trans.
    + apply key_cmp_eq in E1 as ->. by rewrite E2.
    + apply key_cmp_eq in E2 as ->. by rewrite E1.
    + by rewrite (key_cmp_trans _ _ _ E1 E2).
Defined.

Abbreviation omap_t K V := (list (K * V)).

Section omap.
Context {K V : Type} `{OrdKey K}.
Implicit Types (m : omap_t K V) (k : K) (v : V).

Definition key_eqb (a b : K) : bool :=
  match key_cmp a b with Eq => true | _ => false end.

Fixpoint find (k : K) (m : omap_t K V) : option V :=
  match m with
  | [] => None
  | (k', v) :: m => if key_eqb k k' then Some v else find k m
  end.

(** [m[k] = v]. *)
Fixpoint set (k : K) (v : V) (m : omap_t K V) : omap_t K V :=
  match m with
  | [] => [(k, v)]
  | (k', v') :: m' =>
      match key_cmp k k' with
      | Eq => (k, v) :: m'
      | Lt => (k, v) :: m
      | Gt => (k', v') :: set k v m'
      end
  end.

Definition erase (k : K) (m : omap_t K V) : omap_t K V :=
  base.filter (fun e => key_eqb k e.1 = false) m.

(** Erase the entries a predicate selects ([it = m.erase(it)] loops). *)
Definition erase_if (p : K -> V -> bool) (m : omap_t K V) : omap_t K V :=
  base.filter (fun e => p e.1 e.2 = false) m.

Definition keys (m : omap_t K V) : list K := m.*1.
Definition contains (k : K) (m : omap_t K V) : bool :=
  match find k m with Some _ => true | None => false end.

Definition sorted (m : omap_t K V) : Prop :=
  StronglySorted (fun e e' => key_cmp e.1 e'.1 = Lt) m.

Lemma key_cmp_refl k : key_cmp k k = Eq.
Proof. by apply key_cmp_eq. Qed.

Lemma key_eqb_eq a b : key_eqb a b = true <-> a = b.
Proof. unfold key_eqb. rewrite <- key_cmp_eq. destruct (key_cmp a b); done. Qed.

Lemma key_eqb_refl k : key_eqb k k = true.
Proof. by apply key_eqb_eq. Qed.

Lemma key_eqb_neq a b : key_eqb a b = false <-> a <> b.
Proof. rewrite <- key_eqb_eq. destruct (key_eqb a b); naive_solver. Qed.

Lemma find_set_eq k v m : find k (set k v m) = Some v.
Proof.
  induction m as [|[k' v'] m IH]; simpl; [by rewrite key_eqb_refl|].
  destruct (key_cmp k k') eqn:E; simpl; [by rewrite key_eqb_refl..|].
  unfold key_eqb at 1. by rewrite E.
Qed.

Lemma find_set_ne k k' v m : k <> k' -> find k' (set k v m) = find k' m.
Proof.
  intros Hne. assert (Hf : key_eqb k' k = false) by (apply key_eqb_neq; congruence).
  induction m as [|[k2 v2] m IH]; simpl; [by rewrite Hf|].
  destruct (key_cmp k k2) eqn:E; simpl; rewrite ?Hf; try done.
  - apply key_cmp_eq in E as <-. by rewrite Hf.
  - by rewrite IH.
Qed.

Lemma find_set k k' v m :
  find k' (set k v m) = if key_eqb k k' then Some v else find k' m.
Proof.
  destruct (key_eqb k k') eqn:E.
  - apply key_eqb_eq in E as <-. apply find_set_eq.
  - apply key_eqb_neq in E. by apply find_set_ne.
Qed.

Lemma find_erase k k' m : find k' (erase k m) = if key_eqb k k' then None else find k' m.
Proof.
  unfold erase. induction m as [|[k2 v2] m IH]; [by destruct (key_eqb k k')|].
  rewrite filter_cons. cbn [fst find]. case_decide as E; cbn [find]; rewrite IH.
  - destruct (key_eqb k' k2) eqn:E2; [|done]. apply key_eqb_eq in E2 as ->. by rewrite E.
  - apply not_false_is_true in E. apply key_eqb_eq in E as <-.
    destruct (key_eqb k k') eqn:E2; [done|].
    replace (key_eqb k' k) with false; [done|].
    symmetry. apply key_eqb_neq. apply key_eqb_neq in E2. congruence.
Qed.

(** Every entry [set] leaves is the new one or an old one. *)
Lemma elem_of_set k v m e : e ∈ set k v m -> e = (k, v) \/ e ∈ m.
Proof.
  induction m as [|[k' v'] m IH]; simpl; [by rewrite list_elem_of_singleton; left|].
  destruct (key_cmp k k'); rewrite !elem_of_cons; naive_solver.
Qed.

Lemma sorted_set k v m : sorted m -> sorted (set k v m).
Proof.
  unfold sorted. induction 1 as [|[k' v'] m Hs IH Hall]; simpl; [repeat constructor|].
  destruct (key_cmp k k') eqn:E.
  - apply key_cmp_eq in E as <-. by constructor.
  - constructor; [by constructor|]. constructor; [done|].
    eapply Forall_impl; [exact Hall|]. intros e He. by eapply key_cmp_trans.
  - constructor; [done|]. apply Forall_forall. intros e He.
    apply elem_of_set in He as [->|He]; simpl.
    + rewrite key_cmp_anti, E. done.
    + rewrite Forall_forall in Hall. by apply Hall.
Qed.

Lemma sorted_filter (P : K * V -> Prop) `{!forall e, Decision (P e)} m :
  sorted m -> sorted (base.filter P m).
Proof.
  unfold sorted. induction 1 as [|e m Hs IH Hall]; [constructor|].
  rewrite filter_cons. case_decide; [|done]. constructor; [done|].
  rewrite Forall_forall in *. intros e' He'. apply list_elem_of_filter in He' as [_ He']. auto.
Qed.

Lemma sorted_erase k m : sorted m -> sorted (erase k m).
Proof. apply sorted_filter. Qed.

Lemma sorted_erase_if p m : sorted m -> sorted (erase_if p m).
Proof. apply sorted_filter. Qed.

Lemma find_elem_of k v m : find k m = Some v -> (k, v) ∈ m.
Proof.
  induction m as [|[k' v'] m IH]; simpl; [done|].
  destruct (key_eqb k k') eqn:E; intros Hf; [|by right; apply IH].
  apply key_eqb_eq in E. simplify_eq. left.
Qed.

Lemma elem_of_find k v m : sorted m -> (k, v) ∈ m -> find k m = Some v.
Proof.
  unfold sorted. induction 1 as [|[k' v'] m Hs IH Hall]; simpl; [by intros ?%not_elem_of_nil|].
  intros [Heq|Hin]%elem_of_cons; simplify_eq; [by rewrite key_eqb_refl|].
  destruct (key_eqb k k') eqn:E; [|auto]. apply key_eqb_eq in E as ->.
  rewrite Forall_forall in Hall. apply Hall in Hin. simpl in Hin.
  by rewrite key_cmp_refl in Hin.
Qed.

Lemma find_erase_if p k m : sorted m ->
  find k (erase_if p m) =
    match find k m with Some v => if p k v then None else Some v | None => None end.
Proof.
  intros Hs. destruct (find k (erase_if p m)) as [v|] eqn:E.
  - apply find_elem_of, list_elem_of_filter in E as [Hp Hin]. simpl in Hp.
    rewrite (elem_of_find k v m Hs Hin), Hp. done.
  - destruct (find k m) as [v|] eqn:E2; [|done]. destruct (p k v) eqn:Hp; [done|].
    exfalso. assert (Hin : (k, v) ∈ erase_if p m).
    { apply list_elem_of_filter. split; [done|]. by apply find_elem_of. }
    apply elem_of_find in Hin; [congruence|]. by apply sorted_erase_if.
Qed.

Lemma size_set k v m : size_of m <= size_of (set k v m) <= size_of m + 1.
Proof.
  unfold size_of. induction m as [|[k' v'] m IH]; simpl; [lia|].
  destruct (key_cmp k k'); simpl; lia.
Qed.

Lemma size_set_found k v v' m : sorted m -> find k m = Some v' ->
  size_of (set k v m) = size_of m.
Proof.
  unfold sorted, size_of. induction 1 as [|[k2 v2] m Hs IH Hall]; simpl; [done|].
  intros Hf. destruct (key_cmp k k2) eqn:E; simpl; [done| |].
  - unfold key_eqb in Hf. rewrite E in Hf.
    apply find_elem_of in Hf. rewrite Forall_forall in Hall. apply Hall in Hf. simpl in Hf.
    rewrite key_cmp_anti in Hf. rewrite E in Hf. done.
  - unfold key_eqb in Hf. rewrite E in Hf. rewrite !Nat2Z.inj_succ, IH; done.
Qed.

Lemma size_filter (P : K * V -> Prop) `{!forall e, Decision (P e)} m :
  size_of (base.filter P m) <= size_of m.
Proof. unfold size_of. pose proof (length_filter P m). lia. Qed.

(** Properties of all stored values. *)
Lemma Forall_set (P : K * V -> Prop) k v m : P (k, v) -> Forall P m -> Forall P (set k v m).
Proof.
  intros Hn Hm. apply Forall_forall. intros e [->|He]%elem_of_set; [done|].
  rewrite Forall_forall in Hm. auto.
Qed.

Lemma Forall_filter_1 (P Q : K * V -> Prop) `{!forall e, Decision (Q e)} m :
  Forall P m -> Forall P (base.filter Q m).
Proof.
  intros Hm. apply Forall_forall. intros e [_ He]%list_elem_of_filter.
  rewrite Forall_forall in Hm. auto.
Qed.

Lemma Forall_erase_if (P : K * V -> Prop) p m : Forall P m -> Forall P (erase_if p m).
Proof. apply Forall_filter_1. Qed.

Lemma Forall_erase (P : K * V -> Prop) k m : Forall P m -> Forall P (erase k m).
Proof. apply Forall_filter_1. Qed.
End omap.

#[export] Hint Resolve sorted_set sorted_erase sorted_erase_if : efg.
#[export] Hint Resolve Forall_set Forall_erase Forall_erase_if : efg.
