(* ===== verification/Flow.v ===== *)
(** * Flow evidence ([include/efg/flow.hpp], [src/flow.cpp])

    [FlowSample] is one observation window, [FlowLedger] the bounded accumulator of
    one flow generation, [FlowMeasurements] what the policy is evaluated on. *)
From S2P Require Import Prelude Status Checked Tick Hash.

Definition kMaxSamplesPerFlow : Z := 32.

Module ServiceClass.
Inductive t : Type := Unknown | BestEffort | Standard | Priority | Reserved | Control.
#[global] Instance eq_dec : EqDecision t.
Proof. solve_decision. Defined.
Definition to_u8 (c : t) : Z :=
  match c with
  | Unknown => 0 | BestEffort => 1 | Standard => 2
  | Priority => 3 | Reserved => 4 | Control => 5
  end.
Definition eqb (c d : t) : bool := bool_decide (c = d).
End ServiceClass.

Module ProtectionState.
Inductive t : Type := Unknown | Unprotected | Protected | NonPreemptible.
#[global] Instance eq_dec : EqDecision t.
Proof. solve_decision. Defined.
Definition to_u8 (p : t) : Z :=
  match p with Unknown => 0 | Unprotected => 1 | Protected => 2 | NonPreemptible => 3 end.
Definition eqb (c d : t) : bool := bool_decide (c = d).
End ProtectionState.

Module Priority.
Record t := mk { level_ : Z; known_ : bool }.
#[global] Instance eq_dec : EqDecision t.
Proof. solve_decision. Defined.
Definition kMaxLevel : Z := 7.
Definition of_level (level : Z) : t := mk level true.
Definition unknown : t := mk 0 false.
Definition known (p : t) : bool := known_ p.
Definition level (p : t) : Z := if known_ p then level_ p else 0.
End Priority.

Module FlowSample.
Record t := mk {
  flow : FlowId;
  flow_generation : Generation;
  path : PathId;
  path_generation : Generation;
  window : EvidenceWindowId;
  window_sequence : SequenceNumber;
  span : TickSpan.t;
  cumulative_bytes : Z;
  window_bytes : Z;
  service_class : ServiceClass.t;
  priority : Priority.t;
  protection : ProtectionState.t;
  reservation : ReservationId;
  tenant : TenantId;
  validity : ValidityWindow.t;
  provenance : Provenance.t }.
#[global] Instance eta_t : Eta t := fun r =>
  mk (flow r) (flow_generation r) (path r) (path_generation r) (window r) (window_sequence r)
     (span r) (cumulative_bytes r) (window_bytes r) (service_class r) (priority r)
     (protection r) (reservation r) (tenant r) (validity r) (provenance r).
#[global] Instance eq_dec : EqDecision t.
Proof. solve_decision. Defined.

(** [sample_digest]: every field but the provenance digest itself. *)
Definition digest (s : t) : Z :=
  Hasher.digest_of [
    Hasher.write_u64 (flow s);
    Hasher.write_u64 (flow_generation s);
    Hasher.write_u64 (path s);
    Hasher.write_u64 (path_generation s);
    Hasher.write_u64 (window s);
    Hasher.write_u64 (window_sequence s);
    Hasher.write_u64 (TickSpan.begin_ (span s));
    Hasher.write_u64 (TickSpan.end_ (span s));
    Hasher.write_u64 (cumulative_bytes s);
    Hasher.write_u64 (window_bytes s);
    Hasher.write_u8 (ServiceClass.to_u8 (service_class s));
    Hasher.write_bool (Priority.known (priority s));
    Hasher.write_u8 (Priority.level (priority s));
    Hasher.write_u8 (ProtectionState.to_u8 (protection s));
    Hasher.write_u64 (reservation s);
    Hasher.write_u64 (tenant s);
    Hasher.write_u64 (ValidityWindow.issued_at (validity s));
    Hasher.write_u64 (ValidityWindow.expires_at (validity s));
    Hasher.write_u64 (PublisherRef.publisher (Provenance.publisher (provenance s)));
    Hasher.write_u64 (PublisherRef.boot (Provenance.publisher (provenance s)));
    Hasher.write_u64 (PublisherRef.epoch (Provenance.publisher (provenance s)));
    Hasher.write_u64 (PublisherRef.sequence (Provenance.publisher (provenance s)));
    Hasher.write_u64 (Provenance.emitted_at (provenance s));
    Hasher.write_u32 (Provenance.schema_version (provenance s)) ].

Definition validate (s : t) : Status :=
  refuse_if (negb (id_valid (flow s))) StatusCode.InvalidArgument ;;
  refuse_if (negb (id_valid (flow_generation s))) StatusCode.InvalidArgument ;;
  refuse_if (negb (id_valid (path s))) StatusCode.InvalidArgument ;;
  refuse_if (negb (id_valid (path_generation s))) StatusCode.InvalidArgument ;;
  refuse_if (negb (id_valid (window s))) StatusCode.InvalidArgument ;;
  refuse_if (window_sequence s =? 0) StatusCode.InvalidArgument ;;
  refuse_if (TickSpan.end_ (span s) <=? TickSpan.begin_ (span s)) StatusCode.InvalidArgument ;;
  refuse_if (window_bytes s >? cumulative_bytes s) StatusCode.ContradictoryEvidence ;;
  refuse_if (negb (ValidityWindow.well_formed (validity s))) StatusCode.InvalidArgument ;;
  refuse_if (ValidityWindow.issued_at (validity s) <? TickSpan.begin_ (span s))
    StatusCode.InvalidArgument ;;
  refuse_if (ValidityWindow.expires_at (validity s) <=? TickSpan.end_ (span s))
    StatusCode.Expired ;;
  refuse_if (Priority.known (priority s) && (Priority.level (priority s) >? Priority.kMaxLevel))
    StatusCode.OutOfRange ;;
  refuse_if (negb (Provenance.valid (provenance s))) StatusCode.InvalidArgument ;;
  refuse_if (negb (Provenance.schema_version (provenance s) =? kSchemaVersion))
    StatusCode.VersionMismatch ;;
  refuse_if (negb (Provenance.digest (provenance s) =? digest s)) StatusCode.IntegrityFailure.
End FlowSample.

Module FlowMeasurements.
Record t := mk {
  evidence_present : bool;
  evidence_contiguous : bool;
  gap_detected : bool;
  capacity_known : bool;
  path_known : bool;
  observed : TickSpan.t;
  duration_ticks : Z;
  cumulative_bytes : Z;
  retained_window_bytes : Z;
  sustained_rate : Z;
  peak_window_rate : Z;
  sample_count : Z;
  window_count : Z;
  dropped_windows : Z;
  service_class : ServiceClass.t;
  priority : Priority.t;
  protection : ProtectionState.t;
  reservation : ReservationId;
  has_reservation : bool;
  tenant : TenantId;
  completed : bool;
  binding_resource : ResourceId;
  resource_capacity : Z;
  resource_reserved : Z;
  resource_available : Z;
  share_of_capacity : Z;
  share_of_available : Z;
  competing_flows : Z;
  competing_elephants : Z;
  excess_over_guarantee : Z;
  fields_complete : bool }.
#[global] Instance eta_t : Eta t := fun r =>
  mk (evidence_present r) (evidence_contiguous r) (gap_detected r) (capacity_known r)
     (path_known r) (observed r) (duration_ticks r) (cumulative_bytes r)
     (retained_window_bytes r) (sustained_rate r) (peak_window_rate r) (sample_count r)
     (window_count r) (dropped_windows r) (service_class r) (priority r) (protection r)
     (reservation r) (has_reservation r) (tenant r) (completed r) (binding_resource r)
     (resource_capacity r) (resource_reserved r) (resource_available r)
     (share_of_capacity r) (share_of_available r) (competing_flows r)
     (competing_elephants r) (excess_over_guarantee r) (fields_complete r).

Definition default : t :=
  mk false false false false false TickSpan.default 0 0 0 0 0 0 0 0
     ServiceClass.Unknown Priority.unknown ProtectionState.Unknown 0 false 0 false
     0 0 0 0 0 0 0 0 0 false.

Definition digest (m : t) : Z :=
  Hasher.digest_of [
    Hasher.write_bool (evidence_present m);
    Hasher.write_bool (evidence_contiguous m);
    Hasher.write_bool (gap_detected m);
    Hasher.write_bool (capacity_known m);
    Hasher.write_bool (path_known m);
    Hasher.write_u64 (TickSpan.begin_ (observed m));
    Hasher.write_u64 (TickSpan.end_ (observed m));
    Hasher.write_u64 (duration_ticks m);
    Hasher.write_u64 (cumulative_bytes m);
    Hasher.write_u64 (retained_window_bytes m);
    Hasher.write_u64 (sustained_rate m);
    Hasher.write_u64 (peak_window_rate m);
    Hasher.write_u64 (sample_count m);
    Hasher.write_u64 (window_count m);
    Hasher.write_u64 (dropped_windows m);
    Hasher.write_u8 (ServiceClass.to_u8 (service_class m));
    Hasher.write_bool (Priority.known (priority m));
    Hasher.write_u8 (Priority.level (priority m));
    Hasher.write_u8 (ProtectionState.to_u8 (protection m));
    Hasher.write_u64 (reservation m);
    Hasher.write_bool (has_reservation m);
    Hasher.write_u64 (tenant m);
    Hasher.write_bool (completed m);
    Hasher.write_u64 (binding_resource m);
    Hasher.write_u64 (resource_capacity m);
    Hasher.write_u64 (resource_reserved m);
    Hasher.write_u64 (resource_available m);
    Hasher.write_u32 (share_of_capacity m);
    Hasher.write_u32 (share_of_available m);
    Hasher.write_u32 (competing_flows m);
    Hasher.write_u32 (competing_elephants m);
    Hasher.write_u64 (excess_over_guarantee m);
    Hasher.write_bool (fields_complete m) ].
End FlowMeasurements.

Module AppendOutcome.
Inductive t : Type := Accepted | DuplicateIgnored | Completed.
#[global] Instance eq_dec : EqDecision t.
Proof. solve_decision. Defined.
End AppendOutcome.

Module LedgerLimits.
Record t := mk {
  max_gap_ticks : Z;
  max_samples : Z;
  max_bytes_per_window : Z;
  max_cumulative_bytes : Z }.
#[global] Instance eta_t : Eta t := fun r =>
  mk (max_gap_ticks r) (max_samples r) (max_bytes_per_window r) (max_cumulative_bytes r).
Definition default : t := mk 0 kMaxSamplesPerFlow 0 0.
End LedgerLimits.

(** ** Derivation of measurements *)

(** The per-window loop of [derive_measurements]: running window sum, peak rate and
    contiguity, [prev] being the end of the previous window ([None] for the first).
    [None] when a window has zero length. *)
Fixpoint derive_windows (samples : list FlowSample.t) (prev : option Tick)
    (window_sum peak : Z) (contiguous : bool) : option (Z * Z * bool) :=
  match samples with
  | [] => Some (window_sum, peak, contiguous)
  | s :: samples =>
      let window_sum := saturating_add window_sum (FlowSample.window_bytes s) in
      let length := TickSpan.length (FlowSample.span s) in
      if length =? 0 then None
      else
        let rate := match mul_div (FlowSample.window_bytes s) kKiloTickScale length with
                    | Some rate => rate
                    | None => u64_max
                    end in
        let contiguous :=
          match prev with
          | Some e => if negb (TickSpan.begin_ (FlowSample.span s) =? e) then false
                      else contiguous
          | None => contiguous
          end in
        derive_windows samples (Some (TickSpan.end_ (FlowSample.span s)))
          window_sum (max_of peak rate) contiguous
  end.

(** The final gap scan: some pair of neighbours is further apart than the limit. *)
Fixpoint has_wide_gap (max_gap : Z) (samples : list FlowSample.t) : bool :=
  match samples with
  | s :: ((s' :: _) as samples') =>
      let e := TickSpan.end_ (FlowSample.span s) in
      let b := TickSpan.begin_ (FlowSample.span s') in
      ((b >? e) && (wrap 64 (b - e) >? max_gap)) || has_wide_gap max_gap samples'
  | _ => false
  end.

(** The rate over the retained span replaces the sustained rate once windows were
    dropped. *)
Definition retained_rate (first last : FlowSample.t) (window_sum dropped_windows : Z)
    (n : nat) (rate : Z) : Z :=
  if negb (dropped_windows =? 0) && (2 <=? n)%nat then
    let retained := wrap 64 (TickSpan.end_ (FlowSample.span last) -
                             TickSpan.begin_ (FlowSample.span first)) in
    if negb (retained =? 0) then
      match mul_div window_sum kKiloTickScale retained with
      | Some r => r
      | None => rate
      end
    else rate
  else rate.

Definition derive_measurements (samples : list FlowSample.t) (limits : LedgerLimits.t)
    (completed gap_detected : bool) (dropped_windows : Z) : StatusOr FlowMeasurements.t :=
  let out := FlowMeasurements.default in
  match head samples, list.last samples with
  | Some first, Some last =>
      if TickSpan.end_ (FlowSample.span last) <? TickSpan.begin_ (FlowSample.span first)
      then Err StatusCode.ContradictoryEvidence
      else
        let out := out
          <| FlowMeasurements.evidence_present := true |>
          <| FlowMeasurements.observed :=
               TickSpan.mk (TickSpan.begin_ (FlowSample.span first))
                           (TickSpan.end_ (FlowSample.span last)) |> in
        let out := out
          <| FlowMeasurements.duration_ticks :=
               TickSpan.length (FlowMeasurements.observed out) |>
          <| FlowMeasurements.cumulative_bytes := FlowSample.cumulative_bytes last |>
          <| FlowMeasurements.sample_count := size_of samples |>
          <| FlowMeasurements.window_count := size_of samples |>
          <| FlowMeasurements.dropped_windows := dropped_windows |>
          <| FlowMeasurements.gap_detected := gap_detected |>
          <| FlowMeasurements.completed := completed |>
          <| FlowMeasurements.service_class := FlowSample.service_class last |>
          <| FlowMeasurements.priority := FlowSample.priority last |>
          <| FlowMeasurements.protection := FlowSample.protection last |>
          <| FlowMeasurements.reservation := FlowSample.reservation last |>
          <| FlowMeasurements.has_reservation := id_valid (FlowSample.reservation last) |>
          <| FlowMeasurements.tenant := FlowSample.tenant last |> in
        match derive_windows samples None 0 (FlowMeasurements.peak_window_rate out)
                (2 <=? length samples)%nat with
        | None => Err StatusCode.ContradictoryEvidence
        | Some (window_sum, peak, contiguous) =>
            let out := out
              <| FlowMeasurements.peak_window_rate := peak |>
              <| FlowMeasurements.retained_window_bytes := window_sum |>
              <| FlowMeasurements.evidence_contiguous := contiguous && negb gap_detected |> in
            if FlowMeasurements.duration_ticks out =? 0 then Err StatusCode.UnknownEvidence
            else
              match mul_div window_sum kKiloTickScale (FlowMeasurements.duration_ticks out) with
              | None => Err StatusCode.Overflow
              | Some rate =>
                  let out := out
                    <| FlowMeasurements.sustained_rate :=
                         retained_rate first last window_sum dropped_windows
                           (length samples) rate |> in
                  let out :=
                    if negb (LedgerLimits.max_gap_ticks limits =? 0) &&
                       has_wide_gap (LedgerLimits.max_gap_ticks limits) samples
                    then out <| FlowMeasurements.gap_detected := true |>
                             <| FlowMeasurements.evidence_contiguous := false |>
                    else out in
                  Val (out <| FlowMeasurements.fields_complete :=
                    FlowMeasurements.evidence_present out &&
                    negb (FlowMeasurements.gap_detected out) &&
                    negb (ServiceClass.eqb (FlowMeasurements.service_class out)
                            ServiceClass.Unknown) &&
                    negb (ProtectionState.eqb (FlowMeasurements.protection out)
                            ProtectionState.Unknown) &&
                    Priority.known (FlowMeasurements.priority out) |>)
              end
        end
  | _, _ =>
      Val (out <| FlowMeasurements.completed := completed |>
               <| FlowMeasurements.dropped_windows := dropped_windows |>)
  end.

(** ** The ledger *)

Module FlowLedger.
Record t := mk {
  flow_ : FlowId;
  generation_ : Generation;
  limits_ : LedgerLimits.t;
  samples_ : list FlowSample.t;
  latest_validity_ : ValidityWindow.t;
  last_sequence_ : SequenceNumber;
  last_window_ : EvidenceWindowId;
  last_span_end_ : Tick;
  last_cumulative_ : Z;
  last_path_ : PathId;
  last_path_generation_ : Generation;
  generation_cumulative_ : Z;
  has_previous_ : bool;
  path_changed_ : bool;
  gap_detected_ : bool;
  completed_ : bool;
  completed_at_ : Tick;
  dropped_windows_ : Z }.
#[global] Instance eta_t : Eta t := fun r =>
  mk (flow_ r) (generation_ r) (limits_ r) (samples_ r) (latest_validity_ r)
     (last_sequence_ r) (last_window_ r) (last_span_end_ r) (last_cumulative_ r)
     (last_path_ r) (last_path_generation_ r) (generation_cumulative_ r) (has_previous_ r)
     (path_changed_ r) (gap_detected_ r) (completed_ r) (completed_at_ r) (dropped_windows_ r).

Definition clamp_limits (limits : LedgerLimits.t) : LedgerLimits.t :=
  let limits := if LedgerLimits.max_samples limits =? 0
                then limits <| LedgerLimits.max_samples := 1 |> else limits in
  if LedgerLimits.max_samples limits >? kMaxSamplesPerFlow
  then limits <| LedgerLimits.max_samples := kMaxSamplesPerFlow |> else limits.

Definition make (flow : FlowId) (generation : Generation) (limits : LedgerLimits.t) : t :=
  mk flow generation (clamp_limits limits) [] ValidityWindow.default 0 0 0 0 0 0 0
     false false false false 0 0.

(** [FlowLedger()]: the default member initializers. *)
Definition default : t :=
  mk 0 0 LedgerLimits.default [] ValidityWindow.default 0 0 0 0 0 0 0
     false false false false 0 0.

Definition latest (l : t) : option FlowSample.t := list.last (samples_ l).

Definition check_order (l : t) (s : FlowSample.t) : Status :=
  if negb (has_previous_ l) then Val tt
  else
    refuse_if (FlowSample.window_sequence s <=? last_sequence_ l)
      StatusCode.ContradictoryEvidence ;;
    refuse_if (TickSpan.begin_ (FlowSample.span s) <? last_span_end_ l)
      StatusCode.ContradictoryEvidence ;;
    refuse_if
      ((TickSpan.begin_ (FlowSample.span s) =? last_span_end_ l) &&
       negb (wrap 64 (FlowSample.cumulative_bytes s - last_cumulative_ l) =?
             FlowSample.window_bytes s))
      StatusCode.ContradictoryEvidence.

(** Every discontinuity starts a new measurement epoch. *)
Definition restart_epoch (s : FlowSample.t) (l : t) : t :=
  if negb (has_previous_ l) then l
  else
    let moved_path :=
      negb (FlowSample.path s =? last_path_ l) ||
      negb (FlowSample.path_generation s =? last_path_generation_ l) in
    let b := TickSpan.begin_ (FlowSample.span s) in
    let discontinuous := negb (b =? last_span_end_ l) in
    if moved_path || discontinuous then
      let max_gap := LedgerLimits.max_gap_ticks (limits_ l) in
      let telemetry_gap :=
        discontinuous && negb moved_path && negb (max_gap =? 0) && (b >? last_span_end_ l) &&
        (wrap 64 (b - last_span_end_ l) >? max_gap) in
      let l := l
        <| dropped_windows_ ::= add64 (size_of (samples_ l)) |>
        <| samples_ := [] |>
        <| last_sequence_ := 0 |>
        <| last_window_ := 0 |>
        <| last_span_end_ := 0 |>
        <| last_cumulative_ := 0 |>
        <| has_previous_ := false |>
        <| gap_detected_ := telemetry_gap |> in
      if moved_path then l <| path_changed_ := true |> else l
    else l.

(** Retain the window, evicting the oldest when the ledger is full. *)
Definition retain (s : FlowSample.t) (l : t) : t :=
  let l := if size_of (samples_ l) >=? LedgerLimits.max_samples (limits_ l)
           then l <| samples_ ::= tail |> <| dropped_windows_ ::= inc64 |> else l in
  l <| samples_ ::= (fun ss => ss ++ [s]) |>
    <| last_sequence_ := FlowSample.window_sequence s |>
    <| last_window_ := FlowSample.window s |>
    <| last_span_end_ := TickSpan.end_ (FlowSample.span s) |>
    <| last_cumulative_ := FlowSample.cumulative_bytes s |>
    <| last_path_ := FlowSample.path s |>
    <| last_path_generation_ := FlowSample.path_generation s |>
    <| generation_cumulative_ := FlowSample.cumulative_bytes s |>
    <| has_previous_ := true |>
    <| latest_validity_ := FlowSample.validity s |>.

(** The checks of [append] that come before any mutation, and whether the sample is
    the replay of the window applied last. *)
Definition is_replay (l : t) (s : FlowSample.t) : bool :=
  has_previous_ l && (FlowSample.window_sequence s =? last_sequence_ l) &&
  (FlowSample.window s =? last_window_ l).

Definition back_digest (l : t) : option Z := FlowSample.digest <$> list.last (samples_ l).

Definition append (s : FlowSample.t) : M t AppendOutcome.t := fun l =>
  if negb (FlowSample.flow s =? flow_ l) || negb (FlowSample.flow_generation s =? generation_ l)
  then (l, Err StatusCode.GenerationMismatch)
  else match FlowSample.validate s with
  | Err c => (l, Err c)
  | Val _ =>
  if is_replay l s then
    if bool_decide (back_digest l = Some (FlowSample.digest s))
    then (l, Val AppendOutcome.DuplicateIgnored)
    else (l, Err StatusCode.ContradictoryEvidence)
  else match check_order l s with
  | Err c => (l, Err c)
  | Val _ =>
  if FlowSample.cumulative_bytes s <? generation_cumulative_ l
  then (l, Err StatusCode.ContradictoryEvidence)
  else if has_previous_ l && (TickSpan.begin_ (FlowSample.span s) =? last_span_end_ l) &&
          (FlowSample.cumulative_bytes s <? last_cumulative_ l)
  then (l, Err StatusCode.ContradictoryEvidence)
  else
    let l := restart_epoch s l in
    let max_window := LedgerLimits.max_bytes_per_window (limits_ l) in
    let max_cumulative := LedgerLimits.max_cumulative_bytes (limits_ l) in
    if negb (max_window =? 0) && (FlowSample.window_bytes s >? max_window)
    then (l, Err StatusCode.Oversized)
    else if negb (max_cumulative =? 0) && (FlowSample.cumulative_bytes s >? max_cumulative)
    then (l, Err StatusCode.Oversized)
    else (retain s l, Val AppendOutcome.Accepted)
  end end.

Definition mark_completed (completed_at : Tick) : M t unit := fun l =>
  if completed_ l then
    if completed_at_ l =? completed_at then (l, Val tt) else (l, Err StatusCode.Conflict)
  else if has_previous_ l && (completed_at <? last_span_end_ l)
  then (l, Err StatusCode.ContradictoryEvidence)
  else (l <| completed_ := true |> <| completed_at_ := completed_at |>, Val tt).

Definition measurements (l : t) : FlowMeasurements.t :=
  value_or (derive_measurements (samples_ l) (limits_ l) (completed_ l) (gap_detected_ l)
              (dropped_windows_ l)) FlowMeasurements.default.

Definition clear (l : t) : t :=
  l <| samples_ := [] |>
    <| latest_validity_ := ValidityWindow.default |>
    <| last_sequence_ := 0 |>
    <| last_window_ := 0 |>
    <| last_span_end_ := 0 |>
    <| last_cumulative_ := 0 |>
    <| last_path_ := 0 |>
    <| last_path_generation_ := 0 |>
    <| generation_cumulative_ := 0 |>
    <| has_previous_ := false |>
    <| gap_detected_ := false |>
    <| path_changed_ := false |>
    <| completed_ := false |>
    <| completed_at_ := 0 |>
    <| dropped_windows_ := 0 |>.
End FlowLedger.

(** ** The ledger invariant *)

(** The fields of a sample fit the widths of the struct. *)
Record sample_ok (s : FlowSample.t) : Prop := {
  so_begin : u64_ok (TickSpan.begin_ (FlowSample.span s));
  so_end : u64_ok (TickSpan.end_ (FlowSample.span s));
  so_cumulative : u64_ok (FlowSample.cumulative_bytes s);
  so_window : u64_ok (FlowSample.window_bytes s);
  so_sequence : u64_ok (FlowSample.window_sequence s) }.

(** [b] directly continues [a]: adjoining span, later sequence, the cumulative volume
    grown by exactly the window volume, on the same path binding. *)
Record follows (a b : FlowSample.t) : Prop := {
  fo_span : TickSpan.begin_ (FlowSample.span b) = TickSpan.end_ (FlowSample.span a);
  fo_sequence : FlowSample.window_sequence a < FlowSample.window_sequence b;
  fo_volume : FlowSample.cumulative_bytes b =
              FlowSample.cumulative_bytes a + FlowSample.window_bytes b;
  fo_path : FlowSample.path b = FlowSample.path a;
  fo_path_generation : FlowSample.path_generation b = FlowSample.path_generation a }.

(** Neighbouring windows of a retained run follow one another. *)
Fixpoint chained (ss : list FlowSample.t) : Prop :=
  match ss with
  | a :: ((b :: _) as tl) => follows a b /\ chained tl
  | _ => True
  end.

Record ledger_inv (l : FlowLedger.t) : Prop := {
  li_previous : FlowLedger.has_previous_ l = negb (bool_decide (FlowLedger.samples_ l = []));
  li_limit : 1 <= LedgerLimits.max_samples (FlowLedger.limits_ l) <= kMaxSamplesPerFlow;
  li_size : size_of (FlowLedger.samples_ l) <= LedgerLimits.max_samples (FlowLedger.limits_ l);
  li_samples : Forall (fun s =>
      sample_ok s /\ FlowSample.validate s = Val tt /\
      FlowSample.flow s = FlowLedger.flow_ l /\
      FlowSample.flow_generation s = FlowLedger.generation_ l) (FlowLedger.samples_ l);
  li_chained : chained (FlowLedger.samples_ l);
  li_last : forall s, list.last (FlowLedger.samples_ l) = Some s ->
      FlowLedger.last_sequence_ l = FlowSample.window_sequence s /\
      FlowLedger.last_window_ l = FlowSample.window s /\
      FlowLedger.last_span_end_ l = TickSpan.end_ (FlowSample.span s) /\
      FlowLedger.last_cumulative_ l = FlowSample.cumulative_bytes s /\
      FlowLedger.last_path_ l = FlowSample.path s /\
      FlowLedger.last_path_generation_ l = FlowSample.path_generation s /\
      FlowLedger.generation_cumulative_ l = FlowSample.cumulative_bytes s /\
      FlowLedger.latest_validity_ l = FlowSample.validity s }.

Lemma chained_tail ss : chained ss -> chained (tail ss).
Proof. destruct ss as [|a [|b tl]]; simpl; tauto. Qed.

Lemma chained_snoc ss s :
  chained ss -> (forall a, list.last ss = Some a -> follows a s) -> chained (ss ++ [s]).
Proof.
  induction ss as [|a [|b tl] IH]; intros Hc Hl; [done|simpl; auto|].
  destruct Hc as [Hf Hc]. split; [done|]. apply IH; [done|]. intros x Hx. apply Hl. done.
Qed.

Lemma validate_facts s :
  FlowSample.validate s = Val tt ->
  TickSpan.begin_ (FlowSample.span s) < TickSpan.end_ (FlowSample.span s) /\
  FlowSample.window_bytes s <= FlowSample.cumulative_bytes s /\
  TickSpan.begin_ (FlowSample.span s) <= ValidityWindow.issued_at (FlowSample.validity s) /\
  TickSpan.end_ (FlowSample.span s) < ValidityWindow.expires_at (FlowSample.validity s) /\
  FlowSample.flow s <> 0 /\ FlowSample.flow_generation s <> 0 /\
  FlowSample.window_sequence s <> 0 /\ FlowSample.window s <> 0.
Proof.
  intros H. unfold FlowSample.validate in H. inv_status H.
  unfold id_valid in *. boolify. lia.
Qed.

Lemma check_order_follows l s :
  ledger_inv l -> sample_ok s ->
  FlowLedger.check_order l s = Val tt ->
  FlowLedger.generation_cumulative_ l <= FlowSample.cumulative_bytes s ->
  forall a, list.last (FlowLedger.samples_ l) = Some a ->
    FlowLedger.last_span_end_ l <= TickSpan.begin_ (FlowSample.span s) /\
    (FlowSample.path s = FlowLedger.last_path_ l ->
     FlowSample.path_generation s = FlowLedger.last_path_generation_ l ->
     TickSpan.begin_ (FlowSample.span s) = FlowLedger.last_span_end_ l -> follows a s).
Proof.
  intros Hinv Hok Hord Hcum a Ha.
  destruct (li_last l Hinv a Ha) as (Hs & Hw & He & Hc & Hp & Hg & Hgc & Hv).
  assert (Hprev : FlowLedger.has_previous_ l = true).
  { rewrite (li_previous l Hinv). destruct (FlowLedger.samples_ l); done. }
  assert (Hina : sample_ok a).
  { pose proof (li_samples l Hinv) as Hall. rewrite Forall_forall in Hall.
    apply last_Some_elem_of in Ha. apply Hall in Ha. tauto. }
  unfold FlowLedger.check_order in Hord. rewrite Hprev in Hord. simpl in Hord.
  inv_status Hord. split; [lia|]. intros Hp' Hg' Hb. rewrite Hb, Z.eqb_refl in Hord. simpl in Hord.
  boolify. destruct Hok, Hina.
  rewrite wrap_small in Hord by ulia. constructor; congruence || lia.
Qed.

Lemma ledger_inv_make flow generation limits :
  0 <= LedgerLimits.max_samples limits -> ledger_inv (FlowLedger.make flow generation limits).
Proof.
  intros Hm. unfold FlowLedger.make, FlowLedger.clamp_limits.
  split; simpl; try done; split_ifs; simpl in *; unfold size_of, kMaxSamplesPerFlow in *;
    boolify; simpl; lia.
Qed.

Lemma restart_epoch_cases s l :
  ledger_inv l ->
  let l' := FlowLedger.restart_epoch s l in
  ledger_inv l' /\
  FlowLedger.flow_ l' = FlowLedger.flow_ l /\
  FlowLedger.generation_ l' = FlowLedger.generation_ l /\
  FlowLedger.limits_ l' = FlowLedger.limits_ l /\
  (FlowLedger.samples_ l' = [] \/
   l' = l /\ FlowSample.path s = FlowLedger.last_path_ l /\
   FlowSample.path_generation s = FlowLedger.last_path_generation_ l /\
   TickSpan.begin_ (FlowSample.span s) = FlowLedger.last_span_end_ l).
Proof.
  intros Hinv. unfold FlowLedger.restart_epoch.
  destruct (FlowLedger.has_previous_ l) eqn:Hp; simpl.
  2:{ split; [done|]. do 3 (split; [done|]). left.
      rewrite (li_previous l Hinv) in Hp. by destruct (FlowLedger.samples_ l). }
  set (moved := negb (FlowSample.path s =? _) || negb _).
  destruct (moved || negb (_ =? FlowLedger.last_span_end_ l)) eqn:E; simpl.
  - assert (Hl : size_of (@nil FlowSample.t) = 0) by done.
    pose proof (li_limit l Hinv).
    destruct moved; (split; [split; simpl; try done; try reflexivity; lia|auto]).
  - subst moved. boolify. do 4 (split; [done|]). right. auto.
Qed.

Lemma retain_inv s l :
  ledger_inv l -> sample_ok s -> FlowSample.validate s = Val tt ->
  FlowSample.flow s = FlowLedger.flow_ l ->
  FlowSample.flow_generation s = FlowLedger.generation_ l ->
  (forall a, list.last (FlowLedger.samples_ l) = Some a -> follows a s) ->
  ledger_inv (FlowLedger.retain s l).
Proof.
  intros Hinv Hok Hval Hf Hg Hfol. destruct Hinv as [Hp Hlim Hsz Hall Hch Hlast].
  unfold FlowLedger.retain. set (full := size_of _ >=? _).
  assert (Hsnoc : forall ss, ss = FlowLedger.samples_ l \/ ss = tail (FlowLedger.samples_ l) ->
            Forall (fun s => sample_ok s /\ FlowSample.validate s = Val tt /\
              FlowSample.flow s = FlowLedger.flow_ l /\
              FlowSample.flow_generation s = FlowLedger.generation_ l) (ss ++ [s]) /\
            chained (ss ++ [s]) /\ ss ++ [s] <> []).
  { intros ss Hss. split; [|split; [|by destruct ss]].
    - apply Forall_app. split; [|by apply Forall_singleton].
      destruct Hss as [->| ->]; [done|by apply Forall_tail].
    - apply chained_snoc; destruct Hss as [->| ->]; try done; [by apply chained_tail|].
      intros a Ha. apply Hfol. destruct (FlowLedger.samples_ l) as [|x [|y tl]]; done. }
  destruct (Hsnoc (if full then tail (FlowLedger.samples_ l) else FlowLedger.samples_ l))
    as (H1 & H2 & H3); [destruct full; auto|].
  destruct full eqn:Ef; split; simpl; try done.
  all: try (by rewrite bool_decide_eq_false_2).
  all: try (intros a; rewrite last_snoc; intros [= <-]; done).
  all: subst full; unfold size_of in *; rewrite length_app; simpl.
  - destruct (FlowLedger.samples_ l); simpl in *; lia.
  - lia.
Qed.

Lemma append_inv s l :
  ledger_inv l -> sample_ok s -> ledger_inv (fst (FlowLedger.append s l)).
Proof.
  intros Hinv Hok. unfold FlowLedger.append.
  destruct (_ || _) eqn:E1; [done|]. boolify.
  destruct (FlowSample.validate s) as [[]|] eqn:Ev; [|done].
  destruct (FlowLedger.is_replay l s); [by split_ifs|].
  destruct (FlowLedger.check_order l s) as [[]|] eqn:Eo; [|done].
  destruct (FlowSample.cumulative_bytes s <? FlowLedger.generation_cumulative_ l) eqn:Ec; [done|].
  destruct (_ && _ && _); [done|].
  destruct (restart_epoch_cases s l Hinv) as (Hri & Hrf & Hrg & Hrl & Hcase).
  cbv zeta. destruct (_ && _); [done|]. destruct (_ && _); [done|]. simpl.
  apply retain_inv; try done; [congruence..|].
  destruct Hcase as [->|(-> & Hp & Hg & Hb)]; [done|].
  intros a Ha. boolify.
  by apply (check_order_follows l s Hinv Hok Eo Ec a Ha).
Qed.

(** A failed [append] changes the ledger only when it fails on a volume ceiling. *)
Lemma append_error_unchanged s l c :
  snd (FlowLedger.append s l) = Err c -> c <> StatusCode.Oversized ->
  fst (FlowLedger.append s l) = l.
Proof.
  unfold FlowLedger.append. intros H Hc.
  repeat (case_match; simpl in *; simplify_eq; try done).
Qed.

(** ** What the measurements of a ledger are *)

(** The volume of a run of windows. *)
Fixpoint volume (ss : list FlowSample.t) : Z :=
  match ss with [] => 0 | s :: ss => FlowSample.window_bytes s + volume ss end.

Definition window_ok (s : FlowSample.t) : Prop := sample_ok s /\ FlowSample.validate s = Val tt.

Lemma volume_nonneg ss : Forall window_ok ss -> 0 <= volume ss.
Proof. induction 1 as [|s ss [[] _]]; simpl; ulia. Qed.

Lemma window_length s : window_ok s ->
  TickSpan.length (FlowSample.span s) =
    TickSpan.end_ (FlowSample.span s) - TickSpan.begin_ (FlowSample.span s) /\
  0 < TickSpan.length (FlowSample.span s) < 2 ^ 64.
Proof.
  intros [[] Hv]. apply validate_facts in Hv as (Hse & _). unfold TickSpan.length.
  destruct (_ >? _) eqn:E; [|lia]. rewrite wrap_small by ulia. ulia.
Qed.

(** The cumulative counter telescopes over a chained run, and time only advances. *)
Lemma chained_telescopes ss : forall a z,
  Forall window_ok (a :: ss) -> chained (a :: ss) -> list.last (a :: ss) = Some z ->
  volume ss = FlowSample.cumulative_bytes z - FlowSample.cumulative_bytes a /\
  TickSpan.end_ (FlowSample.span a) <= TickSpan.end_ (FlowSample.span z).
Proof.
  induction ss as [|b ss IH]; intros a z Hall Hch Hz.
  { simplify_eq/=. lia. }
  inversion_clear Hall as [|? ? Ha Hall']. destruct Hch as [[] Hch].
  destruct (IH b z Hall' Hch Hz) as [IHv IHe].
  assert (Hb : window_ok b) by (by inversion Hall').
  pose proof (window_length b Hb) as [? ?]. cbn [volume]. lia.
Qed.

Lemma derive_windows_chained ss : forall prev acc peak c,
  Forall window_ok ss -> chained ss ->
  (forall e s, prev = Some e -> head ss = Some s -> TickSpan.begin_ (FlowSample.span s) = e) ->
  0 <= acc -> acc + volume ss < 2 ^ 64 ->
  exists peak', derive_windows ss prev acc peak c = Some (acc + volume ss, peak', c).
Proof.
  induction ss as [|s ss IH]; intros prev acc peak c Hall Hch Hprev Hacc Hsum.
  { exists peak. cbn. by rewrite Z.add_0_r. }
  inversion_clear Hall as [|? ? Hs Hall'].
  pose proof (volume_nonneg _ Hall'). pose proof (window_length s Hs) as [_ Hlen].
  cbn [derive_windows]. cbv zeta. replace (TickSpan.length (FlowSample.span s) =? 0) with false by lia.
  assert (Hw : u64_ok (FlowSample.window_bytes s)) by (destruct Hs as [[] _]; done).
  cbn [volume] in *. rewrite saturating_add_spec by ulia.
  rewrite Z.min_l by ulia.
  replace (match prev with Some e => _ | None => c end) with c.
  2:{ destruct prev as [e|]; [|done]. rewrite (Hprev e s) by done. by rewrite Z.eqb_refl. }
  rewrite Z.add_assoc in *. apply IH; [done| | |ulia|lia].
  - by destruct ss; [|destruct Hch].
  - intros e s' [= <-] Hs'. destruct ss as [|b ss]; simplify_eq/=. by destruct Hch as [[] _].
Qed.

Lemma has_wide_gap_chained g ss : chained ss -> has_wide_gap g ss = false.
Proof.
  induction ss as [|a [|b ss] IH]; intros Hch; [done..|].
  destruct Hch as [[Hsp _ _ _ _] Hch]. cbn [has_wide_gap]. rewrite Hsp.
  rewrite Z.gtb_ltb, Z.ltb_irrefl. by apply IH.
Qed.

(** [derive_measurements] on a run of chained windows, every branch resolved. *)
Lemma derive_measurements_chained ss limits completed gap dropped first last :
  Forall window_ok ss -> chained ss -> head ss = Some first -> list.last ss = Some last ->
  let bytes := FlowSample.cumulative_bytes last - FlowSample.cumulative_bytes first +
               FlowSample.window_bytes first in
  let duration := TickSpan.end_ (FlowSample.span last) - TickSpan.begin_ (FlowSample.span first) in
  0 < duration < 2 ^ 64 /\ u64_ok bytes /\
  match mul_div bytes kKiloTickScale duration with
  | None => derive_measurements ss limits completed gap dropped = Err StatusCode.Overflow
  | Some rate => exists m, derive_measurements ss limits completed gap dropped = Val m /\
      FlowMeasurements.evidence_present m = true /\
      FlowMeasurements.evidence_contiguous m = (2 <=? length ss)%nat && negb gap /\
      FlowMeasurements.gap_detected m = gap /\
      FlowMeasurements.duration_ticks m = duration /\
      FlowMeasurements.cumulative_bytes m = FlowSample.cumulative_bytes last /\
      FlowMeasurements.retained_window_bytes m = bytes /\
      FlowMeasurements.sustained_rate m = rate /\
      FlowMeasurements.completed m = completed /\
      FlowMeasurements.protection m = FlowSample.protection last /\
      FlowMeasurements.service_class m = FlowSample.service_class last
  end.
Proof.
  intros Hall Hch Hf Hl bytes duration. destruct ss as [|a ss]; simplify_eq/=.
  destruct (chained_telescopes ss first last Hall Hch Hl) as [Hv He].
  assert (Hwf : window_ok first) by (by inversion Hall).
  assert (Hwl : window_ok last).
  { rewrite Forall_forall in Hall. by apply Hall, last_Some_elem_of. }
  pose proof (window_length first Hwf) as [Hlen1 Hlen2].
  destruct Hwf as [[] Hvf]. apply validate_facts in Hvf as (_ & Hwc & _).
  destruct Hwl as [[] _].
  assert (Hvol : volume (first :: ss) = bytes) by (cbn [volume]; unfold bytes; lia).
  assert (Hb : u64_ok bytes).
  { pose proof (volume_nonneg ss ltac:(by inversion Hall)). unfold bytes. ulia. }
  assert (Hd : 0 < duration < 2 ^ 64) by (unfold duration; ulia).
  split; [done|]. split; [done|].
  destruct (derive_windows_chained (first :: ss) None 0
    (FlowMeasurements.peak_window_rate FlowMeasurements.default)
    (2 <=? length (first :: ss))%nat) as [peak Hdw]; [done..|ulia|].
  assert (Hspan : TickSpan.length (TickSpan.mk (TickSpan.begin_ (FlowSample.span first))
    (TickSpan.end_ (FlowSample.span last))) = duration).
  { unfold TickSpan.length. simpl. destruct (_ >? _) eqn:E; [|unfold duration in *; lia].
    apply wrap_small. unfold duration in *; ulia. }
  unfold derive_measurements. cbn [head]. rewrite Hl. cbv zeta.
  replace (_ <? _) with false by (unfold duration in Hd; lia).
  cbn [FlowMeasurements.peak_window_rate FlowMeasurements.duration_ticks update
       FlowMeasurements.observed] in *.
  rewrite Hdw, Hspan, Hvol, Z.add_0_l.
  replace (duration =? 0) with false by lia.
  rewrite has_wide_gap_chained, andb_false_r by done.
  destruct (mul_div bytes kKiloTickScale duration) as [rate|] eqn:Hm; [|done].
  eexists. split; [reflexivity|]. repeat (split; [reflexivity|]). simpl.
  unfold retained_rate. fold duration. rewrite (wrap_small 64 duration) by ulia.
  rewrite Hm. by split_ifs.
Qed.

Lemma ledger_windows_ok l : ledger_inv l -> Forall window_ok (FlowLedger.samples_ l).
Proof.
  intros Hinv. eapply Forall_impl; [apply (li_samples l Hinv)|]. intros s (?&?&_). by split.
Qed.

Lemma first_last {A} (l : list A) : l <> [] -> exists x z, head l = Some x /\ list.last l = Some z.
Proof.
  intros Hl. destruct l as [|x l]; [done|]. exists x.
  destruct (list.last (x :: l)) as [z|] eqn:E; [by exists z|]. by apply last_None in E.
Qed.

Lemma restart_epoch_frame s l :
  FlowLedger.flow_ (FlowLedger.restart_epoch s l) = FlowLedger.flow_ l /\
  FlowLedger.generation_ (FlowLedger.restart_epoch s l) = FlowLedger.generation_ l.
Proof. unfold FlowLedger.restart_epoch. by split_ifs. Qed.

Lemma retain_frame s l :
  let l' := FlowLedger.retain s l in
  FlowLedger.flow_ l' = FlowLedger.flow_ l /\
  FlowLedger.generation_ l' = FlowLedger.generation_ l /\
  FlowLedger.is_replay l' s = true /\
  FlowLedger.back_digest l' = Some (FlowSample.digest s).
Proof.
  unfold FlowLedger.retain, FlowLedger.is_replay, FlowLedger.back_digest.
  destruct (_ >=? _); cbn -[FlowSample.digest]; by rewrite !Z.eqb_refl, last_snoc.
Qed.

Lemma append_frame s l :
  FlowLedger.flow_ (fst (FlowLedger.append s l)) = FlowLedger.flow_ l /\
  FlowLedger.generation_ (fst (FlowLedger.append s l)) = FlowLedger.generation_ l.
Proof.
  destruct (restart_epoch_frame s l) as [Hf Hg].
  destruct (retain_frame s (FlowLedger.restart_epoch s l)) as (Hf' & Hg' & _).
  unfold FlowLedger.append. destruct (_ || _); [done|].
  destruct (FlowSample.validate s); [|done]. destruct (FlowLedger.is_replay l s); [by split_ifs|].
  destruct (FlowLedger.check_order l s); [|done].
  destruct (_ <? FlowLedger.generation_cumulative_ l); [done|].
  destruct (_ && _ && _); [done|]. cbv zeta. destruct (_ && _); [done|].
  destruct (_ && _); [done|]. cbn [fst]. split; congruence.
Qed.

(** ** Sequences of ledger operations *)

Inductive ledger_op : Type :=
| OpAppend (s : FlowSample.t)
| OpComplete (at_ : Tick)
| OpClear.

Definition ledger_apply (op : ledger_op) (l : FlowLedger.t) : FlowLedger.t :=
  match op with
  | OpAppend s => fst (FlowLedger.append s l)
  | OpComplete at_ => fst (FlowLedger.mark_completed at_ l)
  | OpClear => FlowLedger.clear l
  end.

Definition ledger_run (ops : list ledger_op) (l : FlowLedger.t) : FlowLedger.t :=
  foldl (fun l op => ledger_apply op l) l ops.

Definition op_ok (op : ledger_op) : Prop :=
  match op with OpAppend s => sample_ok s | _ => True end.

Lemma ledger_apply_inv op l : op_ok op -> ledger_inv l -> ledger_inv (ledger_apply op l).
Proof.
  intros Hop Hinv. destruct op as [s|at_|]; simpl.
  - by apply append_inv.
  - unfold FlowLedger.mark_completed. split_ifs; try done. by destruct Hinv; split.
  - pose proof (li_limit l Hinv). split; try done. unfold size_of. simpl. lia.
Qed.

(** ** A concrete stream, for the witnesses *)

(** Window [n] of a stream of adjoining 100 tick windows of [bytes] bytes each. *)
Definition stream_sample (n bytes : Z) : FlowSample.t :=
  let s := FlowSample.mk 7 1 3 1 n n (TickSpan.mk (100 * n) (100 * n + 100)) (bytes * n) bytes
    ServiceClass.Standard (Priority.of_level 3) ProtectionState.Unprotected 0 0
    (ValidityWindow.mk (100 * n) (100 * n + 1000))
    (Provenance.mk (PublisherRef.mk 1 1 1 n) (100 * n + 100) kSchemaVersion 0) in
  s <| FlowSample.provenance ::= (fun p => p <| Provenance.digest := FlowSample.digest s |>) |>.

Lemma stream_sample_ok n bytes :
  0 <= n <= 100 -> 0 <= bytes <= 2 ^ 57 -> sample_ok (stream_sample n bytes).
Proof. intros. split; cbn -[Z.mul]; unfold in_range; nia. Qed.

Definition demo_ledger (max_samples n bytes : Z) : FlowLedger.t :=
  ledger_run ((fun i => OpAppend (stream_sample (Z.of_nat i) bytes)) <$> seq 1 (Z.to_nat n))
    (FlowLedger.make 7 1 (LedgerLimits.mk 0 max_samples 0 0)).

Lemma ledger_run_inv ops : forall l,
  Forall op_ok ops -> ledger_inv l -> ledger_inv (ledger_run ops l).
Proof.
  unfold ledger_run. induction ops as [|op ops IH]; intros l Hops Hl; [done|].
  inversion_clear Hops. cbn [foldl]. apply IH; [done|]. by apply ledger_apply_inv.
Qed.

Lemma demo_ops_ok n bytes : 0 <= n <= 99 -> 0 <= bytes <= 2 ^ 57 ->
  Forall op_ok ((fun i => OpAppend (stream_sample (Z.of_nat i) bytes)) <$> seq 1 (Z.to_nat n)).
Proof. intros. apply Forall_fmap, Forall_seq. intros j Hj. apply stream_sample_ok; lia. Qed.

Lemma ledger_run_inv_demo max n bytes :
  0 <= max -> 0 <= n <= 99 -> 0 <= bytes <= 2 ^ 57 -> ledger_inv (demo_ledger max n bytes).
Proof.
  intros. apply ledger_run_inv; [by apply demo_ops_ok|]. by apply ledger_inv_make.
Qed.

(** ** Properties *)

(** C34: However samples, completions and clears are interleaved, the windows a
    [FlowLedger] retains are individually valid, belong to its flow generation, number at most the
    configured limit and form one contiguous run on one path generation, each window adding
    exactly its own volume to the cumulative counter; the cached last-window members describe
    the newest of them. *)
Theorem ledger_run_invariant (ops : list ledger_op) (flow generation : Z)
    (limits : LedgerLimits.t) :
  0 <= LedgerLimits.max_samples limits -> Forall op_ok ops ->
  ledger_inv (ledger_run ops (FlowLedger.make flow generation limits)).
Proof.
  intros Hm Hops. apply ledger_run_inv; [done|]. by apply ledger_inv_make.
Qed.

Lemma ledger_run_invariant_witness : ledger_inv (demo_ledger 2 3 500).
Proof.
  apply ledger_run_invariant; [simpl; lia|]. apply demo_ops_ok; lia.
Defined.

(** Replaying the window that was accepted last is answered with
    [DuplicateIgnored] and changes nothing. *)
Theorem append_idempotent (s : FlowSample.t) (l l' : FlowLedger.t) :
  FlowLedger.append s l = (l', Val AppendOutcome.Accepted) ->
  FlowLedger.append s l' = (l', Val AppendOutcome.DuplicateIgnored).
Proof.
  intros H. unfold FlowLedger.append in H.
  destruct (_ || _) eqn:E1; [done|].
  destruct (FlowSample.validate s) as [[]|] eqn:Ev; [|done].
  destruct (FlowLedger.is_replay l s); [by split_ifs_in H|].
  destruct (FlowLedger.check_order l s); [|done].
  destruct (_ <? FlowLedger.generation_cumulative_ l); [done|].
  destruct (_ && _ && _); [done|]. cbv zeta in H.
  destruct (_ && _); [done|]. destruct (_ && _); [done|]. injection H as <-.
  destruct (retain_frame s (FlowLedger.restart_epoch s l)) as (Hf & Hg & Hr & Hb).
  destruct (restart_epoch_frame s l) as [Hf' Hg'].
  unfold FlowLedger.append. rewrite Hf, Hg, Hf', Hg', E1, Ev, Hr, Hb.
  by rewrite bool_decide_eq_true_2.
Qed.

Lemma append_idempotent_witness :
  let s := stream_sample 1 500 in
  let l := demo_ledger 4 1 500 in
  FlowLedger.append s l = (l, Val AppendOutcome.DuplicateIgnored).
Proof.
  apply (append_idempotent _ (FlowLedger.make 7 1 (LedgerLimits.mk 0 4 0 0))).
  vm_compute. reflexivity.
Defined.

(** The volume ceilings are checked after the epoch restart: a refused sample
    that is not adjoining throws away every retained window, and the ledger then accepts a window
    it had already counted. *)
Theorem oversized_refusal_discards_evidence :
  exists l s,
    FlowLedger.samples_ l = [stream_sample 1 500; stream_sample 2 500] /\
    snd (FlowLedger.append s l) = Err StatusCode.Oversized /\
    FlowLedger.samples_ (fst (FlowLedger.append s l)) = [] /\
    FlowLedger.has_previous_ (fst (FlowLedger.append s l)) = false /\
    snd (FlowLedger.append (stream_sample 2 500) (fst (FlowLedger.append s l))) =
      Val AppendOutcome.Accepted.
Proof.
  exists (ltac:(let l := eval vm_compute in
    (ledger_run [OpAppend (stream_sample 1 500); OpAppend (stream_sample 2 500)]
       (FlowLedger.make 7 1 (LedgerLimits.mk 0 4 600 0))) in exact l)).
  exists (ltac:(let s := eval vm_compute in (stream_sample 5 601) in exact s)). vm_compute. done.
Qed.

(** The measurements of a ledger are exact: the retained volume is the growth of
    the cumulative counter over the retained run, the duration is the time the run spans, the
    sustained rate is the floor of volume * 1000 / duration, and the evidence counts as contiguous
    exactly when two windows are retained and no telemetry gap opened the epoch. *)
Theorem measurements_exact (l : FlowLedger.t) (first last : FlowSample.t) :
  ledger_inv l -> head (FlowLedger.samples_ l) = Some first ->
  list.last (FlowLedger.samples_ l) = Some last ->
  let bytes := FlowSample.cumulative_bytes last - FlowSample.cumulative_bytes first +
               FlowSample.window_bytes first in
  let duration := TickSpan.end_ (FlowSample.span last) - TickSpan.begin_ (FlowSample.span first) in
  let m := FlowLedger.measurements l in
  bytes * kKiloTickScale < 2 ^ 64 ->
  FlowMeasurements.evidence_present m = true /\
  FlowMeasurements.retained_window_bytes m = bytes /\
  FlowMeasurements.cumulative_bytes m = FlowSample.cumulative_bytes last /\
  FlowMeasurements.duration_ticks m = duration /\
  FlowMeasurements.sustained_rate m = bytes * kKiloTickScale / duration /\
  FlowMeasurements.evidence_contiguous m =
    (2 <=? length (FlowLedger.samples_ l))%nat && negb (FlowLedger.gap_detected_ l).
Proof.
  intros Hinv Hf Hl bytes duration m Hfit. unfold m, FlowLedger.measurements.
  destruct (derive_measurements_chained _ (FlowLedger.limits_ l) (FlowLedger.completed_ l)
    (FlowLedger.gap_detected_ l) (FlowLedger.dropped_windows_ l) first last
    (ledger_windows_ok l Hinv) (li_chained l Hinv) Hf Hl) as (Hd & Hb & Hm).
  fold bytes duration in Hd, Hb, Hm.
  rewrite mul_div_small in Hm by (done || (unfold kKiloTickScale in *; ulia)).
  destruct Hm as (m' & -> & H1 & H2 & _ & H3 & H4 & H5 & H6 & _). simpl.
  repeat split; done.
Qed.

Lemma measurements_exact_witness :
  FlowMeasurements.sustained_rate (FlowLedger.measurements (demo_ledger 2 3 500)) =
    1000 * kKiloTickScale / 200.
Proof.
  destruct (measurements_exact (demo_ledger 2 3 500) (stream_sample 2 500) (stream_sample 3 500))
    as (_ & _ & _ & _ & H & _).
  - apply ledger_run_inv_demo; lia.
  - vm_compute. reflexivity.
  - vm_compute. reflexivity.
  - vm_compute. reflexivity.
  - rewrite H. vm_compute. reflexivity.
Defined.

(** When the retained volume scaled by 1000 no longer fits 64 bits (and neither
    factor is a multiple of the duration) the derivation fails although the rate may be small, and
    [measurements] answers with the default: evidence that is present is reported absent. *)
Theorem measurements_lost (l : FlowLedger.t) (first last : FlowSample.t) :
  ledger_inv l -> head (FlowLedger.samples_ l) = Some first ->
  list.last (FlowLedger.samples_ l) = Some last ->
  let bytes := FlowSample.cumulative_bytes last - FlowSample.cumulative_bytes first +
               FlowSample.window_bytes first in
  let duration := TickSpan.end_ (FlowSample.span last) - TickSpan.begin_ (FlowSample.span first) in
  2 ^ 64 <= bytes * kKiloTickScale ->
  bytes mod duration <> 0 -> kKiloTickScale mod duration <> 0 ->
  FlowLedger.measurements l = FlowMeasurements.default.
Proof.
  intros Hinv Hf Hl bytes duration Hbig Hm1 Hm2. unfold FlowLedger.measurements.
  destruct (derive_measurements_chained _ (FlowLedger.limits_ l) (FlowLedger.completed_ l)
    (FlowLedger.gap_detected_ l) (FlowLedger.dropped_windows_ l) first last
    (ledger_windows_ok l Hinv) (li_chained l Hinv) Hf Hl) as (Hd & Hb & Hm).
  fold bytes duration in Hd, Hb, Hm.
  rewrite mul_div_spec in Hm by (done || (unfold kKiloTickScale in *; ulia)).
  unfold mul_div_value in Hm. apply Z.ltb_ge in Hbig. apply Z.eqb_neq in Hm1, Hm2.
  rewrite Hbig, Hm1, Hm2, !andb_false_r in Hm. by rewrite Hm.
Qed.

Lemma measurements_lost_witness :
  FlowLedger.measurements (demo_ledger 4 3 (2 ^ 53 + 1)) = FlowMeasurements.default.
Proof.
  apply (measurements_lost (demo_ledger 4 3 (2 ^ 53 + 1)) (stream_sample 1 (2 ^ 53 + 1))
    (stream_sample 3 (2 ^ 53 + 1))).
  - apply ledger_run_inv_demo; lia.
  - vm_compute. reflexivity.
  - vm_compute. reflexivity.
  - vm_compute. discriminate.
  - vm_compute. discriminate.
  - vm_compute. discriminate.
Defined.
