(* ===== verification/Tables.v ===== *)
(** * Capacity and path evidence ([include/efg/capacity.hpp], [src/capacity.cpp],
      [include/efg/path.hpp], [src/path.cpp])

    The two bounded tables of authoritative statements the governor consults, each
    keeping the newest statement per identifier. [EvidenceTable] is what they promise
    to the governor; the laws are proved for both implementations and the theorems on
    sequences of submissions are proved once against the interface. *)
From stdpp Require Import sorting.
From S2P Require Import Prelude Status Checked Tick Hash OMap.

Definition kMaxPaths : Z := Z.shiftl 1 16.
Definition kMaxResources : Z := Z.shiftl 1 16.
Definition kMaxResourcesPerPath : Z := 64.

(** The provenance fields both digests end with. *)
Definition provenance_writes (p : Provenance.t) : list (Z -> Z) := [
  Hasher.write_u64 (PublisherRef.publisher (Provenance.publisher p));
  Hasher.write_u64 (PublisherRef.boot (Provenance.publisher p));
  Hasher.write_u64 (PublisherRef.epoch (Provenance.publisher p));
  Hasher.write_u64 (PublisherRef.sequence (Provenance.publisher p));
  Hasher.write_u64 (Provenance.emitted_at p);
  Hasher.write_u32 (Provenance.schema_version p) ].

Module ResourceCapacity.
Record t := mk {
  resource : ResourceId;
  generation : Generation;
  snapshot : CapacitySnapshotId;
  span : TickSpan.t;
  capacity : Z;
  reserved : Z;
  validity : ValidityWindow.t;
  provenance : Provenance.t }.
#[global] Instance eta_t : Eta t := fun r =>
  mk (resource r) (generation r) (snapshot r) (span r) (capacity r) (reserved r)
     (validity r) (provenance r).
#[global] Instance eq_dec : EqDecision t.
Proof. solve_decision. Defined.

Definition validate (c : t) : Status :=
  refuse_if (negb (id_valid (resource c))) StatusCode.InvalidArgument ;;
  refuse_if (negb (id_valid (generation c))) StatusCode.InvalidArgument ;;
  refuse_if (negb (id_valid (snapshot c))) StatusCode.InvalidArgument ;;
  refuse_if (TickSpan.end_ (span c) <=? TickSpan.begin_ (span c)) StatusCode.InvalidArgument ;;
  refuse_if (capacity c =? 0) StatusCode.InvalidArgument ;;
  refuse_if (reserved c >? capacity c) StatusCode.ContradictoryEvidence ;;
  refuse_if (negb (ValidityWindow.well_formed (validity c))) StatusCode.InvalidArgument ;;
  refuse_if (ValidityWindow.expires_at (validity c) <=? TickSpan.end_ (span c))
    StatusCode.Expired ;;
  refuse_if (negb (Provenance.valid (provenance c))) StatusCode.InvalidArgument ;;
  refuse_if (negb (Provenance.schema_version (provenance c) =? kSchemaVersion))
    StatusCode.VersionMismatch.

Definition available (c : t) : StatusOr Z :=
  match sub_overflow (capacity c) (reserved c) with
  | None => Err StatusCode.Underflow
  | Some out => Val out
  end.

Definition digest (c : t) : Z :=
  Hasher.digest_of ([
    Hasher.write_u64 (resource c);
    Hasher.write_u64 (generation c);
    Hasher.write_u64 (snapshot c);
    Hasher.write_u64 (TickSpan.begin_ (span c));
    Hasher.write_u64 (TickSpan.end_ (span c));
    Hasher.write_u64 (capacity c);
    Hasher.write_u64 (reserved c);
    Hasher.write_u64 (ValidityWindow.issued_at (validity c));
    Hasher.write_u64 (ValidityWindow.expires_at (validity c)) ] ++
    provenance_writes (provenance c)).
End ResourceCapacity.

Module CapacityTable.
Record t := mk { max_resources : Z; entries_ : omap_t ResourceId ResourceCapacity.t }.
#[global] Instance eta_t : Eta t := fun r => mk (max_resources r) (entries_ r).
Definition make (max_resources : Z) : t := mk max_resources [].
Definition default : t := make kMaxResources.
Definition size (tbl : t) : Z := size_of (entries_ tbl).

Definition submit (snapshot : ResourceCapacity.t) : M t unit := fun tbl =>
  match ResourceCapacity.validate snapshot with
  | Err c => (tbl, Err c)
  | Val _ =>
  let put := tbl <| entries_ ::= OMap.set (ResourceCapacity.resource snapshot) snapshot |> in
  match OMap.find (ResourceCapacity.resource snapshot) (entries_ tbl) with
  | None =>
      if size tbl >=? max_resources tbl then (tbl, Err StatusCode.CapacityExceeded)
      else (put, Val tt)
  | Some existing =>
      let same_generation :=
        ResourceCapacity.generation snapshot =? ResourceCapacity.generation existing in
      let issued := ValidityWindow.issued_at (ResourceCapacity.validity snapshot) in
      let existing_issued := ValidityWindow.issued_at (ResourceCapacity.validity existing) in
      if ResourceCapacity.generation snapshot <? ResourceCapacity.generation existing
      then (tbl, Err StatusCode.Stale)
      else if same_generation && (issued <? existing_issued)
      then (tbl, Err StatusCode.Stale)
      else if same_generation &&
              (ResourceCapacity.snapshot snapshot =? ResourceCapacity.snapshot existing)
      then if ResourceCapacity.digest snapshot =? ResourceCapacity.digest existing
           then (tbl, Val tt)
           else if issued =? existing_issued
           then (tbl, Err StatusCode.ContradictoryEvidence)
           else (put, Val tt)
      else (put, Val tt)
  end end.

Definition find (resource : ResourceId) (tbl : t) : option ResourceCapacity.t :=
  OMap.find resource (entries_ tbl).

Definition expire (now : Tick) (tbl : t) : t :=
  tbl <| entries_ ::= OMap.erase_if (fun _ e =>
    ValidityWindow.expired_at (ResourceCapacity.validity e) now ||
    negb (ValidityWindow.well_formed (ResourceCapacity.validity e))) |>.

Definition resources (tbl : t) : list ResourceId := OMap.keys (entries_ tbl).
Definition clear (tbl : t) : t := tbl <| entries_ := [] |>.
End CapacityTable.

(** [std::adjacent_find(...) != end]. *)
Fixpoint has_adjacent_equal (l : list Z) : bool :=
  match l with
  | a :: ((b :: _) as l') => (a =? b) || has_adjacent_equal l'
  | _ => false
  end.

Module PathDescriptor.
Record t := mk {
  path : PathId;
  generation : Generation;
  resources : list ResourceId;
  validity : ValidityWindow.t;
  provenance : Provenance.t }.
#[global] Instance eta_t : Eta t := fun r =>
  mk (path r) (generation r) (resources r) (validity r) (provenance r).
#[global] Instance eq_dec : EqDecision t.
Proof. solve_decision. Defined.

Definition validate (p : t) : Status :=
  refuse_if (negb (id_valid (path p))) StatusCode.InvalidArgument ;;
  refuse_if (negb (id_valid (generation p))) StatusCode.InvalidArgument ;;
  refuse_if (bool_decide (resources p = [])) StatusCode.InvalidArgument ;;
  refuse_if (size_of (resources p) >? kMaxResourcesPerPath) StatusCode.Oversized ;;
  refuse_if (has_adjacent_equal (merge_sort Z.le (resources p)))
    StatusCode.ContradictoryEvidence ;;
  refuse_if (existsb (fun r => negb (id_valid r)) (resources p)) StatusCode.InvalidArgument ;;
  refuse_if (negb (ValidityWindow.well_formed (validity p))) StatusCode.InvalidArgument ;;
  refuse_if (negb (Provenance.valid (provenance p))) StatusCode.InvalidArgument ;;
  refuse_if (negb (Provenance.schema_version (provenance p) =? kSchemaVersion))
    StatusCode.VersionMismatch.

Definition digest (p : t) : Z :=
  Hasher.digest_of ([
    Hasher.write_u64 (path p);
    Hasher.write_u64 (generation p);
    Hasher.write_u32 (wrap 32 (size_of (resources p))) ] ++
    (Hasher.write_u64 <$> resources p) ++ [
    Hasher.write_u64 (ValidityWindow.issued_at (validity p));
    Hasher.write_u64 (ValidityWindow.expires_at (validity p)) ] ++
    provenance_writes (provenance p)).
End PathDescriptor.

Module PathTable.
Record t := mk {
  max_paths : Z; max_resources_per_path : Z; entries_ : omap_t PathId PathDescriptor.t }.
#[global] Instance eta_t : Eta t := fun r =>
  mk (max_paths r) (max_resources_per_path r) (entries_ r).
Definition make (max_paths max_resources_per_path : Z) : t :=
  mk max_paths max_resources_per_path [].
Definition default : t := make kMaxPaths kMaxResourcesPerPath.
Definition size (tbl : t) : Z := size_of (entries_ tbl).

Definition submit (path : PathDescriptor.t) : M t unit := fun tbl =>
  match PathDescriptor.validate path with
  | Err c => (tbl, Err c)
  | Val _ =>
  if size_of (PathDescriptor.resources path) >? max_resources_per_path tbl
  then (tbl, Err StatusCode.Oversized)
  else
  let put := tbl <| entries_ ::= OMap.set (PathDescriptor.path path) path |> in
  match OMap.find (PathDescriptor.path path) (entries_ tbl) with
  | None =>
      if size tbl >=? max_paths tbl then (tbl, Err StatusCode.CapacityExceeded)
      else (put, Val tt)
  | Some existing =>
      let same_generation := PathDescriptor.generation path =? PathDescriptor.generation existing in
      let issued := ValidityWindow.issued_at (PathDescriptor.validity path) in
      let existing_issued := ValidityWindow.issued_at (PathDescriptor.validity existing) in
      if PathDescriptor.generation path <? PathDescriptor.generation existing
      then (tbl, Err StatusCode.Stale)
      else if same_generation && (issued <? existing_issued)
      then (tbl, Err StatusCode.Stale)
      else if same_generation && (PathDescriptor.digest path =? PathDescriptor.digest existing)
      then (tbl, Val tt)
      else if same_generation && (issued =? existing_issued) &&
              negb (bool_decide (PathDescriptor.resources path =
                                 PathDescriptor.resources existing))
      then (tbl, Err StatusCode.ContradictoryEvidence)
      else (put, Val tt)
  end end.

Definition find (path : PathId) (tbl : t) : option PathDescriptor.t :=
  OMap.find path (entries_ tbl).

Definition expire (now : Tick) (tbl : t) : t :=
  tbl <| entries_ ::= OMap.erase_if (fun _ e =>
    ValidityWindow.expired_at (PathDescriptor.validity e) now ||
    negb (ValidityWindow.well_formed (PathDescriptor.validity e))) |>.

Definition paths (tbl : t) : list PathId := OMap.keys (entries_ tbl).
Definition clear (tbl : t) : t := tbl <| entries_ := [] |>.
End PathTable.

(** ** The interface of an evidence table *)

Class EvidenceTable (Tbl E : Type) := {
  ev_id : E -> Z;
  ev_generation : E -> Generation;
  ev_validity : E -> ValidityWindow.t;
  ev_digest : E -> Z;
  ev_validate : E -> Status;
  tbl_find : Z -> Tbl -> option E;
  tbl_submit : E -> M Tbl unit;
  tbl_expire : Tick -> Tbl -> Tbl;
  tbl_wf : Tbl -> Prop;
  submit_wf : forall e t, tbl_wf t -> tbl_wf (fst (tbl_submit e t));
  expire_wf : forall now t, tbl_wf t -> tbl_wf (tbl_expire now t);
  (** What is stored was validated and is filed under its own identifier. *)
  find_valid : forall k t e, tbl_wf t -> tbl_find k t = Some e ->
    ev_validate e = Val tt /\ ev_id e = k;
  (** A refused statement changes nothing. *)
  submit_err : forall e t t' c, tbl_submit e t = (t', Err c) -> t' = t;
  (** An accepted one is what is found from now on, or repeats the retained one. *)
  submit_ok : forall e t t', tbl_submit e t = (t', Val tt) ->
    ev_validate e = Val tt /\
    (tbl_find (ev_id e) t' = Some e \/
     t' = t /\ exists e0, tbl_find (ev_id e) t = Some e0 /\
       ev_generation e0 = ev_generation e /\ ev_digest e0 = ev_digest e);
  submit_frame : forall e t k, k <> ev_id e ->
    tbl_find k (fst (tbl_submit e t)) = tbl_find k t;
  (** Generations, and issue ticks inside a generation, only advance. *)
  submit_advances : forall e t e0, tbl_find (ev_id e) t = Some e0 ->
    exists e1, tbl_find (ev_id e) (fst (tbl_submit e t)) = Some e1 /\
      (ev_generation e0 < ev_generation e1 \/
       ev_generation e0 = ev_generation e1 /\
       ValidityWindow.issued_at (ev_validity e0) <= ValidityWindow.issued_at (ev_validity e1));
  find_expire : forall now t k e, tbl_wf t ->
    tbl_find k (tbl_expire now t) = Some e <->
    tbl_find k t = Some e /\ now < ValidityWindow.expires_at (ev_validity e) }.

(** ** Shared facts about the entries of a table *)

Section entries.
Context {E : Type} (id_of : E -> Z) (validity_of : E -> ValidityWindow.t).
Context (validate_of : E -> Status).
Hypothesis validate_well_formed : forall e,
  validate_of e = Val tt -> ValidityWindow.well_formed (validity_of e) = true.

(** Sorted, validated, filed under their own identifier. *)
Definition entries_wf (m : omap_t Z E) : Prop :=
  OMap.sorted m /\ Forall (fun kv => validate_of kv.2 = Val tt /\ id_of kv.2 = kv.1) m.

Definition stale_entry (now : Tick) (_ : Z) (e : E) : bool :=
  ValidityWindow.expired_at (validity_of e) now ||
  negb (ValidityWindow.well_formed (validity_of e)).

Lemma entries_wf_find k e m :
  entries_wf m -> OMap.find k m = Some e -> validate_of e = Val tt /\ id_of e = k.
Proof.
  intros [_ Hall] Hf. apply find_elem_of in Hf. rewrite Forall_forall in Hall.
  by apply Hall in Hf.
Qed.

Lemma entries_wf_set e m :
  validate_of e = Val tt -> entries_wf m -> entries_wf (OMap.set (id_of e) e m).
Proof. intros He [Hs Hall]. split; auto with efg. Qed.

Lemma entries_wf_erase_if p m : entries_wf m -> entries_wf (OMap.erase_if p m).
Proof. intros [Hs Hall]. split; auto with efg. Qed.

Lemma stale_entry_spec now k e :
  validate_of e = Val tt ->
  stale_entry now k e = negb (now <? ValidityWindow.expires_at (validity_of e)).
Proof.
  intros He%validate_well_formed. unfold stale_entry, ValidityWindow.expired_at.
  rewrite He. simpl. rewrite orb_false_r, Z.geb_leb, Z.leb_antisym. done.
Qed.

Lemma entries_find_expire now k e m :
  entries_wf m ->
  OMap.find k (OMap.erase_if (stale_entry now) m) = Some e <->
  OMap.find k m = Some e /\ now < ValidityWindow.expires_at (validity_of e).
Proof.
  intros Hwf. rewrite find_erase_if by apply Hwf.
  destruct (OMap.find k m) as [e'|] eqn:Hf; [|split; [done|by intros []]].
  pose proof (entries_wf_find k e' m Hwf Hf) as [Hv _].
  rewrite stale_entry_spec by done. destruct (Z.ltb_spec now (ValidityWindow.expires_at (validity_of e')));
    simpl; split; [intros [= <-]; done | by intros [[= <-] _] | done | intros [[= <-] ?]; lia].
Qed.
End entries.

Lemma capacity_validate_facts c :
  ResourceCapacity.validate c = Val tt ->
  ValidityWindow.well_formed (ResourceCapacity.validity c) = true /\
  ResourceCapacity.reserved c <= ResourceCapacity.capacity c /\
  ResourceCapacity.capacity c <> 0 /\ ResourceCapacity.resource c <> 0 /\
  ResourceCapacity.generation c <> 0.
Proof.
  intros H. unfold ResourceCapacity.validate in H. inv_status H.
  unfold id_valid in *. boolify. repeat split; lia || done.
Qed.

Lemma path_validate_facts p :
  PathDescriptor.validate p = Val tt ->
  ValidityWindow.well_formed (PathDescriptor.validity p) = true /\
  PathDescriptor.resources p <> [] /\
  size_of (PathDescriptor.resources p) <= kMaxResourcesPerPath /\
  has_adjacent_equal (merge_sort Z.le (PathDescriptor.resources p)) = false /\
  Forall (fun r => r <> 0) (PathDescriptor.resources p) /\
  PathDescriptor.path p <> 0 /\ PathDescriptor.generation p <> 0.
Proof.
  intros H. unfold PathDescriptor.validate in H. inv_status H.
  unfold id_valid in *. boolify. apply bool_decide_eq_false in Hguard1.
  repeat split; try done; try lia.
  apply Forall_forall. intros r Hr Hz.
  assert (Hex : existsb (fun r => negb (negb (r =? 0))) (PathDescriptor.resources p) = true).
  { apply existsb_exists. exists r. split; [by apply list_elem_of_In|]. by subst. }
  congruence.
Qed.

(** ** Both tables implement the interface *)

Ltac submit_cases H :=
  repeat match type of H with
         | context [match ?r with _ => _ end] => destruct r eqn:?
         | context [if ?b then _ else _] => destruct b eqn:?
         end; simplify_eq/=.

#[global] Instance capacity_table : EvidenceTable CapacityTable.t ResourceCapacity.t.
Proof.
  refine {|
    ev_id := ResourceCapacity.resource; ev_generation := ResourceCapacity.generation;
    ev_validity := ResourceCapacity.validity; ev_digest := ResourceCapacity.digest;
    ev_validate := ResourceCapacity.validate; tbl_find := CapacityTable.find;
    tbl_submit := CapacityTable.submit; tbl_expire := CapacityTable.expire;
    tbl_wf := fun t => entries_wf ResourceCapacity.resource ResourceCapacity.validate
                         (CapacityTable.entries_ t) |}.
  - intros e t Hwf. unfold CapacityTable.submit.
    destruct (ResourceCapacity.validate e) as [[]|] eqn:Hv; [|done].
    destruct (OMap.find _ _); split_ifs; simpl; try done; by apply entries_wf_set.
  - intros now t Hwf. by apply entries_wf_erase_if.
  - intros k t e Hwf Hf. by eapply entries_wf_find.
  - intros e t t' c H. unfold CapacityTable.submit in H.
    destruct (ResourceCapacity.validate e) as [[]|]; [|by simplify_eq].
    destruct (OMap.find _ _); split_ifs_in H; by simplify_eq.
  - intros e t t' H. unfold CapacityTable.submit in H.
    destruct (ResourceCapacity.validate e) as [[]|] eqn:Hv; [|done]. split; [done|].
    unfold CapacityTable.find. destruct (OMap.find _ _) as [e0|] eqn:Hf; split_ifs_in H; simplify_eq;
      try (left; simpl; apply find_set_eq).
    right. split; [done|]. boolify. exists e0. auto.
  - intros e t k Hk. unfold CapacityTable.submit, CapacityTable.find.
    destruct (ResourceCapacity.validate e); [|done].
    destruct (OMap.find (ResourceCapacity.resource e) _); split_ifs; simpl; try done; by apply find_set_ne.
  - intros e t e0 Hf. unfold CapacityTable.submit, CapacityTable.find in *. rewrite Hf.
    destruct (ResourceCapacity.validate e); [|exists e0; split; [done|right; lia]].
    split_ifs; simpl; rewrite ?find_set_eq;
      try (exists e0; split; [done|right; lia]); exists e; (split; [done|]); boolify.
    all: try lia.
    all: match goal with H : _ && _ = false |- _ => apply andb_false_iff in H end; lia.
  - intros now t k e Hwf. apply (entries_find_expire ResourceCapacity.resource _ ResourceCapacity.validate); [|done].
    intros x Hx. by apply capacity_validate_facts in Hx as [? _].
Defined.

#[global] Instance path_table : EvidenceTable PathTable.t PathDescriptor.t.
Proof.
  refine {|
    ev_id := PathDescriptor.path; ev_generation := PathDescriptor.generation;
    ev_validity := PathDescriptor.validity; ev_digest := PathDescriptor.digest;
    ev_validate := PathDescriptor.validate; tbl_find := PathTable.find;
    tbl_submit := PathTable.submit; tbl_expire := PathTable.expire;
    tbl_wf := fun t => entries_wf PathDescriptor.path PathDescriptor.validate
                         (PathTable.entries_ t) |}.
  - intros e t Hwf. unfold PathTable.submit.
    destruct (PathDescriptor.validate e) as [[]|] eqn:Hv; [|done].
    destruct (_ >? _); [done|].
    destruct (OMap.find _ _); split_ifs; simpl; try done; by apply entries_wf_set.
  - intros now t Hwf. by apply entries_wf_erase_if.
  - intros k t e Hwf Hf. by eapply entries_wf_find.
  - intros e t t' c H. unfold PathTable.submit in H.
    destruct (PathDescriptor.validate e) as [[]|]; [|by simplify_eq].
    destruct (_ >? _); [by simplify_eq|].
    destruct (OMap.find _ _); split_ifs_in H; by simplify_eq.
  - intros e t t' H. unfold PathTable.submit in H.
    destruct (PathDescriptor.validate e) as [[]|] eqn:Hv; [|done]. split; [done|].
    destruct (_ >? _); [done|].
    unfold PathTable.find. destruct (OMap.find _ _) as [e0|] eqn:Hf; split_ifs_in H; simplify_eq;
      try (left; simpl; apply find_set_eq).
    right. split; [done|]. boolify. exists e0. auto.
  - intros e t k Hk. unfold PathTable.submit, PathTable.find.
    destruct (PathDescriptor.validate e); [|done]. destruct (_ >? _); [done|].
    destruct (OMap.find (PathDescriptor.path e) _); split_ifs; simpl; try done; by apply find_set_ne.
  - intros e t e0 Hf. unfold PathTable.submit, PathTable.find in *. rewrite Hf.
    destruct (PathDescriptor.validate e); [|exists e0; split; [done|right; lia]].
    destruct (_ >? _); [exists e0; split; [done|right; lia]|].
    split_ifs; simpl; rewrite ?find_set_eq;
      try (exists e0; split; [done|right; lia]); exists e; (split; [done|]); boolify.
    destruct (Z.lt_trichotomy (PathDescriptor.generation e0) (PathDescriptor.generation e))
      as [|[Heq|]]; [lia| |lia].
    match goal with H : (_ =? _) && (_ <? _) = false |- _ => apply andb_false_iff in H end. lia.
  - intros now t k e Hwf. apply (entries_find_expire PathDescriptor.path _ PathDescriptor.validate); [|done].
    intros x Hx. by apply path_validate_facts in Hx as [? _].
Defined.

(** ** Sequences of submissions, for any evidence table *)

Section client.
Context {Tbl E : Type} `{EvidenceTable Tbl E}.

Definition submit_all (es : list E) (t : Tbl) : Tbl :=
  foldl (fun t e => fst (tbl_submit e t)) t es.

(** [e1] does not roll [e0] back. *)
Definition not_older (e0 e1 : E) : Prop :=
  ev_generation e0 < ev_generation e1 \/
  ev_generation e0 = ev_generation e1 /\
  ValidityWindow.issued_at (ev_validity e0) <= ValidityWindow.issued_at (ev_validity e1).

#[global] Instance not_older_preorder : PreOrder not_older.
Proof. unfold not_older. split; [intros e; right; lia | intros a b c; lia]. Qed.

Lemma submit_not_older e t k e0 :
  tbl_find k t = Some e0 ->
  exists e1, tbl_find k (fst (tbl_submit e t)) = Some e1 /\ not_older e0 e1.
Proof.
  intros Hf. destruct (Z.eq_dec k (ev_id e)) as [->|Hne].
  - by apply submit_advances.
  - exists e0. rewrite submit_frame by done. by split.
Qed.

Lemma submit_all_not_older es : forall t k e0,
  tbl_find k t = Some e0 ->
  exists e1, tbl_find k (submit_all es t) = Some e1 /\ not_older e0 e1.
Proof.
  induction es as [|e es IH]; intros t k e0 Hf; [by exists e0|].
  destruct (submit_not_older e t k e0 Hf) as (e1 & Hf1 & H01).
  destruct (IH _ k e1 Hf1) as (e2 & Hf2 & H12). exists e2. split; [done|]. by etrans.
Qed.

Lemma submit_all_wf es : forall t, tbl_wf t -> tbl_wf (submit_all es t).
Proof. induction es as [|e es IH]; intros t Ht; [done|]. by apply IH, submit_wf. Qed.
End client.

(** ** The duplicate check of a path *)

Lemma has_adjacent_equal_NoDup l :
  StronglySorted Z.le l -> has_adjacent_equal l = false <-> NoDup l.
Proof.
  induction 1 as [|a l Hs IH Hall]; [split; [constructor|done]|].
  destruct l as [|b l]; [split; [intros _; apply NoDup_singleton|done]|].
  cbn [has_adjacent_equal]. rewrite orb_false_iff, IH, Z.eqb_neq, (NoDup_cons a).
  inversion_clear Hs as [|? ? Hs' Hb]. inversion_clear Hall as [|? ? Hab Hal].
  split; [|intros [Hn ?]; split; [|done]; intros ->; apply Hn; left].
  intros [Hne Hnd]. split; [|done]. intros [Heq|Hin]%elem_of_cons; [done|].
  rewrite Forall_forall in Hb. apply Hb in Hin. lia.
Qed.

Lemma duplicate_check_spec l : has_adjacent_equal (merge_sort Z.le l) = false <-> NoDup l.
Proof.
  rewrite has_adjacent_equal_NoDup by (apply StronglySorted_merge_sort; apply _).
  by rewrite (merge_sort_Permutation Z.le l).
Qed.

(** ** Properties *)

Definition demo_provenance : Provenance.t := Provenance.mk (PublisherRef.mk 1 1 1 1) 0 kSchemaVersion 0.
Definition demo_capacity (generation capacity reserved : Z) : ResourceCapacity.t :=
  ResourceCapacity.mk 9 generation generation (TickSpan.mk 0 100) capacity reserved
    (ValidityWindow.mk 0 100000) demo_provenance.
Definition demo_path (generation : Z) : PathDescriptor.t :=
  PathDescriptor.mk 3 generation [9] (ValidityWindow.mk 0 100000) demo_provenance.

(** No sequence of submissions, whatever is delayed or duplicated in it, rolls a
    retained capacity snapshot or path descriptor back to an older generation, or to an earlier
    issue tick of its generation, or makes it disappear. *)
Theorem tables_never_roll_back
    (snapshots : list ResourceCapacity.t) (paths : list PathDescriptor.t)
    (ct : CapacityTable.t) (pt : PathTable.t) (r p : Z)
    (c0 : ResourceCapacity.t) (p0 : PathDescriptor.t) :
  CapacityTable.find r ct = Some c0 -> PathTable.find p pt = Some p0 ->
  (exists c1,
     CapacityTable.find r (foldl (fun t c => fst (CapacityTable.submit c t)) ct snapshots) = Some c1 /\
     not_older c0 c1) /\
  (exists p1,
     PathTable.find p (foldl (fun t d => fst (PathTable.submit d t)) pt paths) = Some p1 /\
     not_older p0 p1).
Proof.
  intros Hc Hp. split.
  - exact (submit_all_not_older snapshots ct r c0 Hc).
  - exact (submit_all_not_older paths pt p p0 Hp).
Qed.

Lemma tables_never_roll_back_witness :
  let ct := fst (CapacityTable.submit (demo_capacity 5 1000 200) CapacityTable.default) in
  exists c1,
    CapacityTable.find 9 (fst (CapacityTable.submit (demo_capacity 4 10 0) ct)) = Some c1 /\
    not_older (demo_capacity 5 1000 200) c1.
Proof.
  intros ct.
  apply (tables_never_roll_back [demo_capacity 4 10 0] [] ct
    (fst (PathTable.submit (demo_path 2) PathTable.default)) 9 3 _ (demo_path 2));
    vm_compute; reflexivity.
Defined.

(** A path descriptor is accepted by [validate] exactly when its identifiers are
    present, it names between 1 and 64 present resources, no two of them equal, and its window and
    provenance are well formed; the sort-and-scan duplicate check misses nothing. *)
Lemma path_validate_spec (p : PathDescriptor.t) :
  PathDescriptor.validate p = Val tt <->
  PathDescriptor.path p <> 0 /\ PathDescriptor.generation p <> 0 /\
  PathDescriptor.resources p <> [] /\
  size_of (PathDescriptor.resources p) <= kMaxResourcesPerPath /\
  NoDup (PathDescriptor.resources p) /\
  Forall (fun r => r <> 0) (PathDescriptor.resources p) /\
  ValidityWindow.well_formed (PathDescriptor.validity p) = true /\
  Provenance.valid (PathDescriptor.provenance p) = true /\
  Provenance.schema_version (PathDescriptor.provenance p) = kSchemaVersion.
Proof.
  rewrite <- duplicate_check_spec. split.
  - intros Hv. pose proof (path_validate_facts p Hv) as (?&?&?&?&?&?&?).
    unfold PathDescriptor.validate in Hv. inv_status Hv. boolify. auto 12.
  - intros (H1 & H2 & H3 & H4 & H5 & H6 & H7 & H8 & H9). unfold PathDescriptor.validate.
    assert (Hex : existsb (fun r => negb (id_valid r)) (PathDescriptor.resources p) = false).
    { apply not_true_iff_false. rewrite existsb_exists. intros (r & Hr & Hz).
      rewrite Forall_forall in H6. apply list_elem_of_In, H6 in Hr.
      unfold id_valid in Hz. boolify. done. }
    rewrite Hex, H5, H7, H8, H9, bool_decide_eq_false_2 by done.
    replace (size_of _ >? _) with false by lia. unfold id_valid.
    replace (PathDescriptor.path p =? 0) with false by lia.
    replace (PathDescriptor.generation p =? 0) with false by lia. done.
Qed.
