(* ===== verification/Policy.v ===== *)
(** * Policy ([include/efg/policy.hpp], [src/policy.cpp], [include/efg/intent_kind.hpp])

    Thresholds over measurements, rule sets (a rule graph stored as an array of
    nodes), their structural validation and three valued evaluation, the synthesis of
    an exit rule, and the policy document with its hysteresis and authorization. *)
From S2P Require Import Prelude Status Checked Tri Tick Hash Flow.

Definition kMaxTraceEntries : Z := 16.
Definition kMaxPolicyNodes : Z := 4096.
Definition kMaxRuleDepth : Z := 32.

Module IntentKind.
Inductive t : Type :=
| ObserveOnly
| RequestAlternatePlacement
| RequestRateShaping
| RequestSchedulingIsolation
| ProtectReservedFlow
| ReduceCompetingAdmission
| EscalateCongestion
| Count.
#[global] Instance eq_dec : EqDecision t.
Proof. solve_decision. Defined.
Definition eqb (a b : t) : bool := bool_decide (a = b).
Definition to_u8 (k : t) : Z :=
  match k with
  | ObserveOnly => 0 | RequestAlternatePlacement => 1 | RequestRateShaping => 2
  | RequestSchedulingIsolation => 3 | ProtectReservedFlow => 4
  | ReduceCompetingAdmission => 5 | EscalateCongestion => 6 | Count => 7
  end.
Definition is_corrective (k : t) : bool :=
  negb (eqb k ObserveOnly) && negb (eqb k ProtectReservedFlow).
Definition is_protective (k : t) : bool := eqb k ProtectReservedFlow.
End IntentKind.

Module ThresholdKind.
Inductive t : Type :=
| Always | Never | CumulativeBytes | DurationTicks | SustainedRate | PeakRate
| ShareOfCapacity | ShareOfAvailable | CompetingFlows | CompetingElephants
| ExcessOverGuarantee | ServiceClassIs | PriorityAtLeast | IsProtected
| IsNonPreemptible | HasReservation | Count.
#[global] Instance eq_dec : EqDecision t.
Proof. solve_decision. Defined.
Definition eqb (a b : t) : bool := bool_decide (a = b).
Definition to_u8 (k : t) : Z :=
  match k with
  | Always => 0 | Never => 1 | CumulativeBytes => 2 | DurationTicks => 3
  | SustainedRate => 4 | PeakRate => 5 | ShareOfCapacity => 6 | ShareOfAvailable => 7
  | CompetingFlows => 8 | CompetingElephants => 9 | ExcessOverGuarantee => 10
  | ServiceClassIs => 11 | PriorityAtLeast => 12 | IsProtected => 13
  | IsNonPreemptible => 14 | HasReservation => 15 | Count => 16
  end.
End ThresholdKind.

Module Threshold.
Record t := mk { kind : ThresholdKind.t; value : Z; class_operand : ServiceClass.t }.
#[global] Instance eta_t : Eta t := fun r => mk (kind r) (value r) (class_operand r).
#[global] Instance eq_dec : EqDecision t.
Proof. solve_decision. Defined.
Definition default : t := mk ThresholdKind.Always 0 ServiceClass.Unknown.

(** [if (!known) { return Tri::Unknown; } return tri_from_bool(holds);] *)
Definition when_known (known holds : bool) : Tri.t :=
  if negb known then Tri.Unknown else tri_from_bool holds.

Definition evaluate (th : t) (m : FlowMeasurements.t) : Tri.t :=
  let v := value th in
  match kind th with
  | ThresholdKind.Always => Tri.True_
  | ThresholdKind.Never => Tri.False_
  | ThresholdKind.CumulativeBytes =>
      when_known (FlowMeasurements.evidence_present m) (FlowMeasurements.cumulative_bytes m >=? v)
  | ThresholdKind.DurationTicks =>
      when_known (FlowMeasurements.evidence_present m) (FlowMeasurements.duration_ticks m >=? v)
  | ThresholdKind.SustainedRate =>
      when_known (FlowMeasurements.evidence_present m && FlowMeasurements.evidence_contiguous m)
        (FlowMeasurements.sustained_rate m >=? v)
  | ThresholdKind.PeakRate =>
      when_known (FlowMeasurements.evidence_present m) (FlowMeasurements.peak_window_rate m >=? v)
  | ThresholdKind.ShareOfCapacity =>
      when_known (FlowMeasurements.capacity_known m) (FlowMeasurements.share_of_capacity m >=? v)
  | ThresholdKind.ShareOfAvailable =>
      when_known (FlowMeasurements.capacity_known m) (FlowMeasurements.share_of_available m >=? v)
  | ThresholdKind.CompetingFlows =>
      when_known (FlowMeasurements.path_known m) (FlowMeasurements.competing_flows m >=? v)
  | ThresholdKind.CompetingElephants =>
      when_known (FlowMeasurements.path_known m) (FlowMeasurements.competing_elephants m >=? v)
  | ThresholdKind.ExcessOverGuarantee =>
      when_known (FlowMeasurements.capacity_known m) (FlowMeasurements.excess_over_guarantee m >=? v)
  | ThresholdKind.ServiceClassIs =>
      when_known (negb (ServiceClass.eqb (FlowMeasurements.service_class m) ServiceClass.Unknown))
        (ServiceClass.eqb (FlowMeasurements.service_class m) (class_operand th))
  | ThresholdKind.PriorityAtLeast =>
      when_known (Priority.known (FlowMeasurements.priority m))
        (Priority.level (FlowMeasurements.priority m) >=? v)
  | ThresholdKind.IsProtected =>
      when_known (negb (ProtectionState.eqb (FlowMeasurements.protection m) ProtectionState.Unknown))
        (ProtectionState.eqb (FlowMeasurements.protection m) ProtectionState.Protected ||
         ProtectionState.eqb (FlowMeasurements.protection m) ProtectionState.NonPreemptible)
  | ThresholdKind.IsNonPreemptible =>
      when_known (negb (ProtectionState.eqb (FlowMeasurements.protection m) ProtectionState.Unknown))
        (ProtectionState.eqb (FlowMeasurements.protection m) ProtectionState.NonPreemptible)
  | ThresholdKind.HasReservation => tri_from_bool (FlowMeasurements.has_reservation m)
  | ThresholdKind.Count => Tri.Unknown
  end.

(** The value written to [out] and whether it is defined. *)
Definition observed (th : t) (m : FlowMeasurements.t) : Z * bool :=
  match kind th with
  | ThresholdKind.CumulativeBytes => (FlowMeasurements.cumulative_bytes m, true)
  | ThresholdKind.DurationTicks => (FlowMeasurements.duration_ticks m, true)
  | ThresholdKind.SustainedRate => (FlowMeasurements.sustained_rate m, true)
  | ThresholdKind.PeakRate => (FlowMeasurements.peak_window_rate m, true)
  | ThresholdKind.ShareOfCapacity => (FlowMeasurements.share_of_capacity m, true)
  | ThresholdKind.ShareOfAvailable => (FlowMeasurements.share_of_available m, true)
  | ThresholdKind.CompetingFlows => (FlowMeasurements.competing_flows m, true)
  | ThresholdKind.CompetingElephants => (FlowMeasurements.competing_elephants m, true)
  | ThresholdKind.ExcessOverGuarantee => (FlowMeasurements.excess_over_guarantee m, true)
  | ThresholdKind.ServiceClassIs => (ServiceClass.to_u8 (FlowMeasurements.service_class m), true)
  | ThresholdKind.PriorityAtLeast =>
      (if Priority.known (FlowMeasurements.priority m)
       then Priority.level (FlowMeasurements.priority m) else 0,
       Priority.known (FlowMeasurements.priority m))
  | ThresholdKind.IsProtected | ThresholdKind.IsNonPreemptible =>
      (ProtectionState.to_u8 (FlowMeasurements.protection m),
       negb (ProtectionState.eqb (FlowMeasurements.protection m) ProtectionState.Unknown))
  | ThresholdKind.HasReservation => (if FlowMeasurements.has_reservation m then 1 else 0, true)
  | ThresholdKind.Always | ThresholdKind.Never | ThresholdKind.Count => (0, false)
  end.
End Threshold.

Module RuleKind.
Inductive t : Type := Threshold | All | Any | Not.
#[global] Instance eq_dec : EqDecision t.
Proof. solve_decision. Defined.
Definition to_u8 (k : t) : Z := match k with Threshold => 0 | All => 1 | Any => 2 | Not => 3 end.
End RuleKind.

Module RuleNode.
Record t := mk { kind : RuleKind.t; threshold : Threshold.t; children : list Z }.
#[global] Instance eta_t : Eta t := fun r => mk (kind r) (threshold r) (children r).
#[global] Instance eq_dec : EqDecision t.
Proof. solve_decision. Defined.
End RuleNode.

Module ThresholdTraceEntry.
Record t := mk {
  node_index : Z;
  kind : ThresholdKind.t;
  result : Tri.t;
  observed_value : Z;
  threshold_value : Z;
  observed_defined : bool }.
#[global] Instance eq_dec : EqDecision t.
Proof. solve_decision. Defined.
End ThresholdTraceEntry.

Module ThresholdTrace.
Record t := mk { entries : list ThresholdTraceEntry.t; truncated : bool }.
#[global] Instance eta_t : Eta t := fun r => mk (entries r) (truncated r).
#[global] Instance eq_dec : EqDecision t.
Proof. solve_decision. Defined.
Definition empty : t := mk [] false.

Definition record (node_index : Z) (th : Threshold.t) (result : Tri.t)
    (m : FlowMeasurements.t) (trace : t) : t :=
  if size_of (entries trace) >=? kMaxTraceEntries then trace <| truncated := true |>
  else
    let '(v, defined) := Threshold.observed th m in
    trace <| entries ::= (fun es => es ++ [ThresholdTraceEntry.mk node_index
      (Threshold.kind th) result v (Threshold.value th) defined]) |>.

Definition clear (trace : t) : t := trace <| entries := [] |> <| truncated := false |>.
End ThresholdTrace.

Module RuleSet.
Record t := mk { nodes : list RuleNode.t; root : Z }.
#[global] Instance eta_t : Eta t := fun r => mk (nodes r) (root r).
#[global] Instance eq_dec : EqDecision t.
Proof. solve_decision. Defined.
Definition default : t := mk [] 0.
Definition empty (rules : t) : bool := bool_decide (nodes rules = []).

(** [rules.nodes[index]], where [index < nodes.size()] was checked. *)
Definition node_at (rules : t) (index : Z) : option RuleNode.t := nodes rules !! Z.to_nat index.

(** *** Evaluation *)

(** [EvalState]: the failure flag and the trace, when one was asked for. *)
Record EvalState := mkState { failed : bool; trace : option ThresholdTrace.t }.
#[global] Instance eta_state : Eta EvalState := fun r => mkState (failed r) (trace r).

(** The loop over the children, accumulating with [op]. *)
Definition fold_children (op : Tri.t -> Tri.t -> Tri.t)
    (eval : Z -> EvalState -> EvalState * Tri.t) (children : list Z)
    (accumulated : Tri.t) (st : EvalState) : EvalState * Tri.t :=
  foldl (fun '(st, acc) child => let '(st, r) := eval child st in (st, op acc r))
    (st, accumulated) children.

(** [depth] grows to at most [kMaxRuleDepth + 1], where the guard stops the recursion:
    fuel [kMaxRuleDepth + 2 - depth] is never exhausted before that. A [Not] node with
    no child, which validation refuses, is treated as a failure. *)
Fixpoint evaluate_node (fuel : nat) (rules : t) (m : FlowMeasurements.t)
    (depth index : Z) (st : EvalState) : EvalState * Tri.t :=
  if failed st then (st, Tri.Unknown)
  else if (depth >? kMaxRuleDepth) || (index >=? size_of (nodes rules))
  then (st <| failed := true |>, Tri.Unknown)
  else match fuel, node_at rules index with
  | S fuel, Some node =>
      let eval := evaluate_node fuel rules m (depth + 1) in
      match RuleNode.kind node with
      | RuleKind.Threshold =>
          let result := Threshold.evaluate (RuleNode.threshold node) m in
          (st <| trace ::= fmap (ThresholdTrace.record index (RuleNode.threshold node) result m) |>,
           result)
      | RuleKind.All => fold_children tri_and eval (RuleNode.children node) Tri.True_ st
      | RuleKind.Any => fold_children tri_or eval (RuleNode.children node) Tri.False_ st
      | RuleKind.Not =>
          match RuleNode.children node with
          | child :: _ => let '(st, r) := eval child st in (st, tri_not r)
          | [] => (st <| failed := true |>, Tri.Unknown)
          end
      end
  | _, _ => (st <| failed := true |>, Tri.Unknown)
  end.

Definition eval_fuel : nat := Z.to_nat (kMaxRuleDepth + 2).

(** The verdict and the trace, when one is supplied. *)
Definition evaluate (rules : t) (m : FlowMeasurements.t) (tr : option ThresholdTrace.t)
    : option ThresholdTrace.t * Tri.t :=
  if empty rules || (root rules >=? size_of (nodes rules)) then (tr, Tri.Unknown)
  else
    let '(st, result) := evaluate_node eval_fuel rules m 0 (root rules) (mkState false tr) in
    (trace st, if failed st then Tri.Unknown else result).

(** *** Validation *)

(** The arity and kind checks of one node. *)
Definition check_node (node : RuleNode.t) : Status :=
  match RuleNode.kind node with
  | RuleKind.Threshold =>
      refuse_if (negb (bool_decide (RuleNode.children node = []))) StatusCode.InvalidArgument ;;
      refuse_if (ThresholdKind.to_u8 (Threshold.kind (RuleNode.threshold node)) >=?
                 ThresholdKind.to_u8 ThresholdKind.Count) StatusCode.InvalidArgument
  | RuleKind.Not =>
      refuse_if (negb (size_of (RuleNode.children node) =? 1)) StatusCode.InvalidArgument
  | RuleKind.All | RuleKind.Any =>
      refuse_if (bool_decide (RuleNode.children node = [])) StatusCode.InvalidArgument
  end.

(** Depth first search with colours 0 (unseen), 1 (open), 2 (done). *)
Fixpoint validate_node (fuel : nat) (rules : t) (depth index : Z) : M (list Z) unit :=
  fun colour =>
  if index >=? size_of (nodes rules) then (colour, Err StatusCode.InvalidArgument)
  else if depth >? kMaxRuleDepth then (colour, Err StatusCode.OutOfRange)
  else match fuel, node_at rules index, colour !! Z.to_nat index with
  | S fuel, Some node, Some c =>
      if c =? 1 then (colour, Err StatusCode.InvalidArgument)
      else if c =? 2 then (colour, Val tt)
      else
        (modify (<[Z.to_nat index := 1]>) ;;
         lift (check_node node) ;;
         for_each (validate_node fuel rules (depth + 1)) (RuleNode.children node) ;;
         modify (<[Z.to_nat index := 2]>)) colour
  | _, _, _ => (colour, Err StatusCode.Internal)
  end.

Definition validate (rules : t) : Status :=
  refuse_if (empty rules) StatusCode.InvalidArgument ;;
  refuse_if (size_of (nodes rules) >? kMaxPolicyNodes) StatusCode.Oversized ;;
  refuse_if (root rules >=? size_of (nodes rules)) StatusCode.InvalidArgument ;;
  snd (validate_node eval_fuel rules 0 (root rules) (replicate (length (nodes rules)) 0)).

Definition node_writes (node : RuleNode.t) : list (Z -> Z) := [
    Hasher.write_u8 (RuleKind.to_u8 (RuleNode.kind node));
    Hasher.write_u8 (ThresholdKind.to_u8 (Threshold.kind (RuleNode.threshold node)));
    Hasher.write_u64 (Threshold.value (RuleNode.threshold node));
    Hasher.write_u8 (ServiceClass.to_u8 (Threshold.class_operand (RuleNode.threshold node)));
    Hasher.write_u32 (wrap 32 (size_of (RuleNode.children node))) ] ++
    (Hasher.write_u32 <$> RuleNode.children node).

Definition digest (rules : t) : Z :=
  Hasher.digest_of ([
    Hasher.write_u64 (root rules);
    Hasher.write_u32 (wrap 32 (size_of (nodes rules))) ] ++ mjoin (node_writes <$> nodes rules)).
End RuleSet.

Module HysteresisSpec.
Record t := mk { enter_confirm_windows : Z; exit_confirm_windows : Z; exit_scale_bp : Z }.
#[global] Instance eq_dec : EqDecision t.
Proof. solve_decision. Defined.
Definition default : t := mk 1 3 8000.
Definition validate (h : t) : Status :=
  refuse_if ((enter_confirm_windows h =? 0) || (exit_confirm_windows h =? 0))
    StatusCode.InvalidArgument ;;
  refuse_if ((enter_confirm_windows h >? 64) || (exit_confirm_windows h >? 64))
    StatusCode.OutOfRange ;;
  refuse_if ((exit_scale_bp h =? 0) || (exit_scale_bp h >? kBasisPointsScale))
    StatusCode.OutOfRange.
End HysteresisSpec.

Module IntentAuthorization.
Record t := mk {
  allow_alternate_placement : bool;
  allow_rate_shaping : bool;
  allow_scheduling_isolation : bool;
  allow_competing_admission_reduction : bool;
  allow_congestion_escalation : bool;
  protect_obligations : bool;
  max_shaping_reduction_bp : Z;
  max_intent_duration_ticks : Z;
  max_targets : Z;
  min_impact_severity : Z;
  min_contention_pressure : Z }.
#[global] Instance eq_dec : EqDecision t.
Proof. solve_decision. Defined.
Definition default : t := mk true true true true true true 2500 60000 8 1000 500.

Definition permits (a : t) (kind : IntentKind.t) : bool :=
  match kind with
  | IntentKind.ObserveOnly | IntentKind.ProtectReservedFlow => true
  | IntentKind.RequestAlternatePlacement => allow_alternate_placement a
  | IntentKind.RequestRateShaping => allow_rate_shaping a
  | IntentKind.RequestSchedulingIsolation => allow_scheduling_isolation a
  | IntentKind.ReduceCompetingAdmission => allow_competing_admission_reduction a
  | IntentKind.EscalateCongestion => allow_congestion_escalation a
  | IntentKind.Count => false
  end.

Definition validate (a : t) : Status :=
  refuse_if (max_shaping_reduction_bp a >? kBasisPointsScale) StatusCode.OutOfRange ;;
  refuse_if (max_intent_duration_ticks a =? 0) StatusCode.InvalidArgument ;;
  refuse_if (max_targets a =? 0) StatusCode.InvalidArgument ;;
  refuse_if ((min_impact_severity a >? kBasisPointsScale) ||
             (min_contention_pressure a >? kBasisPointsScale)) StatusCode.OutOfRange.
End IntentAuthorization.

(** ** Synthesis of the exit rule *)

(** The thresholds that may decrease again, which alone take part in an exit rule. *)
Definition is_instantaneous (k : ThresholdKind.t) : bool :=
  match k with
  | ThresholdKind.SustainedRate | ThresholdKind.PeakRate | ThresholdKind.ShareOfCapacity
  | ThresholdKind.ShareOfAvailable | ThresholdKind.ExcessOverGuarantee
  | ThresholdKind.CompetingFlows | ThresholdKind.CompetingElephants => true
  | _ => false
  end.

Definition leaf (th : Threshold.t) : RuleNode.t := RuleNode.mk RuleKind.Threshold th [].

(** The loop that collects the scaled leaves. *)
Fixpoint scaled_leaves (nodes : list RuleNode.t) (scale_bp : Z) : StatusOr (list RuleNode.t) :=
  match nodes with
  | [] => Val []
  | node :: nodes =>
      match RuleNode.kind node with
      | RuleKind.Threshold =>
          let th := RuleNode.threshold node in
          if is_instantaneous (Threshold.kind th) then
            match mul_div (Threshold.value th) scale_bp kBasisPointsScale with
            | None => Err StatusCode.Overflow
            | Some scaled =>
                rest ← scaled_leaves nodes scale_bp;
                mret (leaf (th <| Threshold.value := scaled |>) :: rest)
            end
          else scaled_leaves nodes scale_bp
      | _ => scaled_leaves nodes scale_bp
      end
  end.

(** The loop that chains the leaves: node [n + i - 1] is [All] of the chain so far and
    leaf [i], for [i = 1 .. n - 1]. *)
Definition chain_node (n i : nat) : RuleNode.t :=
  RuleNode.mk RuleKind.All Threshold.default
    [if (i =? 1)%nat then 0 else wrap 32 (Z.of_nat (n + i - 2)); wrap 32 (Z.of_nat i)].

Definition chain_leaves (leaves : list RuleNode.t) : RuleSet.t :=
  let n := length leaves in
  if (n =? 0)%nat then RuleSet.mk [leaf Threshold.default] 0
  else RuleSet.mk (leaves ++ (chain_node n <$> seq 1 (n - 1)))
         (if (n =? 1)%nat then 0 else wrap 32 (Z.of_nat (n + n - 2))).

Definition scale_rule_set (rules : RuleSet.t) (scale_bp : Z) : StatusOr RuleSet.t :=
  refuse_if ((scale_bp =? 0) || (scale_bp >? kBasisPointsScale)) StatusCode.OutOfRange ;;
  leaves ← scaled_leaves (RuleSet.nodes rules) scale_bp;
  let out := chain_leaves leaves in
  RuleSet.validate out ;;
  mret out.

Module PolicyDocument.
Record t := mk {
  id : PolicyId;
  generation : Generation;
  enter_rule : RuleSet.t;
  exit_rule : RuleSet.t;
  hysteresis : HysteresisSpec.t;
  authorization : IntentAuthorization.t;
  validity : ValidityWindow.t;
  provenance : Provenance.t;
  digest : Z }.
#[global] Instance eta_t : Eta t := fun r =>
  mk (id r) (generation r) (enter_rule r) (exit_rule r) (hysteresis r) (authorization r)
     (validity r) (provenance r) (digest r).
#[global] Instance eq_dec : EqDecision t.
Proof. solve_decision. Defined.
Definition default : t :=
  mk 0 0 RuleSet.default RuleSet.default HysteresisSpec.default IntentAuthorization.default
     ValidityWindow.default Provenance.default 0.

Definition validate (p : t) : Status :=
  refuse_if (negb (id_valid (id p))) StatusCode.InvalidArgument ;;
  refuse_if (negb (id_valid (generation p))) StatusCode.InvalidArgument ;;
  RuleSet.validate (enter_rule p) ;;
  (if negb (RuleSet.empty (exit_rule p)) then RuleSet.validate (exit_rule p) else Val tt) ;;
  HysteresisSpec.validate (hysteresis p) ;;
  IntentAuthorization.validate (authorization p) ;;
  refuse_if (negb (ValidityWindow.well_formed (validity p))) StatusCode.InvalidArgument ;;
  refuse_if (negb (Provenance.valid (provenance p))) StatusCode.InvalidArgument ;;
  refuse_if (negb (Provenance.schema_version (provenance p) =? kSchemaVersion))
    StatusCode.VersionMismatch ;;
  refuse_if (digest p =? 0) StatusCode.InvalidArgument.

Definition canonical_digest (p : t) : Z :=
  let h := hysteresis p in
  let a := authorization p in
  Hasher.digest_of [
    Hasher.write_u64 (id p);
    Hasher.write_u64 (generation p);
    Hasher.write_digest (RuleSet.digest (enter_rule p));
    Hasher.write_digest (if RuleSet.empty (exit_rule p) then 0 else RuleSet.digest (exit_rule p));
    Hasher.write_u32 (HysteresisSpec.enter_confirm_windows h);
    Hasher.write_u32 (HysteresisSpec.exit_confirm_windows h);
    Hasher.write_u32 (HysteresisSpec.exit_scale_bp h);
    Hasher.write_bool (IntentAuthorization.allow_alternate_placement a);
    Hasher.write_bool (IntentAuthorization.allow_rate_shaping a);
    Hasher.write_bool (IntentAuthorization.allow_scheduling_isolation a);
    Hasher.write_bool (IntentAuthorization.allow_competing_admission_reduction a);
    Hasher.write_bool (IntentAuthorization.allow_congestion_escalation a);
    Hasher.write_bool (IntentAuthorization.protect_obligations a);
    Hasher.write_u32 (IntentAuthorization.max_shaping_reduction_bp a);
    Hasher.write_u64 (IntentAuthorization.max_intent_duration_ticks a);
    Hasher.write_u32 (IntentAuthorization.max_targets a);
    Hasher.write_u32 (IntentAuthorization.min_impact_severity a);
    Hasher.write_u32 (IntentAuthorization.min_contention_pressure a);
    Hasher.write_u64 (ValidityWindow.issued_at (validity p));
    Hasher.write_u64 (ValidityWindow.expires_at (validity p));
    Hasher.write_u64 (PublisherRef.publisher (Provenance.publisher (provenance p)));
    Hasher.write_u64 (PublisherRef.boot (Provenance.publisher (provenance p)));
    Hasher.write_u64 (PublisherRef.epoch (Provenance.publisher (provenance p)));
    Hasher.write_u32 (Provenance.schema_version (provenance p)) ].

Definition finalize (p : t) : t :=
  let d := canonical_digest p in p <| digest := if d =? 0 then 1 else d |>.

Definition evaluate_enter (p : t) (m : FlowMeasurements.t) (tr : option ThresholdTrace.t)
    : option ThresholdTrace.t * Tri.t := RuleSet.evaluate (enter_rule p) m tr.

Definition evaluate_exit (p : t) (m : FlowMeasurements.t) (tr : option ThresholdTrace.t)
    : option ThresholdTrace.t * Tri.t :=
  if negb (RuleSet.empty (exit_rule p)) then RuleSet.evaluate (exit_rule p) m tr
  else match scale_rule_set (enter_rule p) (HysteresisSpec.exit_scale_bp (hysteresis p)) with
       | Err _ => (tr, Tri.Unknown)
       | Val scaled => RuleSet.evaluate scaled m tr
       end.
End PolicyDocument.

Definition effective_exit_rule (p : PolicyDocument.t) : StatusOr RuleSet.t :=
  if negb (RuleSet.empty (PolicyDocument.exit_rule p)) then Val (PolicyDocument.exit_rule p)
  else scale_rule_set (PolicyDocument.enter_rule p)
         (HysteresisSpec.exit_scale_bp (PolicyDocument.hysteresis p)).
