(* ===== verification/PolicyFacts.v ===== *)
(** * What policies mean

    Facts about [Policy]: the evaluator computes the Kleene value of the rule graph
    (independently of the trace it records), evaluation is monotone in the evidence,
    validation accepts only well formed acyclic graphs, and how synthesized exit rules
    relate to the rule they are derived from. *)
From stdpp Require Import relations.
From S2P Require Import Prelude Status Checked Tri Tick Hash Flow Policy.

(** ** Reference semantics of a rule graph *)

Section semantics.
Context (rules : RuleSet.t) (m : FlowMeasurements.t).

Fixpoint sem_children (op : Tri.t -> Tri.t -> Tri.t) (ev : Z -> option Tri.t)
    (children : list Z) (acc : Tri.t) : option Tri.t :=
  match children with
  | [] => Some acc
  | c :: children => r ← ev c; sem_children op ev children (op acc r)
  end.

(** The value of a node, [None] when it cannot be evaluated within the depth. *)
Fixpoint sem (fuel : nat) (depth index : Z) : option Tri.t :=
  if (depth >? kMaxRuleDepth) || (index >=? size_of (RuleSet.nodes rules)) then None
  else match fuel, RuleSet.node_at rules index with
  | S fuel, Some node =>
      let ev := sem fuel (depth + 1) in
      match RuleNode.kind node with
      | RuleKind.Threshold => Some (Threshold.evaluate (RuleNode.threshold node) m)
      | RuleKind.All => sem_children tri_and ev (RuleNode.children node) Tri.True_
      | RuleKind.Any => sem_children tri_or ev (RuleNode.children node) Tri.False_
      | RuleKind.Not =>
          match RuleNode.children node with
          | child :: _ => tri_not <$> ev child
          | [] => None
          end
      end
  | _, _ => None
  end.

(** What a run of the evaluator must have done, given the value of the node. *)
Definition agrees (v : option Tri.t) (out : RuleSet.EvalState * Tri.t) : Prop :=
  match v with
  | Some v => RuleSet.failed out.1 = false /\ out.2 = v
  | None => RuleSet.failed out.1 = true
  end.

Lemma evaluate_node_failed fuel depth index st :
  RuleSet.failed st = true -> RuleSet.evaluate_node fuel rules m depth index st = (st, Tri.Unknown).
Proof. intros Hf. destruct fuel; simpl; by rewrite Hf. Qed.

Lemma fold_children_failed op ev children : forall acc st,
  (forall c st, RuleSet.failed st = true -> ev c st = (st, Tri.Unknown)) ->
  RuleSet.failed st = true ->
  RuleSet.failed (RuleSet.fold_children op ev children acc st).1 = true.
Proof.
  induction children as [|c cs IH]; intros acc st Hev Hf; [done|].
  unfold RuleSet.fold_children. cbn [foldl]. rewrite Hev by done. by apply IH.
Qed.

Lemma fold_children_agrees op ev ev' children : forall acc st,
  (forall c st, RuleSet.failed st = true -> ev c st = (st, Tri.Unknown)) ->
  (forall c st, RuleSet.failed st = false -> agrees (ev' c) (ev c st)) ->
  RuleSet.failed st = false ->
  agrees (sem_children op ev' children acc) (RuleSet.fold_children op ev children acc st).
Proof.
  induction children as [|c cs IH]; intros acc st Hev Hag Hf; [done|].
  unfold RuleSet.fold_children. cbn [foldl sem_children].
  specialize (Hag c st Hf) as Hc. destruct (ev c st) as [st' r] eqn:E.
  destruct (ev' c) as [v|]; simpl in Hc |- *.
  - destruct Hc as [Hf' ->]. by apply IH.
  - by apply fold_children_failed.
Qed.

Lemma evaluate_node_agrees fuel : forall depth index st,
  RuleSet.failed st = false ->
  agrees (sem fuel depth index) (RuleSet.evaluate_node fuel rules m depth index st).
Proof.
  induction fuel as [|fuel IH]; intros depth index st Hf;
    cbn [RuleSet.evaluate_node sem]; rewrite Hf; destruct (_ || _); try done.
  destruct (RuleSet.node_at rules index) as [[kind th children]|]; [|done]. cbv zeta.
  cbn [RuleNode.kind RuleNode.threshold RuleNode.children].
  destruct kind; [done|..].
  - apply fold_children_agrees; auto using evaluate_node_failed.
  - apply fold_children_agrees; auto using evaluate_node_failed.
  - destruct children as [|c cs]; [done|].
    specialize (IH (depth + 1) c st Hf).
    destruct (RuleSet.evaluate_node fuel rules m (depth + 1) c st) as [st' r].
    destruct (sem fuel (depth + 1) c); simpl in *; [by destruct IH as [? ->]|done].
Qed.

Lemma sem_out_of_range fuel depth index :
  index >= size_of (RuleSet.nodes rules) \/ RuleSet.nodes rules = [] ->
  sem fuel depth index = None.
Proof.
  intros Hs. destruct fuel; cbn [sem]; destruct (_ || _) eqn:E; try done.
  unfold RuleSet.node_at. destruct Hs as [Hs| ->]; [|done].
  apply orb_false_iff in E as [_ E]. lia.
Qed.

(** The verdict of [RuleSet::evaluate]. *)
Definition meaning : Tri.t := default Tri.Unknown (sem RuleSet.eval_fuel 0 (RuleSet.root rules)).

Lemma evaluate_meaning trace : (RuleSet.evaluate rules m trace).2 = meaning.
Proof.
  unfold RuleSet.evaluate, meaning. destruct (RuleSet.empty rules || _) eqn:E.
  - rewrite sem_out_of_range; [done|]. apply orb_true_iff in E as [E|E]; [right|left; lia].
    unfold RuleSet.empty in E. by apply bool_decide_eq_true in E.
  - pose proof (evaluate_node_agrees RuleSet.eval_fuel 0 (RuleSet.root rules)
      (RuleSet.mkState false trace) eq_refl) as H.
    destruct (RuleSet.evaluate_node _ _ _ _ _ _) as [st r].
    destruct (sem _ _ _); simpl in *; [destruct H as [-> ->]|rewrite H]; done.
Qed.
End semantics.

(** ** Monotonicity in the evidence *)

(** [m'] knows everything [m] knows, with the same values. *)
Definition refines (m m' : FlowMeasurements.t) : Prop :=
  forall th, tri_le (Threshold.evaluate th m) (Threshold.evaluate th m').

Definition opt_le (a b : option Tri.t) : Prop :=
  match a, b with Some x, Some y => tri_le x y | None, None => True | _, _ => False end.

Lemma sem_children_le op ev ev' children : forall acc acc',
  Proper (tri_le ==> tri_le ==> tri_le) op ->
  (forall c, opt_le (ev c) (ev' c)) -> tri_le acc acc' ->
  opt_le (sem_children op ev children acc) (sem_children op ev' children acc').
Proof.
  induction children as [|c cs IH]; intros acc acc' Hop Hev Hacc; [done|].
  cbn [sem_children]. specialize (Hev c) as Hc. destruct (ev c), (ev' c); try done.
  cbn. apply IH; [done|done|]. by apply Hop.
Qed.

Lemma sem_le rules m m' fuel : refines m m' -> forall depth index,
  opt_le (sem rules m fuel depth index) (sem rules m' fuel depth index).
Proof.
  intros Hr. induction fuel as [|fuel IH]; intros depth index; cbn [sem]; destruct (_ || _); try done.
  destruct (RuleSet.node_at rules index) as [[kind th children]|]; [|done]. cbv zeta.
  cbn [RuleNode.kind RuleNode.threshold RuleNode.children]. destruct kind; [apply Hr|..].
  - apply sem_children_le; [apply _|done|by right].
  - apply sem_children_le; [apply _|done|by right].
  - destruct children as [|c cs]; [done|]. specialize (IH (depth + 1) c).
    destruct (sem rules m fuel _ _), (sem rules m' fuel _ _); try done.
    simpl in *. by apply tri_not_proper.
Qed.

Lemma meaning_le rules m m' : refines m m' -> tri_le (meaning rules m) (meaning rules m').
Proof.
  intros Hr. unfold meaning. pose proof (sem_le rules m m' RuleSet.eval_fuel Hr 0 (RuleSet.root rules)).
  destruct (sem rules m _ _ _), (sem rules m' _ _ _); done || by left.
Qed.

(** The field-wise reading of "knows more": availability flags only rise, and the values
    behind a raised flag do not change. *)
Record more_evidence (m m' : FlowMeasurements.t) : Prop := {
  me_evidence : FlowMeasurements.evidence_present m = true ->
    FlowMeasurements.evidence_present m' = true /\
    FlowMeasurements.cumulative_bytes m' = FlowMeasurements.cumulative_bytes m /\
    FlowMeasurements.duration_ticks m' = FlowMeasurements.duration_ticks m /\
    FlowMeasurements.peak_window_rate m' = FlowMeasurements.peak_window_rate m /\
    (FlowMeasurements.evidence_contiguous m = true ->
     FlowMeasurements.evidence_contiguous m' = true /\
     FlowMeasurements.sustained_rate m' = FlowMeasurements.sustained_rate m);
  me_capacity : FlowMeasurements.capacity_known m = true ->
    FlowMeasurements.capacity_known m' = true /\
    FlowMeasurements.share_of_capacity m' = FlowMeasurements.share_of_capacity m /\
    FlowMeasurements.share_of_available m' = FlowMeasurements.share_of_available m /\
    FlowMeasurements.excess_over_guarantee m' = FlowMeasurements.excess_over_guarantee m;
  me_path : FlowMeasurements.path_known m = true ->
    FlowMeasurements.path_known m' = true /\
    FlowMeasurements.competing_flows m' = FlowMeasurements.competing_flows m /\
    FlowMeasurements.competing_elephants m' = FlowMeasurements.competing_elephants m;
  me_class : FlowMeasurements.service_class m <> ServiceClass.Unknown ->
    FlowMeasurements.service_class m' = FlowMeasurements.service_class m;
  me_priority : Priority.known (FlowMeasurements.priority m) = true ->
    FlowMeasurements.priority m' = FlowMeasurements.priority m;
  me_protection : FlowMeasurements.protection m <> ProtectionState.Unknown ->
    FlowMeasurements.protection m' = FlowMeasurements.protection m;
  me_reservation : FlowMeasurements.has_reservation m' = FlowMeasurements.has_reservation m }.

Lemma when_known_le k k' b b' :
  (k = true -> k' = true /\ b' = b) ->
  tri_le (Threshold.when_known k b) (Threshold.when_known k' b').
Proof. intros H. destruct k; [destruct (H eq_refl) as [-> ->]; by right|by left]. Qed.

Lemma more_evidence_refines m m' : more_evidence m m' -> refines m m'.
Proof.
  intros [He Hc Hp Hs Hy Hx Hr] [kind v c]. unfold Threshold.evaluate.
  cbn [Threshold.kind Threshold.value Threshold.class_operand].
  destruct kind; try (by right); try apply when_known_le;
    try (intros Hk; first [destruct (He Hk) as (? & ? & ? & ? & _)
                          | destruct (Hc Hk) as (? & ? & ? & ?)
                          | destruct (Hp Hk) as (? & ? & ?)]; split; congruence).
  - intros (H1 & H2)%andb_true_iff. destruct (He H1) as (-> & _ & _ & _ & H5).
    by destruct (H5 H2) as [-> ->].
  - unfold ServiceClass.eqb. rewrite negb_true_iff, bool_decide_eq_false. intros H.
    rewrite (Hs H). by rewrite bool_decide_eq_false_2.
  - intros H. by rewrite (Hy H).
  - unfold ProtectionState.eqb. rewrite negb_true_iff, bool_decide_eq_false. intros H.
    rewrite (Hx H). by rewrite bool_decide_eq_false_2.
  - unfold ProtectionState.eqb. rewrite negb_true_iff, bool_decide_eq_false. intros H.
    rewrite (Hx H). by rewrite bool_decide_eq_false_2.
  - rewrite Hr. by right.
Qed.

(** ** Validation *)

Section validation.
Context (rules : RuleSet.t).

Definition edge (i j : Z) : Prop :=
  exists node, RuleSet.node_at rules i = Some node /\ j ∈ RuleNode.children node.

Definition black (colour : list Z) (i : Z) : Prop := colour !! Z.to_nat i = Some 2.

(** What validation establishes for a node it has finished with. *)
Definition settled (colour : list Z) (i : Z) : Prop :=
  Acc (fun j i => edge i j) i /\
  exists node, RuleSet.node_at rules i = Some node /\ RuleSet.check_node node = Val tt /\
    Forall (fun c => c < size_of (RuleSet.nodes rules) /\ black colour c) (RuleNode.children node).

Definition colour_inv (colour : list Z) : Prop := forall i, black colour i -> settled colour i.

(** A successful visit keeps the invariant and what was finished, and finishes [i]. *)
Definition visited (colour colour' : list Z) : Prop :=
  colour_inv colour' /\ (forall i, black colour i -> black colour' i) /\
  length colour' = length colour.

Lemma settled_mono c c' i : (forall i, black c i -> black c' i) -> settled c i -> settled c' i.
Proof.
  intros Hm [Hacc (node & Hn & Hc & Hall)]. split; [done|]. exists node. split; [done|].
  split; [done|]. eapply Forall_impl; [exact Hall|]. intros x [? ?]. auto.
Qed.

Lemma for_each_visited (f : Z -> M (list Z) unit) children : forall colour colour',
  (forall c s s', colour_inv s -> f c s = (s', Val tt) ->
     visited s s' /\ black s' c /\ c < size_of (RuleSet.nodes rules)) ->
  colour_inv colour -> for_each f children colour = (colour', Val tt) ->
  visited colour colour' /\
  Forall (fun c => c < size_of (RuleSet.nodes rules) /\ black colour' c) children.
Proof.
  induction children as [|c cs IH]; intros colour colour' Hf Hinv H.
  { injection H as <-. split; [by split_and!|constructor]. }
  cbn [for_each] in H. apply M_bind_Val in H as (s1 & [] & H1 & H2).
  destruct (Hf _ _ _ Hinv H1) as ((Hi1 & Hm1 & Hl1) & Hb1 & Hr1).
  destruct (IH _ _ Hf Hi1 H2) as [(Hi2 & Hm2 & Hl2) Hall].
  split; [split_and!; auto; congruence|]. constructor; auto.
Qed.

Lemma black_insert colour i j v :
  black (<[Z.to_nat i := v]> colour) j ->
  (Z.to_nat i = Z.to_nat j /\ v = 2) \/ (Z.to_nat i <> Z.to_nat j /\ black colour j).
Proof.
  unfold black. destruct (decide (Z.to_nat i = Z.to_nat j)) as [->|Hne].
  - intros H. left. split; [done|].
    apply list_lookup_insert_Some in H as [(_ & -> & _)|(Hn & _)]; done.
  - rewrite list_lookup_insert_ne by done. auto.
Qed.

Lemma validate_node_visited fuel : forall depth index colour colour',
  colour_inv colour ->
  RuleSet.validate_node fuel rules depth index colour = (colour', Val tt) ->
  visited colour colour' /\ black colour' index /\ index < size_of (RuleSet.nodes rules).
Proof.
  induction fuel as [|fuel IH]; intros depth index colour colour' Hinv H;
    cbn [RuleSet.validate_node] in H; destruct (index >=? _) eqn:Er; try discriminate;
    destruct (depth >? _); try discriminate.
  destruct (RuleSet.node_at rules index) as [node|] eqn:Hn; [|discriminate].
  destruct (colour !! Z.to_nat index) as [c|] eqn:Hc; [|discriminate].
  destruct (Z.eqb_spec c 1) as [->|H1]; [done|].
  destruct (Z.eqb_spec c 2) as [->|H2]; [injection H as <-; split; [by split_and!|]; split; [done|lia]|].
  apply M_bind_Val in H as (s1 & [] & [= <-] & H).
  apply M_bind_Val in H as (s1' & [] & [= <- Hchk] & H).
  apply M_bind_Val in H as (s2 & [] & Hfor & [= <-]).
  set (open := <[Z.to_nat index := 1]> colour) in *.
  assert (Hopen : forall i, black open i <-> black colour i).
  { intros i. split.
    - intros [[_ ?]|[_ ?]]%black_insert; done.
    - intros Hb. unfold black, open in *. rewrite list_lookup_insert_ne; [done|].
      intros Heq. rewrite Heq in Hc. congruence. }
  assert (Hio : colour_inv open).
  { intros i Hb%Hopen. eapply settled_mono; [|by apply Hinv]. intros; by apply Hopen. }
  destruct (for_each_visited _ _ _ _ (IH (depth + 1)) Hio Hfor) as [(Hi2 & Hm2 & Hl2) Hall].
  unfold open in Hl2. rewrite length_insert in Hl2.
  assert (Hidx : forall i, Z.to_nat i = Z.to_nat index -> black (<[Z.to_nat index := 2]> s2) i).
  { intros i Hi. unfold black. rewrite Hi. apply list_lookup_insert_eq.
    rewrite Hl2. by eapply lookup_lt_Some. }
  assert (Hnew : forall i, black s2 i -> black (<[Z.to_nat index := 2]> s2) i).
  { intros i Hb. destruct (decide (Z.to_nat i = Z.to_nat index)) as [|Hne]; [by apply Hidx|].
    unfold black. by rewrite list_lookup_insert_ne by done. }
  split; [|split; [by apply Hidx|lia]].
  split_and!; [|intros i Hb%Hopen; auto|by rewrite length_insert].
  intros i [[Heq _]|[_ Hb]]%black_insert; [|eapply settled_mono; [exact Hnew|by apply Hi2]].
  unfold settled, edge, RuleSet.node_at in *. rewrite <- Heq. split.
  - constructor. intros j (node' & Hn' & Hj). rewrite <- Heq, Hn in Hn'. simplify_eq.
    rewrite Forall_forall in Hall. by apply Hi2, Hall.
  - exists node. split; [done|]. split; [done|].
    eapply Forall_impl; [exact Hall|]. intros x [? ?]. auto.
Qed.

(** Every node reachable from the root is in range and well formed, and no node is its
    own descendant. *)
Definition well_formed_graph : Prop :=
  forall i, rtc edge (RuleSet.root rules) i ->
    i < size_of (RuleSet.nodes rules) /\ ~ tc edge i i /\
    exists node, RuleSet.node_at rules i = Some node /\ RuleSet.check_node node = Val tt.

Lemma acc_no_cycle i : Acc (fun j i => edge i j) i -> ~ tc edge i i.
Proof.
  induction 1 as [i _ IH]. intros Hc. inversion Hc as [x y Hxy|x y z Hxy Hyz]; subst.
  - by apply (IH i).
  - apply (IH y Hxy). by eapply tc_r.
Qed.

Lemma settled_reachable colour i j :
  colour_inv colour -> black colour i -> rtc edge i j ->
  i < size_of (RuleSet.nodes rules) ->
  black colour j /\ j < size_of (RuleSet.nodes rules).
Proof.
  intros Hinv Hb Hr. induction Hr as [|i k j (node & Hn & Hin) Hr IH]; [done|].
  intros _. destruct (Hinv i Hb) as [_ (node' & Hn' & _ & Hall)]. simplify_eq.
  rewrite Forall_forall in Hall. destruct (Hall k Hin) as [? ?]. by apply IH.
Qed.

Lemma validate_graph : RuleSet.validate rules = Val tt -> well_formed_graph.
Proof.
  intros H. unfold RuleSet.validate in H. inv_status H.
  destruct (RuleSet.validate_node _ _ _ _ _) as [colour' r] eqn:E. simpl in H. subst r.
  apply validate_node_visited in E as ((Hinv & _ & _) & Hb & Hr).
  2:{ intros i Hb. unfold black in Hb. apply lookup_replicate in Hb as [? _]. done. }
  intros i Hi. destruct (settled_reachable _ _ _ Hinv Hb Hi Hr) as [Hbi Hri].
  destruct (Hinv i Hbi) as [Hacc (node & Hn & Hchk & _)].
  split; [done|]. split; [by apply acc_no_cycle|]. by exists node.
Qed.
End validation.

(** ** Definite verdicts *)

(** Every path from [index] ends within [depth] further levels. *)
Fixpoint depth_within (fuel : nat) (rules : RuleSet.t) (index : Z) : bool :=
  match fuel with
  | O => false
  | S fuel => match RuleSet.node_at rules index with
              | Some node => forallb (depth_within fuel rules) (RuleNode.children node)
              | None => true
              end
  end.

(** Every threshold of the graph is decided by [m]. *)
Definition all_decided (rules : RuleSet.t) (m : FlowMeasurements.t) : Prop :=
  Forall (fun node => RuleNode.kind node = RuleKind.Threshold ->
            Threshold.evaluate (RuleNode.threshold node) m <> Tri.Unknown) (RuleSet.nodes rules).

Lemma sem_children_decided op ev children : forall acc,
  (forall a b, a <> Tri.Unknown -> b <> Tri.Unknown -> op a b <> Tri.Unknown) ->
  Forall (fun c => exists v, ev c = Some v /\ v <> Tri.Unknown) children ->
  acc <> Tri.Unknown ->
  exists v, sem_children op ev children acc = Some v /\ v <> Tri.Unknown.
Proof.
  intros acc Hop Hall. revert acc. induction Hall as [|c cs (v & Hv & Hd) Hall IH]; intros acc Ha.
  - by exists acc.
  - cbn [sem_children]. rewrite Hv. cbn. apply IH. by apply Hop.
Qed.

Lemma sem_decided rules m fuel : all_decided rules m -> forall depth index,
  depth + Z.of_nat fuel = kMaxRuleDepth + 1 -> depth_within fuel rules index = true ->
  (forall i, rtc (edge rules) index i -> i < size_of (RuleSet.nodes rules) /\
    exists node, RuleSet.node_at rules i = Some node /\ RuleSet.check_node node = Val tt) ->
  exists v, sem rules m (S fuel) depth index = Some v /\ v <> Tri.Unknown.
Proof.
  intros Hdec. induction fuel as [|fuel IH]; [done|]. intros depth index Hfuel Hw Hwf.
  destruct (Hwf index (rtc_refl _ _)) as (Hr & node & Hn & Hchk).
  remember (S fuel) as f. cbn [sem]. subst f. cbn [depth_within] in Hw. rewrite Hn in Hw |- *.
  assert (Hguard : (depth >? kMaxRuleDepth) || (index >=? size_of (RuleSet.nodes rules)) = false)
    by lia. rewrite Hguard.
  assert (Hkids : Forall (fun c => exists v, sem rules m (S fuel) (depth + 1) c = Some v /\
                            v <> Tri.Unknown) (RuleNode.children node)).
  { apply Forall_forall. intros c Hc. rewrite forallb_forall in Hw.
    apply list_elem_of_In in Hc as Hc'. specialize (Hw c Hc'). apply IH; [lia|done|].
    intros i Hi. apply Hwf. eapply rtc_l; [|exact Hi]. by exists node. }
  cbv zeta. unfold RuleSet.check_node in Hchk. destruct (RuleNode.kind node) eqn:Hk.
  - eexists. split; [done|]. unfold all_decided in Hdec. rewrite Forall_forall in Hdec.
    apply Hdec; [|done].
    by eapply list_elem_of_lookup_2.
  - apply sem_children_decided; [by intros [] []|done..].
  - apply sem_children_decided; [by intros [] []|done..].
  - destruct (RuleNode.children node) as [|c cs]; [done|].
    apply Forall_cons in Hkids as [(v & Hs & Hv) _]. exists (tri_not v).
    split; [by rewrite Hs|by destruct v].
Qed.

(** ** Synthesized exit rules *)

(** The thresholds a synthesized exit rule tests. *)
Definition instantaneous (nodes : list RuleNode.t) : list Threshold.t :=
  RuleNode.threshold <$> base.filter (fun node =>
    bool_decide (RuleNode.kind node = RuleKind.Threshold) &&
    is_instantaneous (Threshold.kind (RuleNode.threshold node)) = true) nodes.

Definition scale_threshold (scale_bp : Z) (th : Threshold.t) : Threshold.t :=
  th <| Threshold.value := Threshold.value th * scale_bp / kBasisPointsScale |>.

Definition values_ok (rules : RuleSet.t) : Prop :=
  Forall (fun node => u64_ok (Threshold.value (RuleNode.threshold node))) (RuleSet.nodes rules).

Lemma scaled_leaves_spec nodes bp : forall leaves,
  Forall (fun node => u64_ok (Threshold.value (RuleNode.threshold node))) nodes -> u64_ok bp ->
  scaled_leaves nodes bp = Val leaves ->
  leaves = leaf ∘ scale_threshold bp <$> instantaneous nodes.
Proof.
  unfold instantaneous. induction nodes as [|[kind th ch] nodes IH]; intros leaves Hall Hbp H.
  { by injection H as <-. }
  inversion_clear Hall as [|? ? Hv Hall']. rewrite filter_cons.
  cbn [scaled_leaves RuleNode.kind RuleNode.threshold] in *. cbv zeta in H.
  destruct kind; try (rewrite decide_False by done; by apply IH).
  destruct (is_instantaneous _); [|rewrite decide_False by done; by apply IH].
  rewrite decide_True by done. destruct (mul_div _ _ _) as [scaled|] eqn:Em; [|done].
  apply mul_div_sound in Em as (-> & _); [|done|done|unfold kBasisPointsScale; ulia].
  apply StatusOr_bind_Val in H as (rest & Hrest & [= <-]). by rewrite (IH rest).
Qed.

(** Scaling down by at most 10000 basis points weakens a lower bound. *)
Lemma scale_threshold_weaker bp th m :
  is_instantaneous (Threshold.kind th) = true -> 0 <= bp <= kBasisPointsScale ->
  0 <= Threshold.value th -> Threshold.evaluate th m = Tri.True_ ->
  Threshold.evaluate (scale_threshold bp th) m = Tri.True_.
Proof.
  intros Hi Hbp Hv He. destruct th as [kind v c].
  cbn [Threshold.kind Threshold.value] in *.
  assert (Hle : v * bp / kBasisPointsScale <= v).
  { apply Z.div_le_upper_bound; unfold kBasisPointsScale in *; nia. }
  unfold Threshold.evaluate, scale_threshold in *. cbn [Threshold.kind Threshold.value update] in *.
  destruct kind; try discriminate Hi; unfold Threshold.when_known in *; destruct (negb _);
    try discriminate He; unfold tri_from_bool in *;
    destruct (_ >=? v) eqn:E; try discriminate He;
    destruct (_ >=? v * bp / _) eqn:E2; try done; lia.
Qed.

Section chain.
Context (ths : list Threshold.t) (m : FlowMeasurements.t).
Let n := length ths.
Let rules := chain_leaves (leaf <$> ths).
Hypothesis Hn : (1 <= n)%nat.
Hypothesis Hbig : Z.of_nat n < 2 ^ 31.

(** The index of the chain after [i] conjunctions. *)
Definition chain_pos (i : nat) : Z := if (i =? 0)%nat then 0 else Z.of_nat (n + i - 1).

Lemma chain_nodes : RuleSet.nodes rules = (leaf <$> ths) ++ (chain_node n <$> seq 1 (n - 1)).
Proof.
  unfold rules, chain_leaves. rewrite length_fmap. fold n.
  destruct (Nat.eqb_spec n 0); [lia|done].
Qed.

Lemma chain_root : RuleSet.root rules = chain_pos (n - 1).
Proof.
  unfold rules, chain_leaves, chain_pos. rewrite length_fmap. fold n.
  destruct (Nat.eqb_spec n 0); [lia|]. cbn [RuleSet.root].
  destruct (Nat.eqb_spec n 1) as [E|E]; [by rewrite E|].
  destruct (Nat.eqb_spec (n - 1) 0); [lia|]. rewrite wrap_small by ulia. f_equal. lia.
Qed.

Lemma chain_size : size_of (RuleSet.nodes rules) = Z.of_nat (n + (n - 1)).
Proof. unfold size_of. rewrite chain_nodes, length_app, !length_fmap, length_seq. done. Qed.

Lemma chain_leaf_at (i : nat) th : ths !! i = Some th ->
  RuleSet.node_at rules (Z.of_nat i) = Some (leaf th).
Proof.
  intros Hi. unfold RuleSet.node_at. rewrite chain_nodes, Nat2Z.id, lookup_app_l.
  - by rewrite list_lookup_fmap, Hi.
  - rewrite length_fmap. by eapply lookup_lt_Some.
Qed.

Lemma chain_node_at i : (1 <= i < n)%nat ->
  RuleSet.node_at rules (chain_pos i) = Some (RuleNode.mk RuleKind.All Threshold.default
    [chain_pos (i - 1); Z.of_nat i]).
Proof.
  intros Hi. unfold RuleSet.node_at, chain_pos. destruct (Nat.eqb_spec i 0); [lia|].
  rewrite chain_nodes, Nat2Z.id, lookup_app_r; rewrite !length_fmap; fold n; [|lia].
  rewrite list_lookup_fmap. replace (n + i - 1 - n)%nat with (i - 1)%nat by lia.
  rewrite lookup_seq_lt by lia. replace (1 + (i - 1))%nat with i by lia. cbn.
  unfold chain_node. do 3 f_equal.
  - destruct (Nat.eqb_spec i 1) as [->|]; [done|]. destruct (Nat.eqb_spec (i - 1) 0); [lia|].
    rewrite wrap_small by ulia. f_equal. lia.
  - by rewrite wrap_small by ulia.
Qed.

Lemma chain_pos_lt i : (i < n)%nat -> chain_pos i < size_of (RuleSet.nodes rules).
Proof. intros. rewrite chain_size. unfold chain_pos. destruct (Nat.eqb_spec i 0); lia. Qed.

(** The conjunction of the first [i + 1] thresholds. *)
Definition conjunction (l : list Threshold.t) : Tri.t :=
  foldl (fun acc th => tri_and acc (Threshold.evaluate th m)) Tri.True_ l.

Lemma sem_leaf fuel depth i th : depth <= kMaxRuleDepth -> ths !! i = Some th ->
  sem rules m (S fuel) depth (Z.of_nat i) = Some (Threshold.evaluate th m).
Proof.
  intros Hd Hi. cbn [sem]. rewrite (chain_leaf_at i th Hi).
  assert (Hl : (i < n)%nat) by exact (lookup_lt_Some _ _ _ Hi).
  assert (Hg : (depth >? kMaxRuleDepth) || (Z.of_nat i >=? size_of (RuleSet.nodes rules)) = false)
    by (rewrite chain_size; apply orb_false_iff; split; blia).
  by rewrite Hg.
Qed.

Lemma sem_chain i : forall fuel depth,
  (i < n)%nat -> depth + Z.of_nat i <= kMaxRuleDepth ->
  sem rules m (S i + fuel) depth (chain_pos i) = Some (conjunction (take (S i) ths)).
Proof.
  induction i as [|i IH]; intros fuel depth Hi Hd.
  - destruct (lookup_lt_is_Some_2 ths 0 Hi) as [th Hth].
    change (chain_pos 0) with (Z.of_nat 0). change (1 + fuel)%nat with (S fuel).
    rewrite (sem_leaf _ _ _ th) by (done || lia).
    rewrite (take_S_r _ _ _ Hth), take_0. cbn. by destruct (Threshold.evaluate th m).
  - destruct (lookup_lt_is_Some_2 ths (S i) Hi) as [th Hth].
    rewrite (take_S_r _ _ _ Hth). unfold conjunction. rewrite foldl_snoc. fold (conjunction (take (S i) ths)).
    change (S (S i) + fuel)%nat with (S (S i + fuel)). cbn [sem].
    pose proof (chain_pos_lt (S i) Hi).
    assert (Hg : (depth >? kMaxRuleDepth) ||
      (chain_pos (S i) >=? size_of (RuleSet.nodes rules)) = false) by lia.
    rewrite Hg, chain_node_at by lia. cbv zeta. cbn [RuleNode.kind RuleNode.children sem_children].
    replace (S i - 1)%nat with i by lia. rewrite IH by lia. cbn [mbind option_bind].
    change (S i + fuel)%nat with (S (i + fuel)).
    rewrite (sem_leaf _ _ (S i) th) by (done || lia). cbn.
    by destruct (conjunction (take (S i) ths)), (Threshold.evaluate th m).
Qed.

Lemma chain_meaning : Z.of_nat n <= kMaxRuleDepth + 1 -> meaning rules m = conjunction ths.
Proof.
  intros Hd. unfold meaning. rewrite chain_root. unfold RuleSet.eval_fuel.
  replace (Z.to_nat (kMaxRuleDepth + 2)) with (S (n - 1) + (34 - n))%nat
    by (unfold kMaxRuleDepth in *; lia).
  rewrite sem_chain by lia. simpl. replace (S (n - 1)) with n by lia. by rewrite take_ge.
Qed.

(** A chain deeper than the limit is refused on its way down the left spine. *)
Lemma chain_pos_inj i j : (i < n)%nat -> (j < n)%nat ->
  Z.to_nat (chain_pos i) = Z.to_nat (chain_pos j) -> i = j.
Proof.
  intros Hi Hj. unfold chain_pos. destruct (Nat.eqb_spec i 0), (Nat.eqb_spec j 0); lia.
Qed.

Lemma chain_too_deep fuel : forall depth i colour,
  (i < n)%nat -> kMaxRuleDepth < depth + Z.of_nat i -> depth <= kMaxRuleDepth + 1 ->
  kMaxRuleDepth + 2 <= depth + Z.of_nat fuel ->
  (forall j, (j <= i)%nat -> colour !! Z.to_nat (chain_pos j) = Some 0) ->
  exists c, snd (RuleSet.validate_node fuel rules depth (chain_pos i) colour) = Err c.
Proof.
  induction fuel as [|fuel IH]; intros depth i colour Hi Hdeep Hd Hf Hw; [lia|].
  cbn [RuleSet.validate_node]. pose proof (chain_pos_lt i Hi).
  assert (Hr : (chain_pos i >=? size_of (RuleSet.nodes rules)) = false) by lia. rewrite Hr.
  destruct (depth >? kMaxRuleDepth) eqn:Ed; [by eexists|].
  rewrite chain_node_at by lia. rewrite (Hw i) by lia. cbn [Z.eqb].
  unfold mbind, M_bind, modify, lift, RuleSet.check_node.
  cbn [RuleNode.kind RuleNode.children refuse_if].
  rewrite bool_decide_eq_false_2 by done. cbn [refuse_if for_each mbind M_bind].
  unfold mbind, M_bind.
  destruct (IH (depth + 1) (i - 1)%nat (<[Z.to_nat (chain_pos i) := 1]> colour)) as [c Hc];
    [lia..| |].
  - intros j Hj. rewrite list_lookup_insert_ne; [apply Hw; lia|].
    intros E. apply chain_pos_inj in E; lia.
  - destruct (RuleSet.validate_node _ _ _ _ _) as [s r]. simpl in Hc. subst r. by eexists.
Qed.

Lemma chain_refused : kMaxRuleDepth + 1 < Z.of_nat n -> exists c, RuleSet.validate rules = Err c.
Proof.
  intros Hd. unfold RuleSet.validate. destruct (RuleSet.empty rules); [by eexists|]. cbn.
  destruct (size_of _ >? _); [by eexists|]. cbn.
  destruct (_ >=? _); [by eexists|]. cbn. rewrite chain_root.
  apply chain_too_deep; try (unfold RuleSet.eval_fuel, kMaxRuleDepth in *; lia).
  intros j Hj. apply lookup_replicate. split; [done|].
  pose proof (chain_pos_lt j ltac:(lia)). unfold size_of in *.
  unfold chain_pos in *. destruct (Nat.eqb_spec j 0); lia.
Qed.
End chain.

(** Reading a successful synthesis. *)
Lemma scale_rule_set_inv rules bp out :
  values_ok rules -> u64_ok bp -> scale_rule_set rules bp = Val out ->
  0 < bp <= kBasisPointsScale /\
  out = chain_leaves (leaf <$> (scale_threshold bp <$> instantaneous (RuleSet.nodes rules))) /\
  RuleSet.validate out = Val tt.
Proof.
  intros Hv Hbp H. unfold scale_rule_set in H. inv_status H. cbv zeta in H. inv_status H.
  injection H as <-. destruct x0.
  apply scaled_leaves_spec in Hstep; [|done..].
  rewrite <- list_fmap_compose, <- Hstep. boolify. split; [ulia|done].
Qed.

Lemma chain_leaves_nil : chain_leaves [] = RuleSet.mk [leaf Threshold.default] 0.
Proof. done. Qed.

(** ** Properties *)

(** Sustained and peak rate measurements of a flow, all of them known. *)
Definition demo_measurements (sustained peak : Z) : FlowMeasurements.t :=
  FlowMeasurements.default
    <| FlowMeasurements.evidence_present := true |>
    <| FlowMeasurements.evidence_contiguous := true |>
    <| FlowMeasurements.sustained_rate := sustained |>
    <| FlowMeasurements.peak_window_rate := peak |>.

Definition rate_at_least (v : Z) : RuleNode.t :=
  leaf (Threshold.mk ThresholdKind.SustainedRate v ServiceClass.Unknown).
Definition peak_at_least (v : Z) : RuleNode.t :=
  leaf (Threshold.mk ThresholdKind.PeakRate v ServiceClass.Unknown).
Definition two_rates (kind : RuleKind.t) : RuleSet.t :=
  RuleSet.mk [rate_at_least 100; peak_at_least 1000;
              RuleNode.mk kind Threshold.default [0; 1]] 2.

(** Missing evidence can never decide a rule wrongly: a verdict reached on partial
    measurements is the verdict on every completion of them, negation included, and it does not
    depend on the trace that is recorded along the way. *)
Theorem rule_verdict_stable (rules : RuleSet.t) (m m' : FlowMeasurements.t)
    (trace trace' : option ThresholdTrace.t) (v : Tri.t) :
  more_evidence m m' ->
  (RuleSet.evaluate rules m trace).2 = v -> v <> Tri.Unknown ->
  (RuleSet.evaluate rules m' trace').2 = v.
Proof.
  intros Hm <- Hv. rewrite !evaluate_meaning in *.
  by apply tri_le_known; [apply meaning_le, more_evidence_refines|].
Qed.

Lemma rule_verdict_stable_witness :
  (RuleSet.evaluate (two_rates RuleKind.Any) (demo_measurements 5 2000) None).2 = Tri.True_.
Proof.
  apply (rule_verdict_stable _ (demo_measurements 5 2000 <| FlowMeasurements.evidence_contiguous := false |>)
    _ (Some ThresholdTrace.empty)); [|vm_compute; reflexivity|discriminate].
  split; intros; try done; simpl in *; by auto.
Defined.

(** A rule set that [validate] accepts is a well formed rule graph: every node
    reachable from the root is an index inside the array with the arity of its kind and a
    recognized threshold, and no node reaches itself. *)
Theorem validated_rules_well_formed (rules : RuleSet.t) :
  RuleSet.validate rules = Val tt -> well_formed_graph rules.
Proof. apply validate_graph. Qed.

Lemma validated_rules_well_formed_witness : well_formed_graph (two_rates RuleKind.All).
Proof. apply validated_rules_well_formed. vm_compute. reflexivity. Defined.

(** C33: On a validated rule set all of whose paths have at most 33 nodes, evaluation
    fails to decide only when some threshold is undecided: with every threshold known the verdict
    is true or false. *)
Theorem validated_rules_decide (rules : RuleSet.t) (m : FlowMeasurements.t)
    (trace : option ThresholdTrace.t) :
  RuleSet.validate rules = Val tt ->
  depth_within (Z.to_nat (kMaxRuleDepth + 1)) rules (RuleSet.root rules) = true ->
  all_decided rules m ->
  (RuleSet.evaluate rules m trace).2 <> Tri.Unknown.
Proof.
  intros Hv Hd Hall. rewrite evaluate_meaning. unfold meaning.
  destruct (sem_decided rules m (Z.to_nat (kMaxRuleDepth + 1)) Hall 0 (RuleSet.root rules) eq_refl Hd)
    as (v & Hs & Hne).
  - intros i Hi. apply (validate_graph rules Hv) in Hi as (? & _ & ?). auto.
  - change RuleSet.eval_fuel with (S (Z.to_nat (kMaxRuleDepth + 1))). by rewrite Hs.
Qed.

Lemma validated_rules_decide_witness :
  (RuleSet.evaluate (two_rates RuleKind.Not <| RuleSet.root := 0 |>) (demo_measurements 5 2000) None).2
    <> Tri.Unknown.
Proof.
  apply validated_rules_decide; [vm_compute; reflexivity..|].
  repeat constructor; vm_compute; discriminate.
Defined.

(** A rule graph with a shared node: the root tests node 1 directly and through node 33,
    and node 1 heads a run of 32 nodes. *)
Definition shared_run : RuleSet.t :=
  RuleSet.mk ([RuleNode.mk RuleKind.All Threshold.default [1; 33]] ++
    ((fun i => RuleNode.mk RuleKind.All Threshold.default [Z.of_nat (S i)]) <$> seq 1 31) ++
    [leaf Threshold.default; RuleNode.mk RuleKind.All Threshold.default [1]]) 0.

(** Validation does not bound the evaluation depth of a shared node: it accepts
    this rule, whose only threshold is [Always], because the run below the shared node was already
    marked done when the longer path reaches it, and evaluation then answers [Unknown] on every
    measurement. *)
Theorem validated_rule_undecidable :
  RuleSet.validate shared_run = Val tt /\
  forall m trace, all_decided shared_run m /\ (RuleSet.evaluate shared_run m trace).2 = Tri.Unknown.
Proof.
  split; [vm_compute; reflexivity|]. intros m trace. split.
  - repeat constructor; vm_compute; discriminate.
  - rewrite evaluate_meaning. vm_compute. reflexivity.
Qed.

(** The exit rule synthesized from an enter rule is the conjunction of its
    instantaneous thresholds, scaled down: whenever all of those hold at full strength the exit
    rule still holds, so such a flow is never below its exit rule. *)
Theorem synthesized_exit_weaker (rules out : RuleSet.t) (bp : Z) (m : FlowMeasurements.t)
    (trace : option ThresholdTrace.t) :
  values_ok rules -> u64_ok bp -> size_of (RuleSet.nodes rules) <= kMaxPolicyNodes ->
  scale_rule_set rules bp = Val out ->
  Forall (fun th => Threshold.evaluate th m = Tri.True_) (instantaneous (RuleSet.nodes rules)) ->
  (RuleSet.evaluate out m trace).2 = Tri.True_.
Proof.
  intros Hv Hbp Hsz Hs Hall. rewrite evaluate_meaning.
  destruct (scale_rule_set_inv rules bp out Hv Hbp Hs) as (Hr & Hout & Hval).
  set (ths := scale_threshold bp <$> instantaneous (RuleSet.nodes rules)) in *.
  assert (Hths : Forall (fun th => Threshold.evaluate th m = Tri.True_) ths).
  { apply Forall_fmap. apply Forall_forall. intros th Hth. rewrite Forall_forall in Hall.
    specialize (Hall th Hth) as Hth'. cbn. apply list_elem_of_fmap in Hth as (node & -> & Hnode).
    apply list_elem_of_filter in Hnode as [Hk Hnode]. apply andb_true_iff in Hk as [_ Hk].
    unfold values_ok in Hv. rewrite Forall_forall in Hv. apply Hv in Hnode.
    apply scale_threshold_weaker; try done; unfold in_range in *; lia. }
  assert (Hlen : size_of ths <= kMaxPolicyNodes).
  { unfold ths, instantaneous, size_of in *. rewrite !length_fmap.
    etrans; [|exact Hsz]. apply inj_le, length_filter. }
  destruct (decide (ths = [])) as [Hnil|Hne]; [by rewrite Hout, Hnil|].
  assert (1 <= length ths)%nat by (destruct ths; simpl; [done|lia]).
  assert (Hbig : Z.of_nat (length ths) < 2 ^ 31) by (unfold size_of, kMaxPolicyNodes in *; lia).
  destruct (Z.le_gt_cases (Z.of_nat (length ths)) (kMaxRuleDepth + 1)) as [Hd|Hd].
  - rewrite Hout, chain_meaning by done. clear -Hths. unfold conjunction.
    induction Hths as [|th l Hth Hl IH]; [done|]. cbn [foldl]. by rewrite Hth.
  - destruct (chain_refused ths ltac:(done) Hbig Hd) as [c Hc]. rewrite Hout in Hval. congruence.
Qed.

Lemma synthesized_exit_weaker_witness :
  exists out, scale_rule_set (two_rates RuleKind.All) 8000 = Val out /\
    (RuleSet.evaluate out (demo_measurements 100 1000) None).2 = Tri.True_.
Proof.
  eexists. split; [vm_compute; reflexivity|].
  apply (synthesized_exit_weaker (two_rates RuleKind.All) _ 8000).
  - repeat constructor; simpl; lia.
  - unfold in_range. lia.
  - vm_compute. discriminate.
  - vm_compute. reflexivity.
  - repeat constructor.
Defined.

(** The synthesized exit rule is not weaker than a disjunctive enter rule: a flow
    can satisfy "rate or peak" while its exit rule, which demands both, is definitely false. *)
Theorem disjunctive_exit_not_weaker :
  exists out m, scale_rule_set (two_rates RuleKind.Any) 8000 = Val out /\
    (RuleSet.evaluate (two_rates RuleKind.Any) m None).2 = Tri.True_ /\
    (RuleSet.evaluate out m None).2 = Tri.False_.
Proof.
  eexists _, (demo_measurements 5 2000). split; [vm_compute; reflexivity|].
  by vm_compute.
Qed.

(** An enter rule without instantaneous thresholds gets the exit rule [Always],
    which is never false: the exit test of such a policy can never fire, on any measurements. *)
Lemma history_only_exit_never_fires (rules out : RuleSet.t) (bp : Z) (m : FlowMeasurements.t)
    (trace : option ThresholdTrace.t) :
  values_ok rules -> u64_ok bp -> instantaneous (RuleSet.nodes rules) = [] ->
  scale_rule_set rules bp = Val out ->
  (RuleSet.evaluate out m trace).2 = Tri.True_.
Proof.
  intros Hv Hbp Hnil Hs. destruct (scale_rule_set_inv rules bp out Hv Hbp Hs) as (_ & -> & _).
  rewrite Hnil, evaluate_meaning. done.
Qed.
