(* ===== verification/Impact.v ===== *)
(** * Impact assessment ([include/efg/impact.hpp], [src/impact.cpp]) *)
From S2P Require Import Prelude Status Checked Tri Tick Hash Flow Policy.

Module ImpactAssessment.
Record t := mk {
  defined : bool;
  share_of_capacity : Z;
  share_of_available : Z;
  rate_pressure : Z;
  contention_pressure : Z;
  excess_rate : Z;
  excess_over_guarantee : Z;
  competing_flows : Z;
  competing_elephants : Z;
  protected_obligation_conflict : bool;
  severity : Z }.
#[global] Instance eta_t : Eta t := fun r =>
  mk (defined r) (share_of_capacity r) (share_of_available r) (rate_pressure r)
     (contention_pressure r) (excess_rate r) (excess_over_guarantee r) (competing_flows r)
     (competing_elephants r) (protected_obligation_conflict r) (severity r).
Definition default : t := mk false 0 0 0 0 0 0 0 0 false 0.

Definition digest (i : t) : Z :=
  Hasher.digest_of [
    Hasher.write_bool (defined i);
    Hasher.write_u32 (share_of_capacity i);
    Hasher.write_u32 (share_of_available i);
    Hasher.write_u32 (rate_pressure i);
    Hasher.write_u32 (contention_pressure i);
    Hasher.write_u64 (excess_rate i);
    Hasher.write_u64 (excess_over_guarantee i);
    Hasher.write_u32 (competing_flows i);
    Hasher.write_u32 (competing_elephants i);
    Hasher.write_bool (protected_obligation_conflict i);
    Hasher.write_u32 (severity i) ].
End ImpactAssessment.

Definition max_threshold_value (rules : RuleSet.t) (kind : ThresholdKind.t) : Z :=
  foldl (fun best node =>
    if bool_decide (RuleNode.kind node = RuleKind.Threshold) &&
       ThresholdKind.eqb (Threshold.kind (RuleNode.threshold node)) kind
    then max_of best (Threshold.value (RuleNode.threshold node)) else best)
    0 (RuleSet.nodes rules).

(** Sustained rate relative to the declared rate threshold. *)
Definition rate_pressure_of (m : FlowMeasurements.t) (rate_threshold : Z) : Z :=
  if negb (rate_threshold =? 0) then
    match mul_div (FlowMeasurements.sustained_rate m) kBasisPointsScale rate_threshold with
    | Some pressure => if pressure >? kBasisPointsScale then kBasisPointsScale else wrap 32 pressure
    | None => kBasisPointsScale
    end
  else 0.

Definition excess_over_guarantee_of (m : FlowMeasurements.t) : Z :=
  if FlowMeasurements.capacity_known m && negb (FlowMeasurements.resource_capacity m =? 0) &&
     negb (FlowMeasurements.resource_reserved m =? 0) then
    let reserved_share := to_basis_points (FlowMeasurements.resource_reserved m)
                            (FlowMeasurements.resource_capacity m) in
    if FlowMeasurements.share_of_capacity m >? reserved_share then
      let above := wrap 32 (FlowMeasurements.share_of_capacity m - reserved_share) in
      match apply_basis_points (FlowMeasurements.sustained_rate m) above with
      | Some excess => excess
      | None => 0
      end
    else 0
  else 0.

Definition carries_obligation (m : FlowMeasurements.t) : bool :=
  FlowMeasurements.has_reservation m ||
  ProtectionState.eqb (FlowMeasurements.protection m) ProtectionState.Protected ||
  ProtectionState.eqb (FlowMeasurements.protection m) ProtectionState.NonPreemptible ||
  ServiceClass.eqb (FlowMeasurements.service_class m) ServiceClass.Reserved ||
  ServiceClass.eqb (FlowMeasurements.service_class m) ServiceClass.Control.

(** Fixed weights summing to ten: 4 share, 4 contention, 2 rate pressure. *)
Definition severity_of (i : ImpactAssessment.t) : Z :=
  let weighted := wrap 64 (ImpactAssessment.share_of_available i * 4 +
                           ImpactAssessment.contention_pressure i * 4 +
                           ImpactAssessment.rate_pressure i * 2) in
  let severity := wrap 32 (weighted / 10) in
  if severity >? kBasisPointsScale then kBasisPointsScale else severity.

Definition compute_impact (m : FlowMeasurements.t) (policy : PolicyDocument.t)
    (contention_pressure competing_elephants : Z) : ImpactAssessment.t :=
  let out := ImpactAssessment.default in
  if negb (FlowMeasurements.evidence_present m) then out
  else
    let rate_threshold :=
      max_threshold_value (PolicyDocument.enter_rule policy) ThresholdKind.SustainedRate in
    let out := out
      <| ImpactAssessment.defined := true |>
      <| ImpactAssessment.share_of_capacity := FlowMeasurements.share_of_capacity m |>
      <| ImpactAssessment.share_of_available := FlowMeasurements.share_of_available m |>
      <| ImpactAssessment.competing_flows := FlowMeasurements.competing_flows m |>
      <| ImpactAssessment.competing_elephants := competing_elephants |>
      <| ImpactAssessment.contention_pressure :=
           if contention_pressure >? kBasisPointsScale then kBasisPointsScale
           else contention_pressure |>
      <| ImpactAssessment.excess_rate :=
           if negb (rate_threshold =? 0) && (FlowMeasurements.sustained_rate m >? rate_threshold)
           then wrap 64 (FlowMeasurements.sustained_rate m - rate_threshold) else 0 |>
      <| ImpactAssessment.rate_pressure := rate_pressure_of m rate_threshold |>
      <| ImpactAssessment.excess_over_guarantee := excess_over_guarantee_of m |>
      <| ImpactAssessment.protected_obligation_conflict := carries_obligation m |> in
    out <| ImpactAssessment.severity := severity_of out |>.

(** ** Facts *)

Lemma max_threshold_value_range rules kind :
  Forall (fun n => u64_ok (Threshold.value (RuleNode.threshold n))) (RuleSet.nodes rules) ->
  u64_ok (max_threshold_value rules kind).
Proof.
  unfold max_threshold_value. assert (H0 : u64_ok 0) by ulia. revert H0. generalize 0.
  induction (RuleSet.nodes rules) as [|n ns IH]; intros z Hz Hall; [done|].
  inversion_clear Hall. cbn [foldl]. apply IH; [|done]. split_ifs; [|done].
  rewrite max_of_max. ulia.
Qed.

Lemma rate_pressure_range m th :
  u64_ok (FlowMeasurements.sustained_rate m) -> u64_ok th ->
  0 <= rate_pressure_of m th <= kBasisPointsScale.
Proof.
  intros Hr Ht. unfold rate_pressure_of. split_ifs; [|unfold kBasisPointsScale; lia].
  destruct (mul_div _ _ _) as [p|] eqn:E; [|unfold kBasisPointsScale; lia].
  apply mul_div_sound in E as (_ & Hp & _); [|done|unfold kBasisPointsScale; ulia|done].
  split_ifs; [unfold kBasisPointsScale; lia|].
  rewrite wrap_small by (unfold in_range, kBasisPointsScale in *; lia).
  unfold in_range, kBasisPointsScale in *. lia.
Qed.

(** ** Properties *)

(** The composite severity is the floor of (4 share + 4 contention + 2 rate
    pressure) / 10 with every component inside 0..10000 basis points; none of the fixed-width
    steps wraps and the final clamp never changes the value. *)
Theorem severity_exact (m : FlowMeasurements.t) (policy : PolicyDocument.t)
    (contention competing : Z) :
  FlowMeasurements.evidence_present m = true ->
  u64_ok (FlowMeasurements.sustained_rate m) ->
  0 <= FlowMeasurements.share_of_available m <= kBasisPointsScale -> 0 <= contention ->
  Forall (fun n => u64_ok (Threshold.value (RuleNode.threshold n)))
    (RuleSet.nodes (PolicyDocument.enter_rule policy)) ->
  let i := compute_impact m policy contention competing in
  0 <= ImpactAssessment.rate_pressure i <= kBasisPointsScale /\
  ImpactAssessment.contention_pressure i = Z.min contention kBasisPointsScale /\
  ImpactAssessment.severity i =
    (4 * ImpactAssessment.share_of_available i + 4 * ImpactAssessment.contention_pressure i +
     2 * ImpactAssessment.rate_pressure i) / 10 /\
  0 <= ImpactAssessment.severity i <= kBasisPointsScale.
Proof.
  intros He Hr Hs Hc Hv i. unfold i, compute_impact. rewrite He. cbn [negb].
  set (th := max_threshold_value _ _).
  pose proof (rate_pressure_range m th Hr (max_threshold_value_range _ _ Hv)) as Hp.
  cbv zeta. unfold severity_of.
  cbn [ImpactAssessment.rate_pressure ImpactAssessment.contention_pressure
       ImpactAssessment.severity ImpactAssessment.share_of_available update].
  set (cp := if contention >? _ then _ else _).
  assert (Hcp : cp = Z.min contention kBasisPointsScale) by (unfold cp; split_ifs; lia).
  split; [done|]. split; [done|].
  rewrite (wrap_small 64) by (unfold in_range, kBasisPointsScale in *; lia).
  set (w := FlowMeasurements.share_of_available m * 4 + cp * 4 + rate_pressure_of m th * 2).
  assert (Hw : 0 <= w <= 10 * kBasisPointsScale) by (unfold w, kBasisPointsScale in *; lia).
  assert (Hq : 0 <= w / 10 <= kBasisPointsScale).
  { split; [apply Z.div_pos; lia|apply Z.div_le_upper_bound; lia]. }
  rewrite (wrap_small 32) by (unfold in_range, kBasisPointsScale in *; lia).
  replace (w / 10 >? kBasisPointsScale) with false by lia.
  split; [|done]. f_equal. unfold w. ring.
Qed.

Lemma severity_exact_witness :
  let m := FlowMeasurements.default
    <| FlowMeasurements.evidence_present := true |>
    <| FlowMeasurements.sustained_rate := 900 |>
    <| FlowMeasurements.share_of_available := 5000 |> in
  ImpactAssessment.severity (compute_impact m PolicyDocument.default 20000 3) =
    (4 * 5000 + 4 * 10000 + 2 * 0) / 10.
Proof.
  intros m. destruct (severity_exact m PolicyDocument.default 20000 3) as (_ & _ & H & _).
  - reflexivity.
  - unfold in_range. simpl. lia.
  - unfold kBasisPointsScale. simpl. lia.
  - lia.
  - constructor.
  - exact H.
Defined.
