(* ===== verification/Classification.v ===== *)
(** * Classification ([include/efg/classification.hpp], [src/classification.cpp])

    The verdict on one flow generation, the identities and generations that justified
    it ([AuthorityVector]), and the bounded, digest-chained history of verdicts. *)
From S2P Require Import Prelude Status Checked Tri Tick Hash Flow Policy Impact.

Definition kMaxHistoryPerFlow : Z := 512.

Module ElephantState.
Inductive t : Type := Unknown | NotElephant | Elephant | Suspended.
#[global] Instance eq_dec : EqDecision t.
Proof. solve_decision. Defined.
Definition eqb (a b : t) : bool := bool_decide (a = b).
Definition to_u8 (s : t) : Z :=
  match s with Unknown => 0 | NotElephant => 1 | Elephant => 2 | Suspended => 3 end.
End ElephantState.

Module AuthorityLevel.
Inductive t : Type := None | Observe | Govern.
#[global] Instance eq_dec : EqDecision t.
Proof. solve_decision. Defined.
Definition eqb (a b : t) : bool := bool_decide (a = b).
Definition to_u8 (s : t) : Z := match s with None => 0 | Observe => 1 | Govern => 2 end.
End AuthorityLevel.

Definition kAuthorityFlowBound : Z := Z.shiftl 1 0.
Definition kAuthorityPathBound : Z := Z.shiftl 1 1.
Definition kAuthorityCapacityBound : Z := Z.shiftl 1 2.
Definition kAuthorityPolicyBound : Z := Z.shiftl 1 3.
Definition kAuthorityEpochBound : Z := Z.shiftl 1 4.
Definition kAuthorityPublisherBound : Z := Z.shiftl 1 5.
Definition kAuthorityWindowBound : Z := Z.shiftl 1 6.
Definition kAuthorityBootBound : Z := Z.shiftl 1 7.

Module AuthorityVector.
Record t := mk {
  flow : FlowId;
  flow_generation : Generation;
  path : PathId;
  path_generation : Generation;
  capacity : CapacitySnapshotId;
  capacity_generation : Generation;
  window : EvidenceWindowId;
  window_sequence : SequenceNumber;
  policy : PolicyId;
  policy_generation : Generation;
  classification_generation : Generation;
  epoch : EpochId;
  boot : BootId;
  publisher : PublisherId;
  publisher_boot : BootId;
  validity : ValidityWindow.t;
  bound_flags : Z }.
#[global] Instance eta_t : Eta t := fun r =>
  mk (flow r) (flow_generation r) (path r) (path_generation r) (capacity r)
     (capacity_generation r) (window r) (window_sequence r) (policy r) (policy_generation r)
     (classification_generation r) (epoch r) (boot r) (publisher r) (publisher_boot r)
     (validity r) (bound_flags r).
#[global] Instance eq_dec : EqDecision t.
Proof. solve_decision. Defined.
Definition default : t := mk 0 0 0 0 0 0 0 0 0 0 0 0 0 0 0 ValidityWindow.default 0.

Definition binds (v : t) (flag : Z) : bool := negb (Z.land (bound_flags v) flag =? 0).

(** The chain of early returns, one binding at a time. *)
Definition compare (v current : t) : BindingVerdict.t :=
  if binds v kAuthorityFlowBound && negb (flow current =? flow v)
  then BindingVerdict.Absent
  else if binds v kAuthorityFlowBound && negb (flow_generation current =? flow_generation v)
  then BindingVerdict.FlowGenerationChanged
  else if binds v kAuthorityPathBound && negb (path_generation current =? path_generation v)
  then BindingVerdict.PathGenerationChanged
  else if binds v kAuthorityPathBound && negb (path current =? path v)
  then BindingVerdict.Absent
  else if binds v kAuthorityCapacityBound &&
          negb (capacity_generation current =? capacity_generation v)
  then BindingVerdict.CapacityGenerationChanged
  else if binds v kAuthorityCapacityBound && negb (capacity current =? capacity v)
  then BindingVerdict.Absent
  else if binds v kAuthorityPolicyBound && negb (policy_generation current =? policy_generation v)
  then BindingVerdict.PolicyGenerationChanged
  else if binds v kAuthorityPolicyBound && negb (policy current =? policy v)
  then BindingVerdict.Absent
  else if binds v kAuthorityWindowBound && (window_sequence current <? window_sequence v)
  then BindingVerdict.EvidenceWindowSuperseded
  else if binds v kAuthorityEpochBound && negb (epoch current =? epoch v)
  then BindingVerdict.EpochChanged
  else if binds v kAuthorityBootBound && negb (boot current =? boot v)
  then BindingVerdict.BootChanged
  else if binds v kAuthorityPublisherBound && negb (publisher current =? publisher v)
  then BindingVerdict.PublisherChanged
  else if binds v kAuthorityPublisherBound && negb (publisher_boot current =? publisher_boot v)
  then BindingVerdict.PublisherIncarnationChanged
  else BindingVerdict.Match.

Definition digest (v : t) : Z :=
  Hasher.digest_of [
    Hasher.write_u64 (flow v);
    Hasher.write_u64 (flow_generation v);
    Hasher.write_u64 (path v);
    Hasher.write_u64 (path_generation v);
    Hasher.write_u64 (capacity v);
    Hasher.write_u64 (capacity_generation v);
    Hasher.write_u64 (window v);
    Hasher.write_u64 (window_sequence v);
    Hasher.write_u64 (policy v);
    Hasher.write_u64 (policy_generation v);
    Hasher.write_u64 (classification_generation v);
    Hasher.write_u64 (epoch v);
    Hasher.write_u64 (boot v);
    Hasher.write_u64 (publisher v);
    Hasher.write_u64 (publisher_boot v);
    Hasher.write_u64 (ValidityWindow.issued_at (validity v));
    Hasher.write_u64 (ValidityWindow.expires_at (validity v));
    Hasher.write_u32 (bound_flags v) ].
End AuthorityVector.

Module FlowClassification.
Record t := mk {
  id : ClassificationId;
  generation : Generation;
  flow : FlowId;
  flow_generation : Generation;
  state : ElephantState.t;
  authority : AuthorityLevel.t;
  authority_vector : AuthorityVector.t;
  reasons : Z;
  decided_at : Tick;
  validity : ValidityWindow.t;
  measurements : FlowMeasurements.t;
  impact : ImpactAssessment.t;
  trace : list ThresholdTraceEntry.t;
  trace_truncated : bool;
  enter_streak : Z;
  exit_streak : Z;
  history_digest : Z;
  digest : Z }.
#[global] Instance eta_t : Eta t := fun r =>
  mk (id r) (generation r) (flow r) (flow_generation r) (state r) (authority r)
     (authority_vector r) (reasons r) (decided_at r) (validity r) (measurements r) (impact r)
     (trace r) (trace_truncated r) (enter_streak r) (exit_streak r) (history_digest r) (digest r).
Definition default : t :=
  mk 0 0 0 0 ElephantState.Unknown AuthorityLevel.None AuthorityVector.default 0 0
     ValidityWindow.default FlowMeasurements.default ImpactAssessment.default [] false 0 0 0 0.

Definition authorizes_governance (c : t) : bool :=
  ElephantState.eqb (state c) ElephantState.Elephant &&
  AuthorityLevel.eqb (authority c) AuthorityLevel.Govern.

Definition is_protected (c : t) : bool :=
  ProtectionState.eqb (FlowMeasurements.protection (measurements c)) ProtectionState.Protected ||
  ProtectionState.eqb (FlowMeasurements.protection (measurements c)) ProtectionState.NonPreemptible ||
  FlowMeasurements.has_reservation (measurements c) ||
  ServiceClass.eqb (FlowMeasurements.service_class (measurements c)) ServiceClass.Reserved ||
  ServiceClass.eqb (FlowMeasurements.service_class (measurements c)) ServiceClass.Control.

Definition trace_writes (e : ThresholdTraceEntry.t) : list (Z -> Z) := [
  Hasher.write_u32 (ThresholdTraceEntry.node_index e);
  Hasher.write_u8 (ThresholdKind.to_u8 (ThresholdTraceEntry.kind e));
  Hasher.write_u8 (Tri.to_u8 (ThresholdTraceEntry.result e));
  Hasher.write_bool (ThresholdTraceEntry.observed_defined e);
  Hasher.write_u64 (ThresholdTraceEntry.observed_value e);
  Hasher.write_u64 (ThresholdTraceEntry.threshold_value e) ].

Definition compute_digest (c : t) : Z :=
  Hasher.digest_of ([
    Hasher.write_u64 (id c);
    Hasher.write_u64 (generation c);
    Hasher.write_u64 (flow c);
    Hasher.write_u64 (flow_generation c);
    Hasher.write_u8 (ElephantState.to_u8 (state c));
    Hasher.write_u8 (AuthorityLevel.to_u8 (authority c));
    Hasher.write_digest (AuthorityVector.digest (authority_vector c));
    Hasher.write_u64 (reasons c);
    Hasher.write_u64 (decided_at c);
    Hasher.write_u64 (ValidityWindow.issued_at (validity c));
    Hasher.write_u64 (ValidityWindow.expires_at (validity c));
    Hasher.write_digest (FlowMeasurements.digest (measurements c));
    Hasher.write_digest (ImpactAssessment.digest (impact c));
    Hasher.write_u32 (wrap 32 (size_of (trace c))) ] ++
    mjoin (trace_writes <$> trace c) ++ [
    Hasher.write_bool (trace_truncated c);
    Hasher.write_u32 (enter_streak c);
    Hasher.write_u32 (exit_streak c);
    Hasher.write_digest (history_digest c) ]).
End FlowClassification.

Module ClassificationTransition.
Record t := mk {
  at_ : Tick;
  from : ElephantState.t;
  to : ElephantState.t;
  authority : AuthorityLevel.t;
  reasons : Z;
  classification : ClassificationId;
  classification_generation : Generation }.
#[global] Instance eq_dec : EqDecision t.
Proof. solve_decision. Defined.
End ClassificationTransition.

Module ClassificationHistory.
Record t := mk {
  entries_ : list ClassificationTransition.t;
  max_entries_ : Z;
  digest_ : Z;
  folded_count_ : Z }.
#[global] Instance eta_t : Eta t := fun r =>
  mk (entries_ r) (max_entries_ r) (digest_ r) (folded_count_ r).
Definition make (max_entries : Z) : t := mk [] (if max_entries =? 0 then 1 else max_entries) 0 0.

Definition size (h : t) : Z := size_of (entries_ h).
Definition latest (h : t) : option ClassificationTransition.t := list.last (entries_ h).

(** The digest chain: the digest so far, then the transition. *)
Definition chain_digest (digest : Z) (tr : ClassificationTransition.t) : Z :=
  Hasher.digest_of [
    Hasher.write_digest digest;
    Hasher.write_u64 (ClassificationTransition.at_ tr);
    Hasher.write_u8 (ElephantState.to_u8 (ClassificationTransition.from tr));
    Hasher.write_u8 (ElephantState.to_u8 (ClassificationTransition.to tr));
    Hasher.write_u8 (AuthorityLevel.to_u8 (ClassificationTransition.authority tr));
    Hasher.write_u64 (ClassificationTransition.reasons tr);
    Hasher.write_u64 (ClassificationTransition.classification tr);
    Hasher.write_u64 (ClassificationTransition.classification_generation tr) ].

Definition check (tr : ClassificationTransition.t) (h : t) : Status :=
  match latest h with
  | None => Val tt
  | Some last =>
      refuse_if (ClassificationTransition.at_ tr <? ClassificationTransition.at_ last)
        StatusCode.Stale ;;
      refuse_if (negb (ElephantState.eqb (ClassificationTransition.from tr)
                         (ClassificationTransition.to last))) StatusCode.Conflict
  end.

Definition record (tr : ClassificationTransition.t) : M t unit := fun h =>
  match check tr h with
  | Err c => (h, Err c)
  | Val _ =>
      let h := h <| digest_ := chain_digest (digest_ h) tr |> in
      let h := if size h >=? max_entries_ h
               then h <| entries_ ::= tail |> <| folded_count_ ::= inc64 |> else h in
      (h <| entries_ ::= (fun es => es ++ [tr]) |>, Val tt)
  end.

Definition transitions (h : t) : list ClassificationTransition.t := entries_ h.
Definition clear (h : t) : t :=
  h <| entries_ := [] |> <| digest_ := 0 |> <| folded_count_ := 0 |>.
End ClassificationHistory.

(** ** The history invariant *)

(** Each transition starts where the previous one ended, no earlier than it. *)
Fixpoint continues (l : list ClassificationTransition.t) : Prop :=
  match l with
  | a :: ((b :: _) as tl) =>
      (ClassificationTransition.from b = ClassificationTransition.to a /\
       ClassificationTransition.at_ a <= ClassificationTransition.at_ b) /\ continues tl
  | _ => True
  end.

Lemma continues_tail l : continues l -> continues (tail l).
Proof. destruct l as [|a [|b tl]]; simpl; tauto. Qed.

Lemma continues_snoc l x :
  continues l ->
  (forall a, list.last l = Some a ->
     ClassificationTransition.from x = ClassificationTransition.to a /\
     ClassificationTransition.at_ a <= ClassificationTransition.at_ x) ->
  continues (l ++ [x]).
Proof.
  induction l as [|a [|b tl] IH]; intros Hc Hl; [done|simpl; auto|].
  destruct Hc as [Hf Hc]. split; [done|]. apply IH; [done|]. intros y Hy. by apply Hl.
Qed.

Record history_inv (h : ClassificationHistory.t) : Prop := {
  hi_bound : size_of (ClassificationHistory.entries_ h) <= ClassificationHistory.max_entries_ h;
  hi_max : 1 <= ClassificationHistory.max_entries_ h;
  hi_chain : continues (ClassificationHistory.entries_ h) }.

Lemma history_inv_make n : 0 <= n -> history_inv (ClassificationHistory.make n).
Proof.
  intros. unfold ClassificationHistory.make.
  split; simpl; try done; destruct (Z.eqb_spec n 0); unfold size_of; simpl; lia.
Qed.

Lemma check_facts tr h :
  ClassificationHistory.check tr h = Val tt ->
  forall a, ClassificationHistory.latest h = Some a ->
    ClassificationTransition.from tr = ClassificationTransition.to a /\
    ClassificationTransition.at_ a <= ClassificationTransition.at_ tr.
Proof.
  unfold ClassificationHistory.check. intros H a Ha. rewrite Ha in H. inv_status H.
  boolify. unfold ElephantState.eqb in *. apply bool_decide_eq_true in H. auto.
Qed.

Lemma history_record_inv tr h :
  history_inv h -> history_inv (fst (ClassificationHistory.record tr h)).
Proof.
  intros [Hb Hm Hc]. unfold ClassificationHistory.record.
  destruct (ClassificationHistory.check tr h) as [[]|] eqn:E; [|done].
  pose proof (check_facts tr h E) as Hlast. unfold ClassificationHistory.latest in Hlast.
  unfold ClassificationHistory.size. cbv zeta. simpl.
  destruct (size_of (ClassificationHistory.entries_ h) >=? _) eqn:Es; split; simpl; try done.
  - unfold size_of in *. rewrite length_app. destruct (ClassificationHistory.entries_ h); simpl in *; lia.
  - apply continues_snoc; [by apply continues_tail|]. intros a Ha. apply Hlast.
    by destruct (ClassificationHistory.entries_ h) as [|x [|y tl]].
  - unfold size_of in *. rewrite length_app. simpl in *. lia.
  - by apply continues_snoc.
Qed.

(** The transitions a history accepts, in order, are what its digest is computed from. *)
Definition record_all (trs : list ClassificationTransition.t) (h : ClassificationHistory.t)
    : ClassificationHistory.t :=
  foldl (fun h tr => fst (ClassificationHistory.record tr h)) h trs.

(** Those of [trs] that [record] accepts. *)
Fixpoint accepted (trs : list ClassificationTransition.t) (h : ClassificationHistory.t)
    : list ClassificationTransition.t :=
  match trs with
  | [] => []
  | tr :: trs =>
      let h' := fst (ClassificationHistory.record tr h) in
      if ok (ClassificationHistory.check tr h) then tr :: accepted trs h' else accepted trs h'
  end.

Lemma record_all_inv trs : forall h, history_inv h -> history_inv (record_all trs h).
Proof.
  induction trs as [|tr trs IH]; intros h Hh; [done|]. by apply IH, history_record_inv.
Qed.

Lemma record_digest tr h :
  ClassificationHistory.digest_ (fst (ClassificationHistory.record tr h)) =
    if ok (ClassificationHistory.check tr h)
    then ClassificationHistory.chain_digest (ClassificationHistory.digest_ h) tr
    else ClassificationHistory.digest_ h.
Proof.
  unfold ClassificationHistory.record.
  destruct (ClassificationHistory.check tr h); [|reflexivity]. cbv zeta.
  generalize (ClassificationHistory.chain_digest (ClassificationHistory.digest_ h) tr). intros d.
  destruct (_ >=? _); reflexivity.
Qed.

Lemma record_all_digest trs : forall h,
  ClassificationHistory.digest_ (record_all trs h) =
  foldl ClassificationHistory.chain_digest (ClassificationHistory.digest_ h) (accepted trs h).
Proof.
  induction trs as [|tr trs IH]; intros h; [done|]. cbn [accepted]. unfold record_all in *.
  cbn [foldl]. rewrite IH, record_digest. by destruct (ok _).
Qed.

(** One early return of [compare], and the guards that cause it. *)
Lemma verdict_guard (b : bool) (r k : BindingVerdict.t) :
  r <> BindingVerdict.Match ->
  (if b then r else k) = BindingVerdict.Match <-> b = false /\ k = BindingVerdict.Match.
Proof. destruct b; naive_solver. Qed.

Lemma bound_agrees (b : bool) (x y : Z) : b && negb (x =? y) = false <-> (b = true -> x = y).
Proof. destruct b, (Z.eqb_spec x y); simpl; naive_solver. Qed.

Lemma bound_ahead (b : bool) (x y : Z) : b && (x <? y) = false <-> (b = true -> y <= x).
Proof. destruct b, (Z.ltb_spec x y); simpl; split; try done; auto with lia; intros H; specialize (H eq_refl); lia. Qed.

Lemma record_all_max trs : forall h,
  ClassificationHistory.max_entries_ (record_all trs h) = ClassificationHistory.max_entries_ h.
Proof.
  unfold record_all. induction trs as [|tr trs IH]; intros h; [done|]. cbn [foldl]. rewrite IH.
  unfold ClassificationHistory.record. destruct (ClassificationHistory.check tr h); [|done].
  cbv zeta. generalize (ClassificationHistory.chain_digest (ClassificationHistory.digest_ h) tr).
  intros d. by destruct (_ >=? _).
Qed.

(** ** Properties *)

(** The verdict of [AuthorityVector::compare] is [Match] exactly when every
    identity and generation whose flag is bound agrees with the current one and the evidence
    sequence has not moved backwards; unbound fields are irrelevant. *)
Theorem compare_match_spec (v cur : AuthorityVector.t) :
  AuthorityVector.compare v cur = BindingVerdict.Match <->
  (AuthorityVector.binds v kAuthorityFlowBound = true ->
     AuthorityVector.flow cur = AuthorityVector.flow v /\
     AuthorityVector.flow_generation cur = AuthorityVector.flow_generation v) /\
  (AuthorityVector.binds v kAuthorityPathBound = true ->
     AuthorityVector.path cur = AuthorityVector.path v /\
     AuthorityVector.path_generation cur = AuthorityVector.path_generation v) /\
  (AuthorityVector.binds v kAuthorityCapacityBound = true ->
     AuthorityVector.capacity cur = AuthorityVector.capacity v /\
     AuthorityVector.capacity_generation cur = AuthorityVector.capacity_generation v) /\
  (AuthorityVector.binds v kAuthorityPolicyBound = true ->
     AuthorityVector.policy cur = AuthorityVector.policy v /\
     AuthorityVector.policy_generation cur = AuthorityVector.policy_generation v) /\
  (AuthorityVector.binds v kAuthorityWindowBound = true ->
     AuthorityVector.window_sequence v <= AuthorityVector.window_sequence cur) /\
  (AuthorityVector.binds v kAuthorityEpochBound = true ->
     AuthorityVector.epoch cur = AuthorityVector.epoch v) /\
  (AuthorityVector.binds v kAuthorityBootBound = true ->
     AuthorityVector.boot cur = AuthorityVector.boot v) /\
  (AuthorityVector.binds v kAuthorityPublisherBound = true ->
     AuthorityVector.publisher cur = AuthorityVector.publisher v /\
     AuthorityVector.publisher_boot cur = AuthorityVector.publisher_boot v).
Proof.
  unfold AuthorityVector.compare. rewrite !verdict_guard by done. rewrite !bound_agrees, bound_ahead.
  tauto.
Qed.

(** A classification history never exceeds its retention bound, its retained
    transitions form one chain in time order, and its digest is the fold of the digest step over
    every transition it ever accepted, folded ones included: two histories fed the same accepted
    transitions agree on it. *)
Theorem history_run_invariant (trs : list ClassificationTransition.t) (max_entries : Z) :
  0 <= max_entries ->
  let h := record_all trs (ClassificationHistory.make max_entries) in
  ClassificationHistory.size h <= Z.max 1 max_entries /\
  continues (ClassificationHistory.transitions h) /\
  ClassificationHistory.digest_ h =
    foldl ClassificationHistory.chain_digest 0 (accepted trs (ClassificationHistory.make max_entries)).
Proof.
  intros Hm h. destruct (record_all_inv trs _ (history_inv_make max_entries Hm)) as [Hb _ Hc].
  assert (Hmax : ClassificationHistory.max_entries_ h = Z.max 1 max_entries).
  { unfold h. rewrite record_all_max. simpl. destruct (Z.eqb_spec max_entries 0); lia. }
  split; [|split; [done|apply record_all_digest]].
  unfold ClassificationHistory.size. fold h in Hb. lia.
Qed.

Lemma history_run_invariant_witness :
  let trs := [ClassificationTransition.mk 5 ElephantState.Unknown ElephantState.NotElephant
                AuthorityLevel.None 0 1 1;
              ClassificationTransition.mk 9 ElephantState.NotElephant ElephantState.Elephant
                AuthorityLevel.Govern 0 2 2] in
  ClassificationHistory.size (record_all trs (ClassificationHistory.make 1)) <= 1.
Proof.
  intros trs. destruct (history_run_invariant trs 1 ltac:(lia)) as [H _]. exact H.
Defined.
