(* ===== verification/Intervention.v ===== *)
(** * Bounded governance intents ([include/efg/intervention.hpp], [src/intervention.cpp])

    The envelope of an intent and its narrowing to a ceiling, and the ledger that
    records intents idempotently by attempt and withdraws their authority. *)
From S2P Require Import Prelude Status Checked Tri Tick Hash Flow Policy Impact Classification OMap.

Definition kMaxIntents : Z := Z.shiftl 1 18.
Definition kMaxAttempts : Z := Z.shiftl 1 20.
Definition kMaxIntentListPerFlow : Z := 16.

Module IntentState.
Inductive t : Type :=
| Suppressed | Authorized | Clamped | Active | Revoked | Fenced | Expired | Completed.
#[global] Instance eq_dec : EqDecision t.
Proof. solve_decision. Defined.
Definition eqb (a b : t) : bool := bool_decide (a = b).
Definition to_u8 (s : t) : Z :=
  match s with
  | Suppressed => 0 | Authorized => 1 | Clamped => 2 | Active => 3
  | Revoked => 4 | Fenced => 5 | Expired => 6 | Completed => 7
  end.
End IntentState.

Definition is_live (s : IntentState.t) : bool :=
  IntentState.eqb s IntentState.Authorized || IntentState.eqb s IntentState.Clamped ||
  IntentState.eqb s IntentState.Active.

(** [SuppressReason] is a 32 bit flag value. *)
Module SuppressReason.
Definition None : Z := 0.
Definition ProtectedObligation : Z := Z.shiftl 1 0.
Definition NonPreemptibleObligation : Z := Z.shiftl 1 1.
Definition ReservationObligation : Z := Z.shiftl 1 2.
Definition PolicyForbids : Z := Z.shiftl 1 3.
Definition AuthorityStale : Z := Z.shiftl 1 4.
Definition NoAuthority : Z := Z.shiftl 1 5.
Definition ImpactBelowThreshold : Z := Z.shiftl 1 6.
Definition ContentionBelowThreshold : Z := Z.shiftl 1 7.
Definition BoundsExceeded : Z := Z.shiftl 1 8.
Definition FlowCompleted : Z := Z.shiftl 1 9.
Definition CapacityUnknown : Z := Z.shiftl 1 10.
Definition LedgerBudgetExhausted : Z := Z.shiftl 1 11.
Definition ShuttingDown : Z := Z.shiftl 1 12.
End SuppressReason.

Module IntentBounds.
Record t := mk {
  rate_reduction_bp : Z;
  duration_ticks : Z;
  targets : Z;
  placement : bool;
  isolation : bool;
  admission_reduction : bool;
  congestion_escalation : bool }.
#[global] Instance eta_t : Eta t := fun r =>
  mk (rate_reduction_bp r) (duration_ticks r) (targets r) (placement r) (isolation r)
     (admission_reduction r) (congestion_escalation r).
#[global] Instance eq_dec : EqDecision t.
Proof. solve_decision. Defined.
Definition default : t := mk 0 0 0 false false false false.
End IntentBounds.

Definition narrow_bounds (requested ceiling : IntentBounds.t) : IntentBounds.t :=
  IntentBounds.mk
    (if IntentBounds.rate_reduction_bp requested <? IntentBounds.rate_reduction_bp ceiling
     then IntentBounds.rate_reduction_bp requested else IntentBounds.rate_reduction_bp ceiling)
    (min_of (IntentBounds.duration_ticks requested) (IntentBounds.duration_ticks ceiling))
    (if IntentBounds.targets requested <? IntentBounds.targets ceiling
     then IntentBounds.targets requested else IntentBounds.targets ceiling)
    (IntentBounds.placement requested && IntentBounds.placement ceiling)
    (IntentBounds.isolation requested && IntentBounds.isolation ceiling)
    (IntentBounds.admission_reduction requested && IntentBounds.admission_reduction ceiling)
    (IntentBounds.congestion_escalation requested && IntentBounds.congestion_escalation ceiling).

Definition bounds_within (requested ceiling : IntentBounds.t) : bool :=
  bool_decide (narrow_bounds requested ceiling = requested).

Module GovernanceIntent.
Record t := mk {
  id : IntentId;
  attempt : AttemptId;
  kind : IntentKind.t;
  flow : FlowId;
  flow_generation : Generation;
  classification : ClassificationId;
  classification_generation : Generation;
  state : IntentState.t;
  suppressed : Z;
  requested : IntentBounds.t;
  granted : IntentBounds.t;
  severity : Z;
  contention_pressure : Z;
  competing_elephants : Z;
  window : TickSpan.t;
  authority : AuthorityVector.t;
  provenance : Provenance.t;
  digest : Z }.
#[global] Instance eta_t : Eta t := fun r =>
  mk (id r) (attempt r) (kind r) (flow r) (flow_generation r) (classification r)
     (classification_generation r) (state r) (suppressed r) (requested r) (granted r)
     (severity r) (contention_pressure r) (competing_elephants r) (window r) (authority r)
     (provenance r) (digest r).
#[global] Instance eq_dec : EqDecision t.
Proof. solve_decision. Defined.
Definition default : t :=
  mk 0 0 IntentKind.ObserveOnly 0 0 0 0 IntentState.Authorized SuppressReason.None
     IntentBounds.default IntentBounds.default 0 0 0 TickSpan.default AuthorityVector.default
     Provenance.default 0.

Definition live_at (i : t) (now : Tick) : bool :=
  is_live (state i) && (now >=? TickSpan.begin_ (window i)) && (now <? TickSpan.end_ (window i)).

Definition bounds_writes (b : IntentBounds.t) : list (Z -> Z) := [
  Hasher.write_u32 (IntentBounds.rate_reduction_bp b);
  Hasher.write_u64 (IntentBounds.duration_ticks b);
  Hasher.write_u32 (IntentBounds.targets b);
  Hasher.write_bool (IntentBounds.placement b);
  Hasher.write_bool (IntentBounds.isolation b);
  Hasher.write_bool (IntentBounds.admission_reduction b);
  Hasher.write_bool (IntentBounds.congestion_escalation b) ].

Definition compute_digest (i : t) : Z :=
  Hasher.digest_of ([
    Hasher.write_u64 (id i);
    Hasher.write_u64 (attempt i);
    Hasher.write_u8 (IntentKind.to_u8 (kind i));
    Hasher.write_u64 (flow i);
    Hasher.write_u64 (flow_generation i);
    Hasher.write_u64 (classification i);
    Hasher.write_u64 (classification_generation i);
    Hasher.write_u8 (IntentState.to_u8 (state i));
    Hasher.write_u32 (suppressed i) ] ++
    bounds_writes (requested i) ++ bounds_writes (granted i) ++ [
    Hasher.write_u32 (severity i);
    Hasher.write_u32 (contention_pressure i);
    Hasher.write_u32 (competing_elephants i);
    Hasher.write_u64 (TickSpan.begin_ (window i));
    Hasher.write_u64 (TickSpan.end_ (window i));
    Hasher.write_digest (AuthorityVector.digest (authority i)) ]).

(** [intent.digest = intent.compute_digest()]. *)
Definition seal (i : t) : t := i <| digest := compute_digest i |>.
End GovernanceIntent.

Module IntentLedger.
Record Counters := mkCounters {
  recorded : Z;
  duplicates : Z;
  conflicts : Z;
  revocations : Z;
  fences : Z;
  expirations : Z;
  completions : Z;
  rejected_budget : Z }.
#[global] Instance eta_counters : Eta Counters := fun r =>
  mkCounters (recorded r) (duplicates r) (conflicts r) (revocations r) (fences r)
    (expirations r) (completions r) (rejected_budget r).
Definition no_counts : Counters := mkCounters 0 0 0 0 0 0 0 0.

Record t := mk {
  max_intents : Z;
  max_attempts : Z;
  intents_ : omap_t IntentId GovernanceIntent.t;
  attempts_ : omap_t AttemptId IntentId;
  next_id_ : IntentId;
  counters_ : Counters }.
#[global] Instance eta_t : Eta t := fun r =>
  mk (max_intents r) (max_attempts r) (intents_ r) (attempts_ r) (next_id_ r) (counters_ r).
Definition make (max_intents max_attempts : Z) : t :=
  mk max_intents max_attempts [] [] 0 no_counts.
Definition default : t := make kMaxIntents kMaxAttempts.

Definition find (id : IntentId) (l : t) : option GovernanceIntent.t := OMap.find id (intents_ l).
Definition find_attempt (attempt : AttemptId) (l : t) : option GovernanceIntent.t :=
  id ← OMap.find attempt (attempts_ l); find id l.
Definition size (l : t) : Z := size_of (intents_ l).

Definition ensure_capacity : M t unit := fun l =>
  if (size_of (intents_ l) >=? max_intents l) || (size_of (attempts_ l) >=? max_attempts l)
  then (l <| counters_ ::= (fun c => c <| rejected_budget ::= inc64 |>) |>,
        Err StatusCode.CapacityExceeded)
  else (l, Val tt).

(** The field checks; every [IntentState] constructor is recognized. *)
Definition check_intent (i : GovernanceIntent.t) : Status :=
  refuse_if (negb (id_valid (GovernanceIntent.attempt i))) StatusCode.InvalidArgument ;;
  refuse_if (negb (id_valid (GovernanceIntent.flow i)) ||
             negb (id_valid (GovernanceIntent.flow_generation i))) StatusCode.InvalidArgument ;;
  refuse_if (TickSpan.end_ (GovernanceIntent.window i) <=? TickSpan.begin_ (GovernanceIntent.window i))
    StatusCode.InvalidArgument ;;
  refuse_if (IntentKind.to_u8 (GovernanceIntent.kind i) >=? IntentKind.to_u8 IntentKind.Count)
    StatusCode.InvalidArgument.

(** The identifier of a new intent, and the advanced identifier counter. *)
Definition assign_id (i : GovernanceIntent.t) (l : t) : StatusOr (IntentId * IntentId) :=
  let id := GovernanceIntent.id i in
  if negb (id_valid id) then
    if next_id_ l =? u64_max then Err StatusCode.Overflow
    else let next := wrap 64 (next_id_ l + 1) in Val (next, next)
  else if OMap.contains id (intents_ l) then Err StatusCode.AlreadyExists
  else if id >=? next_id_ l then
    if id =? u64_max then Err StatusCode.Overflow else Val (id, wrap 64 (id + 1))
  else Val (id, next_id_ l).

Definition record (i : GovernanceIntent.t) : M t GovernanceIntent.t := fun l =>
  match check_intent i with
  | Err c => (l, Err c)
  | Val _ =>
  match OMap.find (GovernanceIntent.attempt i) (attempts_ l) with
  | Some existing =>
      match find existing l with
      | None => (l, Err StatusCode.Internal)
      | Some stored =>
          let candidate :=
            GovernanceIntent.seal (i <| GovernanceIntent.id := GovernanceIntent.id stored |>) in
          if GovernanceIntent.compute_digest candidate =? GovernanceIntent.digest stored
          then (l <| counters_ ::= (fun c => c <| duplicates ::= inc64 |>) |>, Val stored)
          else (l <| counters_ ::= (fun c => c <| conflicts ::= inc64 |>) |>,
                Err StatusCode.Conflict)
      end
  | None =>
      match ensure_capacity l with
      | (l, Err c) => (l, Err c)
      | (l, Val _) =>
          match assign_id i l with
          | Err c => (l, Err c)
          | Val (id, next) =>
              let stored := GovernanceIntent.seal (i <| GovernanceIntent.id := id |>) in
              (l <| next_id_ := next |>
                 <| attempts_ ::= OMap.set (GovernanceIntent.attempt stored) id |>
                 <| intents_ ::= OMap.set id stored |>
                 <| counters_ ::= (fun c => c <| recorded ::= inc64 |>) |>, Val stored)
          end
      end
  end end.

(** The [switch (state)] that counts a withdrawal. *)
Definition count_state (state : IntentState.t) (c : Counters) : Counters :=
  match state with
  | IntentState.Revoked => c <| revocations ::= inc64 |>
  | IntentState.Fenced => c <| fences ::= inc64 |>
  | IntentState.Expired => c <| expirations ::= inc64 |>
  | IntentState.Completed => c <| completions ::= inc64 |>
  | _ => c
  end.

Definition transition (id : IntentId) (state : IntentState.t) (reason now : Z) : M t unit := fun l =>
  match find id l with
  | None => (l, Err StatusCode.NotFound)
  | Some intent =>
      if IntentState.eqb (GovernanceIntent.state intent) state &&
         (GovernanceIntent.suppressed intent =? reason)
      then (l, Val tt)
      else
        let intent := intent <| GovernanceIntent.state := state |>
                             <| GovernanceIntent.suppressed := reason |> in
        let intent :=
          if negb (is_live state) && (now >? TickSpan.end_ (GovernanceIntent.window intent))
          then intent <| GovernanceIntent.window ::= (fun w => w <| TickSpan.end_ := now |>) |>
          else intent in
        (l <| counters_ ::= count_state state |>
           <| intents_ ::= OMap.set id (GovernanceIntent.seal intent) |>, Val tt)
  end.

(** One pass over the ledger: every live intent [selects] picks is changed and resealed.
    The number of intents changed is the [u64&] result of the bulk operations. *)
Definition sweep (selects : GovernanceIntent.t -> bool)
    (change : GovernanceIntent.t -> GovernanceIntent.t) (bump : Counters -> Counters) (l : t) : t * Z :=
  let hit i := is_live (GovernanceIntent.state i) && selects i in
  let n := length (base.filter (fun e => hit e.2 = true) (intents_ l)) in
  (l <| intents_ ::= fmap (fun e =>
        (e.1, if hit e.2 then GovernanceIntent.seal (change e.2) else e.2)) |>
     <| counters_ ::= Nat.iter n bump |>, Z.of_nat n).

Definition set_state (state : IntentState.t) (i : GovernanceIntent.t) : GovernanceIntent.t :=
  i <| GovernanceIntent.state := state |>.
Definition set_state_reason (state : IntentState.t) (reason : Z) (i : GovernanceIntent.t)
    : GovernanceIntent.t :=
  i <| GovernanceIntent.state := state |> <| GovernanceIntent.suppressed := reason |>.

Definition of_flow (flow : FlowId) (generation : Generation) (i : GovernanceIntent.t) : bool :=
  (GovernanceIntent.flow i =? flow) && (GovernanceIntent.flow_generation i =? generation).

Definition transition_flow_terminal (flow : FlowId) (generation : Generation)
    (state : IntentState.t) (now : Tick) (l : t) : t * Z :=
  sweep (of_flow flow generation) (set_state state) (count_state state) l.

Definition revoke_flow (flow : FlowId) (generation : Generation) (now : Tick) (l : t) : t * Z :=
  transition_flow_terminal flow generation IntentState.Revoked now l.

Definition fence_other_generations (flow : FlowId) (keep : Generation) (now : Tick) (l : t) : t * Z :=
  sweep (fun i => (GovernanceIntent.flow i =? flow) &&
                  negb (GovernanceIntent.flow_generation i =? keep))
    (set_state_reason IntentState.Fenced SuppressReason.AuthorityStale)
    (count_state IntentState.Fenced) l.

Definition fence_epoch (current_epoch : EpochId) (now : Tick) (l : t) : t * Z :=
  sweep (fun i => negb (AuthorityVector.epoch (GovernanceIntent.authority i) =? current_epoch))
    (set_state_reason IntentState.Fenced SuppressReason.AuthorityStale)
    (count_state IntentState.Fenced) l.

Definition fence_boot (current_boot : BootId) (now : Tick) (l : t) : t * Z :=
  sweep (fun i => negb (AuthorityVector.boot (GovernanceIntent.authority i) =? current_boot))
    (set_state_reason IntentState.Fenced SuppressReason.AuthorityStale)
    (count_state IntentState.Fenced) l.

Definition revoke_all (now : Tick) (state : IntentState.t) (reason : Z) (l : t) : t * Z :=
  sweep (fun _ => true) (set_state_reason state reason) (count_state state) l.

Definition revoke_stale_generation (flow : FlowId) (generation keep : Generation) (now : Tick)
    (l : t) : t * Z :=
  sweep (fun i => of_flow flow generation i &&
                  negb (GovernanceIntent.classification_generation i =? keep))
    (set_state_reason IntentState.Revoked SuppressReason.AuthorityStale)
    (count_state IntentState.Revoked) l.

Definition expire (now : Tick) (l : t) : t * Z :=
  sweep (fun i => negb (now <? TickSpan.end_ (GovernanceIntent.window i)))
    (set_state IntentState.Expired) (count_state IntentState.Expired) l.

Definition all_intents (l : t) : list GovernanceIntent.t := (intents_ l).*2.
Definition for_flow (flow : FlowId) (generation : Generation) (l : t) : list GovernanceIntent.t :=
  take (Z.to_nat kMaxIntentListPerFlow)
    (base.filter (fun i => of_flow flow generation i = true) (all_intents l)).
Definition live_intents (l : t) : list GovernanceIntent.t :=
  base.filter (fun i => is_live (GovernanceIntent.state i) = true) (all_intents l).
Definition live_count (l : t) : Z := size_of (live_intents l).

(** [next_id_] is not reset. *)
Definition clear (l : t) : t :=
  l <| intents_ := [] |> <| attempts_ := [] |> <| counters_ := no_counts |>.
End IntentLedger.
