(* ===== verification/InterventionFacts.v ===== *)
(** * What the intent ledger guarantees *)
From S2P Require Import Prelude Status Checked Tri Tick Hash Flow Policy Impact Classification OMap Intervention.

(** The digest of an intent does not cover its digest member. *)
Lemma compute_digest_seal i :
  GovernanceIntent.compute_digest (GovernanceIntent.seal i) = GovernanceIntent.compute_digest i.
Proof. unfold GovernanceIntent.compute_digest, GovernanceIntent.seal. reflexivity. Qed.
#[local] Opaque GovernanceIntent.compute_digest Hasher.digest_of.

(** ** Envelopes *)

Record bounds_le (a b : IntentBounds.t) : Prop := {
  bl_rate : IntentBounds.rate_reduction_bp a <= IntentBounds.rate_reduction_bp b;
  bl_duration : IntentBounds.duration_ticks a <= IntentBounds.duration_ticks b;
  bl_targets : IntentBounds.targets a <= IntentBounds.targets b;
  bl_placement : Is_true (IntentBounds.placement a) -> Is_true (IntentBounds.placement b);
  bl_isolation : Is_true (IntentBounds.isolation a) -> Is_true (IntentBounds.isolation b);
  bl_admission : Is_true (IntentBounds.admission_reduction a) ->
                 Is_true (IntentBounds.admission_reduction b);
  bl_congestion : Is_true (IntentBounds.congestion_escalation a) ->
                  Is_true (IntentBounds.congestion_escalation b) }.

#[global] Instance bounds_le_preorder : PreOrder bounds_le.
Proof.
  split; [by intros a; split|]. intros a b c [] []. split; auto; lia.
Qed.

Lemma narrow_le_ceiling r c : bounds_le (narrow_bounds r c) c.
Proof.
  unfold narrow_bounds. rewrite min_of_min.
  split; simpl; try (split_ifs; lia); intros H%andb_True; tauto.
Qed.

Lemma narrow_le_requested r c : bounds_le (narrow_bounds r c) r.
Proof.
  unfold narrow_bounds. rewrite min_of_min.
  split; simpl; try (split_ifs; lia); intros H%andb_True; tauto.
Qed.

Lemma narrow_greatest b r c : bounds_le b r -> bounds_le b c -> bounds_le b (narrow_bounds r c).
Proof.
  intros [] []. unfold narrow_bounds. rewrite min_of_min.
  split; simpl; try (split_ifs; lia); intros ?; apply andb_True; auto.
Qed.

Lemma bounds_le_antisym a b : bounds_le a b -> bounds_le b a -> a = b.
Proof.
  destruct a as [? ? ? [] [] [] []], b as [? ? ? [] [] [] []];
    intros [] []; simpl in *; try tauto; f_equal; lia.
Qed.

Lemma bounds_within_spec r c : bounds_within r c = true <-> bounds_le r c.
Proof.
  unfold bounds_within. rewrite bool_decide_eq_true. split.
  - intros <-. apply narrow_le_ceiling.
  - intros H. apply bounds_le_antisym; [apply narrow_le_requested|by apply narrow_greatest].
Qed.

(** ** The ledger invariant *)

Definition entry_ok (l : IntentLedger.t) (k : IntentId) (i : GovernanceIntent.t) : Prop :=
  GovernanceIntent.id i = k /\ 0 < k <= IntentLedger.next_id_ l /\
  GovernanceIntent.digest i = GovernanceIntent.compute_digest i /\
  TickSpan.begin_ (GovernanceIntent.window i) < TickSpan.end_ (GovernanceIntent.window i) /\
  OMap.find (GovernanceIntent.attempt i) (IntentLedger.attempts_ l) = Some k.

Lemma entry_ok_seal l k i :
  GovernanceIntent.id i = k -> 0 < k <= IntentLedger.next_id_ l ->
  TickSpan.begin_ (GovernanceIntent.window i) < TickSpan.end_ (GovernanceIntent.window i) ->
  OMap.find (GovernanceIntent.attempt i) (IntentLedger.attempts_ l) = Some k ->
  entry_ok l k (GovernanceIntent.seal i).
Proof.
  intros H1 H2 H3 H4. split; [exact H1|]. split; [exact H2|].
  split; [symmetry; apply compute_digest_seal|]. split; [exact H3|exact H4].
Qed.

Record intents_inv (l : IntentLedger.t) : Prop := {
  ii_sorted : OMap.sorted (IntentLedger.intents_ l);
  ii_attempts_sorted : OMap.sorted (IntentLedger.attempts_ l);
  ii_entries : forall k i, IntentLedger.find k l = Some i -> entry_ok l k i;
  ii_attempts : forall a k, OMap.find a (IntentLedger.attempts_ l) = Some k ->
    exists i, IntentLedger.find k l = Some i /\ GovernanceIntent.attempt i = a;
  ii_next : u64_ok (IntentLedger.next_id_ l);
  ii_size : size_of (IntentLedger.intents_ l) <= Z.max 0 (IntentLedger.max_intents l);
  ii_attempts_size : size_of (IntentLedger.attempts_ l) <= Z.max 0 (IntentLedger.max_attempts l) }.

Lemma intents_inv_make n m : intents_inv (IntentLedger.make n m).
Proof.
  split; simpl; try done; try (unfold OMap.sorted; constructor); try ulia; unfold size_of; simpl; lia.
Qed.

(** *** The bulk passes *)

Section sweep.
Context (selects : GovernanceIntent.t -> bool) (change : GovernanceIntent.t -> GovernanceIntent.t).
Context (bump : IntentLedger.Counters -> IntentLedger.Counters).

(** A change that a pass may make: the authority is withdrawn, nothing else moves. *)
Definition withdraws : Prop := forall i,
  is_live (GovernanceIntent.state (change i)) = false /\
  GovernanceIntent.id (change i) = GovernanceIntent.id i /\
  GovernanceIntent.attempt (change i) = GovernanceIntent.attempt i /\
  GovernanceIntent.window (change i) = GovernanceIntent.window i /\
  GovernanceIntent.granted (change i) = GovernanceIntent.granted i.

Definition pass (i : GovernanceIntent.t) : GovernanceIntent.t :=
  if is_live (GovernanceIntent.state i) && selects i then GovernanceIntent.seal (change i) else i.

Lemma sweep_find k l :
  IntentLedger.find k (fst (IntentLedger.sweep selects change bump l)) =
  pass <$> IntentLedger.find k l.
Proof.
  unfold IntentLedger.find, IntentLedger.sweep. simpl.
  induction (IntentLedger.intents_ l) as [|[k' i] m IH]; [done|]. cbn [fmap list_fmap OMap.find fst].
  destruct (OMap.key_eqb k k'); [done|]. apply IH.
Qed.

Lemma sorted_fmap_fst {V W} (f : Z * V -> Z * W) (m : omap_t Z V) :
  (forall e, (f e).1 = e.1) -> OMap.sorted m -> OMap.sorted (f <$> m).
Proof.
  intros Hf. unfold OMap.sorted. induction 1 as [|e m Hs IH Hall]; [constructor|].
  cbn. constructor; [done|]. apply Forall_fmap. eapply Forall_impl; [exact Hall|].
  intros e' He. simpl. by rewrite !Hf.
Qed.

Lemma pass_frame i : withdraws ->
  GovernanceIntent.id (pass i) = GovernanceIntent.id i /\
  GovernanceIntent.attempt (pass i) = GovernanceIntent.attempt i /\
  GovernanceIntent.window (pass i) = GovernanceIntent.window i /\
  (GovernanceIntent.digest i = GovernanceIntent.compute_digest i ->
   GovernanceIntent.digest (pass i) = GovernanceIntent.compute_digest (pass i)).
Proof.
  intros Hw. destruct (Hw i) as (_ & Hi & Ha & Hn & _). unfold pass.
  destruct (_ && _); [|done]. rewrite compute_digest_seal. by split_and!.
Qed.

Lemma sweep_inv l :
  withdraws -> intents_inv l -> intents_inv (fst (IntentLedger.sweep selects change bump l)).
Proof.
  intros Hw [Hs Has He Ha Hn Hz Haz]. split.
  - simpl. apply sorted_fmap_fst; [done|exact Hs].
  - exact Has.
  - intros k i. rewrite sweep_find. intros (i0 & Hf & ->)%fmap_Some.
    destruct (He k i0 Hf) as (E1 & E2 & E3 & E4 & E5).
    destruct (pass_frame i0 Hw) as (F1 & F2 & F3 & F4).
    unfold entry_ok. rewrite F1, F2, F3. split_and!; auto; apply E2.
  - intros a k Hak. destruct (Ha a k Hak) as (i & Hf & Hi).
    exists (pass i). rewrite sweep_find, Hf. split; [done|].
    by rewrite (proj1 (proj2 (pass_frame i Hw))).
  - exact Hn.
  - simpl. unfold size_of in *. by rewrite length_fmap.
  - exact Haz.
Qed.

(** What is live after a pass was live before it, is unchanged, and was not selected. *)
Lemma sweep_live k i l :
  withdraws ->
  IntentLedger.find k (fst (IntentLedger.sweep selects change bump l)) = Some i ->
  is_live (GovernanceIntent.state i) = true ->
  IntentLedger.find k l = Some i /\ selects i = false.
Proof.
  intros Hw. rewrite sweep_find. intros (i0 & Hf & ->)%fmap_Some. unfold pass.
  destruct (is_live (GovernanceIntent.state i0)) eqn:El; simpl; [|congruence].
  destruct (selects i0) eqn:Es; [|done]. intros Hl. exfalso.
  destruct (Hw i0) as [Hdead _]. simpl in Hl. congruence.
Qed.
End sweep.

Lemma withdraws_set_state s : is_live s = false -> withdraws (IntentLedger.set_state s).
Proof. intros Hs i. by split_and!. Qed.

Lemma withdraws_set_state_reason s r : is_live s = false -> withdraws (IntentLedger.set_state_reason s r).
Proof. intros Hs i. by split_and!. Qed.
#[export] Hint Resolve withdraws_set_state withdraws_set_state_reason : efg.

(** *** Recording and single transitions *)

Lemma check_intent_facts i :
  IntentLedger.check_intent i = Val tt ->
  TickSpan.begin_ (GovernanceIntent.window i) < TickSpan.end_ (GovernanceIntent.window i) /\
  GovernanceIntent.attempt i <> 0.
Proof.
  intros H. unfold IntentLedger.check_intent in H. inv_status H. unfold id_valid in *. boolify. lia.
Qed.

Lemma find_None_contains {V} k (m : omap_t Z V) : OMap.contains k m = false -> OMap.find k m = None.
Proof. unfold OMap.contains. by destruct (OMap.find k m). Qed.

Lemma assign_id_fresh i l id next :
  intents_inv l -> u64_ok (GovernanceIntent.id i) ->
  IntentLedger.assign_id i l = Val (id, next) ->
  IntentLedger.find id l = None /\ 0 < id <= next /\ IntentLedger.next_id_ l <= next /\ u64_ok next.
Proof.
  intros Hinv Hid. unfold IntentLedger.assign_id, id_valid. cbv zeta.
  pose proof (ii_next l Hinv) as Hn.
  assert (Hfresh : forall k, IntentLedger.next_id_ l < k -> IntentLedger.find k l = None).
  { intros k Hk. destruct (IntentLedger.find k l) as [x|] eqn:E; [|done].
    destruct (ii_entries l Hinv k x E) as (_ & ? & _). lia. }
  destruct (Z.eqb_spec (GovernanceIntent.id i) 0); cbn [negb].
  - destruct (Z.eqb_spec (IntentLedger.next_id_ l) u64_max); [done|].
    intros [= <- <-]. rewrite wrap_small by ulia. split; [apply Hfresh; lia|ulia].
  - destruct (OMap.contains _ _) eqn:Ec; [done|]. apply find_None_contains in Ec.
    destruct (_ >=? _) eqn:Eg.
    + destruct (Z.eqb_spec (GovernanceIntent.id i) u64_max); [done|].
      intros [= <- <-]. rewrite wrap_small by ulia. split; [done|ulia].
    + intros [= <- <-]. split; [done|]. ulia.
Qed.

(** Outcomes of [record]. *)
Inductive record_spec (i : GovernanceIntent.t) (l : IntentLedger.t)
    : IntentLedger.t * StatusOr GovernanceIntent.t -> Prop :=
| RecordRefused c cs :
    record_spec i l (l <| IntentLedger.counters_ := cs |>, Err c)
| RecordDuplicate k stored cs :
    OMap.find (GovernanceIntent.attempt i) (IntentLedger.attempts_ l) = Some k ->
    IntentLedger.find k l = Some stored ->
    GovernanceIntent.compute_digest (i <| GovernanceIntent.id := GovernanceIntent.id stored |>) =
      GovernanceIntent.digest stored ->
    record_spec i l (l <| IntentLedger.counters_ := cs |>, Val stored)
| RecordNew id next cs :
    IntentLedger.check_intent i = Val tt ->
    OMap.find (GovernanceIntent.attempt i) (IntentLedger.attempts_ l) = None ->
    size_of (IntentLedger.intents_ l) < IntentLedger.max_intents l ->
    size_of (IntentLedger.attempts_ l) < IntentLedger.max_attempts l ->
    IntentLedger.assign_id i l = Val (id, next) ->
    let stored := GovernanceIntent.seal (i <| GovernanceIntent.id := id |>) in
    record_spec i l
      (l <| IntentLedger.next_id_ := next |>
         <| IntentLedger.attempts_ ::= OMap.set (GovernanceIntent.attempt i) id |>
         <| IntentLedger.intents_ ::= OMap.set id stored |>
         <| IntentLedger.counters_ := cs |>, Val stored).

Lemma same_counters l : l = l <| IntentLedger.counters_ := IntentLedger.counters_ l |>.
Proof. by destruct l. Qed.

Lemma record_cases i l : record_spec i l (IntentLedger.record i l).
Proof.
  unfold IntentLedger.record, IntentLedger.ensure_capacity.
  destruct (IntentLedger.check_intent i) as [[]|c] eqn:Ec;
    [|rewrite (same_counters l) at 2; constructor].
  destruct (OMap.find (GovernanceIntent.attempt i) _) as [k|] eqn:Ea.
  - destruct (IntentLedger.find k l) as [stored|] eqn:Ef;
      [|rewrite (same_counters l) at 2; constructor]. cbv zeta.
    rewrite compute_digest_seal. destruct (Z.eqb_spec (GovernanceIntent.compute_digest
      (i <| GovernanceIntent.id := GovernanceIntent.id stored |>)) (GovernanceIntent.digest stored)).
    + by apply (RecordDuplicate i l k stored).
    + apply RecordRefused.
  - destruct (_ || _) eqn:Ez; [apply RecordRefused|]. boolify.
    destruct (IntentLedger.assign_id i l) as [[id next]|c] eqn:Ei;
      [|rewrite (same_counters l) at 2; constructor].
    apply (RecordNew i l id next); try done; lia.
Qed.

Lemma entry_ok_counters l cs k i : entry_ok l k i -> entry_ok (l <| IntentLedger.counters_ := cs |>) k i.
Proof. done. Qed.

Lemma intents_inv_counters l cs : intents_inv l -> intents_inv (l <| IntentLedger.counters_ := cs |>).
Proof. intros []. by split. Qed.

Lemma record_new_inv l i id next cs :
  intents_inv l -> u64_ok (GovernanceIntent.id i) ->
  IntentLedger.check_intent i = Val tt ->
  OMap.find (GovernanceIntent.attempt i) (IntentLedger.attempts_ l) = None ->
  size_of (IntentLedger.intents_ l) < IntentLedger.max_intents l ->
  size_of (IntentLedger.attempts_ l) < IntentLedger.max_attempts l ->
  IntentLedger.assign_id i l = Val (id, next) ->
  intents_inv (l <| IntentLedger.next_id_ := next |>
         <| IntentLedger.attempts_ ::= OMap.set (GovernanceIntent.attempt i) id |>
         <| IntentLedger.intents_ ::= OMap.set id (GovernanceIntent.seal (i <| GovernanceIntent.id := id |>)) |>
         <| IntentLedger.counters_ := cs |>).
Proof.
  intros Hinv Hid Hc Ha Hs1 Hs2 Hassign.
  destruct (assign_id_fresh i l id next Hinv Hid Hassign) as (Hfree & Hpos & Hmono & Hnext).
  destruct (check_intent_facts i Hc) as [Hwin _].
  destruct Hinv as [Hs Has He Hat Hn Hz Haz]. split.
  - simpl. by apply sorted_set.
  - simpl. by apply sorted_set.
  - intros k x. unfold IntentLedger.find. simpl. rewrite find_set.
    destruct (OMap.key_eqb id k) eqn:Ek.
    + apply key_eqb_eq in Ek as <-. intros [= <-].
      apply entry_ok_seal; simpl; [done|done|done|apply find_set_eq].
    + intros Hx. destruct (He k x Hx) as (E1 & E2 & E3 & E4 & E5).
      unfold entry_ok. simpl. rewrite find_set_ne by congruence. split_and!; try done; lia.
  - intros a k. unfold IntentLedger.find. simpl. rewrite find_set.
    destruct (OMap.key_eqb (GovernanceIntent.attempt i) a) eqn:Ea.
    + apply key_eqb_eq in Ea as <-. intros [= <-]. rewrite find_set_eq. eexists. by split.
    + intros Hak. destruct (Hat a k Hak) as (x & Hx & Hxa). exists x. split; [|done].
      rewrite find_set_ne; [done|]. intros ->. unfold IntentLedger.find in *. congruence.
  - done.
  - simpl. pose proof (size_set id (GovernanceIntent.seal (i <| GovernanceIntent.id := id |>))
      (IntentLedger.intents_ l)). lia.
  - simpl. pose proof (size_set (GovernanceIntent.attempt i) id (IntentLedger.attempts_ l)). lia.
Qed.

Lemma record_inv i l :
  intents_inv l -> u64_ok (GovernanceIntent.id i) -> intents_inv (fst (IntentLedger.record i l)).
Proof.
  intros Hinv Hid. destruct (record_cases i l); simpl.
  - by apply intents_inv_counters.
  - by apply intents_inv_counters.
  - by apply record_new_inv.
Qed.

Lemma transition_inv id s r now l :
  intents_inv l -> intents_inv (fst (IntentLedger.transition id s r now l)).
Proof.
  intros Hinv. unfold IntentLedger.transition.
  destruct (IntentLedger.find id l) as [i|] eqn:Ef; [|done].
  destruct (_ && _); [done|]. cbv zeta.
  match goal with |- context [GovernanceIntent.seal ?x] => set (i' := x) end.
  destruct (ii_entries l Hinv id i Ef) as (E1 & E2 & E3 & E4 & E5).
  assert (Hi' : GovernanceIntent.id i' = id /\ GovernanceIntent.attempt i' = GovernanceIntent.attempt i /\
    TickSpan.begin_ (GovernanceIntent.window i') < TickSpan.end_ (GovernanceIntent.window i')).
  { unfold i'. destruct (negb _ && _) eqn:Eb; simpl; [|done]. boolify. simpl in *. split_and!; try done. lia. }
  destruct Hi' as (H1 & H2 & H3). clearbody i'.
  destruct Hinv as [Hs Has He Hat Hn Hz Haz]. split; simpl; try done.
  - by apply sorted_set.
  - intros k x. unfold IntentLedger.find. simpl. rewrite find_set.
    destruct (OMap.key_eqb id k) eqn:Ek; [|intros Hx; by apply He].
    apply key_eqb_eq in Ek as <-. intros [= <-]. apply entry_ok_seal; simpl; [done..|].
    by rewrite H2.
  - intros a k Hak. destruct (Hat a k Hak) as (x & Hx & Hxa). unfold IntentLedger.find. simpl.
    rewrite find_set. destruct (OMap.key_eqb id k) eqn:Ek; [|by exists x].
    apply key_eqb_eq in Ek as <-. eexists. split; [done|]. simpl. congruence.
  - rewrite (size_set_found _ _ i); done.
Qed.

(** ** Sequences of ledger operations *)

Inductive intent_op : Type :=
| OpRecord (i : GovernanceIntent.t)
| OpTransition (id : IntentId) (s : IntentState.t) (reason now : Z)
| OpRevokeFlow (flow : FlowId) (generation : Generation) (now : Tick)
| OpFenceGenerations (flow : FlowId) (keep : Generation) (now : Tick)
| OpFenceEpoch (epoch : EpochId) (now : Tick)
| OpFenceBoot (boot : BootId) (now : Tick)
| OpRevokeAll (now : Tick) (reason : Z)
| OpRevokeStale (flow : FlowId) (generation keep : Generation) (now : Tick)
| OpExpire (now : Tick)
| OpCompleteFlow (flow : FlowId) (generation : Generation) (now : Tick)
| OpClearIntents.

Definition intent_apply (op : intent_op) (l : IntentLedger.t) : IntentLedger.t :=
  match op with
  | OpRecord i => fst (IntentLedger.record i l)
  | OpTransition id s reason now => fst (IntentLedger.transition id s reason now l)
  | OpRevokeFlow f g now => fst (IntentLedger.revoke_flow f g now l)
  | OpFenceGenerations f keep now => fst (IntentLedger.fence_other_generations f keep now l)
  | OpFenceEpoch e now => fst (IntentLedger.fence_epoch e now l)
  | OpFenceBoot b now => fst (IntentLedger.fence_boot b now l)
  | OpRevokeAll now reason => fst (IntentLedger.revoke_all now IntentState.Revoked reason l)
  | OpRevokeStale f g keep now => fst (IntentLedger.revoke_stale_generation f g keep now l)
  | OpExpire now => fst (IntentLedger.expire now l)
  | OpCompleteFlow f g now =>
      fst (IntentLedger.transition_flow_terminal f g IntentState.Completed now l)
  | OpClearIntents => IntentLedger.clear l
  end.

Definition intent_op_ok (op : intent_op) : Prop :=
  match op with OpRecord i => u64_ok (GovernanceIntent.id i) | _ => True end.

Definition intent_run (ops : list intent_op) (l : IntentLedger.t) : IntentLedger.t :=
  foldl (fun l op => intent_apply op l) l ops.

Lemma intents_inv_clear l : intents_inv l -> intents_inv (IntentLedger.clear l).
Proof.
  intros []. split; simpl; try done; try (unfold OMap.sorted; constructor); unfold size_of; simpl; lia.
Qed.

Lemma intent_apply_inv op l : intent_op_ok op -> intents_inv l -> intents_inv (intent_apply op l).
Proof.
  intros Hop Hinv. destruct op; cbn [intent_apply];
    try (apply sweep_inv; [by auto with efg|exact Hinv]).
  - by apply record_inv.
  - by apply transition_inv.
  - by apply intents_inv_clear.
Qed.

Lemma intent_run_inv ops : forall l,
  Forall intent_op_ok ops -> intents_inv l -> intents_inv (intent_run ops l).
Proof.
  induction ops as [|op ops IH]; intros l Hops Hl; [done|]. inversion_clear Hops.
  apply IH; [done|]. by apply intent_apply_inv.
Qed.

Definition demo_intent (attempt : Z) : GovernanceIntent.t :=
  GovernanceIntent.default
    <| GovernanceIntent.attempt := attempt |>
    <| GovernanceIntent.flow := 7 |>
    <| GovernanceIntent.flow_generation := 1 |>
    <| GovernanceIntent.kind := IntentKind.RequestRateShaping |>
    <| GovernanceIntent.window := TickSpan.mk 100 200 |>.

Definition demo_intents : IntentLedger.t :=
  intent_run [OpRecord (demo_intent 1); OpRecord (demo_intent 2)] (IntentLedger.make 8 8).

(** ** Properties *)

(** [narrow_bounds] is the greatest envelope below both the request and the
    ceiling: it never widens, it never gives less than both allow, and [bounds_within] holds
    exactly when narrowing would change nothing. *)
Theorem narrow_bounds_greatest (requested ceiling b : IntentBounds.t) :
  (bounds_le b (narrow_bounds requested ceiling) <-> bounds_le b requested /\ bounds_le b ceiling) /\
  (bounds_within requested ceiling = true <-> bounds_le requested ceiling).
Proof.
  split; [|apply bounds_within_spec]. split.
  - intros H. split; (etrans; [exact H|]); [apply narrow_le_requested|apply narrow_le_ceiling].
  - intros [H1 H2]. by apply narrow_greatest.
Qed.

(** C35: Whatever sequence of records, transitions, revocations, fences and expiries
    runs, the ledger stays consistent: intents are filed under their own identifier, identifiers
    are never reused, every stored digest is the digest of the stored content, windows are not
    empty, the attempt index and the intents agree one to one, and both stay within budget. *)
Theorem intent_ledger_invariant (ops : list intent_op) (max_intents max_attempts : Z) :
  Forall intent_op_ok ops ->
  intents_inv (intent_run ops (IntentLedger.make max_intents max_attempts)).
Proof. intros Hops. apply intent_run_inv; [done|apply intents_inv_make]. Qed.

Lemma intent_ledger_invariant_witness : intents_inv demo_intents.
Proof.
  apply (intent_ledger_invariant [OpRecord (demo_intent 1); OpRecord (demo_intent 2)] 8 8).
  constructor; [|constructor; [|constructor]]; unfold intent_op_ok, in_range; simpl; lia.
Defined.

(** A newly accepted attempt is stored under a fresh identifier, and recording
    the same attempt again returns the stored intent and changes nothing but the duplicate
    counter. *)
Theorem record_idempotent (i stored : GovernanceIntent.t) (l l' : IntentLedger.t) :
  intents_inv l -> u64_ok (GovernanceIntent.id i) ->
  OMap.find (GovernanceIntent.attempt i) (IntentLedger.attempts_ l) = None ->
  IntentLedger.record i l = (l', Val stored) ->
  IntentLedger.find (GovernanceIntent.id stored) l = None /\
  IntentLedger.find (GovernanceIntent.id stored) l' = Some stored /\
  exists cs, IntentLedger.record i l' = (l' <| IntentLedger.counters_ := cs |>, Val stored).
Proof.
  intros Hinv Hid Hnew Hrec. pose proof (record_cases i l) as Hs. rewrite Hrec in Hs.
  inversion Hs as [|k s cs Hk| id next cs Hc Ha Hz1 Hz2 Hassign]; subst; [congruence|].
  pose proof (assign_id_fresh i l id next Hinv Hid Hassign) as (Hfree & _).
  split; [exact Hfree|]. split; [apply find_set_eq|]. clear Hs Hrec.
  unfold IntentLedger.record. rewrite Hc. cbn [IntentLedger.attempts_ update].
  rewrite find_set_eq. unfold IntentLedger.find at 1. cbn [IntentLedger.intents_ update].
  rewrite find_set_eq. cbv zeta. rewrite compute_digest_seal.
  cbn [GovernanceIntent.digest GovernanceIntent.id GovernanceIntent.seal update].
  rewrite Z.eqb_refl. eexists. reflexivity.
Qed.

Lemma record_idempotent_witness :
  exists l' stored cs,
    IntentLedger.record (demo_intent 1) (IntentLedger.make 8 8) = (l', Val stored) /\
    IntentLedger.record (demo_intent 1) l' = (l' <| IntentLedger.counters_ := cs |>, Val stored).
Proof.
  destruct (IntentLedger.record (demo_intent 1) (IntentLedger.make 8 8)) as [l' [stored|c]] eqn:E;
    [|exfalso; vm_compute in E; discriminate E].
  destruct (record_idempotent (demo_intent 1) stored (IntentLedger.make 8 8) l')
    as (_ & _ & cs & H).
  - apply intents_inv_make.
  - unfold in_range. simpl. lia.
  - reflexivity.
  - exact E.
  - exists l', stored, cs. split; [reflexivity|exact H].
Defined.

(** Re-recording is not idempotent once the stored intent has moved on: after a
    transition the same attempt with the same content is refused as a conflict. *)
Theorem record_conflicts_after_transition :
  let l := fst (IntentLedger.record (demo_intent 1) (IntentLedger.make 8 8)) in
  let l' := fst (IntentLedger.transition 1 IntentState.Active SuppressReason.None 110 l) in
  ok (snd (IntentLedger.record (demo_intent 1) l)) = true /\
  snd (IntentLedger.record (demo_intent 1) l') = Err StatusCode.Conflict.
Proof. vm_compute. done. Qed.

(** The bulk passes only withdraw authority, and withdraw all of it: an intent
    that is live after a pass was live before with the same content, and after fencing an epoch or
    a boot, expiring, or revoking everything, no live intent is left that belongs to another epoch
    or boot, is past its window, or at all. *)
Theorem bulk_passes_withdraw (l : IntentLedger.t) (now epoch boot reason : Z) (state : IntentState.t)
    (k : IntentId) (i : GovernanceIntent.t) :
  is_live (GovernanceIntent.state i) = true -> is_live state = false ->
  (IntentLedger.find k (fst (IntentLedger.fence_epoch epoch now l)) = Some i ->
     IntentLedger.find k l = Some i /\ AuthorityVector.epoch (GovernanceIntent.authority i) = epoch) /\
  (IntentLedger.find k (fst (IntentLedger.fence_boot boot now l)) = Some i ->
     IntentLedger.find k l = Some i /\ AuthorityVector.boot (GovernanceIntent.authority i) = boot) /\
  (IntentLedger.find k (fst (IntentLedger.expire now l)) = Some i ->
     IntentLedger.find k l = Some i /\ now < TickSpan.end_ (GovernanceIntent.window i)) /\
  IntentLedger.find k (fst (IntentLedger.revoke_all now state reason l)) <> Some i.
Proof.
  intros Hl Hd. split_and!.
  - intros H. apply sweep_live in H as [? Hs]; [|by auto with efg|done]. by boolify.
  - intros H. apply sweep_live in H as [? Hs]; [|by auto with efg|done]. by boolify.
  - intros H. apply sweep_live in H as [? Hs]; [|by auto with efg|done]. by boolify.
  - intros H. by apply sweep_live in H as [? Hs]; [|by auto with efg|done].
Qed.

Lemma bulk_passes_withdraw_witness :
  exists i, IntentLedger.find 1 (fst (IntentLedger.expire 150 demo_intents)) = Some i /\
    IntentLedger.find 1 demo_intents = Some i /\ 150 < TickSpan.end_ (GovernanceIntent.window i).
Proof.
  destruct (IntentLedger.find 1 (fst (IntentLedger.expire 150 demo_intents))) as [i|] eqn:E;
    [|exfalso; vm_compute in E; discriminate E].
  assert (Hl : (fun i => is_live (GovernanceIntent.state i)) <$>
    IntentLedger.find 1 (fst (IntentLedger.expire 150 demo_intents)) = Some true)
    by (vm_compute; reflexivity).
  rewrite E in Hl. exists i. split; [reflexivity|].
  apply (bulk_passes_withdraw demo_intents 150 0 0 0 IntentState.Revoked 1 i);
    [by injection Hl|reflexivity|exact E].
Defined.
