(* ===== verification/Governor.v ===== *)
(** * The governor ([include/efg/governor.hpp], [src/governor.cpp])

    The decision engine: the population of flow records, the authoritative inputs, the
    evaluation of one record, the production of intents and the sweeps. A [FlowRecord&]
    into [flows_] is modelled by running on a pair of governor and record and writing
    the record back; nothing that runs meanwhile touches another record. *)
From S2P Require Import Prelude Status Checked Tri Tick Hash OMap Flow Tables Policy Impact Classification Intervention.

Definition kMaxFlows : Z := Z.shiftl 1 20.

Module GovernorConfig.
Record t := mk {
  max_flows : Z;
  samples_per_flow : Z;
  max_history_per_flow : Z;
  max_trace_entries : Z;
  classification_validity_ticks : Z;
  max_telemetry_gap_ticks : Z;
  intent_duration_ticks : Z;
  max_cumulative_bytes : Z;
  max_bytes_per_window : Z;
  max_intents : Z }.
#[global] Instance eta_t : Eta t := fun r =>
  mk (max_flows r) (samples_per_flow r) (max_history_per_flow r) (max_trace_entries r)
     (classification_validity_ticks r) (max_telemetry_gap_ticks r) (intent_duration_ticks r)
     (max_cumulative_bytes r) (max_bytes_per_window r) (max_intents r).
Definition default : t :=
  mk 32768 8 kMaxHistoryPerFlow kMaxTraceEntries 1000 100 500 0 0 kMaxIntents.

Definition validate (c : t) : Status :=
  refuse_if ((max_flows c =? 0) || (max_flows c >? kMaxFlows)) StatusCode.OutOfRange ;;
  refuse_if ((samples_per_flow c <? 2) || (samples_per_flow c >? kMaxSamplesPerFlow))
    StatusCode.OutOfRange ;;
  refuse_if ((max_history_per_flow c =? 0) || (max_history_per_flow c >? kMaxHistoryPerFlow))
    StatusCode.OutOfRange ;;
  refuse_if ((max_trace_entries c =? 0) || (max_trace_entries c >? kMaxTraceEntries))
    StatusCode.OutOfRange ;;
  refuse_if (classification_validity_ticks c =? 0) StatusCode.InvalidArgument ;;
  refuse_if (intent_duration_ticks c =? 0) StatusCode.InvalidArgument ;;
  refuse_if ((max_intents c =? 0) || (max_intents c >? kMaxIntents)) StatusCode.OutOfRange.

(** The clamping the constructor of [Governor] applies. *)
Definition clamp (c : t) : t :=
  let c := if samples_per_flow c <? 2 then c <| samples_per_flow := 2 |> else c in
  let c := if samples_per_flow c >? kMaxSamplesPerFlow
           then c <| samples_per_flow := kMaxSamplesPerFlow |> else c in
  let c := if max_flows c =? 0 then c <| max_flows := 1 |> else c in
  let c := if max_flows c >? kMaxFlows then c <| max_flows := kMaxFlows |> else c in
  let c := if max_history_per_flow c =? 0 then c <| max_history_per_flow := 1 |> else c in
  let c := if max_history_per_flow c >? kMaxHistoryPerFlow
           then c <| max_history_per_flow := kMaxHistoryPerFlow |> else c in
  let c := if (max_trace_entries c =? 0) || (max_trace_entries c >? kMaxTraceEntries)
           then c <| max_trace_entries := kMaxTraceEntries |> else c in
  let c := if classification_validity_ticks c =? 0
           then c <| classification_validity_ticks := 1 |> else c in
  let c := if intent_duration_ticks c =? 0 then c <| intent_duration_ticks := 1 |> else c in
  if (max_intents c =? 0) || (max_intents c >? kMaxIntents)
  then c <| max_intents := kMaxIntents |> else c.
End GovernorConfig.

Module GovernorCounters.
Record t := mk {
  evidence_accepted : Z;
  evidence_duplicates : Z;
  evidence_rejected : Z;
  evidence_contradictory : Z;
  evidence_gaps : Z;
  evidence_after_completion : Z;
  capacity_accepted : Z;
  capacity_rejected : Z;
  path_accepted : Z;
  path_rejected : Z;
  policy_accepted : Z;
  policy_rejected : Z;
  decisions : Z;
  elephant_decisions : Z;
  not_elephant_decisions : Z;
  unknown_decisions : Z;
  suspended_decisions : Z;
  transitions : Z;
  revalidations : Z;
  authority_revocations : Z;
  flow_generation_rollovers : Z;
  flow_completions : Z;
  flow_evictions : Z;
  capacity_refusals : Z;
  stale_refusals : Z;
  ticks : Z;
  sweeps : Z;
  intents_proposed : Z;
  intents_authorized : Z;
  intents_suppressed : Z;
  intents_clamped : Z;
  intents_expired : Z;
  intents_revoked : Z;
  intents_fenced : Z;
  classifications_expired : Z;
  restore_events : Z;
  restored_flows : Z;
  restored_flows_requiring_revalidation : Z }.
#[global] Instance eta_t : Eta t := fun r =>
  mk (evidence_accepted r) (evidence_duplicates r) (evidence_rejected r)
     (evidence_contradictory r) (evidence_gaps r) (evidence_after_completion r)
     (capacity_accepted r) (capacity_rejected r) (path_accepted r) (path_rejected r)
     (policy_accepted r) (policy_rejected r) (decisions r) (elephant_decisions r)
     (not_elephant_decisions r) (unknown_decisions r) (suspended_decisions r) (transitions r)
     (revalidations r) (authority_revocations r) (flow_generation_rollovers r)
     (flow_completions r) (flow_evictions r) (capacity_refusals r) (stale_refusals r)
     (ticks r) (sweeps r) (intents_proposed r) (intents_authorized r) (intents_suppressed r)
     (intents_clamped r) (intents_expired r) (intents_revoked r) (intents_fenced r)
     (classifications_expired r) (restore_events r) (restored_flows r)
     (restored_flows_requiring_revalidation r).
Definition zero : t :=
  mk 0 0 0 0 0 0 0 0 0 0 0 0 0 0 0 0 0 0 0 0 0 0 0 0 0 0 0 0 0 0 0 0 0 0 0 0 0 0.
End GovernorCounters.

Module FlowDecision.
Record t := mk {
  classification : FlowClassification.t;
  intents : list GovernanceIntent.t;
  state_changed : bool;
  authority_changed : bool;
  evidence_duplicate : bool }.
#[global] Instance eta_t : Eta t := fun r =>
  mk (classification r) (intents r) (state_changed r) (authority_changed r) (evidence_duplicate r).
Definition default : t := mk FlowClassification.default [] false false false.
End FlowDecision.

Module DecisionBatch.
Record t := mk {
  now : Tick;
  decisions : list FlowDecision.t;
  suspensions : Z;
  revalidations : Z;
  revocations : Z;
  fences : Z;
  expirations : Z;
  completions : Z }.
#[global] Instance eta_t : Eta t := fun r =>
  mk (now r) (decisions r) (suspensions r) (revalidations r) (revocations r) (fences r)
     (expirations r) (completions r).
Definition make (now : Tick) : t := mk now [] 0 0 0 0 0 0.
End DecisionBatch.

Abbreviation FlowKey := (FlowId * Generation)%type.

Module FlowRecord.
Record t := mk {
  ledger : FlowLedger.t;
  history : ClassificationHistory.t;
  classification : FlowClassification.t;
  enter_streak : Z;
  exit_streak : Z;
  has_classification : bool;
  evaluated_tick : Tick;
  evaluated_window : EvidenceWindowId;
  bound_resource : ResourceId;
  bound_share : Z;
  bound_elephant : bool;
  bound : bool;
  completed_tick : Tick }.
#[global] Instance eta_t : Eta t := fun r =>
  mk (ledger r) (history r) (classification r) (enter_streak r) (exit_streak r)
     (has_classification r) (evaluated_tick r) (evaluated_window r) (bound_resource r)
     (bound_share r) (bound_elephant r) (bound r) (completed_tick r).
Definition make (ledger : FlowLedger.t) (history : ClassificationHistory.t) : t :=
  mk ledger history FlowClassification.default 0 0 false 0 0 0 0 false false 0.

(** [record.has_classification && record.classification.state == Elephant]. *)
Definition is_elephant (r : t) : bool :=
  has_classification r &&
  ElephantState.eqb (FlowClassification.state (classification r)) ElephantState.Elephant.
End FlowRecord.

Module BindingEntry.
Record t := mk { elephant : bool; share : Z }.
End BindingEntry.

Module ResourceAggregate.
Record t := mk { flows : Z; elephants : Z; elephant_share_sum : Z }.
#[global] Instance eta_t : Eta t := fun r => mk (flows r) (elephants r) (elephant_share_sum r).
#[global] Instance eq_dec : EqDecision t.
Proof. solve_decision. Defined.
Definition default : t := mk 0 0 0.
End ResourceAggregate.

(** [GovernorIncarnation]. *)
Module GovernorIncarnation.
Record t := mk { boot : BootIdentity.t; minted_from : Z }.
#[global] Instance eta_t : Eta t := fun r => mk (boot r) (minted_from r).
Definition default : t := mk BootIdentity.default 0.
End GovernorIncarnation.

(** ** Composing measurements *)

Definition ledger_limits (c : GovernorConfig.t) : LedgerLimits.t :=
  LedgerLimits.mk (GovernorConfig.max_telemetry_gap_ticks c) (GovernorConfig.samples_per_flow c)
    (GovernorConfig.max_bytes_per_window c) (GovernorConfig.max_cumulative_bytes c).

(** One step of the search for the binding resource. [None] is an unresolved binding. *)
Definition resolve_step (capacities : CapacityTable.t) (require_fresh : bool) (now : Tick)
    (out : option (ResourceId * ResourceCapacity.t)) (resource : ResourceId)
    : option (ResourceId * ResourceCapacity.t) :=
  match CapacityTable.find resource capacities with
  | None => out
  | Some candidate =>
      if require_fresh && negb (is_fresh (ResourceCapacity.validity candidate) now) then out
      else match ResourceCapacity.available candidate with
      | Err _ => out
      | Val available =>
          match out with
          | None => Some (resource, candidate)
          | Some (best_resource, best) =>
              let best_available := value_or (ResourceCapacity.available best) 0 in
              if (available <? best_available) ||
                 ((available =? best_available) && (resource <? best_resource))
              then Some (resource, candidate) else out
          end
      end
  end.

Definition resolve_binding (path : option PathDescriptor.t) (capacities : CapacityTable.t)
    (require_fresh : bool) (now : Tick) : option (ResourceId * ResourceCapacity.t) :=
  match path with
  | None => None
  | Some path =>
      if require_fresh && negb (is_fresh (PathDescriptor.validity path) now) then None
      else foldl (resolve_step capacities require_fresh now) None (PathDescriptor.resources path)
  end.

Definition compose_measurements (ledger : FlowLedger.t) (path : option PathDescriptor.t)
    (capacities : CapacityTable.t) (competing_flows competing_elephants : Z)
    (require_capacity : bool) : StatusOr FlowMeasurements.t :=
  let out := FlowLedger.measurements ledger
    <| FlowMeasurements.path_known := match path with Some _ => true | None => false end |>
    <| FlowMeasurements.competing_flows := competing_flows |>
    <| FlowMeasurements.competing_elephants := competing_elephants |> in
  match path with
  | None => if require_capacity then Err StatusCode.NotFound else Val out
  | Some _ =>
      match resolve_binding path capacities false 0 with
      | None => if require_capacity then Err StatusCode.NotFound else Val out
      | Some (resource, capacity) =>
          let out := out
            <| FlowMeasurements.capacity_known := true |>
            <| FlowMeasurements.binding_resource := resource |>
            <| FlowMeasurements.resource_capacity := ResourceCapacity.capacity capacity |>
            <| FlowMeasurements.resource_reserved := ResourceCapacity.reserved capacity |>
            <| FlowMeasurements.resource_available :=
                 value_or (ResourceCapacity.available capacity) 0 |> in
          let rate := FlowMeasurements.sustained_rate out in
          let available := FlowMeasurements.resource_available out in
          Val (out
            <| FlowMeasurements.share_of_capacity :=
                 to_basis_points rate (FlowMeasurements.resource_capacity out) |>
            <| FlowMeasurements.share_of_available :=
                 if available >? 0 then to_basis_points (min_of rate available) available
                 else if rate >? 0 then kBasisPointsScale else 0 |>)
      end
  end.

(** ** State *)

Module Governor.
Record t := mk {
  config_ : GovernorConfig.t;
  incarnation_ : GovernorIncarnation.t;
  tick_guard_ : TickGuard.t;
  last_tick_ : Tick;
  policy_ : option PolicyDocument.t;
  exit_rules_ : RuleSet.t;
  capacities_ : CapacityTable.t;
  paths_ : PathTable.t;
  flows_ : omap_t FlowKey FlowRecord.t;
  highest_generation_ : omap_t FlowId Generation;
  binding_index_ : omap_t ResourceId (omap_t FlowKey BindingEntry.t);
  resource_aggregate_ : omap_t ResourceId ResourceAggregate.t;
  intents_ : IntentLedger.t;
  classification_sequence_ : Z;
  intent_sequence_ : Z;
  counters_ : GovernorCounters.t }.
#[global] Instance eta_t : Eta t := fun r =>
  mk (config_ r) (incarnation_ r) (tick_guard_ r) (last_tick_ r) (policy_ r) (exit_rules_ r)
     (capacities_ r) (paths_ r) (flows_ r) (highest_generation_ r) (binding_index_ r)
     (resource_aggregate_ r) (intents_ r) (classification_sequence_ r) (intent_sequence_ r)
     (counters_ r).

Definition make (config : GovernorConfig.t) : t :=
  let config := GovernorConfig.clamp config in
  mk config GovernorIncarnation.default TickGuard.default 0 None RuleSet.default
     CapacityTable.default PathTable.default [] [] [] []
     (IntentLedger.make (GovernorConfig.max_intents config) kMaxAttempts) 0 0
     GovernorCounters.zero.

Definition set_incarnation (boot : BootIdentity.t) (g : t) : t :=
  g <| incarnation_ ::= (fun i => i <| GovernorIncarnation.boot := boot |>) |>.

(** [++counters_.f] and [counters_.f += n]. *)
Definition bump (f : GovernorCounters.t -> Z) `{!Setter f} (g : t) : t :=
  g <| counters_ ::= (fun c => c <| f ::= inc64 |>) |>.
Definition bump_by (n : Z) (f : GovernorCounters.t -> Z) `{!Setter f} (g : t) : t :=
  g <| counters_ ::= (fun c => c <| f ::= add64 n |>) |>.

(** [if (now > last_tick_) { last_tick_ = now; }] *)
Definition advance_tick (now : Tick) (g : t) : t :=
  if now >? last_tick_ g then g <| last_tick_ := now |> else g.

(** A method that mutates the governor and one record of it. *)
Definition MR (A : Type) : Type := M (t * FlowRecord.t) A.

(** Run such a method on the record stored under [key]. *)
Definition with_record {A} (key : FlowKey) (m : MR A) : M t A := fun g =>
  match OMap.find key (flows_ g) with
  | None => (g, Err StatusCode.NotFound)
  | Some record =>
      let '((g, record), result) := m (g, record) in
      (g <| flows_ ::= OMap.set key record |>, result)
  end.

(** ** Indices *)

(** Release the flow's share of its bound resource. *)
Definition release (entry : BindingEntry.t) (agg : ResourceAggregate.t) : ResourceAggregate.t :=
  let agg := if ResourceAggregate.flows agg >? 0
             then agg <| ResourceAggregate.flows ::= Z.pred |> else agg in
  if BindingEntry.elephant entry then
    let agg := if ResourceAggregate.elephants agg >? 0
               then agg <| ResourceAggregate.elephants ::= Z.pred |> else agg in
    agg <| ResourceAggregate.elephant_share_sum ::= (fun sum =>
             if sum >=? BindingEntry.share entry then sum - BindingEntry.share entry else 0) |>
  else agg.

Definition unbind (key : FlowKey) (record : FlowRecord.t) (g : t) : t :=
  let resource := FlowRecord.bound_resource record in
  match OMap.find resource (binding_index_ g) with
  | None => g
  | Some entries =>
      match OMap.find key entries with
      | None => g
      | Some entry =>
          let g :=
            match OMap.find resource (resource_aggregate_ g) with
            | None => g
            | Some agg =>
                let agg := release entry agg in
                g <| resource_aggregate_ ::=
                       if ResourceAggregate.flows agg =? 0 then OMap.erase resource
                       else OMap.set resource agg |>
            end in
          let entries := OMap.erase key entries in
          g <| binding_index_ ::=
                 if bool_decide (length entries = 0%nat) then OMap.erase resource
                 else OMap.set resource entries |>
      end
  end.

Definition bind (key : FlowKey) (gr : t * FlowRecord.t) : t * FlowRecord.t :=
  let '(g, record) := gr in
  let m := FlowClassification.measurements (FlowRecord.classification record) in
  let elephant := ElephantState.eqb
    (FlowClassification.state (FlowRecord.classification record)) ElephantState.Elephant in
  let resource := FlowMeasurements.binding_resource m in
  let share := FlowMeasurements.share_of_capacity m in
  let record := record
    <| FlowRecord.bound_resource := resource |>
    <| FlowRecord.bound_share := share |>
    <| FlowRecord.bound_elephant := elephant |>
    <| FlowRecord.bound := true |> in
  let entries := default [] (OMap.find resource (binding_index_ g)) in
  let agg := default ResourceAggregate.default (OMap.find resource (resource_aggregate_ g)) in
  let agg := agg <| ResourceAggregate.flows ::= inc32 |> in
  let agg := if elephant
             then agg <| ResourceAggregate.elephants ::= inc32 |>
                      <| ResourceAggregate.elephant_share_sum ::= add64 share |>
             else agg in
  (g <| binding_index_ ::= OMap.set resource (OMap.set key (BindingEntry.mk elephant share) entries) |>
     <| resource_aggregate_ ::= OMap.set resource agg |>, record).

Definition update_index (key : FlowKey) (gr : t * FlowRecord.t) : t * FlowRecord.t :=
  let '(g, record) := gr in
  let '(g, record) :=
    if FlowRecord.bound record
    then (unbind key record g, record <| FlowRecord.bound := false |>) else (g, record) in
  if negb (FlowRecord.has_classification record) then (g, record)
  else if negb (FlowMeasurements.capacity_known
                  (FlowClassification.measurements (FlowRecord.classification record)))
  then (g, record)
  else bind key (g, record).

(** ** Authority *)

(** The binding flags of the identities that are always known. *)
Definition base_flags : Z :=
  Z.lor (Z.lor (Z.lor kAuthorityFlowBound kAuthorityPolicyBound) kAuthorityEpochBound)
    kAuthorityBootBound.
Definition evidence_flags : Z :=
  Z.lor (Z.lor kAuthorityPathBound kAuthorityWindowBound) kAuthorityPublisherBound.

(** [latest != nullptr ? paths_.find(latest->path) : nullptr]. *)
Definition path_of (record : FlowRecord.t) (g : t) : option PathDescriptor.t :=
  latest ← FlowLedger.latest (FlowRecord.ledger record);
  PathTable.find (FlowSample.path latest) (paths_ g).

Definition build_authority (record : FlowRecord.t) (now : Tick) (g : t)
    : StatusOr AuthorityVector.t :=
  let boot := GovernorIncarnation.boot (incarnation_ g) in
  let authority := AuthorityVector.default
    <| AuthorityVector.flow := FlowLedger.flow_ (FlowRecord.ledger record) |>
    <| AuthorityVector.flow_generation := FlowLedger.generation_ (FlowRecord.ledger record) |>
    <| AuthorityVector.epoch := BootIdentity.epoch boot |>
    <| AuthorityVector.boot := BootIdentity.boot boot |>
    <| AuthorityVector.bound_flags := base_flags |> in
  let authority :=
    match FlowLedger.latest (FlowRecord.ledger record) with
    | None => authority
    | Some latest =>
        let publisher := Provenance.publisher (FlowSample.provenance latest) in
        authority
          <| AuthorityVector.path := FlowSample.path latest |>
          <| AuthorityVector.path_generation := FlowSample.path_generation latest |>
          <| AuthorityVector.window := FlowSample.window latest |>
          <| AuthorityVector.window_sequence := FlowSample.window_sequence latest |>
          <| AuthorityVector.publisher := PublisherRef.publisher publisher |>
          <| AuthorityVector.publisher_boot := PublisherRef.boot publisher |>
          <| AuthorityVector.bound_flags ::= (fun f => Z.lor f evidence_flags) |>
    end in
  let authority :=
    match policy_ g with
    | None => authority
    | Some policy => authority
        <| AuthorityVector.policy := PolicyDocument.id policy |>
        <| AuthorityVector.policy_generation := PolicyDocument.generation policy |>
    end in
  let authority :=
    match resolve_binding (path_of record g) (capacities_ g) false now with
    | None => authority
    | Some (_, capacity) => authority
        <| AuthorityVector.capacity := ResourceCapacity.snapshot capacity |>
        <| AuthorityVector.capacity_generation := ResourceCapacity.generation capacity |>
        <| AuthorityVector.bound_flags ::= (fun f => Z.lor f kAuthorityCapacityBound) |>
    end in
  match make_validity now (GovernorConfig.classification_validity_ticks (config_ g)) with
  | Err c => Err c
  | Val validity => Val (authority <| AuthorityVector.validity := validity |>)
  end.

(** The reason recorded for a divergence of the authority vector. *)
Definition verdict_reason (verdict : BindingVerdict.t) : Z :=
  match verdict with
  | BindingVerdict.FlowGenerationChanged => ReasonCode.FlowGenerationChanged
  | BindingVerdict.PathGenerationChanged => ReasonCode.PathGenerationChanged
  | BindingVerdict.PolicyGenerationChanged => ReasonCode.PolicyChanged
  | BindingVerdict.CapacityGenerationChanged => ReasonCode.CapacityStale
  | BindingVerdict.PublisherChanged | BindingVerdict.PublisherIncarnationChanged
  | BindingVerdict.EpochChanged | BindingVerdict.BootChanged | BindingVerdict.Absent =>
      ReasonCode.EvidenceStale
  | BindingVerdict.EvidenceWindowSuperseded | BindingVerdict.Match => ReasonCode.None
  end.

(** Reasons gathered so far and whether they suspend: [reasons |= r; suspend = true]. *)
Definition Doubt : Type := Z * bool.
Definition doubt (r : Z) (d : Doubt) : Doubt := (Z.lor d.1 r, true).

Definition evidence_doubts (record : FlowRecord.t) (now : Tick) (g : t) (d : Doubt) : Doubt :=
  let ledger := FlowRecord.ledger record in
  match FlowLedger.latest ledger with
  | None => doubt ReasonCode.EvidenceMissing d
  | Some latest =>
      let d := if negb (bool_decide
                    (evaluate_freshness (FlowLedger.latest_validity_ ledger) now =
                     FreshnessVerdict.Fresh))
               then doubt ReasonCode.EvidenceStale d else d in
      let d := if FlowLedger.gap_detected_ ledger then doubt ReasonCode.TelemetryGap d else d in
      match PathTable.find (FlowSample.path latest) (paths_ g) with
      | None => doubt ReasonCode.PathUnknown d
      | Some path =>
          if negb (is_fresh (PathDescriptor.validity path) now)
          then doubt ReasonCode.EvidenceStale (doubt ReasonCode.PathUnknown d)
          else match resolve_binding (Some path) (capacities_ g) true now with
          | None => doubt ReasonCode.CapacityMissing (doubt ReasonCode.CapacityStale d)
          | Some _ => d
          end
      end
  end.

Definition policy_doubts (now : Tick) (g : t) (d : Doubt) : Doubt :=
  match policy_ g with
  | None => doubt ReasonCode.PolicyChanged d
  | Some policy =>
      if negb (bool_decide (evaluate_freshness (PolicyDocument.validity policy) now =
                            FreshnessVerdict.Fresh))
      then doubt ReasonCode.PolicyChanged d else d
  end.

Definition authority_doubts (record : FlowRecord.t) (now : Tick) (g : t) (d : Doubt) : Doubt :=
  if FlowRecord.is_elephant record then
    match build_authority record now g with
    | Err _ => doubt ReasonCode.RevalidationRequired d
    | Val live =>
        let verdict := AuthorityVector.compare
          (FlowClassification.authority_vector (FlowRecord.classification record)) live in
        if negb (bool_decide (verdict = BindingVerdict.Match))
        then doubt (verdict_reason verdict) (doubt ReasonCode.RevalidationRequired d)
        else d
    end
  else d.

Definition suspension_reasons (record : FlowRecord.t) (now : Tick) (g : t) : Doubt :=
  let d := (ReasonCode.None, false) in
  let d := evidence_doubts record now g d in
  let d := policy_doubts now g d in
  let d := authority_doubts record now g d in
  if d.2 && FlowRecord.is_elephant record then doubt ReasonCode.RevalidationRequired d else d.

(** ** Protection *)

Definition add_reason (r : Z) (c : FlowClassification.t) : FlowClassification.t :=
  c <| FlowClassification.reasons ::= (fun rs => Z.lor rs r) |>.
Definition demote (c : FlowClassification.t) : FlowClassification.t :=
  if AuthorityLevel.eqb (FlowClassification.authority c) AuthorityLevel.Govern
  then c <| FlowClassification.authority := AuthorityLevel.Observe |> else c.

Definition enforce_protection (cls : FlowClassification.t) (g : t) : FlowClassification.t :=
  match policy_ g with
  | None => cls
  | Some policy =>
      if negb (IntentAuthorization.protect_obligations (PolicyDocument.authorization policy))
      then cls
      else
        let m := FlowClassification.measurements cls in
        let prot p := ProtectionState.eqb (FlowMeasurements.protection m) p in
        if prot ProtectionState.Unknown
        then demote (add_reason ReasonCode.ProtectedObligation
                       (add_reason ReasonCode.EvidenceUnknownField cls))
        else
          let protected := prot ProtectionState.Protected in
          let non_preemptible := prot ProtectionState.NonPreemptible in
          let reserved := FlowMeasurements.has_reservation m in
          let bounded_class :=
            ServiceClass.eqb (FlowMeasurements.service_class m) ServiceClass.Reserved ||
            ServiceClass.eqb (FlowMeasurements.service_class m) ServiceClass.Control in
          let cls := if protected then add_reason ReasonCode.ProtectedObligation cls else cls in
          let cls := if non_preemptible
                     then add_reason ReasonCode.NonPreemptibleObligation
                            (add_reason ReasonCode.ProtectedObligation cls) else cls in
          let cls := if reserved
                     then add_reason ReasonCode.ReservedCapacityBounded
                            (add_reason ReasonCode.ProtectedObligation cls) else cls in
          let cls := if bounded_class
                     then add_reason ReasonCode.ControlClassBounded
                            (add_reason ReasonCode.ProtectedObligation cls) else cls in
          if protected || non_preemptible || reserved || bounded_class then demote cls else cls
  end.

(** ** Evaluation of one record *)

(** Flows and elephants competing on the bound resource, the record itself excluded. *)
Definition competition (record : FlowRecord.t) (g : t) : Z * Z :=
  match OMap.find (FlowRecord.bound_resource record) (resource_aggregate_ g) with
  | Some agg =>
      if FlowRecord.bound record then
        let flows := ResourceAggregate.flows agg in
        let elephants := ResourceAggregate.elephants agg in
        (if flows >? 0 then flows - 1 else flows,
         if FlowRecord.bound_elephant record && (elephants >? 0) then elephants - 1 else elephants)
      else (0, 0)
  | None => (0, 0)
  end.

(** The measurements to decide on, and the doubts their composition adds. *)
Definition measure (record : FlowRecord.t) (path : option PathDescriptor.t) (g : t)
    (competing : Z * Z) (d : Doubt) : FlowMeasurements.t * Doubt :=
  let '(flows, elephants) := competing in
  let '(m, d) :=
    match compose_measurements (FlowRecord.ledger record) path (capacities_ g) flows elephants true with
    | Val m => (m, d)
    | Err _ =>
        (FlowLedger.measurements (FlowRecord.ledger record)
           <| FlowMeasurements.path_known := match path with Some _ => true | None => false end |>
           <| FlowMeasurements.competing_flows := flows |>
           <| FlowMeasurements.competing_elephants := elephants |>,
         doubt ReasonCode.CapacityMissing d)
    end in
  (m, if FlowMeasurements.evidence_present m && negb (FlowMeasurements.evidence_contiguous m)
      then (Z.lor d.1 ReasonCode.EvidenceUnknownField, d.2) else d).

(** Capacity share of the other elephants on the binding resource, saturated. *)
Definition contention_of (record : FlowRecord.t) (m : FlowMeasurements.t) (g : t) : Z :=
  if FlowMeasurements.capacity_known m then
    match OMap.find (FlowMeasurements.binding_resource m) (resource_aggregate_ g) with
    | None => 0
    | Some agg =>
        let sum := ResourceAggregate.elephant_share_sum agg in
        let sum :=
          if FlowRecord.bound record && FlowRecord.bound_elephant record &&
             (FlowMeasurements.binding_resource m =? FlowRecord.bound_resource record)
          then if sum >=? FlowRecord.bound_share record
               then sum - FlowRecord.bound_share record else 0
          else sum in
        if sum >? kBasisPointsScale then kBasisPointsScale else wrap 32 sum
    end
  else 0.

(** What the decision sets of the candidate. *)
Record Verdict := mkVerdict {
  v_state : ElephantState.t;
  v_reasons : Z;
  v_enter_streak : Z;
  v_exit_streak : Z;
  v_trace : ThresholdTrace.t }.
#[global] Instance eta_verdict : Eta Verdict := fun r =>
  mkVerdict (v_state r) (v_reasons r) (v_enter_streak r) (v_exit_streak r) (v_trace r).

(** The reason a traced threshold contributes. *)
Definition trace_reason (e : ThresholdTraceEntry.t) : Z :=
  match ThresholdTraceEntry.result e, ThresholdTraceEntry.kind e with
  | Tri.True_, ThresholdKind.CumulativeBytes => ReasonCode.VolumeThresholdMet
  | Tri.True_, ThresholdKind.DurationTicks => ReasonCode.DurationThresholdMet
  | Tri.True_, (ThresholdKind.SustainedRate | ThresholdKind.PeakRate) =>
      ReasonCode.SustainedRateThresholdMet
  | Tri.True_, (ThresholdKind.ShareOfCapacity | ThresholdKind.ShareOfAvailable
               | ThresholdKind.ExcessOverGuarantee) => ReasonCode.ResourceShareThresholdMet
  | Tri.False_, ThresholdKind.CumulativeBytes => ReasonCode.BelowVolumeThreshold
  | Tri.False_, ThresholdKind.DurationTicks => ReasonCode.BelowDurationThreshold
  | Tri.False_, (ThresholdKind.SustainedRate | ThresholdKind.PeakRate) =>
      ReasonCode.BelowRateThreshold
  | Tri.False_, (ThresholdKind.ShareOfCapacity | ThresholdKind.ShareOfAvailable
                | ThresholdKind.ExcessOverGuarantee) => ReasonCode.BelowShareThreshold
  | _, _ => ReasonCode.None
  end.
Definition trace_reasons (es : list ThresholdTraceEntry.t) (reasons : Z) : Z :=
  foldl (fun rs e => Z.lor rs (trace_reason e)) reasons es.

(** Confirmation streaks advance on new evidence only. *)
Definition streaks (record : FlowRecord.t) (previous : ElephantState.t) (new_evidence below_exit : bool)
    (enter : Tri.t) : Z * Z :=
  if new_evidence then
    if ElephantState.eqb previous ElephantState.Elephant
    then (FlowRecord.enter_streak record, if below_exit then inc32 (FlowRecord.exit_streak record) else 0)
    else (if tri_is_true enter then inc32 (FlowRecord.enter_streak record) else 0, 0)
  else (FlowRecord.enter_streak record, FlowRecord.exit_streak record).

(** The state machine, for a flow that is neither completed nor suspended. *)
Definition decide_state (policy : PolicyDocument.t) (record : FlowRecord.t)
    (previous : ElephantState.t) (new_evidence : bool) (m : FlowMeasurements.t)
    (enter exit : Tri.t) (reasons : Z) : ElephantState.t * Z * Z * Z :=
  let hysteresis := PolicyDocument.hysteresis policy in
  let below_exit := tri_is exit Tri.False_ in
  let '(enter_streak, exit_streak) := streaks record previous new_evidence below_exit enter in
  let kept := FlowClassification.reasons (FlowRecord.classification record) in
  if ElephantState.eqb previous ElephantState.Elephant then
    if below_exit && (exit_streak >=? HysteresisSpec.exit_confirm_windows hysteresis)
    then (ElephantState.NotElephant,
          Z.lor (Z.lor reasons ReasonCode.PolicyRuleNotSatisfied) ReasonCode.BelowRateThreshold,
          enter_streak, exit_streak)
    else (ElephantState.Elephant,
          Z.lor (Z.lor reasons ReasonCode.PolicyRuleSatisfied)
            (if below_exit then ReasonCode.HysteresisHeld else ReasonCode.ExitThresholdNotReached),
          enter_streak, exit_streak)
  else if negb new_evidence && ElephantState.eqb previous ElephantState.Suspended
  then (ElephantState.Suspended,
        Z.lor (Z.lor reasons kept) ReasonCode.RevalidationRequired, enter_streak, exit_streak)
  else if tri_is_true enter then
    let reasons := Z.lor reasons ReasonCode.PolicyRuleSatisfied in
    if enter_streak >=? HysteresisSpec.enter_confirm_windows hysteresis
    then (ElephantState.Elephant, reasons, enter_streak, exit_streak)
    else (ElephantState.NotElephant, Z.lor reasons ReasonCode.HysteresisHeld,
          enter_streak, exit_streak)
  else if tri_is_unknown enter then
    let reasons := Z.lor reasons ReasonCode.PolicyRuleIndeterminate in
    let reasons := if negb (FlowMeasurements.evidence_present m)
                   then Z.lor reasons ReasonCode.EvidenceMissing else reasons in
    let reasons := if negb (FlowMeasurements.capacity_known m)
                   then Z.lor reasons ReasonCode.CapacityMissing else reasons in
    if ElephantState.eqb previous ElephantState.Suspended
    then (ElephantState.Suspended,
          Z.lor (Z.lor reasons kept) ReasonCode.RevalidationRequired, enter_streak, exit_streak)
    else (ElephantState.Unknown, reasons, enter_streak, exit_streak)
  else (ElephantState.NotElephant, Z.lor reasons ReasonCode.PolicyRuleNotSatisfied, 0, exit_streak).

(** The whole decision. Without a policy [suspension_reasons] suspends, so the default
    policy of the last branch is never consulted. *)
Definition decide (record : FlowRecord.t) (previous : ElephantState.t) (new_evidence : bool)
    (m : FlowMeasurements.t) (d : Doubt) (g : t) : Verdict :=
  let '(reasons, suspend) := d in
  if FlowLedger.completed_ (FlowRecord.ledger record) then
    mkVerdict ElephantState.NotElephant (Z.lor reasons ReasonCode.FlowCompleted) 0 0
      ThresholdTrace.empty
  else if suspend then
    let pending := FlowRecord.has_classification record &&
      (ElephantState.eqb previous ElephantState.Elephant ||
       ElephantState.eqb previous ElephantState.Suspended) in
    mkVerdict (if pending then ElephantState.Suspended else ElephantState.Unknown)
      reasons 0 0 ThresholdTrace.empty
  else
    let policy := default PolicyDocument.default (policy_ g) in
    let '(trace, enter) := RuleSet.evaluate (PolicyDocument.enter_rule policy) m
                             (Some ThresholdTrace.empty) in
    let trace := default ThresholdTrace.empty trace in
    let '(_, exit) := RuleSet.evaluate (exit_rules_ g) m None in
    let '(state, reasons, enter_streak, exit_streak) :=
      decide_state policy record previous new_evidence m enter exit reasons in
    mkVerdict state (trace_reasons (ThresholdTrace.entries trace) reasons)
      enter_streak exit_streak trace.

(** ** Governance intents *)

Definition ceiling_bounds (g : t) : IntentBounds.t :=
  match policy_ g with
  | None => IntentBounds.default
  | Some policy =>
      let auth := PolicyDocument.authorization policy in
      IntentBounds.mk (IntentAuthorization.max_shaping_reduction_bp auth)
        (min_of (GovernorConfig.intent_duration_ticks (config_ g))
                (IntentAuthorization.max_intent_duration_ticks auth))
        (IntentAuthorization.max_targets auth)
        (IntentAuthorization.allow_alternate_placement auth)
        (IntentAuthorization.allow_scheduling_isolation auth)
        (IntentAuthorization.allow_competing_admission_reduction auth)
        (IntentAuthorization.allow_congestion_escalation auth)
  end.

(** The attempt identifier of an emission. *)
Definition attempt_id (cls : FlowClassification.t) (kind : IntentKind.t) (now : Tick) : AttemptId :=
  let attempt := Hasher.digest_of [
    Hasher.write_u64 (FlowClassification.flow cls);
    Hasher.write_u64 (FlowClassification.flow_generation cls);
    Hasher.write_u8 (IntentKind.to_u8 kind);
    Hasher.write_u64 (FlowClassification.generation cls);
    Hasher.write_u64 (FlowClassification.id cls);
    Hasher.write_u64 now ] in
  if attempt =? 0 then 1 else attempt.

(** The intent an emission proposes. *)
Definition proposal (cls : FlowClassification.t) (ceiling : IntentBounds.t) (now window_end : Tick)
    (kind : IntentKind.t) (requested : IntentBounds.t) (state : IntentState.t) (suppressed : Z)
    (g : t) : GovernanceIntent.t :=
  GovernanceIntent.mk 0 (attempt_id cls kind now) kind (FlowClassification.flow cls)
    (FlowClassification.flow_generation cls) (FlowClassification.id cls)
    (FlowClassification.generation cls) state suppressed requested
    (if IntentState.eqb state IntentState.Suppressed then IntentBounds.default
     else narrow_bounds requested ceiling)
    (ImpactAssessment.severity (FlowClassification.impact cls))
    (ImpactAssessment.contention_pressure (FlowClassification.impact cls))
    (ImpactAssessment.competing_elephants (FlowClassification.impact cls))
    (TickSpan.mk now window_end) (FlowClassification.authority_vector cls)
    (match policy_ g with Some p => PolicyDocument.provenance p | None => Provenance.default end) 0.

(** Record a proposal; a full ledger turns it into a suppressed, unrecorded one. *)
Definition emit (intent : GovernanceIntent.t) : M t GovernanceIntent.t := fun g =>
  let '(ledger, stored) := IntentLedger.record intent (intents_ g) in
  let g := g <| intents_ := ledger |> in
  match stored with
  | Err StatusCode.CapacityExceeded =>
      let rejected := intent
        <| GovernanceIntent.state := IntentState.Suppressed |>
        <| GovernanceIntent.suppressed := SuppressReason.LedgerBudgetExhausted |>
        <| GovernanceIntent.granted := IntentBounds.default |> in
      (bump GovernorCounters.intents_suppressed g, Val (GovernanceIntent.seal rejected))
  | Err c => (g, Err c)
  | Val stored =>
      let g := bump GovernorCounters.intents_proposed g in
      let g := match GovernanceIntent.state stored with
               | IntentState.Clamped => bump GovernorCounters.intents_clamped g
               | IntentState.Suppressed => bump GovernorCounters.intents_suppressed g
               | IntentState.Authorized => bump GovernorCounters.intents_authorized g
               | _ => g
               end in
      (g, Val stored)
  end.

(** Some intent of this kind already carries the current classification's authority. *)
Definition already_live (live : list GovernanceIntent.t) (cls : FlowClassification.t) (now : Tick)
    (kind : IntentKind.t) : bool :=
  existsb (fun i =>
    IntentKind.eqb (GovernanceIntent.kind i) kind && is_live (GovernanceIntent.state i) &&
    (GovernanceIntent.classification_generation i =? FlowClassification.generation cls) &&
    (now >=? TickSpan.begin_ (GovernanceIntent.window i)) &&
    (now <? TickSpan.end_ (GovernanceIntent.window i))) live.

(** Portion of the flow's share above an equal split of the unreserved capacity. *)
Definition needed_reduction (m : FlowMeasurements.t) : Z :=
  let fair_divisor := inc32 (FlowMeasurements.competing_flows m) in
  let fair_share := kBasisPointsScale / (if fair_divisor =? 0 then 1 else fair_divisor) in
  if FlowMeasurements.share_of_available m >? fair_share
  then FlowMeasurements.share_of_available m - fair_share else 0.

(** One possible emission: its guard, kind, request, state and suppression. *)
Definition Emission : Type := bool * IntentKind.t * IntentBounds.t * IntentState.t * Z.

(** The corrective emissions of a governed elephant, in order. *)
Definition corrective_emissions (auth : IntentAuthorization.t) (cls : FlowClassification.t)
    (ceiling : IntentBounds.t) (duration : Z) : list Emission :=
  let m := FlowClassification.measurements cls in
  let impact := FlowClassification.impact cls in
  let base := IntentBounds.default <| IntentBounds.duration_ticks := duration |> in
  let contended := ImpactAssessment.contention_pressure impact >=?
                   IntentAuthorization.min_contention_pressure auth in
  let reduction := needed_reduction m in
  let targets := ImpactAssessment.competing_elephants impact in
  [ (IntentAuthorization.allow_rate_shaping auth && (reduction >? 0),
     IntentKind.RequestRateShaping,
     base <| IntentBounds.rate_reduction_bp := reduction |>,
     if reduction <=? IntentBounds.rate_reduction_bp ceiling
     then IntentState.Authorized else IntentState.Clamped, SuppressReason.None);
    (IntentAuthorization.allow_alternate_placement auth && contended &&
       (FlowMeasurements.competing_flows m >? 0),
     IntentKind.RequestAlternatePlacement,
     base <| IntentBounds.placement := true |>, IntentState.Authorized, SuppressReason.None);
    (IntentAuthorization.allow_competing_admission_reduction auth && (targets >? 0) && contended,
     IntentKind.ReduceCompetingAdmission,
     base <| IntentBounds.admission_reduction := true |> <| IntentBounds.targets := targets |>,
     if targets <=? IntentBounds.targets ceiling
     then IntentState.Authorized else IntentState.Clamped, SuppressReason.None);
    (IntentAuthorization.allow_scheduling_isolation auth &&
       Priority.known (FlowMeasurements.priority m) && (FlowMeasurements.competing_flows m >? 0) &&
       contended,
     IntentKind.RequestSchedulingIsolation,
     base <| IntentBounds.isolation := true |>, IntentState.Authorized, SuppressReason.None);
    (IntentAuthorization.allow_congestion_escalation auth &&
       ((ImpactAssessment.contention_pressure impact >=? kBasisPointsScale) ||
        (FlowMeasurements.share_of_available m >=? kBasisPointsScale) ||
        (FlowMeasurements.resource_available m =? 0)),
     IntentKind.EscalateCongestion,
     base <| IntentBounds.congestion_escalation := true |>, IntentState.Authorized,
     SuppressReason.None) ].

(** Which emissions are due, after the protective one. *)
Definition governing_emissions (auth : IntentAuthorization.t) (cls : FlowClassification.t)
    (ceiling : IntentBounds.t) (duration live_count : Z) : list Emission :=
  let m := FlowClassification.measurements cls in
  let base := IntentBounds.default <| IntentBounds.duration_ticks := duration |> in
  let observe reason := [(true, IntentKind.ObserveOnly, base, IntentState.Suppressed, reason)] in
  if negb (AuthorityLevel.eqb (FlowClassification.authority cls) AuthorityLevel.Govern) then []
  else if negb (FlowMeasurements.capacity_known m) then observe SuppressReason.CapacityUnknown
  else if ImpactAssessment.severity (FlowClassification.impact cls) <?
          IntentAuthorization.min_impact_severity auth
  then observe SuppressReason.ImpactBelowThreshold
  else if live_count >=? kMaxIntentListPerFlow
  then observe SuppressReason.LedgerBudgetExhausted
  else corrective_emissions auth cls ceiling duration.

(** The budget refusal is the one emission not guarded by [already_live]. *)
Definition unguarded (e : Emission) : bool :=
  let '(_, kind, _, _, suppressed) := e in
  IntentKind.eqb kind IntentKind.ObserveOnly && (suppressed =? SuppressReason.LedgerBudgetExhausted).

Fixpoint emit_all (due : Emission -> bool) (propose : Emission -> GovernanceIntent.t)
    (es : list Emission) (out : list GovernanceIntent.t) : M t (list GovernanceIntent.t) :=
  match es with
  | [] => mret out
  | e :: es =>
      if due e then
        i ← emit (propose e);
        emit_all due propose es (out ++ [i])
      else emit_all due propose es out
  end.

Definition produce_intents (record : FlowRecord.t) (now : Tick) : M t (list GovernanceIntent.t) :=
  fun g =>
  match policy_ g with
  | None => (g, Val [])
  | Some policy =>
  if negb (FlowRecord.has_classification record) then (g, Val [])
  else
    let cls := FlowRecord.classification record in
    let flow := FlowClassification.flow cls in
    let generation := FlowClassification.flow_generation cls in
    let auth := PolicyDocument.authorization policy in
    let '(ledger, revoked) := IntentLedger.revoke_stale_generation flow generation
                                (FlowClassification.generation cls) now (intents_ g) in
    let g := bump_by revoked GovernorCounters.intents_revoked (g <| intents_ := ledger |>) in
    if negb (ElephantState.eqb (FlowClassification.state cls) ElephantState.Elephant) ||
       FlowLedger.completed_ (FlowRecord.ledger record)
    then (g, Val [])
    else
      let ceiling := ceiling_bounds g in
      let duration := GovernorConfig.intent_duration_ticks (config_ g) in
      let window_end := saturating_add now (min_of duration (IntentBounds.duration_ticks ceiling)) in
      let live := IntentLedger.for_flow flow generation (intents_ g) in
      let live_count := size_of (base.filter (fun i => is_live (GovernanceIntent.state i) = true) live) in
      let protective : Emission :=
        (FlowClassification.is_protected cls, IntentKind.ProtectReservedFlow,
         IntentBounds.default <| IntentBounds.duration_ticks := duration |>,
         IntentState.Authorized, SuppressReason.None) in
      let due (e : Emission) :=
        let '(guard, kind, _, _, _) := e in
        guard && (unguarded e || negb (already_live live cls now kind)) in
      let propose (e : Emission) :=
        let '(_, kind, requested, state, suppressed) := e in
        proposal cls ceiling now window_end kind requested state suppressed g in
      emit_all due propose (protective :: governing_emissions auth cls ceiling duration live_count)
        [] g
  end.

(** ** Evaluation *)

Definition candidate_of (record : FlowRecord.t) (now : Tick) (m : FlowMeasurements.t)
    (v : Verdict) (contention competing_elephants : Z) (g : t) : FlowClassification.t :=
  let candidate := FlowClassification.default
    <| FlowClassification.flow := FlowLedger.flow_ (FlowRecord.ledger record) |>
    <| FlowClassification.flow_generation := FlowLedger.generation_ (FlowRecord.ledger record) |>
    <| FlowClassification.decided_at := now |>
    <| FlowClassification.state := v_state v |>
    <| FlowClassification.authority :=
         if ElephantState.eqb (v_state v) ElephantState.Elephant
         then AuthorityLevel.Govern else AuthorityLevel.None |>
    <| FlowClassification.enter_streak := v_enter_streak v |>
    <| FlowClassification.exit_streak := v_exit_streak v |>
    <| FlowClassification.trace := ThresholdTrace.entries (v_trace v) |>
    <| FlowClassification.trace_truncated := ThresholdTrace.truncated (v_trace v) |>
    <| FlowClassification.measurements := m |>
    <| FlowClassification.impact :=
         match policy_ g with
         | Some policy => compute_impact m policy contention competing_elephants
         | None => ImpactAssessment.default
         end |>
    <| FlowClassification.reasons := v_reasons v |> in
  enforce_protection candidate g.

(** An unchanged decision for unchanged evidence. *)
Definition unchanged (record : FlowRecord.t) (new_evidence : bool) (candidate : FlowClassification.t)
    : bool :=
  let current := FlowRecord.classification record in
  FlowRecord.has_classification record && negb new_evidence &&
  ElephantState.eqb (FlowClassification.state current) (FlowClassification.state candidate) &&
  AuthorityLevel.eqb (FlowClassification.authority current) (FlowClassification.authority candidate) &&
  (FlowClassification.reasons current =? FlowClassification.reasons candidate) &&
  (FlowMeasurements.digest (FlowClassification.measurements current) =?
   FlowMeasurements.digest (FlowClassification.measurements candidate)) &&
  (ImpactAssessment.digest (FlowClassification.impact current) =?
   ImpactAssessment.digest (FlowClassification.impact candidate)).

(** The generation of the new classification: kept while state and authority are. *)
Definition next_classification_generation (record : FlowRecord.t) (candidate : FlowClassification.t)
    : StatusOr Generation :=
  let current := FlowRecord.classification record in
  if FlowRecord.has_classification record && id_valid (FlowClassification.generation current) then
    if ElephantState.eqb (FlowClassification.state current) (FlowClassification.state candidate) &&
       AuthorityLevel.eqb (FlowClassification.authority current)
         (FlowClassification.authority candidate)
    then Val (FlowClassification.generation current)
    else generation_next (FlowClassification.generation current)
  else Val generation_initial.

Definition count_decision (state : ElephantState.t) (g : t) : t :=
  let g := bump GovernorCounters.decisions g in
  match state with
  | ElephantState.Elephant => bump GovernorCounters.elephant_decisions g
  | ElephantState.NotElephant => bump GovernorCounters.not_elephant_decisions g
  | ElephantState.Unknown => bump GovernorCounters.unknown_decisions g
  | ElephantState.Suspended => bump GovernorCounters.suspended_decisions g
  end.

(** Withdraw the intents of a flow that became suspended. *)
Definition revoke_suspended (candidate : FlowClassification.t) (now : Tick) (g : t) : t :=
  if ElephantState.eqb (FlowClassification.state candidate) ElephantState.Suspended then
    let g := bump GovernorCounters.revalidations (bump GovernorCounters.authority_revocations g) in
    let '(ledger, revoked) := IntentLedger.revoke_flow (FlowClassification.flow candidate)
                                (FlowClassification.flow_generation candidate) now (intents_ g) in
    bump_by revoked GovernorCounters.intents_revoked (g <| intents_ := ledger |>)
  else g.

(** Store the candidate as the record's classification, with its identity, generation,
    authority vector and history entry, and account for it. *)
Definition commit (previous : ElephantState.t) (now : Tick) (candidate : FlowClassification.t)
    : MR FlowDecision.t := fun gr =>
  let '(g, record) := gr in
  match build_authority record now g with
  | Err c => ((g, record), Err c)
  | Val authority =>
  match next_classification_generation record candidate with
  | Err c => ((g, record), Err c)
  | Val generation =>
  if classification_sequence_ g =? u64_max then ((g, record), Err StatusCode.Overflow)
  else
    let g := g <| classification_sequence_ ::= inc64 |> in
    let candidate := candidate
      <| FlowClassification.authority_vector :=
           authority <| AuthorityVector.classification_generation := generation |> |>
      <| FlowClassification.generation := generation |>
      <| FlowClassification.id := classification_sequence_ g |> in
    let transition := ClassificationTransition.mk now previous (FlowClassification.state candidate)
      (FlowClassification.authority candidate) (FlowClassification.reasons candidate)
      (FlowClassification.id candidate) generation in
    match ClassificationHistory.record transition (FlowRecord.history record) with
    | (_, Err c) => ((g, record), Err c)
    | (history, Val _) =>
        let candidate := candidate
          <| FlowClassification.history_digest := ClassificationHistory.digest_ history |> in
        let candidate := candidate
          <| FlowClassification.digest := FlowClassification.compute_digest candidate |> in
        let state_changed := negb (FlowRecord.has_classification record) ||
          negb (ElephantState.eqb previous (FlowClassification.state candidate)) in
        let authority_changed := negb (FlowRecord.has_classification record) ||
          negb (AuthorityLevel.eqb
                  (FlowClassification.authority (FlowRecord.classification record))
                  (FlowClassification.authority candidate)) in
        let g := if state_changed then bump GovernorCounters.transitions g else g in
        let record := record
          <| FlowRecord.history := history |>
          <| FlowRecord.classification := candidate |>
          <| FlowRecord.has_classification := true |>
          <| FlowRecord.evaluated_tick := now |>
          <| FlowRecord.evaluated_window :=
               match FlowLedger.latest (FlowRecord.ledger record) with
               | Some latest => FlowSample.window latest
               | None => 0
               end |>
          <| FlowRecord.enter_streak := FlowClassification.enter_streak candidate |>
          <| FlowRecord.exit_streak := FlowClassification.exit_streak candidate |> in
        let g := count_decision (FlowClassification.state candidate) g in
        let g := revoke_suspended candidate now g in
        let '(g, record) := update_index
          (FlowClassification.flow candidate, FlowClassification.flow_generation candidate)
          (g, record) in
        let g := advance_tick now g in
        match produce_intents record now g with
        | (g, Err c) => ((g, record), Err c)
        | (g, Val intents) =>
            ((g, record), Val (FlowDecision.mk candidate intents state_changed authority_changed false))
        end
    end
  end end.

Definition has_new_evidence (record : FlowRecord.t) : bool :=
  match FlowLedger.latest (FlowRecord.ledger record) with
  | Some latest => negb (FlowSample.window latest =? FlowRecord.evaluated_window record)
  | None => false
  end.

Definition previous_state (record : FlowRecord.t) : ElephantState.t :=
  if FlowRecord.has_classification record
  then FlowClassification.state (FlowRecord.classification record) else ElephantState.Unknown.

(** The measurements and the candidate an evaluation arrives at. *)
Definition assess (record : FlowRecord.t) (now : Tick) (g : t) : FlowClassification.t :=
  let competing := competition record g in
  let '(m, d) := measure record (path_of record g) g competing (suspension_reasons record now g) in
  let v := decide record (previous_state record) (has_new_evidence record) m d g in
  candidate_of record now m v (contention_of record m g) competing.2 g.

Definition evaluate (now : Tick) : MR FlowDecision.t := fun gr =>
  let '(g, record) := gr in
  if FlowRecord.has_classification record && (now <? FlowRecord.evaluated_tick record)
  then ((bump GovernorCounters.stale_refusals g, record), Err StatusCode.Stale)
  else
    let candidate := assess record now g in
    if unchanged record (has_new_evidence record) candidate
    then ((advance_tick now g, record <| FlowRecord.evaluated_tick := now |>),
          Val (FlowDecision.default
                 <| FlowDecision.classification := FlowRecord.classification record |>))
    else commit (previous_state record) now candidate (g, record).

(** ** Authoritative inputs *)

(** The suspension of one elephant and the streak reset of one classified flow. *)
Definition invalidate_record (key : FlowKey) (now : Tick) (reason : Z) : MR unit := fun gr =>
  let '(g, record) := gr in
  let was_elephant := FlowRecord.is_elephant record in
  if FlowRecord.has_classification record then
    let cls := FlowRecord.classification record in
    let reasons := Z.lor (Z.lor (FlowClassification.reasons cls) reason)
                     ReasonCode.RevalidationRequired in
    let reset r := r <| FlowRecord.enter_streak := 0 |> <| FlowRecord.exit_streak := 0 |> in
    if was_elephant then
      let transition := ClassificationTransition.mk now ElephantState.Elephant
        ElephantState.Suspended AuthorityLevel.None reasons (FlowClassification.id cls)
        (FlowClassification.generation cls) in
      match ClassificationHistory.record transition (FlowRecord.history record) with
      | (_, Err c) => ((g, record), Err c)
      | (history, Val _) =>
          let record := reset (record
            <| FlowRecord.history := history |>
            <| FlowRecord.classification := cls
                 <| FlowClassification.state := ElephantState.Suspended |>
                 <| FlowClassification.authority := AuthorityLevel.None |>
                 <| FlowClassification.reasons := reasons |> |>) in
          (update_index key (bump GovernorCounters.authority_revocations g, record), Val tt)
      end
    else
      ((g, reset (record <| FlowRecord.classification :=
                    cls <| FlowClassification.reasons := reasons |> |>)), Val tt)
  else ((g, record), Val tt).

Definition invalidate_all_authority (now : Tick) (reason : Z) : M t unit := fun g =>
  match for_each (fun key => with_record key (invalidate_record key now reason))
          (OMap.keys (flows_ g)) g with
  | (g, Err c) => (g, Err c)
  | (g, Val _) =>
      let '(ledger, changed) := IntentLedger.revoke_all now IntentState.Revoked
                                  SuppressReason.AuthorityStale (intents_ g) in
      (bump_by changed GovernorCounters.intents_revoked (g <| intents_ := ledger |>), Val tt)
  end.

(** Install a policy of a new generation. *)
Definition install_policy (policy : PolicyDocument.t) : M t unit := fun g =>
  match effective_exit_rule policy with
  | Err c => (bump GovernorCounters.policy_rejected g, Err c)
  | Val exit_rules =>
      let changed := match policy_ g with Some _ => true | None => false end in
      let issued := max_of (ValidityWindow.issued_at (PolicyDocument.validity policy))
                      (last_tick_ g) in
      let g := bump GovernorCounters.policy_accepted
                 (g <| policy_ := Some policy |> <| exit_rules_ := exit_rules |>) in
      if changed then invalidate_all_authority issued ReasonCode.PolicyChanged g else (g, Val tt)
  end.

Definition submit_policy (policy : PolicyDocument.t) : M t unit := fun g =>
  match PolicyDocument.validate policy with
  | Err c => (g, Err c)
  | Val _ =>
      let reject c := (bump GovernorCounters.policy_rejected g, Err c) in
      match policy_ g with
      | None => install_policy policy g
      | Some existing =>
          if PolicyDocument.generation policy <? PolicyDocument.generation existing
          then reject StatusCode.Stale
          else if PolicyDocument.generation policy =? PolicyDocument.generation existing then
            if negb (PolicyDocument.digest policy =? PolicyDocument.digest existing)
            then reject StatusCode.Conflict
            else if ValidityWindow.issued_at (PolicyDocument.validity policy) <?
                    ValidityWindow.issued_at (PolicyDocument.validity existing)
            then reject StatusCode.Stale
            else (bump GovernorCounters.policy_accepted (g <| policy_ := Some policy |>), Val tt)
          else install_policy policy g
      end
  end.

Definition submit_capacity (snapshot : ResourceCapacity.t) : M t unit := fun g =>
  let '(tbl, status) := CapacityTable.submit snapshot (capacities_ g) in
  let g := g <| capacities_ := tbl |> in
  (if ok status then bump GovernorCounters.capacity_accepted g
   else bump GovernorCounters.capacity_rejected g, status).

Definition submit_path (descriptor : PathDescriptor.t) : M t unit := fun g =>
  let '(tbl, status) := PathTable.submit descriptor (paths_ g) in
  let g := g <| paths_ := tbl |> in
  (if ok status then bump GovernorCounters.path_accepted g
   else bump GovernorCounters.path_rejected g, status).

(** *** Population *)

(** The completed flow that completed first, the smallest key on ties. *)
Definition eviction_victim (flows : omap_t FlowKey FlowRecord.t) : option (FlowKey * FlowRecord.t) :=
  foldl (fun victim entry =>
    if negb (FlowLedger.completed_ (FlowRecord.ledger entry.2)) then victim
    else match victim with
    | None => Some entry
    | Some current =>
        if (FlowRecord.completed_tick entry.2 <? FlowRecord.completed_tick current.2) ||
           ((FlowRecord.completed_tick entry.2 =? FlowRecord.completed_tick current.2) &&
            bool_decide (OMap.key_cmp entry.1 current.1 = Lt))
        then Some entry else victim
    end) None flows.

Definition evict_one_completed_flow (g : t) : t * bool :=
  match eviction_victim (flows_ g) with
  | None => (g, false)
  | Some (key, record) =>
      let '(g, _) := update_index key (g, record) in
      (bump GovernorCounters.flow_evictions (g <| flows_ ::= OMap.erase key |>), true)
  end.

Definition ensure_flow_capacity : M t unit := fun g =>
  if size_of (flows_ g) <? GovernorConfig.max_flows (config_ g) then (g, Val tt)
  else let '(g, evicted) := evict_one_completed_flow g in
       if evicted then (g, Val tt)
       else (bump GovernorCounters.capacity_refusals g, Err StatusCode.CapacityExceeded).

(** [emplace] leaves an existing record alone. *)
Definition create_flow (flow : FlowId) (generation : Generation) (g : t) : t :=
  let record := FlowRecord.make
    (FlowLedger.make flow generation (ledger_limits (config_ g)))
    (ClassificationHistory.make (GovernorConfig.max_history_per_flow (config_ g))) in
  g <| flows_ ::= (fun m => if OMap.contains (flow, generation) m then m
                            else OMap.set (flow, generation) record m) |>
    <| highest_generation_ ::= OMap.set flow generation |>.

(** Make sure the record a sample is for exists. *)
Definition establish_flow (s : FlowSample.t) : M t unit := fun g =>
  let flow := FlowSample.flow s in
  let generation := FlowSample.flow_generation s in
  if OMap.contains (flow, generation) (flows_ g) then (g, Val tt)
  else match OMap.find flow (highest_generation_ g) with
  | Some highest =>
      if generation <=? highest
      then (bump GovernorCounters.stale_refusals (bump GovernorCounters.evidence_rejected g),
            Err StatusCode.Stale)
      else match ensure_flow_capacity g with
      | (g, Err c) => (g, Err c)
      | (g, Val _) =>
          let g := bump GovernorCounters.flow_generation_rollovers (create_flow flow generation g) in
          let '(ledger, fenced) := IntentLedger.fence_other_generations flow generation 0 (intents_ g) in
          (bump_by fenced GovernorCounters.intents_fenced (g <| intents_ := ledger |>), Val tt)
      end
  | None =>
      match ensure_flow_capacity g with
      | (g, Err c) => (g, Err c)
      | (g, Val _) => (create_flow flow generation g, Val tt)
      end
  end.

(** [sample.span.end], or the issue tick of its validity when that is later. *)
Definition decision_tick (s : FlowSample.t) : Tick :=
  let e := TickSpan.end_ (FlowSample.span s) in
  let issued := ValidityWindow.issued_at (FlowSample.validity s) in
  if issued >? e then issued else e.

(** Append the sample to the record's ledger and evaluate it. *)
Definition ingest (s : FlowSample.t) : MR FlowDecision.t := fun gr =>
  let '(g, record) := gr in
  let '(ledger, appended) := FlowLedger.append s (FlowRecord.ledger record) in
  let record := record <| FlowRecord.ledger := ledger |> in
  match appended with
  | Err c =>
      let g := match c with
               | StatusCode.DuplicateEvidence => bump GovernorCounters.evidence_duplicates g
               | StatusCode.ContradictoryEvidence =>
                   bump GovernorCounters.evidence_rejected
                     (bump GovernorCounters.evidence_contradictory g)
               | _ => bump GovernorCounters.evidence_rejected g
               end in
      ((g, record), Err c)
  | Val outcome =>
      let duplicate := bool_decide (outcome = AppendOutcome.DuplicateIgnored) in
      let g := if duplicate then bump GovernorCounters.evidence_duplicates g
               else
                 let g := bump GovernorCounters.evidence_accepted g in
                 if FlowLedger.gap_detected_ ledger then bump GovernorCounters.evidence_gaps g else g in
      let g := if FlowLedger.completed_ ledger &&
                  (TickSpan.end_ (FlowSample.span s) >? FlowLedger.completed_at_ ledger)
               then bump GovernorCounters.evidence_after_completion g else g in
      let '(gr, decision) := evaluate (decision_tick s) (g, record) in
      (gr, match decision with
           | Val d => Val (d <| FlowDecision.evidence_duplicate := duplicate |>)
           | Err c => Err c
           end)
  end.

Definition submit_evidence (s : FlowSample.t) : M t FlowDecision.t := fun g =>
  match policy_ g with
  | None => (bump GovernorCounters.evidence_rejected g, Err StatusCode.NotFound)
  | Some _ =>
  match FlowSample.validate s with
  | Err c =>
      let g := bump GovernorCounters.evidence_rejected g in
      (if bool_decide (c = StatusCode.ContradictoryEvidence)
       then bump GovernorCounters.evidence_contradictory g else g, Err c)
  | Val _ =>
  match establish_flow s g with
  | (g, Err c) => (g, Err c)
  | (g, Val _) => with_record (FlowSample.flow s, FlowSample.flow_generation s) (ingest s) g
  end end end.

(** [complete_flow] on the record: the completion stays recorded when the evaluation
    that follows fails. *)
Definition complete_record (flow : FlowId) (generation : Generation) (at_ : Tick) : MR unit := fun gr =>
  let '(g, record) := gr in
  match FlowLedger.mark_completed at_ (FlowRecord.ledger record) with
  | (_, Err c) => ((g, record), Err c)
  | (ledger, Val _) =>
      let record := record <| FlowRecord.ledger := ledger |> <| FlowRecord.completed_tick := at_ |> in
      let g := bump GovernorCounters.flow_completions g in
      let '(intents, changed) := IntentLedger.transition_flow_terminal flow generation
                                   IntentState.Completed at_ (intents_ g) in
      let g := bump_by changed GovernorCounters.intents_revoked (g <| intents_ := intents |>) in
      let '(gr, decision) := evaluate at_ (g, record) in
      (gr, match decision with Val _ => Val tt | Err c => Err c end)
  end.

Definition complete_flow (flow : FlowId) (generation : Generation) (at_ : Tick) : M t unit :=
  with_record (flow, generation) (complete_record flow generation at_).

(** ** Sweeps *)

Definition sweep_flow (now : Tick) (key : FlowKey) (gb : t * DecisionBatch.t) : t * DecisionBatch.t :=
  let '(g, batch) := gb in
  match OMap.find key (flows_ g) with
  | None => (g, batch)
  | Some record =>
      if FlowRecord.has_classification record && (FlowRecord.evaluated_tick record >? now)
      then (g, batch)
      else if negb (FlowRecord.is_elephant record) && negb (suspension_reasons record now g).2
      then (g, batch)
      else
        match with_record key (evaluate now) g with
        | (g, Err _) => (g, batch)
        | (g, Val decision) =>
            if negb (FlowDecision.state_changed decision) &&
               negb (FlowDecision.authority_changed decision)
            then (g, batch)
            else
              let batch :=
                if ElephantState.eqb (FlowClassification.state (FlowDecision.classification decision))
                     ElephantState.Suspended
                then batch <| DecisionBatch.suspensions ::= inc64 |>
                           <| DecisionBatch.revalidations ::= inc64 |>
                           <| DecisionBatch.revocations ::= inc64 |>
                else batch in
              (g, batch <| DecisionBatch.decisions ::= (fun ds => ds ++ [decision]) |>)
        end
  end.

Definition tick (now : Tick) : M t DecisionBatch.t := fun g =>
  let precedes_policy :=
    match policy_ g with
    | Some p => ValidityWindow.well_formed (PolicyDocument.validity p) &&
                (now <? ValidityWindow.issued_at (PolicyDocument.validity p))
    | None => false
    end in
  if precedes_policy || (now <? last_tick_ g)
  then (bump GovernorCounters.stale_refusals g, Err StatusCode.Stale)
  else match TickGuard.observe now (tick_guard_ g) with
  | (_, Err c) => (bump GovernorCounters.stale_refusals g, Err c)
  | (guard, Val _) =>
      let g := bump GovernorCounters.sweeps
                 (bump GovernorCounters.ticks (g <| tick_guard_ := guard |>)) in
      let g := g <| capacities_ ::= CapacityTable.expire now |> <| paths_ ::= PathTable.expire now |> in
      let '(ledger, expired) := IntentLedger.expire now (intents_ g) in
      let g := bump_by expired GovernorCounters.intents_expired (g <| intents_ := ledger |>) in
      let batch := DecisionBatch.make now <| DecisionBatch.expirations := expired |> in
      let '(g, batch) := foldl (fun gb key => sweep_flow now key gb) (g, batch)
                           (OMap.keys (flows_ g)) in
      (advance_tick now g, Val batch)
  end.

(** ** Queries *)

Definition classification (flow : FlowId) (generation : Generation) (now : Tick)
    : M t FlowClassification.t := fun g =>
  match with_record (flow, generation) (evaluate now) g with
  | (g, Err c) => (g, Err c)
  | (g, Val decision) => (g, Val (FlowDecision.classification decision))
  end.

Definition ledger (flow : FlowId) (generation : Generation) (g : t) : option FlowLedger.t :=
  FlowRecord.ledger <$> OMap.find (flow, generation) (flows_ g).
Definition history (flow : FlowId) (generation : Generation) (g : t)
    : option ClassificationHistory.t :=
  FlowRecord.history <$> OMap.find (flow, generation) (flows_ g).
Definition flow_count (g : t) : Z := size_of (flows_ g).
Definition flow_keys (g : t) : list FlowKey := OMap.keys (flows_ g).

(** Distinct flow identifiers: repetitions are adjacent in key order. *)
Definition flow_ids (g : t) : list FlowId :=
  foldl (fun out key =>
    if match list.last out with Some b => b =? fst key | None => false end
    then out else out ++ [fst key]) [] (flow_keys g).

Definition reset (g : t) : t :=
  mk (config_ g) GovernorIncarnation.default (TickGuard.reset (tick_guard_ g)) 0 None
     RuleSet.default CapacityTable.default PathTable.default [] [] [] []
     (IntentLedger.make (GovernorConfig.max_intents (config_ g)) kMaxAttempts) 0 0
     GovernorCounters.zero.

End Governor.
