(* ===== verification/GovernorFacts.v ===== *)
(** * What the governor guarantees: decisions

    Facts about one evaluation: which parts of the state it touches, what must hold for
    a flow to be an elephant and to be governed, the hysteresis state machine and the
    choice of the binding resource. *)
From S2P Require Import Prelude Status Checked Tri Tick Hash OMap Flow Tables Policy Impact Classification Intervention InterventionFacts Governor.

#[local] Opaque Hasher.digest_of.

(** ** The parts of the state an evaluation leaves alone *)

Record same_core (g g' : Governor.t) : Prop := {
  sc_config : Governor.config_ g' = Governor.config_ g;
  sc_incarnation : Governor.incarnation_ g' = Governor.incarnation_ g;
  sc_guard : Governor.tick_guard_ g' = Governor.tick_guard_ g;
  sc_policy : Governor.policy_ g' = Governor.policy_ g;
  sc_exit : Governor.exit_rules_ g' = Governor.exit_rules_ g;
  sc_capacities : Governor.capacities_ g' = Governor.capacities_ g;
  sc_paths : Governor.paths_ g' = Governor.paths_ g;
  sc_flows : Governor.flows_ g' = Governor.flows_ g;
  sc_highest : Governor.highest_generation_ g' = Governor.highest_generation_ g }.

#[global] Instance same_core_preorder : PreOrder same_core.
Proof. split; [by intros g; split|]. intros a b c [] []. split; congruence. Qed.

Lemma bump_core f `{!Setter f} g : same_core g (Governor.bump f g).
Proof. by split. Qed.
Lemma bump_by_core n f `{!Setter f} g : same_core g (Governor.bump_by n f g).
Proof. by split. Qed.
Lemma advance_tick_core now g : same_core g (Governor.advance_tick now g).
Proof. unfold Governor.advance_tick. destruct (_ >? _); by split. Qed.
Lemma set_intents_core l g : same_core g (g <| Governor.intents_ := l |>).
Proof. by split. Qed.
Lemma count_decision_core s g : same_core g (Governor.count_decision s g).
Proof. unfold Governor.count_decision. destruct s; by split. Qed.

Lemma revoke_suspended_core c now g : same_core g (Governor.revoke_suspended c now g).
Proof.
  unfold Governor.revoke_suspended. destruct (ElephantState.eqb _ _); [|done].
  destruct (IntentLedger.revoke_flow _ _ _ _). by split.
Qed.

Lemma unbind_core key r g : same_core g (Governor.unbind key r g).
Proof. unfold Governor.unbind. repeat (case_match; try done); by split. Qed.

(** What [update_index] keeps of the record. *)
Record same_record (r r' : FlowRecord.t) : Prop := {
  sr_ledger : FlowRecord.ledger r' = FlowRecord.ledger r;
  sr_history : FlowRecord.history r' = FlowRecord.history r;
  sr_classification : FlowRecord.classification r' = FlowRecord.classification r;
  sr_has : FlowRecord.has_classification r' = FlowRecord.has_classification r;
  sr_enter : FlowRecord.enter_streak r' = FlowRecord.enter_streak r;
  sr_exit : FlowRecord.exit_streak r' = FlowRecord.exit_streak r;
  sr_tick : FlowRecord.evaluated_tick r' = FlowRecord.evaluated_tick r;
  sr_window : FlowRecord.evaluated_window r' = FlowRecord.evaluated_window r;
  sr_completed : FlowRecord.completed_tick r' = FlowRecord.completed_tick r }.

Lemma update_index_frame key g r g' r' :
  Governor.update_index key (g, r) = (g', r') ->
  same_core g g' /\ same_record r r' /\ Governor.intents_ g' = Governor.intents_ g /\
  Governor.classification_sequence_ g' = Governor.classification_sequence_ g.
Proof.
  assert (Hunbind : Governor.intents_ (Governor.unbind key r g) = Governor.intents_ g /\
    Governor.classification_sequence_ (Governor.unbind key r g) = Governor.classification_sequence_ g).
  { unfold Governor.unbind. repeat (case_match; try done). }
  destruct Hunbind as [Hu1 Hu2]. pose proof (unbind_core key r g) as Hu.
  unfold Governor.update_index. destruct (FlowRecord.bound r).
  - revert Hu Hu1 Hu2. generalize (Governor.unbind key r g). intros gu Hu Hu1 Hu2.
    destruct (negb _); [intros [= <- <-]; split; [done|]; split; [by split|]; by split|].
    destruct (negb _); [intros [= <- <-]; split; [done|]; split; [by split|]; by split|].
    unfold Governor.bind. intros [= <- <-].
    split; [destruct Hu; by split|]. split; [by split|]. by split.
  - destruct (negb _); [intros [= <- <-]; split; [done|]; split; [by split|]; by split|].
    destruct (negb _); [intros [= <- <-]; split; [done|]; split; [by split|]; by split|].
    unfold Governor.bind. intros [= <- <-].
    split; [by split|]. split; [by split|]. by split.
Qed.

Lemma emit_core i g : same_core g (fst (Governor.emit i g)).
Proof.
  unfold Governor.emit. destruct (IntentLedger.record i _) as [l [s|c]].
  - destruct (GovernanceIntent.state s); by split.
  - destruct c; by split.
Qed.

Lemma emit_all_core due propose es : forall out g,
  same_core g (fst (Governor.emit_all due propose es out g)).
Proof.
  induction es as [|e es IH]; intros out g; [done|]. cbn [Governor.emit_all].
  destruct (due e); [|apply IH]. unfold mbind, M_bind.
  pose proof (emit_core (propose e) g) as Hc.
  destruct (Governor.emit (propose e) g) as [g1 [i|c]]; [|done].
  etrans; [exact Hc|]. apply IH.
Qed.

Lemma produce_intents_core r now g : same_core g (fst (Governor.produce_intents r now g)).
Proof.
  unfold Governor.produce_intents. destruct (Governor.policy_ g); [|done].
  destruct (negb _); [done|]. destruct (IntentLedger.revoke_stale_generation _ _ _ _ _) as [l n].
  destruct (_ || _); [by split|]. etrans; [|apply emit_all_core]. by split.
Qed.

(** ** Commit and evaluate *)

Section evaluation.
Context (now : Tick).

(** What a decision keeps of the candidate it was made from. *)
Record decided (c d : FlowClassification.t) : Prop := {
  de_state : FlowClassification.state d = FlowClassification.state c;
  de_authority : FlowClassification.authority d = FlowClassification.authority c;
  de_reasons : FlowClassification.reasons d = FlowClassification.reasons c }.

Lemma commit_core prev cand g r gr' res :
  Governor.commit prev now cand (g, r) = (gr', res) ->
  same_core g (fst gr') /\ FlowRecord.ledger (snd gr') = FlowRecord.ledger r /\
  FlowRecord.completed_tick (snd gr') = FlowRecord.completed_tick r.
Proof.
  unfold Governor.commit. intros H.
  destruct (Governor.build_authority r now g) as [auth|c]; [|injection H as <- _; by split_and!].
  destruct (Governor.next_classification_generation r cand) as [gen|c];
    [|injection H as <- _; by split_and!].
  destruct (_ =? u64_max); [injection H as <- _; by split_and!|]. cbv zeta in H.
  destruct (ClassificationHistory.record _ _) as [h [u|c]];
    [|injection H as <- _; split_and!; try done; by split].
  match type of H with context [Governor.update_index ?k (?a, ?b)] =>
    set (g1 := a) in H; set (r1 := b) in H; set (k1 := k) in H end.
  assert (Hg1 : same_core g g1).
  { unfold g1. etrans; [|apply revoke_suspended_core]. etrans; [|apply count_decision_core].
    destruct (negb _ || negb _); by split. }
  assert (Hr1 : FlowRecord.ledger r1 = FlowRecord.ledger r /\
                FlowRecord.completed_tick r1 = FlowRecord.completed_tick r) by done.
  clearbody g1 r1. destruct (Governor.update_index k1 (g1, r1)) as [g2 r2] eqn:Eu.
  apply update_index_frame in Eu as (Hg2 & Hr2 & _).
  pose proof (produce_intents_core r2 now (Governor.advance_tick now g2)) as Hp.
  assert (Hcore : same_core g (fst (Governor.produce_intents r2 now (Governor.advance_tick now g2)))).
  { etrans; [exact Hg1|]. etrans; [exact Hg2|]. etrans; [apply advance_tick_core|exact Hp]. }
  assert (Hr : FlowRecord.ledger r2 = FlowRecord.ledger r /\
               FlowRecord.completed_tick r2 = FlowRecord.completed_tick r)
    by (destruct Hr1, Hr2; split; congruence).
  destruct (Governor.produce_intents r2 now _) as [g3 [is_|c]]; injection H as <- _; by split.
Qed.

(** A successful commit stores what it returns. *)
Lemma commit_success prev cand g r g' r' d :
  Governor.commit prev now cand (g, r) = ((g', r'), Val d) ->
  decided cand (FlowDecision.classification d) /\
  FlowRecord.classification r' = FlowDecision.classification d /\
  FlowRecord.has_classification r' = true /\
  FlowRecord.evaluated_tick r' = now /\
  FlowClassification.measurements (FlowDecision.classification d) =
    FlowClassification.measurements cand.
Proof.
  unfold Governor.commit. intros H.
  destruct (Governor.build_authority r now g) as [auth|c]; [|done].
  destruct (Governor.next_classification_generation r cand) as [gen|c]; [|done].
  destruct (_ =? u64_max); [done|]. cbv zeta in H.
  destruct (ClassificationHistory.record _ _) as [h [u|c]]; [|done].
  match type of H with context [Governor.update_index ?k (?a, ?b)] =>
    set (g1 := a) in H; set (r1 := b) in H; set (k1 := k) in H end.
  destruct (Governor.update_index k1 (g1, r1)) as [g2 r2] eqn:Eu.
  apply update_index_frame in Eu as (_ & Hr2 & _).
  destruct (Governor.produce_intents r2 now _) as [g3 [is_|c]]; [|done].
  injection H as _ <- <-. destruct Hr2 as [_ _ Hc Hh _ _ Ht _ _].
  split; [by split|]. split; [exact Hc|]. split; [exact Hh|]. split; [exact Ht|]. reflexivity.
Qed.

(** An evaluation that answers has decided what [assess] arrived at. *)
Lemma evaluate_decided g r g' r' d :
  Governor.evaluate now (g, r) = ((g', r'), Val d) ->
  decided (Governor.assess r now g) (FlowDecision.classification d) /\
  FlowRecord.classification r' = FlowDecision.classification d /\
  FlowRecord.has_classification r' = true /\ FlowRecord.evaluated_tick r' = now.
Proof.
  unfold Governor.evaluate. intros H. destruct (_ && _); [done|]. cbv zeta in H.
  destruct (Governor.unchanged _ _ _) eqn:Eu.
  - injection H as _ <- <-. unfold Governor.unchanged in Eu. boolify.
    unfold ElephantState.eqb, AuthorityLevel.eqb in *.
    repeat match goal with Hb : bool_decide _ = true |- _ => apply bool_decide_eq_true in Hb end.
    split; [by split|]. by split_and!.
  - apply commit_success in H as (Hd & Hc & Hh & Ht & _). auto.
Qed.

Lemma evaluate_core g r gr' res :
  Governor.evaluate now (g, r) = (gr', res) ->
  same_core g (fst gr') /\ FlowRecord.ledger (snd gr') = FlowRecord.ledger r /\
  FlowRecord.completed_tick (snd gr') = FlowRecord.completed_tick r.
Proof.
  unfold Governor.evaluate. intros H.
  destruct (_ && _); [injection H as <- _; split; [apply bump_core|done]|]. cbv zeta in H.
  destruct (Governor.unchanged _ _ _);
    [injection H as <- _; split; [apply advance_tick_core|done]|].
  by apply commit_core in H.
Qed.
End evaluation.

(** ** What a decision rests on *)

(** The inputs a flow must have at [now] for its classification to be authoritative. *)
Record well_evidenced (r : FlowRecord.t) (now : Tick) (g : Governor.t) : Prop := {
  we_latest : exists s p c,
    FlowLedger.latest (FlowRecord.ledger r) = Some s /\
    PathTable.find (FlowSample.path s) (Governor.paths_ g) = Some p /\
    is_fresh (PathDescriptor.validity p) now = true /\
    c.1 ∈ PathDescriptor.resources p /\
    CapacityTable.find c.1 (Governor.capacities_ g) = Some c.2 /\
    is_fresh (ResourceCapacity.validity c.2) now = true;
  we_fresh : is_fresh (FlowLedger.latest_validity_ (FlowRecord.ledger r)) now = true;
  we_gap : FlowLedger.gap_detected_ (FlowRecord.ledger r) = false;
  we_policy : exists p, Governor.policy_ g = Some p /\ is_fresh (PolicyDocument.validity p) now = true;
  we_open : FlowLedger.completed_ (FlowRecord.ledger r) = false }.

(** *** The binding resource *)

Section binding.
Context (capacities : CapacityTable.t) (fresh : bool) (now : Tick).

(** A resource that may be the binding one. *)
Definition eligible (r : ResourceId) (c : ResourceCapacity.t) (a : Z) : Prop :=
  CapacityTable.find r capacities = Some c /\
  (fresh = true -> is_fresh (ResourceCapacity.validity c) now = true) /\
  ResourceCapacity.available c = Val a.

(** [r] has the least availability among [l], the smallest identifier on ties. *)
Definition best_of (l : list ResourceId) (out : option (ResourceId * ResourceCapacity.t)) : Prop :=
  match out with
  | None => forall r c a, r ∈ l -> ~ eligible r c a
  | Some (r, c) => r ∈ l /\ exists a, eligible r c a /\
      forall r' c' a', r' ∈ l -> eligible r' c' a' -> a < a' \/ (a = a' /\ r <= r')
  end.

Lemma resolve_step_best l out r :
  best_of l out -> best_of (l ++ [r]) (Governor.resolve_step capacities fresh now out r).
Proof.
  intros Hout.
  assert (Hskip : (forall c a, ~ eligible r c a) -> best_of (l ++ [r]) out).
  { intros Hn. destruct out as [[b bc]|]; simpl in *.
    - destruct Hout as [Hin (a & Ha & Hmin)]. split; [apply elem_of_app; auto|].
      exists a. split; [done|]. intros r' c' a' [Hr'|Hr']%elem_of_app He; [by apply (Hmin r' c')|].
      apply list_elem_of_singleton in Hr' as ->. by destruct (Hn c' a').
    - intros r' c a [Hr'|Hr']%elem_of_app He; [by apply (Hout r' c a)|].
      apply list_elem_of_singleton in Hr' as ->. by destruct (Hn c a). }
  unfold Governor.resolve_step.
  destruct (CapacityTable.find r capacities) as [c|] eqn:Hf.
  2:{ apply Hskip. intros c a [He _]. congruence. }
  destruct (fresh && negb _) eqn:Efr.
  { apply Hskip. intros c' a (He & Hfr & _). boolify. specialize (Hfr ltac:(done)). congruence. }
  destruct (ResourceCapacity.available c) as [a|] eqn:Ha.
  2:{ apply Hskip. intros c' a' (He & _ & Ha'). congruence. }
  assert (Hel : eligible r c a).
  { split_and!; try done. intros ->. by destruct (is_fresh _ _). }
  assert (Huniq : forall c' a', eligible r c' a' -> a' = a).
  { intros c' a' (He & _ & Ha'). congruence. }
  destruct out as [[b bc]|]; simpl in *.
  - destruct Hout as [Hin (ab & Hab & Hmin)]. pose proof Hab as (_ & _ & ->). simpl.
    destruct (_ || _) eqn:Ecmp.
    + split; [apply elem_of_app; right; by apply list_elem_of_singleton|].
      exists a. split; [done|]. intros r' c' a' [Hr'|Hr']%elem_of_app He.
      * specialize (Hmin r' c' a' Hr' He). apply orb_true_iff in Ecmp as [|?]; boolify; lia.
      * apply list_elem_of_singleton in Hr' as ->. rewrite (Huniq c' a' He). lia.
    + boolify. split; [apply elem_of_app; auto|]. exists ab. split; [done|].
      intros r' c' a' [Hr'|Hr']%elem_of_app He; [by apply (Hmin r' c')|].
      apply list_elem_of_singleton in Hr' as ->. rewrite (Huniq c' a' He).
      apply andb_false_iff in H0 as [?|?]; lia.
  - split; [apply elem_of_app; right; by apply list_elem_of_singleton|].
    exists a. split; [done|]. intros r' c' a' [Hr'|Hr']%elem_of_app He; [by destruct (Hout r' c' a')|].
    apply list_elem_of_singleton in Hr' as ->. rewrite (Huniq c' a' He). lia.
Qed.

Lemma resolve_fold_best l : forall l0 out,
  best_of l0 out ->
  best_of (l0 ++ l) (foldl (Governor.resolve_step capacities fresh now) out l).
Proof.
  induction l as [|r l IH]; intros l0 out Hout; [by rewrite app_nil_r|].
  cbn [foldl]. replace (l0 ++ r :: l) with ((l0 ++ [r]) ++ l) by by rewrite <- app_assoc.
  apply IH. by apply resolve_step_best.
Qed.
End binding.

Lemma resolve_binding_best p capacities fresh now :
  (fresh = true -> is_fresh (PathDescriptor.validity p) now = true) ->
  best_of capacities fresh now (PathDescriptor.resources p)
    (Governor.resolve_binding (Some p) capacities fresh now).
Proof.
  intros Hp. unfold Governor.resolve_binding. destruct (fresh && negb _) eqn:E.
  { boolify. specialize (Hp ltac:(done)). congruence. }
  apply (resolve_fold_best capacities fresh now _ [] None). intros r c a Hr. by apply not_elem_of_nil in Hr.
Qed.

(** *** No doubt left *)

Lemma fresh_verdict w now :
  negb (bool_decide (evaluate_freshness w now = FreshnessVerdict.Fresh)) = false ->
  is_fresh w now = true.
Proof. unfold is_fresh. by destruct (bool_decide _). Qed.

Lemma authority_doubts_clear r now g d :
  (Governor.authority_doubts r now g d).2 = false -> d.2 = false.
Proof. unfold Governor.authority_doubts. repeat case_match; done. Qed.

Lemma policy_doubts_clear now g d :
  (Governor.policy_doubts now g d).2 = false ->
  d.2 = false /\
  exists p, Governor.policy_ g = Some p /\ is_fresh (PolicyDocument.validity p) now = true.
Proof.
  unfold Governor.policy_doubts. destruct (Governor.policy_ g) as [p|]; [|done].
  destruct (negb _) eqn:E; [done|]. intros Hd. split; [done|]. exists p. eauto using fresh_verdict.
Qed.

Lemma evidence_doubts_clear r now g d :
  (Governor.evidence_doubts r now g d).2 = false ->
  (exists s p c,
    FlowLedger.latest (FlowRecord.ledger r) = Some s /\
    PathTable.find (FlowSample.path s) (Governor.paths_ g) = Some p /\
    is_fresh (PathDescriptor.validity p) now = true /\
    c.1 ∈ PathDescriptor.resources p /\
    CapacityTable.find c.1 (Governor.capacities_ g) = Some c.2 /\
    is_fresh (ResourceCapacity.validity c.2) now = true) /\
  is_fresh (FlowLedger.latest_validity_ (FlowRecord.ledger r)) now = true /\
  FlowLedger.gap_detected_ (FlowRecord.ledger r) = false.
Proof.
  unfold Governor.evidence_doubts. destruct (FlowLedger.latest _) as [s|] eqn:El; [|done]. cbv zeta.
  destruct (negb (bool_decide _)) eqn:Ef; destruct (FlowLedger.gap_detected_ _) eqn:Eg;
    (destruct (PathTable.find _ _) as [p|] eqn:Ep; [|done]);
    (destruct (negb (is_fresh _ _)) eqn:Epf; [done|]);
    (destruct (Governor.resolve_binding _ _ _ _) as [[rid c]|] eqn:Eb; [|done]); try done.
  intros _. boolify. split; [|auto using fresh_verdict].
  pose proof (resolve_binding_best p (Governor.capacities_ g) true now ltac:(done)) as Hb.
  rewrite Eb in Hb. destruct Hb as [Hin (a & (Hf & Hfr & _) & _)].
  exists s, p, (rid, c). split_and!; auto.
Qed.

Lemma suspension_clear r now g :
  (Governor.suspension_reasons r now g).2 = false ->
  FlowLedger.completed_ (FlowRecord.ledger r) = false -> well_evidenced r now g.
Proof.
  unfold Governor.suspension_reasons. cbv zeta. intros H Hc.
  assert (Ha : (Governor.authority_doubts r now g (Governor.policy_doubts now g
    (Governor.evidence_doubts r now g (ReasonCode.None, false)))).2 = false).
  { destruct (_ && _) in H; done. }
  apply authority_doubts_clear, policy_doubts_clear in Ha as [Ha Hp].
  apply evidence_doubts_clear in Ha as (He & Hf & Hg). by split.
Qed.

Lemma measure_doubt r path g comp d m d' :
  Governor.measure r path g comp d = (m, d') -> d'.2 = false -> d.2 = false.
Proof.
  unfold Governor.measure. destruct comp as [fl el].
  destruct (Governor.compose_measurements _ _ _ _ _ _) as [m0|c]; intros [= <- <-];
    destruct (_ && _); simpl; done.
Qed.

(** ** The state machine *)

Lemma decide_elephant r prev new m d g :
  Governor.v_state (Governor.decide r prev new m d g) = ElephantState.Elephant ->
  d.2 = false /\ FlowLedger.completed_ (FlowRecord.ledger r) = false.
Proof.
  unfold Governor.decide. destruct d as [rs susp]. cbn [snd].
  destruct (FlowLedger.completed_ _); [done|]. destruct susp; [|done].
  cbv zeta. destruct (FlowRecord.has_classification r && _); done.
Qed.

Lemma enforce_protection_frame c g :
  FlowClassification.state (Governor.enforce_protection c g) = FlowClassification.state c /\
  FlowClassification.flow (Governor.enforce_protection c g) = FlowClassification.flow c /\
  FlowClassification.flow_generation (Governor.enforce_protection c g) =
    FlowClassification.flow_generation c.
Proof.
  assert (Hd : forall x, FlowClassification.state (Governor.demote x) = FlowClassification.state x /\
    FlowClassification.flow (Governor.demote x) = FlowClassification.flow x /\
    FlowClassification.flow_generation (Governor.demote x) = FlowClassification.flow_generation x).
  { intros x. unfold Governor.demote. by destruct (AuthorityLevel.eqb _ _). }
  unfold Governor.enforce_protection. destruct (Governor.policy_ g) as [p|]; [|done].
  destruct (negb _); [done|]. cbv zeta.
  destruct (ProtectionState.eqb _ ProtectionState.Unknown);
    [match goal with |- context [Governor.demote ?x] => exact (Hd x) end|].
  destruct (ProtectionState.eqb _ ProtectionState.Protected),
    (ProtectionState.eqb _ ProtectionState.NonPreemptible), (FlowMeasurements.has_reservation _),
    (ServiceClass.eqb _ ServiceClass.Reserved || _);
    first [match goal with |- context [Governor.demote ?x] => exact (Hd x) end | done].
Qed.

Lemma candidate_state r now m v cont comp g :
  FlowClassification.state (Governor.candidate_of r now m v cont comp g) = Governor.v_state v.
Proof.
  unfold Governor.candidate_of. cbv zeta.
  match goal with |- context [Governor.enforce_protection ?x g] =>
    destruct (enforce_protection_frame x g) as [-> _] end.
  reflexivity.
Qed.

Lemma assess_state r now g m d :
  Governor.measure r (Governor.path_of r g) g (Governor.competition r g)
    (Governor.suspension_reasons r now g) = (m, d) ->
  FlowClassification.state (Governor.assess r now g) =
  Governor.v_state (Governor.decide r (Governor.previous_state r)
    (Governor.has_new_evidence r) m d g).
Proof. unfold Governor.assess. cbv zeta. intros ->. apply candidate_state. Qed.

Lemma assess_elephant r now g :
  FlowClassification.state (Governor.assess r now g) = ElephantState.Elephant ->
  well_evidenced r now g.
Proof.
  destruct (Governor.measure r (Governor.path_of r g) g (Governor.competition r g)
    (Governor.suspension_reasons r now g)) as [m d] eqn:Em.
  rewrite (assess_state r now g m d Em). intros [Hd Hc]%decide_elephant.
  apply suspension_clear; [|done]. by eapply measure_doubt.
Qed.

(** ** Protection *)

(** A protected obligation, or a protection state that cannot rule one out. *)
Definition obligated (m : FlowMeasurements.t) : bool :=
  ProtectionState.eqb (FlowMeasurements.protection m) ProtectionState.Unknown || carries_obligation m.

Definition protects (g : Governor.t) : bool :=
  match Governor.policy_ g with
  | Some p => IntentAuthorization.protect_obligations (PolicyDocument.authorization p)
  | None => false
  end.

Lemma add_reason_frame rs c :
  FlowClassification.authority (Governor.add_reason rs c) = FlowClassification.authority c /\
  FlowClassification.measurements (Governor.add_reason rs c) = FlowClassification.measurements c.
Proof. done. Qed.

Lemma demote_spec c :
  FlowClassification.authority (Governor.demote c) <> AuthorityLevel.Govern /\
  (FlowClassification.authority c = AuthorityLevel.None ->
   FlowClassification.authority (Governor.demote c) = AuthorityLevel.None) /\
  FlowClassification.measurements (Governor.demote c) = FlowClassification.measurements c.
Proof.
  unfold Governor.demote, AuthorityLevel.eqb. case_bool_decide as E; simpl; [|done].
  rewrite E. by split_and!.
Qed.

Lemma enforce_protection_spec c g :
  let c' := Governor.enforce_protection c g in
  FlowClassification.measurements c' = FlowClassification.measurements c /\
  (FlowClassification.authority c = AuthorityLevel.None ->
   FlowClassification.authority c' = AuthorityLevel.None) /\
  (protects g && obligated (FlowClassification.measurements c) = true ->
   FlowClassification.authority c' <> AuthorityLevel.Govern).
Proof.
  cbv zeta. unfold Governor.enforce_protection, protects.
  destruct (Governor.policy_ g) as [p|]; [|done].
  destruct (IntentAuthorization.protect_obligations _); [|done]. cbn [negb andb].
  unfold obligated, carries_obligation.
  set (m := FlowClassification.measurements c).
  destruct (ProtectionState.eqb (FlowMeasurements.protection m) ProtectionState.Unknown).
  { destruct (demote_spec (Governor.add_reason ReasonCode.ProtectedObligation
      (Governor.add_reason ReasonCode.EvidenceUnknownField c))) as (H1 & H2 & H3). by split_and!. }
  cbn [orb].
  destruct (ProtectionState.eqb _ ProtectionState.Protected),
    (ProtectionState.eqb _ ProtectionState.NonPreemptible), (FlowMeasurements.has_reservation m),
    (ServiceClass.eqb _ ServiceClass.Reserved), (ServiceClass.eqb _ ServiceClass.Control);
    cbn [orb]; try (split_and!; done);
    match goal with |- context [Governor.demote ?x] =>
      destruct (demote_spec x) as (H1 & H2 & H3); split_and!; [exact H3|exact H2|intros _; exact H1]
    end.
Qed.

Lemma candidate_authority r now m v cont comp g :
  let c := Governor.candidate_of r now m v cont comp g in
  FlowClassification.measurements c = m /\
  (FlowClassification.authority c <> AuthorityLevel.None -> Governor.v_state v = ElephantState.Elephant) /\
  (FlowClassification.authority c = AuthorityLevel.Govern -> protects g && obligated m = false).
Proof.
  cbv zeta. unfold Governor.candidate_of. cbv zeta.
  match goal with |- context [Governor.enforce_protection ?x g] => set (c0 := x) end.
  destruct (enforce_protection_spec c0 g) as (H1 & H2 & H3). split; [exact H1|]. split.
  - intros Hn. destruct (decide (Governor.v_state v = ElephantState.Elephant)) as [|Hne]; [done|].
    exfalso. apply Hn, H2. unfold c0, ElephantState.eqb. simpl. by rewrite bool_decide_eq_false_2.
  - intros Hg. apply not_true_iff_false. intros Hb. by apply H3.
Qed.

Lemma assess_authority r now g :
  let c := Governor.assess r now g in
  (FlowClassification.authority c <> AuthorityLevel.None ->
   FlowClassification.state c = ElephantState.Elephant) /\
  (FlowClassification.authority c = AuthorityLevel.Govern ->
   protects g && obligated (FlowClassification.measurements c) = false).
Proof.
  cbv zeta. destruct (Governor.measure r (Governor.path_of r g) g (Governor.competition r g)
    (Governor.suspension_reasons r now g)) as [m d] eqn:Em.
  rewrite (assess_state r now g m d Em). unfold Governor.assess. cbv zeta. rewrite Em.
  match goal with |- context [Governor.candidate_of ?a ?b ?c ?e ?f ?h ?i] =>
    destruct (candidate_authority a b c e f h i) as (H1 & H2 & H3) end.
  rewrite H1. by split.
Qed.

(** ** Properties *)

(** The identity of a decision's inputs, for the witnesses: a policy on the sustained
    rate, one resource, one path. *)
Definition demo_policy (generation rate enter exit : Z) (auth : IntentAuthorization.t) : PolicyDocument.t :=
  PolicyDocument.finalize (PolicyDocument.default
    <| PolicyDocument.id := 1 |>
    <| PolicyDocument.generation := generation |>
    <| PolicyDocument.enter_rule :=
         RuleSet.mk [leaf (Threshold.mk ThresholdKind.SustainedRate rate ServiceClass.Unknown)] 0 |>
    <| PolicyDocument.hysteresis := HysteresisSpec.mk enter exit 8000 |>
    <| PolicyDocument.authorization := auth |>
    <| PolicyDocument.validity := ValidityWindow.mk 0 100000 |>
    <| PolicyDocument.provenance := demo_provenance |>).

Definition demo_governor : Governor.t :=
  let g := Governor.make (GovernorConfig.default <| GovernorConfig.max_flows := 1 |>) in
  let g := fst (Governor.submit_policy (demo_policy 1 1000 1 3 IntentAuthorization.default) g) in
  let g := fst (Governor.submit_capacity (demo_capacity 1 10000 2000) g) in
  fst (Governor.submit_path (demo_path 1) g).

(** The record of the demo flow after [n] windows of 500 bytes per 100 ticks. *)
Definition demo_record (n : Z) : FlowRecord.t :=
  FlowRecord.make (demo_ledger 8 n 500) (ClassificationHistory.make 16).

(** C2: A flow is only ever decided to be an elephant at a tick at which its newest
    evidence is fresh and gap free, its path is known and fresh, some resource of that path has a
    fresh capacity snapshot, a fresh policy is installed and the flow has not completed. *)
Theorem elephant_requires_fresh_inputs (g g' : Governor.t) (r r' : FlowRecord.t) (now : Tick)
    (d : FlowDecision.t) :
  Governor.evaluate now (g, r) = ((g', r'), Val d) ->
  FlowClassification.state (FlowDecision.classification d) = ElephantState.Elephant ->
  well_evidenced r now g.
Proof.
  intros H Hs. apply evaluate_decided in H as ([Hst _ _] & _). apply assess_elephant. congruence.
Qed.

Lemma elephant_requires_fresh_inputs_witness : well_evidenced (demo_record 2) 300 demo_governor.
Proof.
  destruct (Governor.evaluate 300 (demo_governor, demo_record 2)) as [[g' r'] [d|c]] eqn:E.
  - apply (elephant_requires_fresh_inputs _ _ _ _ _ _ E).
    assert (Hs : match snd (Governor.evaluate 300 (demo_governor, demo_record 2)) with
      | Val d => FlowClassification.state (FlowDecision.classification d)
      | Err _ => ElephantState.Unknown end = ElephantState.Elephant) by (vm_compute; reflexivity).
    rewrite E in Hs. exact Hs.
  - exfalso. assert (Hs : ok (snd (Governor.evaluate 300 (demo_governor, demo_record 2))) = true)
      by (vm_compute; reflexivity). rewrite E in Hs. discriminate Hs.
Defined.

(** C4: A decision carries authority only for an elephant. Under a policy that protects
    obligations ([protect_obligations]), it carries the authority to govern only for a flow whose
    protection state is known and which has no protected, non-preemptible, reserved or control
    obligation; a policy that does not protect them puts no such limit. *)
Theorem authority_excludes_obligations (g g' : Governor.t) (r r' : FlowRecord.t) (now : Tick)
    (d : FlowDecision.t) :
  Governor.evaluate now (g, r) = ((g', r'), Val d) ->
  let c := FlowDecision.classification d in
  (FlowClassification.authority c <> AuthorityLevel.None ->
   FlowClassification.state c = ElephantState.Elephant) /\
  (FlowClassification.authority c = AuthorityLevel.Govern -> protects g = true ->
   obligated (FlowClassification.measurements (Governor.assess r now g)) = false).
Proof.
  intros H. apply evaluate_decided in H as ([Hst Hau _] & _). simpl. rewrite Hst, Hau.
  destruct (assess_authority r now g) as [H1 H2]. split; [done|].
  intros Hg Hp. specialize (H2 Hg). by rewrite Hp in H2.
Qed.

Lemma authority_excludes_obligations_witness :
  protects demo_governor = true /\
  obligated (FlowClassification.measurements (Governor.assess (demo_record 2) 300 demo_governor)) = false.
Proof.
  split; [vm_compute; reflexivity|].
  destruct (Governor.evaluate 300 (demo_governor, demo_record 2)) as [[g' r'] [d|c]] eqn:E.
  - assert (Hs : match snd (Governor.evaluate 300 (demo_governor, demo_record 2)) with
      | Val d => FlowClassification.authority (FlowDecision.classification d)
      | Err _ => AuthorityLevel.None end = AuthorityLevel.Govern) by (vm_compute; reflexivity).
    rewrite E in Hs.
    apply (proj2 (authority_excludes_obligations _ _ _ _ _ _ E) Hs). vm_compute. reflexivity.
  - exfalso. assert (Hs : ok (snd (Governor.evaluate 300 (demo_governor, demo_record 2))) = true)
      by (vm_compute; reflexivity). rewrite E in Hs. discriminate Hs.
Defined.

(** *** Hysteresis over a history of evaluations *)

(** What one evaluation sees of a flow that is neither completed nor in doubt: whether there is
    a window it has not seen before, the verdicts of both rules, and the measurements. *)
Record observation := mkObservation {
  o_new : bool; o_enter : Tri.t; o_exit : Tri.t; o_measured : FlowMeasurements.t }.

(** The state and both streaks that the governor keeps of the flow. *)
Record watch := mkWatch { w_state : ElephantState.t; w_enter : Z; w_exit : Z }.

Section hysteresis.
Context (policy : PolicyDocument.t) (record : FlowRecord.t) (reasons : Z).

Definition observe (w : watch) (o : observation) : watch :=
  let '(state, _, enter_streak, exit_streak) :=
    Governor.decide_state policy
      (record <| FlowRecord.enter_streak := w_enter w |> <| FlowRecord.exit_streak := w_exit w |>)
      (w_state w) (o_new o) (o_measured o) (o_enter o) (o_exit o) reasons in
  mkWatch state enter_streak exit_streak.

Definition observed (w : watch) (h : list observation) : watch := foldl observe w h.

(** The reference, without counters: an observation breaks a confirmation when the enter rule is
    false, or indeterminate for a new window. *)
Definition breaks (o : observation) : bool := tri_is (o_enter o) Tri.False_ || (o_new o && tri_is_unknown (o_enter o)).

(** The longest tail of a list of which every element satisfies [p], newest first. *)
Fixpoint while_true {A} (p : A -> bool) (l : list A) : list A :=
  match l with
  | [] => []
  | x :: l => if p x then x :: while_true p l else []
  end.

(** New windows since the last observation that broke the confirmation. *)
Definition confirming (h : list observation) : Z :=
  size_of (List.filter o_new (while_true (fun o => negb (breaks o)) (reverse h))).
(** New windows in a row, the newest ones, for which the exit rule is false. *)
Definition dissenting (h : list observation) : Z :=
  size_of (while_true (fun o => tri_is (o_exit o) Tri.False_) (List.filter o_new (reverse h))).

Lemma confirming_snoc h o :
  confirming (h ++ [o]) = if breaks o then 0 else confirming h + if o_new o then 1 else 0.
Proof.
  unfold confirming. rewrite reverse_snoc. cbn [while_true]. destruct (breaks o); cbn [negb]; [done|].
  cbn [List.filter]. destruct (o_new o); unfold size_of; cbn [length]; lia.
Qed.

Lemma dissenting_snoc h o :
  dissenting (h ++ [o]) =
  if o_new o then if tri_is (o_exit o) Tri.False_ then dissenting h + 1 else 0 else dissenting h.
Proof.
  unfold dissenting. rewrite reverse_snoc. cbn [List.filter]. destruct (o_new o); [|done].
  cbn [while_true]. destruct (tri_is _ _); [|done]. unfold size_of. cbn [length]. lia.
Qed.

Lemma observed_snoc w h o : observed w (h ++ [o]) = observe (observed w h) o.
Proof. unfold observed. by rewrite foldl_app. Qed.

Definition enter_windows : Z := HysteresisSpec.enter_confirm_windows (PolicyDocument.hysteresis policy).
Definition exit_windows : Z := HysteresisSpec.exit_confirm_windows (PolicyDocument.hysteresis policy).
Hypothesis validated : HysteresisSpec.validate (PolicyDocument.hysteresis policy) = Val tt.
Hypothesis unsigned : 0 <= enter_windows /\ 0 <= exit_windows.

Lemma windows_range : 1 <= enter_windows <= 64 /\ 1 <= exit_windows <= 64.
Proof.
  unfold HysteresisSpec.validate in validated. inv_status validated. unfold enter_windows, exit_windows in *. lia.
Qed.

(** Not an elephant yet: the enter streak is what the reference counts, and short of the
    confirmation. *)
Lemma outside_tracked w h :
  w_state w <> ElephantState.Elephant -> w_enter w = 0 ->
  (forall h1 h2, h = h1 ++ h2 -> w_state (observed w h1) <> ElephantState.Elephant) ->
  w_enter (observed w h) = confirming h /\ confirming h < enter_windows /\
  (w_state (observed w h) = ElephantState.Suspended -> confirming h = 0).
Proof.
  intros Hw H0. pose proof windows_range as Hr. induction h as [|o h IH] using rev_ind; intros Hout; [split; [done|]; split; [unfold confirming, size_of; cbn; lia|done]|].
  destruct IH as (He & Hlt & Hsus).
  { intros h1 h2 ->. apply (Hout h1 (h2 ++ [o])). by rewrite app_assoc. }
  pose proof (Hout (h ++ [o]) [] (eq_sym (app_nil_r _))) as Hnow. pose proof (Hout h [o] eq_refl) as Hbefore.
  assert (Hpos : 0 <= confirming h) by apply size_of_nonneg.
  rewrite observed_snoc, confirming_snoc in *. unfold observe in *. destruct (observed w h) as [state es xs]. cbn [w_state w_enter w_exit] in *.
  assert (Hinc : inc32 es = es + 1) by (unfold inc32; apply wrap_small; unfold in_range; lia).
  subst es. revert Hnow. unfold breaks, Governor.decide_state, Governor.streaks, tri_is_true, tri_is_unknown, tri_is, ElephantState.eqb.
  cbn [FlowRecord.enter_streak FlowRecord.exit_streak update eta FlowRecord.eta_t]. fold enter_windows exit_windows. rewrite ?Hinc.
  destruct state, (o_new o), (o_enter o); simpl in *; try done; split_ifs; simpl; intros Hnow; split_and!; try done; try lia; naive_solver lia.
Qed.

(** An elephant: the exit streak is what the reference counts, and short of the confirmation. *)
Lemma inside_tracked w h :
  w_exit w = 0 -> (forall h1 h2, h = h1 ++ h2 -> w_state (observed w h1) = ElephantState.Elephant) ->
  w_exit (observed w h) = dissenting h /\ dissenting h < exit_windows.
Proof.
  intros H0. pose proof windows_range as Hr. induction h as [|o h IH] using rev_ind; intros Hin.
  { split; [done|]. unfold dissenting, size_of. cbn. lia. }
  destruct IH as (He & Hlt).
  { intros h1 h2 ->. apply (Hin h1 (h2 ++ [o])). by rewrite app_assoc. }
  pose proof (Hin (h ++ [o]) [] (eq_sym (app_nil_r _))) as Hnow. pose proof (Hin h [o] eq_refl) as Hbefore.
  assert (Hpos : 0 <= dissenting h) by apply size_of_nonneg.
  rewrite observed_snoc, dissenting_snoc in *. unfold observe in *. destruct (observed w h) as [state es xs]. cbn [w_state w_enter w_exit] in *.
  assert (Hinc : inc32 xs = xs + 1) by (unfold inc32; apply wrap_small; unfold in_range; lia).
  subst xs state. revert Hnow. unfold Governor.decide_state, Governor.streaks, tri_is, ElephantState.eqb.
  cbn [FlowRecord.enter_streak FlowRecord.exit_streak update eta FlowRecord.eta_t]. fold enter_windows exit_windows. rewrite ?Hinc.
  destruct (o_new o), (o_exit o); simpl in *; split_ifs; simpl; intros Hnow; split_and!; try done; lia.
Qed.

(** The step at which a flow outside becomes an elephant. *)
Lemma enters_when w o :
  w_state w <> ElephantState.Elephant -> 0 <= w_enter w < enter_windows ->
  (w_state w = ElephantState.Suspended -> w_enter w = 0) ->
  (w_state (observe w o) = ElephantState.Elephant <->
     o_new o = true /\ o_enter o = Tri.True_ /\ w_enter w + 1 = enter_windows) /\
  (w_state (observe w o) = ElephantState.Elephant -> w_exit (observe w o) = 0).
Proof.
  intros Hw He Hs. pose proof windows_range as Hr. unfold observe. destruct w as [state es xs]. cbn [w_state w_enter w_exit] in *.
  assert (Hinc : inc32 es = es + 1) by (unfold inc32; apply wrap_small; unfold in_range; lia).
  unfold Governor.decide_state, Governor.streaks, tri_is_true, tri_is_unknown, tri_is, ElephantState.eqb.
  cbn [FlowRecord.enter_streak FlowRecord.exit_streak update eta FlowRecord.eta_t]. fold enter_windows. rewrite ?Hinc.
  destruct state, (o_new o), (o_enter o); simpl in *; try done; split_ifs; simpl; repeat split; intros; try done; naive_solver lia.
Qed.

(** The step at which an elephant leaves. *)
Lemma leaves_when w o :
  w_state w = ElephantState.Elephant -> 0 <= w_exit w < exit_windows ->
  (w_state (observe w o) = ElephantState.Elephant \/ w_state (observe w o) = ElephantState.NotElephant) /\
  (w_state (observe w o) = ElephantState.NotElephant <->
     o_new o = true /\ o_exit o = Tri.False_ /\ w_exit w + 1 = exit_windows).
Proof.
  intros Hw He. pose proof windows_range as Hr. unfold observe. destruct w as [state es xs]. cbn [w_state w_enter w_exit] in *. subst state.
  assert (Hinc : inc32 xs = xs + 1) by (unfold inc32; apply wrap_small; unfold in_range; lia).
  unfold Governor.decide_state, Governor.streaks, tri_is, ElephantState.eqb.
  cbn [FlowRecord.enter_streak FlowRecord.exit_streak update eta FlowRecord.eta_t]. fold exit_windows. rewrite ?Hinc.
  destruct (o_new o), (o_exit o); simpl in *; split_ifs; simpl; repeat split; intros; auto; try done; naive_solver lia.
Qed.

End hysteresis.


(** Leaving the elephant state keeps the enter streak: however many windows the
    policy wants before a flow becomes an elephant, a flow that has just left re-enters on the
    first new window that satisfies the enter rule. *)
Theorem exit_keeps_enter_streak (policy : PolicyDocument.t) (r r' : FlowRecord.t)
    (m m' : FlowMeasurements.t) (enter exit exit' : Tri.t) (reasons reasons' rs es xs : Z) :
  HysteresisSpec.enter_confirm_windows (PolicyDocument.hysteresis policy) <=
    FlowRecord.enter_streak r < u32_max ->
  0 <= FlowRecord.enter_streak r ->
  Governor.decide_state policy r ElephantState.Elephant true m enter exit reasons =
    (ElephantState.NotElephant, rs, es, xs) ->
  FlowRecord.enter_streak r' = es ->
  (Governor.decide_state policy r' ElephantState.NotElephant true m' Tri.True_ exit' reasons').1.1.1 =
    ElephantState.Elephant.
Proof.
  intros Hs H0 Hexit Hes.
  assert (He : es = FlowRecord.enter_streak r).
  { unfold Governor.decide_state, Governor.streaks in Hexit. simpl in Hexit.
    split_ifs_in Hexit; by simplify_eq. }
  unfold Governor.decide_state, Governor.streaks. simpl. rewrite Hes, He.
  unfold inc32. rewrite wrap_small by ulia.
  replace (_ >=? _) with true by lia. done.
Qed.

Lemma exit_keeps_enter_streak_witness :
  let policy := demo_policy 1 1000 3 1 IntentAuthorization.default in
  let r := demo_record 1 <| FlowRecord.enter_streak := 3 |> in
  (Governor.decide_state policy r ElephantState.NotElephant true (FlowMeasurements.default)
     Tri.True_ Tri.False_ 0).1.1.1 = ElephantState.Elephant.
Proof.
  intros policy r.
  apply (exit_keeps_enter_streak policy r r FlowMeasurements.default FlowMeasurements.default
    Tri.False_ Tri.False_ Tri.False_ 0 0
    (Z.lor (Z.lor 0 ReasonCode.PolicyRuleNotSatisfied) ReasonCode.BelowRateThreshold) 3 1).
  - simpl. unfold u32_max. lia.
  - simpl. lia.
  - vm_compute. reflexivity.
  - reflexivity.
Defined.

(** C28: A suspended flow that has not completed stays suspended, without authority,
    through every evaluation that sees no new evidence window. *)
Theorem suspension_needs_new_evidence (g g' : Governor.t) (r r' : FlowRecord.t) (now : Tick)
    (d : FlowDecision.t) :
  Governor.previous_state r = ElephantState.Suspended ->
  Governor.has_new_evidence r = false ->
  FlowLedger.completed_ (FlowRecord.ledger r) = false ->
  Governor.evaluate now (g, r) = ((g', r'), Val d) ->
  FlowClassification.state (FlowDecision.classification d) = ElephantState.Suspended /\
  FlowClassification.authority (FlowDecision.classification d) = AuthorityLevel.None.
Proof.
  intros Hp Hn Hc H. apply evaluate_decided in H as ([Hst Hau _] & _). rewrite Hst, Hau.
  assert (Hs : FlowClassification.state (Governor.assess r now g) = ElephantState.Suspended).
  { destruct (Governor.measure r (Governor.path_of r g) g (Governor.competition r g)
      (Governor.suspension_reasons r now g)) as [m [rs susp]] eqn:Em.
    rewrite (assess_state r now g m _ Em), Hp, Hn. unfold Governor.decide. rewrite Hc.
    assert (Hh : FlowRecord.has_classification r = true).
    { unfold Governor.previous_state in Hp. by destruct (FlowRecord.has_classification r). }
    destruct susp; [by rewrite Hh|]. cbv zeta.
    destruct (RuleSet.evaluate _ _ _) as [tr enter], (RuleSet.evaluate _ _ _) as [tr' exit].
    done. }
  split; [done|]. destruct (assess_authority r now g) as [Ha _].
  destruct (FlowClassification.authority (Governor.assess r now g)); [done|..];
    specialize (Ha ltac:(done)); congruence.
Qed.

(** The demo record, suspended after its second window. *)
Definition suspended_record : FlowRecord.t :=
  demo_record 2
    <| FlowRecord.has_classification := true |>
    <| FlowRecord.evaluated_window := 2 |>
    <| FlowRecord.classification := FlowClassification.default
         <| FlowClassification.state := ElephantState.Suspended |> |>.

Lemma suspension_needs_new_evidence_witness :
  exists d, snd (Governor.evaluate 300 (demo_governor, suspended_record)) = Val d /\
    FlowClassification.state (FlowDecision.classification d) = ElephantState.Suspended.
Proof.
  destruct (Governor.evaluate 300 (demo_governor, suspended_record)) as [[g' r'] [d|c]] eqn:E.
  - exists d. split; [reflexivity|].
    apply (suspension_needs_new_evidence demo_governor g' suspended_record r' 300 d);
      [vm_compute; reflexivity..|exact E].
  - exfalso. assert (Hs : ok (snd (Governor.evaluate 300 (demo_governor, suspended_record))) = true)
      by (vm_compute; reflexivity). rewrite E in Hs. discriminate Hs.
Defined.

(** The binding resource of a path is the one of its resources with the least
    unreserved capacity, the smallest identifier on ties, among those with a usable (and, when
    asked for, fresh) snapshot; it is unresolved exactly when there is none. *)
Theorem binding_resource_minimal (p : PathDescriptor.t) (capacities : CapacityTable.t)
    (fresh : bool) (now : Tick) :
  (fresh = true -> is_fresh (PathDescriptor.validity p) now = true) ->
  best_of capacities fresh now (PathDescriptor.resources p)
    (Governor.resolve_binding (Some p) capacities fresh now).
Proof. apply resolve_binding_best. Qed.

Lemma binding_resource_minimal_witness :
  best_of (Governor.capacities_ demo_governor) true 50 [9]
    (Governor.resolve_binding (Some (demo_path 1)) (Governor.capacities_ demo_governor) true 50).
Proof. apply (binding_resource_minimal (demo_path 1)). intros _. vm_compute. reflexivity. Defined.
