(* ===== verification/GovernorIntents.v ===== *)
(** * What the governor guarantees: intents

    Every live intent the ledger gains during an evaluation lies inside the policy's
    envelope and rests on the classification that was just decided. *)
From S2P Require Import Prelude Status Checked Tri Tick Hash OMap Flow Tables Policy Impact Classification Intervention InterventionFacts Governor GovernorFacts.

#[local] Opaque Hasher.digest_of GovernanceIntent.compute_digest.

(** ** Ledgers that only gain authorized intents *)

(** Every live intent of [l'] is one of [l] or satisfies [P]. *)
Definition gains (P : GovernanceIntent.t -> Prop) (l l' : IntentLedger.t) : Prop :=
  forall k i, IntentLedger.find k l' = Some i -> is_live (GovernanceIntent.state i) = true ->
    IntentLedger.find k l = Some i \/ P i.

Lemma gains_refl P l : gains P l l.
Proof. intros k i Hf _. by left. Qed.

Lemma gains_trans P l1 l2 l3 : gains P l1 l2 -> gains P l2 l3 -> gains P l1 l3.
Proof. intros H12 H23 k i Hf Hl. destruct (H23 k i Hf Hl) as [H|H]; [by apply H12|by right]. Qed.

Lemma gains_sweep P selects change bump l :
  withdraws change -> gains P l (fst (IntentLedger.sweep selects change bump l)).
Proof. intros Hw k i Hf Hl. left. by eapply sweep_live. Qed.

Lemma gains_record (P : GovernanceIntent.t -> Prop) i l :
  (forall id, is_live (GovernanceIntent.state i) = true ->
     P (GovernanceIntent.seal (i <| GovernanceIntent.id := id |>))) ->
  gains P l (fst (IntentLedger.record i l)).
Proof.
  intros HP. destruct (record_cases i l) as [c cs|k s cs _ _ _|id next cs _ _ _ _ _ stored];
    [by left..|].
  intros k x. unfold IntentLedger.find. simpl. rewrite find_set.
  destruct (OMap.key_eqb id k); [|by left]. intros [= <-] Hl. right. by apply HP.
Qed.

(** ** One round of production *)

Section production.
Context (P : GovernanceIntent.t -> Prop).

(** [P] holds of what an emission would store, whatever its identifier and digest. *)
Definition covers (i : GovernanceIntent.t) : Prop :=
  is_live (GovernanceIntent.state i) = true ->
  forall id, P (GovernanceIntent.seal (i <| GovernanceIntent.id := id |>)).

Lemma emit_gains i g :
  covers i -> gains P (Governor.intents_ g) (Governor.intents_ (fst (Governor.emit i g))).
Proof.
  intros Hc. assert (Hr : gains P (Governor.intents_ g) (fst (IntentLedger.record i (Governor.intents_ g)))).
  { apply gains_record. intros id Hl. by apply Hc. }
  unfold Governor.emit. destruct (IntentLedger.record i _) as [l [s|c]].
  - destruct (GovernanceIntent.state s); exact Hr.
  - destruct c; exact Hr.
Qed.

Lemma emit_intents_inv i g :
  GovernanceIntent.id i = 0 -> intents_inv (Governor.intents_ g) ->
  intents_inv (Governor.intents_ (fst (Governor.emit i g))).
Proof.
  intros Hi Hinv.
  assert (Hr : intents_inv (fst (IntentLedger.record i (Governor.intents_ g)))).
  { apply record_inv; [done|]. rewrite Hi. ulia. }
  unfold Governor.emit. destruct (IntentLedger.record i _) as [l [s|c]].
  - destruct (GovernanceIntent.state s); exact Hr.
  - destruct c; exact Hr.
Qed.

Lemma emit_all_gains due propose es : forall out g,
  Forall (fun e => due e = true -> covers (propose e)) es ->
  gains P (Governor.intents_ g) (Governor.intents_ (fst (Governor.emit_all due propose es out g))).
Proof.
  induction es as [|e es IH]; intros out g Hall; [apply gains_refl|].
  inversion_clear Hall as [|? ? He Hes]. cbn [Governor.emit_all].
  destruct (due e); [|by apply IH]. unfold mbind, M_bind.
  pose proof (emit_gains (propose e) g (He eq_refl)) as Hg.
  destruct (Governor.emit (propose e) g) as [g1 [i|c]]; [|exact Hg].
  eapply gains_trans; [exact Hg|by apply IH].
Qed.

Lemma emit_all_intents_inv due propose es : forall out g,
  (forall e, GovernanceIntent.id (propose e) = 0) -> intents_inv (Governor.intents_ g) ->
  intents_inv (Governor.intents_ (fst (Governor.emit_all due propose es out g))).
Proof.
  induction es as [|e es IH]; intros out g Hid Hinv; [done|]. cbn [Governor.emit_all].
  destruct (due e); [|by apply IH]. unfold mbind, M_bind.
  pose proof (emit_intents_inv (propose e) g (Hid e) Hinv) as Hg.
  destruct (Governor.emit (propose e) g) as [g1 [i|c]]; [|exact Hg]. by apply IH.
Qed.
End production.

(** ** What an intent may ask for *)

(** [i] is inside the envelope of the installed policy and rests on [c]. *)
Record authorized_by (g : Governor.t) (c : FlowClassification.t) (now : Tick)
    (i : GovernanceIntent.t) : Prop := {
  ab_bounds : bounds_le (GovernanceIntent.granted i) (Governor.ceiling_bounds g);
  ab_begin : TickSpan.begin_ (GovernanceIntent.window i) = now;
  ab_end : TickSpan.end_ (GovernanceIntent.window i) =
    saturating_add now (IntentBounds.duration_ticks (Governor.ceiling_bounds g));
  ab_flow : GovernanceIntent.flow i = FlowClassification.flow c /\
            GovernanceIntent.flow_generation i = FlowClassification.flow_generation c;
  ab_generation : GovernanceIntent.classification_generation i = FlowClassification.generation c;
  ab_elephant : FlowClassification.state c = ElephantState.Elephant;
  ab_corrective : IntentKind.is_corrective (GovernanceIntent.kind i) = true ->
    FlowClassification.authority c = AuthorityLevel.Govern /\
    exists p, Governor.policy_ g = Some p /\
      IntentAuthorization.permits (PolicyDocument.authorization p) (GovernanceIntent.kind i) = true /\
      IntentAuthorization.min_impact_severity (PolicyDocument.authorization p) <=
        ImpactAssessment.severity (FlowClassification.impact c) }.

(** Every live emission of a governed flow is permitted. *)
Lemma governing_emissions_permitted auth c ceiling duration n guard kind req s sup :
  (guard, kind, req, s, sup) ∈ Governor.governing_emissions auth c ceiling duration n ->
  guard = true -> is_live s = true ->
  FlowClassification.authority c = AuthorityLevel.Govern /\
  IntentAuthorization.permits auth kind = true /\
  IntentAuthorization.min_impact_severity auth <=
    ImpactAssessment.severity (FlowClassification.impact c).
Proof.
  unfold Governor.governing_emissions. cbv zeta. intros Hin -> Hl.
  destruct (negb (AuthorityLevel.eqb _ _)) eqn:Ea; [by apply not_elem_of_nil in Hin|].
  boolify. unfold AuthorityLevel.eqb in Ea. apply bool_decide_eq_true in Ea.
  split; [done|].
  destruct (negb (FlowMeasurements.capacity_known _)).
  { apply list_elem_of_singleton in Hin. simplify_eq. }
  destruct (_ <? _) eqn:Es; [apply list_elem_of_singleton in Hin; simplify_eq|]. boolify.
  destruct (_ >=? kMaxIntentListPerFlow); [apply list_elem_of_singleton in Hin; simplify_eq|].
  split; [|done]. unfold Governor.corrective_emissions in Hin. cbv zeta in Hin.
  rewrite !elem_of_cons in Hin.
  destruct Hin as [Hin|[Hin|[Hin|[Hin|[Hin|Hin]]]]]; [..|by apply not_elem_of_nil in Hin];
    injection Hin; clear Hin; intros _ _ _ -> Hg; symmetry in Hg; boolify; done.
Qed.

Lemma saturating_add_min now d c : saturating_add now (min_of d (min_of d c)) = saturating_add now (min_of d c).
Proof. rewrite !min_of_min. f_equal. lia. Qed.

Lemma ceiling_duration g p :
  Governor.policy_ g = Some p ->
  min_of (GovernorConfig.intent_duration_ticks (Governor.config_ g))
    (IntentBounds.duration_ticks (Governor.ceiling_bounds g)) =
  IntentBounds.duration_ticks (Governor.ceiling_bounds g).
Proof. intros Hp. unfold Governor.ceiling_bounds. rewrite Hp. simpl. rewrite !min_of_min. lia. Qed.

Lemma proposal_authorized g p c now kind req s sup id :
  Governor.policy_ g = Some p ->
  FlowClassification.state c = ElephantState.Elephant ->
  is_live s = true ->
  (IntentKind.is_corrective kind = true ->
   FlowClassification.authority c = AuthorityLevel.Govern /\
   IntentAuthorization.permits (PolicyDocument.authorization p) kind = true /\
   IntentAuthorization.min_impact_severity (PolicyDocument.authorization p) <=
     ImpactAssessment.severity (FlowClassification.impact c)) ->
  authorized_by g c now (GovernanceIntent.seal
    (Governor.proposal c (Governor.ceiling_bounds g) now
       (saturating_add now (min_of (GovernorConfig.intent_duration_ticks (Governor.config_ g))
          (IntentBounds.duration_ticks (Governor.ceiling_bounds g)))) kind req s sup g
     <| GovernanceIntent.id := id |>)).
Proof.
  intros Hp Hs Hl Hk. rewrite (ceiling_duration g p Hp).
  assert (Hsup : IntentState.eqb s IntentState.Suppressed = false) by (by destruct s).
  split; cbn -[saturating_add narrow_bounds]; try done.
  - rewrite Hsup. apply narrow_le_ceiling.
  - intros Hc. destruct (Hk Hc) as (Ha & Hper & Hsev). split; [done|]. by exists p.
Qed.

Lemma produce_intents_gains r now g :
  gains (authorized_by g (FlowRecord.classification r) now)
    (Governor.intents_ g) (Governor.intents_ (fst (Governor.produce_intents r now g))).
Proof.
  unfold Governor.produce_intents. destruct (Governor.policy_ g) as [p|] eqn:Hp; [|apply gains_refl].
  destruct (negb _); [apply gains_refl|]. cbv zeta.
  set (c := FlowRecord.classification r).
  assert (Hrev : gains (authorized_by g c now) (Governor.intents_ g)
    (fst (IntentLedger.revoke_stale_generation (FlowClassification.flow c)
       (FlowClassification.flow_generation c) (FlowClassification.generation c) now (Governor.intents_ g))))
    by (apply gains_sweep; auto with efg).
  destruct (IntentLedger.revoke_stale_generation _ _ _ _ _) as [l n]. simpl in Hrev.
  destruct (_ || _) eqn:Ee; [exact Hrev|]. boolify.
  unfold ElephantState.eqb in *. match goal with H : bool_decide _ = true |- _ => apply bool_decide_eq_true in H end.
  eapply gains_trans; [exact Hrev|].
  match goal with |- context [Governor.emit_all ?du ?pr ?es [] ?gg] =>
    set (g1 := gg); set (propose := pr); set (due := du); set (es0 := es) end.
  change l with (Governor.intents_ g1). apply emit_all_gains. apply Forall_forall.
  intros [[[[guard kind] req] s] sup] He Hd Hl id.
  assert (Hguard : guard = true) by (unfold due in Hd; by apply andb_true_iff in Hd as [? _]).
  apply (proposal_authorized g p); try done. intros Hk.
  unfold es0 in He. apply elem_of_cons in He as [He|He]; [by simplify_eq|].
  by eapply governing_emissions_permitted.
Qed.

Lemma produce_intents_inv r now g :
  intents_inv (Governor.intents_ g) ->
  intents_inv (Governor.intents_ (fst (Governor.produce_intents r now g))).
Proof.
  intros Hinv. unfold Governor.produce_intents. destruct (Governor.policy_ g) as [p|]; [|done].
  destruct (negb _); [done|]. cbv zeta.
  set (c := FlowRecord.classification r).
  assert (Hrev : intents_inv (fst (IntentLedger.revoke_stale_generation (FlowClassification.flow c)
       (FlowClassification.flow_generation c) (FlowClassification.generation c) now (Governor.intents_ g))))
    by (apply sweep_inv; auto with efg).
  destruct (IntentLedger.revoke_stale_generation _ _ _ _ _) as [l n]. simpl in Hrev.
  destruct (_ || _); [exact Hrev|].
  apply emit_all_intents_inv; [|exact Hrev]. by intros [[[[guard kind] req] s] sup].
Qed.

(** ** Commit and evaluate *)

(** What is known of a record stored under [key]. *)
Record rec_inv (key : FlowKey) (r : FlowRecord.t) : Prop := {
  ri_ledger : ledger_inv (FlowRecord.ledger r);
  ri_flow : FlowLedger.flow_ (FlowRecord.ledger r) = key.1;
  ri_generation : FlowLedger.generation_ (FlowRecord.ledger r) = key.2;
  ri_history : history_inv (FlowRecord.history r);
  ri_class_flow : FlowRecord.has_classification r = true ->
    FlowClassification.flow (FlowRecord.classification r) = key.1 /\
    FlowClassification.flow_generation (FlowRecord.classification r) = key.2 }.

Lemma rec_inv_same key r r' : same_record r r' -> rec_inv key r -> rec_inv key r'.
Proof.
  intros Hs []. destruct Hs as [El Eh Ec Ehas _ _ _ _ _]. split; [by rewrite El..|by rewrite Eh|].
  by rewrite Ec, Ehas.
Qed.

Lemma revoke_suspended_gains P c now g :
  gains P (Governor.intents_ g) (Governor.intents_ (Governor.revoke_suspended c now g)).
Proof.
  unfold Governor.revoke_suspended. destruct (ElephantState.eqb _ _); [|apply gains_refl].
  match goal with |- context [IntentLedger.revoke_flow ?a ?b ?cc ?d] =>
    assert (H : gains P d (fst (IntentLedger.revoke_flow a b cc d)))
      by (apply gains_sweep; auto with efg);
    destruct (IntentLedger.revoke_flow a b cc d) end.
  exact H.
Qed.

Lemma revoke_suspended_inv c now g :
  intents_inv (Governor.intents_ g) ->
  intents_inv (Governor.intents_ (Governor.revoke_suspended c now g)).
Proof.
  intros Hinv. unfold Governor.revoke_suspended. destruct (ElephantState.eqb _ _); [|done].
  match goal with |- context [IntentLedger.revoke_flow ?a ?b ?cc ?d] =>
    assert (H : intents_inv (fst (IntentLedger.revoke_flow a b cc d)))
      by (apply sweep_inv; auto with efg);
    destruct (IntentLedger.revoke_flow a b cc d) end.
  exact H.
Qed.

Lemma count_decision_intents s g :
  Governor.intents_ (Governor.count_decision s g) = Governor.intents_ g.
Proof. by destruct s. Qed.

Lemma advance_tick_intents now g :
  Governor.intents_ (Governor.advance_tick now g) = Governor.intents_ g.
Proof. unfold Governor.advance_tick. by destruct (_ >? _). Qed.

Lemma authorized_core g g' c now i : same_core g g' -> authorized_by g' c now i -> authorized_by g c now i.
Proof.
  intros Hc [H1 H2 H3 H4 H5 H6 H7].
  assert (Hb : Governor.ceiling_bounds g' = Governor.ceiling_bounds g)
    by (unfold Governor.ceiling_bounds; by rewrite (sc_policy _ _ Hc), (sc_config _ _ Hc)).
  rewrite Hb in *. rewrite (sc_policy _ _ Hc) in H7. by split.
Qed.

Lemma gains_weaken (P Q : GovernanceIntent.t -> Prop) l l' :
  (forall i, P i -> Q i) -> gains P l l' -> gains Q l l'.
Proof. intros HPQ H k i Hf Hl. destruct (H k i Hf Hl); auto. Qed.

Lemma assess_flow r now g :
  FlowClassification.flow (Governor.assess r now g) = FlowLedger.flow_ (FlowRecord.ledger r) /\
  FlowClassification.flow_generation (Governor.assess r now g) =
    FlowLedger.generation_ (FlowRecord.ledger r).
Proof.
  unfold Governor.assess. cbv zeta. destruct (Governor.measure _ _ _ _ _) as [m d].
  unfold Governor.candidate_of. cbv zeta.
  match goal with |- context [Governor.enforce_protection ?x g] =>
    destruct (enforce_protection_frame x g) as (_ & -> & ->) end.
  split; reflexivity.
Qed.

Section commit.
Context (now : Tick) (key : FlowKey).

Lemma commit_intents prev cand g r gr' res :
  rec_inv key r -> intents_inv (Governor.intents_ g) ->
  FlowClassification.flow cand = key.1 -> FlowClassification.flow_generation cand = key.2 ->
  Governor.commit prev now cand (g, r) = (gr', res) ->
  rec_inv key (snd gr') /\ intents_inv (Governor.intents_ (fst gr')) /\
  gains (authorized_by g (FlowRecord.classification (snd gr')) now)
    (Governor.intents_ g) (Governor.intents_ (fst gr')).
Proof.
  intros Hr Hi Hf Hgen. unfold Governor.commit. intros H.
  destruct (Governor.build_authority r now g) as [auth|c];
    [|injection H as <- _; split_and!; [done..|apply gains_refl]].
  destruct (Governor.next_classification_generation r cand) as [gen|c];
    [|injection H as <- _; split_and!; [done..|apply gains_refl]].
  destruct (_ =? u64_max); [injection H as <- _; split_and!; [done..|apply gains_refl]|].
  cbv zeta in H.
  match type of H with context [ClassificationHistory.record ?tr _] =>
    pose proof (history_record_inv tr (FlowRecord.history r) (ri_history _ _ Hr)) as Hh end.
  destruct (ClassificationHistory.record _ _) as [h [u|c]];
    [|injection H as <- _; split_and!; [done..|apply gains_refl]]. simpl in Hh.
  match type of H with context [Governor.update_index ?k (?a, ?b)] =>
    set (g1 := a) in H; set (r1 := b) in H; set (k1 := k) in H end.
  assert (Hr1 : rec_inv key r1) by (destruct Hr; by split).
  assert (Hg1 : same_core g g1).
  { unfold g1. etrans; [|apply revoke_suspended_core]. etrans; [|apply count_decision_core].
    destruct (negb _ || negb _); by split. }
  assert (Hi1 : intents_inv (Governor.intents_ g1)).
  { unfold g1. apply revoke_suspended_inv. rewrite count_decision_intents.
    by destruct (negb _ || negb _). }
  assert (Hn1 : forall P, gains P (Governor.intents_ g) (Governor.intents_ g1)).
  { intros P. unfold g1. eapply gains_trans; [|apply revoke_suspended_gains].
    rewrite count_decision_intents. destruct (negb _ || negb _); apply gains_refl. }
  clearbody g1 r1. destruct (Governor.update_index k1 (g1, r1)) as [g2 r2] eqn:Eu.
  apply update_index_frame in Eu as (Hg2 & Hr2 & Hin2 & _).
  assert (Hi2 : Governor.intents_ (Governor.advance_tick now g2) = Governor.intents_ g1)
    by (by rewrite advance_tick_intents).
  pose proof (produce_intents_gains r2 now (Governor.advance_tick now g2)) as Hp.
  pose proof (produce_intents_inv r2 now (Governor.advance_tick now g2)) as Hpi.
  rewrite Hi2 in Hp, Hpi. specialize (Hpi Hi1).
  assert (Hall : gains (authorized_by g (FlowRecord.classification r2) now) (Governor.intents_ g)
    (Governor.intents_ (fst (Governor.produce_intents r2 now (Governor.advance_tick now g2))))).
  { eapply gains_trans; [apply Hn1|]. eapply gains_weaken; [|exact Hp]. intros i Hia.
    eapply authorized_core; [|exact Hia]. etrans; [exact Hg1|]. etrans; [exact Hg2|].
    apply advance_tick_core. }
  assert (Hr2' : rec_inv key r2) by (by eapply rec_inv_same).
  destruct (Governor.produce_intents r2 now _) as [g3 [is_|c]]; injection H as <- _; by split_and!.
Qed.

Lemma evaluate_intents g r gr' res :
  rec_inv key r -> intents_inv (Governor.intents_ g) ->
  Governor.evaluate now (g, r) = (gr', res) ->
  rec_inv key (snd gr') /\ intents_inv (Governor.intents_ (fst gr')) /\
  gains (authorized_by g (FlowRecord.classification (snd gr')) now)
    (Governor.intents_ g) (Governor.intents_ (fst gr')).
Proof.
  intros Hr Hi. unfold Governor.evaluate. intros H.
  destruct (_ && _); [injection H as <- _; split_and!; [done..|apply gains_refl]|]. cbv zeta in H.
  destruct (Governor.unchanged _ _ _).
  - injection H as <- _. simpl. rewrite advance_tick_intents.
    split_and!; [destruct Hr; by split|done|apply gains_refl].
  - destruct (assess_flow r now g) as [Hf Hg]. eapply commit_intents in H; try done.
    + rewrite Hf. apply Hr.
    + rewrite Hg. apply Hr.
Qed.
End commit.

(** ** Properties *)

(** C3: Every live intent the ledger gains while a flow is evaluated lies inside the
    ceiling of the installed policy, opens at the decision tick for no longer than the policy and
    the configuration allow, names the flow and the classification generation just decided, which
    is an elephant; and a corrective one exists only with the authority to govern, for a kind the
    policy permits, at an impact the policy demands. *)
Theorem gained_intents_authorized (key : FlowKey) (g : Governor.t) (r : FlowRecord.t) (now : Tick)
    (k : IntentId) (i : GovernanceIntent.t) :
  rec_inv key r -> intents_inv (Governor.intents_ g) ->
  let '((g', r'), _) := Governor.evaluate now (g, r) in
  IntentLedger.find k (Governor.intents_ g') = Some i ->
  is_live (GovernanceIntent.state i) = true ->
  IntentLedger.find k (Governor.intents_ g) = Some i \/
  authorized_by g (FlowRecord.classification r') now i.
Proof.
  intros Hr Hi. destruct (Governor.evaluate now (g, r)) as [[g' r'] res] eqn:E.
  apply (evaluate_intents now key) in E as (_ & _ & H); [|done..]. intros Hf Hl. by apply H.
Qed.

(** A governed elephant whose policy grants intents for 50 ticks only. *)
Definition brief_governor : Governor.t :=
  let auth := IntentAuthorization.mk true true true true true true 2500 50 8 0 0 in
  let g := Governor.make (GovernorConfig.default <| GovernorConfig.max_flows := 1 |>) in
  let g := fst (Governor.submit_policy (demo_policy 1 1000 1 3 auth) g) in
  let g := fst (Governor.submit_capacity (demo_capacity 1 10000 5000) g) in
  fst (Governor.submit_path (demo_path 1) g).

Lemma demo_record_inv n : 0 <= n <= 99 -> rec_inv (7, 1) (demo_record n).
Proof.
  intros Hn. assert (Hid : FlowLedger.flow_ (demo_ledger 8 n 500) = 7 /\
    FlowLedger.generation_ (demo_ledger 8 n 500) = 1).
  { unfold demo_ledger. set (l := FlowLedger.make _ _ _).
    assert (H : FlowLedger.flow_ l = 7 /\ FlowLedger.generation_ l = 1) by done.
    clearbody l. revert l H. induction (seq 1 (Z.to_nat n)) as [|j js IH]; intros l H; [done|].
    cbn [fmap list_fmap ledger_run foldl ledger_apply]. apply IH.
    pose proof (append_frame (stream_sample (Z.of_nat j) 500) l). intuition congruence. }
  split; [apply ledger_run_inv_demo; lia|apply Hid..|apply history_inv_make; lia|discriminate].
Qed.

Lemma gained_intents_authorized_witness :
  let '((g', r'), _) := Governor.evaluate 300 (brief_governor, demo_record 2) in
  exists i, IntentLedger.find 1 (Governor.intents_ g') = Some i /\
    authorized_by brief_governor (FlowRecord.classification r') 300 i.
Proof.
  assert (Hg : (fun i => is_live (GovernanceIntent.state i)) <$> IntentLedger.find 1
    (Governor.intents_ (fst (fst (Governor.evaluate 300 (brief_governor, demo_record 2))))) = Some true)
    by (vm_compute; reflexivity).
  assert (Ho : IntentLedger.find 1 (Governor.intents_ brief_governor) = None) by (vm_compute; reflexivity).
  pose proof (fun i => gained_intents_authorized (7, 1) brief_governor (demo_record 2) 300 1 i
    (demo_record_inv 2 ltac:(lia)) (intents_inv_make kMaxIntents kMaxAttempts)) as H.
  destruct (Governor.evaluate 300 (brief_governor, demo_record 2)) as [[g' r'] res].
  simpl in Hg. destruct (IntentLedger.find 1 (Governor.intents_ g')) as [i|] eqn:E; [|discriminate Hg].
  exists i. split; [reflexivity|]. injection Hg as Hl.
  destruct (H i eq_refl Hl) as [Hold|Hnew]; [congruence|exact Hnew].
Defined.

(** The label of an intent does not account for its duration: when the policy
    grants less time than the configuration asks for, a rate shaping request whose rate fits is
    recorded as [Authorized] although its envelope was narrowed. *)
Theorem narrowed_duration_labelled_authorized :
  exists i, IntentLedger.find 1 (Governor.intents_
      (fst (fst (Governor.evaluate 300 (brief_governor, demo_record 2))))) = Some i /\
    GovernanceIntent.state i = IntentState.Authorized /\
    bounds_within (GovernanceIntent.requested i) (Governor.ceiling_bounds brief_governor) = false /\
    GovernanceIntent.granted i <> GovernanceIntent.requested i.
Proof.
  assert (H : (fun i => (GovernanceIntent.state i, GovernanceIntent.requested i, GovernanceIntent.granted i)) <$>
    IntentLedger.find 1 (Governor.intents_
      (fst (fst (Governor.evaluate 300 (brief_governor, demo_record 2))))) =
    Some (IntentState.Authorized, IntentBounds.mk 0 500 0 false false false true,
          IntentBounds.mk 0 50 0 false false false true)) by (vm_compute; reflexivity).
  destruct (IntentLedger.find 1 _) as [i|]; [|discriminate H]. exists i. split; [reflexivity|].
  injection H as -> -> ->. split; [reflexivity|]. split; [vm_compute; reflexivity|discriminate].
Qed.

(** The list of a flow's intents is cut at sixteen, withdrawn ones included: once
    a flow has sixteen intents that are no longer live, a later live intent is not seen, and the
    check that guards against a second live intent of the same kind passes although the full list
    would refuse it. *)
Theorem duplicate_check_blind (l : IntentLedger.t) (c : FlowClassification.t) (now : Tick)
    (i : GovernanceIntent.t) (dead rest : list GovernanceIntent.t) :
  let all := base.filter (fun i => IntentLedger.of_flow (FlowClassification.flow c)
    (FlowClassification.flow_generation c) i = true) (IntentLedger.all_intents l) in
  all = dead ++ i :: rest -> size_of dead = kMaxIntentListPerFlow ->
  Forall (fun i => is_live (GovernanceIntent.state i) = false) dead ->
  GovernanceIntent.live_at i now = true ->
  GovernanceIntent.classification_generation i = FlowClassification.generation c ->
  Governor.already_live (IntentLedger.for_flow (FlowClassification.flow c)
    (FlowClassification.flow_generation c) l) c now (GovernanceIntent.kind i) = false /\
  Governor.already_live all c now (GovernanceIntent.kind i) = true.
Proof.
  intros all Hall Hn Hdead Hlive Hgen. split.
  - unfold IntentLedger.for_flow. fold all. rewrite Hall, take_app_le, take_ge
      by (unfold size_of in Hn; lia).
    unfold Governor.already_live. clear -Hdead.
    induction Hdead as [|x dead Hx H IH]; [done|]. cbn [existsb]. rewrite Hx, IH, andb_false_r. done.
  - unfold Governor.already_live. rewrite Hall, existsb_app. apply orb_true_iff. right.
    cbn [existsb]. unfold GovernanceIntent.live_at in Hlive. apply andb_true_iff in Hlive as [Hl H2].
    apply andb_true_iff in Hl as [Hl H1]. rewrite Hl, H1, H2, Hgen, Z.eqb_refl. unfold IntentKind.eqb.
    by rewrite bool_decide_eq_true_2.
Qed.

(** Sixteen revoked intents of the demo flow, then a live one. *)
Definition crowded_intents : IntentLedger.t :=
  IntentLedger.make 100 100 <| IntentLedger.intents_ :=
    ((fun k => (Z.of_nat k, demo_intent (Z.of_nat k)
        <| GovernanceIntent.state := IntentState.Revoked |>)) <$> seq 1 16) ++ [(17, demo_intent 17)] |>.

Lemma duplicate_check_blind_witness :
  let c := FlowClassification.default <| FlowClassification.flow := 7 |>
             <| FlowClassification.flow_generation := 1 |> in
  Governor.already_live (IntentLedger.for_flow 7 1 crowded_intents) c 150
    IntentKind.RequestRateShaping = false.
Proof.
  intros c. apply (duplicate_check_blind crowded_intents c 150 (demo_intent 17)
    ((fun k => demo_intent (Z.of_nat k) <| GovernanceIntent.state := IntentState.Revoked |>) <$> seq 1 16) []).
  - vm_compute. reflexivity.
  - reflexivity.
  - repeat constructor.
  - reflexivity.
  - reflexivity.
Defined.
