(* ===== verification/GovernorRuns.v ===== *)
(** * What the governor guarantees: sequences of operations

    The public operations of the governor as one command type, the invariant every
    sequence of them maintains, the generation fence on flow records, and what the
    sweeping operations (tick, policy installation, eviction) do to the population. *)
From S2P Require Import Prelude Status Checked Tri Tick Hash OMap Flow Tables Policy Impact Classification Intervention InterventionFacts Governor GovernorFacts GovernorIntents.

#[local] Opaque Hasher.digest_of GovernanceIntent.compute_digest FlowClassification.compute_digest.

(** ** More on ordered maps *)

Section omap_facts.
Context {K V : Type} `{!OrdKey K}.
Implicit Types (k : K) (v : V) (m : omap_t K V).

Lemma contains_find k m : OMap.contains k m = true <-> exists v, OMap.find k m = Some v.
Proof.
  unfold OMap.contains. destruct (OMap.find k m) as [v|]; split; [by eauto|done|done|].
  by intros (? & ?).
Qed.

Lemma contains_set k k' v m :
  OMap.contains k' (OMap.set k v m) = OMap.key_eqb k k' || OMap.contains k' m.
Proof. unfold OMap.contains. rewrite find_set. by destruct (OMap.key_eqb k k'). Qed.

Lemma contains_erase k k' m :
  OMap.contains k' (OMap.erase k m) = negb (OMap.key_eqb k k') && OMap.contains k' m.
Proof. unfold OMap.contains. rewrite find_erase. by destruct (OMap.key_eqb k k'). Qed.

Lemma size_erase_found k v m : OMap.find k m = Some v -> size_of (OMap.erase k m) < size_of m.
Proof.
  intros Hf%find_elem_of. unfold OMap.erase, size_of.
  enough (length (base.filter (fun e : K * V => OMap.key_eqb k e.1 = false) m) < length m)%nat by lia.
  eapply length_filter_lt; [exact Hf|]. simpl. by rewrite OMap.key_eqb_refl.
Qed.
End omap_facts.

(** ** The invariant of the governor *)

Record gov_inv (g : Governor.t) : Prop := {
  gi_room : 1 <= GovernorConfig.max_flows (Governor.config_ g) <= kMaxFlows;
  gi_limits : 2 <= GovernorConfig.samples_per_flow (Governor.config_ g) /\
              1 <= GovernorConfig.max_history_per_flow (Governor.config_ g);
  gi_sorted : OMap.sorted (Governor.flows_ g);
  gi_size : Governor.flow_count g <= GovernorConfig.max_flows (Governor.config_ g);
  gi_records : forall key r, OMap.find key (Governor.flows_ g) = Some r -> rec_inv key r;
  gi_highest : forall key r, OMap.find key (Governor.flows_ g) = Some r ->
    exists h, OMap.find key.1 (Governor.highest_generation_ g) = Some h /\ key.2 <= h;
  gi_capacities : tbl_wf (Governor.capacities_ g);
  gi_paths : tbl_wf (Governor.paths_ g);
  gi_policy : forall p, Governor.policy_ g = Some p -> PolicyDocument.validate p = Val tt;
  gi_intents : intents_inv (Governor.intents_ g) }.

(** The generations a flow may use only advance: a record that is new in [g'] has a
    generation above every one [g] has seen of that flow. *)
Record advances (g g' : Governor.t) : Prop := {
  ad_config : Governor.config_ g' = Governor.config_ g;
  ad_highest : forall f h, OMap.find f (Governor.highest_generation_ g) = Some h ->
    exists h', OMap.find f (Governor.highest_generation_ g') = Some h' /\ h <= h';
  ad_flows : forall key, OMap.contains key (Governor.flows_ g') = true ->
    OMap.contains key (Governor.flows_ g) = true \/
    forall h, OMap.find key.1 (Governor.highest_generation_ g) = Some h -> h < key.2 }.

#[global] Instance advances_preorder : PreOrder advances.
Proof.
  split.
  - intros g. split; [done|intros f h H; exists h; split; [done|lia]|by left].
  - intros a b c [C1 H1 F1] [C2 H2 F2]. split; [congruence| |].
    + intros f h Hf. destruct (H1 f h Hf) as (h1 & Hf1 & ?). destruct (H2 f h1 Hf1) as (h2 & ? & ?).
      exists h2. split; [done|lia].
    + intros key Hk. destruct (F2 key Hk) as [Hb|Hb]; [by apply F1|]. right. intros h Hf.
      destruct (H1 _ _ Hf) as (h1 & Hf1 & ?). specialize (Hb h1 Hf1). lia.
Qed.

(** The step from [g] to [g'] keeps the invariant and advances. *)
Definition steps (g g' : Governor.t) : Prop := gov_inv g -> gov_inv g' /\ advances g g'.

#[global] Instance steps_preorder : PreOrder steps.
Proof.
  split; [by intros g Hg; split|]. intros a b c H1 H2 Ha.
  destruct (H1 Ha) as [Hb A1]. destruct (H2 Hb) as [Hc A2]. split; [done|by etrans].
Qed.

Lemma steps_core g g' :
  same_core g g' -> (intents_inv (Governor.intents_ g) -> intents_inv (Governor.intents_ g')) ->
  steps g g'.
Proof.
  intros Hc Hi [H1 H2 H3 H4 H5 H6 H7 H8 H9 H10]. destruct Hc as [C1 C2 C3 C4 C5 C6 C7 C8 C9].
  split.
  - split; unfold Governor.flow_count; rewrite ?C1, ?C4, ?C6, ?C7, ?C8, ?C9; auto.
  - split; rewrite ?C8, ?C9; [done| |by left]. intros f h Hf. exists h. split; [done|lia].
Qed.

(** ** Methods on one record *)

(** A method that keeps the record's invariant and everything outside the record and
    the intent ledger. *)
Definition keeps {A} (key : FlowKey) (m : Governor.MR A) : Prop := forall g r gr' res,
  rec_inv key r -> intents_inv (Governor.intents_ g) -> m (g, r) = (gr', res) ->
  same_core g (fst gr') /\ rec_inv key (snd gr') /\ intents_inv (Governor.intents_ (fst gr')).

Lemma steps_with_record {A} key (m : Governor.MR A) g :
  keeps key m -> steps g (fst (Governor.with_record key m g)).
Proof.
  intros Hk Hg. unfold Governor.with_record.
  destruct (OMap.find key (Governor.flows_ g)) as [r|] eqn:Hf; [|by split].
  destruct (m (g, r)) as [[g1 r1] res] eqn:Em. simpl.
  destruct (Hk g r (g1, r1) res) as (Hc & Hr & Hi);
    [by apply (gi_records g Hg)|by apply gi_intents|done|]. simpl in *.
  destruct (steps_core g g1 Hc (fun _ => Hi) Hg) as [Hg1 Ha].
  assert (Hf1 : OMap.find key (Governor.flows_ g1) = Some r) by (by rewrite (sc_flows _ _ Hc)).
  split.
  - destruct Hg1 as [H1 H2 H3 H4 H5 H6 H7 H8 H9 H10]. split; try done; simpl.
    + by apply sorted_set.
    + unfold Governor.flow_count in *. simpl. by erewrite size_set_found.
    + intros k x. rewrite find_set. destruct (OMap.key_eqb key k) eqn:E; [|by apply H5].
      apply OMap.key_eqb_eq in E as <-. by intros [= <-].
    + intros k x. rewrite find_set. destruct (OMap.key_eqb key k) eqn:E; [|by apply H6].
      apply OMap.key_eqb_eq in E as <-. intros _. by apply (H6 key r).
  - destruct Ha as [A1 A2 A3]. split; try done. simpl. intros k. rewrite contains_set.
    destruct (OMap.key_eqb key k) eqn:E; [|apply A3]. apply OMap.key_eqb_eq in E as <-.
    intros _. left. apply contains_find. by exists r.
Qed.

Lemma evaluate_keeps key now : keeps key (Governor.evaluate now).
Proof.
  intros g r gr' res Hr Hi H. destruct (evaluate_core now g r gr' res H) as [Hc _].
  by apply (evaluate_intents now key) in H as (? & ? & _).
Qed.

(** The record with its ledger replaced by one of the same flow. *)
Lemma rec_inv_ledger key r l :
  rec_inv key r -> ledger_inv l -> FlowLedger.flow_ l = key.1 -> FlowLedger.generation_ l = key.2 ->
  rec_inv key (r <| FlowRecord.ledger := l |>).
Proof. intros [] ? ? ?. by split. Qed.

Lemma ingest_keeps key s : sample_ok s -> keeps key (Governor.ingest s).
Proof.
  intros Hs g r gr' res Hr Hi. unfold Governor.ingest.
  pose proof (append_inv s (FlowRecord.ledger r) (ri_ledger _ _ Hr) Hs) as Hl.
  destruct (append_frame s (FlowRecord.ledger r)) as [Hfl Hge].
  destruct (FlowLedger.append s _) as [l appended]. simpl in Hl, Hfl, Hge.
  rewrite (ri_flow _ _ Hr) in Hfl. rewrite (ri_generation _ _ Hr) in Hge.
  pose proof (rec_inv_ledger key r l Hr Hl Hfl Hge) as Hr'.
  destruct appended as [outcome|c].
  - cbv zeta. match goal with |- context [Governor.evaluate ?t (?a, ?b)] =>
      set (g1 := a); destruct (Governor.evaluate t (g1, b)) as [gr1 dec] eqn:Ee end.
    assert (Hg1 : same_core g g1 /\ Governor.intents_ g1 = Governor.intents_ g).
    { unfold g1. destruct (bool_decide _), (FlowLedger.gap_detected_ l), (_ && _); by split. }
    intros H. apply (f_equal fst) in H. cbn [fst] in H. subst gr'. destruct Hg1 as [Hg1 Hi1]. clearbody g1.
    apply (evaluate_keeps key) in Ee as (Hc & Hr1 & Hi2); [|done|by rewrite Hi1].
    split_and!; [by etrans|done|done].
  - intros [= <- _]. by destruct c; split_and!.
Qed.

Lemma mark_completed_frame at_ l :
  FlowLedger.flow_ (fst (FlowLedger.mark_completed at_ l)) = FlowLedger.flow_ l /\
  FlowLedger.generation_ (fst (FlowLedger.mark_completed at_ l)) = FlowLedger.generation_ l.
Proof. unfold FlowLedger.mark_completed. by split_ifs. Qed.

Lemma complete_record_keeps key at_ : keeps key (Governor.complete_record key.1 key.2 at_).
Proof.
  intros g r gr' res Hr Hi. unfold Governor.complete_record.
  pose proof (ledger_apply_inv (OpComplete at_) _ I (ri_ledger _ _ Hr)) as Hl.
  destruct (mark_completed_frame at_ (FlowRecord.ledger r)) as [Hfl Hge].
  simpl in Hl. destruct (FlowLedger.mark_completed at_ _) as [l [u|c]];
    [|intros [= <- _]; by split_and!]. simpl in Hl, Hfl, Hge.
  rewrite (ri_flow _ _ Hr) in Hfl. rewrite (ri_generation _ _ Hr) in Hge.
  pose proof (rec_inv_ledger key r l Hr Hl Hfl Hge) as Hr'. cbv zeta.
  match goal with |- context [IntentLedger.transition_flow_terminal ?f ?gn ?st ?n ?is_] =>
    assert (Ht : intents_inv (fst (IntentLedger.transition_flow_terminal f gn st n is_)))
      by (apply sweep_inv; auto with efg);
    destruct (IntentLedger.transition_flow_terminal f gn st n is_) as [is' n'] end.
  match goal with |- context [Governor.evaluate ?t (?a, ?b)] =>
    destruct (Governor.evaluate t (a, b)) as [gr1 dec] eqn:Ee end.
  intros H. apply (f_equal fst) in H. cbn [fst] in H. subst gr'.
  apply (evaluate_keeps key) in Ee as (Hc & Hr1 & Hi2).
  - split_and!; [|done|done]. etrans; [|exact Hc]. by split.
  - destruct Hr'. by split.
  - exact Ht.
Qed.

Lemma invalidate_record_keeps key now reason : keeps key (Governor.invalidate_record key now reason).
Proof.
  intros g r gr' res Hr Hi. unfold Governor.invalidate_record. cbv zeta.
  destruct (FlowRecord.has_classification r) eqn:Hh; [|intros [= <- _]; by split_and!].
  destruct (FlowRecord.is_elephant r).
  - match goal with |- context [ClassificationHistory.record ?tr _] =>
      pose proof (history_record_inv tr (FlowRecord.history r) (ri_history _ _ Hr)) as Hhi end.
    destruct (ClassificationHistory.record _ _) as [h [u|c]]; [|intros [= <- _]; by split_and!].
    match goal with |- context [Governor.update_index ?k (?a, ?b)] =>
      destruct (Governor.update_index k (a, b)) as [g2 r2] eqn:Eu end.
    intros H. apply (f_equal fst) in H. cbn [fst] in H. subst gr'. apply update_index_frame in Eu as (Hc & Hs & Hi2 & _). simpl.
    split_and!; [etrans; [|exact Hc]; by split| |by rewrite Hi2].
    eapply rec_inv_same; [exact Hs|]. destruct Hr. by split.
  - intros [= <- _]. split_and!; [done| |done]. destruct Hr. by split.
Qed.

(** ** Installing inputs *)

Lemma steps_for_each {A} (f : A -> M Governor.t unit) l : forall g,
  (forall x g, steps g (fst (f x g))) -> steps g (fst (for_each f l g)).
Proof.
  induction l as [|x l IH]; intros g Hf; [done|]. cbn [for_each]. unfold mbind, M_bind.
  pose proof (Hf x g) as Hx. destruct (f x g) as [g1 [u|c]]; [|done].
  etrans; [exact Hx|]. by apply IH.
Qed.

Lemma steps_invalidate_all now reason g :
  steps g (fst (Governor.invalidate_all_authority now reason g)).
Proof.
  unfold Governor.invalidate_all_authority.
  pose proof (steps_for_each (fun key => Governor.with_record key (Governor.invalidate_record key now reason))
    (OMap.keys (Governor.flows_ g)) g) as Hs.
  destruct (for_each _ _ g) as [g1 [u|c]]; cbn [fst] in *.
  - etrans; [apply Hs; intros; apply steps_with_record, invalidate_record_keeps|].
    match goal with |- context [IntentLedger.revoke_all ?n ?st ?rs ?is_] =>
      assert (Ht : intents_inv is_ -> intents_inv (fst (IntentLedger.revoke_all n st rs is_)))
        by (intros; apply sweep_inv; auto with efg);
      destruct (IntentLedger.revoke_all n st rs is_) as [is' n'] end.
    apply steps_core; [by split|exact Ht].
  - apply Hs. intros. apply steps_with_record, invalidate_record_keeps.
Qed.

Lemma steps_install p exit_rules g :
  PolicyDocument.validate p = Val tt ->
  steps g (g <| Governor.policy_ := Some p |> <| Governor.exit_rules_ := exit_rules |>).
Proof.
  intros Hp [H1 H2 H3 H4 H5 H6 H7 H8 H9 H10]. split.
  - split; simpl; try done. by intros q [= <-].
  - split; simpl; [done| |by left]. intros f h Hf. exists h. split; [done|lia].
Qed.

Lemma steps_bump f `{!Setter f} g : steps g (Governor.bump f g).
Proof. apply steps_core; [apply bump_core|done]. Qed.
#[local] Hint Resolve steps_bump : efg.

Lemma steps_install_policy p g :
  PolicyDocument.validate p = Val tt -> steps g (fst (Governor.install_policy p g)).
Proof.
  intros Hp. unfold Governor.install_policy.
  destruct (effective_exit_rule p) as [rules|c]; [|apply steps_bump]. cbv zeta.
  assert (Hi : steps g (Governor.bump GovernorCounters.policy_accepted
    (g <| Governor.policy_ := Some p |> <| Governor.exit_rules_ := rules |>))).
  { etrans; [by apply steps_install|apply steps_bump]. }
  destruct (Governor.policy_ g); [|exact Hi]. etrans; [exact Hi|apply steps_invalidate_all].
Qed.

Lemma steps_submit_policy p g : steps g (fst (Governor.submit_policy p g)).
Proof.
  unfold Governor.submit_policy. destruct (PolicyDocument.validate p) as [[]|c] eqn:Hp; [|done].
  destruct (Governor.policy_ g); [|by apply steps_install_policy].
  destruct (_ <? _); [apply steps_bump|]. destruct (_ =? _); [|by apply steps_install_policy].
  destruct (negb _); [apply steps_bump|]. destruct (_ <? _); [apply steps_bump|].
  etrans; [|apply steps_bump]. by apply (steps_install p (Governor.exit_rules_ g)).
Qed.

Lemma steps_tables ct pt g :
  (tbl_wf (Governor.capacities_ g) -> tbl_wf ct) -> (tbl_wf (Governor.paths_ g) -> tbl_wf pt) ->
  steps g (g <| Governor.capacities_ := ct |> <| Governor.paths_ := pt |>).
Proof.
  intros Hct Hpt [H1 H2 H3 H4 H5 H6 H7 H8 H9 H10]. split.
  - split; try done; [by apply Hct|by apply Hpt].
  - split; simpl; [done| |by left]. intros f h Hf. exists h. split; [done|lia].
Qed.

Lemma steps_submit_capacity c g : steps g (fst (Governor.submit_capacity c g)).
Proof.
  unfold Governor.submit_capacity.
  pose proof (submit_wf c (Governor.capacities_ g)) as Hw. simpl in Hw.
  destruct (CapacityTable.submit c _) as [ct st]. simpl in *.
  etrans; [apply (steps_tables ct (Governor.paths_ g)); [exact Hw|done]|].
  destruct (ok st); apply steps_bump.
Qed.

Lemma steps_submit_path p g : steps g (fst (Governor.submit_path p g)).
Proof.
  unfold Governor.submit_path.
  pose proof (submit_wf p (Governor.paths_ g)) as Hw. simpl in Hw.
  destruct (PathTable.submit p _) as [pt st]. simpl in *.
  etrans; [apply (steps_tables (Governor.capacities_ g) pt); [done|exact Hw]|].
  destruct (ok st); apply steps_bump.
Qed.

(** ** Population *)

(** The record an eviction removes is a stored, completed one. *)
Lemma eviction_victim_spec flows key r :
  OMap.sorted flows -> Governor.eviction_victim flows = Some (key, r) ->
  OMap.find key flows = Some r /\ FlowLedger.completed_ (FlowRecord.ledger r) = true.
Proof.
  intros Hs. unfold Governor.eviction_victim.
  match goal with |- foldl ?f None flows = _ -> _ =>
    assert (H : forall l acc e, foldl f acc l = Some e ->
      acc = Some e \/ (e ∈ l /\ FlowLedger.completed_ (FlowRecord.ledger e.2) = true)) end.
  { induction l as [|x l IH]; intros acc e; cbn [foldl]; [by left|]. intros He.
    apply IH in He as [He|[He Hc]]; [|right; split; [by right|done]].
    destruct (negb _) eqn:En in He; [by left|]. boolify.
    destruct acc as [a|]; [destruct (_ || _) in He; [|by left]|];
      injection He as <-; right; split; [by left|done|by left|done]. }
  intros He. apply H in He as [He|[He Hc]]; [done|]. split; [|done]. by apply elem_of_find.
Qed.

Lemma evict_frame g g1 key r :
  Governor.eviction_victim (Governor.flows_ g) = Some (key, r) ->
  Governor.evict_one_completed_flow g = (g1, true) ->
  Governor.config_ g1 = Governor.config_ g /\
  Governor.highest_generation_ g1 = Governor.highest_generation_ g /\
  Governor.flows_ g1 = OMap.erase key (Governor.flows_ g).
Proof.
  intros Hv. unfold Governor.evict_one_completed_flow. rewrite Hv.
  destruct (Governor.update_index key (g, r)) as [g2 r2] eqn:Eu. intros [= <-].
  apply update_index_frame in Eu as ([] & _). simpl. by split_and!; congruence.
Qed.

Lemma steps_erase key g : steps g (g <| Governor.flows_ ::= OMap.erase key |>).
Proof.
  intros [H1 H2 H3 H4 H5 H6 H7 H8 H9 H10]. split.
  - split; try done; simpl.
    + by apply sorted_erase.
    + unfold Governor.flow_count in *. simpl. etrans; [apply size_filter|done].
    + intros k x. rewrite find_erase. destruct (OMap.key_eqb key k); [done|apply H5].
    + intros k x. rewrite find_erase. destruct (OMap.key_eqb key k); [done|apply H6].
  - split; simpl; [done| |].
    + intros f h Hf. exists h. split; [done|lia].
    + intros k. rewrite contains_erase. intros [_ Hk]%andb_true_iff. by left.
Qed.

Lemma steps_evict g : steps g (fst (Governor.evict_one_completed_flow g)).
Proof.
  unfold Governor.evict_one_completed_flow.
  destruct (Governor.eviction_victim _) as [[key r]|]; [|done].
  destruct (Governor.update_index key (g, r)) as [g2 r2] eqn:Eu.
  apply update_index_frame in Eu as (Hc & _ & Hi & _). simpl.
  etrans; [apply (steps_core g g2 Hc); by rewrite Hi|]. etrans; [|apply steps_bump]. apply steps_erase.
Qed.

(** Capacity is only granted when there is room for one more record. *)
Lemma ensure_flow_capacity_room g g' :
  gov_inv g -> Governor.ensure_flow_capacity g = (g', Val tt) ->
  Governor.flow_count g' < GovernorConfig.max_flows (Governor.config_ g').
Proof.
  intros Hg. unfold Governor.ensure_flow_capacity, Governor.flow_count.
  destruct (_ <? _) eqn:El; [intros [= <-]; by boolify|].
  destruct (Governor.evict_one_completed_flow g) as [g1 ev] eqn:Ee. destruct ev; [|done].
  intros [= <-]. pose proof Ee as Ev. unfold Governor.evict_one_completed_flow in Ev.
  destruct (Governor.eviction_victim (Governor.flows_ g)) as [[key r]|] eqn:Hv; [|done]. clear Ev.
  destruct (evict_frame g g1 key r Hv Ee) as (-> & _ & ->).
  apply eviction_victim_spec in Hv as [Hf _]; [|apply Hg].
  pose proof (size_erase_found key r _ Hf). pose proof (gi_size g Hg).
  unfold Governor.flow_count in *. lia.
Qed.

Lemma steps_ensure g : steps g (fst (Governor.ensure_flow_capacity g)).
Proof.
  unfold Governor.ensure_flow_capacity. destruct (_ <? _); [done|].
  pose proof (steps_evict g) as Hs. destruct (Governor.evict_one_completed_flow g) as [g1 []]; [done|].
  etrans; [exact Hs|]. apply steps_bump.
Qed.

Lemma ensure_highest g :
  Governor.highest_generation_ (fst (Governor.ensure_flow_capacity g)) =
  Governor.highest_generation_ g.
Proof.
  unfold Governor.ensure_flow_capacity. destruct (_ <? _); [done|].
  destruct (Governor.evict_one_completed_flow g) as [g1 ev] eqn:Ee.
  destruct (Governor.eviction_victim (Governor.flows_ g)) as [[key r]|] eqn:Hv.
  - assert (ev = true) as -> by (unfold Governor.evict_one_completed_flow in Ee; rewrite Hv in Ee;
      destruct (Governor.update_index _ _); by simplify_eq).
    destruct (evict_frame g g1 key r Hv Ee) as (_ & H & _). exact H.
  - unfold Governor.evict_one_completed_flow in Ee. rewrite Hv in Ee. by injection Ee as <- <-.
Qed.

Lemma steps_create flow generation g :
  Governor.flow_count g < GovernorConfig.max_flows (Governor.config_ g) ->
  (forall h, OMap.find flow (Governor.highest_generation_ g) = Some h -> h < generation) ->
  steps g (Governor.create_flow flow generation g).
Proof.
  intros Hroom Hnew [H1 H2 H3 H4 H5 H6 H7 H8 H9 H10].
  set (r0 := FlowRecord.make
    (FlowLedger.make flow generation (Governor.ledger_limits (Governor.config_ g)))
    (ClassificationHistory.make (GovernorConfig.max_history_per_flow (Governor.config_ g)))).
  assert (Habsent : OMap.contains (flow, generation) (Governor.flows_ g) = false).
  { destruct (OMap.contains _ _) eqn:E; [|done]. apply contains_find in E as (r & Hf).
    destruct (H6 _ _ Hf) as (h & Hh & Hle). specialize (Hnew h Hh). simpl in *. lia. }
  assert (Hfl : Governor.flows_ (Governor.create_flow flow generation g) =
    OMap.set (flow, generation) r0 (Governor.flows_ g)).
  { unfold Governor.create_flow. simpl. by rewrite Habsent. }
  assert (Hr0 : rec_inv (flow, generation) r0).
  { split; simpl; try done; [apply ledger_inv_make|apply history_inv_make]; simpl; lia. }
  split.
  - split; try done; unfold Governor.flow_count; rewrite ?Hfl; simpl.
    + by apply sorted_set.
    + pose proof (size_set (flow, generation) r0 (Governor.flows_ g)).
      unfold Governor.flow_count in *. lia.
    + intros k x. rewrite find_set. destruct (OMap.key_eqb _ k) eqn:E; [|apply H5].
      apply OMap.key_eqb_eq in E as <-. by intros [= <-].
    + intros k x. rewrite !find_set. destruct (OMap.key_eqb (flow, generation) k) eqn:E.
      * apply OMap.key_eqb_eq in E as <-. intros _. simpl. rewrite OMap.key_eqb_refl.
        exists generation. split; [done|lia].
      * intros Hf. destruct (H6 k x Hf) as (h & Hh & Hle).
        destruct (OMap.key_eqb flow k.1) eqn:E2; [|by exists h].
        apply OMap.key_eqb_eq in E2 as ->. specialize (Hnew h Hh). exists generation. split; [done|lia].
  - split; rewrite ?Hfl; simpl; [done| |].
    + intros f h Hf. rewrite find_set. destruct (OMap.key_eqb flow f) eqn:E.
      * apply OMap.key_eqb_eq in E as <-. exists generation. split; [done|]. specialize (Hnew h Hf). lia.
      * exists h. split; [done|lia].
    + intros k. rewrite contains_set. destruct (OMap.key_eqb _ k) eqn:E; [|by left].
      apply OMap.key_eqb_eq in E as <-. by right.
Qed.

Lemma steps_fence flow keep now g :
  let '(ledger, fenced) := IntentLedger.fence_other_generations flow keep now (Governor.intents_ g) in
  steps g (Governor.bump_by fenced GovernorCounters.intents_fenced (g <| Governor.intents_ := ledger |>)).
Proof.
  assert (Ht : intents_inv (Governor.intents_ g) ->
    intents_inv (fst (IntentLedger.fence_other_generations flow keep now (Governor.intents_ g))))
    by (intros; apply sweep_inv; auto with efg).
  destruct (IntentLedger.fence_other_generations _ _ _ _) as [l n].
  apply steps_core; [by split|exact Ht].
Qed.

Lemma steps_establish s g : steps g (fst (Governor.establish_flow s g)).
Proof.
  intros Hg. unfold Governor.establish_flow. cbv zeta.
  destruct (OMap.contains _ _); [by split|].
  pose proof (steps_ensure g Hg) as [Hg1 Ha1]. pose proof (ensure_highest g) as Hh.
  pose proof (ensure_flow_capacity_room g) as Hroom.
  assert (Hcreate : forall g1, Governor.ensure_flow_capacity g = (g1, Val tt) ->
    (forall h, OMap.find (FlowSample.flow s) (Governor.highest_generation_ g) = Some h ->
       h < FlowSample.flow_generation s) ->
    gov_inv (Governor.create_flow (FlowSample.flow s) (FlowSample.flow_generation s) g1) /\
    advances g (Governor.create_flow (FlowSample.flow s) (FlowSample.flow_generation s) g1)).
  { intros g1 He Hn. rewrite He in Hg1, Ha1, Hh. cbn [fst] in *.
    destruct (steps_create (FlowSample.flow s) (FlowSample.flow_generation s) g1) as [Hg2 Ha2];
      [by apply Hroom|by rewrite Hh|done|]. split; [done|by etrans]. }
  destruct (OMap.find (FlowSample.flow s) (Governor.highest_generation_ g)) as [highest|] eqn:Ehi.
  - destruct (_ <=? _) eqn:Ele; [by apply (transitivity (steps_bump GovernorCounters.evidence_rejected g)
      (steps_bump GovernorCounters.stale_refusals _))|]. boolify.
    destruct (Governor.ensure_flow_capacity g) as [g1 [[]|c]]; cbn [fst] in *; [|done].
    destruct (Hcreate g1 eq_refl) as [Hg2 Ha2]; [intros h [= <-]; lia|].
    pose proof (steps_fence (FlowSample.flow s) (FlowSample.flow_generation s) 0
      (Governor.bump GovernorCounters.flow_generation_rollovers
        (Governor.create_flow (FlowSample.flow s) (FlowSample.flow_generation s) g1))) as Hf.
    destruct (IntentLedger.fence_other_generations _ _ _ _) as [l n].
    destruct (transitivity (steps_bump GovernorCounters.flow_generation_rollovers _) Hf Hg2).
    split; [done|by etrans].
  - destruct (Governor.ensure_flow_capacity g) as [g1 [[]|c]]; cbn [fst] in *; [|done].
    by apply Hcreate.
Qed.

Lemma steps_submit_evidence s g :
  sample_ok s -> steps g (fst (Governor.submit_evidence s g)).
Proof.
  intros Hs. unfold Governor.submit_evidence.
  destruct (Governor.policy_ g); [|apply steps_bump].
  destruct (FlowSample.validate s) as [u|c].
  - pose proof (steps_establish s g) as He. destruct (Governor.establish_flow s g) as [g1 [v|c]];
      cbn [fst] in *; [|done]. etrans; [exact He|]. apply steps_with_record. by apply ingest_keeps.
  - cbv zeta. etrans; [apply (steps_bump GovernorCounters.evidence_rejected)|].
    destruct (bool_decide _); cbn [fst]; [apply steps_bump|done].
Qed.

Lemma steps_complete_flow flow generation at_ g :
  steps g (fst (Governor.complete_flow flow generation at_ g)).
Proof. apply steps_with_record, (complete_record_keeps (flow, generation)). Qed.

(** ** The sweep *)

Lemma steps_sweep_flow now key gb : steps (fst gb) (fst (Governor.sweep_flow now key gb)).
Proof.
  destruct gb as [g batch]. unfold Governor.sweep_flow. cbn [fst].
  destruct (OMap.find key (Governor.flows_ g)); [|done].
  destruct (_ && _); [done|]. destruct (_ && _); [done|].
  pose proof (steps_with_record key (Governor.evaluate now) g (evaluate_keeps key now)) as Hs.
  destruct (Governor.with_record _ _ g) as [g1 [d|c]]; cbn [fst] in *; [|done].
  by destruct (_ && _).
Qed.

Lemma steps_sweep now keys : forall gb,
  steps (fst gb) (fst (foldl (fun gb key => Governor.sweep_flow now key gb) gb keys)).
Proof.
  induction keys as [|k keys IH]; intros gb; [done|]. cbn [foldl].
  etrans; [apply (steps_sweep_flow now k)|apply IH].
Qed.

Lemma steps_guard guard g : steps g (g <| Governor.tick_guard_ := guard |>).
Proof.
  intros []. split; [by split|]. split; simpl; [done| |by left].
  intros f h Hf. exists h. split; [done|lia].
Qed.

(** The state a tick starts its sweep from. *)
Definition sweep_start (now : Tick) (guard : TickGuard.t) (g : Governor.t) : Governor.t :=
  let g := Governor.bump GovernorCounters.sweeps
             (Governor.bump GovernorCounters.ticks (g <| Governor.tick_guard_ := guard |>)) in
  let g := g <| Governor.capacities_ ::= CapacityTable.expire now |>
             <| Governor.paths_ ::= PathTable.expire now |> in
  let '(ledger, expired) := IntentLedger.expire now (Governor.intents_ g) in
  Governor.bump_by expired GovernorCounters.intents_expired (g <| Governor.intents_ := ledger |>).

Lemma steps_sweep_start now guard g : steps g (sweep_start now guard g).
Proof.
  unfold sweep_start. cbv zeta.
  match goal with |- context [IntentLedger.expire now (Governor.intents_ ?a)] => set (g1 := a) end.
  assert (H1 : steps g g1).
  { unfold g1. etrans; [apply (steps_guard guard)|].
    etrans; [apply (steps_bump GovernorCounters.ticks)|]. etrans; [apply (steps_bump GovernorCounters.sweeps)|].
    match goal with |- steps ?a _ =>
      apply (steps_tables (CapacityTable.expire now (Governor.capacities_ a))
        (PathTable.expire now (Governor.paths_ a)) a) end;
      intros Hw; [exact (@expire_wf _ _ capacity_table now _ Hw)|exact (@expire_wf _ _ path_table now _ Hw)]. }
  etrans; [exact H1|].
  assert (Ht : intents_inv (Governor.intents_ g1) ->
    intents_inv (fst (IntentLedger.expire now (Governor.intents_ g1))))
    by (intros; apply sweep_inv; auto with efg).
  destruct (IntentLedger.expire _ _) as [l n]. apply steps_core; [by split|exact Ht].
Qed.

(** A tick refuses without effect on the population, or sweeps every record. *)
Lemma tick_cases now g :
  (exists c, Governor.tick now g = (Governor.bump GovernorCounters.stale_refusals g, Err c)) \/
  exists guard batch,
    let swept := foldl (fun gb key => Governor.sweep_flow now key gb)
      (sweep_start now guard g, batch) (OMap.keys (Governor.flows_ g)) in
    Governor.tick now g = (Governor.advance_tick now (fst swept), Val (snd swept)).
Proof.
  unfold Governor.tick. cbv zeta. destruct (_ || _); [left; by eexists|].
  destruct (TickGuard.observe now _) as [guard [u|c]]; [|left; by eexists].
  right. exists guard. unfold sweep_start. cbv zeta.
  destruct (IntentLedger.expire _ _) as [l n].
  exists (DecisionBatch.make now <| DecisionBatch.expirations := n |>). cbv zeta.
  match goal with |- (let '(_, _) := foldl ?f ?a ?ks in _) = _ =>
    change ks with (OMap.keys (Governor.flows_ g)); set (start := a) end.
  destruct (foldl _ start _). reflexivity.
Qed.

Lemma steps_tick now g : steps g (fst (Governor.tick now g)).
Proof.
  destruct (tick_cases now g) as [[c ->]|(guard & batch & Ht)]; [apply steps_bump|].
  cbv zeta in Ht. rewrite Ht. cbn [fst]. etrans; [apply (steps_sweep_start now guard)|].
  etrans; [apply (steps_sweep now (OMap.keys (Governor.flows_ g)) (_, batch))|].
  apply steps_core; [apply advance_tick_core|]. by rewrite advance_tick_intents.
Qed.

Lemma steps_classification flow generation now g :
  steps g (fst (Governor.classification flow generation now g)).
Proof.
  unfold Governor.classification.
  pose proof (steps_with_record (flow, generation) (Governor.evaluate now) g (evaluate_keeps _ now)) as Hs.
  by destruct (Governor.with_record _ _ g) as [g1 [d|c]].
Qed.

Lemma steps_incarnation boot g : steps g (Governor.set_incarnation boot g).
Proof.
  intros []. split; [by split|]. split; simpl; [done| |by left].
  intros f h Hf. exists h. split; [done|lia].
Qed.

(** ** Runs *)

Inductive gov_op : Type :=
| SubmitPolicy (p : PolicyDocument.t)
| SubmitCapacity (c : ResourceCapacity.t)
| SubmitPath (p : PathDescriptor.t)
| SubmitEvidence (s : FlowSample.t)
| CompleteFlow (flow : FlowId) (generation : Generation) (at_ : Tick)
| TickTo (now : Tick)
| Classify (flow : FlowId) (generation : Generation) (now : Tick)
| SetIncarnation (boot : BootIdentity.t).

Definition gov_apply (op : gov_op) (g : Governor.t) : Governor.t :=
  match op with
  | SubmitPolicy p => fst (Governor.submit_policy p g)
  | SubmitCapacity c => fst (Governor.submit_capacity c g)
  | SubmitPath p => fst (Governor.submit_path p g)
  | SubmitEvidence s => fst (Governor.submit_evidence s g)
  | CompleteFlow f n at_ => fst (Governor.complete_flow f n at_ g)
  | TickTo now => fst (Governor.tick now g)
  | Classify f n now => fst (Governor.classification f n now g)
  | SetIncarnation b => Governor.set_incarnation b g
  end.

Definition gov_op_ok (op : gov_op) : Prop :=
  match op with SubmitEvidence s => sample_ok s | _ => True end.

Definition gov_run (ops : list gov_op) (g : Governor.t) : Governor.t :=
  foldl (fun g op => gov_apply op g) g ops.

Lemma steps_apply op g : gov_op_ok op -> steps g (gov_apply op g).
Proof.
  destruct op; simpl; intros Hop; [apply steps_submit_policy|apply steps_submit_capacity|
    apply steps_submit_path|by apply steps_submit_evidence|apply steps_complete_flow|apply steps_tick|
    apply steps_classification|apply steps_incarnation].
Qed.

Lemma steps_run ops : forall g, Forall gov_op_ok ops -> steps g (gov_run ops g).
Proof.
  unfold gov_run. induction ops as [|op ops IH]; intros g Hops; [done|].
  inversion_clear Hops. cbn [foldl]. etrans; [by apply steps_apply|by apply IH].
Qed.

(** A configuration of machine integers, and one inside the bounds of the governor. *)
Record config_ok (c : GovernorConfig.t) : Prop := {
  co_flows : 0 <= GovernorConfig.max_flows c;
  co_samples : 0 <= GovernorConfig.samples_per_flow c;
  co_history : 0 <= GovernorConfig.max_history_per_flow c }.

Definition within (flows_lo flows_hi samples_lo history_lo : Z) (c : GovernorConfig.t) : Prop :=
  flows_lo <= GovernorConfig.max_flows c /\
  (flows_hi = 0 \/ GovernorConfig.max_flows c <= flows_hi) /\
  samples_lo <= GovernorConfig.samples_per_flow c /\
  history_lo <= GovernorConfig.max_history_per_flow c.

Lemma let_intro {A B} (P : B -> Prop) (Q : A -> Prop) (e : A) (f : A -> B) :
  Q e -> (forall x, Q x -> P (f x)) -> P (let x := e in f x).
Proof. intros He Hf. exact (Hf e He). Qed.

Ltac clamp_step Q :=
  lazymatch goal with
  | |- ?P (let c := ?e in @?f c) => apply (let_intro P Q e f); cbv beta
  end;
  [unfold within in *; split_ifs; simpl; boolify; lia|clear; intros c Hw;
   assert (Hk : 2 <= kMaxSamplesPerFlow /\ 1 <= kMaxHistoryPerFlow /\ 1 <= kMaxFlows)
     by (vm_compute; split_and!; discriminate)].

Lemma clamp_facts c : config_ok c -> within 1 kMaxFlows 2 1 (GovernorConfig.clamp c).
Proof.
  intros [H1 H2 H3].
  assert (Hk : 2 <= kMaxSamplesPerFlow /\ 1 <= kMaxHistoryPerFlow /\ 1 <= kMaxFlows)
    by (vm_compute; split_and!; discriminate).
  cbv beta delta [GovernorConfig.clamp].
  clamp_step (within 0 0 2 0). clamp_step (within 0 0 2 0). clamp_step (within 1 0 2 0).
  clamp_step (within 1 kMaxFlows 2 0). clamp_step (within 1 kMaxFlows 2 1).
  clamp_step (within 1 kMaxFlows 2 1). clamp_step (within 1 kMaxFlows 2 1).
  clamp_step (within 1 kMaxFlows 2 1). clamp_step (within 1 kMaxFlows 2 1).
  split_ifs; exact Hw.
Qed.

Lemma gov_inv_make c : config_ok c -> gov_inv (Governor.make c).
Proof.
  intros (Hf & Hhi & Hs & Hh)%clamp_facts.
  assert (Hk : kMaxFlows <> 0) by (vm_compute; discriminate).
  unfold Governor.make. cbv zeta. generalize dependent (GovernorConfig.clamp c). intros c' Hf Hhi Hs Hh.
  destruct Hhi as [|Hhi]; [done|].
  assert (Hnil : forall (E : Type) (id_of : E -> Z) validate, entries_wf id_of validate []).
  { intros. split; constructor. }
  split; simpl; try done; try (by apply Hnil); try lia.
  - unfold OMap.sorted. constructor.
  - unfold Governor.flow_count, size_of. simpl. lia.
  - apply intents_inv_make.
Qed.

(** ** What the sweeping operations do to the population *)

(** Whatever its outcome, a commit stores the candidate or leaves the classification. *)
Lemma commit_class prev now cand g r gr' res :
  Governor.commit prev now cand (g, r) = (gr', res) ->
  (FlowRecord.classification (snd gr') = FlowRecord.classification r /\
   FlowRecord.has_classification (snd gr') = FlowRecord.has_classification r) \/
  FlowClassification.state (FlowRecord.classification (snd gr')) = FlowClassification.state cand.
Proof.
  unfold Governor.commit. intros H.
  destruct (Governor.build_authority r now g) as [auth|c]; [|left; by injection H as <- _].
  destruct (Governor.next_classification_generation r cand) as [gen|c]; [|left; by injection H as <- _].
  destruct (_ =? u64_max); [left; by injection H as <- _|]. cbv zeta in H.
  destruct (ClassificationHistory.record _ _) as [h [u|c]]; [|left; by injection H as <- _].
  right. match type of H with context [Governor.update_index ?k (?a, ?b)] =>
    set (g1 := a) in H; set (r1 := b) in H; set (k1 := k) in H end.
  destruct (Governor.update_index k1 (g1, r1)) as [g2 r2] eqn:Eu.
  apply update_index_frame in Eu as (_ & Hr2 & _).
  destruct (Governor.produce_intents r2 now _) as [g3 [is_|c]];
    apply (f_equal fst) in H; cbn [fst] in H; subst gr'; cbn [snd];
    by rewrite (sr_classification _ _ Hr2).
Qed.

Lemma evaluate_elephant now g r gr' res :
  Governor.evaluate now (g, r) = (gr', res) -> FlowRecord.is_elephant (snd gr') = true ->
  FlowRecord.is_elephant r = true \/
  FlowClassification.state (Governor.assess r now g) = ElephantState.Elephant.
Proof.
  unfold Governor.evaluate. intros H He.
  destruct (_ && _); [left; by injection H as <- _|]. cbv zeta in H.
  destruct (Governor.unchanged _ _ _); [left; by injection H as <- _|].
  apply commit_class in H as [[Hc Hh]|Hs]; unfold FlowRecord.is_elephant in *.
  - left. by rewrite Hc, Hh in He.
  - right. rewrite Hs in He. apply andb_true_iff in He as [_ He].
    unfold ElephantState.eqb in He. by apply bool_decide_eq_true in He.
Qed.

Lemma assess_elephant_clear r now g :
  FlowClassification.state (Governor.assess r now g) = ElephantState.Elephant ->
  (Governor.suspension_reasons r now g).2 = false.
Proof.
  destruct (Governor.measure r (Governor.path_of r g) g (Governor.competition r g)
    (Governor.suspension_reasons r now g)) as [m d] eqn:Em.
  rewrite (assess_state r now g m d Em). intros [Hd _]%decide_elephant. by eapply measure_doubt.
Qed.

(** The keys and the elephants of [g'] are among those of [g]. *)
Definition no_new_elephants (g g' : Governor.t) : Prop := forall key r',
  OMap.find key (Governor.flows_ g') = Some r' ->
  exists r, OMap.find key (Governor.flows_ g) = Some r /\
    (FlowRecord.is_elephant r' = true -> FlowRecord.is_elephant r = true).

#[global] Instance no_new_elephants_preorder : PreOrder no_new_elephants.
Proof.
  split; [intros g k r Hf; by exists r|]. intros a b c H1 H2 k r3 Hf.
  destruct (H2 k r3 Hf) as (r2 & Hf2 & He2). destruct (H1 k r2 Hf2) as (r1 & Hf1 & He1).
  exists r1. auto.
Qed.

Lemma no_new_elephants_same g g' :
  Governor.flows_ g' = Governor.flows_ g -> no_new_elephants g g'.
Proof. intros H k r. rewrite H. intros Hf. by exists r. Qed.

Lemma sweep_flow_elephants now key gb :
  no_new_elephants (fst gb) (fst (Governor.sweep_flow now key gb)).
Proof.
  destruct gb as [g batch]. unfold Governor.sweep_flow. cbn [fst].
  destruct (OMap.find key (Governor.flows_ g)) as [r|] eqn:Hf; [|done].
  destruct (_ && _); [done|]. destruct (negb _ && negb _) eqn:En; [done|].
  assert (Hw : no_new_elephants g (fst (Governor.with_record key (Governor.evaluate now) g))).
  { unfold Governor.with_record. rewrite Hf.
    destruct (Governor.evaluate now (g, r)) as [[g1 r1] res] eqn:Ee. cbn [fst].
    intros k x. pose proof (evaluate_core now g r (g1, r1) res Ee) as [Hc _]. cbn [fst] in Hc. simpl.
    rewrite find_set, (sc_flows _ _ Hc). destruct (OMap.key_eqb key k) eqn:Ek.
    - apply OMap.key_eqb_eq in Ek as <-. intros [= <-]. exists r. split; [done|]. intros Hx.
      apply (evaluate_elephant now g r (g1, r1) res Ee) in Hx as [Hx|Hx]; [done|].
      apply assess_elephant_clear in Hx. rewrite Hx in En. by destruct (FlowRecord.is_elephant r).
    - intros Hx. by exists x. }
  destruct (Governor.with_record _ _ g) as [g1 [d|c]]; cbn [fst] in *; [|exact Hw].
  clear En. destruct (_ && _); exact Hw.
Qed.

Lemma sweep_elephants now keys : forall gb,
  no_new_elephants (fst gb) (fst (foldl (fun gb key => Governor.sweep_flow now key gb) gb keys)).
Proof.
  induction keys as [|k keys IH]; intros gb; [done|]. cbn [foldl].
  etrans; [apply (sweep_flow_elephants now k)|apply IH].
Qed.

Lemma sweep_start_flows now guard g :
  Governor.flows_ (sweep_start now guard g) = Governor.flows_ g.
Proof. unfold sweep_start. cbv zeta. by destruct (IntentLedger.expire _ _). Qed.

(** *** Policy installation *)

Lemma is_elephant_same r r' : same_record r r' -> FlowRecord.is_elephant r' = FlowRecord.is_elephant r.
Proof. intros []. unfold FlowRecord.is_elephant. congruence. Qed.

Lemma invalidate_record_calms key now reason g r gr' :
  Governor.invalidate_record key now reason (g, r) = (gr', Val tt) ->
  FlowRecord.is_elephant (snd gr') = false.
Proof.
  unfold Governor.invalidate_record. cbv zeta.
  destruct (FlowRecord.has_classification r) eqn:Hh.
  - destruct (FlowRecord.is_elephant r) eqn:He.
    + destruct (ClassificationHistory.record _ _) as [h [u|c]]; [|discriminate].
      match goal with |- context [Governor.update_index ?k (?a, ?b)] =>
        destruct (Governor.update_index k (a, b)) as [g2 r2] eqn:Eu end.
      intros H. apply (f_equal fst) in H. cbn [fst] in H. subst gr'. cbn [snd].
      apply update_index_frame in Eu as (_ & Hs & _). rewrite (is_elephant_same _ _ Hs).
      unfold FlowRecord.is_elephant, ElephantState.eqb. simpl. by rewrite andb_false_r.
    + intros [= <-]. unfold FlowRecord.is_elephant in *. exact He.
  - intros [= <-]. cbn [snd]. unfold FlowRecord.is_elephant. by rewrite Hh.
Qed.

(** One step of the invalidation: its own record is calm, no other becomes an elephant. *)
Lemma invalidate_step key now reason g g1 :
  Governor.with_record key (Governor.invalidate_record key now reason) g = (g1, Val tt) ->
  no_new_elephants g g1 /\
  forall r, OMap.find key (Governor.flows_ g1) = Some r -> FlowRecord.is_elephant r = false.
Proof.
  unfold Governor.with_record. destruct (OMap.find key (Governor.flows_ g)) as [r|] eqn:Hf; [|done].
  destruct (Governor.invalidate_record key now reason (g, r)) as [[g2 r2] res] eqn:Ei.
  intros [= <- ->]. pose proof (invalidate_record_calms key now reason g r _ Ei) as Hcalm.
  cbn [snd] in Hcalm.
  assert (Hfl : Governor.flows_ g2 = Governor.flows_ g).
  { clear Hcalm. revert Ei. unfold Governor.invalidate_record. cbv zeta.
    destruct (FlowRecord.has_classification r); [|by intros [= <- <-]].
    destruct (FlowRecord.is_elephant r); [|by intros [= <- <-]].
    destruct (ClassificationHistory.record _ _) as [h [u|c]]; [|by intros [= <- <-]].
    match goal with |- context [Governor.update_index ?k (?a, ?b)] =>
      destruct (Governor.update_index k (a, b)) as [g3 r3] eqn:Eu end.
    intros H. apply (f_equal fst) in H. cbn [fst] in H. injection H as <- <-.
    apply update_index_frame in Eu as ([_ _ _ _ _ _ _ Hx _] & _). exact Hx. }
  split.
  - intros k x. simpl. rewrite Hfl, find_set. destruct (OMap.key_eqb key k) eqn:Ek; [|by exists x].
    apply OMap.key_eqb_eq in Ek as <-. intros [= <-]. exists r. split; [done|congruence].
  - intros x. simpl. rewrite find_set_eq. by intros [= <-].
Qed.

Lemma invalidate_loop now reason keys : forall g g',
  for_each (fun key => Governor.with_record key (Governor.invalidate_record key now reason)) keys g =
    (g', Val tt) ->
  no_new_elephants g g' /\
  forall k r, k ∈ keys -> OMap.find k (Governor.flows_ g') = Some r -> FlowRecord.is_elephant r = false.
Proof.
  induction keys as [|key keys IH]; intros g g' H; cbn [for_each] in H.
  { injection H as <-. split; [done|]. by intros k r ?%not_elem_of_nil. }
  apply M_bind_Val in H as (g1 & [] & H1 & H2).
  apply invalidate_step in H1 as [Hn1 Hc1]. apply IH in H2 as [Hn2 Hc2].
  split; [by etrans|]. intros k r [->|Hk]%elem_of_cons Hf; [|by apply (Hc2 k)].
  destruct (Hn2 key r Hf) as (r1 & Hf1 & He). specialize (Hc1 r1 Hf1).
  destruct (FlowRecord.is_elephant r); [by rewrite He in Hc1|done].
Qed.

Lemma find_keys {K V} `{!OrdKey K} k v (m : omap_t K V) : OMap.find k m = Some v -> k ∈ OMap.keys m.
Proof. intros Hf%find_elem_of. apply list_elem_of_fmap. by exists (k, v). Qed.

Lemma revoke_all_dead now s reason l k i :
  is_live s = false ->
  IntentLedger.find k (fst (IntentLedger.revoke_all now s reason l)) = Some i ->
  is_live (GovernanceIntent.state i) = false.
Proof.
  intros Hs Hf. destruct (is_live (GovernanceIntent.state i)) eqn:El; [|done].
  by eapply sweep_live in Hf as [_ Hx]; [|auto with efg|].
Qed.

Lemma invalidate_all_calms now reason g g' :
  Governor.invalidate_all_authority now reason g = (g', Val tt) ->
  (forall key r, OMap.find key (Governor.flows_ g') = Some r -> FlowRecord.is_elephant r = false) /\
  (forall k i, IntentLedger.find k (Governor.intents_ g') = Some i ->
     is_live (GovernanceIntent.state i) = false).
Proof.
  unfold Governor.invalidate_all_authority.
  destruct (for_each _ _ g) as [g1 [[]|c]] eqn:El; [|done].
  apply invalidate_loop in El as [Hn Hc].
  pose proof (fun k i => revoke_all_dead now IntentState.Revoked SuppressReason.AuthorityStale
    (Governor.intents_ g1) k i eq_refl) as Hd.
  destruct (IntentLedger.revoke_all _ _ _ _) as [l n]. intros H.
  apply (f_equal fst) in H. cbn [fst] in H. subst g'. split; [|exact Hd]. simpl.
  intros key r Hf. destruct (Hn key r Hf) as (r0 & Hf0 & _). eapply Hc; [|exact Hf]. by eapply find_keys.
Qed.

(** *** Suspension *)

Lemma revoke_suspended_dead c now g k i :
  FlowClassification.state c = ElephantState.Suspended ->
  IntentLedger.find k (Governor.intents_ (Governor.revoke_suspended c now g)) = Some i ->
  IntentLedger.of_flow (FlowClassification.flow c) (FlowClassification.flow_generation c) i = true ->
  is_live (GovernanceIntent.state i) = false.
Proof.
  intros Hs. unfold Governor.revoke_suspended, ElephantState.eqb. rewrite Hs, bool_decide_eq_true_2 by done.
  cbv zeta. match goal with |- context [IntentLedger.revoke_flow ?a ?b ?cc ?d] =>
    assert (Hw : forall x, IntentLedger.find k (fst (IntentLedger.revoke_flow a b cc d)) = Some x ->
      is_live (GovernanceIntent.state x) = true -> IntentLedger.of_flow a b x = false) end.
  { intros x Hf Hlive. unfold IntentLedger.revoke_flow in Hf. eapply sweep_live in Hf as [_ Hx]; auto with efg. }
  destruct (IntentLedger.revoke_flow _ _ _ _) as [l n]. intros Hf Ho.
  destruct (is_live (GovernanceIntent.state i)) eqn:El; [|done].
  rewrite (Hw i Hf El) in Ho. discriminate.
Qed.

Lemma commit_suspended prev now cand g r g' r' d k i :
  Governor.commit prev now cand (g, r) = ((g', r'), Val d) ->
  FlowClassification.state cand = ElephantState.Suspended ->
  IntentLedger.find k (Governor.intents_ g') = Some i ->
  IntentLedger.of_flow (FlowClassification.flow cand) (FlowClassification.flow_generation cand) i = true ->
  is_live (GovernanceIntent.state i) = false.
Proof.
  unfold Governor.commit. intros H Hs.
  destruct (Governor.build_authority r now g) as [auth|c]; [|done].
  destruct (Governor.next_classification_generation r cand) as [gen|c]; [|done].
  destruct (_ =? u64_max); [done|]. cbv zeta in H.
  destruct (ClassificationHistory.record _ _) as [h [u|c]]; [|done].
  match type of H with context [Governor.update_index ?key (Governor.revoke_suspended ?a ?b ?c, ?r)] =>
    set (r1 := r) in H; set (k1 := key) in H;
    pose proof (fun id x => revoke_suspended_dead a b c id x Hs) as Hd;
    set (g1 := Governor.revoke_suspended a b c) in H, Hd end.
  assert (Hs1 : FlowClassification.state (FlowRecord.classification r1) = ElephantState.Suspended)
    by exact Hs.
  clearbody g1 r1. destruct (Governor.update_index k1 (g1, r1)) as [g2 r2] eqn:Eu.
  apply update_index_frame in Eu as (_ & Hr2 & Hi2 & _).
  pose proof (produce_intents_gains r2 now (Governor.advance_tick now g2)) as Hp.
  destruct (Governor.produce_intents r2 now _) as [g3 [is_|c]]; [|done].
  apply (f_equal fst) in H. cbn [fst] in H, Hp. injection H as <- _. intros Hf Ho.
  destruct (is_live (GovernanceIntent.state i)) eqn:El; [|done].
  destruct (Hp k i Hf El) as [Hold|Hnew].
  - rewrite advance_tick_intents, Hi2 in Hold. rewrite <- El. by apply (Hd k i).
  - apply ab_elephant in Hnew. rewrite (sr_classification _ _ Hr2), Hs1 in Hnew. discriminate.
Qed.

Lemma evaluate_suspended now g r g' r' d k i :
  Governor.evaluate now (g, r) = ((g', r'), Val d) ->
  Governor.previous_state r <> ElephantState.Suspended ->
  FlowClassification.state (FlowDecision.classification d) = ElephantState.Suspended ->
  IntentLedger.find k (Governor.intents_ g') = Some i ->
  IntentLedger.of_flow (FlowLedger.flow_ (FlowRecord.ledger r))
    (FlowLedger.generation_ (FlowRecord.ledger r)) i = true ->
  is_live (GovernanceIntent.state i) = false.
Proof.
  intros H Hp Hs. pose proof (evaluate_decided now g r g' r' d H) as ([Hst _ _] & _).
  rewrite Hs in Hst. destruct (assess_flow r now g) as [<- <-]. revert H.
  unfold Governor.evaluate. destruct (_ && _); [done|]. cbv zeta.
  destruct (Governor.unchanged _ _ _) eqn:Eu.
  - exfalso. unfold Governor.unchanged in Eu. boolify. unfold ElephantState.eqb in *.
    unfold Governor.previous_state in Hp.
    repeat match goal with Hb : bool_decide _ = true |- _ => apply bool_decide_eq_true in Hb end.
    destruct (FlowRecord.has_classification r); congruence.
  - intros H. by eapply commit_suspended.
Qed.

(** *** The binding index *)

(** A record that is classified with a known capacity is entered into the index, wherever
    [update_index] is called from. *)
Lemma update_index_binds key g r :
  FlowRecord.has_classification r = true ->
  let m := FlowClassification.measurements (FlowRecord.classification r) in
  FlowMeasurements.capacity_known m = true ->
  exists entries,
    OMap.find (FlowMeasurements.binding_resource m)
      (Governor.binding_index_ (fst (Governor.update_index key (g, r)))) = Some entries /\
    OMap.find key entries = Some (BindingEntry.mk
      (ElephantState.eqb (FlowClassification.state (FlowRecord.classification r)) ElephantState.Elephant)
      (FlowMeasurements.share_of_capacity m)).
Proof.
  cbv zeta. intros Hh Hc. unfold Governor.update_index.
  destruct (FlowRecord.bound r); simpl; rewrite Hh, Hc; simpl; eexists;
    (split; [apply find_set_eq|apply find_set_eq]).
Qed.

(** ** Properties *)

(** A short history of the demo flow: policy, capacity and path, then two windows. *)
Definition demo_config : GovernorConfig.t := GovernorConfig.default <| GovernorConfig.max_flows := 1 |>.
Definition demo_authorization : IntentAuthorization.t :=
  IntentAuthorization.mk true true true true true true 2500 50 8 0 0.
Definition demo_ops : list gov_op := [
  SubmitPolicy (demo_policy 1 1000 1 3 demo_authorization);
  SubmitCapacity (demo_capacity 1 10000 5000);
  SubmitPath (demo_path 1);
  SubmitEvidence (stream_sample 1 500);
  SubmitEvidence (stream_sample 2 500)].
Definition demo_run : Governor.t :=
  Eval vm_compute in gov_run demo_ops (Governor.make demo_config).
Lemma demo_run_eq : gov_run demo_ops (Governor.make demo_config) = demo_run.
Proof. vm_compute. reflexivity. Qed.

Lemma demo_config_ok : config_ok demo_config.
Proof. split; vm_compute; discriminate. Qed.

Lemma demo_gov_ops_ok : Forall gov_op_ok demo_ops.
Proof. repeat (constructor; simpl; try done); apply stream_sample_ok; lia. Qed.

(** A run in which the population may also be given up: [Governor::reset] between operations. *)
Inductive life_op : Type := Operate (op : gov_op) | Reset.

Definition life_apply (op : life_op) (g : Governor.t) : Governor.t :=
  match op with Operate op => gov_apply op g | Reset => Governor.reset g end.
Definition life_ok (op : life_op) : Prop := match op with Operate op => gov_op_ok op | Reset => True end.
Definition life_run (ops : list life_op) (g : Governor.t) : Governor.t := foldl (fun g op => life_apply op g) g ops.

Lemma reset_inv g : gov_inv g -> gov_inv (Governor.reset g).
Proof.
  intros [H1 H2 _ _ _ _ _ _ _ _].
  assert (Hnil : forall (E : Type) (id_of : E -> Z) validate, entries_wf id_of validate []) by (intros; split; constructor).
  split; simpl; try done; try (by apply Hnil).
  - unfold OMap.sorted. constructor.
  - unfold Governor.flow_count, size_of. simpl. lia.
  - apply intents_inv_make.
Qed.

Lemma life_run_inv ops : forall g, Forall life_ok ops -> gov_inv g -> gov_inv (life_run ops g).
Proof.
  unfold life_run. induction ops as [|op ops IH]; intros g Hops Hg; [done|]. inversion_clear Hops. cbn [foldl].
  apply IH; [done|]. destruct op as [op|]; [by apply steps_apply|by apply reset_inv].
Qed.

(** C1: Whatever sequence of policies, capacities, paths, evidence, completions, ticks,
    queries, changes of incarnation and resets a fresh governor is given, accepted or refused, the
    population stays within its limit and sorted, every record is that of its key with a well-formed
    evidence chain and history, no record is above its flow's highest generation, the tables hold
    validated statements only, and the intent ledger keeps its own invariant. Restoring a snapshot
    is not among these operations: what it keeps is the subject of [restore_keeps_structure]. *)
Theorem governor_run_invariant (config : GovernorConfig.t) (ops : list life_op) :
  config_ok config -> Forall life_ok ops -> gov_inv (life_run ops (Governor.make config)).
Proof. intros Hc Hops. by apply life_run_inv, gov_inv_make. Qed.

Lemma governor_run_invariant_witness :
  let ops := Operate <$> demo_ops in
  gov_inv (life_run (ops ++ Reset :: ops) (Governor.make demo_config)) /\ Governor.flow_count demo_run = 1.
Proof.
  intros ops. split; [|vm_compute; reflexivity].
  apply (governor_run_invariant demo_config (ops ++ Reset :: ops)); [apply demo_config_ok|].
  assert (H : Forall life_ok ops).
  { subst ops. apply Forall_fmap. eapply Forall_impl; [exact demo_gov_ops_ok|]. intros op Hop. exact Hop. }
  apply Forall_app. split; [exact H|]. constructor; [exact I|exact H].
Defined.

(** C26: A generation of a flow that is gone stays gone: once a flow has been seen at
    generation [h], no sequence of policies, capacities, paths, evidence, completions, ticks,
    queries and changes of incarnation brings a record of a generation up to [h] back unless
    it is still retained, so evidence replayed from an evicted or never admitted generation never
    re-creates it. [reset] and the restoration of a snapshot, which forget or overwrite what has
    been seen, are not among these operations. *)
Theorem generations_never_reused (g : Governor.t) (ops : list gov_op) (flow : FlowId)
    (generation h : Generation) :
  gov_inv g -> Forall gov_op_ok ops ->
  OMap.find flow (Governor.highest_generation_ g) = Some h -> generation <= h ->
  OMap.contains (flow, generation) (Governor.flows_ g) = false ->
  OMap.contains (flow, generation) (Governor.flows_ (gov_run ops g)) = false.
Proof.
  intros Hg Hops Hh Hle Hgone. destruct (steps_run ops g Hops Hg) as [_ [_ _ Hf]].
  destruct (OMap.contains _ (Governor.flows_ (gov_run ops g))) eqn:E; [|done].
  destruct (Hf _ E) as [Hin|Hnew]; [congruence|]. specialize (Hnew h Hh). simpl in Hnew. lia.
Qed.

(** The demo flow's second generation. *)
Definition second_generation (n : Z) : FlowSample.t :=
  let s := stream_sample n 500 <| FlowSample.flow_generation := 2 |> in
  s <| FlowSample.provenance ::= (fun p => p <| Provenance.digest := FlowSample.digest s |>) |>.

Definition second_ops : list gov_op := take 3 demo_ops ++ [SubmitEvidence (second_generation 1)].
Definition second_run : Governor.t :=
  Eval vm_compute in gov_run second_ops (Governor.make demo_config).
Lemma second_run_eq : gov_run second_ops (Governor.make demo_config) = second_run.
Proof. vm_compute. reflexivity. Qed.

Lemma sample_ok_generation s n d :
  u64_ok n -> sample_ok s ->
  sample_ok (s <| FlowSample.flow_generation := n |>
               <| FlowSample.provenance ::= (fun p => p <| Provenance.digest := d |>) |>).
Proof. intros Hn []. by split. Qed.

Lemma second_run_inv : gov_inv second_run.
Proof.
  rewrite <- second_run_eq. apply (steps_run second_ops); [|apply gov_inv_make, demo_config_ok].
  unfold second_ops. apply Forall_app. split; [apply Forall_take, demo_gov_ops_ok|].
  apply Forall_singleton. apply sample_ok_generation; [ulia|apply stream_sample_ok; lia].
Qed.

Lemma generations_never_reused_witness :
  Governor.flow_keys second_run = [(7, 2)] /\
  OMap.contains (7, 1)
    (Governor.flows_ (gov_run [SubmitEvidence (stream_sample 2 500)] second_run)) = false.
Proof.
  split; [vm_compute; reflexivity|].
  apply (generations_never_reused second_run [SubmitEvidence (stream_sample 2 500)] 7 1 2).
  - apply second_run_inv.
  - apply Forall_singleton. apply stream_sample_ok; lia.
  - vm_compute. reflexivity.
  - lia.
  - vm_compute. reflexivity.
Defined.

(** A tick never promotes: the flows that are elephants after a tick, refused or
    not, were elephants before it, and no record appears. *)
Theorem tick_never_promotes (now : Tick) (g : Governor.t) :
  no_new_elephants g (fst (Governor.tick now g)).
Proof.
  destruct (tick_cases now g) as [[c ->]|(guard & batch & Ht)]; [by apply no_new_elephants_same|].
  cbv zeta in Ht. rewrite Ht. cbn [fst].
  etrans; [apply (no_new_elephants_same g (sweep_start now guard g)), sweep_start_flows|].
  etrans; [apply (sweep_elephants now (OMap.keys (Governor.flows_ g)) (_, batch))|].
  apply no_new_elephants_same. apply advance_tick_core.
Qed.

(** C27: Installing a policy of a newer generation withdraws everything the old one
    justified: when it succeeds, no flow is an elephant and no intent is live. *)
Theorem policy_change_withdraws (g g' : Governor.t) (old p : PolicyDocument.t) :
  Governor.policy_ g = Some old -> PolicyDocument.generation old < PolicyDocument.generation p ->
  Governor.submit_policy p g = (g', Val tt) ->
  (forall key r, OMap.find key (Governor.flows_ g') = Some r -> FlowRecord.is_elephant r = false) /\
  (forall k i, IntentLedger.find k (Governor.intents_ g') = Some i ->
     is_live (GovernanceIntent.state i) = false).
Proof.
  intros Hold Hgen. unfold Governor.submit_policy, Governor.install_policy.
  destruct (PolicyDocument.validate p); [|done]. rewrite Hold.
  replace (_ <? _) with false by lia. replace (_ =? _) with false by lia.
  destruct (effective_exit_rule p); [|done]. cbv zeta. apply invalidate_all_calms.
Qed.

Lemma policy_change_withdraws_witness :
  let p2 := demo_policy 2 1000 1 3 demo_authorization in
  let g' := fst (Governor.submit_policy p2 demo_run) in
  FlowRecord.is_elephant <$> OMap.find (7, 1) (Governor.flows_ demo_run) = Some true /\
  forall key r, OMap.find key (Governor.flows_ g') = Some r -> FlowRecord.is_elephant r = false.
Proof.
  intros p2 g'. split; [vm_compute; reflexivity|].
  assert (Hok : snd (Governor.submit_policy p2 demo_run) = Val tt) by (vm_compute; reflexivity).
  apply (policy_change_withdraws demo_run g' (demo_policy 1 1000 1 3 demo_authorization) p2).
  - vm_compute. reflexivity.
  - vm_compute. reflexivity.
  - unfold g'. rewrite <- Hok. apply surjective_pairing.
Defined.

(** When a flow becomes suspended, the decision leaves no live intent of it: all
    authority it had handed out is withdrawn in the same evaluation. *)
Theorem suspension_withdraws_intents (g g' : Governor.t) (r r' : FlowRecord.t) (now : Tick)
    (d : FlowDecision.t) (k : IntentId) (i : GovernanceIntent.t) :
  Governor.evaluate now (g, r) = ((g', r'), Val d) ->
  Governor.previous_state r <> ElephantState.Suspended ->
  FlowClassification.state (FlowDecision.classification d) = ElephantState.Suspended ->
  IntentLedger.find k (Governor.intents_ g') = Some i ->
  GovernanceIntent.flow i = FlowLedger.flow_ (FlowRecord.ledger r) ->
  GovernanceIntent.flow_generation i = FlowLedger.generation_ (FlowRecord.ledger r) ->
  is_live (GovernanceIntent.state i) = false.
Proof.
  intros H Hp Hs Hf Hfl Hge. eapply evaluate_suspended; try done.
  unfold IntentLedger.of_flow. by rewrite Hfl, Hge, !Z.eqb_refl.
Qed.

(** The record of the demo flow in a governor. *)
Definition demo_flow (g : Governor.t) : FlowRecord.t :=
  default (demo_record 0) (OMap.find (7, 1) (Governor.flows_ g)).

(** The evidence of the demo flow has expired at tick 5000; at 300 it had a live intent. *)
Lemma suspension_withdraws_intents_witness :
  (fun i => is_live (GovernanceIntent.state i)) <$> IntentLedger.find 1 (Governor.intents_ demo_run) =
    Some true /\
  exists i, IntentLedger.find 1 (Governor.intents_
      (fst (fst (Governor.evaluate 5000 (demo_run, demo_flow demo_run))))) = Some i /\
    is_live (GovernanceIntent.state i) = false.
Proof.
  split; [vm_compute; reflexivity|].
  assert (Hp : Governor.previous_state (demo_flow demo_run) = ElephantState.Elephant)
    by (vm_compute; reflexivity).
  assert (Hs : match snd (Governor.evaluate 5000 (demo_run, demo_flow demo_run)) with
    | Val d => FlowClassification.state (FlowDecision.classification d)
    | Err _ => ElephantState.Unknown end = ElephantState.Suspended) by (vm_compute; reflexivity).
  assert (Hf : (fun i => (GovernanceIntent.flow i, GovernanceIntent.flow_generation i)) <$>
    IntentLedger.find 1 (Governor.intents_
      (fst (fst (Governor.evaluate 5000 (demo_run, demo_flow demo_run))))) = Some (7, 1))
    by (vm_compute; reflexivity).
  assert (Hl1 : FlowLedger.flow_ (FlowRecord.ledger (demo_flow demo_run)) = 7) by (vm_compute; reflexivity).
  assert (Hl2 : FlowLedger.generation_ (FlowRecord.ledger (demo_flow demo_run)) = 1)
    by (vm_compute; reflexivity).
  destruct (Governor.evaluate 5000 (demo_run, demo_flow demo_run)) as [[g' r'] [d|c]] eqn:E;
    [|discriminate Hs]. cbn [fst snd] in *.
  destruct (IntentLedger.find 1 (Governor.intents_ g')) as [i|] eqn:Ei; [|discriminate Hf].
  exists i. split; [reflexivity|]. injection Hf as Hf1 Hf2.
  apply (suspension_withdraws_intents demo_run g' (demo_flow demo_run) r' 5000 d 1 i E);
    [rewrite Hp; discriminate|exact Hs|exact Ei|rewrite Hl1; exact Hf1|rewrite Hl2; exact Hf2].
Defined.

(** An evicted flow stays in the index of its resource: eviction re-enters the
    classified record it removes, so the entry, and its place in the resource's aggregate, outlive
    the flow and keep counting as competition. *)
Theorem eviction_leaves_binding (g : Governor.t) (key : FlowKey) (r : FlowRecord.t) :
  gov_inv g -> Governor.eviction_victim (Governor.flows_ g) = Some (key, r) ->
  FlowRecord.has_classification r = true ->
  FlowMeasurements.capacity_known
    (FlowClassification.measurements (FlowRecord.classification r)) = true ->
  let g' := fst (Governor.evict_one_completed_flow g) in
  OMap.contains key (Governor.flows_ g') = false /\
  exists resource entries, OMap.find resource (Governor.binding_index_ g') = Some entries /\
    OMap.contains key entries = true.
Proof.
  intros Hg Hv Hh Hc. unfold Governor.evict_one_completed_flow. rewrite Hv.
  destruct (update_index_binds key g r Hh Hc) as (entries & Hb & He).
  destruct (Governor.update_index key (g, r)) as [g1 r1]. cbn [fst] in *. split.
  - simpl. rewrite contains_erase, OMap.key_eqb_refl. done.
  - eexists _, entries. split; [exact Hb|]. unfold OMap.contains. by rewrite He.
Qed.

(** The demo flow completed, the population still full. *)
Definition completed_run : Governor.t := Eval vm_compute in gov_apply (CompleteFlow 7 1 310) demo_run.
Lemma completed_run_eq : gov_apply (CompleteFlow 7 1 310) demo_run = completed_run.
Proof. vm_compute. reflexivity. Qed.

Lemma completed_run_inv : gov_inv completed_run.
Proof.
  rewrite <- completed_run_eq. apply (steps_apply (CompleteFlow 7 1 310)); [exact I|].
  rewrite <- demo_run_eq.
  apply (steps_run demo_ops); [apply demo_gov_ops_ok|apply gov_inv_make, demo_config_ok].
Qed.

Lemma eviction_leaves_binding_witness :
  let g' := fst (Governor.evict_one_completed_flow completed_run) in
  exists resource entries, OMap.find resource (Governor.binding_index_ g') = Some entries /\
    OMap.contains (7, 1) entries = true.
Proof.
  apply (eviction_leaves_binding completed_run (7, 1) (demo_flow completed_run)).
  - apply completed_run_inv.
  - vm_compute. reflexivity.
  - vm_compute. reflexivity.
  - vm_compute. reflexivity.
Defined.

(** A policy on the share of the binding resource, a path over an ample resource with a
    fresh snapshot and a scarce one whose snapshot expires at tick 150. *)
Definition share_policy : PolicyDocument.t :=
  PolicyDocument.finalize (demo_policy 1 1000 1 3 demo_authorization
    <| PolicyDocument.enter_rule :=
         RuleSet.mk [leaf (Threshold.mk ThresholdKind.ShareOfCapacity 9000 ServiceClass.Unknown)] 0 |>).
Definition scarce_capacity : ResourceCapacity.t :=
  ResourceCapacity.mk 10 1 1 (TickSpan.mk 0 100) 2000 0 (ValidityWindow.mk 0 150) demo_provenance.
Definition share_ops (capacities : list ResourceCapacity.t) : list gov_op :=
  SubmitPolicy share_policy :: (SubmitCapacity <$> capacities) ++
  [SubmitPath (demo_path 1 <| PathDescriptor.resources := [9; 10] |>);
   SubmitEvidence (stream_sample 1 500); SubmitEvidence (stream_sample 2 500)].
Definition share_run (capacities : list ResourceCapacity.t) : Governor.t :=
  gov_run (share_ops capacities) (Governor.make demo_config).

(** An expired capacity snapshot can justify a share: as long as one resource of
    the path has a fresh snapshot, the share a flow is judged by is still taken of the scarcest
    resource, expired or not. Here the flow is decided to be an elephant at tick 300 for its share
    of a resource whose only snapshot expired at 150, and it is not one without that snapshot. *)
Theorem expired_capacity_justifies_share :
  let c9 := demo_capacity 1 1000000 0 in
  let outcome l :=
    let c := FlowRecord.classification (demo_flow (share_run l)) in
    (FlowClassification.decided_at c, FlowClassification.state c,
     FlowMeasurements.binding_resource (FlowClassification.measurements c)) in
  is_fresh (ResourceCapacity.validity scarce_capacity) 300 = false /\
  outcome [c9; scarce_capacity] = (300, ElephantState.Elephant, 10) /\
  outcome [c9] = (300, ElephantState.NotElephant, 9).
Proof. vm_compute. repeat split. Qed.
