(* ===== verification/Codec.v ===== *)
(** * Canonical encoding ([include/efg/codec.hpp], [src/codec.cpp])

    The overloads [encode(ByteWriter&, const T&)] and [decode(ByteReader&, T&)] are the
    instances of the classes [Encode] and [Decode], one pair per durable structure. An
    encoder is the sequence of writes the source makes, whose results it ignores: the
    writer's overflow flag is checked by the caller. A decoder is a method of the reader
    that returns early with the status of the first read that fails; what it had stored
    in its output argument by then is discarded by every caller and is not part of the
    result. *)
From S2P Require Import Prelude Status Checked Tri Tick Hash Flow Tables Policy Impact Classification Intervention.

Class Encode (A : Type) := encode : A -> ByteWriter.t -> ByteWriter.t.
Class Decode (A : Type) := decode : M ByteReader.t A.

(** ** Statement sequences of the encoders *)

Definition put_u8 (value : Z) (w : ByteWriter.t) : ByteWriter.t := fst (ByteWriter.write_u8 value w).
Definition put_u32 (value : Z) (w : ByteWriter.t) : ByteWriter.t := fst (ByteWriter.write_u32 value w).
Definition put_u64 (value : Z) (w : ByteWriter.t) : ByteWriter.t := fst (ByteWriter.write_u64 value w).
Definition put_bool (value : bool) (w : ByteWriter.t) : ByteWriter.t := fst (ByteWriter.write_bool value w).

(** [s1; s2; ...] *)
Definition emit (statements : list (ByteWriter.t -> ByteWriter.t)) (w : ByteWriter.t) : ByteWriter.t :=
  foldl (fun w statement => statement w) w statements.

(** [writer.write_u32(static_cast<u32>(items.size()))]. *)
Definition put_count {A} (items : list A) : ByteWriter.t -> ByteWriter.t :=
  put_u32 (wrap 32 (size_of items)).

(** ** Reads of the decoders *)

(** [if (!reader.read_...(out)) { return fail(...); }] *)
Definition need {A} (read : ByteReader.t -> ByteReader.t * option A) : M ByteReader.t A := fun r =>
  let '(r, out) := read r in
  match out with
  | Some out => (r, Val out)
  | None => (r, Err StatusCode.Truncated)
  end.

Definition need_u8 : M ByteReader.t Z := need ByteReader.read_u8.
Definition need_u32 : M ByteReader.t Z := need ByteReader.read_u32.
Definition need_u64 : M ByteReader.t Z := need ByteReader.read_u64.
Definition need_bool : M ByteReader.t bool := need ByteReader.read_bool.

Definition read_count (ceiling : Z) : M ByteReader.t Z :=
  count ← need_u32;
  if count >? ceiling then fail StatusCode.Oversized else mret count.

(** [cast] is the conversion of the raw byte to the enumeration. *)
Definition read_enum {E} (limit : Z) (cast : Z -> E) : M ByteReader.t E :=
  raw ← need_u8;
  if raw >=? limit then fail StatusCode.Corrupt else mret (cast raw).

(** [for (u32 i = 0; i < count; ++i) { T item; EFG_TRY(...); items.push_back(item); }] *)
Fixpoint read_items {A} (read : M ByteReader.t A) (count : nat) : M ByteReader.t (list A) :=
  match count with
  | O => mret []
  | S count => item ← read; items ← read_items read count; mret (item :: items)
  end.

(** ** Enumerations: [static_cast<Enum>(raw)]

    The casts are total; on a byte at or above the limit, which [read_enum] refuses
    before it casts, their value is never used. *)

Definition ServiceClass_of_u8 (raw : Z) : ServiceClass.t :=
  nth (Z.to_nat raw) [ServiceClass.Unknown; ServiceClass.BestEffort; ServiceClass.Standard;
    ServiceClass.Priority; ServiceClass.Reserved; ServiceClass.Control] ServiceClass.Unknown.
Definition ProtectionState_of_u8 (raw : Z) : ProtectionState.t :=
  nth (Z.to_nat raw) [ProtectionState.Unknown; ProtectionState.Unprotected;
    ProtectionState.Protected; ProtectionState.NonPreemptible] ProtectionState.Unknown.
Definition ThresholdKind_of_u8 (raw : Z) : ThresholdKind.t :=
  nth (Z.to_nat raw) [ThresholdKind.Always; ThresholdKind.Never; ThresholdKind.CumulativeBytes;
    ThresholdKind.DurationTicks; ThresholdKind.SustainedRate; ThresholdKind.PeakRate;
    ThresholdKind.ShareOfCapacity; ThresholdKind.ShareOfAvailable; ThresholdKind.CompetingFlows;
    ThresholdKind.CompetingElephants; ThresholdKind.ExcessOverGuarantee;
    ThresholdKind.ServiceClassIs; ThresholdKind.PriorityAtLeast; ThresholdKind.IsProtected;
    ThresholdKind.IsNonPreemptible; ThresholdKind.HasReservation] ThresholdKind.Count.
Definition RuleKind_of_u8 (raw : Z) : RuleKind.t :=
  nth (Z.to_nat raw) [RuleKind.Threshold; RuleKind.All; RuleKind.Any; RuleKind.Not]
    RuleKind.Threshold.
Definition Tri_of_u8 (raw : Z) : Tri.t :=
  nth (Z.to_nat raw) [Tri.False_; Tri.True_; Tri.Unknown] Tri.Unknown.
Definition ElephantState_of_u8 (raw : Z) : ElephantState.t :=
  nth (Z.to_nat raw) [ElephantState.Unknown; ElephantState.NotElephant; ElephantState.Elephant;
    ElephantState.Suspended] ElephantState.Unknown.
Definition AuthorityLevel_of_u8 (raw : Z) : AuthorityLevel.t :=
  nth (Z.to_nat raw) [AuthorityLevel.None; AuthorityLevel.Observe; AuthorityLevel.Govern]
    AuthorityLevel.None.
Definition IntentKind_of_u8 (raw : Z) : IntentKind.t :=
  nth (Z.to_nat raw) [IntentKind.ObserveOnly; IntentKind.RequestAlternatePlacement;
    IntentKind.RequestRateShaping; IntentKind.RequestSchedulingIsolation;
    IntentKind.ProtectReservedFlow; IntentKind.ReduceCompetingAdmission;
    IntentKind.EscalateCongestion] IntentKind.Count.
Definition IntentState_of_u8 (raw : Z) : IntentState.t :=
  nth (Z.to_nat raw) [IntentState.Suppressed; IntentState.Authorized; IntentState.Clamped;
    IntentState.Active; IntentState.Revoked; IntentState.Fenced; IntentState.Expired;
    IntentState.Completed] IntentState.Suppressed.

(** ** Ticks and provenance *)

#[global] Instance encode_TickSpan : Encode TickSpan.t := fun span => emit [
  put_u64 (TickSpan.begin_ span);
  put_u64 (TickSpan.end_ span) ].

#[global] Instance decode_TickSpan : Decode TickSpan.t :=
  begin_ ← need_u64;
  end_ ← need_u64;
  mret (TickSpan.mk begin_ end_).

#[global] Instance encode_ValidityWindow : Encode ValidityWindow.t := fun window => emit [
  put_u64 (ValidityWindow.issued_at window);
  put_u64 (ValidityWindow.expires_at window) ].

#[global] Instance decode_ValidityWindow : Decode ValidityWindow.t :=
  issued_at ← need_u64;
  expires_at ← need_u64;
  mret (ValidityWindow.mk issued_at expires_at).

#[global] Instance encode_Provenance : Encode Provenance.t := fun provenance => emit [
  put_u64 (PublisherRef.publisher (Provenance.publisher provenance));
  put_u64 (PublisherRef.boot (Provenance.publisher provenance));
  put_u64 (PublisherRef.epoch (Provenance.publisher provenance));
  put_u64 (PublisherRef.sequence (Provenance.publisher provenance));
  put_u64 (Provenance.emitted_at provenance);
  put_u32 (Provenance.schema_version provenance);
  put_u64 (Provenance.digest provenance) ].

#[global] Instance decode_Provenance : Decode Provenance.t :=
  publisher ← need_u64;
  boot ← need_u64;
  epoch ← need_u64;
  sequence ← need_u64;
  emitted_at ← need_u64;
  schema_version ← need_u32;
  digest ← need_u64;
  mret (Provenance.mk (PublisherRef.mk publisher boot epoch sequence)
          emitted_at schema_version digest).

(** ** Policy *)

#[global] Instance encode_Threshold : Encode Threshold.t := fun threshold => emit [
  put_u8 (ThresholdKind.to_u8 (Threshold.kind threshold));
  put_u64 (Threshold.value threshold);
  put_u8 (ServiceClass.to_u8 (Threshold.class_operand threshold)) ].

#[global] Instance decode_Threshold : Decode Threshold.t :=
  kind ← read_enum (ThresholdKind.to_u8 ThresholdKind.Count) ThresholdKind_of_u8;
  value ← need_u64;
  class_operand ← read_enum 6 ServiceClass_of_u8;
  mret (Threshold.mk kind value class_operand).

#[global] Instance encode_RuleNode : Encode RuleNode.t := fun node => emit ([
  put_u8 (RuleKind.to_u8 (RuleNode.kind node));
  encode (RuleNode.threshold node);
  put_count (RuleNode.children node) ] ++
  (put_u32 <$> RuleNode.children node)).

#[global] Instance decode_RuleNode : Decode RuleNode.t :=
  kind ← read_enum 4 RuleKind_of_u8;
  threshold ← decode;
  count ← read_count kMaxPolicyNodes;
  children ← read_items need_u32 (Z.to_nat count);
  mret (RuleNode.mk kind threshold children).

#[global] Instance encode_RuleSet : Encode RuleSet.t := fun rules => emit ([
  put_count (RuleSet.nodes rules);
  put_u32 (RuleSet.root rules) ] ++
  (encode <$> RuleSet.nodes rules)).

#[global] Instance decode_RuleSet : Decode RuleSet.t :=
  count ← read_count kMaxPolicyNodes;
  root ← need_u32;
  nodes ← read_items decode (Z.to_nat count);
  mret (RuleSet.mk nodes root).

#[global] Instance encode_HysteresisSpec : Encode HysteresisSpec.t := fun spec => emit [
  put_u32 (HysteresisSpec.enter_confirm_windows spec);
  put_u32 (HysteresisSpec.exit_confirm_windows spec);
  put_u32 (HysteresisSpec.exit_scale_bp spec) ].

#[global] Instance decode_HysteresisSpec : Decode HysteresisSpec.t :=
  enter_confirm_windows ← need_u32;
  exit_confirm_windows ← need_u32;
  exit_scale_bp ← need_u32;
  mret (HysteresisSpec.mk enter_confirm_windows exit_confirm_windows exit_scale_bp).

#[global] Instance encode_IntentAuthorization : Encode IntentAuthorization.t := fun a => emit [
  put_bool (IntentAuthorization.allow_alternate_placement a);
  put_bool (IntentAuthorization.allow_rate_shaping a);
  put_bool (IntentAuthorization.allow_scheduling_isolation a);
  put_bool (IntentAuthorization.allow_competing_admission_reduction a);
  put_bool (IntentAuthorization.allow_congestion_escalation a);
  put_bool (IntentAuthorization.protect_obligations a);
  put_u32 (IntentAuthorization.max_shaping_reduction_bp a);
  put_u64 (IntentAuthorization.max_intent_duration_ticks a);
  put_u32 (IntentAuthorization.max_targets a);
  put_u32 (IntentAuthorization.min_impact_severity a);
  put_u32 (IntentAuthorization.min_contention_pressure a) ].

#[global] Instance decode_IntentAuthorization : Decode IntentAuthorization.t :=
  allow_alternate_placement ← need_bool;
  allow_rate_shaping ← need_bool;
  allow_scheduling_isolation ← need_bool;
  allow_competing_admission_reduction ← need_bool;
  allow_congestion_escalation ← need_bool;
  protect_obligations ← need_bool;
  max_shaping_reduction_bp ← need_u32;
  max_intent_duration_ticks ← need_u64;
  max_targets ← need_u32;
  min_impact_severity ← need_u32;
  min_contention_pressure ← need_u32;
  mret (IntentAuthorization.mk allow_alternate_placement allow_rate_shaping
          allow_scheduling_isolation allow_competing_admission_reduction
          allow_congestion_escalation protect_obligations max_shaping_reduction_bp
          max_intent_duration_ticks max_targets min_impact_severity min_contention_pressure).

#[global] Instance encode_PolicyDocument : Encode PolicyDocument.t := fun policy => emit [
  put_u64 (PolicyDocument.id policy);
  put_u64 (PolicyDocument.generation policy);
  encode (PolicyDocument.enter_rule policy);
  encode (PolicyDocument.exit_rule policy);
  encode (PolicyDocument.hysteresis policy);
  encode (PolicyDocument.authorization policy);
  encode (PolicyDocument.validity policy);
  encode (PolicyDocument.provenance policy);
  put_u64 (PolicyDocument.digest policy) ].

#[global] Instance decode_PolicyDocument : Decode PolicyDocument.t :=
  id ← need_u64;
  generation ← need_u64;
  enter_rule ← decode;
  exit_rule ← decode;
  hysteresis ← decode;
  authorization ← decode;
  validity ← decode;
  provenance ← decode;
  digest ← need_u64;
  mret (PolicyDocument.mk id generation enter_rule exit_rule hysteresis authorization
          validity provenance digest).

(** ** Evidence *)

(** The two bytes of a priority, in [FlowSample] and in [FlowMeasurements]. *)
Definition put_Priority (priority : Priority.t) : ByteWriter.t -> ByteWriter.t := emit [
  put_bool (Priority.known priority);
  put_u8 (Priority.level priority) ].

Definition read_Priority : M ByteReader.t Priority.t :=
  priority_known ← need_bool;
  level ← need_u8;
  if priority_known && (level >? Priority.kMaxLevel) then fail StatusCode.Corrupt
  else mret (if priority_known then Priority.of_level level else Priority.unknown).

#[global] Instance encode_FlowSample : Encode FlowSample.t := fun sample => emit [
  put_u64 (FlowSample.flow sample);
  put_u64 (FlowSample.flow_generation sample);
  put_u64 (FlowSample.path sample);
  put_u64 (FlowSample.path_generation sample);
  put_u64 (FlowSample.window sample);
  put_u64 (FlowSample.window_sequence sample);
  encode (FlowSample.span sample);
  put_u64 (FlowSample.cumulative_bytes sample);
  put_u64 (FlowSample.window_bytes sample);
  put_u8 (ServiceClass.to_u8 (FlowSample.service_class sample));
  put_Priority (FlowSample.priority sample);
  put_u8 (ProtectionState.to_u8 (FlowSample.protection sample));
  put_u64 (FlowSample.reservation sample);
  put_u64 (FlowSample.tenant sample);
  encode (FlowSample.validity sample);
  encode (FlowSample.provenance sample) ].

#[global] Instance decode_FlowSample : Decode FlowSample.t :=
  flow ← need_u64;
  flow_generation ← need_u64;
  path ← need_u64;
  path_generation ← need_u64;
  window ← need_u64;
  window_sequence ← need_u64;
  span ← decode;
  cumulative_bytes ← need_u64;
  window_bytes ← need_u64;
  service_class ← read_enum 6 ServiceClass_of_u8;
  priority ← read_Priority;
  protection ← read_enum 4 ProtectionState_of_u8;
  reservation ← need_u64;
  tenant ← need_u64;
  validity ← decode;
  provenance ← decode;
  mret (FlowSample.mk flow flow_generation path path_generation window window_sequence span
          cumulative_bytes window_bytes service_class priority protection reservation tenant
          validity provenance).

#[global] Instance encode_FlowMeasurements : Encode FlowMeasurements.t := fun m => emit [
  put_bool (FlowMeasurements.evidence_present m);
  put_bool (FlowMeasurements.evidence_contiguous m);
  put_bool (FlowMeasurements.gap_detected m);
  put_bool (FlowMeasurements.capacity_known m);
  put_bool (FlowMeasurements.path_known m);
  encode (FlowMeasurements.observed m);
  put_u64 (FlowMeasurements.duration_ticks m);
  put_u64 (FlowMeasurements.cumulative_bytes m);
  put_u64 (FlowMeasurements.retained_window_bytes m);
  put_u64 (FlowMeasurements.sustained_rate m);
  put_u64 (FlowMeasurements.peak_window_rate m);
  put_u64 (FlowMeasurements.sample_count m);
  put_u64 (FlowMeasurements.window_count m);
  put_u64 (FlowMeasurements.dropped_windows m);
  put_u8 (ServiceClass.to_u8 (FlowMeasurements.service_class m));
  put_Priority (FlowMeasurements.priority m);
  put_u8 (ProtectionState.to_u8 (FlowMeasurements.protection m));
  put_u64 (FlowMeasurements.reservation m);
  put_bool (FlowMeasurements.has_reservation m);
  put_u64 (FlowMeasurements.tenant m);
  put_bool (FlowMeasurements.completed m);
  put_u64 (FlowMeasurements.binding_resource m);
  put_u64 (FlowMeasurements.resource_capacity m);
  put_u64 (FlowMeasurements.resource_reserved m);
  put_u64 (FlowMeasurements.resource_available m);
  put_u32 (FlowMeasurements.share_of_capacity m);
  put_u32 (FlowMeasurements.share_of_available m);
  put_u32 (FlowMeasurements.competing_flows m);
  put_u32 (FlowMeasurements.competing_elephants m);
  put_u64 (FlowMeasurements.excess_over_guarantee m);
  put_bool (FlowMeasurements.fields_complete m) ].

#[global] Instance decode_FlowMeasurements : Decode FlowMeasurements.t :=
  evidence_present ← need_bool;
  evidence_contiguous ← need_bool;
  gap_detected ← need_bool;
  capacity_known ← need_bool;
  path_known ← need_bool;
  observed ← decode;
  duration_ticks ← need_u64;
  cumulative_bytes ← need_u64;
  retained_window_bytes ← need_u64;
  sustained_rate ← need_u64;
  peak_window_rate ← need_u64;
  sample_count ← need_u64;
  window_count ← need_u64;
  dropped_windows ← need_u64;
  service_class ← read_enum 6 ServiceClass_of_u8;
  priority ← read_Priority;
  protection ← read_enum 4 ProtectionState_of_u8;
  reservation ← need_u64;
  has_reservation ← need_bool;
  tenant ← need_u64;
  completed ← need_bool;
  binding ← need_u64;
  resource_capacity ← need_u64;
  resource_reserved ← need_u64;
  resource_available ← need_u64;
  share_of_capacity ← need_u32;
  share_of_available ← need_u32;
  competing_flows ← need_u32;
  competing_elephants ← need_u32;
  excess_over_guarantee ← need_u64;
  fields_complete ← need_bool;
  mret (FlowMeasurements.mk evidence_present evidence_contiguous gap_detected capacity_known
          path_known observed duration_ticks cumulative_bytes retained_window_bytes
          sustained_rate peak_window_rate sample_count window_count dropped_windows
          service_class priority protection reservation has_reservation tenant completed
          binding resource_capacity resource_reserved resource_available share_of_capacity
          share_of_available competing_flows competing_elephants excess_over_guarantee
          fields_complete).

#[global] Instance encode_ResourceCapacity : Encode ResourceCapacity.t := fun c => emit [
  put_u64 (ResourceCapacity.resource c);
  put_u64 (ResourceCapacity.generation c);
  put_u64 (ResourceCapacity.snapshot c);
  encode (ResourceCapacity.span c);
  put_u64 (ResourceCapacity.capacity c);
  put_u64 (ResourceCapacity.reserved c);
  encode (ResourceCapacity.validity c);
  encode (ResourceCapacity.provenance c) ].

#[global] Instance decode_ResourceCapacity : Decode ResourceCapacity.t :=
  resource ← need_u64;
  generation ← need_u64;
  snapshot ← need_u64;
  span ← decode;
  capacity ← need_u64;
  reserved ← need_u64;
  validity ← decode;
  provenance ← decode;
  mret (ResourceCapacity.mk resource generation snapshot span capacity reserved validity
          provenance).

#[global] Instance encode_PathDescriptor : Encode PathDescriptor.t := fun path => emit ([
  put_u64 (PathDescriptor.path path);
  put_u64 (PathDescriptor.generation path);
  put_count (PathDescriptor.resources path) ] ++
  (put_u64 <$> PathDescriptor.resources path) ++ [
  encode (PathDescriptor.validity path);
  encode (PathDescriptor.provenance path) ]).

#[global] Instance decode_PathDescriptor : Decode PathDescriptor.t :=
  id ← need_u64;
  generation ← need_u64;
  count ← read_count kMaxResourcesPerPath;
  resources ← read_items need_u64 (Z.to_nat count);
  validity ← decode;
  provenance ← decode;
  mret (PathDescriptor.mk id generation resources validity provenance).

(** ** Decisions *)

#[global] Instance encode_ImpactAssessment : Encode ImpactAssessment.t := fun i => emit [
  put_bool (ImpactAssessment.defined i);
  put_u32 (ImpactAssessment.share_of_capacity i);
  put_u32 (ImpactAssessment.share_of_available i);
  put_u32 (ImpactAssessment.rate_pressure i);
  put_u32 (ImpactAssessment.contention_pressure i);
  put_u64 (ImpactAssessment.excess_rate i);
  put_u64 (ImpactAssessment.excess_over_guarantee i);
  put_u32 (ImpactAssessment.competing_flows i);
  put_u32 (ImpactAssessment.competing_elephants i);
  put_bool (ImpactAssessment.protected_obligation_conflict i);
  put_u32 (ImpactAssessment.severity i) ].

#[global] Instance decode_ImpactAssessment : Decode ImpactAssessment.t :=
  defined ← need_bool;
  share_of_capacity ← need_u32;
  share_of_available ← need_u32;
  rate_pressure ← need_u32;
  contention_pressure ← need_u32;
  excess_rate ← need_u64;
  excess_over_guarantee ← need_u64;
  competing_flows ← need_u32;
  competing_elephants ← need_u32;
  protected_obligation_conflict ← need_bool;
  severity ← need_u32;
  mret (ImpactAssessment.mk defined share_of_capacity share_of_available rate_pressure
          contention_pressure excess_rate excess_over_guarantee competing_flows
          competing_elephants protected_obligation_conflict severity).

#[global] Instance encode_AuthorityVector : Encode AuthorityVector.t := fun a => emit [
  put_u64 (AuthorityVector.flow a);
  put_u64 (AuthorityVector.flow_generation a);
  put_u64 (AuthorityVector.path a);
  put_u64 (AuthorityVector.path_generation a);
  put_u64 (AuthorityVector.capacity a);
  put_u64 (AuthorityVector.capacity_generation a);
  put_u64 (AuthorityVector.window a);
  put_u64 (AuthorityVector.window_sequence a);
  put_u64 (AuthorityVector.policy a);
  put_u64 (AuthorityVector.policy_generation a);
  put_u64 (AuthorityVector.classification_generation a);
  put_u64 (AuthorityVector.epoch a);
  put_u64 (AuthorityVector.boot a);
  put_u64 (AuthorityVector.publisher a);
  put_u64 (AuthorityVector.publisher_boot a);
  encode (AuthorityVector.validity a);
  put_u32 (AuthorityVector.bound_flags a) ].

#[global] Instance decode_AuthorityVector : Decode AuthorityVector.t :=
  flow ← need_u64;
  flow_generation ← need_u64;
  path ← need_u64;
  path_generation ← need_u64;
  capacity ← need_u64;
  capacity_generation ← need_u64;
  window ← need_u64;
  window_sequence ← need_u64;
  policy ← need_u64;
  policy_generation ← need_u64;
  classification_generation ← need_u64;
  epoch ← need_u64;
  boot ← need_u64;
  publisher ← need_u64;
  publisher_boot ← need_u64;
  validity ← decode;
  bound_flags ← need_u32;
  mret (AuthorityVector.mk flow flow_generation path path_generation capacity
          capacity_generation window window_sequence policy policy_generation
          classification_generation epoch boot publisher publisher_boot validity bound_flags).

#[global] Instance encode_ThresholdTraceEntry : Encode ThresholdTraceEntry.t := fun e => emit [
  put_u32 (ThresholdTraceEntry.node_index e);
  put_u8 (ThresholdKind.to_u8 (ThresholdTraceEntry.kind e));
  put_u8 (Tri.to_u8 (ThresholdTraceEntry.result e));
  put_bool (ThresholdTraceEntry.observed_defined e);
  put_u64 (ThresholdTraceEntry.observed_value e);
  put_u64 (ThresholdTraceEntry.threshold_value e) ].

#[global] Instance decode_ThresholdTraceEntry : Decode ThresholdTraceEntry.t :=
  node_index ← need_u32;
  kind ← read_enum (ThresholdKind.to_u8 ThresholdKind.Count) ThresholdKind_of_u8;
  result ← read_enum 3 Tri_of_u8;
  observed_defined ← need_bool;
  observed_value ← need_u64;
  threshold_value ← need_u64;
  mret (ThresholdTraceEntry.mk node_index kind result observed_value threshold_value
          observed_defined).

#[global] Instance encode_FlowClassification : Encode FlowClassification.t := fun c => emit ([
  put_u64 (FlowClassification.id c);
  put_u64 (FlowClassification.generation c);
  put_u64 (FlowClassification.flow c);
  put_u64 (FlowClassification.flow_generation c);
  put_u8 (ElephantState.to_u8 (FlowClassification.state c));
  put_u8 (AuthorityLevel.to_u8 (FlowClassification.authority c));
  encode (FlowClassification.authority_vector c);
  put_u64 (FlowClassification.reasons c);
  put_u64 (FlowClassification.decided_at c);
  encode (FlowClassification.validity c);
  encode (FlowClassification.measurements c);
  encode (FlowClassification.impact c);
  put_count (FlowClassification.trace c) ] ++
  (encode <$> FlowClassification.trace c) ++ [
  put_bool (FlowClassification.trace_truncated c);
  put_u32 (FlowClassification.enter_streak c);
  put_u32 (FlowClassification.exit_streak c);
  put_u64 (FlowClassification.history_digest c);
  put_u64 (FlowClassification.digest c) ]).

#[global] Instance decode_FlowClassification : Decode FlowClassification.t :=
  id ← need_u64;
  generation ← need_u64;
  flow ← need_u64;
  flow_generation ← need_u64;
  state ← read_enum 4 ElephantState_of_u8;
  authority ← read_enum 3 AuthorityLevel_of_u8;
  authority_vector ← decode;
  reasons ← need_u64;
  decided_at ← need_u64;
  validity ← decode;
  measurements ← decode;
  impact ← decode;
  count ← read_count kMaxTraceEntries;
  trace ← read_items decode (Z.to_nat count);
  trace_truncated ← need_bool;
  enter_streak ← need_u32;
  exit_streak ← need_u32;
  history_digest ← need_u64;
  digest ← need_u64;
  mret (FlowClassification.mk id generation flow flow_generation state authority
          authority_vector reasons decided_at validity measurements impact trace
          trace_truncated enter_streak exit_streak history_digest digest).

#[global] Instance encode_ClassificationTransition : Encode ClassificationTransition.t := fun t => emit [
  put_u64 (ClassificationTransition.at_ t);
  put_u8 (ElephantState.to_u8 (ClassificationTransition.from t));
  put_u8 (ElephantState.to_u8 (ClassificationTransition.to t));
  put_u8 (AuthorityLevel.to_u8 (ClassificationTransition.authority t));
  put_u64 (ClassificationTransition.reasons t);
  put_u64 (ClassificationTransition.classification t);
  put_u64 (ClassificationTransition.classification_generation t) ].

#[global] Instance decode_ClassificationTransition : Decode ClassificationTransition.t :=
  at_ ← need_u64;
  from ← read_enum 4 ElephantState_of_u8;
  to ← read_enum 4 ElephantState_of_u8;
  authority ← read_enum 3 AuthorityLevel_of_u8;
  reasons ← need_u64;
  classification ← need_u64;
  generation ← need_u64;
  mret (ClassificationTransition.mk at_ from to authority reasons classification generation).

#[global] Instance encode_IntentBounds : Encode IntentBounds.t := fun b => emit [
  put_u32 (IntentBounds.rate_reduction_bp b);
  put_u64 (IntentBounds.duration_ticks b);
  put_u32 (IntentBounds.targets b);
  put_bool (IntentBounds.placement b);
  put_bool (IntentBounds.isolation b);
  put_bool (IntentBounds.admission_reduction b);
  put_bool (IntentBounds.congestion_escalation b) ].

#[global] Instance decode_IntentBounds : Decode IntentBounds.t :=
  rate_reduction_bp ← need_u32;
  duration_ticks ← need_u64;
  targets ← need_u32;
  placement ← need_bool;
  isolation ← need_bool;
  admission_reduction ← need_bool;
  congestion_escalation ← need_bool;
  mret (IntentBounds.mk rate_reduction_bp duration_ticks targets placement isolation
          admission_reduction congestion_escalation).

#[global] Instance encode_GovernanceIntent : Encode GovernanceIntent.t := fun i => emit [
  put_u64 (GovernanceIntent.id i);
  put_u64 (GovernanceIntent.attempt i);
  put_u8 (IntentKind.to_u8 (GovernanceIntent.kind i));
  put_u64 (GovernanceIntent.flow i);
  put_u64 (GovernanceIntent.flow_generation i);
  put_u64 (GovernanceIntent.classification i);
  put_u64 (GovernanceIntent.classification_generation i);
  put_u8 (IntentState.to_u8 (GovernanceIntent.state i));
  put_u32 (GovernanceIntent.suppressed i);
  encode (GovernanceIntent.requested i);
  encode (GovernanceIntent.granted i);
  put_u32 (GovernanceIntent.severity i);
  put_u32 (GovernanceIntent.contention_pressure i);
  put_u32 (GovernanceIntent.competing_elephants i);
  encode (GovernanceIntent.window i);
  encode (GovernanceIntent.authority i);
  encode (GovernanceIntent.provenance i);
  put_u64 (GovernanceIntent.digest i) ].

#[global] Instance decode_GovernanceIntent : Decode GovernanceIntent.t :=
  id ← need_u64;
  attempt ← need_u64;
  kind ← read_enum (IntentKind.to_u8 IntentKind.Count) IntentKind_of_u8;
  flow ← need_u64;
  flow_generation ← need_u64;
  classification ← need_u64;
  classification_generation ← need_u64;
  state ← read_enum 8 IntentState_of_u8;
  suppressed ← need_u32;
  requested ← decode;
  granted ← decode;
  severity ← need_u32;
  contention_pressure ← need_u32;
  competing_elephants ← need_u32;
  window ← decode;
  authority ← decode;
  provenance ← decode;
  digest ← need_u64;
  mret (GovernanceIntent.mk id attempt kind flow flow_generation classification
          classification_generation state suppressed requested granted severity
          contention_pressure competing_elephants window authority provenance digest).
