(* ===== verification/CodecFacts.v ===== *)
(** * The codec's contract

    What a writer that did not overflow holds after [encode] is exactly what [decode]
    turns back into the value, whatever follows it; every strict prefix of it is refused
    as truncated; and a decoder returns only values whose members are in range and, the
    priority byte apart, consumes exactly the bytes the encoder would write for its
    result. The laws are proved once for the reads and writes the codec is made of, and
    composed along the statement sequences of each pair of overloads. *)
From S2P Require Import Prelude Status Checked Tri Tick Hash Flow Tables Policy Impact Classification Intervention Codec.

(** ** What a sequence of writes does *)

(** [f] appends [bs], and overflows exactly when [bs] does not fit below the ceiling. *)
Definition writes (f : ByteWriter.t -> ByteWriter.t) (bs : list Z) : Prop :=
  forall w, writer_ok w ->
  writer_ok (f w) /\ ByteWriter.ceiling_ (f w) = ByteWriter.ceiling_ w /\
  (ByteWriter.overflowed_ (f w) = false <->
     ByteWriter.overflowed_ w = false /\
     ByteWriter.size w + size_of bs <= ByteWriter.ceiling_ w) /\
  (ByteWriter.overflowed_ (f w) = false ->
     ByteWriter.buffer_ (f w) = ByteWriter.buffer_ w ++ bs).

Lemma size_of_app {A} (l l' : list A) : size_of (l ++ l') = size_of l + size_of l'.
Proof. unfold size_of. rewrite length_app. lia. Qed.

Lemma writes_push bs : writes (fun w => fst (ByteWriter.push bs w)) bs.
Proof.
  intros w Hw. destruct (push_spec bs w Hw) as (H1 & H2 & H3).
  split; [done|]. split; [done|]. split; [|intros E; by destruct (H3 E)]. split.
  - intros E. apply H3 in E as [Ho Eb]. split; [done|]. unfold writer_ok, ByteWriter.size in *.
    rewrite H2, Eb, size_of_app in H1. done.
  - intros [E F]. unfold ByteWriter.push, ByteWriter.reserve. rewrite E.
    pose proof (size_of_nonneg (ByteWriter.buffer_ w)). unfold ByteWriter.size in *.
    replace (size_of bs >? ByteWriter.ceiling_ w) with false by (symmetry; blia).
    replace (size_of (ByteWriter.buffer_ w) >? _) with false by (symmetry; blia). done.
Qed.

Lemma writes_nil : writes (emit []) [].
Proof.
  intros w Hw. unfold emit. cbn [foldl]. rewrite app_nil_r.
  unfold writer_ok, size_of in *. simpl. intuition lia.
Qed.

Lemma writes_seq f g bs cs : writes f bs -> writes g cs -> writes (fun w => g (f w)) (bs ++ cs).
Proof.
  intros Hf Hg w Hw. destruct (Hf w Hw) as (F1 & F2 & F3 & F4).
  destruct (Hg (f w) F1) as (G1 & G2 & G3 & G4). rewrite size_of_app.
  pose proof (size_of_nonneg bs). pose proof (size_of_nonneg cs).
  assert (Hsz : ByteWriter.overflowed_ (f w) = false ->
    ByteWriter.size (f w) = ByteWriter.size w + size_of bs).
  { intros E. unfold ByteWriter.size. rewrite (F4 E). apply size_of_app. }
  split; [done|]. split; [congruence|]. split.
  - rewrite G3, F2. split.
    + intros [E F]. rewrite (Hsz E) in F. apply F3 in E. intuition lia.
    + intros [E F]. assert (Eo : ByteWriter.overflowed_ (f w) = false)
        by (apply F3; split; [done|lia]).
      rewrite (Hsz Eo). split; [done|lia].
  - intros E. rewrite (G4 E). apply G3 in E as [E _]. rewrite (F4 E). by rewrite <- app_assoc.
Qed.

Lemma emit_app fs gs w : emit (fs ++ gs) w = emit gs (emit fs w).
Proof. unfold emit. by rewrite foldl_app. Qed.

Lemma writes_ext f g bs : (forall w, f w = g w) -> writes f bs -> writes g bs.
Proof. intros E H w Hw. rewrite <- E. by apply H. Qed.

Lemma writes_cons f fs bs cs : writes f bs -> writes (emit fs) cs -> writes (emit (f :: fs)) (bs ++ cs).
Proof. intros Hf Hfs. by apply (writes_seq f (emit fs)). Qed.

Lemma writes_app fs gs bs cs :
  writes (emit fs) bs -> writes (emit gs) cs -> writes (emit (fs ++ gs)) (bs ++ cs).
Proof.
  intros Hf Hg. eapply writes_ext; [|by apply (writes_seq (emit fs) (emit gs))].
  intros w. by rewrite emit_app.
Qed.

(** ** What a decoder does on the bytes of a value *)

Record parses {A} (m : M ByteReader.t A) (bs : list Z) (x : A) : Prop := {
  parses_all : forall r tail, rest r = bs ++ tail ->
    exists r', m r = (r', Val x) /\ rest r' = tail;
  parses_prefix : forall r cut, rest r ++ cut = bs -> cut <> [] ->
    exists r', m r = (r', Err StatusCode.Truncated) }.

Lemma parses_ret {A} (x : A) : parses (mret x) [] x.
Proof.
  split; [intros r tail E; by exists r|]. intros r cut E Hc.
  apply app_eq_nil in E as [_ ->]. done.
Qed.

Lemma parses_bind {A B} (m : M ByteReader.t A) (k : A -> M ByteReader.t B) bs cs v x :
  parses m bs v -> parses (k v) cs x -> parses (m ≫= k) (bs ++ cs) x.
Proof.
  intros [Hm Hp] [Hk Hq]. unfold mbind, M_bind. split.
  - intros r tail E. rewrite <- app_assoc in E. destruct (Hm r _ E) as (r1 & -> & E1). by apply Hk.
  - intros r cut E Hc. destruct (app_eq_inv _ _ _ _ E) as [(k' & Ek & Ec)|(k' & Ek & Ec)].
    + destruct (Hm r k' Ek) as (r1 & -> & E1). apply (Hq r1 cut); [|done]. by rewrite E1.
    + destruct k' as [|b k'].
      * rewrite app_nil_r in Ek. destruct (Hm r []) as (r1 & -> & E1); [by rewrite app_nil_r|].
        apply (Hq r1 cut); [|done]. by rewrite E1.
      * destruct (Hp r (b :: k')) as (r1 & ->); [done..|]. by exists r1.
Qed.

Lemma parses_need {n bs} :
  length bs = n -> parses (need (ByteReader.read_le n)) bs (ByteReader.le_value bs).
Proof.
  intros Hn. unfold need. split.
  - intros r tail E. destruct (read_le_rest n bs tail r Hn E) as (r' & -> & E'). by exists r'.
  - intros r cut E Hc. rewrite read_le_short; [by exists r|].
    apply (f_equal length) in E. rewrite length_app in E. destruct cut; [done|]. simpl in E. lia.
Qed.

Lemma parses_need_value n v :
  in_range (8 * Z.of_nat n) v -> parses (need (ByteReader.read_le n)) (le_bytes n v) v.
Proof.
  intros Hv. pose proof (@parses_need n (le_bytes n v) (length_le_bytes n v)) as H.
  rewrite le_value_bytes, Z.mod_small in H; [done|]. unfold in_range in Hv.
  change 256 with (2 ^ 8). rewrite <- Z.pow_mul_r by lia. done.
Qed.

(** ** Writer and reader side by side *)

(** The bytes [f] writes are read back by [m] as [x]. *)
Definition carries {A} (f : ByteWriter.t -> ByteWriter.t) (m : M ByteReader.t A) (x : A) : Prop :=
  exists bs, writes f bs /\ parses m bs x.

Lemma carries_ret {A} (x : A) : carries (emit []) (mret x) x.
Proof. exists []. auto using writes_nil, parses_ret. Qed.

Lemma carries_bind {A B} f fs (m : M ByteReader.t A) (k : A -> M ByteReader.t B) v x :
  carries f m v -> carries (emit fs) (k v) x -> carries (emit (f :: fs)) (m ≫= k) x.
Proof.
  intros (bs & Hw & Hp) (cs & Hw' & Hp'). exists (bs ++ cs).
  eauto using writes_cons, parses_bind.
Qed.

Lemma carries_app {A B} fs gs (m : M ByteReader.t A) (k : A -> M ByteReader.t B) v x :
  carries (emit fs) m v -> carries (emit gs) (k v) x -> carries (emit (fs ++ gs)) (m ≫= k) x.
Proof.
  intros (bs & Hw & Hp) (cs & Hw' & Hp'). exists (bs ++ cs).
  eauto using writes_app, parses_bind.
Qed.

(** A read whose value is then checked and converted without further reads. *)
Lemma carries_map {A B} f (m : M ByteReader.t A) (k : A -> M ByteReader.t B) v x :
  carries f m v -> k v = mret x -> carries f (m ≫= k) x.
Proof.
  intros (bs & Hw & Hp) E. exists bs. split; [done|]. rewrite <- (app_nil_r bs).
  eapply parses_bind; [done|]. rewrite E. apply parses_ret.
Qed.

Lemma carries_u8 v : u8_ok v -> carries (put_u8 v) need_u8 v.
Proof.
  intros Hv. exists (le_bytes 1 v). split; [|by apply parses_need_value].
  replace (le_bytes 1 v) with [v]; [apply (writes_push [v])|].
  rewrite le_bytes_S, le_bytes_0, Z.mod_small by done. done.
Qed.

Lemma carries_u32 v : u32_ok v -> carries (put_u32 v) need_u32 v.
Proof.
  intros Hv. exists (le_bytes 4 v). split; [apply (writes_push (le_bytes 4 v))|].
  by apply parses_need_value.
Qed.

Lemma carries_u64 v : u64_ok v -> carries (put_u64 v) need_u64 v.
Proof.
  intros Hv. exists (le_bytes 8 v). split; [apply (writes_push (le_bytes 8 v))|].
  by apply parses_need_value.
Qed.

Lemma carries_bool b : carries (put_bool b) need_bool b.
Proof.
  destruct (carries_u8 (if b then 1 else 0)) as (bs & Hw & Hp); [destruct b; ulia|].
  exists bs. split; [exact Hw|]. destruct Hp as [Hall Hcut]. unfold need_u8, need_bool, need in *.
  unfold ByteReader.read_bool. split.
  - intros r tail E. destruct (Hall r tail E) as (r' & E1 & E2). exists r'.
    destruct (ByteReader.read_u8 r) as [r1 [raw|]]; [|done]. apply pair_equal_spec in E1 as [-> E1].
    assert (raw = if b then 1 else 0) as -> by congruence. by destruct b.
  - intros r cut E Hc. destruct (Hcut r cut E Hc) as (r' & E1). exists r'.
    destruct (ByteReader.read_u8 r) as [r1 [raw|]]; [done|]. by injection E1 as <-.
Qed.

Lemma carries_count {A} (items : list A) ceiling :
  size_of items <= ceiling -> ceiling < 2 ^ 32 ->
  carries (put_count items) (read_count ceiling) (size_of items).
Proof.
  intros Hs Hc. pose proof (size_of_nonneg items). unfold put_count, read_count.
  rewrite wrap_small by ulia. eapply carries_map; [apply carries_u32; ulia|].
  cbn beta. replace (_ >? _) with false by (symmetry; blia). done.
Qed.

Lemma carries_enum {E} limit (cast : Z -> E) (to_u8 : E -> Z) (e : E) :
  limit <= 256 -> 0 <= to_u8 e < limit -> cast (to_u8 e) = e ->
  carries (put_u8 (to_u8 e)) (read_enum limit cast) e.
Proof.
  intros Hl He Hc. eapply carries_map; [apply carries_u8; ulia|]. cbn beta.
  replace (_ >=? _) with false by (symmetry; blia). by rewrite Hc.
Qed.

Lemma carries_items {A} (f : A -> ByteWriter.t -> ByteWriter.t) (m : M ByteReader.t A) l n :
  n = length l -> Forall (fun x => carries (f x) m x) l -> carries (emit (f <$> l)) (read_items m n) l.
Proof.
  intros -> H. induction H as [|x l Hx _ IH]; [apply carries_ret|]. cbn [fmap list_fmap length read_items].
  eapply carries_bind; [exact Hx|]. eapply carries_map; [exact IH|]. done.
Qed.

(** ** What a decoder that succeeded has consumed *)

(** From [r] to [r'] the reader moved over exactly the bytes [f] writes. *)
Definition consumes (f : ByteWriter.t -> ByteWriter.t) (r r' : ByteReader.t) : Prop :=
  exists bs, writes f bs /\ rest r = bs ++ rest r'.

#[global] Instance byte_ok_dec b : Decision (byte_ok b).
Proof. unfold byte_ok. apply _. Defined.

Definition bytes_left_ok (r : ByteReader.t) : Prop := Forall byte_ok (rest r).

Lemma consumes_nil r : consumes (emit []) r r.
Proof. exists []. auto using writes_nil. Qed.

Lemma consumes_cons f fs r r1 r2 :
  consumes f r r1 -> consumes (emit fs) r1 r2 -> consumes (emit (f :: fs)) r r2.
Proof.
  intros (bs & Hw & E) (cs & Hw' & E'). exists (bs ++ cs). split; [by apply writes_cons|].
  by rewrite E, E', app_assoc.
Qed.

Lemma consumes_app fs gs r r1 r2 :
  consumes (emit fs) r r1 -> consumes (emit gs) r1 r2 -> consumes (emit (fs ++ gs)) r r2.
Proof.
  intros (bs & Hw & E) (cs & Hw' & E'). exists (bs ++ cs). split; [by apply writes_app|].
  by rewrite E, E', app_assoc.
Qed.

Lemma read_le_inv n r r' v :
  ByteReader.read_le n r = (r', Some v) ->
  exists bs, length bs = n /\ rest r = bs ++ rest r' /\ v = ByteReader.le_value bs.
Proof.
  unfold ByteReader.read_le, ByteReader.remaining.
  destruct (Nat.ltb_spec (length (ByteReader.data_ r) - ByteReader.offset_ r) n); [done|].
  intros E. apply pair_equal_spec in E as [<- E]. injection E as <-.
  exists (take n (rest r)). unfold rest. cbn [ByteReader.offset_ ByteReader.data_ update eta].
  rewrite length_take, length_drop. split; [lia|]. split; [|done]. simpl.
  rewrite Nat.add_comm, <- drop_drop. symmetry. apply take_drop.
Qed.

Lemma le_bytes_value bs : Forall byte_ok bs -> le_bytes (length bs) (ByteReader.le_value bs) = bs.
Proof.
  induction 1 as [|b bs Hb _ IH]; [done|]. cbn [length]. rewrite le_bytes_S, le_value_cons by done.
  unfold byte_ok in Hb. rewrite (Z.mul_comm 256), Z.mod_add, Z.div_add, Z.mod_small, Z.div_small by lia.
  rewrite Z.add_0_l. by rewrite IH.
Qed.

Lemma le_value_range bs :
  Forall byte_ok bs -> in_range (8 * Z.of_nat (length bs)) (ByteReader.le_value bs).
Proof.
  intros H. pose proof (f_equal ByteReader.le_value (le_bytes_value bs H)) as E.
  rewrite le_value_bytes in E. rewrite <- E. unfold in_range. rewrite Z.pow_mul_r by lia. apply Z.mod_pos_bound. lia.
Qed.

(** The value is in range, the input left still consists of bytes, and exactly the
    bytes [f] would write were consumed. *)
Record exact {A} (ok : A -> Prop) (f : A -> ByteWriter.t -> ByteWriter.t) (m : M ByteReader.t A)
  : Prop := exact_intro {
  exact_run : forall r r' x, bytes_left_ok r -> m r = (r', Val x) ->
    ok x /\ bytes_left_ok r' /\ consumes (f x) r r' }.

Lemma exact_need n (ok : Z -> Prop) f :
  (forall v, in_range (8 * Z.of_nat n) v -> ok v) ->
  (forall v, in_range (8 * Z.of_nat n) v -> writes (f v) (le_bytes n v)) ->
  exact ok f (need (ByteReader.read_le n)).
Proof.
  intros Hok Hf. constructor. intros r r' x Hr E. unfold need in E.
  destruct (ByteReader.read_le n r) as [r1 [v|]] eqn:Er; [|done].
  apply pair_equal_spec in E as [-> E]. injection E as ->.
  apply read_le_inv in Er as (bs & <- & Ebs & ->).
  unfold bytes_left_ok in *. rewrite Ebs in Hr. apply Forall_app in Hr as [Hb Hr].
  pose proof (le_value_range bs Hb) as Hrange.
  split; [by apply Hok|]. split; [done|]. exists bs. split; [|done].
  rewrite <- (le_bytes_value bs Hb) at 2. by apply Hf.
Qed.

Lemma exact_u8 : exact u8_ok put_u8 need_u8.
Proof.
  apply (exact_need 1); [done|]. intros v Hv.
  rewrite le_bytes_S, le_bytes_0, Z.mod_small by done. apply (writes_push [v]).
Qed.

Lemma exact_u32 : exact u32_ok put_u32 need_u32.
Proof. apply (exact_need 4); [done|]. intros v _. apply (writes_push (le_bytes 4 v)). Qed.

Lemma exact_u64 : exact u64_ok put_u64 need_u64.
Proof. apply (exact_need 8); [done|]. intros v _. apply (writes_push (le_bytes 8 v)). Qed.

Lemma exact_bool : exact (fun _ => True) put_bool need_bool.
Proof.
  constructor. intros r r' x Hr E. pose proof (exact_run _ _ _ exact_u8 r) as H.
  unfold need_bool, need_u8, need, ByteReader.read_bool in *.
  destruct (ByteReader.read_u8 r) as [r1 [raw|]]; [|done].
  destruct (raw >? 1) eqn:Eg; [done|]. apply pair_equal_spec in E as [-> E]. injection E as <-.
  destruct (H r' raw Hr eq_refl) as (Hok & Hr' & Hc). split; [done|]. split; [done|].
  assert (raw = 0 \/ raw = 1) as [->| ->] by (rewrite Z.gtb_ltb in Eg; boolify; ulia); exact Hc.
Qed.

Lemma exact_count ceiling r r' n :
  bytes_left_ok r -> read_count ceiling r = (r', Val n) ->
  0 <= n <= ceiling /\ u32_ok n /\ bytes_left_ok r' /\ consumes (put_u32 n) r r'.
Proof.
  intros Hr E. unfold read_count in E. apply M_bind_Val in E as (r1 & v & E1 & E).
  destruct (exact_run _ _ _ exact_u32 r r1 v Hr E1) as (Hv & Hr1 & Hc).
  destruct (v >? ceiling) eqn:Eg; [done|]. apply pair_equal_spec in E as [-> E]. injection E as ->.
  rewrite Z.gtb_ltb in Eg. boolify. repeat split; try done; ulia.
Qed.

Lemma exact_items {A} (ok : A -> Prop) f (m : M ByteReader.t A) n :
  exact ok f m ->
  exact (fun l => Forall ok l /\ length l = n) (fun l => emit (f <$> l)) (read_items m n).
Proof.
  intros Hm. constructor. induction n as [|n IH]; intros r r' l Hr E.
  - apply pair_equal_spec in E as [<- E]. injection E as <-. auto using consumes_nil.
  - cbn [read_items] in E. apply M_bind_Val in E as (r1 & v & E1 & E).
    apply M_bind_Val in E as (r2 & l' & E2 & E).
    apply pair_equal_spec in E as [<- E]. injection E as <-.
    destruct (exact_run _ _ _ Hm r r1 v Hr E1) as (Hv & Hr1 & Hc1).
    destruct (IH r1 r2 l' Hr1 E2) as ([Hl <-] & Hr2 & Hc2).
    split; [by auto|]. split; [done|]. by eapply consumes_cons.
Qed.

(** ** Enumerations *)

Record enum_law {E} (limit : Z) (cast : Z -> E) (to_u8 : E -> Z) (ok : E -> Prop) : Prop := {
  enum_limit : limit <= 256;
  enum_to : forall e, ok e -> 0 <= to_u8 e < limit /\ cast (to_u8 e) = e;
  enum_from : forall raw, 0 <= raw < limit -> to_u8 (cast raw) = raw /\ ok (cast raw) }.

Lemma small_in_seq raw n : 0 <= raw < Z.of_nat n -> In raw (Z.of_nat <$> seq 0 n).
Proof.
  intros H. apply list_elem_of_In, list_elem_of_fmap. exists (Z.to_nat raw).
  split; [lia|]. apply elem_of_seq. lia.
Qed.

Ltac enum_cases n :=
  split; [lia || (cbv; discriminate)
         |intros []; (split; [cbv; (done || intuition done) | reflexivity]) || (intros []; done)
         |let raw := fresh in let H := fresh in
          intros raw H; apply (small_in_seq raw n) in H; simpl in H;
          repeat destruct H as [<-|H]; done].

Lemma enum_ServiceClass :
  enum_law 6 ServiceClass_of_u8 ServiceClass.to_u8 (fun _ => True).
Proof. enum_cases 6%nat. Qed.
Lemma enum_ProtectionState :
  enum_law 4 ProtectionState_of_u8 ProtectionState.to_u8 (fun _ => True).
Proof. enum_cases 4%nat. Qed.
Lemma enum_RuleKind : enum_law 4 RuleKind_of_u8 RuleKind.to_u8 (fun _ => True).
Proof. enum_cases 4%nat. Qed.
Lemma enum_Tri : enum_law 3 Tri_of_u8 Tri.to_u8 (fun _ => True).
Proof. enum_cases 3%nat. Qed.
Lemma enum_ElephantState :
  enum_law 4 ElephantState_of_u8 ElephantState.to_u8 (fun _ => True).
Proof. enum_cases 4%nat. Qed.
Lemma enum_AuthorityLevel :
  enum_law 3 AuthorityLevel_of_u8 AuthorityLevel.to_u8 (fun _ => True).
Proof. enum_cases 3%nat. Qed.
Lemma enum_IntentState :
  enum_law 8 IntentState_of_u8 IntentState.to_u8 (fun _ => True).
Proof. enum_cases 8%nat. Qed.
Lemma enum_ThresholdKind :
  enum_law (ThresholdKind.to_u8 ThresholdKind.Count) ThresholdKind_of_u8 ThresholdKind.to_u8
    (fun k => k <> ThresholdKind.Count).
Proof. enum_cases 16%nat. Qed.
Lemma enum_IntentKind :
  enum_law (IntentKind.to_u8 IntentKind.Count) IntentKind_of_u8 IntentKind.to_u8
    (fun k => k <> IntentKind.Count).
Proof. enum_cases 7%nat. Qed.

Lemma carries_enum_law {E limit} {cast : Z -> E} {to_u8 ok} (e : E) :
  enum_law limit cast to_u8 ok -> ok e -> carries (put_u8 (to_u8 e)) (read_enum limit cast) e.
Proof. intros [Hl Ht _] He. destruct (Ht e He). by apply carries_enum. Qed.

Lemma exact_enum {E limit} {cast : Z -> E} {to_u8 ok} :
  enum_law limit cast to_u8 ok -> exact ok (fun e => put_u8 (to_u8 e)) (read_enum limit cast).
Proof.
  intros [_ _ Hf]. constructor. intros r r' x Hr H. unfold read_enum in H.
  apply M_bind_Val in H as (r1 & v & H1 & H).
  destruct (exact_run _ _ _ exact_u8 r r1 v Hr H1) as (Hv & Hr1 & Hc).
  destruct (v >=? limit) eqn:Eg; [done|]. apply pair_equal_spec in H as [-> H]. injection H as <-.
  rewrite Z.geb_leb in Eg. boolify. destruct (Hf v) as [Ev Ho]; [ulia|]. rewrite Ev. done.
Qed.

(** ** Values with members in range *)

Class WireOk (A : Type) := wire_ok : A -> Prop.

#[global] Instance ok_TickSpan : WireOk TickSpan.t := fun s =>
  u64_ok (TickSpan.begin_ s) /\ u64_ok (TickSpan.end_ s).
#[global] Instance ok_ValidityWindow : WireOk ValidityWindow.t := fun v =>
  u64_ok (ValidityWindow.issued_at v) /\ u64_ok (ValidityWindow.expires_at v).
#[global] Instance ok_Provenance : WireOk Provenance.t := fun p =>
  u64_ok (PublisherRef.publisher (Provenance.publisher p)) /\
  u64_ok (PublisherRef.boot (Provenance.publisher p)) /\
  u64_ok (PublisherRef.epoch (Provenance.publisher p)) /\
  u64_ok (PublisherRef.sequence (Provenance.publisher p)) /\
  u64_ok (Provenance.emitted_at p) /\ u32_ok (Provenance.schema_version p) /\
  u64_ok (Provenance.digest p).
#[global] Instance ok_Threshold : WireOk Threshold.t := fun t =>
  Threshold.kind t <> ThresholdKind.Count /\ u64_ok (Threshold.value t).
#[global] Instance ok_RuleNode : WireOk RuleNode.t := fun n =>
  wire_ok (RuleNode.threshold n) /\ size_of (RuleNode.children n) <= kMaxPolicyNodes /\
  Forall u32_ok (RuleNode.children n).
#[global] Instance ok_RuleSet : WireOk RuleSet.t := fun rs =>
  u32_ok (RuleSet.root rs) /\ size_of (RuleSet.nodes rs) <= kMaxPolicyNodes /\
  Forall wire_ok (RuleSet.nodes rs).
#[global] Instance ok_HysteresisSpec : WireOk HysteresisSpec.t := fun h =>
  u32_ok (HysteresisSpec.enter_confirm_windows h) /\
  u32_ok (HysteresisSpec.exit_confirm_windows h) /\ u32_ok (HysteresisSpec.exit_scale_bp h).
#[global] Instance ok_IntentAuthorization : WireOk IntentAuthorization.t := fun a =>
  u32_ok (IntentAuthorization.max_shaping_reduction_bp a) /\
  u64_ok (IntentAuthorization.max_intent_duration_ticks a) /\
  u32_ok (IntentAuthorization.max_targets a) /\
  u32_ok (IntentAuthorization.min_impact_severity a) /\
  u32_ok (IntentAuthorization.min_contention_pressure a).
#[global] Instance ok_PolicyDocument : WireOk PolicyDocument.t := fun p =>
  u64_ok (PolicyDocument.id p) /\ u64_ok (PolicyDocument.generation p) /\
  wire_ok (PolicyDocument.enter_rule p) /\ wire_ok (PolicyDocument.exit_rule p) /\
  wire_ok (PolicyDocument.hysteresis p) /\ wire_ok (PolicyDocument.authorization p) /\
  wire_ok (PolicyDocument.validity p) /\ wire_ok (PolicyDocument.provenance p) /\
  u64_ok (PolicyDocument.digest p).
(** [Priority{level}] with [level <= kMaxLevel], or [Priority::unknown()]. *)
#[global] Instance ok_Priority : WireOk Priority.t := fun p =>
  if Priority.known_ p then 0 <= Priority.level_ p <= Priority.kMaxLevel else Priority.level_ p = 0.
#[global] Instance ok_FlowSample : WireOk FlowSample.t := fun s =>
  u64_ok (FlowSample.flow s) /\ u64_ok (FlowSample.flow_generation s) /\
  u64_ok (FlowSample.path s) /\ u64_ok (FlowSample.path_generation s) /\
  u64_ok (FlowSample.window s) /\ u64_ok (FlowSample.window_sequence s) /\
  wire_ok (FlowSample.span s) /\ u64_ok (FlowSample.cumulative_bytes s) /\
  u64_ok (FlowSample.window_bytes s) /\ wire_ok (FlowSample.priority s) /\
  u64_ok (FlowSample.reservation s) /\ u64_ok (FlowSample.tenant s) /\
  wire_ok (FlowSample.validity s) /\ wire_ok (FlowSample.provenance s).
#[global] Instance ok_FlowMeasurements : WireOk FlowMeasurements.t := fun m =>
  wire_ok (FlowMeasurements.observed m) /\ u64_ok (FlowMeasurements.duration_ticks m) /\
  u64_ok (FlowMeasurements.cumulative_bytes m) /\
  u64_ok (FlowMeasurements.retained_window_bytes m) /\
  u64_ok (FlowMeasurements.sustained_rate m) /\ u64_ok (FlowMeasurements.peak_window_rate m) /\
  u64_ok (FlowMeasurements.sample_count m) /\ u64_ok (FlowMeasurements.window_count m) /\
  u64_ok (FlowMeasurements.dropped_windows m) /\ wire_ok (FlowMeasurements.priority m) /\
  u64_ok (FlowMeasurements.reservation m) /\ u64_ok (FlowMeasurements.tenant m) /\
  u64_ok (FlowMeasurements.binding_resource m) /\
  u64_ok (FlowMeasurements.resource_capacity m) /\
  u64_ok (FlowMeasurements.resource_reserved m) /\
  u64_ok (FlowMeasurements.resource_available m) /\
  u32_ok (FlowMeasurements.share_of_capacity m) /\
  u32_ok (FlowMeasurements.share_of_available m) /\
  u32_ok (FlowMeasurements.competing_flows m) /\
  u32_ok (FlowMeasurements.competing_elephants m) /\
  u64_ok (FlowMeasurements.excess_over_guarantee m).
#[global] Instance ok_ResourceCapacity : WireOk ResourceCapacity.t := fun c =>
  u64_ok (ResourceCapacity.resource c) /\ u64_ok (ResourceCapacity.generation c) /\
  u64_ok (ResourceCapacity.snapshot c) /\ wire_ok (ResourceCapacity.span c) /\
  u64_ok (ResourceCapacity.capacity c) /\ u64_ok (ResourceCapacity.reserved c) /\
  wire_ok (ResourceCapacity.validity c) /\ wire_ok (ResourceCapacity.provenance c).
#[global] Instance ok_PathDescriptor : WireOk PathDescriptor.t := fun p =>
  u64_ok (PathDescriptor.path p) /\ u64_ok (PathDescriptor.generation p) /\
  size_of (PathDescriptor.resources p) <= kMaxResourcesPerPath /\
  Forall u64_ok (PathDescriptor.resources p) /\
  wire_ok (PathDescriptor.validity p) /\ wire_ok (PathDescriptor.provenance p).
#[global] Instance ok_ImpactAssessment : WireOk ImpactAssessment.t := fun i =>
  u32_ok (ImpactAssessment.share_of_capacity i) /\
  u32_ok (ImpactAssessment.share_of_available i) /\
  u32_ok (ImpactAssessment.rate_pressure i) /\ u32_ok (ImpactAssessment.contention_pressure i) /\
  u64_ok (ImpactAssessment.excess_rate i) /\ u64_ok (ImpactAssessment.excess_over_guarantee i) /\
  u32_ok (ImpactAssessment.competing_flows i) /\
  u32_ok (ImpactAssessment.competing_elephants i) /\ u32_ok (ImpactAssessment.severity i).
#[global] Instance ok_AuthorityVector : WireOk AuthorityVector.t := fun a =>
  u64_ok (AuthorityVector.flow a) /\ u64_ok (AuthorityVector.flow_generation a) /\
  u64_ok (AuthorityVector.path a) /\ u64_ok (AuthorityVector.path_generation a) /\
  u64_ok (AuthorityVector.capacity a) /\ u64_ok (AuthorityVector.capacity_generation a) /\
  u64_ok (AuthorityVector.window a) /\ u64_ok (AuthorityVector.window_sequence a) /\
  u64_ok (AuthorityVector.policy a) /\ u64_ok (AuthorityVector.policy_generation a) /\
  u64_ok (AuthorityVector.classification_generation a) /\ u64_ok (AuthorityVector.epoch a) /\
  u64_ok (AuthorityVector.boot a) /\ u64_ok (AuthorityVector.publisher a) /\
  u64_ok (AuthorityVector.publisher_boot a) /\ wire_ok (AuthorityVector.validity a) /\
  u32_ok (AuthorityVector.bound_flags a).
#[global] Instance ok_ThresholdTraceEntry : WireOk ThresholdTraceEntry.t := fun e =>
  u32_ok (ThresholdTraceEntry.node_index e) /\
  ThresholdTraceEntry.kind e <> ThresholdKind.Count /\
  u64_ok (ThresholdTraceEntry.observed_value e) /\ u64_ok (ThresholdTraceEntry.threshold_value e).
#[global] Instance ok_FlowClassification : WireOk FlowClassification.t := fun c =>
  u64_ok (FlowClassification.id c) /\ u64_ok (FlowClassification.generation c) /\
  u64_ok (FlowClassification.flow c) /\ u64_ok (FlowClassification.flow_generation c) /\
  wire_ok (FlowClassification.authority_vector c) /\ u64_ok (FlowClassification.reasons c) /\
  u64_ok (FlowClassification.decided_at c) /\ wire_ok (FlowClassification.validity c) /\
  wire_ok (FlowClassification.measurements c) /\ wire_ok (FlowClassification.impact c) /\
  size_of (FlowClassification.trace c) <= kMaxTraceEntries /\
  Forall wire_ok (FlowClassification.trace c) /\
  u32_ok (FlowClassification.enter_streak c) /\ u32_ok (FlowClassification.exit_streak c) /\
  u64_ok (FlowClassification.history_digest c) /\ u64_ok (FlowClassification.digest c).
#[global] Instance ok_ClassificationTransition : WireOk ClassificationTransition.t := fun t =>
  u64_ok (ClassificationTransition.at_ t) /\ u64_ok (ClassificationTransition.reasons t) /\
  u64_ok (ClassificationTransition.classification t) /\
  u64_ok (ClassificationTransition.classification_generation t).
#[global] Instance ok_IntentBounds : WireOk IntentBounds.t := fun b =>
  u32_ok (IntentBounds.rate_reduction_bp b) /\ u64_ok (IntentBounds.duration_ticks b) /\
  u32_ok (IntentBounds.targets b).
#[global] Instance ok_GovernanceIntent : WireOk GovernanceIntent.t := fun i =>
  u64_ok (GovernanceIntent.id i) /\ u64_ok (GovernanceIntent.attempt i) /\
  GovernanceIntent.kind i <> IntentKind.Count /\
  u64_ok (GovernanceIntent.flow i) /\ u64_ok (GovernanceIntent.flow_generation i) /\
  u64_ok (GovernanceIntent.classification i) /\
  u64_ok (GovernanceIntent.classification_generation i) /\
  u32_ok (GovernanceIntent.suppressed i) /\ wire_ok (GovernanceIntent.requested i) /\
  wire_ok (GovernanceIntent.granted i) /\ u32_ok (GovernanceIntent.severity i) /\
  u32_ok (GovernanceIntent.contention_pressure i) /\
  u32_ok (GovernanceIntent.competing_elephants i) /\ wire_ok (GovernanceIntent.window i) /\
  wire_ok (GovernanceIntent.authority i) /\ wire_ok (GovernanceIntent.provenance i) /\
  u64_ok (GovernanceIntent.digest i).

(** ** Round trips *)

Class RoundTrips (A : Type) `{Encode A, Decode A, WireOk A} : Prop :=
  round_trips : forall x : A, wire_ok x -> carries (encode x) decode x.

Create HintDb codec.
#[export] Hint Resolve carries_ret carries_u8 carries_u32 carries_u64 carries_bool : codec.
#[export] Hint Resolve enum_ServiceClass enum_ProtectionState enum_RuleKind enum_Tri
  enum_ElephantState enum_AuthorityLevel enum_IntentState enum_ThresholdKind enum_IntentKind : codec.

(** One statement of the encoder against the read that mirrors it. *)
Ltac carry_field :=
  lazymatch goal with
  | |- carries _ (read_enum _ _) _ =>
      eapply carries_enum_law; [solve [auto with codec] | done]
  | |- carries _ (read_count _) _ => apply carries_count; [assumption | done]
  | |- carries (@encode _ _ _) _ _ => apply round_trips; assumption
  | |- _ => solve [auto with codec]
  end.

(** The statements of a pair of overloads in step, up to the assembly of the result. *)
Ltac carry_fields :=
  cbn [app]; repeat (eapply carries_bind; [carry_field|]);
  try match goal with |- carries (emit []) _ ?x => destruct x; apply carries_ret end.

(** Open the value's range condition and the pair of overloads. *)
Ltac open_codec :=
  let x := fresh "x" in let Hx := fresh "Hx" in
  intros x Hx; hnf in Hx; destruct_and? Hx;
  lazymatch goal with
  | |- carries (@encode _ ?e ?x) (@decode _ ?d) _ =>
      change (carries (e x) d x); cbv beta delta [e d]
  end.

Lemma carries_values f (m : M ByteReader.t Z) ok l :
  (forall v, ok v -> carries (f v) m v) -> Forall ok l ->
  carries (emit (f <$> l)) (read_items m (Z.to_nat (size_of l))) l.
Proof.
  intros Hf Hl. apply carries_items; [unfold size_of; lia|].
  eapply Forall_impl; [exact Hl|]. auto.
Qed.

Lemma carries_encoded {A} `{RoundTrips A} (l : list A) :
  Forall wire_ok l -> carries (emit (encode <$> l)) (read_items decode (Z.to_nat (size_of l))) l.
Proof.
  intros Hl. apply carries_items; [unfold size_of; lia|].
  eapply Forall_impl; [exact Hl|]. apply round_trips.
Qed.

Lemma carries_last {A B} f (m : M ByteReader.t A) (k : A -> M ByteReader.t B) v x :
  carries (emit f) m v -> carries (emit []) (k v) x -> carries (emit f) (m ≫= k) x.
Proof. intros. rewrite <- (app_nil_r f). by eapply carries_app. Qed.

#[global] Instance round_trips_TickSpan : RoundTrips TickSpan.t.
Proof. open_codec. carry_fields. Qed.
#[global] Instance round_trips_ValidityWindow : RoundTrips ValidityWindow.t.
Proof. open_codec. carry_fields. Qed.
#[global] Instance round_trips_Provenance : RoundTrips Provenance.t.
Proof.
  open_codec. carry_fields. destruct x as [[]]. apply carries_ret.
Qed.
#[global] Instance round_trips_Threshold : RoundTrips Threshold.t.
Proof. open_codec. carry_fields. Qed.
#[global] Instance round_trips_RuleNode : RoundTrips RuleNode.t.
Proof.
  open_codec. carry_fields. eapply carries_last.
  - apply (carries_values _ _ u32_ok); [apply carries_u32|done].
  - carry_fields.
Qed.
#[global] Instance round_trips_RuleSet : RoundTrips RuleSet.t.
Proof.
  open_codec. carry_fields. eapply carries_last; [by apply carries_encoded|]. carry_fields.
Qed.
#[global] Instance round_trips_HysteresisSpec : RoundTrips HysteresisSpec.t.
Proof. open_codec. carry_fields. Qed.
#[global] Instance round_trips_IntentAuthorization : RoundTrips IntentAuthorization.t.
Proof. open_codec. carry_fields. Qed.
#[global] Instance round_trips_PolicyDocument : RoundTrips PolicyDocument.t.
Proof. open_codec. carry_fields. Qed.

Lemma carries_Priority p : wire_ok p -> carries (put_Priority p) read_Priority p.
Proof.
  destruct p as [level known]. intros Hp. unfold wire_ok, ok_Priority, Priority.kMaxLevel in Hp.
  cbn [Priority.known_ Priority.level_] in Hp. unfold put_Priority, read_Priority.
  eapply carries_bind; [apply carries_bool|].
  apply (carries_bind _ [] _ _ (Priority.level (Priority.mk level known)));
    [apply carries_u8; destruct known; unfold Priority.level; simpl; ulia|].
  destruct known; unfold Priority.level, Priority.known; cbn [Priority.known_ Priority.level_ andb].
  - replace (level >? Priority.kMaxLevel) with false
      by (symmetry; unfold Priority.kMaxLevel; blia).
    apply carries_ret.
  - subst level. apply carries_ret.
Qed.
#[export] Hint Resolve carries_Priority : codec.

#[global] Instance round_trips_FlowSample : RoundTrips FlowSample.t.
Proof. open_codec. carry_fields. Qed.
#[global] Instance round_trips_FlowMeasurements : RoundTrips FlowMeasurements.t.
Proof. open_codec. carry_fields. Qed.
#[global] Instance round_trips_ResourceCapacity : RoundTrips ResourceCapacity.t.
Proof. open_codec. carry_fields. Qed.
#[global] Instance round_trips_PathDescriptor : RoundTrips PathDescriptor.t.
Proof.
  open_codec. carry_fields. eapply carries_app.
  - apply (carries_values _ _ u64_ok); [apply carries_u64|done].
  - carry_fields.
Qed.
#[global] Instance round_trips_ImpactAssessment : RoundTrips ImpactAssessment.t.
Proof. open_codec. carry_fields. Qed.
#[global] Instance round_trips_AuthorityVector : RoundTrips AuthorityVector.t.
Proof. open_codec. carry_fields. Qed.
#[global] Instance round_trips_ThresholdTraceEntry : RoundTrips ThresholdTraceEntry.t.
Proof. open_codec. carry_fields. Qed.
#[global] Instance round_trips_FlowClassification : RoundTrips FlowClassification.t.
Proof.
  open_codec. carry_fields. eapply carries_app; [by apply carries_encoded|]. carry_fields.
Qed.
#[global] Instance round_trips_ClassificationTransition : RoundTrips ClassificationTransition.t.
Proof. open_codec. carry_fields. Qed.
#[global] Instance round_trips_IntentBounds : RoundTrips IntentBounds.t.
Proof. open_codec. carry_fields. Qed.
#[global] Instance round_trips_GovernanceIntent : RoundTrips GovernanceIntent.t.
Proof. open_codec. carry_fields. Qed.

(** ** Decoders return values in range and consume their encoding *)

Class Exact (A : Type) `{Encode A, Decode A, WireOk A} : Prop :=
  exact_law : exact wire_ok encode decode.

(** The half of it that also holds where an encoding is not unique. *)
Definition ranged {A} (ok : A -> Prop) (m : M ByteReader.t A) : Prop :=
  forall r r' x, bytes_left_ok r -> m r = (r', Val x) -> ok x /\ bytes_left_ok r'.

Class Ranged (A : Type) `{Decode A, WireOk A} : Prop := ranged_law : ranged wire_ok decode.

#[global] Instance exact_ranged {A} `{Exact A} : Ranged A.
Proof. intros r r' x Hr E. destruct (exact_run _ _ _ exact_law r r' x Hr E) as (? & ? & ?). done. Qed.

Lemma exact_decode {A} `{Exact A} r r' (x : A) :
  bytes_left_ok r -> decode r = (r', Val x) -> wire_ok x /\ bytes_left_ok r' /\ consumes (encode x) r r'.
Proof. apply (exact_run _ _ _ exact_law). Qed.

Lemma exact_read_enum {E limit} {cast : Z -> E} {to_u8 ok} (law : enum_law limit cast to_u8 ok) r r' e :
  bytes_left_ok r -> read_enum limit cast r = (r', Val e) ->
  ok e /\ bytes_left_ok r' /\ consumes (put_u8 (to_u8 e)) r r'.
Proof. apply (exact_run _ _ _ (exact_enum law)). Qed.

(** The count read before a loop is the one the encoder writes for the items read. *)
Lemma count_consumed {A} (l : list A) n r r' :
  length l = Z.to_nat n -> 0 <= n -> u32_ok n -> consumes (put_u32 n) r r' ->
  size_of l = n /\ consumes (put_count l) r r'.
Proof.
  intros El Hn Hu Hc. assert (size_of l = n) as Es by (unfold size_of; lia).
  split; [done|]. unfold put_count. rewrite Es, wrap_small by done. done.
Qed.

Lemma ranged_Priority : ranged wire_ok read_Priority.
Proof.
  intros r r' p Hr H. unfold read_Priority in H.
  apply M_bind_Val in H as (r1 & known & E1 & H). apply M_bind_Val in H as (r2 & level & E2 & H).
  apply (exact_run _ _ _ exact_bool) in E1 as (_ & Hr1 & _); [|done].
  apply (exact_run _ _ _ exact_u8) in E2 as (Hl & Hr2 & _); [|done].
  destruct (known && (level >? Priority.kMaxLevel)) eqn:Eg; [done|].
  apply pair_equal_spec in H as [-> H]. injection H as <-. split; [|done].
  unfold wire_ok, ok_Priority. destruct known; cbn in *; [|done].
  rewrite Z.gtb_ltb in Eg. boolify. ulia.
Qed.

(** Take apart one successful read. *)
Ltac decode_field E :=
  first
  [ apply (exact_run _ _ _ exact_u64) in E; [|assumption]
  | apply (exact_run _ _ _ exact_u32) in E; [|assumption]
  | apply (exact_run _ _ _ exact_bool) in E; [|assumption]
  | apply (exact_read_enum enum_ServiceClass) in E; [|assumption]
  | apply (exact_read_enum enum_ProtectionState) in E; [|assumption]
  | apply (exact_read_enum enum_ThresholdKind) in E; [|assumption]
  | apply (exact_read_enum enum_RuleKind) in E; [|assumption]
  | apply (exact_read_enum enum_Tri) in E; [|assumption]
  | apply (exact_read_enum enum_ElephantState) in E; [|assumption]
  | apply (exact_read_enum enum_AuthorityLevel) in E; [|assumption]
  | apply (exact_read_enum enum_IntentKind) in E; [|assumption]
  | apply (exact_read_enum enum_IntentState) in E; [|assumption]
  | apply exact_count in E; [|assumption]
  | apply (exact_run _ _ _ (exact_items _ _ _ _ exact_u32)) in E; [|assumption]
  | apply (exact_run _ _ _ (exact_items _ _ _ _ exact_u64)) in E; [|assumption]
  | apply (exact_run _ _ _ (exact_items _ _ _ _ exact_law)) in E; [|assumption]
  | apply exact_decode in E; [|assumption]
  | apply ranged_Priority in E; [|assumption]
  | apply ranged_law in E; [|assumption] ].

Ltac decode_steps H :=
  repeat (apply M_bind_Val in H;
          let r := fresh "r" in let v := fresh "v" in let E := fresh "E" in
          destruct H as (r & v & E & H); decode_field E; destruct_and? E);
  apply pair_equal_spec in H; destruct H as [-> H]; injection H as <-.

(** Open a pair of overloads on the reading side. *)
Ltac open_decoder :=
  lazymatch goal with
  | |- @Exact _ ?e ?d ?o =>
      let r := fresh "r" in let r' := fresh "r'" in let x := fresh "x" in
      let Hr := fresh "Hr" in let H := fresh "H" in
      constructor; intros r r' x Hr H;
      change (o x /\ bytes_left_ok r' /\ consumes (e x) r r'); change (d r = (r', Val x)) in H;
      cbv beta delta [d] in H; decode_steps H; split; [|split; [assumption|]]; cbv beta delta [e o]
  | |- @Ranged _ ?d ?o =>
      let r := fresh "r" in let r' := fresh "r'" in let x := fresh "x" in
      let Hr := fresh "Hr" in let H := fresh "H" in
      intros r r' x Hr H; change (o x /\ bytes_left_ok r'); change (d r = (r', Val x)) in H;
      cbv beta delta [d] in H; decode_steps H; split; [|assumption]; cbv beta delta [o]
  end.

Ltac fields_ok := cbn; split_and?; assumption || lia.
Ltac fields_consumed :=
  cbn [app]; repeat (eapply consumes_cons; [eassumption|]); try apply consumes_nil.

#[global] Instance exact_TickSpan : Exact TickSpan.t.
Proof. open_decoder; [fields_ok | fields_consumed]. Qed.
#[global] Instance exact_ValidityWindow : Exact ValidityWindow.t.
Proof. open_decoder; [fields_ok | fields_consumed]. Qed.
#[global] Instance exact_Provenance : Exact Provenance.t.
Proof. open_decoder; [fields_ok | fields_consumed]. Qed.
#[global] Instance exact_Threshold : Exact Threshold.t.
Proof. open_decoder; [fields_ok | fields_consumed]. Qed.
#[global] Instance exact_RuleNode : Exact RuleNode.t.
Proof.
  open_decoder.
  - edestruct (@count_consumed Z) as [Es _]; [eassumption..|]. cbn. rewrite Es.
    fields_ok.
  - fields_consumed. eapply consumes_cons; [eapply count_consumed; eassumption|]. done.
Qed.
#[global] Instance exact_RuleSet : Exact RuleSet.t.
Proof.
  open_decoder.
  - edestruct (@count_consumed RuleNode.t) as [Es _]; [eassumption..|]. cbn. rewrite Es.
    fields_ok.
  - fields_consumed. eapply consumes_cons; [eapply count_consumed; eassumption|].
    eapply consumes_cons; eassumption.
Qed.
#[global] Instance exact_HysteresisSpec : Exact HysteresisSpec.t.
Proof. open_decoder; [fields_ok | fields_consumed]. Qed.
#[global] Instance exact_IntentAuthorization : Exact IntentAuthorization.t.
Proof. open_decoder; [fields_ok | fields_consumed]. Qed.
#[global] Instance exact_PolicyDocument : Exact PolicyDocument.t.
Proof. open_decoder; [fields_ok | fields_consumed]. Qed.
#[global] Instance exact_ResourceCapacity : Exact ResourceCapacity.t.
Proof. open_decoder; [fields_ok | fields_consumed]. Qed.
#[global] Instance exact_PathDescriptor : Exact PathDescriptor.t.
Proof.
  open_decoder.
  - edestruct (@count_consumed Z) as [Es _]; [eassumption..|]. cbn. rewrite Es.
    fields_ok.
  - fields_consumed. eapply consumes_cons; [eapply count_consumed; eassumption|].
    eapply consumes_app; [eassumption|]. fields_consumed.
Qed.
#[global] Instance exact_ImpactAssessment : Exact ImpactAssessment.t.
Proof. open_decoder; [fields_ok | fields_consumed]. Qed.
#[global] Instance exact_AuthorityVector : Exact AuthorityVector.t.
Proof. open_decoder; [fields_ok | fields_consumed]. Qed.
#[global] Instance exact_ThresholdTraceEntry : Exact ThresholdTraceEntry.t.
Proof. open_decoder; [fields_ok | fields_consumed]. Qed.
#[global] Instance exact_ClassificationTransition : Exact ClassificationTransition.t.
Proof. open_decoder; [fields_ok | fields_consumed]. Qed.
#[global] Instance exact_IntentBounds : Exact IntentBounds.t.
Proof. open_decoder; [fields_ok | fields_consumed]. Qed.
#[global] Instance exact_GovernanceIntent : Exact GovernanceIntent.t.
Proof. open_decoder; [fields_ok | fields_consumed]. Qed.

#[global] Instance ranged_FlowSample : Ranged FlowSample.t.
Proof. open_decoder. fields_ok. Qed.
#[global] Instance ranged_FlowMeasurements : Ranged FlowMeasurements.t.
Proof. open_decoder. fields_ok. Qed.
#[global] Instance ranged_FlowClassification : Ranged FlowClassification.t.
Proof.
  open_decoder. edestruct (@count_consumed ThresholdTraceEntry.t) as [Es _]; [eassumption..|].
  cbn. rewrite Es. fields_ok.
Qed.

(** ** The contract of a pair of overloads *)

Section Contract.
Context (A : Type) `{Encode A, Decode A, WireOk A}.

(** A writer that did not overflow received bytes from which any reader recovers the
    value, leaving what follows untouched. *)
Definition lossless : Prop :=
  forall (x : A) w, wire_ok x -> writer_ok w -> ByteWriter.overflowed_ (encode x w) = false ->
  exists bs, ByteWriter.buffer_ (encode x w) = ByteWriter.buffer_ w ++ bs /\
  forall r tail, rest r = bs ++ tail -> exists r', decode r = (r', Val x) /\ rest r' = tail.

(** A reader left with only a strict prefix of what was written refuses it. *)
Definition refuses_truncation : Prop :=
  forall (x : A) w, wire_ok x -> writer_ok w -> ByteWriter.overflowed_ (encode x w) = false ->
  exists bs, ByteWriter.buffer_ (encode x w) = ByteWriter.buffer_ w ++ bs /\
  forall r cut, rest r ++ cut = bs -> cut <> [] ->
  exists r', decode r = (r', Err StatusCode.Truncated).

(** The value overflows a writer exactly when its bytes do not fit below the ceiling, and
    what a decoder accepts is exactly what the encoder writes for the result. *)
Definition canonical : Prop :=
  forall r r' (x : A), bytes_left_ok r -> decode r = (r', Val x) ->
  forall w, writer_ok w -> ByteWriter.overflowed_ (encode x w) = false ->
  ByteWriter.buffer_ (encode x w) ++ rest r' = ByteWriter.buffer_ w ++ rest r.

(** What the decoder makes of the bytes of [r], if it accepts them, is in range. *)
Definition yields_in_range (r : ByteReader.t) : Prop :=
  forall r' (x : A), decode r = (r', Val x) -> wire_ok x.

Lemma round_trips_lossless : RoundTrips A -> lossless.
Proof.
  intros Hrt x w Hx Hw Ho. destruct (Hrt x Hx) as (bs & Hwr & [Hall _]).
  destruct (Hwr w Hw) as (_ & _ & _ & Hb). eauto.
Qed.

Lemma round_trips_truncation : RoundTrips A -> refuses_truncation.
Proof.
  intros Hrt x w Hx Hw Ho. destruct (Hrt x Hx) as (bs & Hwr & [_ Hcut]).
  destruct (Hwr w Hw) as (_ & _ & _ & Hb). eauto.
Qed.

Lemma exact_canonical : Exact A -> canonical.
Proof.
  intros He r r' x Hr E w Hw Ho.
  destruct (exact_run _ _ _ He r r' x Hr E) as (_ & _ & bs & Hwr & ->).
  destruct (Hwr w Hw) as (_ & _ & _ & Hb). by rewrite (Hb Ho), app_assoc.
Qed.
End Contract.

(** A sample without a known priority, and the offset of its priority level byte. *)
Definition sample_demo : FlowSample.t :=
  FlowSample.mk 1 1 2 1 3 1 (TickSpan.mk 0 10) 100 100 ServiceClass.Standard Priority.unknown
    ProtectionState.Unprotected 0 0 (ValidityWindow.mk 0 50)
    (Provenance.mk (PublisherRef.mk 1 1 1 1) 5 1 0).
Definition sample_demo_bytes : list Z :=
  ByteWriter.buffer_ (encode sample_demo (ByteWriter.make 1000)).
Definition priority_level_offset : nat := 82.

(** C10: Every durable structure survives a round trip: after [encode] into a writer
    that did not overflow, [decode] of the appended bytes, whatever follows them, returns
    the value that was encoded and leaves exactly what follows. *)
Theorem codec_round_trips :
  lossless PolicyDocument.t /\ lossless FlowSample.t /\ lossless ResourceCapacity.t /\
  lossless PathDescriptor.t /\ lossless FlowClassification.t /\
  lossless ClassificationTransition.t /\ lossless GovernanceIntent.t.
Proof. split_and!; apply round_trips_lossless; apply _. Qed.

(** A decoder given only part of an encoding, cut at any byte, refuses it as
    truncated: no shorter value is ever taken for the one that was written. *)
Theorem codec_refuses_truncation :
  refuses_truncation PolicyDocument.t /\ refuses_truncation FlowSample.t /\
  refuses_truncation ResourceCapacity.t /\ refuses_truncation PathDescriptor.t /\
  refuses_truncation FlowClassification.t /\ refuses_truncation ClassificationTransition.t /\
  refuses_truncation GovernanceIntent.t.
Proof. split_and!; apply round_trips_truncation; apply _. Qed.

(** Decoding is canonical for every structure without a priority: the bytes a
    decoder accepts are exactly those the encoder writes for its result. It is not for a
    flow sample: the level byte of an unknown priority is read and ignored, so bytes the
    encoder never writes decode to the same sample. *)
Theorem codec_canonical :
  canonical PolicyDocument.t /\ canonical ResourceCapacity.t /\ canonical PathDescriptor.t /\
  canonical ClassificationTransition.t /\ canonical GovernanceIntent.t /\
  canonical AuthorityVector.t /\ canonical ImpactAssessment.t /\ ~ canonical FlowSample.t.
Proof.
  split_and!; [exact (exact_canonical _ _)..|].
  intros H. set (r := ByteReader.make (<[priority_level_offset := 9]> sample_demo_bytes)).
  set (r' := fst (decode_FlowSample r)).
  assert (Hb : bytes_left_ok r).
  { unfold bytes_left_ok. apply (bool_decide_unpack _). vm_compute. reflexivity. }
  assert (E : decode_FlowSample r = (r', Val sample_demo)) by (vm_compute; reflexivity).
  specialize (H r r' sample_demo Hb E (ByteWriter.make 1000)).
  vm_compute in H. specialize (H ltac:(discriminate) eq_refl). discriminate H.
Qed.

(** C37: A decoder of the codec that succeeds, on any bytes at all, returns a value all of whose
    members are in range: integers at their width, collections below their ceilings,
    enumerations among their enumerators, a known priority at most [kMaxLevel]. This holds of
    every overload of [decode]: of the structures that are stored and sent, and of the parts they
    are made of. *)
Theorem decoded_in_range (r : ByteReader.t) :
  bytes_left_ok r ->
  (yields_in_range PolicyDocument.t r /\ yields_in_range FlowSample.t r /\
   yields_in_range ResourceCapacity.t r /\ yields_in_range PathDescriptor.t r /\
   yields_in_range FlowClassification.t r /\ yields_in_range ClassificationTransition.t r /\
   yields_in_range GovernanceIntent.t r) /\
  (yields_in_range TickSpan.t r /\ yields_in_range ValidityWindow.t r /\ yields_in_range Provenance.t r /\
   yields_in_range Threshold.t r /\ yields_in_range RuleNode.t r /\ yields_in_range RuleSet.t r /\
   yields_in_range HysteresisSpec.t r /\ yields_in_range IntentAuthorization.t r /\
   yields_in_range FlowMeasurements.t r /\ yields_in_range ImpactAssessment.t r /\
   yields_in_range AuthorityVector.t r /\ yields_in_range ThresholdTraceEntry.t r /\
   yields_in_range IntentBounds.t r).
Proof.
  intros Hr. split_and!; intros r' x E.
  all: eapply (@ranged_law _ _ _ _ r r' x) in E; [by destruct E|done].
Qed.

Lemma decoded_in_range_witness :
  decode_FlowSample (ByteReader.make sample_demo_bytes) =
    (ByteReader.mk sample_demo_bytes 168, Val sample_demo) /\ wire_ok sample_demo.
Proof.
  assert (E : decode_FlowSample (ByteReader.make sample_demo_bytes) =
    (ByteReader.mk sample_demo_bytes 168, Val sample_demo)) by (vm_compute; reflexivity).
  split; [exact E|].
  refine (proj1 (proj2 (proj1 (decoded_in_range (ByteReader.make sample_demo_bytes) _))) _ sample_demo E).
  unfold bytes_left_ok. apply (bool_decide_unpack _). vm_compute. reflexivity.
Defined.
