(* ===== verification/Restore.v ===== *)
(** * The governor's durable state ([src/governor.cpp], lines 1414 to 1806)

    [serialize] writes the whole governor through the codec, [deserialize] rebuilds it
    from bytes under a new boot identity, and [resume_after_restore] withdraws the
    authority that came with them. [deserialize] is a method of the governor and of the
    reader at once; it changes both as it goes and what it has changed stays changed when
    it returns early, so its model threads the pair and applies each mutation where the
    source does. *)
From S2P Require Import Prelude Status Checked Tri Tick Hash OMap Flow Tables Policy Impact Classification Intervention Governor Codec.

(** ** Serialization *)

Definition put_option {A} `{Encode A} (x : option A) : list (ByteWriter.t -> ByteWriter.t) :=
  match x with
  | Some x => [put_bool true; encode x]
  | None => [put_bool false]
  end.

(** [write_u32(items.size())] and one [encode] per item. *)
Definition put_list {A} `{Encode A} (items : list A) : list (ByteWriter.t -> ByteWriter.t) :=
  put_count items :: (encode <$> items).

(** The entry [find] returns for each listed key; a null pointer writes nothing. *)
Definition found {K V} (find : K -> option V) (keys : list K) : list V := omap find keys.

Definition flow_statements (entry : FlowKey * FlowRecord.t) : list (ByteWriter.t -> ByteWriter.t) :=
  let record := entry.2 in
  let ledger := FlowRecord.ledger record in
  let history := FlowRecord.history record in
  [ put_u64 entry.1.1; put_u64 entry.1.2 ] ++
  put_option (if FlowRecord.has_classification record
              then Some (FlowRecord.classification record) else None) ++
  [ put_u32 (FlowRecord.enter_streak record);
    put_u32 (FlowRecord.exit_streak record);
    put_u64 (FlowRecord.evaluated_tick record);
    put_u64 (FlowRecord.evaluated_window record);
    put_u64 (FlowRecord.completed_tick record);
    put_bool (FlowLedger.completed_ ledger);
    put_u64 (FlowLedger.completed_at_ ledger);
    put_bool (FlowLedger.gap_detected_ ledger) ] ++
  put_list (FlowLedger.samples_ ledger) ++
  put_list (ClassificationHistory.transitions history) ++
  [ put_u64 (ClassificationHistory.digest_ history);
    put_u64 (ClassificationHistory.folded_count_ history) ].

Definition header_statements (g : Governor.t) : list (ByteWriter.t -> ByteWriter.t) :=
  let boot := GovernorIncarnation.boot (Governor.incarnation_ g) in
  [ put_u32 kSchemaVersion;
    put_u32 1;
    put_u64 (Governor.last_tick_ g);
    put_u64 (Governor.classification_sequence_ g);
    put_u64 (Governor.intent_sequence_ g);
    put_u64 (BootIdentity.boot boot);
    put_u64 (BootIdentity.epoch boot);
    put_u64 (BootIdentity.started_at boot);
    put_u64 (BootIdentity.monotonic_seed boot) ].

Definition state_statements (g : Governor.t) : list (ByteWriter.t -> ByteWriter.t) :=
  let capacities := CapacityTable.entries_ (Governor.capacities_ g) in
  let paths := PathTable.entries_ (Governor.paths_ g) in
  header_statements g ++
  put_option (Governor.policy_ g) ++
  put_count capacities ::
  (encode <$> found (fun r => CapacityTable.find r (Governor.capacities_ g)) (OMap.keys capacities)) ++
  put_count paths ::
  (encode <$> found (fun p => PathTable.find p (Governor.paths_ g)) (OMap.keys paths)) ++
  put_count (Governor.flows_ g) ::
  mjoin (flow_statements <$> Governor.flows_ g) ++
  put_list (IntentLedger.all_intents (Governor.intents_ g)).

Definition serialize (g : Governor.t) (w : ByteWriter.t) : ByteWriter.t * Status :=
  let w := emit (state_statements g) w in
  (w, if ByteWriter.overflowed_ w then Err StatusCode.Oversized else Val tt).

(** ** Withdrawing restored authority *)

(** The demotion of one restored record; a record without a verdict is left alone. *)
Definition demote_record (now : Tick) : Governor.MR unit := fun gr =>
  let '(g, record) := gr in
  let boot := GovernorIncarnation.boot (Governor.incarnation_ g) in
  if negb (FlowRecord.has_classification record) then ((g, record), Val tt)
  else
    let cls := FlowRecord.classification record in
    let reasons := Z.lor (FlowClassification.reasons cls) ReasonCode.RevalidationRequired in
    let transition := ClassificationTransition.mk now (FlowClassification.state cls)
      ElephantState.Suspended AuthorityLevel.None reasons
      (FlowClassification.id cls) (FlowClassification.generation cls) in
    match ClassificationHistory.record transition (FlowRecord.history record) with
    | (history, Err c) => ((g, record <| FlowRecord.history := history |>), Err c)
    | (history, Val _) =>
        let vector := FlowClassification.authority_vector cls
          <| AuthorityVector.boot := BootIdentity.boot boot |>
          <| AuthorityVector.epoch := BootIdentity.epoch boot |> in
        let cls := cls <| FlowClassification.state := ElephantState.Suspended |>
                       <| FlowClassification.authority := AuthorityLevel.None |>
                       <| FlowClassification.reasons := reasons |>
                       <| FlowClassification.authority_vector := vector |> in
        ((g, record <| FlowRecord.history := history |>
                    <| FlowRecord.classification := cls |>
                    <| FlowRecord.enter_streak := 0 |>
                    <| FlowRecord.exit_streak := 0 |>
                    <| FlowRecord.evaluated_tick := now |>), Val tt)
    end.

(** [update_index(entry.first, entry.second)]. *)
Definition reindex (key : FlowKey) : Governor.MR unit := fun gr =>
  (Governor.update_index key gr, Val tt).

Definition count_elephants (flows : omap_t FlowKey FlowRecord.t) : Z :=
  Z.of_nat (length (base.filter (fun e => FlowRecord.is_elephant e.2 = true) flows)).

Definition resume_after_restore (now : Tick) : M Governor.t unit :=
  g0 ← get;
  let keys := OMap.keys (Governor.flows_ g0) in
  let needing_revalidation := count_elephants (Governor.flows_ g0) in
  for_each (fun key => Governor.with_record key (demote_record now)) keys ;;
  modify (fun g => g <| Governor.binding_index_ := [] |> <| Governor.resource_aggregate_ := [] |>) ;;
  for_each (fun key => Governor.with_record key (reindex key)) keys ;;
  modify (fun g =>
    let '(ledger, fenced) := IntentLedger.revoke_all now IntentState.Fenced
                               SuppressReason.AuthorityStale (Governor.intents_ g) in
    Governor.bump_by fenced GovernorCounters.intents_fenced (g <| Governor.intents_ := ledger |>)) ;;
  modify (fun g => Governor.bump_by needing_revalidation
                     GovernorCounters.restored_flows_requiring_revalidation
                     (Governor.bump_by (size_of keys) GovernorCounters.restored_flows g)) ;;
  modify (fun g => g <| Governor.tick_guard_ ::= TickGuard.reset |>) ;;
  on Governor.tick_guard_ (TickGuard.observe now) ;;
  modify (fun g => g <| Governor.last_tick_ :=
                          if Governor.last_tick_ g >? now then Governor.last_tick_ g else now |>).

(** ** Deserialization *)

(** Methods of the governor and the reader. *)
Definition MS (A : Type) : Type := M (Governor.t * ByteReader.t) A.
Definition read {A} (m : M ByteReader.t A) : MS A := fun gr =>
  let '(g, r) := gr in let '(r, x) := m r in ((g, r), x).
Definition act {A} (m : M Governor.t A) : MS A := fun gr =>
  let '(g, r) := gr in let '(g, x) := m g in ((g, r), x).
Definition state : MS Governor.t := fun gr => (gr, Val gr.1).
Definition guard (refused : bool) (c : StatusCode.t) : MS unit := lift (refuse_if refused c).

(** [for (u32 i = 0; i < count; ++i) { ... }] *)
Fixpoint times {S} (count : nat) (body : M S unit) : M S unit :=
  match count with
  | O => mret tt
  | S count => body ;; times count body
  end.

(** An assignment to a member of the flow record under construction. *)
Definition assign (key : FlowKey) (f : FlowRecord.t -> FlowRecord.t) : MS unit :=
  act (Governor.with_record key (fun gr => ((gr.1, f gr.2), Val tt))).

Definition restore_policy : MS unit :=
  has_policy ← read need_bool;
  act (modify (fun g => g <| Governor.policy_ := None |> <| Governor.exit_rules_ := RuleSet.default |>)) ;;
  if has_policy : bool then
    policy ← read decode;
    lift (PolicyDocument.validate policy) ;;
    exit_rules ← lift (effective_exit_rule policy);
    act (modify (fun g => g <| Governor.policy_ := Some policy |>
                            <| Governor.exit_rules_ := exit_rules |>))
  else mret tt.

Definition restore_capacities : MS unit :=
  count ← read (read_count kMaxResources);
  act (modify (fun g => g <| Governor.capacities_ := CapacityTable.default |>)) ;;
  times (Z.to_nat count) (
    capacity ← read decode;
    act (on Governor.capacities_ (CapacityTable.submit capacity))).

Definition restore_paths : MS unit :=
  count ← read (read_count kMaxPaths);
  act (modify (fun g => g <| Governor.paths_ := PathTable.default |>)) ;;
  times (Z.to_nat count) (
    path ← read decode;
    act (on Governor.paths_ (PathTable.submit path))).

(** [record.ledger.append(sample)], any refusal reported as corruption. *)
Definition restore_sample (key : FlowKey) : MS unit :=
  sample ← read decode;
  act (Governor.with_record key (fun gr =>
    let '(ledger, appended) := FlowLedger.append sample (FlowRecord.ledger gr.2) in
    ((gr.1, gr.2 <| FlowRecord.ledger := ledger |>),
     if ok appended then Val tt else Err StatusCode.Corrupt))).

Definition restore_completion (key : FlowKey) (at_ : Tick) : MS unit :=
  act (Governor.with_record key (fun gr =>
    let '(ledger, status) := FlowLedger.mark_completed at_ (FlowRecord.ledger gr.2) in
    ((gr.1, gr.2 <| FlowRecord.ledger := ledger |>), status))).

Definition restore_transition (key : FlowKey) : MS unit :=
  transition ← read decode;
  act (Governor.with_record key (fun gr =>
    let '(history, status) := ClassificationHistory.record transition (FlowRecord.history gr.2) in
    ((gr.1, gr.2 <| FlowRecord.history := history |>), status))).

(** The digest of the history rebuilt for [key]. *)
Definition history_digest (key : FlowKey) (g : Governor.t) : Z :=
  match OMap.find key (Governor.flows_ g) with
  | Some record => ClassificationHistory.digest_ (FlowRecord.history record)
  | None => 0
  end.

Definition restore_flow : MS unit :=
  flow ← read need_u64;
  generation ← read need_u64;
  guard (negb (id_valid flow) || negb (id_valid generation)) StatusCode.Corrupt ;;
  let key := (flow, generation) in
  act (modify (Governor.create_flow flow generation)) ;;
  has_classification ← read need_bool;
  classification ← (if has_classification : bool then read decode else mret FlowClassification.default);
  enter_streak ← read need_u32;
  assign key (fun r => r <| FlowRecord.enter_streak := enter_streak |>) ;;
  exit_streak ← read need_u32;
  assign key (fun r => r <| FlowRecord.exit_streak := exit_streak |>) ;;
  evaluated_tick ← read need_u64;
  assign key (fun r => r <| FlowRecord.evaluated_tick := evaluated_tick |>) ;;
  evaluated_window ← read need_u64;
  assign key (fun r => r <| FlowRecord.evaluated_window := evaluated_window |>) ;;
  completed_tick ← read need_u64;
  ledger_completed ← read need_bool;
  ledger_completed_at ← read need_u64;
  gap_detected ← read need_bool;
  assign key (fun r => r <| FlowRecord.completed_tick := completed_tick |>) ;;
  sample_count ← read (read_count kMaxSamplesPerFlow);
  times (Z.to_nat sample_count) (restore_sample key) ;;
  (if ledger_completed : bool then restore_completion key ledger_completed_at else mret tt) ;;
  transition_count ← read (read_count kMaxHistoryPerFlow);
  times (Z.to_nat transition_count) (restore_transition key) ;;
  stored_digest ← read need_u64;
  folded ← read need_u64;
  guard (negb (folded =? 0)) StatusCode.Unsupported ;;
  g ← state;
  guard (negb (stored_digest =? history_digest key g)) StatusCode.IntegrityFailure ;;
  if has_classification : bool then
    assign key (fun r => r <| FlowRecord.classification := classification |>
                           <| FlowRecord.has_classification := true |>)
  else mret tt.

Definition restore_flows : MS unit :=
  g ← state;
  count ← read (read_count (GovernorConfig.max_flows (Governor.config_ g)));
  act (modify (fun g => g <| Governor.flows_ := [] |> <| Governor.highest_generation_ := [] |>
                          <| Governor.binding_index_ := [] |>
                          <| Governor.resource_aggregate_ := [] |>)) ;;
  times (Z.to_nat count) restore_flow.

Definition restore_intent : MS unit :=
  intent ← read decode;
  act (_ ← on Governor.intents_ (IntentLedger.record intent); mret tt).

Definition restore_intents : MS unit :=
  g ← state;
  count ← read (read_count (GovernorConfig.max_intents (Governor.config_ g)));
  act (modify (fun g => g <| Governor.intents_ :=
    IntentLedger.make (GovernorConfig.max_intents (Governor.config_ g)) kMaxAttempts |>)) ;;
  times (Z.to_nat count) restore_intent.

(** The scalars of the header and the incarnation they are restored under. *)
Definition restore_header : MS (Tick * Z * Z) :=
  schema ← read need_u32;
  revision ← read need_u32;
  guard (negb (schema =? kSchemaVersion)) StatusCode.VersionMismatch ;;
  guard (negb (revision =? 1)) StatusCode.VersionMismatch ;;
  stored_last_tick ← read need_u64;
  stored_sequence ← read need_u64;
  stored_intent_sequence ← read need_u64;
  stored_boot ← read need_u64;
  stored_epoch ← read need_u64;
  stored_started ← read need_u64;
  stored_seed ← read need_u64;
  g ← state;
  let boot := GovernorIncarnation.boot (Governor.incarnation_ g) in
  guard (negb (BootIdentity.valid boot)) StatusCode.InvalidArgument ;;
  guard (BootIdentity.boot boot =? stored_boot) StatusCode.Conflict ;;
  guard (BootIdentity.epoch boot <=? stored_epoch) StatusCode.EpochMismatch ;;
  mret (stored_last_tick, stored_sequence, stored_intent_sequence).

Definition deserialize (now : Tick) : MS unit :=
  scalars ← restore_header;
  let '(stored_last_tick, stored_sequence, stored_intent_sequence) := scalars in
  restore_policy ;;
  restore_capacities ;;
  restore_paths ;;
  restore_flows ;;
  restore_intents ;;
  act (modify (fun g =>
    Governor.bump GovernorCounters.restore_events
      (g <| Governor.classification_sequence_ := stored_sequence |>
         <| Governor.intent_sequence_ := stored_intent_sequence |>
         <| Governor.last_tick_ := if stored_last_tick >? now then stored_last_tick else now |>))) ;;
  act (resume_after_restore now).

(** ** The digest of everything that decides *)

(** [version_string()]: "1.0.0". *)
Definition version_string : list Z := [49; 46; 48; 46; 48].

Definition decision_digest (g : Governor.t) : Z :=
  Hasher.digest_of (
    [ Hasher.write version_string ] ++
    match Governor.policy_ g with
    | Some policy => [ Hasher.write_bool true; Hasher.write_digest (PolicyDocument.digest policy) ]
    | None => [ Hasher.write_bool false ]
    end ++
    ((fun c => Hasher.write_u64 (ResourceCapacity.digest c)) <$>
       found (fun r => CapacityTable.find r (Governor.capacities_ g))
         (OMap.keys (CapacityTable.entries_ (Governor.capacities_ g)))) ++
    ((fun p => Hasher.write_u64 (PathDescriptor.digest p)) <$>
       found (fun p => PathTable.find p (Governor.paths_ g))
         (OMap.keys (PathTable.entries_ (Governor.paths_ g)))) ++
    mjoin ((fun key =>
      match Governor.ledger key.1 key.2 g with
      | None => []
      | Some ledger =>
          [ Hasher.write_u64 key.1; Hasher.write_u64 key.2;
            Hasher.write_digest (FlowMeasurements.digest (FlowLedger.measurements ledger)) ] ++
          match Governor.history key.1 key.2 g with
          | Some history => [ Hasher.write_digest (ClassificationHistory.digest_ history) ]
          | None => []
          end
      end) <$> Governor.flow_keys g) ++
    mjoin ((fun i => [ Hasher.write_u64 (GovernanceIntent.id i);
                       Hasher.write_u64 (GovernanceIntent.digest i) ]) <$>
             IntentLedger.live_intents (Governor.intents_ g)) ++
    [ Hasher.write_u64 (GovernorCounters.decisions (Governor.counters_ g));
      Hasher.write_u64 (GovernorCounters.transitions (Governor.counters_ g)) ]).
