(* ===== verification/RestoreFacts.v ===== *)
(** * What restoring guarantees

    A restore that succeeds leaves no authority: every verdict is suspended under the new
    boot identity and every live intent is fenced, whatever the bytes were. A restore that
    fails leaves a governor whose structure is still sound, but keeps what it had rebuilt. *)
From S2P Require Import Prelude Status Checked Tri Tick Hash OMap Flow Tables Policy Impact Classification Intervention InterventionFacts Governor GovernorFacts GovernorIntents GovernorRuns Codec CodecFacts Restore.

#[local] Opaque Hasher.digest_of GovernanceIntent.compute_digest FlowClassification.compute_digest.

(** ** Passes over the records *)

(** A pass runs [step] on every listed record. [R] relates a record before and after it,
    [Q] is what the step establishes. *)
Section record_pass.
Context (step : FlowKey -> Governor.MR unit).
Context (R : FlowRecord.t -> FlowRecord.t -> Prop) `{!PreOrder R}.
Context (Q : Governor.t -> FlowRecord.t -> Prop).
Hypothesis Q_frame : forall g g' r,
  Governor.incarnation_ g' = Governor.incarnation_ g -> Q g r -> Q g' r.
Hypothesis step_frame : forall key g r g' r',
  step key (g, r) = ((g', r'), Val tt) ->
  same_core g g' /\ Governor.intents_ g' = Governor.intents_ g /\ R r r' /\ Q g r'.

Record passed (keys : list FlowKey) (g g' : Governor.t) : Prop := {
  ps_config : Governor.config_ g' = Governor.config_ g;
  ps_incarnation : Governor.incarnation_ g' = Governor.incarnation_ g;
  ps_intents : Governor.intents_ g' = Governor.intents_ g;
  ps_others : forall k, k ∉ keys -> OMap.find k (Governor.flows_ g') = OMap.find k (Governor.flows_ g);
  ps_records : forall k r', OMap.find k (Governor.flows_ g') = Some r' ->
    (exists r, OMap.find k (Governor.flows_ g) = Some r /\ R r r') /\ (k ∈ keys -> Q g r') }.

Lemma step_passes key g g' :
  Governor.with_record key (step key) g = (g', Val tt) -> passed [key] g g'.
Proof.
  unfold Governor.with_record. destruct (OMap.find key (Governor.flows_ g)) as [r|] eqn:Hf; [|done].
  destruct (step key (g, r)) as [[g1 r1] res] eqn:Es. intros H.
  apply pair_equal_spec in H as [<- ->]. apply step_frame in Es as (Hc & Hi & HR & HQ).
  split; simpl; [apply Hc|apply Hc|done| |]; intros k; rewrite find_set, (sc_flows _ _ Hc);
    destruct (OMap.key_eqb key k) eqn:Ek.
  - apply OMap.key_eqb_eq in Ek as <-. intros []. by apply list_elem_of_singleton.
  - done.
  - apply OMap.key_eqb_eq in Ek as <-. intros r' [= <-]. eauto.
  - intros r' Hk. split; [by exists r'|]. intros ->%list_elem_of_singleton.
    by rewrite OMap.key_eqb_refl in Ek.
Qed.

Lemma pass_passes keys : forall g g',
  for_each (fun key => Governor.with_record key (step key)) keys g = (g', Val tt) ->
  passed keys g g'.
Proof.
  induction keys as [|key keys IH]; intros g g' H; cbn [for_each] in H.
  { apply pair_equal_spec in H as [<- _]. split; [done..|]. intros k r' Hk.
    split; [by exists r'|]. by intros ?%not_elem_of_nil. }
  apply M_bind_Val in H as (g1 & [] & H1 & H2).
  apply step_passes in H1 as [C1 B1 I1 O1 F1]. apply IH in H2 as [C2 B2 I2 O2 F2].
  split; [congruence..| |].
  - intros k [Hk Hks]%not_elem_of_cons. rewrite (O2 k Hks). apply O1.
    by rewrite list_elem_of_singleton.
  - intros k r' Hk. destruct (F2 k r' Hk) as [(r1 & Hk1 & HR1) HQ2].
    destruct (F1 k r1 Hk1) as [(r & Hkr & HR) HQ1]. split.
    + exists r. split; [done|]. by etrans.
    + intros Hin. destruct (decide (k ∈ keys)) as [Hks|Hks]; [by eapply Q_frame, HQ2|].
      rewrite (O2 k Hks), Hk1 in Hk. injection Hk as <-. apply HQ1.
      apply list_elem_of_singleton. by apply elem_of_cons in Hin as [->|Hin].
Qed.
End record_pass.

(** A restored verdict without authority, bound to the incarnation of [g]. *)
Definition demoted (g : Governor.t) (r : FlowRecord.t) : Prop :=
  FlowRecord.has_classification r = true ->
  let c := FlowRecord.classification r in
  let boot := GovernorIncarnation.boot (Governor.incarnation_ g) in
  FlowClassification.state c = ElephantState.Suspended /\
  FlowClassification.authority c = AuthorityLevel.None /\
  AuthorityVector.boot (FlowClassification.authority_vector c) = BootIdentity.boot boot /\
  AuthorityVector.epoch (FlowClassification.authority_vector c) = BootIdentity.epoch boot /\
  FlowRecord.enter_streak r = 0 /\ FlowRecord.exit_streak r = 0.

Lemma demoted_frame g g' r :
  Governor.incarnation_ g' = Governor.incarnation_ g -> demoted g r -> demoted g' r.
Proof. unfold demoted. by intros ->. Qed.

(** What a demotion leaves of a record: its evidence, and the verdict's identity and
    measurements. *)
Record same_evidence (r r' : FlowRecord.t) : Prop := {
  se_ledger : FlowRecord.ledger r' = FlowRecord.ledger r;
  se_has : FlowRecord.has_classification r' = FlowRecord.has_classification r;
  se_window : FlowRecord.evaluated_window r' = FlowRecord.evaluated_window r;
  se_completed : FlowRecord.completed_tick r' = FlowRecord.completed_tick r;
  se_id : FlowClassification.id (FlowRecord.classification r') =
          FlowClassification.id (FlowRecord.classification r);
  se_generation : FlowClassification.generation (FlowRecord.classification r') =
                  FlowClassification.generation (FlowRecord.classification r);
  se_measurements : FlowClassification.measurements (FlowRecord.classification r') =
                    FlowClassification.measurements (FlowRecord.classification r) }.

#[global] Instance same_evidence_preorder : PreOrder same_evidence.
Proof. split; [by intros r; split|]. intros a b c [] []. split; congruence. Qed.

Lemma same_record_evidence r r' : same_record r r' -> same_evidence r r'.
Proof. intros []. split; congruence. Qed.

Lemma demote_record_frame now g r g' r' :
  demote_record now (g, r) = ((g', r'), Val tt) ->
  same_core g g' /\ Governor.intents_ g' = Governor.intents_ g /\ same_evidence r r' /\ demoted g r'.
Proof.
  unfold demote_record. cbv zeta. destruct (FlowRecord.has_classification r) eqn:Hh; cbn [negb].
  - destruct (ClassificationHistory.record _ _) as [h [u|c]]; [|done]. intros H.
    apply (f_equal fst) in H. cbn [fst] in H. injection H as <- <-. by split_and!.
  - intros H. apply (f_equal fst) in H. cbn [fst] in H. injection H as <- <-.
    split_and!; [done..|]. unfold demoted. by rewrite Hh.
Qed.

#[global] Instance same_record_preorder : PreOrder same_record.
Proof. split; [by intros r; split|]. intros a b c [] []. split; congruence. Qed.

Lemma reindex_frame key g r g' r' :
  reindex key (g, r) = ((g', r'), Val tt) ->
  same_core g g' /\ Governor.intents_ g' = Governor.intents_ g /\ same_record r r' /\ True.
Proof.
  unfold reindex. intros H. apply (f_equal fst) in H. cbn [fst] in H.
  apply update_index_frame in H as (? & ? & ? & _). by split_and!.
Qed.

Lemma demoted_same g r r' : same_record r r' -> demoted g r -> demoted g r'.
Proof. intros [_ _ Ec Eh Ee Ex _ _ _]. unfold demoted. by rewrite Ec, Eh, Ee, Ex. Qed.

(** ** Resuming *)

Record resumed (g g' : Governor.t) : Prop := {
  rs_config : Governor.config_ g' = Governor.config_ g;
  rs_incarnation : Governor.incarnation_ g' = Governor.incarnation_ g;
  rs_demoted : forall key r, OMap.find key (Governor.flows_ g') = Some r -> demoted g' r;
  rs_kept : forall key r', OMap.find key (Governor.flows_ g') = Some r' ->
    exists r, OMap.find key (Governor.flows_ g) = Some r /\ same_evidence r r';
  rs_dead : forall id i, IntentLedger.find id (Governor.intents_ g') = Some i ->
    is_live (GovernanceIntent.state i) = false }.

Lemma resume_spec now g g' : resume_after_restore now g = (g', Val tt) -> resumed g g'.
Proof.
  intros H. unfold resume_after_restore in H.
  apply M_bind_Val in H as (? & ? & [= <- <-] & H). cbv zeta in H.
  apply M_bind_Val in H as (g1 & [] & H1 & H).
  apply (pass_passes (fun _ => demote_record now) same_evidence demoted demoted_frame
    (fun _ => demote_record_frame now)) in H1 as [C1 B1 I1 _ F1].
  apply M_bind_Val in H as (? & ? & [= <- <-] & H).
  apply M_bind_Val in H as (g3 & [] & H3 & H).
  apply (pass_passes reindex same_record (fun _ _ => True) (fun _ _ _ _ _ => I) reindex_frame)
    in H3 as [C3 B3 I3 _ F3]. simpl in C3, B3, I3, F3.
  apply M_bind_Val in H as (g4 & [] & H4 & H).
  assert (Hg4 : Governor.config_ g4 = Governor.config_ g3 /\
    Governor.incarnation_ g4 = Governor.incarnation_ g3 /\ Governor.flows_ g4 = Governor.flows_ g3 /\
    forall id i, IntentLedger.find id (Governor.intents_ g4) = Some i ->
      is_live (GovernanceIntent.state i) = false).
  { apply (f_equal fst) in H4. cbn [fst modify] in H4. unfold modify in H4. cbn [fst] in H4. subst g4.
    pose proof (fun k i => revoke_all_dead now IntentState.Fenced SuppressReason.AuthorityStale
      (Governor.intents_ g3) k i eq_refl) as Hd.
    destruct (IntentLedger.revoke_all _ _ _ _) as [l n]. by split_and!. }
  clear H4. destruct Hg4 as (C4 & B4 & Fl4 & D4).
  apply M_bind_Val in H as (? & ? & [= <- <-] & H).
  apply M_bind_Val in H as (? & ? & [= <- <-] & H).
  apply M_bind_Val in H as (g7 & [] & H7 & [= <-]).
  unfold on in H7. destruct (TickGuard.observe _ _) as [tg res]. injection H7 as <- _.
  assert (Hin : forall key r, OMap.find key (Governor.flows_ g4) = Some r ->
    exists r1 r0, OMap.find key (Governor.flows_ g) = Some r0 /\ demoted g r1 /\
      same_evidence r0 r1 /\ same_record r1 r).
  { intros key r Hk. rewrite Fl4 in Hk. destruct (F3 key r Hk) as [(r1 & Hk1 & Hs) _].
    destruct (F1 key r1 Hk1) as [(r0 & Hk0 & He) Hd]. exists r1, r0. split_and!; [done| |done..].
    apply Hd. by eapply find_keys. }
  split; simpl; [congruence..| | |exact D4]; intros key r Hk;
    destruct (Hin key r Hk) as (r1 & r0 & Hk0 & Hd & He & Hs);
    [|exists r0; split; [done|]; etrans; [exact He|by apply same_record_evidence]].
  eapply demoted_frame; [|by eapply demoted_same]. simpl. congruence.
Qed.

(** ** The structure of a governor under restoration

    What holds of the governor whatever bytes it is fed, after a success as after any
    early return. Two facts of [gov_inv] are missing, because [deserialize] does not check
    them: that a verdict carries the identity of its own record, and that no record is
    above its flow's highest generation. *)

Record rec_sound (key : FlowKey) (r : FlowRecord.t) : Prop := {
  rd_ledger : ledger_inv (FlowRecord.ledger r);
  rd_flow : FlowLedger.flow_ (FlowRecord.ledger r) = key.1;
  rd_generation : FlowLedger.generation_ (FlowRecord.ledger r) = key.2;
  rd_history : history_inv (FlowRecord.history r) }.

Record sound (n : Z) (g : Governor.t) : Prop := {
  sd_room : 1 <= GovernorConfig.max_flows (Governor.config_ g) <= kMaxFlows;
  sd_limits : 2 <= GovernorConfig.samples_per_flow (Governor.config_ g) /\
              1 <= GovernorConfig.max_history_per_flow (Governor.config_ g);
  sd_sorted : OMap.sorted (Governor.flows_ g);
  sd_size : Governor.flow_count g <= n;
  sd_records : forall key r, OMap.find key (Governor.flows_ g) = Some r -> rec_sound key r;
  sd_capacities : tbl_wf (Governor.capacities_ g);
  sd_paths : tbl_wf (Governor.paths_ g);
  sd_policy : forall p, Governor.policy_ g = Some p -> PolicyDocument.validate p = Val tt;
  sd_intents : intents_inv (Governor.intents_ g) }.

Lemma gov_inv_sound g :
  gov_inv g -> sound (GovernorConfig.max_flows (Governor.config_ g)) g.
Proof.
  intros [H1 H2 H3 H4 H5 H6 H7 H8 H9 H10]. split; try done.
  intros key r Hk. destruct (H5 key r Hk). by split.
Qed.

Lemma sound_mono n n' g : n <= n' -> sound n g -> sound n' g.
Proof. intros Hn []. split; try done. lia. Qed.

(** The governor during a restoration with at most [n] records, under the configuration
    [c] and the incarnation [i] it started with; and together with bytes to read. *)
Definition rebuilding (n : Z) (c : GovernorConfig.t) (i : GovernorIncarnation.t) (g : Governor.t) : Prop :=
  sound n g /\ Governor.config_ g = c /\ Governor.incarnation_ g = i.
Definition restoring (n : Z) (c : GovernorConfig.t) (i : GovernorIncarnation.t)
    (s : Governor.t * ByteReader.t) : Prop :=
  rebuilding n c i s.1 /\ bytes_left_ok s.2.

(** [m] leads from at most [n] records to at most [n'], with a value that satisfies [Q];
    when it returns early, to at most [GovernorConfig.max_flows]. *)
Definition runs {A} (c : GovernorConfig.t) (i : GovernorIncarnation.t) (n n' : Z) (m : MS A)
    (Q : A -> Prop) : Prop :=
  forall s, restoring n c i s ->
  match (m s).2 with
  | Val x => restoring n' c i (m s).1 /\ Q x
  | Err _ => rebuilding (GovernorConfig.max_flows c) c i (m s).1.1
  end.

Section hoare.
Context (c : GovernorConfig.t) (i : GovernorIncarnation.t).
Abbreviation runs := (runs c i).

Lemma rebuilding_mono n n' g : n <= n' -> rebuilding n c i g -> rebuilding n' c i g.
Proof. intros Hn (H1 & H2 & H3). split; [by eapply sound_mono|done]. Qed.

Lemma runs_bind {A B} n n1 n' (m : MS A) (k : A -> MS B) Q Q' :
  runs n n1 m Q -> (forall x, Q x -> runs n1 n' (k x) Q') -> runs n n' (m ≫= k) Q'.
Proof.
  intros Hm Hk s Hs. specialize (Hm s Hs). unfold mbind, M_bind.
  destruct (m s) as [s1 [x|e]]; cbn [fst snd] in *; [|done].
  destruct Hm as [Hs1 HQ]. by apply (Hk x HQ s1 Hs1).
Qed.

Lemma runs_ret {A} n (x : A) (Q : A -> Prop) : Q x -> runs n n (mret x) Q.
Proof. by intros HQ s Hs. Qed.

Lemma runs_lift {A} n (r : StatusOr A) :
  n <= GovernorConfig.max_flows c -> runs n n (lift r) (fun x => r = Val x).
Proof. intros Hn s [Hs Hb]. unfold lift. destruct r; cbn [fst snd]; [done|]. by eapply rebuilding_mono. Qed.

Lemma runs_guard n b e : n <= GovernorConfig.max_flows c -> runs n n (guard b e) (fun _ => True).
Proof.
  intros Hn s Hs. pose proof (runs_lift n (refuse_if b e) Hn s Hs) as H. unfold guard in *.
  destruct (lift _ s) as [s1 [x|]]; cbn [fst snd] in *; [by destruct H|done].
Qed.

Lemma runs_state n : runs n n state (fun g => rebuilding n c i g).
Proof. intros s Hs. split; [done|]. by destruct Hs. Qed.

Lemma runs_times n (body : MS unit) k :
  runs n n body (fun _ => True) -> runs n n (times k body) (fun _ => True).
Proof.
  intros Hb. induction k as [|k IH]; [by apply runs_ret|]. cbn [times].
  eapply runs_bind; [exact Hb|]. by intros.
Qed.

(** A read keeps what is left to read bytes, and its value is in range. *)
Lemma runs_read {A} n (m : M ByteReader.t A) Q :
  n <= GovernorConfig.max_flows c -> ranged Q m -> runs n n (read m) Q.
Proof.
  intros Hn Hm [g r] [Hg Hr]. unfold read. specialize (Hm r). cbn [fst snd] in *.
  destruct (m r) as [r' [x|e]] eqn:E; cbn [fst snd] in *; [|by eapply rebuilding_mono].
  by destruct (Hm r' x Hr eq_refl).
Qed.

(** A mutation of the governor. *)
Lemma runs_act {A} n n' (m : M Governor.t A) :
  n' <= GovernorConfig.max_flows c ->
  (forall g, rebuilding n c i g -> rebuilding n' c i (m g).1) ->
  runs n n' (act m) (fun _ => True).
Proof.
  intros Hn Hm [g r] [Hg Hr]. unfold act. specialize (Hm g Hg). cbn [fst snd] in *.
  destruct (m g) as [g' [x|e]]; cbn [fst snd] in *; [done|]. by eapply rebuilding_mono.
Qed.

(** A mutation of one record. *)
Lemma runs_record {A} n key (m : Governor.MR A) :
  n <= GovernorConfig.max_flows c ->
  (forall g r, rec_sound key r -> exists r' x, m (g, r) = ((g, r'), x) /\ rec_sound key r') ->
  runs n n (act (Governor.with_record key m)) (fun _ => True).
Proof.
  intros Hn Hm. apply runs_act; [done|]. intros g (Hs & H2 & H3). unfold Governor.with_record.
  destruct (OMap.find key (Governor.flows_ g)) as [rec|] eqn:Hf; [|done].
  destruct (Hm g rec) as (rec' & x & -> & Hrec'); [by apply (sd_records _ _ Hs)|].
  cbn [fst snd]. split; [|done].
  destruct Hs as [S1 S2 S3 S4 S5 S6 S7 S8 S9]. split; try done; simpl.
  - by apply sorted_set.
  - unfold Governor.flow_count in *. simpl. by erewrite size_set_found.
  - intros k y. rewrite find_set. destruct (OMap.key_eqb key k) eqn:E; [|by apply S5].
    apply OMap.key_eqb_eq in E as <-. by intros [= <-].
Qed.

Lemma runs_assign n key f :
  n <= GovernorConfig.max_flows c -> (forall r, rec_sound key r -> rec_sound key (f r)) ->
  runs n n (assign key f) (fun _ => True).
Proof. intros Hn Hf. apply runs_record; [done|]. intros g r Hr. eauto. Qed.
End hoare.

(** ** Reads in range *)

Lemma ranged_exact {A} ok f (m : M ByteReader.t A) : exact ok f m -> ranged ok m.
Proof. intros H r r' x Hr E. by destruct (exact_run _ _ _ H r r' x Hr E) as (? & ? & _). Qed.

Lemma ranged_u32 : ranged u32_ok need_u32.
Proof. apply (ranged_exact _ _ _ exact_u32). Qed.
Lemma ranged_u64 : ranged u64_ok need_u64.
Proof. apply (ranged_exact _ _ _ exact_u64). Qed.
Lemma ranged_bool : ranged (fun _ => True) need_bool.
Proof. apply (ranged_exact _ _ _ exact_bool). Qed.
Lemma ranged_count ceiling : ranged (fun n => 0 <= n <= ceiling) (read_count ceiling).
Proof. intros r r' n Hr E. by destruct (exact_count ceiling r r' n Hr E) as (? & _ & ? & _). Qed.
Lemma ranged_decode {A} `{Ranged A} : ranged wire_ok (decode (A:=A)).
Proof. apply ranged_law. Qed.
#[export] Hint Resolve ranged_u32 ranged_u64 ranged_bool ranged_count ranged_decode : codec.

(** ** The stages *)

Ltac run_read :=
  eapply runs_bind; [apply runs_read; [lia | eauto with codec typeclass_instances]|];
  let x := fresh "x" in let Hx := fresh "Hx" in intros x Hx; cbv beta in Hx.

Lemma sample_wire_ok (s : FlowSample.t) : wire_ok s -> sample_ok s.
Proof. intros (_ & _ & _ & _ & _ & ? & (? & ?) & ? & ? & _). by split. Qed.

Section stages.
Context (c : GovernorConfig.t) (i : GovernorIncarnation.t) (n : Z).
Hypothesis Hroom : 0 <= n <= GovernorConfig.max_flows c.
Abbreviation runs := (runs c i).

Ltac by_fields := intros g (Hs & Hc & Hi); split; [destruct Hs; by split|done].

Lemma runs_header : runs n n restore_header (fun _ => True).
Proof.
  unfold restore_header. do 2 run_read. do 2 (eapply runs_bind; [apply runs_guard; lia|]; intros _ _).
  do 7 run_read. eapply runs_bind; [apply runs_state|]. intros g Hg. cbv zeta.
  do 3 (eapply runs_bind; [apply runs_guard; lia|]; intros _ _). by apply runs_ret.
Qed.

Lemma runs_policy : runs n n restore_policy (fun _ => True).
Proof.
  unfold restore_policy. run_read.
  eapply runs_bind; [apply (runs_act _ _ n n); [lia|by_fields]|]. intros _ _.
  destruct x; [|by apply runs_ret]. run_read.
  eapply runs_bind; [apply runs_lift; lia|]. intros [] Hv.
  eapply runs_bind; [apply runs_lift; lia|]. intros rules Hr.
  apply runs_act; [lia|]. intros g (Hs & Hc & Hi). split; [|done].
  destruct Hs. split; try done. simpl. by intros p [= <-].
Qed.

Lemma runs_capacities : runs n n restore_capacities (fun _ => True).
Proof.
  unfold restore_capacities. run_read.
  eapply runs_bind; [apply (runs_act _ _ n n); [lia|]|].
  { intros g (Hs & Hc & Hi). split; [|done]. destruct Hs. split; try done. simpl. repeat constructor. }
  intros _ _. apply runs_times. run_read. apply runs_act; [lia|]. intros g (Hs & Hc & Hi).
  unfold on. pose proof (submit_wf x0 (Governor.capacities_ g) (sd_capacities _ _ Hs)) as Hw.
  simpl in Hw. destruct (CapacityTable.submit x0 _) as [t st]. cbn [fst] in *.
  split; [|done]. destruct Hs. by split.
Qed.

Lemma runs_paths : runs n n restore_paths (fun _ => True).
Proof.
  unfold restore_paths. run_read.
  eapply runs_bind; [apply (runs_act _ _ n n); [lia|]|].
  { intros g (Hs & Hc & Hi). split; [|done]. destruct Hs. split; try done. simpl. repeat constructor. }
  intros _ _. apply runs_times. run_read. apply runs_act; [lia|]. intros g (Hs & Hc & Hi).
  unfold on. pose proof (submit_wf x0 (Governor.paths_ g) (sd_paths _ _ Hs)) as Hw.
  simpl in Hw. destruct (PathTable.submit x0 _) as [t st]. cbn [fst] in *.
  split; [|done]. destruct Hs. by split.
Qed.

Lemma runs_sample key : runs n n (restore_sample key) (fun _ => True).
Proof.
  unfold restore_sample. run_read. apply runs_record; [lia|]. intros g r [R1 R2 R3 R4]. cbn [fst snd].
  pose proof (append_inv x _ R1 (sample_wire_ok x Hx)) as Ha.
  destruct (append_frame x (FlowRecord.ledger r)) as [Hf Hg].
  destruct (FlowLedger.append x _) as [l a]. cbn [fst] in *. eexists _, _. split; [done|].
  split; simpl; congruence || done.
Qed.

Lemma runs_completion key at_ : runs n n (restore_completion key at_) (fun _ => True).
Proof.
  apply runs_record; [lia|]. intros g r [R1 R2 R3 R4]. cbn [fst snd].
  pose proof (ledger_apply_inv (OpComplete at_) _ I R1) as Ha.
  destruct (mark_completed_frame at_ (FlowRecord.ledger r)) as [Hf Hg]. simpl in Ha.
  destruct (FlowLedger.mark_completed at_ _) as [l a]. cbn [fst] in *. eexists _, _. split; [done|].
  split; simpl; congruence || done.
Qed.

Lemma runs_transition key : runs n n (restore_transition key) (fun _ => True).
Proof.
  unfold restore_transition. run_read. apply runs_record; [lia|]. intros g r [R1 R2 R3 R4].
  cbn [fst snd]. pose proof (history_record_inv x _ R4) as Ha.
  destruct (ClassificationHistory.record x _) as [h a]. cbn [fst] in *. eexists _, _. split; [done|].
  by split.
Qed.

Lemma runs_intents : runs n n restore_intents (fun _ => True).
Proof.
  unfold restore_intents. eapply runs_bind; [apply runs_state|]. intros g0 Hg0. run_read.
  eapply runs_bind; [apply (runs_act _ _ n n); [lia|]|].
  { intros g (Hs & Hc & Hi). split; [|done]. destruct Hs. split; try done. apply intents_inv_make. }
  intros _ _. apply runs_times. unfold restore_intent. run_read. apply runs_act; [lia|].
  intros g (Hs & Hc & Hi). assert (Hid : u64_ok (GovernanceIntent.id x0)) by apply Hx0.
  pose proof (record_inv x0 (Governor.intents_ g) (sd_intents _ _ Hs) Hid) as Hw.
  unfold mbind, M_bind, on. destruct (IntentLedger.record x0 _) as [l [st|e]]; cbn [fst] in *;
    (split; [|done]); destruct Hs; by split.
Qed.
End stages.

Lemma sound_create flow generation n g :
  sound n g -> sound (n + 1) (Governor.create_flow flow generation g).
Proof.
  intros [S1 S2 S3 S4 S5 S6 S7 S8 S9]. unfold Governor.create_flow.
  set (r0 := FlowRecord.make _ _).
  assert (Hr0 : rec_sound (flow, generation) r0).
  { split; simpl; try done; [apply ledger_inv_make|apply history_inv_make]; simpl; lia. }
  split; try done; unfold Governor.flow_count in *; simpl;
    destruct (OMap.contains (flow, generation) (Governor.flows_ g)).
  - done.
  - by apply sorted_set.
  - lia.
  - pose proof (size_set (flow, generation) r0 (Governor.flows_ g)). lia.
  - apply S5.
  - intros k x. rewrite find_set. destruct (OMap.key_eqb _ k) eqn:E; [|apply S5].
    apply OMap.key_eqb_eq in E as <-. by intros [= <-].
Qed.

Section flows.
Context (c : GovernorConfig.t) (i : GovernorIncarnation.t).
Abbreviation runs := (runs c i).

Ltac run_assign :=
  eapply runs_bind; [apply runs_assign; [lia|let R := fresh in intros ? R; destruct R; by split]|];
  intros _ _.

Lemma runs_flow n : 0 <= n < GovernorConfig.max_flows c -> runs n (n + 1) restore_flow (fun _ => True).
Proof.
  intros Hn. unfold restore_flow. do 2 run_read. eapply runs_bind; [apply runs_guard; lia|].
  intros _ _. cbv zeta. set (key := (x, x0)).
  eapply runs_bind.
  { apply (runs_act _ _ n (n + 1)); [lia|]. intros g (Hs & Hc & Hi).
    split; [by apply sound_create|done]. }
  intros _ _. run_read.
  eapply (runs_bind _ _ _ _ _ _ _ (fun _ => True)).
  { destruct x1; [|by apply runs_ret]. apply runs_read; [lia|].
    intros r r' y Hr E. destruct (ranged_law (A:=FlowClassification.t) r r' y Hr E). done. }
  intros cls _. run_read. run_assign. run_read. run_assign. run_read. run_assign. run_read. run_assign.
  do 4 run_read. run_assign. run_read.
  eapply runs_bind; [apply runs_times, runs_sample; lia|]. intros _ _.
  eapply (runs_bind _ _ _ _ _ _ _ (fun _ => True)).
  { destruct x7; [apply runs_completion; lia|by apply runs_ret]. }
  intros _ _. run_read. eapply runs_bind; [apply runs_times, runs_transition; lia|]. intros _ _.
  do 2 run_read. eapply runs_bind; [apply runs_guard; lia|]. intros _ _.
  eapply runs_bind; [apply runs_state|]. intros g Hg.
  eapply runs_bind; [apply runs_guard; lia|]. intros _ _.
  destruct x1; [|by apply runs_ret]. apply runs_assign; [lia|]. intros r []. by split.
Qed.

Lemma runs_flow_loop k : forall n, 0 <= n -> n + Z.of_nat k <= GovernorConfig.max_flows c ->
  runs n (n + Z.of_nat k) (times k restore_flow) (fun _ => True).
Proof.
  induction k as [|k IH]; intros n Hn Hk; cbn [times].
  - replace (n + Z.of_nat 0) with n by lia. by apply runs_ret.
  - eapply runs_bind; [apply runs_flow; lia|]. intros _ _.
    replace (n + Z.of_nat (S k)) with (n + 1 + Z.of_nat k) by lia. apply IH; lia.
Qed.

Lemma runs_mono {A} n n1 n2 (m : MS A) Q : n1 <= n2 -> runs n n1 m Q -> runs n n2 m Q.
Proof.
  intros Hn Hm s Hs. specialize (Hm s Hs). destruct (m s) as [s1 [x|e]]; cbn [fst snd] in *; [|done].
  destruct Hm as [[Hr Hb] HQ]. split; [|done]. split; [by eapply rebuilding_mono|done].
Qed.

Lemma runs_flows n : 0 <= n <= GovernorConfig.max_flows c ->
  runs n (GovernorConfig.max_flows c) restore_flows (fun _ => True).
Proof.
  intros Hn. unfold restore_flows. eapply runs_bind; [apply runs_state|]. intros g (Hs & Hc & Hi).
  rewrite Hc. run_read. eapply runs_bind.
  { apply (runs_act _ _ n 0); [lia|]. intros g' (Hs' & Hc' & Hi'). split; [|done].
    destruct Hs'. split; try done. simpl. by constructor. }
  intros _ _. eapply runs_mono; [|apply runs_flow_loop; lia]. lia.
Qed.
End flows.

(** ** Resuming keeps the structure *)

Section resume.
Context (c : GovernorConfig.t) (i : GovernorIncarnation.t) (n : Z).
Abbreviation keeps m := (forall g, rebuilding n c i g -> rebuilding n c i (m g).1) (only parsing).

Lemma keeps_bind {A B} (m : M Governor.t A) (k : A -> M Governor.t B) :
  keeps m -> (forall x, keeps (k x)) -> keeps (m ≫= k).
Proof.
  intros Hm Hk g Hg. specialize (Hm g Hg). unfold mbind, M_bind.
  destruct (m g) as [g1 [x|e]]; [by apply Hk|done].
Qed.

Lemma keeps_each {A} (f : A -> M Governor.t unit) l :
  (forall x, keeps (f x)) -> keeps (for_each f l).
Proof.
  intros Hf. induction l as [|x l IH]; intros g Hg; [done|]. cbn [for_each].
  apply (keeps_bind (f x) (fun _ => for_each f l)); [apply Hf|intros _; exact IH|done].
Qed.

Lemma keeps_record {A} key (m : Governor.MR A) :
  (forall g r, rec_sound key r ->
     exists g' r' x, m (g, r) = ((g', r'), x) /\ same_core g g' /\
       Governor.intents_ g' = Governor.intents_ g /\ rec_sound key r') ->
  keeps (Governor.with_record key m).
Proof.
  intros Hm g (Hs & H2 & H3). unfold Governor.with_record.
  destruct (OMap.find key (Governor.flows_ g)) as [rec|] eqn:Hf; [|done].
  destruct (Hm g rec) as (g' & rec' & x & -> & Hc & Hi & Hrec'); [by apply (sd_records _ _ Hs)|].
  cbn [fst snd]. destruct Hc as [C1 C2 C3 C4 C5 C6 C7 C8 C9]. unfold rebuilding. simpl.
  rewrite C1, C2. split; [|done].
  destruct Hs as [S1 S2 S3 S4 S5 S6 S7 S8 S9].
  split; simpl; rewrite ?C1, ?C4, ?C6, ?C7, ?C8, ?Hi; try done.
  - by apply sorted_set.
  - unfold Governor.flow_count in *. simpl. rewrite C8. by erewrite size_set_found.
  - intros k y. rewrite find_set. destruct (OMap.key_eqb key k) eqn:E; [|by apply S5].
    apply OMap.key_eqb_eq in E as <-. by intros [= <-].
Qed.

Lemma keeps_resume now : keeps (resume_after_restore now).
Proof.
  unfold resume_after_restore. intros g0 Hg0. revert g0 Hg0.
  apply keeps_bind; [done|]. intros g0. cbv zeta.
  apply keeps_bind.
  { apply keeps_each. intros key. apply keeps_record. intros g r [R1 R2 R3 R4]. unfold demote_record.
    cbv zeta. destruct (negb _); [eexists _, _, _; split; [done|]; split_and!; [done..|by split]|].
    match goal with |- context [ClassificationHistory.record ?t ?h] =>
      pose proof (history_record_inv t h R4) as Hh; destruct (ClassificationHistory.record t h) as [h' [u|e]] end;
      eexists _, _, _; (split; [done|]); split_and!; (done || by split). }
  intros _. apply keeps_bind; [intros g (Hs & Hc & Hi); split; [destruct Hs; by split|done]|].
  intros _. apply keeps_bind.
  { apply keeps_each. intros key. apply keeps_record. intros g r [R1 R2 R3 R4]. unfold reindex.
    destruct (Governor.update_index key (g, r)) as [g' r'] eqn:E.
    apply update_index_frame in E as (Hc & [E1 E2 _ _ _ _ _ _ _] & Hi & _).
    eexists _, _, _. split; [done|]. split_and!; [done..|]. split; rewrite ?E1, ?E2; done. }
  intros _. apply keeps_bind.
  { intros g (Hs & Hc & Hi). unfold modify. cbn [fst].
    assert (Ht : intents_inv (fst (IntentLedger.revoke_all now IntentState.Fenced
      SuppressReason.AuthorityStale (Governor.intents_ g))))
      by (apply sweep_inv; [auto with efg|apply (sd_intents _ _ Hs)]).
    destruct (IntentLedger.revoke_all _ _ _ _) as [l k]. split; [destruct Hs; by split|done]. }
  intros _. apply keeps_bind; [intros g (Hs & Hc & Hi); split; [destruct Hs; by split|done]|].
  intros _. apply keeps_bind; [intros g (Hs & Hc & Hi); split; [destruct Hs; by split|done]|].
  intros _. apply keeps_bind.
  { intros g (Hs & Hc & Hi). unfold on. destruct (TickGuard.observe _ _).
    split; [destruct Hs; by split|done]. }
  intros _ g (Hs & Hc & Hi). split; [destruct Hs; by split|done].
Qed.
End resume.

(** ** Restoring *)

Lemma runs_deserialize now c i :
  1 <= GovernorConfig.max_flows c ->
  runs c i (GovernorConfig.max_flows c) (GovernorConfig.max_flows c) (deserialize now) (fun _ => True).
Proof.
  intros Hn. unfold deserialize. eapply runs_bind; [apply runs_header; lia|].
  intros [[tick_ seq] iseq] _. eapply runs_bind; [apply runs_policy; lia|]. intros _ _.
  eapply runs_bind; [apply runs_capacities; lia|]. intros _ _.
  eapply runs_bind; [apply runs_paths; lia|]. intros _ _.
  eapply runs_bind; [apply runs_flows; lia|]. intros _ _.
  eapply runs_bind; [apply runs_intents; lia|]. intros _ _.
  eapply runs_bind; [apply (runs_act _ _ _ (GovernorConfig.max_flows c)); [lia|]|].
  { intros g (Hs & Hc & Hi). split; [destruct Hs; by split|done]. }
  intros _ _. apply runs_act; [lia|]. apply keeps_resume.
Qed.

(** A restore that succeeds ends in a resumption that succeeds. *)
Lemma deserialize_resumes now g r g' r' :
  deserialize now (g, r) = ((g', r'), Val tt) -> exists g1, resumed g1 g'.
Proof.
  intros H. unfold deserialize in H.
  apply M_bind_Val in H as (s0 & [[t1 t2] t3] & _ & H).
  do 5 (apply M_bind_Val in H as (? & ? & _ & H)).
  apply M_bind_Val in H as ([g1 r1] & ? & _ & H). unfold act in H. destruct (resume_after_restore now g1) as [g2 res] eqn:E.
  apply pair_equal_spec in H as [H ->]. injection H as <- <-. exists g1. by eapply resume_spec.
Qed.

(** The bytes of the demo governor, and a governor of a later boot to restore them in. *)
Definition serialized (g : Governor.t) : list Z :=
  ByteWriter.buffer_ (fst (serialize g (ByteWriter.make 100000))).
Definition demo_bytes : list Z := Eval vm_compute in serialized demo_run.
Definition next_boot : BootIdentity.t := BootIdentity.mk 9 5 0 0.
Definition next_governor : Governor.t := Governor.set_incarnation next_boot (Governor.make demo_config).
Definition demo_restored : Governor.t :=
  Eval vm_compute in (deserialize 400 (next_governor, ByteReader.make demo_bytes)).1.1.
Lemma demo_restored_eq :
  deserialize 400 (next_governor, ByteReader.make demo_bytes) =
  ((demo_restored, ByteReader.mk demo_bytes (length demo_bytes)), Val tt).
Proof. vm_compute. reflexivity. Qed.

(** C8: Nothing restored keeps authority. Whatever bytes are restored, when
    [deserialize] succeeds every classified record is suspended with authority [None], bound to
    the boot and epoch of the new incarnation with its streaks cleared, and no intent of the
    ledger is live. *)
Theorem restore_withdraws_authority (now : Tick) (g g' : Governor.t) (r r' : ByteReader.t) :
  deserialize now (g, r) = ((g', r'), Val tt) ->
  (forall key rec, OMap.find key (Governor.flows_ g') = Some rec ->
     FlowRecord.has_classification rec = true ->
     let c := FlowRecord.classification rec in
     let boot := GovernorIncarnation.boot (Governor.incarnation_ g') in
     FlowClassification.state c = ElephantState.Suspended /\
     FlowClassification.authority c = AuthorityLevel.None /\
     AuthorityVector.boot (FlowClassification.authority_vector c) = BootIdentity.boot boot /\
     AuthorityVector.epoch (FlowClassification.authority_vector c) = BootIdentity.epoch boot /\
     FlowRecord.enter_streak rec = 0 /\ FlowRecord.exit_streak rec = 0) /\
  (forall id i, IntentLedger.find id (Governor.intents_ g') = Some i ->
     is_live (GovernanceIntent.state i) = false).
Proof.
  intros H. apply deserialize_resumes in H as (g1 & [_ _ Hd _ Hl]). split; [|exact Hl].
  intros key rec Hk Hh. by apply (Hd key rec Hk Hh).
Qed.

Lemma restore_withdraws_authority_witness :
  exists rec, OMap.find (7, 1) (Governor.flows_ demo_restored) = Some rec /\
    FlowRecord.has_classification rec = true /\
    FlowClassification.state (FlowRecord.classification rec) = ElephantState.Suspended.
Proof.
  destruct (OMap.find (7, 1) (Governor.flows_ demo_restored)) as [rec|] eqn:Hk;
    [|vm_compute in Hk; discriminate Hk].
  exists rec. assert (Hh : FlowRecord.has_classification rec = true)
    by (vm_compute in Hk; injection Hk as <-; reflexivity).
  split; [reflexivity|]. split; [exact Hh|].
  exact (proj1 (proj1 (restore_withdraws_authority 400 next_governor demo_restored
    (ByteReader.make demo_bytes) _ demo_restored_eq) (7, 1) rec Hk Hh)).
Defined.

(** C32: Restoring never breaks the governor's structure. Whatever bytes it is given, and
    whether it succeeds or returns early at any point of them, the population stays within its
    limit and in key order, every record is that of its key with a chained evidence ledger and
    a continuous history, both tables hold validated statements only, the policy in force is a
    valid one, the intent ledger keeps its invariant, and the configuration and the incarnation
    are those the governor had. *)
Theorem restore_keeps_structure (now : Tick) (g : Governor.t) (r : ByteReader.t) :
  gov_inv g -> bytes_left_ok r ->
  let g' := (deserialize now (g, r)).1.1 in
  sound (GovernorConfig.max_flows (Governor.config_ g)) g' /\
  Governor.config_ g' = Governor.config_ g /\ Governor.incarnation_ g' = Governor.incarnation_ g.
Proof.
  intros Hg Hr. cbv zeta. pose proof (gov_inv_sound g Hg) as Hs.
  pose proof (runs_deserialize now (Governor.config_ g) (Governor.incarnation_ g)
    (proj1 (gi_room g Hg)) (g, r) (conj (conj Hs (conj eq_refl eq_refl)) Hr)) as H.
  destruct (deserialize now (g, r)) as [s [x|e]]; cbn [fst snd] in H; [|exact H].
  by destruct H as [[H _] _].
Qed.

Lemma next_governor_inv : gov_inv next_governor.
Proof. apply steps_incarnation, gov_inv_make, demo_config_ok. Qed.

Lemma restore_keeps_structure_witness :
  sound 1 (deserialize 400 (next_governor, ByteReader.make demo_bytes)).1.1.
Proof.
  refine (proj1 (restore_keeps_structure 400 next_governor (ByteReader.make demo_bytes)
    next_governor_inv _)).
  unfold bytes_left_ok. apply (bool_decide_unpack _). vm_compute. reflexivity.
Defined.

(** The demo state with its last byte missing, and what is left of restoring it. *)
Definition torn_bytes : list Z := take (length demo_bytes - 1) demo_bytes.
Definition demo_rejected : Governor.t :=
  Eval vm_compute in (deserialize 400 (next_governor, ByteReader.make torn_bytes)).1.1.

(** A rejected restore is not undone. Restoring a state whose last byte is missing
    returns [Truncated], yet leaves the new governor with the stored policy installed and with
    the stored flow still an elephant with authority [Govern], neither demoted nor fenced: the
    demotion runs only after everything has been read. *)
Theorem rejected_restore_keeps_authority :
  exists r rec, deserialize 400 (next_governor, ByteReader.make torn_bytes) =
      ((demo_rejected, r), Err StatusCode.Truncated) /\
    Governor.policy_ demo_rejected = Governor.policy_ demo_run /\
    OMap.find (7, 1) (Governor.flows_ demo_rejected) = Some rec /\
    FlowClassification.state (FlowRecord.classification rec) = ElephantState.Elephant /\
    FlowClassification.authority (FlowRecord.classification rec) = AuthorityLevel.Govern.
Proof. eexists _, _. vm_compute. split_and!; reflexivity. Qed.

(** ** What a restart forgets *)

(** Restoring the state of [g] in a fresh governor of configuration [c]. *)
Definition restore_of (c : GovernorConfig.t) (g : Governor.t) : (Governor.t * ByteReader.t) * Status :=
  deserialize 2000 (Governor.set_incarnation next_boot (Governor.make c),
                    ByteReader.make (serialized g)).

Definition short_history : GovernorConfig.t :=
  demo_config <| GovernorConfig.max_history_per_flow := 1 |>.
Definition folded_run : Governor.t :=
  Eval vm_compute in gov_run demo_ops (Governor.make short_history).
Lemma folded_run_eq : gov_run demo_ops (Governor.make short_history) = folded_run.
Proof. vm_compute. reflexivity. Qed.

(** Evidence that arrives after the flow was marked completed. *)
Definition late_ops : list gov_op :=
  demo_ops ++ [CompleteFlow 7 1 310; SubmitEvidence (stream_sample 3 500)].
Definition late_run : Governor.t :=
  Eval vm_compute in gov_run late_ops (Governor.make demo_config).
Lemma late_run_eq : gov_run late_ops (Governor.make demo_config) = late_run.
Proof. vm_compute. reflexivity. Qed.

(** A governor can write a state it refuses to read back. Two governors reached by
    accepted operations alone serialize without error, and restoring their own bytes fails: one
    because a flow's history has outgrown its limit and folded its oldest transition
    ([Unsupported]), the other because a completed flow received later evidence, so that the
    completion is refused when it is replayed after the windows ([ContradictoryEvidence]). *)
Theorem own_snapshot_refused :
  snd (restore_of short_history (gov_run demo_ops (Governor.make short_history))) =
    Err StatusCode.Unsupported /\
  snd (restore_of demo_config (gov_run late_ops (Governor.make demo_config))) =
    Err StatusCode.ContradictoryEvidence.
Proof. rewrite folded_run_eq, late_run_eq. vm_compute. split; reflexivity. Qed.

(** A telemetry gap of one window in the demo stream. *)
Definition gap_config : GovernorConfig.t :=
  demo_config <| GovernorConfig.max_telemetry_gap_ticks := 10 |>.
Definition gap_ops : list gov_op := demo_ops ++ [SubmitEvidence (stream_sample 5 500)].
Definition gap_run : Governor.t := Eval vm_compute in gov_run gap_ops (Governor.make gap_config).
Lemma gap_run_eq : gov_run gap_ops (Governor.make gap_config) = gap_run.
Proof. vm_compute. reflexivity. Qed.

(** A second flow, for whose sake the completed first one is evicted. *)
Definition other_sample (n : Z) : FlowSample.t :=
  let s := stream_sample n 500 <| FlowSample.flow := 8 |> in
  s <| FlowSample.provenance ::= (fun p => p <| Provenance.digest := FlowSample.digest s |>) |>.
Definition evicted_ops : list gov_op :=
  demo_ops ++ [CompleteFlow 7 1 310; SubmitEvidence (other_sample 4)].
Definition evicted_run : Governor.t :=
  Eval vm_compute in gov_run evicted_ops (Governor.make demo_config).
Lemma evicted_run_eq : gov_run evicted_ops (Governor.make demo_config) = evicted_run.
Proof. vm_compute. reflexivity. Qed.
Definition roomy_config : GovernorConfig.t := demo_config <| GovernorConfig.max_flows := 2 |>.
Definition evicted_restored : Governor.t :=
  Eval vm_compute in (restore_of roomy_config evicted_run).1.1.
Lemma evicted_restored_eq : (restore_of roomy_config evicted_run).1.1 = evicted_restored.
Proof. vm_compute. reflexivity. Qed.

Definition gap_flags (g : Governor.t) : list bool :=
  (fun e => FlowLedger.gap_detected_ (FlowRecord.ledger e.2)) <$> Governor.flows_ g.

(** Two fences do not survive a restart. The gap flag of a flow is written but not
    read back, and replaying its windows cannot find the gap again, because the ledger keeps
    only the windows after it. The highest generation of an evicted flow is not written at
    all: evidence of a retired generation that the running governor refuses as stale is
    admitted, and re-creates the record, once the governor has been restored. *)
Theorem restart_forgets_fences :
  gap_flags gap_run = [true] /\ snd (restore_of gap_config gap_run) = Val tt /\
  gap_flags (restore_of gap_config gap_run).1.1 = [false] /\
  snd (Governor.submit_evidence (stream_sample 3 500) evicted_run) = Err StatusCode.Stale /\
  snd (restore_of roomy_config evicted_run) = Val tt /\
  OMap.contains (7, 1) (Governor.flows_ evicted_restored) = false /\
  OMap.contains (7, 1)
    (Governor.flows_ (gov_apply (SubmitEvidence (stream_sample 3 500)) evicted_restored)) = true.
Proof. vm_compute. split_and!; reflexivity. Qed.
