(* ===== verification/SnapshotFacts.v ===== *)
(** * The snapshot round trip

    What [serialize] writes, [deserialize] turns back: a governor of a later boot that reads the
    snapshot of another one has its policy, its tables, its flows with their evidence and their
    histories, and its intents; what it does not take over is authority. The calculus of the
    first section follows the bytes and the governor through the statements of both
    functions. *)
From Stdlib Require Import Sorted.
From S2P Require Import Prelude Status Checked Tri Tick Hash OMap Flow Tables Policy Impact Classification Intervention InterventionFacts Governor GovernorFacts GovernorIntents GovernorRuns Codec CodecFacts Restore RestoreFacts.

Lemma chain_digest_range trs d : u64_ok d -> u64_ok (foldl ClassificationHistory.chain_digest d trs).
Proof.
  revert d. induction trs as [|tr trs IH]; intros d Hd; [exact Hd|]. cbn [foldl]. apply IH.
  unfold ClassificationHistory.chain_digest. apply digest_range.
Qed.

#[local] Opaque Hasher.digest_of ClassificationHistory.chain_digest GovernanceIntent.compute_digest FlowClassification.compute_digest.

(** ** Maps built in key order *)

Section omap_order.
Context {K V : Type} `{OrdKey K}.
Implicit Types (m : omap_t K V) (k : K) (v : V).

Lemma set_twice k v v' m : OMap.set k v' (OMap.set k v m) = OMap.set k v' m.
Proof.
  induction m as [|[k0 v0] m IH]; cbn [OMap.set]; [by rewrite OMap.key_cmp_refl|].
  destruct (key_cmp k k0) eqn:E; cbn [OMap.set]; rewrite ?OMap.key_cmp_refl, ?E; [done..|]. by rewrite IH.
Qed.

Lemma sorted_app_lt m k v rest k0 v0 :
  OMap.sorted (m ++ (k, v) :: rest) -> (k0, v0) ∈ m -> key_cmp k0 k = Lt.
Proof.
  unfold OMap.sorted. induction m as [|e m IH]; cbn [app]; intros Hs Hin; [by apply elem_of_nil in Hin|].
  inversion Hs as [|? ? Hs' Hall]; subst. apply elem_of_cons in Hin as [<-|Hin]; [|by apply IH].
  rewrite Forall_forall in Hall. apply (Hall (k, v)). apply elem_of_app. right. by constructor.
Qed.

Lemma set_snoc m k v v0 rest : OMap.sorted (m ++ (k, v0) :: rest) -> OMap.set k v m = m ++ [(k, v)].
Proof.
  induction m as [|[k0 v1] m IH]; intros Hs; [done|]. cbn [OMap.set app].
  assert (E : key_cmp k0 k = Lt) by (eapply (sorted_app_lt ((k0, v1) :: m)); [exact Hs|by constructor]).
  rewrite key_cmp_anti, E. cbn [CompOpp]. rewrite IH; [done|]. by inversion Hs.
Qed.

Lemma find_fresh m k v rest : OMap.sorted (m ++ (k, v) :: rest) -> OMap.find k m = None.
Proof.
  intros Hs. destruct (OMap.find k m) as [v0|] eqn:E; [|done]. apply find_elem_of in E.
  pose proof (sorted_app_lt m k v rest k v0 Hs E) as Hlt. by rewrite OMap.key_cmp_refl in Hlt.
Qed.
End omap_order.

(** ** Statements that read back *)

(** On the bytes [fs] writes, [m] answers [x] and takes the governor from [g] to [g']. *)
Definition restores {A} (fs : list (ByteWriter.t -> ByteWriter.t)) (m : MS A) (g g' : Governor.t) (x : A) : Prop :=
  exists bs, writes (emit fs) bs /\
    forall r tail, rest r = bs ++ tail -> exists r', m (g, r) = ((g', r'), Val x) /\ rest r' = tail.

Lemma restores_ret {A} (x : A) g : restores [] (mret x) g g x.
Proof. exists []. split; [apply writes_nil|]. intros r tail E. by exists r. Qed.

Lemma restores_bind {A B} fs gs (m : MS A) (k : A -> MS B) g g1 g2 v x :
  restores fs m g g1 v -> restores gs (k v) g1 g2 x -> restores (fs ++ gs) (m ≫= k) g g2 x.
Proof.
  intros (bs & Hw & Hm) (cs & Hw' & Hk). exists (bs ++ cs). split; [by apply writes_app|].
  intros r tail E. rewrite <- app_assoc in E. destruct (Hm r _ E) as (r1 & E1 & Hr1).
  unfold mbind, M_bind. rewrite E1. by apply Hk.
Qed.

Lemma restores_read {A} f (m : M ByteReader.t A) x g : carries f m x -> restores [f] (read m) g g x.
Proof.
  intros (bs & Hw & Hp). exists bs. split; [exact Hw|]. intros r tail E.
  destruct (parses_all _ _ _ Hp r tail E) as (r' & Er & Hr). exists r'. unfold read. by rewrite Er.
Qed.

Lemma restores_act {A} (m : M Governor.t A) g g' x : m g = (g', Val x) -> restores [] (act m) g g' x.
Proof.
  intros E. exists []. split; [apply writes_nil|]. intros r tail Er. exists r. unfold act. by rewrite E.
Qed.

(** The forms in which the code uses them. *)
Lemma restores_read_bind {A B} f fs (m : M ByteReader.t A) (k : A -> MS B) v g g' x :
  carries f m v -> restores fs (k v) g g' x -> restores (f :: fs) (read m ≫= k) g g' x.
Proof. intros Hc Hk. change (f :: fs) with ([f] ++ fs). eapply restores_bind; [by apply restores_read|exact Hk]. Qed.

Lemma restores_act_bind {A B} fs (m : M Governor.t A) (k : A -> MS B) v g g1 g' x :
  m g = (g1, Val v) -> restores fs (k v) g1 g' x -> restores fs (act m ≫= k) g g' x.
Proof. intros E Hk. change fs with ([] ++ fs). eapply restores_bind; [by apply restores_act|exact Hk]. Qed.

Lemma restores_lift_bind {A B} fs (s : StatusOr A) (k : A -> MS B) v g g' x :
  s = Val v -> restores fs (k v) g g' x -> restores fs (lift s ≫= k) g g' x.
Proof.
  intros -> Hk. change fs with ([] ++ fs). eapply restores_bind; [|exact Hk].
  exists []. split; [apply writes_nil|]. intros r tail E. by exists r.
Qed.

Lemma restores_guard_bind {B} fs b c (k : unit -> MS B) g g' x :
  b = false -> restores fs (k tt) g g' x -> restores fs (guard b c ≫= k) g g' x.
Proof. intros -> Hk. by eapply restores_lift_bind. Qed.

Lemma restores_state_bind {B} fs (k : Governor.t -> MS B) g g' x :
  restores fs (k g) g g' x -> restores fs (state ≫= k) g g' x.
Proof.
  intros Hk. change fs with ([] ++ fs). eapply restores_bind; [|exact Hk].
  exists []. split; [apply writes_nil|]. intros r tail E. by exists r.
Qed.

(** The last statement of a sequence. *)
Lemma restores_last {A} fs (m : MS A) g g' x : restores (fs ++ []) m g g' x -> restores fs m g g' x.
Proof. by rewrite app_nil_r. Qed.

(** A loop: [after past] is the governor once the items [past] were read. *)
Lemma restores_times {X} (stmts : X -> list (ByteWriter.t -> ByteWriter.t)) (body : MS unit)
    (after : list X -> Governor.t) xs :
  (forall past x rest, xs = past ++ x :: rest -> restores (stmts x) body (after past) (after (past ++ [x])) tt) ->
  restores (mjoin (stmts <$> xs)) (times (length xs) body) (after []) (after xs) tt.
Proof.
  intros Hstep. assert (H : forall todo past, xs = past ++ todo ->
    restores (mjoin (stmts <$> todo)) (times (length todo) body) (after past) (after xs) tt).
  { induction todo as [|x todo IH]; intros past E.
    - rewrite app_nil_r in E. subst past. apply restores_ret.
    - change (mjoin (stmts <$> x :: todo)) with (stmts x ++ mjoin (stmts <$> todo)). cbn [length times].
      eapply restores_bind; [by eapply Hstep|]. cbn beta. apply IH. by rewrite <- app_assoc. }
  by apply (H xs []).
Qed.

Lemma one_each {A} (f : A -> ByteWriter.t -> ByteWriter.t) xs : mjoin ((fun x => [f x]) <$> xs) = f <$> xs.
Proof. induction xs as [|x xs IH]; [done|]. cbn [fmap list_fmap mjoin list_join app]. f_equal. exact IH. Qed.

(** A list of encoded items, read back one by one. *)
Lemma restores_items {X} `{RoundTrips X} (body : X -> MS unit) (after : list X -> Governor.t) xs :
  Forall wire_ok xs ->
  (forall past x rest, xs = past ++ x :: rest -> restores [] (body x) (after past) (after (past ++ [x])) tt) ->
  restores (encode <$> xs) (times (length xs) (read decode ≫= body)) (after []) (after xs) tt.
Proof.
  intros Hok Hstep. rewrite <- one_each. apply restores_times. intros past x rest ->.
  apply Forall_app in Hok as [_ Hok]. apply Forall_cons in Hok as [Hx _].
  eapply restores_read_bind; [by apply round_trips|]. by eapply Hstep.
Qed.

(** ** Policy and tables *)

Lemma restores_policy (p : option PolicyDocument.t) exit_rules g :
  (forall q, p = Some q -> wire_ok q /\ PolicyDocument.validate q = Val tt /\ effective_exit_rule q = Val exit_rules) ->
  (p = None -> exit_rules = RuleSet.default) ->
  restores (put_option p) restore_policy g
    (g <| Governor.policy_ := p |> <| Governor.exit_rules_ := exit_rules |>) tt.
Proof.
  intros Hp Hn. unfold restore_policy. destruct p as [q|]; cbn [put_option].
  - destruct (Hp q eq_refl) as (Hw & Hv & He). eapply restores_read_bind; [apply carries_bool|].
    eapply restores_act_bind; [reflexivity|]. cbn beta iota. eapply restores_read_bind; [by apply round_trips|].
    eapply restores_lift_bind; [exact Hv|]. eapply restores_lift_bind; [exact He|]. by apply restores_act.
  - rewrite (Hn eq_refl). eapply restores_read_bind; [apply carries_bool|].
    eapply restores_act_bind; [reflexivity|]. apply restores_ret.
Qed.

(** What a table lists is what it holds. *)
Lemma found_entries {K V} `{OrdKey K} (m : omap_t K V) : OMap.sorted m ->
  found (fun k => OMap.find k m) (OMap.keys m) = m.*2.
Proof.
  intros Hs. assert (H1 : forall past todo, m = past ++ todo -> found (fun k => OMap.find k m) (OMap.keys todo) = todo.*2).
  { intros past todo. revert past. induction todo as [|[k v] todo IH]; intros past E; [done|].
    unfold found in *. cbn [OMap.keys fmap list_fmap fst omap list_omap]. 
    assert (Hk : OMap.find k m = Some v).
    { rewrite E. rewrite E in Hs. pose proof (find_fresh _ _ _ _ Hs) as Hn. clear -Hn.
      induction past as [|[k0 v0] past IH]; cbn [app OMap.find] in *; [by rewrite OMap.key_eqb_refl|].
      destruct (OMap.key_eqb k k0); [done|by apply IH]. }
    rewrite Hk. cbn [snd]. f_equal. apply (IH (past ++ [(k, v)])). by rewrite <- app_assoc. }
  by apply (H1 []).
Qed.

(** The entries of a table are filed under their identifiers. *)
Lemma filed {E} (id_of : E -> Z) (m : omap_t Z E) : Forall (fun kv => id_of kv.2 = kv.1) m ->
  (fun e => (id_of e, e)) <$> m.*2 = m.
Proof.
  induction 1 as [|[k e] m Hk _ IH]; [done|]. cbn [fmap list_fmap snd]. f_equal; [|exact IH]. cbn in Hk. by rewrite Hk.
Qed.

(** A table rebuilt statement by statement, in key order. *)
Lemma restores_table {E} `{RoundTrips E} (id_of : E -> Z) (validate_of : E -> Status)
    (holding : omap_t Z E -> Governor.t) (submit : E -> M Governor.t unit) (m : omap_t Z E) :
  entries_wf id_of validate_of m -> Forall wire_ok m.*2 ->
  (forall past e, validate_of e = Val tt -> OMap.find (id_of e) past = None -> size_of past < size_of m ->
     submit e (holding past) = (holding (OMap.set (id_of e) e past), Val tt)) ->
  restores (encode <$> found (fun k => OMap.find k m) (OMap.keys m))
    (times (Z.to_nat (size_of m)) (e ← read decode; act (submit e))) (holding []) (holding m) tt.
Proof.
  intros [Hs Hall] Hw Hsub. rewrite found_entries by done.
  assert (Hfile : (fun e => (id_of e, e)) <$> m.*2 = m)
    by (apply filed; eapply Forall_impl; [exact Hall|]; by intros kv []).
  replace (Z.to_nat (size_of m)) with (length m.*2) by (rewrite length_fmap; unfold size_of; lia).
  rewrite <- Hfile at 3. change (holding []) with (holding ((fun e => (id_of e, e)) <$> [])).
  apply (restores_items (fun e => act (submit e)) (fun past => holding ((fun e => (id_of e, e)) <$> past))); [done|].
  intros past e todo Em. apply restores_act.
  rewrite Em, fmap_app in Hfile. cbn [fmap list_fmap] in Hfile. rewrite <- Hfile in Hs, Hall, Hsub.
  apply Forall_app in Hall as [_ Hall]. apply Forall_cons in Hall as [[Hv _] _]. cbn [snd] in Hv.
  rewrite Hsub; [|done|by eapply find_fresh|].
  - by rewrite (set_snoc _ _ _ _ _ Hs), fmap_app.
  - rewrite size_of_app. unfold size_of. cbn [length]. lia.
Qed.

Lemma restores_capacities (tbl : CapacityTable.t) g :
  tbl_wf tbl -> Forall wire_ok (CapacityTable.entries_ tbl).*2 -> size_of (CapacityTable.entries_ tbl) <= kMaxResources ->
  restores (put_count (CapacityTable.entries_ tbl) ::
            (encode <$> found (fun r => CapacityTable.find r tbl) (OMap.keys (CapacityTable.entries_ tbl))))
    restore_capacities g (g <| Governor.capacities_ := CapacityTable.mk kMaxResources (CapacityTable.entries_ tbl) |>) tt.
Proof.
  intros Hwf Hw Hn. eapply restores_read_bind; [by apply carries_count|]. eapply restores_act_bind; [reflexivity|]. cbn beta.
  apply (restores_table ResourceCapacity.resource ResourceCapacity.validate
    (fun m => g <| Governor.capacities_ := CapacityTable.mk kMaxResources m |>)
    (fun c => on Governor.capacities_ (CapacityTable.submit c))); [exact Hwf|exact Hw|].
  intros past e Hv Hf Hlt. unfold on, CapacityTable.submit. rewrite Hv. cbn [Governor.capacities_ CapacityTable.entries_ update]. rewrite Hf.
  unfold CapacityTable.size. cbn [CapacityTable.entries_ CapacityTable.max_resources]. by replace (_ >=? _) with false by lia.
Qed.

Lemma restores_paths (tbl : PathTable.t) g :
  tbl_wf tbl -> Forall wire_ok (PathTable.entries_ tbl).*2 -> size_of (PathTable.entries_ tbl) <= kMaxPaths ->
  restores (put_count (PathTable.entries_ tbl) ::
            (encode <$> found (fun p => PathTable.find p tbl) (OMap.keys (PathTable.entries_ tbl))))
    restore_paths g (g <| Governor.paths_ := PathTable.mk kMaxPaths kMaxResourcesPerPath (PathTable.entries_ tbl) |>) tt.
Proof.
  intros Hwf Hw Hn. eapply restores_read_bind; [by apply carries_count|]. eapply restores_act_bind; [reflexivity|]. cbn beta.
  apply (restores_table PathDescriptor.path PathDescriptor.validate
    (fun m => g <| Governor.paths_ := PathTable.mk kMaxPaths kMaxResourcesPerPath m |>)
    (fun p => on Governor.paths_ (PathTable.submit p))); [exact Hwf|exact Hw|].
  intros past e Hv Hf Hlt. unfold on, PathTable.submit. rewrite Hv. cbn [Governor.paths_ PathTable.entries_ PathTable.max_resources_per_path update].
  assert (Hr : size_of (PathDescriptor.resources e) >? kMaxResourcesPerPath = false).
  { unfold PathDescriptor.validate in Hv. by inv_status Hv. }
  rewrite Hr, Hf. unfold PathTable.size. cbn [PathTable.entries_ PathTable.max_paths]. by replace (_ >=? _) with false by lia.
Qed.

(** ** Evidence ledgers *)

(** The ledger that results from appending [ss] to [l0]. *)
Definition replayed (l0 : FlowLedger.t) (ss : list FlowSample.t) : FlowLedger.t :=
  foldl (fun l s => fst (FlowLedger.append s l)) l0 ss.

(** The volume ceilings of the ledger admit [s]. *)
Definition within_ceilings (limits : LedgerLimits.t) (s : FlowSample.t) : Prop :=
  (LedgerLimits.max_bytes_per_window limits = 0 \/
   FlowSample.window_bytes s <= LedgerLimits.max_bytes_per_window limits) /\
  (LedgerLimits.max_cumulative_bytes limits = 0 \/
   FlowSample.cumulative_bytes s <= LedgerLimits.max_cumulative_bytes limits).

(** A ledger without windows has never had one. *)
Definition fresh_or_running (l : FlowLedger.t) : Prop :=
  FlowLedger.samples_ l = [] -> FlowLedger.generation_cumulative_ l = 0.

(** A window that follows the newest one is accepted, and restarts nothing. *)
Lemma append_continues s l :
  ledger_inv l -> fresh_or_running l -> sample_ok s -> FlowSample.validate s = Val tt ->
  FlowSample.flow s = FlowLedger.flow_ l -> FlowSample.flow_generation s = FlowLedger.generation_ l ->
  (forall a, list.last (FlowLedger.samples_ l) = Some a -> follows a s) ->
  within_ceilings (FlowLedger.limits_ l) s ->
  FlowLedger.append s l = (FlowLedger.retain s l, Val AppendOutcome.Accepted).
Proof.
  intros Hinv Hfr Hok Hv Hf Hg Hfol [Hw Hc].
  assert (Hceil : (negb (LedgerLimits.max_bytes_per_window (FlowLedger.limits_ l) =? 0) &&
      (FlowSample.window_bytes s >? LedgerLimits.max_bytes_per_window (FlowLedger.limits_ l)) = false) /\
    (negb (LedgerLimits.max_cumulative_bytes (FlowLedger.limits_ l) =? 0) &&
      (FlowSample.cumulative_bytes s >? LedgerLimits.max_cumulative_bytes (FlowLedger.limits_ l)) = false))
    by (split; apply andb_false_iff; rewrite negb_false_iff, Z.eqb_eq; [destruct Hw|destruct Hc]; auto; right; lia).
  unfold FlowLedger.append. rewrite Hf, Hg, !Z.eqb_refl, Hv. cbn [negb orb].
  unfold FlowLedger.is_replay, FlowLedger.check_order, FlowLedger.restart_epoch.
  rewrite (li_previous _ Hinv). destruct (list.last (FlowLedger.samples_ l)) as [a|] eqn:Ea.
  - assert (Hne : bool_decide (FlowLedger.samples_ l = []) = false) by (destruct (FlowLedger.samples_ l); done).
    destruct (li_last _ Hinv a Ea) as (-> & -> & -> & -> & -> & -> & -> & _).
    destruct (Hfol a eq_refl) as [F1 F2 F3 F4 F5].
    assert (Hin : sample_ok a).
    { pose proof (li_samples _ Hinv) as Hall. rewrite Forall_forall in Hall.
      apply last_Some_elem_of in Ea. by apply Hall in Ea as [? _]. }
    rewrite Hne, F1, F4, F5, !Z.eqb_refl. cbn [negb andb orb].
    replace (FlowSample.window_sequence s =? FlowSample.window_sequence a) with false by lia.
    replace (FlowSample.window_sequence s <=? FlowSample.window_sequence a) with false by lia.
    rewrite Z.ltb_irrefl, wrap_small by (destruct Hok, Hin; ulia).
    replace (FlowSample.cumulative_bytes s - FlowSample.cumulative_bytes a =? FlowSample.window_bytes s) with true by lia.
    destruct Hok as [_ _ _ Hwb _].
    replace (FlowSample.cumulative_bytes s <? FlowSample.cumulative_bytes a) with false by ulia.
    cbn. destruct Hceil as [-> ->]. done.
  - assert (Hnil : FlowLedger.samples_ l = []) by (by apply last_None).
    rewrite (bool_decide_eq_true_2 _ Hnil). cbn [negb andb].
    rewrite (Hfr Hnil). replace (FlowSample.cumulative_bytes s <? 0) with false by (destruct Hok; ulia).
    destruct Hceil as [-> ->]. done.
Qed.

(** What [append] leaves of a ledger that is being rebuilt. *)
Record rebuilt (l0 : FlowLedger.t) (past : list FlowSample.t) (l : FlowLedger.t) : Prop := {
  rb_inv : ledger_inv l;
  rb_samples : FlowLedger.samples_ l = past;
  rb_fresh : fresh_or_running l;
  rb_flow : FlowLedger.flow_ l = FlowLedger.flow_ l0;
  rb_generation : FlowLedger.generation_ l = FlowLedger.generation_ l0;
  rb_limits : FlowLedger.limits_ l = FlowLedger.limits_ l0;
  rb_completed : FlowLedger.completed_ l = FlowLedger.completed_ l0;
  rb_completed_at : FlowLedger.completed_at_ l = FlowLedger.completed_at_ l0;
  rb_dropped : FlowLedger.dropped_windows_ l = FlowLedger.dropped_windows_ l0;
  rb_gap : FlowLedger.gap_detected_ l = FlowLedger.gap_detected_ l0;
  rb_path : FlowLedger.path_changed_ l = FlowLedger.path_changed_ l0 }.

(** The windows a ledger retains can be appended to an empty one with the same limits. *)
Record appendable (l0 : FlowLedger.t) (ss : list FlowSample.t) : Prop := {
  ap_samples : Forall (fun s => sample_ok s /\ FlowSample.validate s = Val tt /\
    FlowSample.flow s = FlowLedger.flow_ l0 /\ FlowSample.flow_generation s = FlowLedger.generation_ l0 /\
    within_ceilings (FlowLedger.limits_ l0) s) ss;
  ap_chained : chained ss;
  ap_size : size_of ss <= LedgerLimits.max_samples (FlowLedger.limits_ l0) }.

Lemma chained_app_last past s rest a : chained (past ++ s :: rest) -> list.last past = Some a -> follows a s.
Proof.
  induction past as [|x [|y past] IH]; cbn [app]; intros Hc Hl; [done| |].
  - injection Hl as <-. apply Hc.
  - apply IH; [apply Hc|exact Hl].
Qed.

Lemma replay_step l0 past s rest l :
  appendable l0 (past ++ s :: rest) -> rebuilt l0 past l ->
  exists l', FlowLedger.append s l = (l', Val AppendOutcome.Accepted) /\ rebuilt l0 (past ++ [s]) l'.
Proof.
  intros [Hall Hch Hsz] [R1 R2 R3 R4 R5 R6 R7 R8 R9 R10 R11].
  apply Forall_app in Hall as [_ Hall]. apply Forall_cons in Hall as [(Hok & Hv & Hf & Hg & Hw) _].
  assert (Hfol : forall a, list.last (FlowLedger.samples_ l) = Some a -> follows a s)
    by (rewrite R2; intros a Ha; by eapply chained_app_last).
  exists (FlowLedger.retain s l). split; [apply append_continues; congruence || done|].
  assert (Hroom : size_of (FlowLedger.samples_ l) >=? LedgerLimits.max_samples (FlowLedger.limits_ l) = false).
  { rewrite R2, R6. rewrite size_of_app in Hsz. unfold size_of in *. cbn [length] in Hsz. lia. }
  pose proof (retain_inv s l R1 Hok Hv (eq_trans Hf (eq_sym R4)) (eq_trans Hg (eq_sym R5)) Hfol) as Hinv.
  unfold FlowLedger.retain in *. rewrite Hroom in *.
  split; [exact Hinv|..]; simpl; try done; [by rewrite R2|].
  unfold fresh_or_running. simpl. by destruct (FlowLedger.samples_ l).
Qed.

Lemma replayed_rebuilt l0 ss : appendable l0 ss -> rebuilt l0 [] l0 ->
  forall past rest, ss = past ++ rest -> rebuilt l0 past (replayed l0 past).
Proof.
  intros Ha H0 past. induction past as [|s past IH] using rev_ind; intros rest E; [exact H0|].
  rewrite <- app_assoc in E. cbn [app] in E. unfold replayed in *. rewrite foldl_app. cbn [foldl]. subst ss.
  destruct (replay_step l0 past s rest _ Ha (IH _ eq_refl)) as (l' & -> & Hl'). exact Hl'.
Qed.

Lemma replayed_accepts l0 ss past s rest : appendable l0 ss -> rebuilt l0 [] l0 -> ss = past ++ s :: rest ->
  FlowLedger.append s (replayed l0 past) = (replayed l0 (past ++ [s]), Val AppendOutcome.Accepted).
Proof.
  intros Ha H0 E. pose proof (replayed_rebuilt l0 ss Ha H0 past _ E) as Hr. subst ss.
  destruct (replay_step l0 past s rest _ Ha Hr) as (l' & El & _).
  replace (replayed l0 (past ++ [s])) with (fst (FlowLedger.append s (replayed l0 past)))
    by (unfold replayed; by rewrite foldl_app). by rewrite El.
Qed.

Lemma rebuilt_make flow generation limits : 0 <= LedgerLimits.max_samples limits ->
  rebuilt (FlowLedger.make flow generation limits) [] (FlowLedger.make flow generation limits).
Proof. intros Hn. split; try done. by apply ledger_inv_make. Qed.

(** ** Histories *)

Definition rerecorded (h0 : ClassificationHistory.t) (trs : list ClassificationTransition.t) : ClassificationHistory.t :=
  h0 <| ClassificationHistory.entries_ := trs |>
     <| ClassificationHistory.digest_ := foldl ClassificationHistory.chain_digest 0 trs |>.

Lemma continues_app_last past tr rest a : continues (past ++ tr :: rest) -> list.last past = Some a ->
  ClassificationTransition.from tr = ClassificationTransition.to a /\
  ClassificationTransition.at_ a <= ClassificationTransition.at_ tr.
Proof.
  induction past as [|x [|y past] IH]; cbn [app]; intros Hc Hl; [done| |].
  - injection Hl as <-. apply Hc.
  - apply IH; [apply Hc|exact Hl].
Qed.

Lemma check_continues tr h :
  (forall a, ClassificationHistory.latest h = Some a ->
     ClassificationTransition.from tr = ClassificationTransition.to a /\
     ClassificationTransition.at_ a <= ClassificationTransition.at_ tr) ->
  ClassificationHistory.check tr h = Val tt.
Proof.
  intros H. unfold ClassificationHistory.check. destruct (ClassificationHistory.latest h) as [a|]; [|done].
  destruct (H a eq_refl) as [-> Hle]. unfold ElephantState.eqb. rewrite bool_decide_eq_true_2 by done.
  by replace (_ <? _) with false by lia.
Qed.

Lemma record_continues h0 past tr rest :
  continues (past ++ tr :: rest) -> size_of (past ++ tr :: rest) <= ClassificationHistory.max_entries_ h0 ->
  ClassificationHistory.record tr (rerecorded h0 past) = (rerecorded h0 (past ++ [tr]), Val tt).
Proof.
  intros Hc Hs. unfold ClassificationHistory.record. rewrite check_continues
    by (intros a; apply (continues_app_last past tr rest a Hc)).
  unfold ClassificationHistory.size, rerecorded. simpl.
  rewrite size_of_app in Hs. unfold size_of in *. cbn [length] in Hs.
  replace (_ >=? _) with false by lia. simpl. rewrite foldl_app. cbv [update]. cbn. reflexivity.
Qed.

(** ** Flow records *)

(** The governor with [r] filed under [key] above the records [fl]. *)
Definition holding (g : Governor.t) (fl : omap_t FlowKey FlowRecord.t) (key : FlowKey) (r : FlowRecord.t) : Governor.t :=
  g <| Governor.flows_ := OMap.set key r fl |>.

Lemma with_record_holding {A} key (m : Governor.MR A) r r' x g fl :
  (forall g', m (g', r) = ((g', r'), Val x)) ->
  Governor.with_record key m (holding g fl key r) = (holding g fl key r', Val x).
Proof.
  intros Hm. unfold Governor.with_record, holding. simpl. rewrite OMap.find_set_eq, Hm.
  rewrite <- (set_twice key r r' fl). reflexivity.
Qed.

Lemma restores_record_bind {A B} fs key (m : Governor.MR A) (k : A -> MS B) r r' v g fl g' x :
  (forall g', m (g', r) = ((g', r'), Val v)) ->
  restores fs (k v) (holding g fl key r') g' x ->
  restores fs (act (Governor.with_record key m) ≫= k) (holding g fl key r) g' x.
Proof. intros Hm Hk. eapply restores_act_bind; [by apply with_record_holding|exact Hk]. Qed.

Lemma restores_assign_bind {B} fs key f (k : unit -> MS B) r g fl g' x :
  restores fs (k tt) (holding g fl key (f r)) g' x ->
  restores fs (assign key f ≫= k) (holding g fl key r) g' x.
Proof. intros Hk. unfold assign. eapply (restores_record_bind _ key _ _ r (f r) tt); [reflexivity|exact Hk]. Qed.

(** The record [deserialize] builds from what [flow_statements] wrote of [r]: the evidence is
    appended again and the history recorded again, under the limits of the new governor. *)
Definition empty_ledger (c : GovernorConfig.t) (key : FlowKey) : FlowLedger.t :=
  FlowLedger.make key.1 key.2 (Governor.ledger_limits c).
Definition empty_history (c : GovernorConfig.t) : ClassificationHistory.t :=
  ClassificationHistory.make (GovernorConfig.max_history_per_flow c).
Definition restored_ledger (c : GovernorConfig.t) (key : FlowKey) (l : FlowLedger.t) : FlowLedger.t :=
  let l' := replayed (empty_ledger c key) (FlowLedger.samples_ l) in
  if FlowLedger.completed_ l
  then l' <| FlowLedger.completed_ := true |> <| FlowLedger.completed_at_ := FlowLedger.completed_at_ l |>
  else l'.
Definition restored_record (c : GovernorConfig.t) (key : FlowKey) (r : FlowRecord.t) : FlowRecord.t :=
  FlowRecord.mk (restored_ledger c key (FlowRecord.ledger r))
    (rerecorded (empty_history c) (ClassificationHistory.transitions (FlowRecord.history r)))
    (if FlowRecord.has_classification r then FlowRecord.classification r else FlowClassification.default)
    (FlowRecord.enter_streak r) (FlowRecord.exit_streak r) (FlowRecord.has_classification r)
    (FlowRecord.evaluated_tick r) (FlowRecord.evaluated_window r) 0 0 false false
    (FlowRecord.completed_tick r).

(** The members of a record are in range, its windows and transitions fit the limits of [c], no
    window came after the completion and no transition was folded away. *)
Record replayable (c : GovernorConfig.t) (key : FlowKey) (r : FlowRecord.t) : Prop := {
  rp_key : u64_ok key.1 /\ u64_ok key.2 /\ id_valid key.1 = true /\ id_valid key.2 = true;
  rp_class : FlowRecord.has_classification r = true -> wire_ok (FlowRecord.classification r);
  rp_streaks : u32_ok (FlowRecord.enter_streak r) /\ u32_ok (FlowRecord.exit_streak r);
  rp_ticks : u64_ok (FlowRecord.evaluated_tick r) /\ u64_ok (FlowRecord.evaluated_window r) /\
    u64_ok (FlowRecord.completed_tick r) /\ u64_ok (FlowLedger.completed_at_ (FlowRecord.ledger r));
  rp_samples : Forall wire_ok (FlowLedger.samples_ (FlowRecord.ledger r)) /\
    size_of (FlowLedger.samples_ (FlowRecord.ledger r)) <= kMaxSamplesPerFlow;
  rp_appendable : appendable (empty_ledger c key) (FlowLedger.samples_ (FlowRecord.ledger r));
  rp_completion : FlowLedger.completed_ (FlowRecord.ledger r) = true ->
    forall s, list.last (FlowLedger.samples_ (FlowRecord.ledger r)) = Some s ->
      TickSpan.end_ (FlowSample.span s) <= FlowLedger.completed_at_ (FlowRecord.ledger r);
  rp_history : let trs := ClassificationHistory.transitions (FlowRecord.history r) in
    Forall wire_ok trs /\ continues trs /\ size_of trs <= kMaxHistoryPerFlow /\
    size_of trs <= ClassificationHistory.max_entries_ (empty_history c) /\
    ClassificationHistory.digest_ (FlowRecord.history r) = foldl ClassificationHistory.chain_digest 0 trs /\
    ClassificationHistory.folded_count_ (FlowRecord.history r) = 0 }.


Lemma restores_samples key l0 ss r g fl :
  appendable l0 ss -> rebuilt l0 [] l0 -> Forall wire_ok ss ->
  restores (encode <$> ss) (times (Z.to_nat (size_of ss)) (restore_sample key))
    (holding g fl key (r <| FlowRecord.ledger := l0 |>))
    (holding g fl key (r <| FlowRecord.ledger := replayed l0 ss |>)) tt.
Proof.
  intros Ha H0 Hw. replace (Z.to_nat (size_of ss)) with (length ss) by (unfold size_of; lia).
  change (holding g fl key (r <| FlowRecord.ledger := l0 |>)) with
    ((fun past => holding g fl key (r <| FlowRecord.ledger := replayed l0 past |>)) []).
  apply (restores_items _ (fun past => holding g fl key (r <| FlowRecord.ledger := replayed l0 past |>))); [done|].
  intros past s todo E. apply restores_act, with_record_holding. intros g'. simpl.
  rewrite (replayed_accepts l0 ss past s todo Ha H0 E). reflexivity.
Qed.

#[local] Opaque replayed.

Lemma restores_transitions key h0 trs r g fl :
  continues trs -> size_of trs <= ClassificationHistory.max_entries_ h0 -> Forall wire_ok trs ->
  restores (encode <$> trs) (times (Z.to_nat (size_of trs)) (restore_transition key))
    (holding g fl key (r <| FlowRecord.history := rerecorded h0 [] |>))
    (holding g fl key (r <| FlowRecord.history := rerecorded h0 trs |>)) tt.
Proof.
  intros Hc Hs Hw. replace (Z.to_nat (size_of trs)) with (length trs) by (unfold size_of; lia).
  apply (restores_items _ (fun past => holding g fl key (r <| FlowRecord.history := rerecorded h0 past |>))); [done|].
  intros past tr todo E. subst trs. apply restores_act, with_record_holding. intros g'.
  cbn [fst snd FlowRecord.history update]. rewrite (record_continues h0 past tr todo Hc Hs). reflexivity.
Qed.

Lemma restores_completion key l0 l r g fl (ss := FlowLedger.samples_ l) :
  rebuilt l0 ss (replayed l0 ss) -> FlowLedger.completed_ l0 = false ->
  (FlowLedger.completed_ l = true -> forall s, list.last ss = Some s ->
     TickSpan.end_ (FlowSample.span s) <= FlowLedger.completed_at_ l) ->
  restores []
    (if FlowLedger.completed_ l then restore_completion key (FlowLedger.completed_at_ l) else mret tt)
    (holding g fl key (r <| FlowRecord.ledger := replayed l0 ss |>))
    (holding g fl key (r <| FlowRecord.ledger :=
       if FlowLedger.completed_ l
       then replayed l0 ss <| FlowLedger.completed_ := true |> <| FlowLedger.completed_at_ := FlowLedger.completed_at_ l |>
       else replayed l0 ss |>)) tt.
Proof.
  intros Hr Hc Hend. destruct (FlowLedger.completed_ l); [|apply restores_ret].
  apply restores_act, with_record_holding. intros g'. unfold FlowLedger.mark_completed. simpl.
  rewrite (rb_completed _ _ _ Hr), Hc. rewrite (li_previous _ (rb_inv _ _ _ Hr)), (rb_samples _ _ _ Hr).
  assert (Hlate : negb (bool_decide (ss = [])) &&
    (FlowLedger.completed_at_ l <? FlowLedger.last_span_end_ (replayed l0 ss)) = false).
  { destruct (list.last ss) as [s|] eqn:El; [|by apply last_None in El as ->].
    rewrite <- (rb_samples _ _ _ Hr) in El. pose proof (li_last _ (rb_inv _ _ _ Hr) s El) as (_ & _ & -> & _).
    rewrite (rb_samples _ _ _ Hr) in El. specialize (Hend eq_refl s eq_refl). apply andb_false_iff. right. lia. }
  rewrite Hlate. reflexivity.
Qed.

Lemma restores_class (r : FlowRecord.t) g :
  (FlowRecord.has_classification r = true -> wire_ok (FlowRecord.classification r)) ->
  restores (if FlowRecord.has_classification r then [encode (FlowRecord.classification r)] else [])
    (if FlowRecord.has_classification r then read decode else mret FlowClassification.default) g g
    (if FlowRecord.has_classification r then FlowRecord.classification r else FlowClassification.default).
Proof.
  intros Hw. destruct (FlowRecord.has_classification r); [|apply restores_ret].
  apply restores_read, round_trips, Hw, eq_refl.
Qed.

Lemma put_option_class (r : FlowRecord.t) :
  put_option (if FlowRecord.has_classification r then Some (FlowRecord.classification r) else None) =
  put_bool (FlowRecord.has_classification r) ::
  (if FlowRecord.has_classification r then [encode (FlowRecord.classification r)] else []).
Proof. by destruct (FlowRecord.has_classification r). Qed.

(** The governor after the record of [key] was restored. *)
Definition with_restored (g : Governor.t) (key : FlowKey) (r : FlowRecord.t) : Governor.t :=
  holding (g <| Governor.highest_generation_ ::= OMap.set key.1 key.2 |>) (Governor.flows_ g) key
    (restored_record (Governor.config_ g) key r).

Lemma create_fresh flow generation g : OMap.find (flow, generation) (Governor.flows_ g) = None ->
  Governor.create_flow flow generation g =
  holding (g <| Governor.highest_generation_ ::= OMap.set flow generation |>) (Governor.flows_ g) (flow, generation)
    (FlowRecord.make (empty_ledger (Governor.config_ g) (flow, generation)) (empty_history (Governor.config_ g))).
Proof.
  intros Hf. assert (Hc : OMap.contains (flow, generation) (Governor.flows_ g) = false)
    by (unfold OMap.contains; by rewrite Hf).
  set (r := FlowRecord.make _ _). transitivity (
    g <| Governor.flows_ := if OMap.contains (flow, generation) (Governor.flows_ g) then Governor.flows_ g
                            else OMap.set (flow, generation) r (Governor.flows_ g) |>
      <| Governor.highest_generation_ ::= OMap.set flow generation |>); [reflexivity|].
  rewrite Hc. reflexivity.
Qed.

Ltac restore_u64 := eapply restores_read_bind; [apply carries_u64; assumption|].
Ltac restore_u32 := eapply restores_read_bind; [apply carries_u32; assumption|].
Ltac restore_assign := apply restores_assign_bind; cbn beta.

Lemma restores_flow g key r :
  0 <= GovernorConfig.samples_per_flow (Governor.config_ g) ->
  replayable (Governor.config_ g) key r -> OMap.find key (Governor.flows_ g) = None ->
  restores (flow_statements (key, r)) restore_flow g (with_restored g key r) tt.
Proof.
  intros Hlim [(K1 & K2 & K3 & K4) Hcls [S1 S2] (T1 & T2 & T3 & T4) [Hs Hss] Hap Hcomp Hh] Hfresh.
  cbv zeta in Hh. destruct Hh as (Hh & Hcont & Hh1 & Hh2 & Hd & Hf0).
  assert (H0 : rebuilt (empty_ledger (Governor.config_ g) key) [] (empty_ledger (Governor.config_ g) key))
    by (by apply rebuilt_make).
  destruct key as [flow generation]. unfold flow_statements. cbn [fst snd app] in *. cbv zeta.
  rewrite put_option_class. cbn [app]. unfold restore_flow.
  restore_u64. restore_u64. apply restores_guard_bind; [by rewrite K3, K4|]. cbv zeta.
  eapply (restores_act_bind _ _ _ tt); [reflexivity|]. cbn beta.
  rewrite create_fresh by done.
  eapply restores_read_bind; [apply carries_bool|].
  eapply restores_bind; [by apply restores_class|].
  restore_u32. restore_assign. restore_u32. restore_assign. restore_u64. restore_assign. restore_u64. restore_assign.
  restore_u64. eapply restores_read_bind; [apply carries_bool|]. restore_u64. eapply restores_read_bind; [apply carries_bool|].
  restore_assign. unfold put_list. cbn [app]. eapply restores_read_bind; [by apply carries_count|].
  pose (rec := fun l h => FlowRecord.mk l h FlowClassification.default (FlowRecord.enter_streak r)
    (FlowRecord.exit_streak r) false (FlowRecord.evaluated_tick r) (FlowRecord.evaluated_window r) 0 0 false false
    (FlowRecord.completed_tick r)).
  set (g1 := g <| Governor.highest_generation_ ::= OMap.set flow generation |>).
  set (l0 := empty_ledger _ _) in *. set (h0 := empty_history _) in *. set (ss := FlowLedger.samples_ _) in *.
  set (trs := ClassificationHistory.transitions _) in *.
  eapply restores_bind; [exact (restores_samples (flow, generation) l0 ss (rec l0 h0) g1 (Governor.flows_ g) Hap H0 Hs)|].
  cbn beta. change (put_count trs :: ?fs) with ([] ++ put_count trs :: fs).
  eapply restores_bind; [exact (restores_completion (flow, generation) l0 (FlowRecord.ledger r) (rec l0 h0) g1 (Governor.flows_ g)
    (replayed_rebuilt l0 ss Hap H0 ss [] (eq_sym (app_nil_r ss))) eq_refl Hcomp)|].
  cbn beta. eapply restores_read_bind; [by apply carries_count|].
  set (l1 := restored_ledger (Governor.config_ g) (flow, generation) (FlowRecord.ledger r)).
  eapply restores_bind; [exact (restores_transitions (flow, generation) h0 trs (rec l1 h0) g1 (Governor.flows_ g) Hcont Hh2 Hh)|].
  assert (Hdr : u64_ok (ClassificationHistory.digest_ (FlowRecord.history r)))
    by (rewrite Hd; apply chain_digest_range; ulia).
  cbn beta. restore_u64. rewrite Hf0. eapply restores_read_bind; [apply carries_u64; ulia|].
  apply restores_guard_bind; [done|]. apply restores_state_bind. apply restores_guard_bind.
  { unfold history_digest, holding. simpl. rewrite OMap.find_set_eq. simpl. rewrite Hd, Z.eqb_refl. done. }
  unfold with_restored. destruct (FlowRecord.has_classification r) eqn:Ehas.
  - apply restores_act. apply with_record_holding. intros g'. simpl. unfold restored_record. rewrite Ehas. reflexivity.
  - replace (restored_record (Governor.config_ g) (flow, generation) r) with (rec l1 (rerecorded h0 trs));
      [apply restores_ret|]. unfold restored_record. rewrite Ehas. reflexivity.
Qed.

(** ** The population *)

Lemma sorted_map_values {K V W} `{OrdKey K} (f : K -> V -> W) (m : omap_t K V) :
  OMap.sorted m -> OMap.sorted ((fun e => (e.1, f e.1 e.2)) <$> m).
Proof.
  unfold OMap.sorted. induction 1 as [|e m Hs IH Hall]; cbn [fmap list_fmap]; constructor; [exact IH|].
  apply Forall_fmap. exact Hall.
Qed.

Lemma find_map_values {K V W} `{OrdKey K} (f : K -> V -> W) (m : omap_t K V) k :
  OMap.find k ((fun e => (e.1, f e.1 e.2)) <$> m) = f k <$> OMap.find k m.
Proof.
  induction m as [|[k0 v0] m IH]; [done|]. cbn [fmap list_fmap OMap.find fst snd].
  destruct (OMap.key_eqb k k0) eqn:E; [by apply OMap.key_eqb_eq in E as ->|exact IH].
Qed.

Definition restored_flows (c : GovernorConfig.t) (fl : omap_t FlowKey FlowRecord.t) : omap_t FlowKey FlowRecord.t :=
  (fun e => (e.1, restored_record c e.1 e.2)) <$> fl.

(** The governor [g] once the entries [fl] were restored in it. *)
Definition with_flows (g : Governor.t) (fl : omap_t FlowKey FlowRecord.t) : Governor.t :=
  g <| Governor.flows_ := restored_flows (Governor.config_ g) fl |>
    <| Governor.highest_generation_ := foldl (fun m e => OMap.set e.1.1 e.1.2 m) [] fl |>
    <| Governor.binding_index_ := [] |> <| Governor.resource_aggregate_ := [] |>.

Lemma with_restored_snoc g past key r rest : OMap.sorted (past ++ (key, r) :: rest) ->
  with_restored (with_flows g past) key r = with_flows g (past ++ [(key, r)]).
Proof.
  intros Hs. apply (sorted_map_values (restored_record (Governor.config_ g))) in Hs. rewrite fmap_app in Hs.
  unfold with_restored, holding, with_flows, restored_flows. rewrite foldl_app, fmap_app.
  cbn [fmap list_fmap] in *. rewrite <- (set_snoc _ _ _ _ _ Hs). reflexivity.
Qed.

Lemma restores_flows g fl :
  GovernorConfig.max_flows (Governor.config_ g) < 2 ^ 32 -> 0 <= GovernorConfig.samples_per_flow (Governor.config_ g) ->
  OMap.sorted fl -> size_of fl <= GovernorConfig.max_flows (Governor.config_ g) ->
  Forall (fun e => replayable (Governor.config_ g) e.1 e.2) fl ->
  restores (put_count fl :: mjoin (flow_statements <$> fl)) restore_flows g (with_flows g fl) tt.
Proof.
  intros Hm Hsp Hs Hn Hall. apply restores_state_bind. eapply restores_read_bind; [by apply carries_count|].
  eapply (restores_act_bind _ _ _ tt); [reflexivity|]. cbn beta.
  replace (Z.to_nat (size_of fl)) with (length fl) by (unfold size_of; lia).
  apply (restores_times flow_statements restore_flow (with_flows g)). intros past [key r] rest ->.
  rewrite <- (with_restored_snoc g past key r rest Hs).
  apply Forall_app in Hall as [_ Hall]. apply Forall_cons in Hall as [Hr _].
  apply restores_flow; [exact Hsp|exact Hr|]. unfold with_flows, restored_flows. simpl.
  rewrite find_map_values, (find_fresh _ _ _ _ Hs). done.
Qed.

(** ** Intents *)

Definition rerecorded_intents (room : Z) (js : list GovernanceIntent.t) : IntentLedger.t :=
  foldl (fun l i => fst (IntentLedger.record i l)) (IntentLedger.make room kMaxAttempts) js.

Definition by_id (js : list GovernanceIntent.t) : omap_t IntentId GovernanceIntent.t :=
  (fun i => (GovernanceIntent.id i, i)) <$> js.

(** What [record] accepts as it stands. *)
Definition intent_ready (i : GovernanceIntent.t) : Prop :=
  wire_ok i /\ IntentLedger.check_intent i = Val tt /\
  GovernanceIntent.id i <> 0 /\ GovernanceIntent.id i <> u64_max /\
  GovernanceIntent.digest i = GovernanceIntent.compute_digest i.

Record recordable (room : Z) (js : list GovernanceIntent.t) : Prop := {
  rc_sorted : OMap.sorted (by_id js);
  rc_ready : Forall intent_ready js;
  rc_attempts : forall past i rest i0, js = past ++ i :: rest -> i0 ∈ past ->
    GovernanceIntent.attempt i0 <> GovernanceIntent.attempt i;
  rc_size : size_of js <= room /\ size_of js <= kMaxAttempts }.

Record ledger_rebuilt (room : Z) (past : list GovernanceIntent.t) (l : IntentLedger.t) : Prop := {
  lr_room : IntentLedger.max_intents l = room;
  lr_max_attempts : IntentLedger.max_attempts l = kMaxAttempts;
  lr_intents : IntentLedger.intents_ l = by_id past;
  lr_attempts : forall a k, OMap.find a (IntentLedger.attempts_ l) = Some k ->
    exists i, i ∈ past /\ GovernanceIntent.attempt i = a;
  lr_size : size_of (IntentLedger.attempts_ l) <= size_of past }.

Lemma sealed_again i : GovernanceIntent.digest i = GovernanceIntent.compute_digest i ->
  GovernanceIntent.seal (i <| GovernanceIntent.id := GovernanceIntent.id i |>) = i.
Proof.
  intros Hd. assert (E : i <| GovernanceIntent.id := GovernanceIntent.id i |> = i) by (by destruct i).
  rewrite E. unfold GovernanceIntent.seal. rewrite <- Hd. by destruct i.
Qed.

Lemma record_again room past i rest l :
  recordable room (past ++ i :: rest) -> ledger_rebuilt room past l ->
  exists l', IntentLedger.record i l = (l', Val i) /\ ledger_rebuilt room (past ++ [i]) l'.
Proof.
  intros [Hs Hr Ha [Hn Hna]] [L1 L2 L3 L4 L5].
  apply Forall_app in Hr as [_ Hr]. apply Forall_cons in Hr as [(Hw & Hc & Hid & Hmax & Hd) _].
  rewrite size_of_app in Hn, Hna.
  assert (Hlen : size_of (i :: rest) = 1 + size_of rest) by (unfold size_of; cbn [length]; lia).
  pose proof (size_of_nonneg rest) as Hrest. pose proof (size_of_nonneg past) as Hpast.
  unfold by_id in Hs. rewrite fmap_app in Hs. cbn [fmap list_fmap] in Hs.
  assert (Hnone : OMap.find (GovernanceIntent.attempt i) (IntentLedger.attempts_ l) = None).
  { destruct (OMap.find _ _) as [k|] eqn:E; [|done]. destruct (L4 _ _ E) as (i0 & Hin & Hi0).
    by destruct (Ha past i rest i0 eq_refl Hin). }
  assert (Hsz : size_of (IntentLedger.intents_ l) = size_of past) by (rewrite L3; unfold by_id, size_of; by rewrite length_fmap).
  unfold IntentLedger.record. rewrite Hc, Hnone. unfold IntentLedger.ensure_capacity.
  rewrite Hsz, L1, L2. replace (size_of past >=? room) with false by lia.
  replace (size_of (IntentLedger.attempts_ l) >=? kMaxAttempts) with false by lia. cbn [orb].
  assert (Hassign : exists next, IntentLedger.assign_id i l = Val (GovernanceIntent.id i, next)).
  { unfold IntentLedger.assign_id, OMap.contains. rewrite L3. unfold by_id. rewrite (find_fresh _ _ _ _ Hs).
    unfold id_valid. replace (GovernanceIntent.id i =? 0) with false by lia. cbn [negb].
    replace (GovernanceIntent.id i =? u64_max) with false by lia. destruct (_ >=? _); by eexists. }
  destruct Hassign as (next & ->). rewrite sealed_again by done. eexists. split; [reflexivity|]. split; simpl.
  - exact L1.
  - exact L2.
  - rewrite L3. unfold by_id. rewrite (set_snoc _ _ _ _ _ Hs), fmap_app. reflexivity.
  - intros a k. rewrite OMap.find_set. destruct (OMap.key_eqb _ a) eqn:E.
    + apply OMap.key_eqb_eq in E as <-. intros _. exists i. split; [|done]. apply elem_of_app. right. by constructor.
    + intros Hf. destruct (L4 _ _ Hf) as (i0 & Hin & Hi0). exists i0. split; [|done]. apply elem_of_app. by left.
  - pose proof (size_set (GovernanceIntent.attempt i) (GovernanceIntent.id i) (IntentLedger.attempts_ l)).
    rewrite size_of_app. unfold size_of at 3. cbn [length]. lia.
Qed.

Lemma rerecorded_rebuilt room js : recordable room js ->
  forall past rest, js = past ++ rest -> ledger_rebuilt room past (rerecorded_intents room past).
Proof.
  intros Hr past. induction past as [|i past IH] using rev_ind; intros rest E.
  { split; try done. }
  rewrite <- app_assoc in E. cbn [app] in E. subst js. unfold rerecorded_intents in *. rewrite foldl_app. cbn [foldl].
  destruct (record_again room past i rest _ Hr (IH _ eq_refl)) as (l' & -> & Hl'). exact Hl'.
Qed.

Definition with_intents (g : Governor.t) (js : list GovernanceIntent.t) : Governor.t :=
  g <| Governor.intents_ := rerecorded_intents (GovernorConfig.max_intents (Governor.config_ g)) js |>.

Lemma rerecorded_snoc room js past i rest : recordable room js -> js = past ++ i :: rest ->
  IntentLedger.record i (rerecorded_intents room past) = (rerecorded_intents room (past ++ [i]), Val i).
Proof.
  intros Hr E. pose proof (rerecorded_rebuilt room js Hr past _ E) as Hl. subst js.
  destruct (record_again room past i rest _ Hr Hl) as (l' & El & _).
  replace (rerecorded_intents room (past ++ [i])) with (fst (IntentLedger.record i (rerecorded_intents room past)))
    by (unfold rerecorded_intents; by rewrite foldl_app). by rewrite El.
Qed.

Lemma restores_intents g js :
  GovernorConfig.max_intents (Governor.config_ g) < 2 ^ 32 ->
  recordable (GovernorConfig.max_intents (Governor.config_ g)) js ->
  restores (put_list js) restore_intents g (with_intents g js) tt.
Proof.
  intros Hm Hr. destruct (rc_size _ _ Hr) as [Hn _]. apply restores_state_bind.
  eapply restores_read_bind; [by apply carries_count|].
  eapply (restores_act_bind _ _ _ tt); [reflexivity|]. cbn beta.
  replace (Z.to_nat (size_of js)) with (length js) by (unfold size_of; lia).
  apply (restores_items _ (with_intents g)).
  { eapply Forall_impl; [exact (rc_ready _ _ Hr)|]. by intros i []. }
  intros past i rest E. apply restores_act. unfold mbind, M_bind, on, with_intents. simpl.
  rewrite (rerecorded_snoc _ js past i rest Hr E). reflexivity.
Qed.

(** ** The header *)

(** The incarnation [boot] succeeds the one that wrote the state. *)
Definition succeeds (stored boot : BootIdentity.t) : Prop :=
  BootIdentity.valid boot = true /\ BootIdentity.boot boot <> BootIdentity.boot stored /\
  BootIdentity.epoch stored < BootIdentity.epoch boot.

Record header_ready (g : Governor.t) : Prop := {
  hr_tick : u64_ok (Governor.last_tick_ g);
  hr_sequence : u64_ok (Governor.classification_sequence_ g);
  hr_intents : u64_ok (Governor.intent_sequence_ g);
  hr_boot : let boot := GovernorIncarnation.boot (Governor.incarnation_ g) in
    u64_ok (BootIdentity.boot boot) /\ u64_ok (BootIdentity.epoch boot) /\
    u64_ok (BootIdentity.started_at boot) /\ u64_ok (BootIdentity.monotonic_seed boot) }.

Lemma restores_header g g1 : header_ready g ->
  succeeds (GovernorIncarnation.boot (Governor.incarnation_ g)) (GovernorIncarnation.boot (Governor.incarnation_ g1)) ->
  restores (header_statements g) restore_header g1 g1
    (Governor.last_tick_ g, Governor.classification_sequence_ g, Governor.intent_sequence_ g).
Proof.
  intros [H1 H2 H3 (H4 & H5 & H6 & H7)] (S1 & S2 & S3). unfold header_statements, restore_header.
  do 2 (eapply restores_read_bind; [apply carries_u32; vm_compute; intuition discriminate|]).
  do 2 (apply restores_guard_bind; [reflexivity|]). do 7 restore_u64. apply restores_state_bind. cbv zeta.
  apply restores_guard_bind; [by rewrite S1|]. do 2 (apply restores_guard_bind; [lia|]). apply restores_ret.
Qed.

(** ** Everything but the authority *)

(** The state of [g] under the configuration and the incarnation of [g1], before anything is
    withdrawn. *)
Definition rebuilt_from (now : Tick) (g g1 : Governor.t) : Governor.t :=
  let g2 := g1 <| Governor.policy_ := Governor.policy_ g |> <| Governor.exit_rules_ := Governor.exit_rules_ g |>
               <| Governor.capacities_ := CapacityTable.mk kMaxResources (CapacityTable.entries_ (Governor.capacities_ g)) |>
               <| Governor.paths_ := PathTable.mk kMaxPaths kMaxResourcesPerPath (PathTable.entries_ (Governor.paths_ g)) |> in
  let g3 := with_intents (with_flows g2 (Governor.flows_ g)) (IntentLedger.all_intents (Governor.intents_ g)) in
  Governor.bump GovernorCounters.restore_events
    (g3 <| Governor.classification_sequence_ := Governor.classification_sequence_ g |>
        <| Governor.intent_sequence_ := Governor.intent_sequence_ g |>
        <| Governor.last_tick_ := if Governor.last_tick_ g >? now then Governor.last_tick_ g else now |>).

(** What the invariant of a record leaves open: its members are in range, it has the limits of
    [c] and keeps to the volume ceilings, no window came after its completion and no
    transition was folded away. *)
Record flow_ready (c : GovernorConfig.t) (key : FlowKey) (r : FlowRecord.t) : Prop := {
  fr_key : u64_ok key.1 /\ u64_ok key.2 /\ id_valid key.1 = true /\ id_valid key.2 = true;
  fr_class : FlowRecord.has_classification r = true -> wire_ok (FlowRecord.classification r);
  fr_streaks : u32_ok (FlowRecord.enter_streak r) /\ u32_ok (FlowRecord.exit_streak r);
  fr_ticks : u64_ok (FlowRecord.evaluated_tick r) /\ u64_ok (FlowRecord.evaluated_window r) /\
    u64_ok (FlowRecord.completed_tick r) /\ u64_ok (FlowLedger.completed_at_ (FlowRecord.ledger r));
  fr_limits : FlowLedger.limits_ (FlowRecord.ledger r) = FlowLedger.limits_ (empty_ledger c key) /\
    ClassificationHistory.max_entries_ (FlowRecord.history r) = ClassificationHistory.max_entries_ (empty_history c);
  fr_samples : Forall (fun s => wire_ok s /\ within_ceilings (Governor.ledger_limits c) s)
    (FlowLedger.samples_ (FlowRecord.ledger r));
  fr_completion : FlowLedger.completed_ (FlowRecord.ledger r) = true ->
    forall s, list.last (FlowLedger.samples_ (FlowRecord.ledger r)) = Some s ->
      TickSpan.end_ (FlowSample.span s) <= FlowLedger.completed_at_ (FlowRecord.ledger r);
  fr_history : Forall wire_ok (ClassificationHistory.transitions (FlowRecord.history r)) /\
    ClassificationHistory.digest_ (FlowRecord.history r) =
      foldl ClassificationHistory.chain_digest 0 (ClassificationHistory.transitions (FlowRecord.history r)) /\
    ClassificationHistory.folded_count_ (FlowRecord.history r) = 0 }.

(** The clamping of the limits is about the number of windows. *)
Lemma clamp_ceilings limits s : within_ceilings limits s -> within_ceilings (FlowLedger.clamp_limits limits) s.
Proof. unfold FlowLedger.clamp_limits. repeat (case_match; try done). Qed.

Lemma ready_replayable c key r :
  1 <= GovernorConfig.max_history_per_flow c <= kMaxHistoryPerFlow -> rec_inv key r -> flow_ready c key r -> replayable c key r.
Proof.
  intros Hc [[_ Hl Hsz Hall Hch _] R2 R3 [Hb _ Hcont] _] [F1 F2 F3 F4 [F5 F6] F7 F8 (F9 & F10 & F11)].
  split; try done.
  - split; [by eapply Forall_impl; [exact F7|]; intros s []|]. lia.
  - split; [|exact Hch|by rewrite <- F5]. rewrite Forall_forall in *. intros s Hs.
    destruct (Hall s Hs) as (H1 & H2 & H3 & H4), (F7 s Hs) as [_ H5].
    split_and!; try done; [by rewrite H3|by rewrite H4|by apply clamp_ceilings].
  - cbv zeta. unfold ClassificationHistory.transitions in *. rewrite F6 in Hb. split_and!; try done.
    unfold empty_history, ClassificationHistory.make in Hb. simpl in Hb.
    replace (GovernorConfig.max_history_per_flow c =? 0) with false in Hb by lia. lia.
Qed.

(** What a state needs to be read back. The first clause holds of every run; the others say that
    members are in range, that the tables and the population fit the limits they are read
    under, and, for records, what [flow_ready] asks. *)
Record snapshot_ready (g : Governor.t) : Prop := {
  sr_inv : gov_inv g;
  sr_header : header_ready g;
  sr_policy : forall p, Governor.policy_ g = Some p ->
    wire_ok p /\ effective_exit_rule p = Val (Governor.exit_rules_ g);
  sr_no_policy : Governor.policy_ g = None -> Governor.exit_rules_ g = RuleSet.default;
  sr_capacities : Forall wire_ok (CapacityTable.entries_ (Governor.capacities_ g)).*2 /\
    size_of (CapacityTable.entries_ (Governor.capacities_ g)) <= kMaxResources;
  sr_paths : Forall wire_ok (PathTable.entries_ (Governor.paths_ g)).*2 /\
    size_of (PathTable.entries_ (Governor.paths_ g)) <= kMaxPaths;
  sr_flows : Forall (fun e => flow_ready (Governor.config_ g) e.1 e.2) (Governor.flows_ g);
  sr_history : GovernorConfig.max_history_per_flow (Governor.config_ g) <= kMaxHistoryPerFlow;
  sr_intents : Forall (fun i => wire_ok i /\ IntentLedger.check_intent i = Val tt /\ GovernanceIntent.id i <> u64_max)
    (IntentLedger.all_intents (Governor.intents_ g));
  sr_room : size_of (IntentLedger.all_intents (Governor.intents_ g)) <= GovernorConfig.max_intents (Governor.config_ g) <= kMaxIntents }.

Lemma ready_flows g : snapshot_ready g -> Forall (fun e => replayable (Governor.config_ g) e.1 e.2) (Governor.flows_ g).
Proof.
  intros H. pose proof (sr_flows _ H) as Hf. rewrite Forall_forall in *. intros [key r] Hin.
  destruct (sr_inv _ H) as [_ [_ I2] I3 _ I5 _ _ _ _ _].
  apply ready_replayable; [split; [done|apply (sr_history _ H)]| |exact (Hf _ Hin)].
  apply I5. by apply elem_of_find.
Qed.

Lemma all_intents_by_id l : intents_inv l -> by_id (IntentLedger.all_intents l) = IntentLedger.intents_ l.
Proof.
  intros Hi. unfold by_id, IntentLedger.all_intents. apply filed. apply Forall_forall. intros [k i] Hin.
  apply (elem_of_find _ _ _ (ii_sorted _ Hi)) in Hin. by destruct (ii_entries _ Hi k i Hin).
Qed.

Lemma all_intents_recordable room l : intents_inv l ->
  Forall (fun i => wire_ok i /\ IntentLedger.check_intent i = Val tt /\ GovernanceIntent.id i <> u64_max) (IntentLedger.all_intents l) ->
  size_of (IntentLedger.all_intents l) <= room <= kMaxAttempts ->
  recordable room (IntentLedger.all_intents l).
Proof.
  intros Hi Hall Hn. pose proof (all_intents_by_id l Hi) as Eby.
  assert (Hent : forall i, i ∈ IntentLedger.all_intents l -> entry_ok l (GovernanceIntent.id i) i).
  { intros i Hin. apply (ii_entries _ Hi). apply (elem_of_find _ _ _ (ii_sorted _ Hi)). rewrite <- Eby.
    apply list_elem_of_fmap. by exists i. }
  split; [by rewrite Eby; apply Hi| | |lia].
  - apply Forall_forall. intros i Hin. rewrite Forall_forall in Hall. destruct (Hall i Hin) as (H1 & H2 & H3).
    destruct (Hent i Hin) as (_ & H4 & H5 & _). split_and!; try done. lia.
  - intros past i rest i0 E Hin Ha.
    assert (Hs : OMap.sorted (by_id (IntentLedger.all_intents l))) by (rewrite Eby; apply Hi).
    assert (H0 : i0 ∈ IntentLedger.all_intents l) by (rewrite E; apply elem_of_app; by left).
    assert (H1 : i ∈ IntentLedger.all_intents l) by (rewrite E; apply elem_of_app; right; by constructor).
    destruct (Hent i0 H0) as (_ & _ & _ & _ & Hk0). destruct (Hent i H1) as (_ & _ & _ & _ & Hk1).
    rewrite Ha, Hk1 in Hk0. injection Hk0 as Hk0. rewrite E in Hs. unfold by_id in Hs. rewrite fmap_app in Hs.
    pose proof (sorted_app_lt _ _ _ _ (GovernanceIntent.id i0) i0 Hs) as Hlt.
    rewrite Hk0, OMap.key_cmp_refl in Hlt. discriminate Hlt. apply list_elem_of_fmap. by exists i0.
Qed.

(** What [serialize] writes rebuilds the state; what remains is to withdraw its authority. *)
Lemma restores_state now g g1 g' :
  snapshot_ready g -> Governor.config_ g1 = Governor.config_ g ->
  succeeds (GovernorIncarnation.boot (Governor.incarnation_ g)) (GovernorIncarnation.boot (Governor.incarnation_ g1)) ->
  resume_after_restore now (rebuilt_from now g g1) = (g', Val tt) ->
  restores (state_statements g) (deserialize now) g1 g' tt.
Proof.
  intros Hready Hcfg Hsucc Hres. pose proof (ready_flows g Hready) as Hfl.
  destruct Hready as [Hinv Hhd Hpol Hnop [Hcw Hcs] [Hpw Hps] _ _ Hint Hroom].
  destruct Hinv as [I1 [I2 _] I3 I4 _ _ I7 I8 I9 I10].
  assert (Hmf : kMaxFlows < 2 ^ 32 /\ kMaxIntents < 2 ^ 32 /\ kMaxIntents <= kMaxAttempts) by (by vm_compute).
  destruct Hmf as (Hmf & Hmi & Hma). rewrite <- Hcfg in *.
  unfold deserialize, state_statements. cbv zeta.
  eapply restores_bind; [by apply restores_header|]. cbv beta iota.
  eapply restores_bind; [apply (restores_policy _ (Governor.exit_rules_ g)); [|exact Hnop]|cbn beta].
  { intros q Hq. destruct (Hpol q Hq). split_and!; [done|by apply I9|done]. }
  eapply (restores_bind (_ :: _)); [by apply restores_capacities|cbn beta].
  eapply (restores_bind (_ :: _)); [by apply restores_paths|cbn beta].
  eapply (restores_bind (_ :: _)); [apply restores_flows|cbn beta]; [simpl; lia|simpl; lia|exact I3|exact I4|exact Hfl|].
  apply restores_last. eapply restores_bind; [apply restores_intents|cbn beta].
  { simpl. lia. }
  { apply all_intents_recordable; [exact I10|exact Hint|]. simpl. lia. }
  eapply (restores_act_bind _ _ _ tt); [reflexivity|]. cbn beta. by apply restores_act.
Qed.

(** ** Withdrawing the authority *)

Section omap_middle.
Context {K V : Type} `{OrdKey K}.
Implicit Types (m : omap_t K V) (k : K) (v : V).

Lemma find_middle m k v rest : OMap.sorted (m ++ (k, v) :: rest) -> OMap.find k (m ++ (k, v) :: rest) = Some v.
Proof. intros Hs. apply elem_of_find; [exact Hs|]. apply elem_of_app. right. by constructor. Qed.

Lemma set_middle m k v v0 rest : OMap.sorted (m ++ (k, v0) :: rest) ->
  OMap.set k v (m ++ (k, v0) :: rest) = m ++ (k, v) :: rest.
Proof.
  induction m as [|[k0 v1] m IH]; intros Hs; cbn [OMap.set app]; [by rewrite OMap.key_cmp_refl|].
  assert (E : key_cmp k0 k = Lt) by (eapply (sorted_app_lt ((k0, v1) :: m)); [exact Hs|by constructor]).
  rewrite key_cmp_anti, E. cbn [CompOpp]. rewrite IH; [done|]. by inversion Hs.
Qed.

(** The order is one of the keys. *)
Lemma sorted_same_keys m m' : OMap.keys m = OMap.keys m' -> OMap.sorted m -> OMap.sorted m'.
Proof.
  unfold OMap.sorted, OMap.keys. intros E Hs. revert m' E. induction Hs as [|e m Hs IH Hall]; intros [|e' m'] E; try done.
  - constructor.
  - cbn [fmap list_fmap] in E. injection E as E1 E2. constructor; [by apply IH|].
    apply (Forall_fmap fst (fun k => key_cmp e'.1 k = Lt)). rewrite <- E2, <- E1. by apply Forall_fmap.
Qed.

Lemma keys_set_found m k v v0 : OMap.sorted m -> OMap.find k m = Some v0 -> OMap.keys (OMap.set k v m) = OMap.keys m.
Proof.
  intros Hs Hf. apply find_elem_of in Hf. apply list_elem_of_split in Hf as (l1 & l2 & ->).
  rewrite set_middle by done. unfold OMap.keys. by rewrite !fmap_app.
Qed.
End omap_middle.

(** The newest transition of a record leads to the state of its verdict, and is not later than
    [now]. *)
Definition demotable (now : Tick) (r : FlowRecord.t) : Prop :=
  FlowRecord.has_classification r = true ->
  forall a, ClassificationHistory.latest (FlowRecord.history r) = Some a ->
    ClassificationTransition.to a = FlowClassification.state (FlowRecord.classification r) /\
    ClassificationTransition.at_ a <= now.

(** What the demotion under the incarnation of [g] makes of a record. *)
Definition suspended_record (now : Tick) (g : Governor.t) (r : FlowRecord.t) : FlowRecord.t :=
  (demote_record now (g, r)).1.2.

Lemma demote_succeeds now g0 g r :
  Governor.incarnation_ g = Governor.incarnation_ g0 -> demotable now r ->
  demote_record now (g, r) = ((g, suspended_record now g0 r), Val tt).
Proof.
  intros Hi Hd. unfold suspended_record, demote_record. rewrite Hi. cbv zeta.
  destruct (FlowRecord.has_classification r) eqn:Hh; cbn [negb]; [|reflexivity].
  specialize (Hd Hh). unfold ClassificationHistory.record.
  rewrite check_continues; [reflexivity|]. intros a Ha. destruct (Hd a Ha). simpl. auto.
Qed.

Definition suspended_flows (now : Tick) (g : Governor.t) (fl : omap_t FlowKey FlowRecord.t) : omap_t FlowKey FlowRecord.t :=
  (fun e => (e.1, suspended_record now g e.2)) <$> fl.

Lemma with_record_at {A} k (m : Governor.MR A) g past r rest r' x : OMap.sorted (past ++ (k, r) :: rest) ->
  (forall fl, let g1 := g <| Governor.flows_ := fl |> in m (g1, r) = ((g1, r'), Val x)) ->
  Governor.with_record k m (g <| Governor.flows_ := past ++ (k, r) :: rest |>) =
  (g <| Governor.flows_ := past ++ (k, r') :: rest |>, Val x).
Proof.
  intros Hs Hm. unfold Governor.with_record. simpl. rewrite (find_middle _ _ _ _ Hs), Hm.
  rewrite <- (set_middle _ k r' r rest Hs). reflexivity.
Qed.

Lemma demote_pass now g todo : forall past,
  OMap.sorted (past ++ todo) -> Forall (fun e => demotable now e.2) todo ->
  for_each (fun key => Governor.with_record key (demote_record now)) (OMap.keys todo)
    (g <| Governor.flows_ := suspended_flows now g past ++ todo |>) =
  (g <| Governor.flows_ := suspended_flows now g (past ++ todo) |>, Val tt).
Proof.
  induction todo as [|[k r] todo IH]; intros past Hs Hd; [by rewrite !app_nil_r|].
  apply Forall_cons in Hd as [Hr Hd]. cbn [OMap.keys fmap list_fmap fst for_each].
  assert (Hs' : OMap.sorted (suspended_flows now g past ++ (k, r) :: todo)).
  { eapply sorted_same_keys; [|exact Hs]. unfold OMap.keys, suspended_flows. rewrite !fmap_app, <- list_fmap_compose. done. }
  specialize (IH (past ++ [(k, r)])). rewrite <- app_assoc in IH. cbn [app] in IH. rewrite <- (IH Hs Hd).
  unfold mbind, M_bind. rewrite (with_record_at k (demote_record now) g _ r todo (suspended_record now g r) tt Hs')
    by (intros fl; by apply demote_succeeds).
  unfold suspended_flows. rewrite fmap_app. cbn [fmap list_fmap]. rewrite <- app_assoc. reflexivity.
Qed.

(** What indexing the records again leaves of the governor. *)
Record reindexed (g g' : Governor.t) : Prop := {
  rx_config : Governor.config_ g' = Governor.config_ g;
  rx_incarnation : Governor.incarnation_ g' = Governor.incarnation_ g;
  rx_policy : Governor.policy_ g' = Governor.policy_ g;
  rx_exit : Governor.exit_rules_ g' = Governor.exit_rules_ g;
  rx_capacities : Governor.capacities_ g' = Governor.capacities_ g;
  rx_paths : Governor.paths_ g' = Governor.paths_ g;
  rx_highest : Governor.highest_generation_ g' = Governor.highest_generation_ g;
  rx_intents : Governor.intents_ g' = Governor.intents_ g;
  rx_sequence : Governor.classification_sequence_ g' = Governor.classification_sequence_ g;
  rx_intent_sequence : Governor.intent_sequence_ g' = Governor.intent_sequence_ g;
  rx_last_tick : Governor.last_tick_ g' = Governor.last_tick_ g;
  rx_keys : OMap.keys (Governor.flows_ g') = OMap.keys (Governor.flows_ g);
  rx_records : forall k r, OMap.find k (Governor.flows_ g) = Some r ->
    exists r', OMap.find k (Governor.flows_ g') = Some r' /\ same_record r r' }.

#[global] Instance reindexed_preorder : PreOrder reindexed.
Proof.
  split; [intros g; split; try done; intros k r Hk; by exists r|].
  intros a b c [] []. split; try congruence. intros k r Hk.
  destruct (rx_records0 k r Hk) as (r1 & H1 & Hs1). destruct (rx_records1 k r1 H1) as (r2 & H2 & Hs2).
  exists r2. split; [done|]. by etrans.
Qed.

Lemma update_index_clock key g r g' r' : Governor.update_index key (g, r) = (g', r') ->
  Governor.intent_sequence_ g' = Governor.intent_sequence_ g /\ Governor.last_tick_ g' = Governor.last_tick_ g.
Proof.
  assert (Hu : Governor.intent_sequence_ (Governor.unbind key r g) = Governor.intent_sequence_ g /\
    Governor.last_tick_ (Governor.unbind key r g) = Governor.last_tick_ g).
  { unfold Governor.unbind. repeat (case_match; try done). }
  unfold Governor.update_index. destruct (FlowRecord.bound r).
  - revert Hu. generalize (Governor.unbind key r g). intros gu [Hu1 Hu2].
    destruct (negb _); [by intros [= <- <-]|]. destruct (negb _); [by intros [= <- <-]|].
    unfold Governor.bind. by intros [= <- <-].
  - clear Hu. destruct (negb _); [by intros [= <- <-]|]. destruct (negb _); [by intros [= <- <-]|].
    unfold Governor.bind. by intros [= <- <-].
Qed.

Lemma reindex_step key g : OMap.sorted (Governor.flows_ g) -> key ∈ OMap.keys (Governor.flows_ g) ->
  exists g', Governor.with_record key (reindex key) g = (g', Val tt) /\ reindexed g g' /\ OMap.sorted (Governor.flows_ g').
Proof.
  intros Hs Hk. assert (Hf : exists r, OMap.find key (Governor.flows_ g) = Some r).
  { apply list_elem_of_fmap in Hk as ([k r] & -> & Hin). exists r. by apply elem_of_find. }
  destruct Hf as (r & Hf). unfold Governor.with_record. rewrite Hf. unfold reindex.
  destruct (Governor.update_index key (g, r)) as [g1 r1] eqn:E.
  pose proof (update_index_clock key g r g1 r1 E) as [Hq Ht].
  apply update_index_frame in E as ([] & Hr & Hi & Hc). eexists. split; [reflexivity|]. split.
  - split; simpl; try done.
    + rewrite sc_flows. by eapply keys_set_found.
    + intros k r0 Hk0. rewrite OMap.find_set, sc_flows. destruct (OMap.key_eqb key k) eqn:E.
      * apply OMap.key_eqb_eq in E as <-. exists r1. split; [done|]. by simplify_eq.
      * exists r0. by split.
  - simpl. rewrite sc_flows. by apply sorted_set.
Qed.

Lemma reindex_pass keys : forall g, OMap.sorted (Governor.flows_ g) -> Forall (fun k => k ∈ OMap.keys (Governor.flows_ g)) keys ->
  exists g', for_each (fun key => Governor.with_record key (reindex key)) keys g = (g', Val tt) /\ reindexed g g'.
Proof.
  induction keys as [|key keys IH]; intros g Hs Hk; [by exists g|].
  apply Forall_cons in Hk as [Hk Hks]. cbn [for_each].
  destruct (reindex_step key g Hs Hk) as (g1 & E1 & H1 & Hs1).
  rewrite <- (rx_keys _ _ H1) in Hks. destruct (IH g1 Hs1 Hks) as (g2 & E2 & H2).
  exists g2. split; [|by etrans]. unfold mbind, M_bind. by rewrite E1.
Qed.

Lemma run_bind_to {S A B} (m : M S A) (k : A -> M S B) s s1 v res :
  m s = (s1, Val v) -> k v s1 = res -> (m ≫= k) s = res.
Proof. intros E <-. unfold mbind, M_bind. by rewrite E. Qed.

(** What [resume_after_restore] leaves of a governor. *)
Record taken_over (now : Tick) (g g' : Governor.t) : Prop := {
  tk_config : Governor.config_ g' = Governor.config_ g;
  tk_incarnation : Governor.incarnation_ g' = Governor.incarnation_ g;
  tk_policy : Governor.policy_ g' = Governor.policy_ g;
  tk_exit : Governor.exit_rules_ g' = Governor.exit_rules_ g;
  tk_capacities : Governor.capacities_ g' = Governor.capacities_ g;
  tk_paths : Governor.paths_ g' = Governor.paths_ g;
  tk_highest : Governor.highest_generation_ g' = Governor.highest_generation_ g;
  tk_sequence : Governor.classification_sequence_ g' = Governor.classification_sequence_ g;
  tk_intent_sequence : Governor.intent_sequence_ g' = Governor.intent_sequence_ g;
  tk_last_tick : Governor.last_tick_ g' = Z.max (Governor.last_tick_ g) now;
  tk_intents : Governor.intents_ g' =
    fst (IntentLedger.revoke_all now IntentState.Fenced SuppressReason.AuthorityStale (Governor.intents_ g));
  tk_keys : OMap.keys (Governor.flows_ g') = OMap.keys (Governor.flows_ g);
  tk_records : forall k r, OMap.find k (Governor.flows_ g) = Some r ->
    exists r', OMap.find k (Governor.flows_ g') = Some r' /\ same_record (suspended_record now g r) r' }.

Lemma keys_suspended now g fl : OMap.keys (suspended_flows now g fl) = OMap.keys fl.
Proof. unfold OMap.keys, suspended_flows. by rewrite <- list_fmap_compose. Qed.

Lemma resume_succeeds now g :
  OMap.sorted (Governor.flows_ g) -> Forall (fun e => demotable now e.2) (Governor.flows_ g) ->
  exists g', resume_after_restore now g = (g', Val tt) /\ taken_over now g g'.
Proof.
  intros Hs Hd. pose proof (demote_pass now g (Governor.flows_ g) [] Hs Hd) as Hdem. cbn [app suspended_flows fmap list_fmap] in Hdem.
  set (fl := suspended_flows now g (Governor.flows_ g)) in *.
  assert (Hfl : OMap.sorted fl) by (eapply sorted_same_keys; [symmetry; apply keys_suspended|exact Hs]).
  set (g2 := g <| Governor.flows_ := fl |> <| Governor.binding_index_ := [] |> <| Governor.resource_aggregate_ := [] |>).
  destruct (reindex_pass (OMap.keys (Governor.flows_ g)) g2) as (g3 & E3 & H3).
  { exact Hfl. }
  { apply Forall_forall. intros k Hk. change (Governor.flows_ g2) with fl. subst fl. by rewrite keys_suspended. }
  replace (g <| Governor.flows_ := Governor.flows_ g |>) with g in Hdem by (by destruct g).
  eexists. split.
  { unfold resume_after_restore. do 2 (eapply run_bind_to; [reflexivity || exact Hdem|]; cbv zeta).
    eapply (run_bind_to _ _ _ g2 tt); [reflexivity|]. eapply run_bind_to; [exact E3|].
    do 3 (eapply (run_bind_to _ _ _ _ tt); [reflexivity|]; cbn beta). eapply (run_bind_to _ _ _ _ tt); [reflexivity|]. reflexivity. }
  unfold IntentLedger.revoke_all. destruct H3. split; simpl; try done.
  - rewrite rx_last_tick0. change (Governor.last_tick_ g2) with (Governor.last_tick_ g). split_ifs; lia.
  - by rewrite rx_intents0.
  - rewrite rx_keys0. apply keys_suspended.
  - intros k r Hk. apply rx_records0. change (Governor.flows_ g2) with fl. subst fl. unfold suspended_flows.
    by rewrite (find_map_values (fun _ => suspended_record now g)), Hk.
Qed.

(** ** The round trip *)

(** The intent a restart leaves of [i]. *)
Definition fenced (i : GovernanceIntent.t) : GovernanceIntent.t :=
  if is_live (GovernanceIntent.state i)
  then GovernanceIntent.seal (IntentLedger.set_state_reason IntentState.Fenced SuppressReason.AuthorityStale i)
  else i.

(** The transition that the withdrawal of a verdict adds to the history. *)
Definition withdrawal (now : Tick) (c : FlowClassification.t) : ClassificationTransition.t :=
  ClassificationTransition.mk now (FlowClassification.state c) ElephantState.Suspended AuthorityLevel.None
    (Z.lor (FlowClassification.reasons c) ReasonCode.RevalidationRequired)
    (FlowClassification.id c) (FlowClassification.generation c).

(** A history with one more transition, the oldest making room for it. *)
Definition continued (h : ClassificationHistory.t) (tr : ClassificationTransition.t) : list ClassificationTransition.t :=
  (if ClassificationHistory.size h >=? ClassificationHistory.max_entries_ h
   then tail (ClassificationHistory.transitions h) else ClassificationHistory.transitions h) ++ [tr].

(** What of a record survives a restart: its evidence and its completion, the identity and the
    measurements of its verdict, and its history, transition by transition and with its digest,
    which the withdrawal continues. *)
Record survives (now : Tick) (r r' : FlowRecord.t) : Prop := {
  sv_samples : FlowLedger.samples_ (FlowRecord.ledger r') = FlowLedger.samples_ (FlowRecord.ledger r);
  sv_completed : FlowLedger.completed_ (FlowRecord.ledger r') = FlowLedger.completed_ (FlowRecord.ledger r);
  sv_completed_at : FlowLedger.completed_ (FlowRecord.ledger r) = true ->
    FlowLedger.completed_at_ (FlowRecord.ledger r') = FlowLedger.completed_at_ (FlowRecord.ledger r);
  sv_window : FlowRecord.evaluated_window r' = FlowRecord.evaluated_window r;
  sv_completed_tick : FlowRecord.completed_tick r' = FlowRecord.completed_tick r;
  sv_has : FlowRecord.has_classification r' = FlowRecord.has_classification r;
  sv_verdict : FlowRecord.has_classification r = true ->
    let c := FlowRecord.classification r in let c' := FlowRecord.classification r' in
    FlowClassification.id c' = FlowClassification.id c /\
    FlowClassification.generation c' = FlowClassification.generation c /\
    FlowClassification.measurements c' = FlowClassification.measurements c;
  sv_transitions : ClassificationHistory.transitions (FlowRecord.history r') =
    if FlowRecord.has_classification r
    then continued (FlowRecord.history r) (withdrawal now (FlowRecord.classification r))
    else ClassificationHistory.transitions (FlowRecord.history r);
  sv_history : ClassificationHistory.digest_ (FlowRecord.history r') =
    if FlowRecord.has_classification r
    then ClassificationHistory.chain_digest (ClassificationHistory.digest_ (FlowRecord.history r))
           (withdrawal now (FlowRecord.classification r))
    else ClassificationHistory.digest_ (FlowRecord.history r) }.

Lemma restored_ledger_keeps c key l :
  0 <= GovernorConfig.samples_per_flow c -> appendable (empty_ledger c key) (FlowLedger.samples_ l) ->
  FlowLedger.samples_ (restored_ledger c key l) = FlowLedger.samples_ l /\
  FlowLedger.completed_ (restored_ledger c key l) = FlowLedger.completed_ l /\
  (FlowLedger.completed_ l = true -> FlowLedger.completed_at_ (restored_ledger c key l) = FlowLedger.completed_at_ l).
Proof.
  intros Hc Ha. pose proof (replayed_rebuilt _ _ Ha (rebuilt_make key.1 key.2 (Governor.ledger_limits c) Hc) _ []
    (eq_sym (app_nil_r _))) as [_ Hs _ _ _ _ Hcomp _ _ _ _]. unfold restored_ledger.
  destruct (FlowLedger.completed_ l) eqn:E; split_and!; try done.
Qed.

Lemma suspended_history now g r : demotable now r ->
  let h := FlowRecord.history r in
  let h' := FlowRecord.history (suspended_record now g r) in
  let tr := withdrawal now (FlowRecord.classification r) in
  ClassificationHistory.transitions h' =
    (if FlowRecord.has_classification r then continued h tr else ClassificationHistory.transitions h) /\
  ClassificationHistory.digest_ h' =
    (if FlowRecord.has_classification r
     then ClassificationHistory.chain_digest (ClassificationHistory.digest_ h) tr
     else ClassificationHistory.digest_ h).
Proof.
  intros Hd. unfold suspended_record, demote_record. cbv zeta.
  destruct (FlowRecord.has_classification r) eqn:Hh; cbn [negb]; [|split; reflexivity].
  specialize (Hd Hh). unfold ClassificationHistory.record, continued.
  rewrite check_continues; [|intros a Ha; destruct (Hd a Ha); simpl; auto].
  unfold ClassificationHistory.size. cbn [ClassificationHistory.entries_ ClassificationHistory.max_entries_
    FlowRecord.history update eta ClassificationHistory.eta_t]. destruct (_ >=? _); split; reflexivity.
Qed.

Lemma restored_demotable now c key r : demotable now r -> demotable now (restored_record c key r).
Proof.
  intros Hd. unfold demotable, restored_record. cbn [FlowRecord.has_classification]. intros Hh. rewrite Hh. exact (Hd Hh).
Qed.

Lemma restored_survives now g c key r r' :
  0 <= GovernorConfig.samples_per_flow c -> replayable c key r ->
  ClassificationHistory.max_entries_ (FlowRecord.history r) = ClassificationHistory.max_entries_ (empty_history c) ->
  demotable now r -> same_record (suspended_record now g (restored_record c key r)) r' -> survives now r r'.
Proof.
  intros Hc Hf Hmax Hd Hs. pose proof (restored_demotable now c key r Hd) as Hd1.
  destruct (restored_ledger_keeps c key (FlowRecord.ledger r) Hc (rp_appendable _ _ _ Hf)) as (L1 & L2 & L3).
  destruct (demote_record_frame now g _ g _ (demote_succeeds now g g _ eq_refl Hd1)) as (_ & _ & [E1 E2 E3 E4 E5 E6 E7] & _).
  pose proof (suspended_history now g _ Hd1) as [Ht Hh].
  destruct Hs as [R1 R2 R3 R4 _ _ _ R8 R9]. 
  pose proof (rp_history _ _ _ Hf) as (_ & _ & _ & _ & Hdig & _).
  split; rewrite ?R1, ?R2, ?R3, ?R4, ?R8, ?R9, ?E1, ?E2, ?E3, ?E4, ?E5, ?E6, ?E7; cbn [restored_record FlowRecord.ledger]; try done.
  - intros Hhas. cbv zeta. rewrite E5, E6, E7. unfold restored_record. cbn [FlowRecord.classification]. by rewrite Hhas.
  - rewrite Ht. unfold restored_record, continued, ClassificationHistory.size.
    cbn [FlowRecord.has_classification FlowRecord.classification FlowRecord.history].
    rewrite Hmax. destruct (FlowRecord.has_classification r); reflexivity.
  - rewrite Hh. unfold restored_record. cbn [FlowRecord.has_classification FlowRecord.classification FlowRecord.history].
    rewrite Hdig. destruct (FlowRecord.has_classification r); reflexivity.
Qed.

(** The bytes of a state that was written without overflow, read from their start. *)
Lemma restores_bytes {A} fs (m : MS A) g g' x ceiling :
  restores fs m g g' x -> 0 <= ceiling ->
  let w := emit fs (ByteWriter.make ceiling) in
  ByteWriter.overflowed_ w = false ->
  exists r', m (g, ByteReader.make (ByteWriter.buffer_ w)) = ((g', r'), Val x) /\ rest r' = [].
Proof.
  intros (bs & Hw & Hm) Hc w Ho. destruct (Hw (ByteWriter.make ceiling)) as (_ & _ & _ & Hb); [exact Hc|].
  apply Hm. subst w. rewrite (Hb Ho), app_nil_r. reflexivity.
Qed.

Lemma restored_intents now g g1 id :
  snapshot_ready g -> Governor.config_ g1 = Governor.config_ g ->
  IntentLedger.find id (fst (IntentLedger.revoke_all now IntentState.Fenced SuppressReason.AuthorityStale
    (Governor.intents_ (rebuilt_from now g g1)))) = fenced <$> IntentLedger.find id (Governor.intents_ g).
Proof.
  intros [[_ _ _ _ _ _ _ _ _ Hi] _ _ _ _ _ _ _ Hall Hroom] Hcfg. unfold IntentLedger.revoke_all. rewrite sweep_find.
  assert (Hma : kMaxIntents <= kMaxAttempts) by (by vm_compute).
  pose proof (all_intents_recordable (GovernorConfig.max_intents (Governor.config_ g)) _ Hi Hall ltac:(lia)) as Hr.
  pose proof (rerecorded_rebuilt _ _ Hr _ [] (eq_sym (app_nil_r _))) as [_ _ Hl _ _].
  rewrite (all_intents_by_id _ Hi) in Hl.
  assert (E : IntentLedger.find id (Governor.intents_ (rebuilt_from now g g1)) = IntentLedger.find id (Governor.intents_ g)).
  { unfold IntentLedger.find. rewrite <- Hl. unfold rebuilt_from, with_intents, with_flows. simpl. by rewrite Hcfg. }
  rewrite E. destruct (IntentLedger.find id (Governor.intents_ g)) as [i|]; [|done]. cbn [fmap option_fmap option_map].
  unfold pass, fenced. by rewrite andb_true_r.
Qed.

Lemma keys_restored c fl : OMap.keys (restored_flows c fl) = OMap.keys fl.
Proof. unfold OMap.keys, restored_flows. by rewrite <- list_fmap_compose. Qed.

Lemma rebuilt_resumes now g g1 :
  OMap.sorted (Governor.flows_ g) -> Forall (fun e => demotable now e.2) (Governor.flows_ g) ->
  exists g', resume_after_restore now (rebuilt_from now g g1) = (g', Val tt) /\ taken_over now (rebuilt_from now g g1) g'.
Proof.
  intros Hs Hd. apply resume_succeeds.
  - eapply sorted_same_keys; [symmetry; apply keys_restored|exact Hs].
  - apply Forall_fmap. eapply Forall_impl; [exact Hd|]. intros e He. by apply restored_demotable.
Qed.

(** C9: What a governor writes, its successor reads back, under the conditions that [snapshot_ready]
    and [demotable] spell out. The governor satisfies the invariant of every run, its numbers fit
    their fields, its tables and its population fit the limits they are read under, no flow has a
    folded history or a window after its completion, and the newest transition of every classified
    flow leads to the state of its verdict and is not later than [now]. If its state fits the
    ceiling of the writer, then any governor of the same configuration under a later incarnation
    restores it, to its last byte: the policy, the exit rules, both tables, the two
    sequences and the set of flows are those that were written, every flow has its retained windows,
    its completion, the identity and measurements of its verdict and its history, transition by
    transition, continued by exactly the withdrawal of that verdict, and every intent is found under
    its identifier, unchanged or, when it was live, fenced. Outside these conditions a governor's
    own bytes can be refused ([own_snapshot_refused]). *)
Theorem snapshot_round_trip (now : Tick) (g g1 : Governor.t) (ceiling : Z) :
  snapshot_ready g -> Forall (fun e => demotable now e.2) (Governor.flows_ g) ->
  Governor.config_ g1 = Governor.config_ g ->
  succeeds (GovernorIncarnation.boot (Governor.incarnation_ g)) (GovernorIncarnation.boot (Governor.incarnation_ g1)) ->
  0 <= ceiling ->
  let '(w, status) := serialize g (ByteWriter.make ceiling) in
  status = Val tt ->
  exists g' r, deserialize now (g1, ByteReader.make (ByteWriter.buffer_ w)) = ((g', r), Val tt) /\ rest r = [] /\
    Governor.policy_ g' = Governor.policy_ g /\ Governor.exit_rules_ g' = Governor.exit_rules_ g /\
    CapacityTable.entries_ (Governor.capacities_ g') = CapacityTable.entries_ (Governor.capacities_ g) /\
    PathTable.entries_ (Governor.paths_ g') = PathTable.entries_ (Governor.paths_ g) /\
    Governor.classification_sequence_ g' = Governor.classification_sequence_ g /\
    Governor.intent_sequence_ g' = Governor.intent_sequence_ g /\
    Governor.last_tick_ g' = Z.max (Governor.last_tick_ g) now /\
    OMap.keys (Governor.flows_ g') = OMap.keys (Governor.flows_ g) /\
    (forall key rec, OMap.find key (Governor.flows_ g) = Some rec ->
       exists rec', OMap.find key (Governor.flows_ g') = Some rec' /\ survives now rec rec') /\
    (forall id, IntentLedger.find id (Governor.intents_ g') = fenced <$> IntentLedger.find id (Governor.intents_ g)).
Proof.
  intros Hready Hdem Hcfg Hsucc Hceil. destruct (serialize g (ByteWriter.make ceiling)) as [w status] eqn:Ew.
  unfold serialize in Ew. cbv zeta in Ew. apply pair_equal_spec in Ew as [<- <-]. intros Hst.
  assert (Ho : ByteWriter.overflowed_ (emit (state_statements g) (ByteWriter.make ceiling)) = false)
    by (by destruct (ByteWriter.overflowed_ _)).
  destruct (sr_inv _ Hready) as [_ [I2 _] I3 _ _ _ _ _ _ _].
  destruct (rebuilt_resumes now g g1 I3 Hdem) as (g' & Hres & Htk).
  destruct (restores_bytes _ _ _ _ _ ceiling (restores_state now g g1 g' Hready Hcfg Hsucc Hres) Hceil Ho) as (r & Hr & Hrest).
  exists g', r. split; [exact Hr|]. split; [exact Hrest|]. destruct Htk as [T1 T2 T3 T4 T5 T6 T7 T8 T9 T10 T11 T12 T13].
  split_and!; [exact T3|exact T4|by rewrite T5|by rewrite T6|exact T8|exact T9| | | |].
  - rewrite T10. simpl. split_ifs; lia.
  - rewrite T12. apply keys_restored.
  - intros key rec Hk. destruct (T13 key (restored_record (Governor.config_ g) key rec)) as (rec' & Hk' & Hs).
    { simpl. unfold restored_flows. rewrite find_map_values, Hcfg, Hk. done. }
    exists rec'. split; [exact Hk'|]. apply find_elem_of in Hk.
    pose proof (ready_flows _ Hready) as Hf. rewrite Forall_forall in Hf, Hdem. 
    pose proof (sr_flows _ Hready) as Hl. rewrite Forall_forall in Hl.
    eapply restored_survives; [|exact (Hf _ Hk)|exact (proj2 (fr_limits _ _ _ (Hl _ Hk)))|exact (Hdem _ Hk)|exact Hs]. lia.
  - intros id. rewrite T11. by apply restored_intents.
Qed.

(** Range conditions of a concrete state. *)
Ltac in_range :=
  repeat first [apply List.Forall_nil | apply List.Forall_cons | (hnf; split)];
  vm_compute; first [reflexivity | discriminate | (intros; discriminate) | (left; reflexivity)].

Lemma demo_run_inv : gov_inv demo_run.
Proof. rewrite <- demo_run_eq. apply (steps_run demo_ops), gov_inv_make; [apply demo_gov_ops_ok|apply demo_config_ok]. Qed.

Lemma demo_flows_ready : Forall (fun e => flow_ready (Governor.config_ demo_run) e.1 e.2) (Governor.flows_ demo_run).
Proof.
  destruct (Governor.flows_ demo_run) as [|[key r] [|]] eqn:E; [done| |discriminate E].
  injection E as <- <-. apply Forall_singleton. split; in_range.
Qed.

Lemma demo_ready : snapshot_ready demo_run.
Proof.
  split.
  - exact demo_run_inv.
  - split; in_range.
  - intros p Hp. injection Hp as <-. in_range.
  - intros Hp. discriminate Hp.
  - in_range.
  - in_range.
  - exact demo_flows_ready.
  - in_range.
  - in_range.
  - in_range.
Qed.

Lemma demo_demotable : Forall (fun e => demotable 400 e.2) (Governor.flows_ demo_run).
Proof.
  destruct (Governor.flows_ demo_run) as [|[key r] [|]] eqn:E; [done| |discriminate E].
  injection E as <- <-. apply Forall_singleton. intros _ a Ha. vm_compute in Ha. injection Ha as <-.
  split; vm_compute; [reflexivity|discriminate].
Qed.

Lemma snapshot_round_trip_witness :
  exists g' r, deserialize 400 (next_governor, ByteReader.make (serialized demo_run)) = ((g', r), Val tt) /\
    Governor.policy_ g' = Governor.policy_ demo_run /\
    OMap.keys (Governor.flows_ g') = [(7, 1)] /\
    IntentLedger.find 1 (Governor.intents_ g') = fenced <$> IntentLedger.find 1 (Governor.intents_ demo_run).
Proof.
  pose proof (snapshot_round_trip 400 demo_run next_governor 100000 demo_ready demo_demotable eq_refl) as H.
  assert (Hs : succeeds (GovernorIncarnation.boot (Governor.incarnation_ demo_run))
    (GovernorIncarnation.boot (Governor.incarnation_ next_governor))) by in_range.
  assert (Hv : snd (serialize demo_run (ByteWriter.make 100000)) = Val tt) by (vm_compute; reflexivity).
  specialize (H Hs ltac:(lia)). unfold serialized.
  destruct (serialize demo_run (ByteWriter.make 100000)) as [w status]. cbn [fst snd] in *.
  destruct (H Hv) as (g' & r & Hr & _ & Hp & _ & _ & _ & _ & _ & _ & Hk & _ & Hi).
  exists g', r. split; [exact Hr|]. split; [exact Hp|]. split; [rewrite Hk; vm_compute; reflexivity|exact (Hi 1)].
Defined.
