(* ===== verification/Journal.v ===== *)
(** * Journal and snapshot files ([include/efg/persistence.hpp], [src/persistence.cpp])

    The bytes of the two durable artifacts and the code that writes and reads them. A
    file is the bytes handed to it and how many of them are known to be on stable storage;
    the disk holds the journal, the snapshot and the snapshot's temporary sibling. Every
    call into the operating system consults the disk's list of faults: [None] lets the call
    succeed, [Some k] makes it fail, a failing write having put [k] of its bytes into the
    file; when the list is exhausted every call succeeds. The [memcpy] of an integer from a
    buffer is that of a little-endian host. *)
From S2P Require Import Prelude Status Checked Tick Hash Codec.

Definition kMaxJournalRecordBytes : Z := Z.shiftl 1 20.
Definition kMaxSnapshotBytes : Z := Z.shiftl 1 28.
Definition kMaxJournalReplayRecords : Z := Z.shiftl 1 22.
Definition kMaxJournalFileBytes : Z := Z.shiftl 1 34.

Module RecordType.
Inductive t : Type :=
| Begin | PolicyAccepted | CapacityAccepted | PathAccepted | FlowClassified | FlowTransition
| IntentRecorded | IntentTransition | IntentFenced | TickCommitted | Snapshot | Shutdown | Count.
#[global] Instance eq_dec : EqDecision t.
Proof. solve_decision. Defined.
Definition to_u16 (k : t) : Z :=
  match k with
  | Begin => 1 | PolicyAccepted => 2 | CapacityAccepted => 3 | PathAccepted => 4
  | FlowClassified => 5 | FlowTransition => 6 | IntentRecorded => 7 | IntentTransition => 8
  | IntentFenced => 9 | TickCommitted => 10 | Snapshot => 11 | Shutdown => 12 | Count => 13
  end.
(** [static_cast<RecordType>(raw)] of a value that passed the range check. *)
Definition of_u16 (raw : Z) : t :=
  nth (Z.to_nat (raw - 1)) [Begin; PolicyAccepted; CapacityAccepted; PathAccepted; FlowClassified;
    FlowTransition; IntentRecorded; IntentTransition; IntentFenced; TickCommitted; Snapshot;
    Shutdown] Count.
End RecordType.

(** ** Files *)

Module File.
Record t := mk { bytes : list Z; synced : nat }.
#[global] Instance eta_t : Eta t := fun r => mk (bytes r) (synced r).
Definition empty : t := mk [] 0.
Definition put (bs : list Z) (f : t) : t := f <| bytes ::= (fun b => b ++ bs) |>.
Definition sync (f : t) : t := f <| synced := length (bytes f) |>.
End File.

Module Disk.
Record t := mk {
  journal : option File.t;
  snapshot : option File.t;
  temporary : option File.t;
  faults : list (option nat) }.
#[global] Instance eta_t : Eta t := fun r => mk (journal r) (snapshot r) (temporary r) (faults r).

(** The outcome of the next call. *)
Definition call (d : t) : t * option nat :=
  match faults d with
  | [] => (d, None)
  | f :: rest => (d <| faults := rest |>, f)
  end.

Definition failed (fault : option nat) : bool :=
  match fault with Some _ => true | None => false end.

(** A call whose failure is reported as [c]. *)
Definition try_call (c : StatusCode.t) : M t unit := fun d =>
  let '(d, fault) := call d in
  (d, match fault with None => Val tt | Some _ => Err c end).

(** [std::fwrite(bytes)] to a file opened for appending or just created; writing nothing
    makes no call. *)
Definition fwrite (slot : t -> option File.t) `{!Setter slot} (bs : list Z) : M t unit := fun d =>
  let '(d, fault) := call d in
  match fault with
  | None => (d <| slot ::= fmap (File.put bs) |>, Val tt)
  | Some k => (d <| slot ::= fmap (File.put (take (Nat.min k (length bs - 1)) bs)) |>,
               Err StatusCode.IoError)
  end.

(** [flush_to_stable]: [fflush] and [fsync]. *)
Definition flush_to_stable (slot : t -> option File.t) `{!Setter slot} : M t unit := fun d =>
  let '(d, fault) := call d in
  match fault with
  | None => (d <| slot ::= fmap File.sync |>, Val tt)
  | Some _ => (d, Err StatusCode.IoError)
  end.

(** [std::fopen(..., "wb")]: the file exists and is empty. *)
Definition create (slot : t -> option File.t) `{!Setter slot} : M t unit :=
  try_call StatusCode.IoError ;;
  modify (fun d => d <| slot := Some File.empty |>).

Definition content (slot : t -> option File.t) (d : t) : list Z :=
  match slot d with Some f => File.bytes f | None => [] end.
End Disk.

(** [memcpy] of an integer of [n] bytes at [offset]. *)
Definition load (n offset : nat) (bs : list Z) : Z :=
  ByteReader.le_value (take n (drop offset bs)).

(** ** Layouts *)

(** "EFGJRNL1" and "EFGSNAP1". *)
Definition kJournalMagic : list Z := [69; 70; 71; 74; 82; 78; 76; 49].
Definition kSnapshotMagic : list Z := [69; 70; 71; 83; 78; 65; 80; 49].
Definition kRecordMagic : Z := 0xEF6A.
Definition kJournalHeaderBytes : Z := 16.
Definition kRecordHeaderBytes : Z := 20.
Definition kSnapshotHeaderBytes : Z := 24.

Definition put_u16 (value : Z) (w : ByteWriter.t) : ByteWriter.t := fst (ByteWriter.write_u16 value w).
Definition put_bytes (bs : list Z) (w : ByteWriter.t) : ByteWriter.t := fst (ByteWriter.write_bytes bs w).

Definition journal_header : list Z :=
  let header := emit [put_bytes kJournalMagic; put_u32 kSchemaVersion]
                  (ByteWriter.make kJournalHeaderBytes) in
  ByteWriter.buffer_ (put_u32 (crc32c (take 12 (ByteWriter.buffer_ header))) header).

Definition record_header (type : RecordType.t) (payload_size sequence : Z) : list Z :=
  ByteWriter.buffer_ (emit [
    put_u16 kRecordMagic;
    put_u16 (RecordType.to_u16 type);
    put_u32 kSchemaVersion;
    put_u32 (wrap 32 payload_size);
    put_u64 sequence ] (ByteWriter.make kRecordHeaderBytes)).

Definition snapshot_header (payload : list Z) : list Z :=
  ByteWriter.buffer_ (emit [
    put_bytes kSnapshotMagic;
    put_u32 kSchemaVersion;
    put_u64 (size_of payload);
    put_u32 (crc32c payload) ] (ByteWriter.make kSnapshotHeaderBytes)).

(** The bytes one record occupies in the file. *)
Definition record_bytes (type : RecordType.t) (payload : list Z) (sequence : Z) : list Z :=
  record_header type (size_of payload) sequence ++ payload ++ le_bytes 4 (crc32c payload).

(** ** Replay *)

Module JournalReplayStats.
Record t := mk {
  records : Z;
  bytes : Z;
  sequence_last : Z;
  rejected : Z;
  truncated_tail : bool;
  header_invalid : bool;
  oversize_record : bool }.
#[global] Instance eta_t : Eta t := fun r =>
  mk (records r) (bytes r) (sequence_last r) (rejected r) (truncated_tail r) (header_invalid r)
     (oversize_record r).
Definition zero : t := mk 0 0 0 0 false false false.
End JournalReplayStats.

Definition parse_header (bytes : list Z) (max_record_bytes : Z) : StatusOr (RecordType.t * Z * Z) :=
  refuse_if (size_of bytes <? kRecordHeaderBytes) StatusCode.Truncated ;;
  snd ((magic ← need ByteReader.read_u16;
        raw_type ← need ByteReader.read_u16;
        lift (refuse_if (negb (magic =? kRecordMagic)) StatusCode.Corrupt) ;;
        lift (refuse_if ((raw_type =? 0) || (raw_type >=? RecordType.to_u16 RecordType.Count))
                StatusCode.Corrupt) ;;
        schema ← need_u32;
        lift (refuse_if (negb (schema =? kSchemaVersion)) StatusCode.VersionMismatch) ;;
        payload_length ← need_u32;
        sequence ← need_u64;
        lift (refuse_if (payload_length >? max_record_bytes) StatusCode.Oversized) ;;
        mret (RecordType.of_u16 raw_type, payload_length, sequence))
       (ByteReader.make (take (Z.to_nat kRecordHeaderBytes) bytes))).

Section replay.
Context {S : Type} (visitor : RecordType.t -> list Z -> Z -> M S unit).
Implicit Types (stats : JournalReplayStats.t).

(** What the loop ends with: the statistics and the status. *)
Definition Ended : Type := JournalReplayStats.t * Status.

(** [while (true) { ... }] over the file's bytes from [cursor]. [None] is an exhausted
    [fuel]. *)
Fixpoint replay_loop (fuel : nat) (file : list Z) (cursor : Z) (stats : JournalReplayStats.t)
    (ds : Disk.t * S) : (Disk.t * S) * option Ended :=
  match fuel with
  | O => (ds, None)
  | Datatypes.S fuel =>
  let '(d, s) := ds in
  let total := size_of file in
  let torn := stats <| JournalReplayStats.truncated_tail := true |> in
  let finish ds stats :=
    (ds, Some (stats <| JournalReplayStats.bytes := cursor - kJournalHeaderBytes |>, Val tt)) in
  if cursor + kRecordHeaderBytes + 4 >? total
  then finish (d, s) (if negb (cursor =? total) then torn else stats)
  else
  match Disk.try_call StatusCode.IoError d with
  | (d, Err c) => ((d, s), Some (stats, Err c))
  | (d, Val _) =>
  let '(d, fault) := Disk.call d in
  if Disk.failed fault then finish (d, s) torn
  else
  let header := take (Z.to_nat kRecordHeaderBytes) (drop (Z.to_nat cursor) file) in
  match parse_header header kMaxJournalRecordBytes with
  | Err StatusCode.Oversized =>
      ((d, s), Some (stats <| JournalReplayStats.oversize_record := true |>, Err StatusCode.Oversized))
  | Err _ => finish (d, s) torn
  | Val (type, payload_length, sequence) =>
      let record_total := kRecordHeaderBytes + payload_length + 4 in
      if cursor + record_total >? total then finish (d, s) torn
      else
      let '(d, fault) := Disk.call d in
      if Disk.failed fault then finish (d, s) torn
      else
      let body := drop (Z.to_nat (cursor + kRecordHeaderBytes)) file in
      let payload := take (Z.to_nat payload_length) body in
      if negb (crc32c payload =? load 4 (Z.to_nat payload_length) body)
      then ((d, s), Some (stats <| JournalReplayStats.rejected ::= inc64 |>,
                          Err StatusCode.IntegrityFailure))
      else
      match visitor type payload sequence s with
      | (s, Err c) => ((d, s), Some (stats <| JournalReplayStats.rejected ::= inc64 |>, Err c))
      | (s, Val _) =>
          replay_loop fuel file (cursor + record_total)
            (stats <| JournalReplayStats.records ::= inc64 |>
                   <| JournalReplayStats.sequence_last := sequence |>) (d, s)
      end
  end end end.

(** Each record takes at least 24 bytes of the file, so its length bounds the number of
    iterations. *)
Definition replay (ds : Disk.t * S) : (Disk.t * S) * option Ended :=
  let '(d, s) := ds in
  let stats := JournalReplayStats.zero in
  let invalid := stats <| JournalReplayStats.header_invalid := true |> in
  let '(d, fault) := Disk.call d in
  match Disk.journal d with
  | None => ((d, s), Some (invalid, Err StatusCode.NotFound))
  | Some f =>
  if Disk.failed fault then ((d, s), Some (invalid, Err StatusCode.NotFound))
  else
  match Disk.try_call StatusCode.IoError d with
  | (d, Err c) => ((d, s), Some (stats, Err c))
  | (d, Val _) =>
  let file := File.bytes f in
  let '(d, fault) := Disk.call d in
  if Disk.failed fault || (size_of file <? kJournalHeaderBytes) ||
     negb (bool_decide (take 8 file = kJournalMagic))
  then ((d, s), Some (invalid, Err StatusCode.Corrupt))
  else if negb (crc32c (take 12 file) =? load 4 12 file)
  then ((d, s), Some (invalid, Err StatusCode.IntegrityFailure))
  else
  match Disk.try_call StatusCode.IoError d with
  | (d, Err c) => ((d, s), Some (stats, Err c))
  | (d, Val _) =>
      replay_loop (Datatypes.S (length file)) file kJournalHeaderBytes stats (d, s)
  end end end.
End replay.

(** [verify]: replay with a visitor that accepts everything. *)
Definition verify : M Disk.t (option Ended) := fun d =>
  let '((d, _), ended) := replay (fun _ _ _ => mret tt) (d, tt) in (d, Val ended).

(** ** The journal *)

Module Journal.
Record Options := mkOptions {
  max_record_bytes : Z;
  max_file_bytes : Z;
  fsync_on_commit : bool }.
Definition default_options : Options := mkOptions kMaxJournalRecordBytes kMaxJournalFileBytes true.

Record t := mk {
  open_ : bool;
  options_ : Options;
  sequence_ : Z;
  size_bytes_ : Z }.
#[global] Instance eta_t : Eta t := fun r => mk (open_ r) (options_ r) (sequence_ r) (size_bytes_ r).
(** [Journal()]. *)
Definition default : t := mk false default_options 0 0.

(** Write a fresh header into the file just created and force it out. *)
Definition write_header : M Disk.t unit :=
  Disk.fwrite Disk.journal journal_header ;; Disk.flush_to_stable Disk.journal.

(** The checks on the header of an existing file. *)
Definition check_header (file : list Z) : Status :=
  refuse_if (size_of file <? kJournalHeaderBytes) StatusCode.Truncated ;;
  refuse_if (negb (bool_decide (take 8 file = kJournalMagic))) StatusCode.Corrupt ;;
  refuse_if (negb (crc32c (take 12 file) =? load 4 12 file)) StatusCode.IntegrityFailure ;;
  refuse_if (negb (load 4 8 file =? kSchemaVersion)) StatusCode.VersionMismatch.

Definition open (path_empty : bool) (options : Options) : M Disk.t t :=
  lift (refuse_if path_empty StatusCode.InvalidArgument) ;;
  lift (refuse_if ((max_record_bytes options =? 0) ||
                   (max_record_bytes options >? kMaxJournalRecordBytes)) StatusCode.OutOfRange) ;;
  Disk.try_call StatusCode.IoError ;;  (* create_directories *)
  Disk.try_call StatusCode.IoError ;;  (* exists *)
  d ← get;
  (match Disk.journal d with
   | None => Disk.create Disk.journal ;; write_header
   | Some f =>
       Disk.try_call StatusCode.IoError ;;  (* fopen "rb" *)
       Disk.try_call StatusCode.Truncated ;;  (* fread *)
       lift (check_header (File.bytes f))
   end) ;;
  Disk.try_call StatusCode.IoError ;;  (* fopen "ab" *)
  size ← catch (Disk.try_call StatusCode.IoError ;; d ← get; mret (size_of (Disk.content Disk.journal d)));
  ended ← verify;
  let sequence := match ended with
                  | Some (stats, _) => JournalReplayStats.sequence_last stats
                  | None => 0
                  end in
  mret (mk true options sequence (value_or size 0)).

(** Methods of a journal on its disk. *)
Definition MJ (A : Type) : Type := M (t * Disk.t) A.
Definition io {A} (m : M Disk.t A) : MJ A := fun jd =>
  let '(j, d) := jd in let '(d, x) := m d in ((j, d), x).
Definition self : MJ t := fun jd => (jd, Val jd.1).
Definition assign (f : t -> t) : MJ unit := fun jd => ((f jd.1, jd.2), Val tt).
Definition guard (refused : bool) (c : StatusCode.t) : MJ unit := lift (refuse_if refused c).

Definition append (type : RecordType.t) (payload : list Z) (durable : bool) : MJ unit :=
  j ← self;
  guard (negb (open_ j)) StatusCode.Closed ;;
  guard (RecordType.to_u16 type >=? RecordType.to_u16 RecordType.Count) StatusCode.InvalidArgument ;;
  guard (size_of payload >? max_record_bytes (options_ j)) StatusCode.Oversized ;;
  let record_bytes := kRecordHeaderBytes + size_of payload + 4 in
  guard ((record_bytes >? max_file_bytes (options_ j)) ||
         (size_bytes_ j >? max_file_bytes (options_ j) - record_bytes)) StatusCode.Oversized ;;
  guard (sequence_ j =? u64_max) StatusCode.Overflow ;;
  io (Disk.fwrite Disk.journal (record_header type (size_of payload) (wrap 64 (sequence_ j + 1)))) ;;
  (if bool_decide (payload = []) then mret tt else io (Disk.fwrite Disk.journal payload)) ;;
  io (Disk.fwrite Disk.journal (le_bytes 4 (crc32c payload))) ;;
  assign (fun j => j <| sequence_ ::= inc64 |> <| size_bytes_ ::= add64 record_bytes |>) ;;
  if durable && fsync_on_commit (options_ j) then io (Disk.flush_to_stable Disk.journal) else mret tt.

Definition sync : MJ unit :=
  j ← self;
  guard (negb (open_ j)) StatusCode.Closed ;;
  io (Disk.flush_to_stable Disk.journal).

(** On every early return after the file was closed the journal stays closed. *)
Definition reset : MJ unit :=
  j ← self;
  guard (negb (open_ j)) StatusCode.Closed ;;
  io (Disk.try_call StatusCode.IoError) ;;  (* fflush *)
  assign (fun j => j <| open_ := false |>) ;;
  io (Disk.create Disk.journal) ;;
  io write_header ;;
  io (Disk.try_call StatusCode.IoError) ;;  (* fopen "ab" *)
  assign (fun j => j <| open_ := true |> <| sequence_ := 0 |> <| size_bytes_ := kJournalHeaderBytes |>).

Definition close : MJ unit :=
  j ← self;
  if negb (open_ j) then mret tt
  else
    flushed ← catch (io (Disk.flush_to_stable Disk.journal));
    result ← catch (io (Disk.try_call StatusCode.IoError));  (* fclose *)
    assign (fun j => j <| open_ := false |>) ;;
    lift flushed ;;
    lift result.

(** [~Journal()]. *)
Definition destroy : MJ unit :=
  j ← self;
  if open_ j then catch close ;; mret tt else mret tt.
End Journal.

(** ** Snapshots *)

Module SnapshotFile.
(** [std::filesystem::remove(temporary, error)], whose error is ignored. *)
Definition discard : M Disk.t unit :=
  catch (Disk.try_call StatusCode.IoError ;; modify (fun d => d <| Disk.temporary := None |>)) ;;
  mret tt.

Definition write_atomic (path_empty : bool) (max_bytes : Z) (payload : list Z) : M Disk.t unit :=
  lift (refuse_if path_empty StatusCode.InvalidArgument) ;;
  lift (refuse_if (size_of payload >? max_bytes) StatusCode.Oversized) ;;
  Disk.try_call StatusCode.IoError ;;  (* create_directories *)
  Disk.create Disk.temporary ;;
  written ← catch (Disk.fwrite Disk.temporary (snapshot_header payload) ;;
                   (if bool_decide (payload = []) then mret tt
                    else Disk.fwrite Disk.temporary payload) ;;
                   Disk.flush_to_stable Disk.temporary);
  match written with
  | Err c => discard ;; fail c
  | Val _ =>
      renamed ← catch (Disk.try_call StatusCode.IoError ;;  (* rename_over *)
                       modify (fun d => d <| Disk.snapshot := Disk.temporary d |>
                                          <| Disk.temporary := None |>));
      match renamed with
      | Err c => discard ;; fail c
      | Val _ => mret tt
      end
  end.

Definition read (max_bytes : Z) : M Disk.t (list Z) :=
  Disk.try_call StatusCode.NotFound ;;
  d ← get;
  match Disk.snapshot d with
  | None => fail StatusCode.NotFound
  | Some f =>
      let file := File.bytes f in
      (Disk.try_call StatusCode.Truncated) ;;
      lift (refuse_if (size_of file <? kSnapshotHeaderBytes) StatusCode.Truncated) ;;
      lift (refuse_if (negb (bool_decide (take 8 file = kSnapshotMagic))) StatusCode.Corrupt) ;;
      lift (refuse_if (negb (load 4 8 file =? kSchemaVersion)) StatusCode.VersionMismatch) ;;
      let length := load 8 12 file in
      lift (refuse_if (length >? max_bytes) StatusCode.Oversized) ;;
      let rest := drop (Z.to_nat kSnapshotHeaderBytes) file in
      (if length =? 0 then mret tt
       else Disk.try_call StatusCode.Truncated ;;
            lift (refuse_if (size_of rest <? length) StatusCode.Truncated)) ;;
      let payload := take (Z.to_nat length) rest in
      lift (refuse_if (negb (crc32c payload =? load 4 20 file)) StatusCode.IntegrityFailure) ;;
      mret payload
  end.
End SnapshotFile.
