(* ===== verification/JournalFacts.v ===== *)
(** * What the journal and the snapshot guarantee

    Replay terminates on every file; it visits exactly the records that were appended, stops
    at a torn tail without applying any of it, and at a damaged payload with everything before
    it applied. A snapshot is replaced as a whole or not at all. *)
From S2P Require Import Prelude Status Checked Tick Hash Codec CodecFacts Journal.

#[local] Opaque crc32c.

(** ** Layouts *)

Lemma carries_u16 v : u16_ok v -> carries (put_u16 v) (need ByteReader.read_u16) v.
Proof.
  intros Hv. exists (le_bytes 2 v). split; [apply (writes_push (le_bytes 2 v))|].
  by apply parses_need_value.
Qed.

(** What a fresh writer with exactly enough room holds. *)
Lemma writes_make f bs : writes f bs ->
  ByteWriter.buffer_ (f (ByteWriter.make (size_of bs))) = bs.
Proof.
  intros Hf. destruct (Hf (ByteWriter.make (size_of bs))) as (_ & _ & Ho & Hb).
  { unfold writer_ok, ByteWriter.size, size_of. simpl. lia. }
  apply Hb, Ho. unfold ByteWriter.size, size_of. simpl. split; [done|lia].
Qed.

Definition header_fields (type : RecordType.t) (payload_size sequence : Z) : list Z :=
  le_bytes 2 kRecordMagic ++ le_bytes 2 (RecordType.to_u16 type) ++ le_bytes 4 kSchemaVersion ++
  le_bytes 4 (wrap 32 payload_size) ++ le_bytes 8 sequence ++ [].

Lemma length_header_fields type size sequence : length (header_fields type size sequence) = 20%nat.
Proof. unfold header_fields. by rewrite !length_app, !length_le_bytes. Qed.

Lemma record_header_fields type size sequence :
  record_header type size sequence = header_fields type size sequence.
Proof.
  unfold record_header. change kRecordHeaderBytes with 20.
  replace 20 with (size_of (header_fields type size sequence))
    by (unfold size_of; by rewrite length_header_fields).
  apply writes_make. unfold header_fields.
  apply writes_cons; [apply (writes_push (le_bytes 2 _))|].
  apply writes_cons; [apply (writes_push (le_bytes 2 _))|].
  apply writes_cons; [apply (writes_push (le_bytes 4 _))|].
  apply writes_cons; [apply (writes_push (le_bytes 4 _))|].
  apply writes_cons; [apply (writes_push (le_bytes 8 _))|]. apply writes_nil.
Qed.

Lemma length_record_header type size sequence : length (record_header type size sequence) = 20%nat.
Proof. rewrite record_header_fields. apply length_header_fields. Qed.

Lemma length_record_bytes type payload sequence :
  length (record_bytes type payload sequence) = (24 + length payload)%nat.
Proof.
  unfold record_bytes. rewrite !length_app, length_record_header, length_le_bytes. lia.
Qed.

Lemma crc32c_range bs : u32_ok (crc32c bs).
Proof.
  Transparent crc32c. unfold crc32c. Opaque crc32c. apply lxor_range; [lia| |unfold in_range; lia].
  apply crc_fold_range. unfold in_range. lia.
Qed.

(** A check that passes. *)
Lemma parses_guard {A} b c (k : unit -> M ByteReader.t A) bs x :
  b = false -> parses (k tt) bs x -> parses (lift (refuse_if b c) ≫= k) bs x.
Proof. intros ->. apply (parses_bind (lift (Val tt)) k [] bs tt x (parses_ret tt)). Qed.

(** ** Records *)

Module Entry.
Record t := mk { type : RecordType.t; payload : list Z; sequence : Z }.
Record ok (e : t) : Prop := {
  ok_type : type e <> RecordType.Count;
  ok_size : size_of (payload e) <= kMaxJournalRecordBytes;
  ok_sequence : u64_ok (sequence e) }.
Definition to_bytes (e : t) : list Z := record_bytes (type e) (payload e) (sequence e).
End Entry.

Lemma length_to_bytes e : length (Entry.to_bytes e) = (24 + length (Entry.payload e))%nat.
Proof. unfold Entry.to_bytes. by rewrite length_record_bytes. Qed.

Lemma begin_ok : Entry.ok (Entry.mk RecordType.Begin [] 1).
Proof. by split. Qed.

Lemma of_to_u16 type : type <> RecordType.Count ->
  RecordType.of_u16 (RecordType.to_u16 type) = type /\ 1 <= RecordType.to_u16 type <= 12.
Proof. by destruct type. Qed.

Lemma parse_record_header (e : Entry.t) :
  Entry.ok e ->
  parse_header (record_header (Entry.type e) (size_of (Entry.payload e)) (Entry.sequence e))
    kMaxJournalRecordBytes = Val (Entry.type e, size_of (Entry.payload e), Entry.sequence e).
Proof.
  intros [Ht Hs Hq]. unfold parse_header.
  set (h := record_header _ _ _). assert (Hl : length h = 20%nat) by apply length_record_header.
  replace (size_of h <? kRecordHeaderBytes) with false by (unfold size_of; by rewrite Hl).
  cbn [refuse_if mbind StatusOr_bind]. rewrite take_ge by (rewrite Hl; done).
  destruct (of_to_u16 _ Ht) as [Hof Hrange].
  assert (Hsz : u32_ok (size_of (Entry.payload e))).
  { pose proof (size_of_nonneg (Entry.payload e)). change kMaxJournalRecordBytes with 1048576 in Hs. ulia. }
  match goal with |- snd (?m _) = _ =>
    assert (Hp : parses m (header_fields (Entry.type e) (size_of (Entry.payload e)) (Entry.sequence e))
      (Entry.type e, size_of (Entry.payload e), Entry.sequence e)) end.
  { unfold header_fields. rewrite wrap_small by done.
    eapply parses_bind; [apply parses_need_value; by vm_compute|].
    eapply parses_bind; [apply parses_need_value; unfold in_range; lia|].
    apply parses_guard; [by rewrite Z.eqb_refl|]. apply parses_guard.
    { apply orb_false_iff. cbn. split; [apply Z.eqb_neq; lia|]. rewrite Z.geb_leb. apply Z.leb_gt. lia. }
    eapply parses_bind; [apply parses_need_value; by vm_compute|].
    apply parses_guard; [done|].
    eapply parses_bind; [by apply parses_need_value|].
    eapply parses_bind; [by apply parses_need_value|].
    apply parses_guard; [blia|].
    rewrite Hof. apply parses_ret. }
  destruct (parses_all _ _ _ Hp (ByteReader.make h) []) as (r' & -> & _); [|done].
  unfold rest, ByteReader.make. cbn [ByteReader.data_ ByteReader.offset_].
  rewrite drop_0, app_nil_r. apply record_header_fields.
Qed.

(** ** The loop *)

Lemma take_drop_app {A} n (pre l : list A) : take n (drop (length pre) (pre ++ l)) = take n l.
Proof. by rewrite drop_app_length. Qed.

Section loop.
Context {S : Type} (visitor : RecordType.t -> list Z -> Z -> M S unit).

Definition visit (e : Entry.t) : M S unit :=
  visitor (Entry.type e) (Entry.payload e) (Entry.sequence e).

(** The statistics after a visited record. *)
Definition visited (e : Entry.t) (stats : JournalReplayStats.t) : JournalReplayStats.t :=
  stats <| JournalReplayStats.records ::= inc64 |>
        <| JournalReplayStats.sequence_last := Entry.sequence e |>.

(** What the loop does at an intact header: the record is torn, damaged, or visited. *)
Lemma loop_step fuel pre e body stats d s :
  Entry.ok e -> Disk.faults d = [] -> (4 <= length body)%nat ->
  let n := length (Entry.payload e) in
  let file := pre ++ record_header (Entry.type e) (size_of (Entry.payload e)) (Entry.sequence e) ++ body in
  replay_loop visitor (Datatypes.S fuel) file (size_of pre) stats (d, s) =
  if (length body <? n + 4)%nat
  then ((d, s), Some (stats <| JournalReplayStats.truncated_tail := true |>
          <| JournalReplayStats.bytes := size_of pre - kJournalHeaderBytes |>, Val tt))
  else if negb (crc32c (take n body) =? load 4 n body)
  then ((d, s), Some (stats <| JournalReplayStats.rejected ::= inc64 |>, Err StatusCode.IntegrityFailure))
  else match visitor (Entry.type e) (take n body) (Entry.sequence e) s with
       | (s, Err c) => ((d, s), Some (stats <| JournalReplayStats.rejected ::= inc64 |>, Err c))
       | (s, Val _) => replay_loop visitor fuel file (size_of pre + (24 + Z.of_nat n))
                         (visited e stats) (d, s)
       end.
Proof.
  intros He Hd Hb. cbv zeta.
  set (n := length (Entry.payload e)). set (h := record_header _ _ _).
  assert (Hl : length h = 20%nat) by apply length_record_header.
  assert (Hcall : Disk.call d = (d, None)) by (unfold Disk.call; by rewrite Hd).
  assert (Hsz : size_of (pre ++ h ++ body) = size_of pre + 20 + size_of body)
    by (unfold size_of; rewrite !length_app, Hl; lia).
  cbn [replay_loop]. rewrite Hsz. change kRecordHeaderBytes with 20.
  replace (size_of pre + 20 + 4 >? size_of pre + 20 + size_of body) with false
    by (symmetry; unfold size_of; blia).
  unfold Disk.try_call. do 2 (rewrite Hcall; cbn [Disk.failed]).
  replace (take (Z.to_nat 20) (drop (Z.to_nat (size_of pre)) (pre ++ h ++ body))) with h.
  2:{ unfold size_of. rewrite Nat2Z.id, take_drop_app. change (Z.to_nat 20) with 20%nat.
      symmetry. by apply take_app_length'. }
  unfold h at 1. rewrite parse_record_header by done.
  assert (Hbody : drop (Z.to_nat (size_of pre + 20)) (pre ++ h ++ body) = body).
  { unfold size_of. replace (Z.to_nat (Z.of_nat (length pre) + 20)) with (length pre + 20)%nat by lia.
    rewrite <- drop_drop, drop_app_length. by apply drop_app_length'. }
  assert (Hn : Z.to_nat (size_of (Entry.payload e)) = n) by (unfold size_of; lia).
  rewrite Hbody, Hn.
  replace (size_of pre + (20 + size_of (Entry.payload e) + 4) >? size_of pre + 20 + size_of body)
    with (length body <? n + 4)%nat.
  2:{ unfold size_of, n. rewrite Z.gtb_ltb.
      destruct (Nat.ltb_spec (length body) (length (Entry.payload e) + 4)), (Z.ltb_spec
        (Z.of_nat (length pre) + 20 + Z.of_nat (length body))
        (Z.of_nat (length pre) + (20 + Z.of_nat (length (Entry.payload e)) + 4))); try done; lia. }
  rewrite Hcall. cbn [Disk.failed].
  destruct (length body <? n + 4)%nat; [done|]. destruct (negb _); [done|].
  destruct (visitor _ _ _ s) as [s' [u|c]]; [|done].
  by replace (20 + size_of (Entry.payload e) + 4) with (24 + Z.of_nat n) by (unfold size_of, n; lia).
Qed.

Lemma load_le_bytes n pre v tail :
  in_range (8 * Z.of_nat n) v -> load n (length pre) (pre ++ le_bytes n v ++ tail) = v.
Proof.
  intros Hv. unfold load. rewrite take_drop_app, take_app_length' by (by rewrite length_le_bytes).
  rewrite le_value_bytes, Z.mod_small; [done|]. change 256 with (2 ^ 8).
  by rewrite <- Z.pow_mul_r by lia.
Qed.

Lemma load_app_l n offset (pre l : list Z) :
  (offset + n <= length pre)%nat -> load n offset (pre ++ l) = load n offset pre.
Proof. intros. unfold load. by rewrite drop_app_le, take_app_le by (rewrite ?length_drop; lia). Qed.

Lemma loop_record fuel pre e tail stats d s :
  Entry.ok e -> Disk.faults d = [] ->
  let file := pre ++ Entry.to_bytes e ++ tail in
  replay_loop visitor (Datatypes.S fuel) file (size_of pre) stats (d, s) =
  match visit e s with
  | (s, Err c) => ((d, s), Some (stats <| JournalReplayStats.rejected ::= inc64 |>, Err c))
  | (s, Val _) => replay_loop visitor fuel file (size_of (pre ++ Entry.to_bytes e)) (visited e stats) (d, s)
  end.
Proof.
  intros He Hd. cbv zeta. unfold Entry.to_bytes, record_bytes. rewrite <- !app_assoc.
  rewrite loop_step; [|done|done|rewrite !length_app, length_le_bytes; lia].
  replace (length _ <? _)%nat with false
    by (symmetry; apply Nat.ltb_ge; rewrite !length_app, length_le_bytes; lia).
  rewrite take_app_length, load_le_bytes, Z.eqb_refl by apply crc32c_range. cbn [negb].
  unfold visit. destruct (visitor _ _ _ s) as [s' [u|c]]; [|done]. f_equal.
  unfold size_of. rewrite !length_app, length_record_header, length_le_bytes. lia.
Qed.

(** The bytes of a run of records. *)
Definition run_bytes (es : list Entry.t) : list Z := mjoin (Entry.to_bytes <$> es).

Lemma loop_records es : forall fuel pre tail stats d s s',
  Forall Entry.ok es -> Disk.faults d = [] -> for_each visit es s = (s', Val tt) ->
  let file := pre ++ run_bytes es ++ tail in
  replay_loop visitor (length es + fuel) file (size_of pre) stats (d, s) =
  replay_loop visitor fuel file (size_of (pre ++ run_bytes es)) (foldl (fun st e => visited e st) stats es) (d, s').
Proof.
  induction es as [|e es IH]; intros fuel pre tail stats d s s' Hes Hd Hv; cbn [for_each] in Hv.
  { apply pair_equal_spec in Hv as [<- _]. unfold run_bytes. simpl. by rewrite app_nil_r. }
  inversion_clear Hes as [|?? He Hes']. apply M_bind_Val in Hv as (s1 & [] & H1 & H2).
  unfold run_bytes. cbn [length Nat.add fmap list_fmap mjoin list_join foldl]. fold (run_bytes es).
  rewrite <- app_assoc, loop_record, H1 by done.
  specialize (IH fuel (pre ++ Entry.to_bytes e) tail (visited e stats) d s1 s' Hes' Hd H2).
  cbv zeta in IH. rewrite <- !app_assoc in IH. exact IH.
Qed.

(** A record the visitor refuses ends the loop with its error. *)
Lemma loop_refused es : forall fuel pre tail stats d s s' c,
  Forall Entry.ok es -> Disk.faults d = [] -> for_each visit es s = (s', Err c) ->
  let file := pre ++ run_bytes es ++ tail in
  exists stats', replay_loop visitor (length es + fuel) file (size_of pre) stats (d, s) =
    ((d, s'), Some (stats', Err c)).
Proof.
  induction es as [|e es IH]; intros fuel pre tail stats d s s' c Hes Hd Hv; cbn [for_each] in Hv; [done|].
  inversion_clear Hes as [|?? He Hes']. cbv zeta.
  change (run_bytes (e :: es)) with (Entry.to_bytes e ++ run_bytes es).
  cbn [length Nat.add]. rewrite <- app_assoc, loop_record by done. unfold mbind, M_bind in Hv.
  destruct (visit e s) as [s1 [u|c1]]; [|injection Hv as <- <-; by eexists].
  destruct (IH fuel (pre ++ Entry.to_bytes e) tail (visited e stats) d s1 s' c Hes' Hd Hv) as [st Hst].
  exists st. rewrite <- !app_assoc in Hst. exact Hst.
Qed.

Lemma finish_at fuel file stats d s :
  replay_loop visitor (Datatypes.S fuel) file (size_of file) stats (d, s) =
  ((d, s), Some (stats <| JournalReplayStats.bytes := size_of file - kJournalHeaderBytes |>, Val tt)).
Proof.
  cbn [replay_loop]. change kRecordHeaderBytes with 20.
  replace (size_of file + 20 + 4 >? size_of file) with true by (symmetry; blia).
  by rewrite Z.eqb_refl.
Qed.

(** A strict prefix of a record at the end of the file is a torn tail. *)
Lemma loop_torn fuel pre e k stats d s :
  Entry.ok e -> Disk.faults d = [] -> (0 < k < length (Entry.to_bytes e))%nat ->
  replay_loop visitor (Datatypes.S fuel) (pre ++ take k (Entry.to_bytes e)) (size_of pre) stats (d, s) =
  ((d, s), Some (stats <| JournalReplayStats.truncated_tail := true |>
                       <| JournalReplayStats.bytes := size_of pre - kJournalHeaderBytes |>, Val tt)).
Proof.
  intros He Hd Hk. destruct (decide (k < 24)%nat) as [Hs|Hs].
  - cbn [replay_loop]. change kRecordHeaderBytes with 20.
    assert (Hsz : size_of (pre ++ take k (Entry.to_bytes e)) = size_of pre + Z.of_nat k)
      by (unfold size_of; rewrite length_app, length_take; lia).
    rewrite Hsz.
    replace (size_of pre + 20 + 4 >? size_of pre + Z.of_nat k) with true by (symmetry; blia).
    replace (size_of pre =? size_of pre + Z.of_nat k) with false by (symmetry; blia). done.
  - unfold Entry.to_bytes, record_bytes in *. set (h := record_header _ _ _) in *.
    assert (Hl : length h = 20%nat) by apply length_record_header.
    rewrite !length_app, length_le_bytes in Hk.
    rewrite take_app_ge by lia. unfold h at 1. rewrite loop_step; [|done|done|].
    + replace (length _ <? _)%nat with true; [done|]. symmetry. apply Nat.ltb_lt.
      rewrite length_take, length_app, length_le_bytes. lia.
    + rewrite length_take, length_app, length_le_bytes. lia.
Qed.
End loop.

(** ** Replay of a whole file *)

Lemma length_journal_header : length journal_header = 16%nat.
Proof. by vm_compute. Qed.

Lemma journal_header_sound :
  take 8 journal_header = kJournalMagic /\ load 4 8 journal_header = kSchemaVersion /\
  crc32c (take 12 journal_header) = load 4 12 journal_header.
Proof. by vm_compute. Qed.

#[local] Opaque journal_header record_header.

(** The statistics of a replay that visited [es] and stopped at the end of the file. *)
Definition accepted (es : list Entry.t) (torn : bool) : JournalReplayStats.t :=
  JournalReplayStats.mk (wrap 64 (size_of es)) (size_of (run_bytes es))
    (from_option Entry.sequence 0 (last es)) 0 torn false false.

Lemma visited_all es :
  foldl (fun st e => visited e st) JournalReplayStats.zero es =
  accepted es false <| JournalReplayStats.bytes := 0 |>.
Proof.
  induction es as [|e es IH] using rev_ind; [done|]. rewrite foldl_app. cbn [foldl]. rewrite IH.
  unfold accepted, visited. cbn. rewrite last_snoc. cbn [from_option].
  transitivity (JournalReplayStats.mk (inc64 (wrap 64 (size_of es))) 0 (Entry.sequence e) 0
                  false false false); [done|].
  replace (inc64 (wrap 64 (size_of es))) with (wrap 64 (size_of (es ++ [e]))); [done|].
  unfold inc64, wrap, size_of. rewrite Z.add_mod_idemp_l, length_app by lia. f_equal. simpl. lia.
Qed.

Lemma length_run_bytes es : (length es <= length (run_bytes es))%nat.
Proof.
  induction es as [|e es IH]; [done|]. change (run_bytes (e :: es)) with (Entry.to_bytes e ++ run_bytes es).
  rewrite length_app, length_to_bytes. simpl. lia.
Qed.

Lemma run_bytes_app es fs : run_bytes (es ++ fs) = run_bytes es ++ run_bytes fs.
Proof. unfold run_bytes. by rewrite fmap_app, join_app. Qed.

Lemma run_bytes_snoc es e : run_bytes (es ++ [e]) = run_bytes es ++ Entry.to_bytes e.
Proof. rewrite run_bytes_app. unfold run_bytes at 2. cbn. by rewrite app_nil_r. Qed.

(** The prologue of [replay] on a file with an intact header. *)
Lemma replay_prologue {S} (visitor : RecordType.t -> list Z -> Z -> M S unit) d f body s :
  Disk.faults d = [] -> Disk.journal d = Some f -> File.bytes f = journal_header ++ body ->
  replay visitor (d, s) =
  replay_loop visitor (Datatypes.S (length (journal_header ++ body))) (journal_header ++ body)
    (size_of journal_header) JournalReplayStats.zero (d, s).
Proof.
  intros Hd Hf Hb.
  assert (Hcall : Disk.call d = (d, None)) by (unfold Disk.call; by rewrite Hd).
  destruct journal_header_sound as (Hm & Hv & Hc).
  assert (Hl := length_journal_header).
  unfold replay, Disk.try_call. rewrite Hcall, Hf. cbn [Disk.failed].
  do 2 (rewrite Hcall; cbn [Disk.failed orb]). rewrite Hb.
  replace (size_of (journal_header ++ body) <? kJournalHeaderBytes) with false
    by (symmetry; unfold size_of, kJournalHeaderBytes; rewrite length_app, Hl; blia).
  rewrite !take_app_le by lia. rewrite Hm, Hc, bool_decide_eq_true_2 by done. cbn [negb orb].
  rewrite (load_app_l 4 12 journal_header body) by lia.
  rewrite Z.eqb_refl. cbn [negb]. by rewrite Hcall.
Qed.

(** The fuel [replay] starts with covers every record of the file. *)
Lemma enough_fuel es (pre tail : list Z) :
  exists fuel, Datatypes.S (length (pre ++ run_bytes es ++ tail)) = (length es + Datatypes.S fuel)%nat.
Proof.
  exists (length (pre ++ run_bytes es ++ tail) - length es)%nat. rewrite !length_app.
  pose proof (length_run_bytes es). lia.
Qed.

(** Replay of intact records, the last possibly followed by a torn one. *)
Lemma replay_file {S} (visitor : RecordType.t -> list Z -> Z -> M S unit) d f es e k s s' :
  Disk.faults d = [] -> Disk.journal d = Some f ->
  Forall Entry.ok es -> Entry.ok e -> (k < length (Entry.to_bytes e))%nat ->
  File.bytes f = journal_header ++ run_bytes es ++ take k (Entry.to_bytes e) ->
  for_each (visit visitor) es s = (s', Val tt) ->
  replay visitor (d, s) =
  ((d, s'), Some (accepted es (bool_decide (0 < k)%nat), Val tt)).
Proof.
  intros Hd Hf Hes He Hk Hb Hv. rewrite (replay_prologue visitor d f _ s Hd Hf Hb).
  destruct (enough_fuel es journal_header (take k (Entry.to_bytes e))) as [fuel ->].
  rewrite (loop_records visitor es _ _ _ _ d s s') by done. rewrite visited_all.
  rewrite (app_assoc journal_header).
  assert (Hsz : size_of (journal_header ++ run_bytes es) - kJournalHeaderBytes = size_of (run_bytes es)).
  { unfold size_of, kJournalHeaderBytes. rewrite length_app, length_journal_header. lia. }
  destruct k as [|k].
  - cbn [take]. rewrite app_nil_r, finish_at, Hsz. done.
  - rewrite loop_torn by (done || lia). rewrite Hsz. done.
Qed.

Lemma replay_refused {S} (visitor : RecordType.t -> list Z -> Z -> M S unit) d f es tail s s' c :
  Disk.faults d = [] -> Disk.journal d = Some f -> Forall Entry.ok es ->
  File.bytes f = journal_header ++ run_bytes es ++ tail ->
  for_each (visit visitor) es s = (s', Err c) ->
  exists stats, replay visitor (d, s) = ((d, s'), Some (stats, Err c)).
Proof.
  intros Hd Hf Hes Hb Hv. rewrite (replay_prologue visitor d f _ s Hd Hf Hb).
  destruct (enough_fuel es journal_header tail) as [fuel ->]. by apply loop_refused.
Qed.

(** ** Writing under faults *)

Lemma put_nil f : File.put [] f = f.
Proof.
  destruct f as [bs n]. transitivity (File.mk (bs ++ []) n); [done|]. by rewrite app_nil_r.
Qed.

Lemma put_put bs cs f : File.put cs (File.put bs f) = File.put (bs ++ cs) f.
Proof.
  destruct f as [b n]. transitivity (File.mk ((b ++ bs) ++ cs) n); [done|]. by rewrite <- app_assoc.
Qed.

Section writing.
Context (slot : Disk.t -> option File.t) `{!Setter slot}.
Hypothesis slot_set : forall g d, slot (d <| slot ::= g |>) = g (slot d).
Hypothesis slot_faults : forall l d, slot (d <| Disk.faults := l |>) = slot d.

(** [m] adds [bs] to the file, or fails having added a strict prefix of it. *)
Definition puts (m : M Disk.t unit) (bs : list Z) : Prop :=
  forall d f, slot d = Some f -> exists d' k r,
  m d = (d', r) /\ slot d' = Some (File.put (take k bs) f) /\
  ((r = Val tt /\ k = length bs) \/ (exists c, r = Err c /\ (k < length bs)%nat)).

Lemma slot_call d : slot (Disk.call d).1 = slot d.
Proof using slot_faults. unfold Disk.call. destruct (Disk.faults d) eqn:E; [done|]. apply slot_faults. Qed.

Lemma puts_nil : puts (mret tt) [].
Proof.
  intros d f Hf. exists d, 0%nat, (Val tt). split; [done|]. split; [|by left].
  by rewrite Hf, put_nil.
Qed.

Lemma puts_fwrite bs : bs <> [] -> puts (Disk.fwrite slot bs) bs.
Proof using All.
  intros Hbs d f Hf. unfold Disk.fwrite. pose proof (slot_call d) as Hc.
  destruct (Disk.call d) as [d1 [k|]]; cbn [fst] in Hc; rewrite <- Hc in Hf.
  - eexists _, (Nat.min k (length bs - 1)), _. split; [done|]. rewrite slot_set, Hf. split; [done|].
    right. eexists. split; [done|]. destruct bs; [done|]. simpl. lia.
  - eexists _, (length bs), _. split; [done|]. rewrite slot_set, Hf, take_ge by done.
    split; [done|]. by left.
Qed.

Lemma puts_seq m m' bs cs : puts m bs -> puts m' cs -> puts (m ;; m') (bs ++ cs).
Proof.
  intros Hm Hm' d f Hf. destruct (Hm d f Hf) as (d1 & k & r & E & Hf1 & H). unfold mbind, M_bind.
  rewrite E. destruct H as [[-> ->]|(c & -> & Hk)].
  - destruct (Hm' d1 _ Hf1) as (d2 & k2 & r2 & E2 & Hf2 & H2). rewrite E2.
    exists d2, (length bs + k2)%nat, r2. split; [done|]. split.
    + rewrite Hf2, put_put, take_app_add. by rewrite (take_ge bs).
    + rewrite length_app. destruct H2 as [[-> ->]|(c & -> & ?)]; [by left|]. right. exists c.
      split; [done|lia].
  - exists d1, k, (Err c). split; [done|]. rewrite take_app_le by lia. split; [done|].
    right. exists c. rewrite length_app. split; [done|lia].
Qed.

Lemma puts_payload bs :
  puts (if bool_decide (bs = []) then mret tt else Disk.fwrite slot bs) bs.
Proof using All. case_bool_decide; [subst; apply puts_nil|by apply puts_fwrite]. Qed.
End writing.

Lemma puts_journal bs : bs <> [] -> puts Disk.journal (Disk.fwrite Disk.journal bs) bs.
Proof. by apply puts_fwrite. Qed.

Lemma puts_record type payload sequence :
  puts Disk.journal
    (Disk.fwrite Disk.journal (record_header type (size_of payload) sequence) ;;
     (if bool_decide (payload = []) then mret tt else Disk.fwrite Disk.journal payload) ;;
     Disk.fwrite Disk.journal (le_bytes 4 (crc32c payload)))
    (record_bytes type payload sequence).
Proof.
  unfold record_bytes. apply puts_seq; [|apply puts_seq].
  - apply puts_journal. intros E. apply (f_equal length) in E. by rewrite length_record_header in E.
  - by apply puts_payload.
  - apply puts_journal. intros E. apply (f_equal length) in E. by rewrite length_le_bytes in E.
Qed.

(** ** Appending *)

(** A journal opened on intact records, all of them on stable storage, that forces every
    record out. *)
Record ready (j : Journal.t) (d : Disk.t) (es : list Entry.t) : Prop := {
  ready_open : Journal.open_ j = true;
  ready_limit : Journal.max_record_bytes (Journal.options_ j) <= kMaxJournalRecordBytes;
  ready_fsync : Journal.fsync_on_commit (Journal.options_ j) = true;
  ready_sequence : u64_ok (Journal.sequence_ j);
  ready_entries : Forall Entry.ok es;
  ready_file : Disk.journal d = Some (File.mk (journal_header ++ run_bytes es)
                                        (length (journal_header ++ run_bytes es))) }.

(** The file after a failed attempt to append [e] to [es]. *)
Definition torn_after (es : list Entry.t) (e : Entry.t) (k : nat) : File.t :=
  File.mk (journal_header ++ run_bytes es ++ take k (Entry.to_bytes e))
    (length (journal_header ++ run_bytes es)).

Lemma guarded {A} b c (k : Journal.MJ A) s :
  (Journal.guard b c ;; k) s = if b then (s, Err c) else k s.
Proof. by destruct b. Qed.

Lemma self_bind {A} (k : Journal.t -> Journal.MJ A) s : (Journal.self ≫= k) s = k s.1 s.
Proof. done. Qed.

(** The three writes of a record are one write. *)
Lemma io_writes {A} (b : bool) (m m' m'' : M Disk.t unit) (k : Journal.MJ A) j d :
  (Journal.io m ;; (if b then mret tt else Journal.io m') ;; Journal.io m'' ;; k) (j, d) =
  (Journal.io (m ;; (if b then mret tt else m') ;; m'') ;; k) (j, d).
Proof.
  unfold mbind, M_bind, Journal.io. destruct (m d) as [d1 [u|c]]; [|done].
  destruct b; [|destruct (m' d1) as [d2 [u'|c']]; [|done]].
  - unfold mret, M_ret. by destruct (m'' d1) as [d3 [u''|c'']].
  - by destruct (m'' d2) as [d3 [u''|c'']].
Qed.

Lemma io_bind {A} (m : M Disk.t unit) (k : Journal.MJ A) j d d' r :
  m d = (d', r) ->
  (Journal.io m ;; k) (j, d) = match r with Val _ => k (j, d') | Err c => ((j, d'), Err c) end.
Proof. unfold mbind, M_bind, Journal.io. by intros ->. Qed.

Lemma flush_outcome d f :
  Disk.journal d = Some f -> exists d' r, Disk.flush_to_stable Disk.journal d = (d', r) /\
  ((r = Val tt /\ Disk.journal d' = Some (File.sync f)) \/
   (exists c, r = Err c /\ Disk.journal d' = Some f)).
Proof.
  intros Hf. unfold Disk.flush_to_stable, Disk.call.
  destruct (Disk.faults d) as [|[k|] l]; eexists _, _; (split; [done|]); cbn; rewrite Hf; eauto.
Qed.

Lemma append_outcome j d es type payload j' d' r :
  ready j d es -> Journal.append type payload true (j, d) = ((j', d'), r) ->
  let e := Entry.mk type payload (Journal.sequence_ j + 1) in
  (r = Val tt /\ Journal.sequence_ j' = Journal.sequence_ j + 1 /\ ready j' d' (es ++ [e])) \/
  (exists c k, r = Err c /\ (k = 0%nat \/ Entry.ok e) /\ Disk.journal d' = Some (torn_after es e k) /\
     (j' = j \/ k = length (Entry.to_bytes e))).
Proof.
  intros [Ho Hl Hfs Hq Hes Hf]. cbv zeta.
  set (e := Entry.mk type payload (Journal.sequence_ j + 1)).
  assert (Hzero : Disk.journal d = Some (torn_after es e 0))
    by (rewrite Hf; unfold torn_after; by rewrite app_nil_r).
  unfold Journal.append. rewrite self_bind. cbn [fst]. rewrite !guarded, Ho. cbn [negb].
  assert (Hrefused : forall c, ((j, d), Err c) = ((j', d'), r) -> exists c k, r = Err c /\
    (k = 0%nat \/ Entry.ok e) /\ Disk.journal d' = Some (torn_after es e k) /\
    (j' = j \/ k = length (Entry.to_bytes e))).
  { intros c [= <- <- <-]. exists c, 0%nat. auto 10. }
  destruct (_ >=? _) eqn:Ht; [eauto|]. destruct (size_of payload >? _) eqn:Hs; [eauto|].
  destruct (_ || _); [eauto|]. destruct (_ =? u64_max) eqn:Hm; [eauto|]. boolify.
  assert (He : Entry.ok e).
  { split; cbn; [by intros ->|lia|]. unfold u64_max in *. ulia. }
  rewrite wrap_small by apply He. rewrite io_writes.
  destruct (puts_record type payload (Journal.sequence_ j + 1) d _ Hf) as (d1 & k & r1 & E & Hf1 & H).
  rewrite (io_bind _ _ _ _ _ _ E).
  change (record_bytes type payload (Journal.sequence_ j + 1)) with (Entry.to_bytes e) in *.
  assert (Htorn : Disk.journal d1 = Some (torn_after es e k)).
  { rewrite Hf1. unfold File.put, torn_after. cbn. by rewrite app_assoc. }
  destruct H as [[-> ->]|(c & -> & Hk)]; [|intros [= <- <- <-]; right; eauto 10].
  rewrite Hfs. cbn [andb].
  destruct (flush_outcome d1 _ Htorn) as (d2 & r2 & E2 & H2). 
  match goal with |- context [Journal.assign ?f] => set (upd := f) end.
  assert (Hj : (Journal.assign upd ;; Journal.io (Disk.flush_to_stable Disk.journal)) (j, d1) =
    ((upd j, d2), r2)) by (unfold mbind, M_bind, Journal.assign, Journal.io; cbn [fst snd]; by rewrite E2).
  rewrite Hj. intros [= <- <- <-].
  destruct H2 as [[-> Hf2]|(c & -> & Hf2)]; [left|right; eauto 10].
  assert (Hsq : Journal.sequence_ (upd j) = Journal.sequence_ j + 1) by (apply wrap_small, He).
  split; [done|]. split; [done|]. split; [done..|rewrite Hsq; apply He| |].
  - apply Forall_app. auto.
  - rewrite Hf2, run_bytes_app. unfold torn_after, File.sync. cbn.
    by rewrite take_ge, app_nil_r by done.
Qed.

(** ** Crashes *)

(** The entries appending [rs] produces after sequence number [q]. *)
Fixpoint numbered (q : Z) (rs : list (RecordType.t * list Z)) : list Entry.t :=
  match rs with
  | [] => []
  | (type, payload) :: rs => Entry.mk type payload (q + 1) :: numbered (q + 1) rs
  end.

Lemma length_numbered rs : forall q, length (numbered q rs) = length rs.
Proof. induction rs as [|[t p] rs IH]; intros q; simpl; [done|]. by rewrite IH. Qed.

(** Append records one after the other until the first that is not acknowledged; the number
    of acknowledged ones is returned. *)
Fixpoint append_run (rs : list (RecordType.t * list Z)) (jd : Journal.t * Disk.t) :
    (Journal.t * Disk.t) * nat :=
  match rs with
  | [] => (jd, 0%nat)
  | (type, payload) :: rs =>
      match Journal.append type payload true jd with
      | (jd, Val _) => let '(jd, n) := append_run rs jd in (jd, S n)
      | (jd, Err _) => (jd, 0%nat)
      end
  end.

(** Everything known to be on stable storage is among the first [n] bytes. *)
Definition survives (d : Disk.t) (n : nat) : Prop :=
  match Disk.journal d with Some f => (File.synced f <= n)%nat | None => False end.

(** The machine comes back with the first [n] bytes of the journal and a working disk. *)
Definition after_crash (n : nat) (d : Disk.t) : Disk.t :=
  d <| Disk.journal ::= fmap (fun f => File.mk (take n (File.bytes f)) n) |> <| Disk.faults := [] |>.

(** A visitor that accepts everything and notes what it is shown. *)
Definition recorder (type : RecordType.t) (payload : list Z) (sequence : Z) : M (list Entry.t) unit :=
  modify (fun seen => seen ++ [Entry.mk type payload sequence]).

Lemma recorder_all es : forall seen, for_each (visit recorder) es seen = (seen ++ es, Val tt).
Proof.
  induction es as [|[t p q] es IH]; intros seen; cbn [for_each]; [by rewrite app_nil_r|].
  unfold mbind, M_bind, visit, recorder, modify. cbn [Entry.type Entry.payload Entry.sequence].
  rewrite IH. by rewrite <- app_assoc.
Qed.

(** The journal after a run of appends: the acknowledged records on stable storage and at
    most a prefix of the next one behind them. *)
Lemma append_run_outcome rs : forall j d es j' d' n,
  ready j d es -> append_run rs (j, d) = ((j', d'), n) ->
  exists e k, let es' := es ++ take n (numbered (Journal.sequence_ j) rs) in
  (k = 0%nat \/ (Entry.ok e /\ numbered (Journal.sequence_ j) rs !! n = Some e)) /\
  (n <= length rs)%nat /\ Forall Entry.ok es' /\ Disk.journal d' = Some (torn_after es' e k).
Proof.
  induction rs as [|[t p] rs IH]; intros j d es j' d' n Hr E; cbn [append_run numbered] in E |- *.
  { injection E as -> -> <-. exists (Entry.mk RecordType.Begin [] 0), 0%nat. cbn.
    rewrite !app_nil_r. destruct Hr. unfold torn_after. cbn [take]. rewrite app_nil_r. auto. }
  destruct (Journal.append t p true (j, d)) as [[j1 d1] r] eqn:Ea.
  destruct (append_outcome _ _ _ _ _ _ _ _ Hr Ea) as [(-> & Hq & Hr1)|(c & k & -> & Hk & Hf & _)].
  - destruct (append_run rs (j1, d1)) as [[j2 d2] m] eqn:Er. injection E as -> -> <-.
    destruct (IH _ _ _ _ _ _ Hr1 Er) as (e & k & Hk & Hm & Hok & Hf). exists e, k. cbv zeta in *.
    rewrite Hq in *. cbn [take lookup list_lookup length]. rewrite <- app_assoc in *.
    split; [done|]. split; [lia|]. done.
  - injection E as -> -> <-. eexists _, k. cbn. rewrite app_nil_r. split; [|split; [lia|split]].
    + destruct Hk; [by left|by right].
    + apply Hr.
    + done.
Qed.

(** What is left of a torn file after a crash. *)
Lemma crash_prefix es e k n :
  (length (journal_header ++ run_bytes es) <= n)%nat ->
  exists k', (k' <= k)%nat /\
  take n (File.bytes (torn_after es e k)) = journal_header ++ run_bytes es ++ take k' (Entry.to_bytes e).
Proof.
  intros Hn. unfold torn_after. cbn [File.bytes]. rewrite !(app_assoc journal_header), take_app_ge by done.
  rewrite take_take. eexists. split; [|done]. lia.
Qed.

(** Replay after the crash sees the acknowledged records, and the next one if all of it
    happened to reach the disk. *)
Lemma replay_torn es e k d f :
  Forall Entry.ok es -> (k = 0%nat \/ Entry.ok e) -> Disk.faults d = [] -> Disk.journal d = Some f ->
  File.bytes f = journal_header ++ run_bytes es ++ take k (Entry.to_bytes e) ->
  exists es', (es' = es \/ (es' = es ++ [e] /\ (0 < k)%nat)) /\
  replay recorder (d, []) =
    ((d, es'), Some (accepted es' (bool_decide (length (journal_header ++ run_bytes es') <
                                                length (File.bytes f))%nat), Val tt)).
Proof.
  intros Hes Hk Hd Hf Hb.
  assert (Hdone : forall es', Forall Entry.ok es' -> File.bytes f = journal_header ++ run_bytes es' ->
    replay recorder (d, []) = ((d, es'), Some (accepted es' false, Val tt))).
  { intros es' Hok Hb'.
    rewrite (replay_file recorder d f es' (Entry.mk RecordType.Begin [] 0) 0 [] es');
      [done..| | |by apply recorder_all].
    - rewrite length_to_bytes. simpl. lia.
    - cbn [take]. by rewrite app_nil_r. }
  destruct (decide (k < length (Entry.to_bytes e))%nat) as [Hs|Hs].
  - exists es. split; [by left|]. destruct (decide (k = 0%nat)) as [->|Hk0].
    + cbn [take] in Hb. rewrite app_nil_r in Hb. rewrite (Hdone es), Hb by done.
      rewrite bool_decide_eq_false_2 by lia. done.
    + destruct Hk as [|He]; [done|].
      rewrite (replay_file recorder d f es e k [] es) by (done || apply recorder_all).
      rewrite Hb, (app_assoc journal_header), !length_app, length_take.
      do 2 f_equal. rewrite !bool_decide_eq_true_2 by lia. done.
  - rewrite take_ge in Hb by lia. rewrite length_to_bytes in Hs. destruct Hk as [->|He]; [lia|].
    rewrite <- run_bytes_snoc in Hb. exists (es ++ [e]). split; [right; split; [done|lia]|].
    rewrite (Hdone (es ++ [e])), Hb, bool_decide_eq_false_2 by (done || lia || (apply Forall_app; auto)).
    done.
Qed.

(** C7: Nothing acknowledged is lost and nothing partial is applied, up to the first append that
    fails: take an intact journal that forces every record out, append records until one is not
    acknowledged, whatever call fails at whatever byte, and crash keeping any prefix of the file
    that contains what was synced. Replay then shows, in order and unchanged, the records that were
    there before, every acknowledged one, and at most the one whose append was interrupted; it
    reports a torn tail exactly when bytes remain behind the last record shown. (What is appended
    behind a torn record is the subject of [torn_tail_hides_acknowledged].) *)
Theorem acknowledged_records_survive es rs j d j' d' acked n :
  ready j d es -> append_run rs (j, d) = ((j', d'), acked) -> survives d' n ->
  exists m, (acked <= m <= S acked)%nat /\ (m <= length rs)%nat /\
  let seen := es ++ take m (numbered (Journal.sequence_ j) rs) in
  let torn := bool_decide (length (journal_header ++ run_bytes seen) <
                           length (Disk.content Disk.journal (after_crash n d')))%nat in
  replay recorder (after_crash n d', []) =
    ((after_crash n d', seen), Some (accepted seen torn, Val tt)).
Proof.
  intros Hr E Hs. destruct (append_run_outcome _ _ _ _ _ _ _ Hr E) as (e & k & Hk & Hle & Hok & Hf).
  cbv zeta in *. unfold survives in Hs. rewrite Hf in Hs. cbn [torn_after File.synced] in Hs.
  destruct (crash_prefix _ e k n Hs) as (k' & Hk' & Hb).
  assert (Hfc : Disk.journal (after_crash n d') =
    Some (File.mk (take n (File.bytes (torn_after (es ++ take acked (numbered (Journal.sequence_ j) rs)) e k))) n))
    by (unfold after_crash; cbn; by rewrite Hf).
  destruct (replay_torn _ e k' (after_crash n d') _ Hok ltac:(destruct Hk as [->|[? _]]; [left; lia|by right])
    eq_refl Hfc Hb) as (seen & Hseen & Hrep).
  unfold Disk.content. rewrite Hfc. destruct Hseen as [->|[-> Hk0]].
  - exists acked. split; [lia|]. by split.
  - destruct Hk as [->|[_ Hn]]; [lia|]. exists (S acked).
    pose proof (lookup_lt_Some _ _ _ Hn) as Hlen. rewrite length_numbered in Hlen. split; [lia|]. split; [lia|]. rewrite (take_S_r _ _ _ Hn), app_assoc. done.
Qed.

(** A fresh journal, and an append that is interrupted inside its checksum. *)
Definition fresh_file : File.t := File.mk journal_header 16.
Definition fresh_journal : Journal.t := Journal.mk true Journal.default_options 0 16.
Definition interrupted : Disk.t :=
  Disk.mk (Some fresh_file) None None [None; None; None; None; None; Some 2%nat].
Definition two_records : list (RecordType.t * list Z) :=
  [(RecordType.Begin, []); (RecordType.TickCommitted, le_bytes 8 5)].

Lemma fresh_ready faults :
  ready fresh_journal (Disk.mk (Some fresh_file) None None faults) [].
Proof. split; [done..|unfold fresh_journal; cbn; ulia|constructor|by vm_compute]. Qed.

Lemma acknowledged_records_survive_witness :
  let '((j, d), acked) := append_run two_records (fresh_journal, interrupted) in
  acked = 1%nat /\ survives d 65 /\
  exists m, (acked <= m <= S acked)%nat /\ (m <= 2)%nat /\
  let seen := [] ++ take m (numbered 0 two_records) in
  let torn := bool_decide (length (journal_header ++ run_bytes seen) <
                           length (Disk.content Disk.journal (after_crash 65 d)))%nat in
  replay recorder (after_crash 65 d, []) = ((after_crash 65 d, seen), Some (accepted seen torn, Val tt)).
Proof.
  destruct (append_run two_records (fresh_journal, interrupted)) as [[j d] acked] eqn:E.
  assert (H : acked = 1%nat /\ survives d 65).
  { vm_compute in E. injection E as <- <- <-. split; [done|]. cbn. lia. }
  destruct H as [Ha Hs]. split; [done|]. split; [done|].
  exact (acknowledged_records_survive [] two_records fresh_journal interrupted j d acked 65
    (fresh_ready _) E Hs).
Defined.

(** ** Damage *)

(** A record whose payload was altered in one byte is never applied: replay hands the
    visitor exactly the records before it, stops there with [IntegrityFailure], and reports one
    rejected record and no torn tail, whatever follows in the file. *)
Theorem damaged_payload_stops_replay {S} (visitor : RecordType.t -> list Z -> Z -> M S unit)
    es e before b b' after tail d f (s s' : S) :
  Forall Entry.ok es -> Entry.ok e -> Entry.payload e = before ++ b :: after ->
  byte_ok b -> byte_ok b' -> b <> b' ->
  Disk.faults d = [] -> Disk.journal d = Some f ->
  File.bytes f = journal_header ++ run_bytes es ++
    record_header (Entry.type e) (size_of (Entry.payload e)) (Entry.sequence e) ++
    (before ++ b' :: after) ++ le_bytes 4 (crc32c (Entry.payload e)) ++ tail ->
  for_each (visit visitor) es s = (s', Val tt) ->
  replay visitor (d, s) =
    ((d, s'), Some (accepted es false <| JournalReplayStats.bytes := 0 |>
                      <| JournalReplayStats.rejected := 1 |>, Err StatusCode.IntegrityFailure)).
Proof.
  intros Hes He Hp Hb Hb' Hne Hd Hf Hfile Hv. rewrite (replay_prologue visitor d f _ s Hd Hf Hfile).
  match goal with |- replay_loop _ (Datatypes.S (length (_ ++ _ ++ ?tail))) _ _ _ _ = _ =>
    destruct (enough_fuel es journal_header tail) as [fuel ->] end.
  rewrite (loop_records visitor es _ _ _ _ d s s') by done. rewrite visited_all.
  rewrite (app_assoc journal_header).
  assert (Hlen : length (before ++ b' :: after) = length (Entry.payload e))
    by (rewrite Hp, !length_app; done).
  rewrite loop_step; [|done|done|rewrite !length_app, length_le_bytes; lia].
  replace (length _ <? _)%nat with false
    by (symmetry; apply Nat.ltb_ge; rewrite !length_app in *; rewrite length_le_bytes; lia).
  rewrite <- Hlen, take_app_length, load_le_bytes by apply crc32c_range.
  replace (crc32c (before ++ b' :: after) =? crc32c (Entry.payload e)) with false; [done|].
  symmetry. apply Z.eqb_neq. rewrite Hp. apply crc_detects_byte_change; auto.
Qed.

(** A tick record of which one bit flipped, with an intact record behind it. *)
Definition damaged_file : File.t :=
  File.mk (journal_header ++ record_header RecordType.TickCommitted 8 1 ++
    ([] ++ 4 :: repeat 0 7) ++ le_bytes 4 (crc32c (le_bytes 8 5)) ++ record_bytes RecordType.Begin [] 2) 72.
Definition damaged_disk : Disk.t := Disk.mk (Some damaged_file) None None [].

Lemma damaged_payload_stops_replay_witness :
  replay recorder (damaged_disk, []) =
    ((damaged_disk, []), Some (accepted [] false <| JournalReplayStats.bytes := 0 |>
                      <| JournalReplayStats.rejected := 1 |>, Err StatusCode.IntegrityFailure)).
Proof.
  apply (damaged_payload_stops_replay recorder [] (Entry.mk RecordType.TickCommitted (le_bytes 8 5) 1)
    [] 5 4 (repeat 0 7) (record_bytes RecordType.Begin [] 2) damaged_disk damaged_file); done.
Defined.

(** ** Every file *)

Lemma need_inv n r r' v :
  bytes_left_ok r -> need (ByteReader.read_le n) r = (r', Val v) ->
  rest r = le_bytes n v ++ rest r' /\ in_range (8 * Z.of_nat n) v /\ bytes_left_ok r'.
Proof.
  intros Hr E. unfold need in E. destruct (ByteReader.read_le n r) as [r1 [w|]] eqn:Er; [|done].
  apply pair_equal_spec in E as [-> E]. injection E as ->.
  apply read_le_inv in Er as (bs & <- & Ebs & ->). unfold bytes_left_ok in *. rewrite Ebs in Hr |- *.
  apply Forall_app in Hr as [Hb Hr]. rewrite le_bytes_value by done. auto using le_value_range.
Qed.

Lemma guard_inv {A} b c (k : unit -> M ByteReader.t A) r r' x :
  (lift (refuse_if b c) ≫= k) r = (r', Val x) -> b = false /\ k tt r = (r', Val x).
Proof. by destruct b. Qed.

Lemma to_of_u16 raw : 1 <= raw <= 12 ->
  RecordType.to_u16 (RecordType.of_u16 raw) = raw /\ RecordType.of_u16 raw <> RecordType.Count.
Proof.
  intros H. assert (E : In raw [1; 2; 3; 4; 5; 6; 7; 8; 9; 10; 11; 12]) by (simpl; lia).
  repeat (destruct E as [<-|E]; [done|]). done.
Qed.

(** A header that parses is the header of a record that may follow. *)
Lemma parse_header_inv h type len sequence :
  Forall byte_ok h -> length h = 20%nat ->
  parse_header h kMaxJournalRecordBytes = Val (type, len, sequence) ->
  h = record_header type len sequence /\ type <> RecordType.Count /\
  0 <= len <= kMaxJournalRecordBytes /\ u64_ok sequence.
Proof.
  intros Hb Hl. unfold parse_header.
  replace (size_of h <? kRecordHeaderBytes) with false by (unfold size_of; by rewrite Hl).
  cbn [refuse_if mbind StatusOr_bind]. rewrite take_ge by (rewrite Hl; done).
  match goal with |- snd (?m ?r) = _ -> _ => destruct (m r) as [r' x] eqn:E end. cbn [snd]. intros ->.
  assert (H0 : bytes_left_ok (ByteReader.make h)) by done.
  assert (Hh : rest (ByteReader.make h) = h) by done. revert Hh H0 E. generalize (ByteReader.make h).
  intros r0 Hh H0 E.
  apply M_bind_Val in E as (r1 & magic & E1 & E). apply need_inv in E1 as (B1 & R1 & H1); [|done].
  apply M_bind_Val in E as (r2 & raw & E2 & E). apply need_inv in E2 as (B2 & R2 & H2); [|done].
  apply guard_inv in E as [Gm E]. apply guard_inv in E as [Gt E].
  apply M_bind_Val in E as (r3 & schema & E3 & E). apply need_inv in E3 as (B3 & R3 & H3); [|done].
  apply guard_inv in E as [Gs E].
  apply M_bind_Val in E as (r4 & plen & E4 & E). apply need_inv in E4 as (B4 & R4 & H4); [|done].
  apply M_bind_Val in E as (r5 & q & E5 & E). apply need_inv in E5 as (B5 & R5 & H5); [|done].
  apply guard_inv in E as [Gl E]. unfold mret, M_ret in E. injection E as -> <- -> ->.
  apply negb_false_iff, Z.eqb_eq in Gm as ->. apply negb_false_iff, Z.eqb_eq in Gs as ->.
  apply orb_false_iff in Gt as [Gt1 Gt2]. apply Z.eqb_neq in Gt1. change (Z.of_nat 2) with 2 in *.
  assert (Hraw : 1 <= raw <= 12) by (cbn in Gt2; unfold in_range in R2; lia).
  destruct (to_of_u16 raw Hraw) as [Eraw Hc].
  assert (Hlen : in_range 32 len) by done. unfold in_range in Hlen.
  split; [|split; [done|split; [lia|done]]].
  rewrite record_header_fields. unfold header_fields. rewrite Eraw, wrap_small by done.
  rewrite Hh in B1. rewrite B1, B2, B3, B4, B5 in Hl |- *. rewrite !length_app, !length_le_bytes in Hl.
  assert (Hend : rest r' = []) by (apply length_zero_iff_nil; lia). by rewrite Hend.
Qed.

Section every_file.
Context {S : Type} (visitor : RecordType.t -> list Z -> Z -> M S unit).

(** One turn of the loop, on any bytes and whatever the calls do: it ends without visiting
    anything, or an intact record starts at the cursor and is visited. *)
Variant turn (fuel : nat) (pre left : list Z) (stats : JournalReplayStats.t) (s : S)
    (outcome : (Disk.t * S) * option Ended) : Prop :=
| turn_ends d ended :
    outcome = ((d, s), Some ended) ->
    JournalReplayStats.records ended.1 = JournalReplayStats.records stats ->
    turn fuel pre left stats s outcome
| turn_visits d e tail :
    Entry.ok e -> left = Entry.to_bytes e ++ tail ->
    outcome = match visit visitor e s with
              | (s, Err c) => ((d, s), Some (stats <| JournalReplayStats.rejected ::= inc64 |>, Err c))
              | (s, Val _) => replay_loop visitor fuel (pre ++ left) (size_of (pre ++ Entry.to_bytes e))
                                (visited e stats) (d, s)
              end ->
    turn fuel pre left stats s outcome.

(** A body long enough that carries the checksum of its payload. *)
Lemma intact_body len (body : list Z) :
  Forall byte_ok body -> (len + 4 <= length body)%nat ->
  crc32c (take len body) = load 4 len body ->
  body = take len body ++ le_bytes 4 (crc32c (take len body)) ++ drop (len + 4) body.
Proof.
  intros Hb Hlen ->. unfold load.
  assert (H4 : length (take 4 (drop len body)) = 4%nat) by (rewrite length_take, length_drop; lia).
  rewrite <- H4 at 1. rewrite le_bytes_value by (by apply Forall_take, Forall_drop).
  rewrite <- drop_drop, take_drop. symmetry. apply take_drop.
Qed.

Lemma one_turn fuel pre left stats d s :
  Forall byte_ok left ->
  turn fuel pre left stats s
    (replay_loop visitor (Datatypes.S fuel) (pre ++ left) (size_of pre) stats (d, s)).
Proof.
  intros Hb. cbn [replay_loop].
  assert (Hsz : size_of (pre ++ left) = size_of pre + size_of left) by apply size_of_app.
  destruct (_ >? _) eqn:Hshort; [eapply turn_ends; [done|by destruct (negb _)]|].
  change kRecordHeaderBytes with 20 in *. rewrite Hsz, Z.gtb_ltb, Z.ltb_ge in Hshort.
  unfold Disk.try_call. destruct (Disk.call d) as [d1 [?|]]; [by eapply turn_ends|].
  destruct (Disk.call d1) as [d2 f2]. destruct (Disk.failed f2); [by eapply turn_ends|].
  unfold size_of in Hshort.
  set (header := take _ _).
  assert (Eh : header = take 20 left).
  { unfold header, size_of. by rewrite Nat2Z.id, take_drop_app. }
  destruct (parse_header header _) as [[[type len] sequence]|c] eqn:Hp;
    [|destruct c; by eapply turn_ends].
  rewrite Eh in Hp. apply parse_header_inv in Hp as (Hh & Ht & Hlen & Hq);
    [|by apply Forall_take|rewrite length_take; lia].
  destruct (_ >? _) eqn:Hfit; [by eapply turn_ends|]. rewrite Hsz, Z.gtb_ltb, Z.ltb_ge in Hfit.
  destruct (Disk.call d2) as [d3 f3]. destruct (Disk.failed f3); [by eapply turn_ends|].
  set (body := drop _ _).
  assert (Eb : body = drop 20 left).
  { unfold body, size_of. rewrite Z2Nat.inj_add, Nat2Z.id by lia.
    by rewrite <- drop_drop, drop_app_length. }
  destruct (negb _) eqn:Hcrc; [by eapply turn_ends|]. apply negb_false_iff, Z.eqb_eq in Hcrc.
  unfold size_of in Hfit.
  rewrite Eb in Hcrc |- *. apply intact_body in Hcrc; [|by apply Forall_drop|rewrite length_drop; lia].
  set (payload := take (Z.to_nat len) (drop 20 left)) in *. set (tail := drop _ (drop _ _)) in Hcrc.
  assert (Hpl : size_of payload = len).
  { unfold payload, size_of. rewrite length_take, length_drop. lia. }
  eapply (turn_visits _ _ _ _ _ _ d3 (Entry.mk type payload sequence) tail).
  - split; cbn; [done|lia|done].
  - unfold Entry.to_bytes, record_bytes. cbn [Entry.type Entry.payload Entry.sequence].
    rewrite Hpl, <- Hh, <- !app_assoc, <- Hcrc. symmetry. apply take_drop.
  - unfold visit, visited. cbn [Entry.type Entry.payload Entry.sequence].
    destruct (visitor _ _ _ s) as [s' [u|c]]; [|done]. f_equal.
    unfold size_of. rewrite length_app, length_to_bytes. cbn. unfold size_of in Hpl. lia.
Qed.

(** What the loop did: it handed the visitor exactly the intact records at the cursor, one
    after the other, and stopped at the first the visitor refused. *)
Record replayed (bytes : list Z) (stats : JournalReplayStats.t) (s : S) (es : list Entry.t) (s' : S)
    (ended : Ended) : Prop := {
  replayed_prefix : run_bytes es `prefix_of` bytes;
  replayed_ok : Forall Entry.ok es;
  replayed_visits :
    (for_each (visit visitor) es s = (s', Val tt) /\
     JournalReplayStats.records ended.1 = wrap 64 (JournalReplayStats.records stats + size_of es)) \/
    (exists c, for_each (visit visitor) es s = (s', Err c) /\ ended.2 = Err c) }.

Lemma loop_total fuel : forall pre left stats d s,
  Forall byte_ok left -> (length left < fuel)%nat -> u64_ok (JournalReplayStats.records stats) ->
  exists d' es s' ended,
  replay_loop visitor fuel (pre ++ left) (size_of pre) stats (d, s) = ((d', s'), Some ended) /\
  replayed left stats s es s' ended.
Proof.
  induction fuel as [|fuel IH]; intros pre left stats d s Hb Hf Hr; [lia|].
  destruct (one_turn fuel pre left stats d s Hb) as [d1 ended -> He|d1 e tail Hok -> E].
  { exists d1, [], s, ended. split; [done|]. split; [apply prefix_nil|constructor|left].
    split; [done|]. rewrite He. unfold size_of. simpl. by rewrite Z.add_0_r, wrap_small. }
  rewrite E. destruct (visit visitor e s) as [s1 [[]|c]] eqn:Ev.
  - apply Forall_app in Hb as [_ Hb]. rewrite length_app, length_to_bytes in Hf.
    destruct (IH (pre ++ Entry.to_bytes e) tail (visited e stats) d1 s1 Hb ltac:(lia)) as
      (d2 & es & s2 & ended & E2 & [Hp Hes Hv]); [by apply wrap_range|].
    rewrite <- app_assoc in E2. exists d2, (e :: es), s2, ended. split; [done|].
    assert (Hrun : forall r, for_each (visit visitor) es s1 = (s2, r) ->
      for_each (visit visitor) (e :: es) s = (s2, r)).
    { intros r Hr'. cbn [for_each]. unfold mbind, M_bind. by rewrite Ev. }
    split; [by apply prefix_app|by constructor|].
    destruct Hv as [[Hv Hn]|(c & Hv & Hc)]; [left|right; eauto]. split; [auto|]. rewrite Hn. cbn.
    unfold inc64, wrap, size_of. rewrite Z.add_mod_idemp_l by lia. f_equal. simpl. lia.
  - exists d1, [e], s1, (stats <| JournalReplayStats.rejected ::= inc64 |>, Err c). split; [done|].
    split; [|by apply Forall_singleton|right].
    + exists tail. unfold run_bytes. cbn. by rewrite app_nil_r.
    + exists c. split; [|done]. cbn [for_each]. unfold mbind, M_bind. by rewrite Ev.
Qed.

(** Bytes that begin with an intact record. *)
Definition intact (left : list Z) : Prop := exists e tail, Entry.ok e /\ left = Entry.to_bytes e ++ tail.

(** What the loop does on a working disk: it goes on as long as an intact record follows. *)
Lemma loop_exact fuel : forall pre left stats d s,
  (forall l, Forall byte_ok l -> intact l \/ ~ intact l) ->
  Forall byte_ok left -> (length left < fuel)%nat -> u64_ok (JournalReplayStats.records stats) -> Disk.faults d = [] ->
  exists d' es s' ended,
  replay_loop visitor fuel (pre ++ left) (size_of pre) stats (d, s) = ((d', s'), Some ended) /\
  replayed left stats s es s' ended /\
  (for_each (visit visitor) es s = (s', Val tt) -> forall rest, left = run_bytes es ++ rest -> ~ intact rest).
Proof.
  induction fuel as [|fuel IH]; intros pre left stats d s Hdec Hb Hf Hr Hd; [lia|].
  destruct (Hdec left Hb) as [(e & tail & Hok & ->)|Hno].
  - rewrite (loop_record visitor fuel pre e tail stats d s Hok Hd). destruct (visit visitor e s) as [s1 [[]|c]] eqn:Ev.
    + pose proof Hb as Hb'. apply Forall_app in Hb' as [_ Hb']. rewrite length_app, length_to_bytes in Hf.
      destruct (IH (pre ++ Entry.to_bytes e) tail (visited e stats) d s1 Hdec Hb' ltac:(lia)) as
        (d2 & es & s2 & ended & E2 & [Hp Hes Hv] & Hmax); [by apply wrap_range|done|].
      rewrite <- app_assoc in E2. exists d2, (e :: es), s2, ended. split; [done|].
      assert (Hrun : forall r, for_each (visit visitor) (e :: es) s = (s2, r) <-> for_each (visit visitor) es s1 = (s2, r)).
      { intros r. cbn [for_each]. unfold mbind, M_bind. by rewrite Ev. }
      split; [split; [by apply prefix_app|by constructor|]|].
      * setoid_rewrite Hrun. destruct Hv as [[Hv Hn]|(c & Hv & Hc)]; [left|right; eauto]. split; [auto|]. rewrite Hn. cbn.
        unfold inc64, wrap, size_of. rewrite Z.add_mod_idemp_l by lia. f_equal. simpl. lia.
      * intros Hall%Hrun rest Erest. apply Hmax; [done|]. change (run_bytes (e :: es)) with (Entry.to_bytes e ++ run_bytes es) in Erest.
        rewrite <- app_assoc in Erest. by apply app_inv_head in Erest.
    + eexists d, [e], s1, _. split; [reflexivity|]. split; [split; [|by apply Forall_singleton|right]|].
      * exists tail. unfold run_bytes. cbn. by rewrite app_nil_r.
      * exists c. split; [|done]. cbn [for_each]. unfold mbind, M_bind. by rewrite Ev.
      * cbn [for_each]. unfold mbind, M_bind. by rewrite Ev.
  - destruct (one_turn fuel pre left stats d s Hb) as [d1 ended -> He|d1 e tail Hok -> _]; [|destruct Hno; by exists e, tail].
    exists d1, [], s, ended. split; [done|]. split; [split; [apply prefix_nil|constructor|left]|].
    + split; [done|]. rewrite He. unfold size_of. simpl. by rewrite Z.add_0_r, wrap_small.
    + intros _ rest ->. exact Hno.
Qed.
End every_file.

(** One turn of a replay that notes what it is shown decides whether a record follows. *)
Lemma intact_decided left : Forall byte_ok left -> intact left \/ ~ intact left.
Proof.
  intros Hb. set (d := Disk.mk None None None []).
  destruct (one_turn recorder 0 [] left JournalReplayStats.zero d [] Hb) as [d1 ended E He|d1 e tail Hok -> _].
  - right. intros (e & tail & Hok & ->). rewrite (loop_record recorder 0 [] e tail _ d [] Hok eq_refl) in E. discriminate E.
  - left. by exists e, tail.
Qed.

(** The header that a journal starts with: its length, magic and checksum. *)
Definition headed (file : list Z) : bool :=
  negb (size_of file <? kJournalHeaderBytes) && bool_decide (take 8 file = kJournalMagic) &&
  (crc32c (take 12 file) =? load 4 12 file).

Lemma journal_call d : Disk.journal (Disk.call d).1 = Disk.journal d.
Proof. by apply slot_call. Qed.

(** C29: Replay of any file ends, whatever bytes it holds, whichever calls fail and whatever
    the visitor does with its state. What it hands to the visitor are the records the bytes
    behind the 16-byte header spell out, each intact, one directly behind the other and in order; it
    stops with the visitor's own error when the visitor refuses one, and otherwise counts what it
    showed. When no call fails and the header is sound it shows them all: what is left behind
    the last record shown does not begin with an intact record, unless the visitor refused one. A
    file without a sound header shows nothing. *)
Theorem replay_total {S} (visitor : RecordType.t -> list Z -> Z -> M S unit) d (s : S) :
  Forall byte_ok (Disk.content Disk.journal d) ->
  exists d' es s' ended,
  replay visitor (d, s) = ((d', s'), Some ended) /\
  replayed visitor (drop 16 (Disk.content Disk.journal d)) JournalReplayStats.zero s es s' ended /\
  (headed (Disk.content Disk.journal d) = false -> es = []) /\
  (Disk.faults d = [] -> headed (Disk.content Disk.journal d) = true -> for_each (visit visitor) es s = (s', Val tt) ->
   forall rest, drop 16 (Disk.content Disk.journal d) = run_bytes es ++ rest -> ~ intact rest).
Proof.
  intros Hb.
  assert (Hnone : forall (d' : Disk.t) (ended : Ended), JournalReplayStats.records ended.1 = 0 ->
    (Disk.faults d = [] -> headed (Disk.content Disk.journal d) = false) ->
    exists d'' es s' ended', ((d', s), Some ended) = ((d'', s'), Some ended') /\
    replayed visitor (drop 16 (Disk.content Disk.journal d)) JournalReplayStats.zero s es s' ended' /\
    (headed (Disk.content Disk.journal d) = false -> es = []) /\
    (Disk.faults d = [] -> headed (Disk.content Disk.journal d) = true -> for_each (visit visitor) es s = (s', Val tt) ->
     forall rest, drop 16 (Disk.content Disk.journal d) = run_bytes es ++ rest -> ~ intact rest)).
  { intros d' ended E Hfh. exists d', [], s, ended. split; [done|]. split; [|split; [done|intros Hd Hh; by rewrite (Hfh Hd) in Hh]].
    split; [apply prefix_nil|constructor|left]. split; [done|]. by rewrite E. }
  assert (Hcall : forall d1, Disk.faults d1 = [] -> Disk.call d1 = (d1, None)) by (intros d1 E; unfold Disk.call; by rewrite E).
  unfold replay. pose proof (journal_call d) as Hj. pose proof (Hcall d) as C1. destruct (Disk.call d) as [d1 f1]. cbn [fst] in Hj.
  rewrite Hj. unfold Disk.content in *. destruct (Disk.journal d) as [f|]; [|by apply Hnone].
  destruct (Disk.failed f1) eqn:F1; [apply Hnone; [done|]; intros Hd; by injection (C1 Hd) as -> ->|]. unfold Disk.try_call.
  pose proof (Hcall d1) as C2.
  destruct (Disk.call d1) as [d2 [k2|]]; [apply Hnone; [done|]; intros Hd; injection (C1 Hd) as -> ->; by discriminate (C2 Hd)|].
  pose proof (Hcall d2) as C3. destruct (Disk.call d2) as [d3 f3].
  assert (Hkeep : Disk.faults d = [] -> d3 = d /\ f3 = None).
  { intros Hd. injection (C1 Hd) as -> ->. injection (C2 Hd) as ->. by injection (C3 Hd) as -> ->. }
  destruct (_ || _) eqn:Hh; [apply Hnone; [done|]; intros Hd; destruct (Hkeep Hd) as [_ ->];
    unfold headed; cbn [Disk.failed orb] in Hh; apply orb_true_iff in Hh as [->|Hm]; [done|]; apply negb_true_iff in Hm; by rewrite Hm, andb_false_r|].
  apply orb_false_iff in Hh as [Hh Hmagic]. apply orb_false_iff in Hh as [_ Hh].
  destruct (negb (crc32c (take 12 (File.bytes f)) =? load 4 12 (File.bytes f))) eqn:Hcrc; [apply Hnone; [done|]; intros _; unfold headed; apply negb_true_iff in Hcrc; by rewrite Hcrc, andb_false_r|].
  assert (Hhead : headed (File.bytes f) = true).
  { unfold headed. rewrite Hh. apply negb_false_iff in Hmagic, Hcrc. by rewrite Hmagic, Hcrc. }
  pose proof (Hcall d3) as C4.
  destruct (Disk.call d3) as [d4 [k4|]]; [apply Hnone; [done|]; intros Hd; destruct (Hkeep Hd) as [-> _]; by discriminate (C4 Hd)|].
  apply Z.ltb_ge in Hh. unfold size_of, kJournalHeaderBytes in Hh.
  assert (Hbytes : Forall byte_ok (drop 16 (File.bytes f))) by (by apply Forall_drop).
  assert (Hlen : (length (drop 16 (File.bytes f)) < Datatypes.S (length (File.bytes f)))%nat) by (rewrite length_drop; lia).
  assert (Hcur : size_of (take 16 (File.bytes f)) = 16) by (unfold size_of; rewrite length_take, Nat.min_l by lia; done).
  assert (Hsplit : forall d0, replay_loop visitor (Datatypes.S (length (File.bytes f))) (File.bytes f) kJournalHeaderBytes JournalReplayStats.zero (d0, s) =
    replay_loop visitor (Datatypes.S (length (File.bytes f))) (take 16 (File.bytes f) ++ drop 16 (File.bytes f))
      (size_of (take 16 (File.bytes f))) JournalReplayStats.zero (d0, s)) by (intros; by rewrite take_drop, Hcur).
  rewrite Hsplit.
  destruct (decide (Disk.faults d = [])) as [Hd|Hd].
  - destruct (Hkeep Hd) as [-> _]. injection (C4 Hd) as ->.
    destruct (loop_exact visitor _ (take 16 (File.bytes f)) _ JournalReplayStats.zero d s intact_decided Hbytes Hlen ltac:(done) Hd)
      as (d5 & es & s' & ended & E & Hr & Hmax). exists d5, es, s', ended. split; [exact E|]. split; [exact Hr|].
    split; [by rewrite Hhead|]. intros _ _. exact Hmax.
  - destruct (loop_total visitor _ (take 16 (File.bytes f)) _ JournalReplayStats.zero d4 s Hbytes Hlen ltac:(done)) as (d5 & es & s' & ended & E & Hr).
    exists d5, es, s', ended. split; [exact E|]. split; [exact Hr|]. split; [by rewrite Hhead|done].
Qed.

Lemma replay_total_witness :
  exists d' es s' ended,
  replay recorder (damaged_disk, []) = ((d', s'), Some ended) /\
  replayed recorder (drop 16 (Disk.content Disk.journal damaged_disk)) JournalReplayStats.zero [] es s' ended.
Proof.
  destruct (replay_total recorder damaged_disk []) as (d' & es & s' & ended & E & Hr & _).
  - unfold damaged_disk, damaged_file. cbn [Disk.content Disk.journal File.bytes]. vm_compute. repeat constructor; done.
  - exists d', es, s', ended. split; [exact E|exact Hr].
Defined.

(** ** Appending behind a torn tail *)

(** The first eight bytes of a record: magic, type and schema. *)
Definition lead (type : RecordType.t) : list Z :=
  le_bytes 2 kRecordMagic ++ le_bytes 2 (RecordType.to_u16 type) ++ le_bytes 4 kSchemaVersion.

Lemma length_lead type : length (lead type) = 8%nat.
Proof. unfold lead. by rewrite !length_app, !length_le_bytes. Qed.

(** Leading bytes at which replay takes the rest of the file for a torn tail. *)
Definition bad_lead (l : list Z) : bool :=
  let raw_type := load 2 2 l in
  negb (load 2 0 l =? kRecordMagic) || ((raw_type =? 0) || (raw_type >=? 13)) ||
  negb (load 4 4 l =? kSchemaVersion).

Lemma bad_lead_spliced k type type' :
  (1 <= k < 8)%nat -> type <> RecordType.Count -> type' <> RecordType.Count ->
  bad_lead (take k (lead type) ++ lead type') = true.
Proof.
  intros Hk Ht Ht'. do 8 (destruct k as [|k]; [try lia; destruct type; try done; by destruct type'|]). lia.
Qed.

Lemma need_load n r l :
  (ByteReader.offset_ r + n <= length l)%nat -> ByteReader.data_ r = l ->
  need (ByteReader.read_le n) r =
  (ByteReader.mk l (n + ByteReader.offset_ r), Val (load n (ByteReader.offset_ r) l)).
Proof.
  intros Hn <-. unfold need, ByteReader.read_le, ByteReader.remaining.
  destruct (Nat.ltb_spec (length (ByteReader.data_ r) - ByteReader.offset_ r) n); [lia|].
  by destruct r.
Qed.

Lemma run_bind {S A B} (m : M S A) (k : A -> M S B) s s' v :
  m s = (s', Val v) -> (m ≫= k) s = k v s'.
Proof. unfold mbind, M_bind. by intros ->. Qed.

Lemma run_guard {S A} b c (k : unit -> M S A) s :
  (lift (refuse_if b c) ≫= k) s = if b then (s, Err c) else k tt s.
Proof. by destruct b. Qed.

Lemma parse_bad_lead h max :
  length h = 20%nat -> bad_lead h = true ->
  exists c, parse_header h max = Err c /\ c <> StatusCode.Oversized.
Proof.
  intros Hl Hbad. unfold parse_header, ByteReader.read_u16, need_u32, ByteReader.read_u32.
  replace (size_of h <? kRecordHeaderBytes) with false by (unfold size_of; by rewrite Hl).
  rewrite take_ge by (rewrite Hl; done).
  match goal with |- exists c, (?g ≫= ?k) = _ /\ _ =>
    change (exists c, k tt = Err c /\ c <> StatusCode.Oversized) end. cbv beta.
  erewrite run_bind by (apply (need_load 2 _ h); [cbn; lia|done]).
  erewrite run_bind by (apply (need_load 2 _ h); [cbn; lia|done]).
  cbn [ByteReader.offset_ ByteReader.make Nat.add]. unfold bad_lead in Hbad.
  rewrite run_guard. destruct (negb (load 2 0 h =? _)); [by eexists|].
  rewrite run_guard. change (RecordType.to_u16 RecordType.Count) with 13.
  destruct (_ || (_ >=? 13)); [by eexists|].
  erewrite run_bind by (apply (need_load 4 _ h); [cbn; lia|done]).
  cbn [ByteReader.offset_ Nat.add orb] in Hbad |- *.
  rewrite run_guard, Hbad. by eexists.
Qed.

Lemma bad_lead_app l tail : (8 <= length l)%nat -> bad_lead (l ++ tail) = bad_lead l.
Proof. intros Hl. unfold bad_lead. by rewrite !load_app_l by lia. Qed.

Lemma record_lead type size sequence :
  exists l, record_header type size sequence = lead type ++ l.
Proof.
  rewrite record_header_fields. unfold header_fields, lead. rewrite !app_assoc, <- !(app_assoc _ (le_bytes 4 _)).
  eexists. by rewrite <- !app_assoc.
Qed.

Lemma loop_bad_lead {S} (visitor : RecordType.t -> list Z -> Z -> M S unit) fuel pre left stats d s :
  Disk.faults d = [] -> (24 <= length left)%nat -> bad_lead left = true ->
  replay_loop visitor (Datatypes.S fuel) (pre ++ left) (size_of pre) stats (d, s) =
  ((d, s), Some (stats <| JournalReplayStats.truncated_tail := true |>
                       <| JournalReplayStats.bytes := size_of pre - kJournalHeaderBytes |>, Val tt)).
Proof.
  intros Hd Hl Hbad. cbn [replay_loop].
  assert (Hcall : Disk.call d = (d, None)) by (unfold Disk.call; by rewrite Hd).
  rewrite size_of_app. change kRecordHeaderBytes with 20.
  replace (size_of pre + 20 + 4 >? size_of pre + size_of left) with false
    by (symmetry; unfold size_of; blia).
  unfold Disk.try_call. do 2 (rewrite Hcall; cbn [Disk.failed]).
  replace (take (Z.to_nat 20) (drop (Z.to_nat (size_of pre)) (pre ++ left))) with (take 20 left)
    by (unfold size_of; by rewrite Nat2Z.id, take_drop_app).
  rewrite <- (take_drop 20 left), bad_lead_app in Hbad by (rewrite length_take; lia).
  destruct (parse_bad_lead (take 20 left) kMaxJournalRecordBytes) as (c & -> & Hc);
    [rewrite length_take; lia|done|]. by destruct c.
Qed.

Lemma fwrite_works bs d f :
  Disk.faults d = [] -> Disk.journal d = Some f ->
  Disk.fwrite Disk.journal bs d = (d <| Disk.journal := Some (File.put bs f) |>, Val tt).
Proof.
  intros Hd Hf. unfold Disk.fwrite, Disk.call. rewrite Hd. destruct d. cbn in *. by subst.
Qed.

(** An open journal refuses a record of admissible type and size only for lack of room. *)
Definition guard_code (j : Journal.t) (type : RecordType.t) (payload : list Z) (c : StatusCode.t) : Prop :=
  Journal.open_ j = true -> type <> RecordType.Count ->
  size_of payload <= Journal.max_record_bytes (Journal.options_ j) ->
  c = StatusCode.Oversized \/ c = StatusCode.Overflow.

(** On a working disk an append is refused by its guards or adds the record. *)
Lemma append_works type payload j d f :
  Disk.faults d = [] -> Disk.journal d = Some f ->
  exists j' d' r, Journal.append type payload true (j, d) = ((j', d'), r) /\ Disk.faults d' = [] /\
  ((exists c, r = Err c /\ d' = d /\ guard_code j type payload c) \/
   (r = Val tt /\ type <> RecordType.Count /\ exists f', Disk.journal d' = Some f' /\
    File.bytes f' = File.bytes f ++ record_bytes type payload (wrap 64 (Journal.sequence_ j + 1)))).
Proof.
  intros Hd Hf. unfold Journal.append. rewrite self_bind. cbn [fst]. rewrite !guarded.
  assert (Hguard : forall c, guard_code j type payload c ->
    exists j' d' r, (j, d, Err c) = (j', d', r) /\ Disk.faults d' = [] /\
    ((exists c, r = Err c /\ d' = d /\ guard_code j type payload c) \/
     (r = Val tt /\ type <> RecordType.Count /\ exists f', Disk.journal d' = Some f' /\
      File.bytes f' = File.bytes f ++ record_bytes type payload (wrap 64 (Journal.sequence_ j + 1))))).
  { intros c Hc. exists j, d, (Err c). eauto 10. }
  destruct (Journal.open_ j) eqn:Ho; cbn [negb]; [|by apply Hguard; unfold guard_code; rewrite Ho].
  destruct (_ >=? _) eqn:Ht; [apply Hguard; unfold guard_code; by destruct type|].
  destruct (size_of payload >? _) eqn:Hs; [apply Hguard; unfold guard_code; intros; lia|].
  destruct (_ || _); [apply Hguard; unfold guard_code; auto|].
  destruct (_ =? u64_max); [apply Hguard; unfold guard_code; auto|].
  clear Hguard. rewrite io_writes. set (q := wrap 64 _).
  assert (E : exists f', (Disk.fwrite Disk.journal (record_header type (size_of payload) q) ;;
     (if bool_decide (payload = []) then mret tt else Disk.fwrite Disk.journal payload) ;;
     Disk.fwrite Disk.journal (le_bytes 4 (crc32c payload))) d = (d <| Disk.journal := Some f' |>, Val tt) /\
     File.bytes f' = File.bytes f ++ record_bytes type payload q).
  { unfold mbind, M_bind. erewrite fwrite_works by done. exists (File.put (record_bytes type payload q) f).
    split; [|done]. unfold record_bytes. case_bool_decide as Hp.
    - unfold mret, M_ret. erewrite fwrite_works by done. rewrite put_put, Hp. by destruct d.
    - erewrite fwrite_works by done. erewrite fwrite_works by done. rewrite !put_put.
      by destruct d. }
  destruct E as (f1 & E & Hb). rewrite (io_bind _ _ _ _ _ _ E).
  assert (Htc : type <> RecordType.Count) by (by intros ->).
  destruct (true && _).
  - eexists _, _, _. split; [|split; [|right; split; [done|split; [done|]]]].
    + unfold mbind, M_bind, Journal.assign, Journal.io, Disk.flush_to_stable, Disk.call. cbn. by rewrite Hd.
    + by destruct d.
    + exists (File.sync f1). by destruct d.
  - eexists _, _, _. split; [done|]. split; [by destruct d|]. right. split; [done|]. split; [done|].
    exists f1. by destruct d.
Qed.

(** Appends on a working disk only add bytes, starting with a record header. *)
Lemma append_run_bytes rs : forall j d f j' d' n,
  append_run rs (j, d) = ((j', d'), n) -> Disk.faults d = [] -> Disk.journal d = Some f ->
  exists f' added, Disk.faults d' = [] /\ Disk.journal d' = Some f' /\
  File.bytes f' = File.bytes f ++ added /\
  (n = 0%nat \/ exists type l, type <> RecordType.Count /\ added = lead type ++ l /\ (24 <= length added)%nat).
Proof.
  induction rs as [|[t p] rs IH]; intros j d f j' d' n E Hd Hf; cbn [append_run] in E.
  { injection E as -> -> <-. exists f, []. rewrite app_nil_r. auto. }
  destruct (append_works t p j d f Hd Hf) as (j1 & d1 & r & Ea & Hd1 & H). rewrite Ea in E.
  destruct H as [(c & -> & -> & _)|(-> & Ht & f1 & Hf1 & Hb1)].
  { injection E as -> -> <-. exists f, []. rewrite app_nil_r. auto. }
  destruct (append_run rs (j1, d1)) as [[j2 d2] m] eqn:Er. injection E as -> -> <-.
  destruct (IH _ _ _ _ _ _ Er Hd1 Hf1) as (f' & added & Hd' & Hf' & Hb & _).
  set (q := wrap 64 _) in Hb1. exists f', (record_bytes t p q ++ added). split; [done|]. split; [done|].
  split; [by rewrite Hb, Hb1, <- app_assoc|]. right.
  destruct (record_lead t (size_of p) q) as [l Hl]. exists t. eexists. split; [done|].
  split; [unfold record_bytes; rewrite Hl, <- !app_assoc; done|].
  rewrite length_app, length_record_bytes. lia.
Qed.

Lemma check_header_ok body : Journal.check_header (journal_header ++ body) = Val tt.
Proof.
  destruct journal_header_sound as (Hm & Hv & Hc). pose proof length_journal_header as Hl.
  unfold Journal.check_header. rewrite !load_app_l, !take_app_le, Hm, Hv, Hc by lia.
  replace (size_of (journal_header ++ body) <? kJournalHeaderBytes) with false
    by (symmetry; unfold size_of, kJournalHeaderBytes; rewrite length_app, Hl; blia).
  by rewrite bool_decide_eq_true_2, !Z.eqb_refl by done.
Qed.

Lemma accept_all es : for_each (visit (fun _ _ _ => mret tt)) es tt = (tt, Val tt).
Proof. induction es; [done|by cbn]. Qed.

(** Opening an existing journal whose records are intact up to a torn tail changes nothing on
    the disk and picks up the sequence of the last intact record. *)
Lemma open_run options es e k d f :
  Forall Entry.ok es -> (k = 0%nat \/ Entry.ok e) -> (k < length (Entry.to_bytes e))%nat ->
  Disk.faults d = [] -> Disk.journal d = Some f ->
  File.bytes f = journal_header ++ run_bytes es ++ take k (Entry.to_bytes e) ->
  Journal.open false options d =
  if (Journal.max_record_bytes options =? 0) || (Journal.max_record_bytes options >? kMaxJournalRecordBytes)
  then (d, Err StatusCode.OutOfRange)
  else (d, Val (Journal.mk true options (from_option Entry.sequence 0 (last es)) (size_of (File.bytes f)))).
Proof.
  intros Hes He Hk Hd Hf Hb.
  assert (Htry : forall c, Disk.try_call c d = (d, Val tt))
    by (intros; unfold Disk.try_call, Disk.call; by rewrite Hd).
  assert (Hverify : verify d = (d, Val (Some (accepted es (bool_decide (0 < k)%nat), Val tt)))).
  { unfold verify. destruct (decide (k = 0%nat)) as [->|Hk0].
    - rewrite (replay_file _ d f es (Entry.mk RecordType.Begin [] 1) 0 tt tt Hd Hf Hes begin_ok); [done| |done|].
      + rewrite length_to_bytes. simpl. lia.
      + apply accept_all.
    - destruct He as [|He]; [done|].
      by rewrite (replay_file _ d f es e k tt tt Hd Hf Hes He Hk Hb (accept_all es)). }
  unfold Journal.open. rewrite !run_guard. destruct (_ || _); [done|].
  rewrite !(run_bind _ _ _ _ _ (Htry _)), (run_bind get _ d d d eq_refl), Hf, Hb.
  rewrite (run_bind _ _ d d tt).
  2:{ rewrite !(run_bind _ _ _ _ _ (Htry _)). unfold lift. by rewrite check_header_ok. }
  rewrite (run_bind _ _ _ _ _ (Htry _)).
  erewrite (run_bind (catch _)) by (unfold catch; rewrite (run_bind _ _ _ _ _ (Htry _)); reflexivity).
  rewrite (run_bind _ _ _ _ _ Hverify). unfold Disk.content. rewrite Hf, Hb. reflexivity.
Qed.

(** Opening a journal does not repair a torn tail: a crash that left the first one to
    seven bytes of a record makes every record appended after the restart unreachable. Each of
    those appends is acknowledged as durable, and replay still ends at the torn bytes, showing
    only what preceded them. *)
Theorem torn_tail_hides_acknowledged es e k options d f d1 j rs j' d' n :
  Forall Entry.ok es -> Entry.ok e -> (1 <= k < 8)%nat ->
  Disk.faults d = [] -> Disk.journal d = Some f ->
  File.bytes f = journal_header ++ run_bytes es ++ take k (Entry.to_bytes e) ->
  Journal.open false options d = (d1, Val j) ->
  append_run rs (j, d1) = ((j', d'), n) -> (0 < n)%nat ->
  replay recorder (d', []) = ((d', es), Some (accepted es true, Val tt)).
Proof.
  intros Hes He Hk Hd Hf Hb Hopen Happ Hn.
  rewrite (open_run options es e k d f) in Hopen;
    [|done|by right|rewrite length_to_bytes; lia|done..].
  destruct (_ || _); [done|]. injection Hopen as <- _.
  destruct (append_run_bytes _ _ _ _ _ _ _ Happ Hd Hf) as (f' & added & Hd' & Hf' & Hb' & [->|Hadd]); [lia|].
  destruct Hadd as (type & l & Ht & -> & Hlen).
  rewrite Hb, <- !app_assoc in Hb'. rewrite (replay_prologue recorder d' f' _ [] Hd' Hf' Hb').
  set (left := take k (Entry.to_bytes e) ++ lead type ++ l).
  destruct (enough_fuel es journal_header left) as [fuel ->].
  rewrite (loop_records recorder es _ _ _ _ d' [] es) by (done || apply recorder_all).
  rewrite visited_all, (app_assoc journal_header), loop_bad_lead; [|done| |].
  - replace (size_of (journal_header ++ run_bytes es) - kJournalHeaderBytes) with (size_of (run_bytes es));
      [done|]. unfold kJournalHeaderBytes, size_of. rewrite length_app, length_journal_header. lia.
  - unfold left. rewrite length_app. lia.
  - unfold left. destruct (record_lead (Entry.type e) (size_of (Entry.payload e)) (Entry.sequence e)) as [m Hm].
    unfold Entry.to_bytes, record_bytes. rewrite Hm, <- app_assoc, take_app_le by (rewrite length_lead; lia).
    rewrite (app_assoc _ (lead type)), bad_lead_app by (rewrite length_app, !length_lead; lia).
    apply bad_lead_spliced; [done|apply He|done].
Qed.

(** A restart behind the first byte of a torn record. *)
Definition torn_file : File.t := File.mk (journal_header ++ take 1 (record_bytes RecordType.Begin [] 1)) 16.
Definition torn_disk : Disk.t := Disk.mk (Some torn_file) None None [].

Lemma torn_tail_hides_acknowledged_witness :
  let '(d1, opened) := Journal.open false Journal.default_options torn_disk in
  exists j, opened = Val j /\
  let '((j', d'), n) := append_run two_records (j, d1) in
  n = 2%nat /\ replay recorder (d', []) = ((d', []), Some (accepted [] true, Val tt)).
Proof.
  destruct (Journal.open _ _ _) as [d1 opened] eqn:Eo.
  assert (H : exists j, opened = Val j) by (vm_compute in Eo; injection Eo as <- <-; by eexists).
  destruct H as [j ->]. exists j. split; [done|].
  destruct (append_run two_records (j, d1)) as [[j' d'] n] eqn:Ea.
  assert (Hn : n = 2%nat).
  { vm_compute in Eo. injection Eo as <- <-. vm_compute in Ea. by injection Ea. }
  split; [done|].
  apply (torn_tail_hides_acknowledged [] (Entry.mk RecordType.Begin [] 1) 1 Journal.default_options
    torn_disk torn_file d1 j two_records j' d' n);
    [constructor|exact begin_ok|lia|reflexivity..|exact Eo|exact Ea|lia].
Defined.

(** ** Snapshots *)

Definition snapshot_image (payload : list Z) : list Z := snapshot_header payload ++ payload.

(** Writing goes through the temporary file only. *)
Lemma write_atomic_outcome max payload d d' r :
  SnapshotFile.write_atomic false max payload d = (d', r) ->
  Disk.journal d' = Disk.journal d /\
  match r with
  | Val _ => size_of payload <= max /\
      Disk.snapshot d' = Some (File.mk (snapshot_image payload) (length (snapshot_image payload)))
  | Err _ => Disk.snapshot d' = Disk.snapshot d
  end.
Proof.
  unfold SnapshotFile.write_atomic. rewrite !run_guard. destruct (_ >? _) eqn:Hs; [by intros [= <- <-]|].
  assert (Hle : size_of payload <= max) by (rewrite Z.gtb_ltb in Hs; apply Z.ltb_ge in Hs; done).
  clear Hs. unfold SnapshotFile.discard, Disk.create, Disk.fwrite, Disk.flush_to_stable, Disk.try_call,
    Disk.call, catch, modify, fail, mbind, M_bind, mret, M_ret.
  destruct d as [jn sn tmp faults]. cbn [Disk.faults].
  unfold snapshot_image. set (h := snapshot_header payload). clearbody h.
  case_bool_decide as Hp; do 8 (try (destruct faults as [|[?|] faults]; cbn));
    intros [= <- <-]; cbn; subst; rewrite ?app_nil_r; auto.
Qed.

Definition snapshot_fields (payload : list Z) : list Z :=
  kSnapshotMagic ++ le_bytes 4 kSchemaVersion ++ le_bytes 8 (size_of payload) ++
  le_bytes 4 (crc32c payload) ++ [].

Lemma length_snapshot_fields payload : length (snapshot_fields payload) = 24%nat.
Proof. unfold snapshot_fields. by rewrite !length_app, !length_le_bytes. Qed.

Lemma snapshot_header_fields payload : snapshot_header payload = snapshot_fields payload.
Proof.
  unfold snapshot_header. change kSnapshotHeaderBytes with 24.
  replace 24 with (size_of (snapshot_fields payload))
    by (unfold size_of; by rewrite length_snapshot_fields).
  apply writes_make. unfold snapshot_fields.
  apply writes_cons; [apply (writes_push kSnapshotMagic)|].
  apply writes_cons; [apply (writes_push (le_bytes 4 _))|].
  apply writes_cons; [apply (writes_push (le_bytes 8 _))|].
  apply writes_cons; [apply (writes_push (le_bytes 4 _))|]. apply writes_nil.
Qed.

(** The image of a payload reads back as the payload. *)
Lemma read_image max payload d f :
  size_of payload <= max -> max <= u64_max -> Disk.faults d = [] ->
  Disk.snapshot d = Some f -> File.bytes f = snapshot_image payload ->
  SnapshotFile.read max d = (d, Val payload).
Proof.
  intros Hs Hmax Hd Hf Hb.
  assert (Htry : forall c, Disk.try_call c d = (d, Val tt))
    by (intros; unfold Disk.try_call, Disk.call; by rewrite Hd).
  unfold SnapshotFile.read. rewrite (run_bind _ _ _ _ _ (Htry _)), (run_bind get _ d d d eq_refl), Hf.
  rewrite (run_bind _ _ _ _ _ (Htry _)), Hb. unfold snapshot_image. rewrite snapshot_header_fields.
  set (h := snapshot_fields payload). assert (Hl : length h = 24%nat) by apply length_snapshot_fields.
  pose proof (size_of_nonneg payload) as Hpos. unfold u64_max in Hmax.
  assert (H8 : load 8 12 h = size_of payload).
  { apply (load_le_bytes 8 (kSnapshotMagic ++ le_bytes 4 kSchemaVersion)). unfold in_range. cbn. lia. }
  assert (H20 : load 4 20 h = crc32c payload).
  { rewrite <- (load_le_bytes 4 (kSnapshotMagic ++ le_bytes 4 kSchemaVersion ++ le_bytes 8 (size_of payload))
      (crc32c payload) []) by apply crc32c_range.
    unfold h, snapshot_fields. rewrite <- !app_assoc. f_equal. }
  assert (H4 : load 4 8 h = kSchemaVersion).
  { apply (load_le_bytes 4 kSnapshotMagic). by vm_compute. }
  assert (Hrest : drop (Z.to_nat kSnapshotHeaderBytes) (h ++ payload) = payload)
    by (by apply drop_app_length').
  rewrite !run_guard, !(load_app_l _ _ h), H4, H8, H20, Hrest by lia.
  replace (size_of (h ++ payload) <? kSnapshotHeaderBytes) with false
    by (symmetry; rewrite size_of_app; unfold size_of at 1; rewrite Hl; unfold kSnapshotHeaderBytes; blia).
  rewrite take_app_le, bool_decide_eq_true_2, Z.eqb_refl by (lia || done). cbn [negb].
  replace (size_of payload >? max) with false by (symmetry; blia).
  assert (Ht : take (Z.to_nat (size_of payload)) payload = payload)
    by (apply take_ge; unfold size_of; lia).
  erewrite run_bind; [by rewrite Ht, run_guard, Z.eqb_refl|].
  destruct (size_of payload =? 0); [done|]. rewrite (run_bind _ _ _ _ _ (Htry _)), Z.ltb_irrefl. done.
Qed.

(** C30: A snapshot is replaced as a whole or not at all. Whatever call fails and at
    whatever byte, an attempt that reports an error leaves the old snapshot in place; one that
    reports success leaves a file that is entirely on stable storage and from which [read]
    returns exactly the payload. The journal is not touched either way. *)
Theorem snapshot_replaced_or_kept max payload d d' r :
  SnapshotFile.write_atomic false max payload d = (d', r) -> max <= u64_max ->
  Disk.journal d' = Disk.journal d /\
  match r with
  | Err _ => Disk.snapshot d' = Disk.snapshot d
  | Val _ =>
      (exists f, Disk.snapshot d' = Some f /\ File.synced f = length (File.bytes f)) /\
      let d'' := d' <| Disk.faults := [] |> in SnapshotFile.read max d'' = (d'', Val payload)
  end.
Proof.
  intros E Hmax. apply write_atomic_outcome in E as [Hj E]. split; [done|].
  destruct r as [u|c]; [|done]. destruct E as [Hs Hf]. split; [by eexists|].
  by eapply read_image.
Qed.

Lemma snapshot_replaced_or_kept_witness :
  let '(d', r) := SnapshotFile.write_atomic false kMaxSnapshotBytes [7; 8; 9] torn_disk in
  r = Val tt /\ Disk.journal d' = Disk.journal torn_disk /\
  (exists f, Disk.snapshot d' = Some f /\ File.synced f = length (File.bytes f)) /\
  let d'' := d' <| Disk.faults := [] |> in SnapshotFile.read kMaxSnapshotBytes d'' = (d'', Val [7; 8; 9]).
Proof.
  destruct (SnapshotFile.write_atomic _ _ _ _) as [d' r] eqn:E.
  assert (r = Val tt) as -> by (vm_compute in E; by injection E).
  destruct (snapshot_replaced_or_kept kMaxSnapshotBytes [7; 8; 9] torn_disk d' (Val tt) E) as (Hj & Hf & Hr);
    [by vm_compute|]. done.
Defined.
