(* ===== verification/Durable.v ===== *)
(** * The durable governor ([src/persistence.cpp], [DurableGovernor])

    A governor with the journal and the snapshot that back it: recovery on [open], the
    [record_*] operations that journal an input and apply it, and compaction. The methods
    thread the object and the disk, so that what an early return leaves behind in either is
    what the model leaves. The free-text [detail] of a finding is not kept. *)
From S2P Require Import Prelude Status Checked Tri Tick Hash OMap Flow Tables Policy Impact Classification Intervention Governor Codec Restore Journal.

Module RecoveryDisposition.
Inductive t : Type :=
| DurableConfiguration | CommittedState | UnfinishedAttempt | AmbiguousOutcome | StaleLiveAuthority
| EvidenceRequiresRevalidation.
End RecoveryDisposition.

Module RecoveryFinding.
Record t := mk {
  disposition : RecoveryDisposition.t;
  type : RecordType.t;
  sequence : Z;
  count : Z }.
End RecoveryFinding.

Module RecoveryReport.
Record t := mk {
  snapshot_loaded : bool;
  snapshot_rejected : bool;
  journal_truncated_tail : bool;
  journal_corrupt : bool;
  records_replayed : Z;
  records_rejected : Z;
  bytes_replayed : Z;
  restored_tick : Tick;
  recovery_tick : Tick;
  previous_epoch : Z;
  current_epoch : Z;
  previous_boot : Z;
  current_boot : Z;
  flows_restored : Z;
  flows_requiring_revalidation : Z;
  intents_fenced : Z;
  findings : list RecoveryFinding.t }.
#[global] Instance eta_t : Eta t := fun r =>
  mk (snapshot_loaded r) (snapshot_rejected r) (journal_truncated_tail r) (journal_corrupt r)
     (records_replayed r) (records_rejected r) (bytes_replayed r) (restored_tick r) (recovery_tick r)
     (previous_epoch r) (current_epoch r) (previous_boot r) (current_boot r) (flows_restored r)
     (flows_requiring_revalidation r) (intents_fenced r) (findings r).
Definition default : t := mk false false false false 0 0 0 0 0 0 0 0 0 0 0 0 [].

Definition validate (r : t) : Status :=
  refuse_if (wrap 64 (records_replayed r + records_rejected r) >? kMaxJournalReplayRecords)
    StatusCode.Oversized ;;
  refuse_if (size_of (findings r) >? 64) StatusCode.Oversized.

Definition add_finding (disposition : RecoveryDisposition.t) (type : RecordType.t) (sequence count : Z)
    (report : t) : t :=
  if size_of (findings report) >=? 64 then report
  else report <| findings ::= (fun l => l ++ [RecoveryFinding.mk disposition type sequence count]) |>.
End RecoveryReport.

Module DurableGovernor.
Record Options := mkOptions {
  directory_empty : bool;
  journal : Journal.Options;
  snapshot_max_bytes : Z;
  snapshot_every_records : Z }.

Record t := mk {
  options_ : Options;
  governor_ : Governor.t;
  journal_ : Journal.t;
  report_ : RecoveryReport.t;
  records_since_snapshot_ : Z;
  open_ : bool }.
#[global] Instance eta_t : Eta t := fun r =>
  mk (options_ r) (governor_ r) (journal_ r) (report_ r) (records_since_snapshot_ r) (open_ r).

(** Methods of the store on its disk, and of its members. *)
Definition MD (A : Type) : Type := M (t * Disk.t) A.
Definition self : MD t := fun sd => (sd, Val sd.1).
Definition assign (f : t -> t) : MD unit := fun sd => ((f sd.1, sd.2), Val tt).
Definition io {A} (m : M Disk.t A) : MD A := fun sd =>
  let '(s, d) := sd in let '(d, x) := m d in ((s, d), x).
Definition on_journal {A} (m : Journal.MJ A) : MD A := fun sd =>
  let '(s, d) := sd in
  let '((j, d), x) := m (journal_ s, d) in ((s <| journal_ := j |>, d), x).
Definition on_governor {A} (m : M Governor.t A) : M t A := on governor_ m.
Definition on_self {A} (m : M t A) : MD A := fun sd =>
  let '(s, d) := sd in let '(s, x) := m s in ((s, d), x).
Definition note (disposition : RecoveryDisposition.t) (type : RecordType.t) (sequence count : Z) : M t unit :=
  modify (fun s => s <| report_ ::= RecoveryReport.add_finding disposition type sequence count |>).

(** [!status.ok() && status.code() != a && status.code() != b] *)
Definition refused_except {A} (a b : StatusCode.t) (r : StatusOr A) : bool :=
  match r with Val _ => false | Err c => negb (bool_decide (c = a)) && negb (bool_decide (c = b)) end.

(** *** Replay *)

(** A replayed statement the governor finds stale or conflicting is not an error. *)
Definition replay_statement {A} `{Decode A} (submit : A -> M Governor.t unit)
    (type : RecordType.t) (payload : list Z) (sequence : Z) : M t unit :=
  value ← lift (snd (decode (ByteReader.make payload)));
  applied ← catch (on_governor (submit value));
  (if refused_except StatusCode.Stale StatusCode.Conflict applied then lift applied else mret tt) ;;
  note RecoveryDisposition.DurableConfiguration type sequence 1.

Definition replay_evidence (payload : list Z) (sequence : Z) : M t unit :=
  sample ← lift (snd (decode (ByteReader.make payload)));
  applied ← catch (on_governor (Governor.submit_evidence sample));
  if refused_except StatusCode.Stale StatusCode.NotFound applied
  then modify (fun s => s <| report_ ::= (fun r => r <| RecoveryReport.records_rejected ::= inc64 |>) |>) ;;
       note RecoveryDisposition.AmbiguousOutcome RecordType.FlowClassified sequence 1
  else mret tt.

Definition read_completion : M ByteReader.t (FlowId * Generation * Tick) :=
  flow ← need_u64; generation ← need_u64; at_ ← need_u64; mret (flow, generation, at_).

Definition replay_completion (payload : list Z) (sequence : Z) : M t unit :=
  record ← lift (snd (read_completion (ByteReader.make payload)));
  let '(flow, generation, at_) := record in
  applied ← catch (on_governor (Governor.complete_flow flow generation at_));
  (if refused_except StatusCode.NotFound StatusCode.NotFound applied then lift applied else mret tt) ;;
  note RecoveryDisposition.CommittedState RecordType.FlowTransition sequence 1.

Definition replay_tick (recovery_tick : Tick) (payload : list Z) (sequence : Z) : M t unit :=
  tick ← lift (snd (need_u64 (ByteReader.make payload)));
  (if tick <=? recovery_tick then catch (on_governor (Governor.tick tick)) ;; mret tt else mret tt) ;;
  note RecoveryDisposition.CommittedState RecordType.TickCommitted sequence 1.

(** The visitor handed to [Journal::replay]. *)
Definition visitor (recovery_tick : Tick) (type : RecordType.t) (payload : list Z) (sequence : Z) : M t unit :=
  modify (fun s => s <| report_ ::= (fun r =>
    r <| RecoveryReport.records_replayed ::= inc64 |>
      <| RecoveryReport.bytes_replayed ::= add64 (size_of payload) |>) |>) ;;
  match type with
  | RecordType.PolicyAccepted => replay_statement Governor.submit_policy type payload sequence
  | RecordType.CapacityAccepted => replay_statement Governor.submit_capacity type payload sequence
  | RecordType.PathAccepted => replay_statement Governor.submit_path type payload sequence
  | RecordType.FlowClassified => replay_evidence payload sequence
  | RecordType.FlowTransition => replay_completion payload sequence
  | RecordType.TickCommitted => replay_tick recovery_tick payload sequence
  | _ => note RecoveryDisposition.DurableConfiguration type sequence 1
  end.

(** What a replay that ended leaves in the report. *)
Definition replay_report (stats : JournalReplayStats.t) (corrupt : bool) (s : t) : t :=
  let s := s <| report_ ::= (fun r =>
    r <| RecoveryReport.records_replayed := JournalReplayStats.records stats |>
      <| RecoveryReport.bytes_replayed := JournalReplayStats.bytes stats |>
      <| RecoveryReport.journal_truncated_tail := JournalReplayStats.truncated_tail stats |>
      <| RecoveryReport.journal_corrupt := corrupt |>) |> in
  let last := JournalReplayStats.sequence_last stats in
  let s := if JournalReplayStats.truncated_tail stats
           then s <| report_ ::= RecoveryReport.add_finding RecoveryDisposition.UnfinishedAttempt
                                   RecordType.Begin last 1 |>
           else s in
  if corrupt
  then s <| report_ ::= RecoveryReport.add_finding RecoveryDisposition.AmbiguousOutcome
                          RecordType.Begin last 1 |>
  else s.

Definition replay_into_governor (recovery_tick : Tick) : MD unit := fun sd =>
  let '(s, d) := sd in
  let '(d, fault) := Disk.call d in  (* exists *)
  if Disk.failed fault || negb (bool_decide (is_Some (Disk.journal d))) then ((s, d), Val tt)
  else
  match replay (visitor recovery_tick) (d, s) with
  | ((d, s), None) => ((s, d), Err StatusCode.Internal)
  | ((d, s), Some (stats, status)) =>
      match status with
      | Val _ => ((replay_report stats false s, d), Val tt)
      | Err StatusCode.IntegrityFailure => ((replay_report stats true s, d), Val tt)
      | Err c => ((s, d), Err c)
      end
  end.

(** *** Recovery *)

(** The incarnation that wrote a snapshot. *)
Definition peek : M ByteReader.t (Z * Z) :=
  need_u32 ;; need_u32 ;; need_u64 ;; need_u64 ;; need_u64 ;;
  stored_boot ← need_u64;
  stored_epoch ← need_u64;
  mret (stored_boot, stored_epoch).

Definition reject_snapshot : M t unit :=
  modify (fun s => s <| report_ ::= (fun r => r <| RecoveryReport.snapshot_rejected := true |>) |>) ;;
  note RecoveryDisposition.AmbiguousOutcome RecordType.Snapshot 0 1.

(** Restore the bytes of a snapshot. A snapshot of another incarnation's making is a final
    refusal; any other failure is noted and recovery goes on. *)
Definition restore_snapshot (payload : list Z) (recovery_tick : Tick) : M t unit :=
  (match snd (peek (ByteReader.make payload)) with
   | Val (boot, epoch) => modify (fun s => s <| report_ ::= (fun r =>
       r <| RecoveryReport.previous_boot := boot |> <| RecoveryReport.previous_epoch := epoch |>) |>)
   | Err _ => mret tt
   end) ;;
  restored ← catch (on_governor (fun g =>
    let '((g, _), x) := deserialize recovery_tick (g, ByteReader.make payload) in (g, x)));
  match restored with
  | Val _ =>
      modify (fun s => s <| report_ ::= (fun r => r <| RecoveryReport.snapshot_loaded := true |>) |>) ;;
      note RecoveryDisposition.CommittedState RecordType.Snapshot 0 1
  | Err StatusCode.Conflict | Err StatusCode.EpochMismatch | Err StatusCode.VersionMismatch => lift restored
  | Err _ => reject_snapshot
  end.

Definition recover_snapshot (recovery_tick : Tick) : MD unit :=
  s ← self;
  exists_ ← catch (io (Disk.try_call StatusCode.IoError ;; d ← get; mret (bool_decide (is_Some (Disk.snapshot d)))));
  if value_or exists_ false then
    payload ← catch (io (SnapshotFile.read (snapshot_max_bytes (options_ s))));
    match payload with
    | Val payload => on_self (restore_snapshot payload recovery_tick)
    | Err _ => on_self reject_snapshot
    end
  else mret tt.

(** Authority that did not survive is reported. *)
Definition note_if (condition : bool) (m : M t unit) : M t unit := if condition then m else mret tt.
Definition report_authority : M t unit :=
  s ← get;
  let counters := Governor.counters_ (governor_ s) in
  let flows := GovernorCounters.restored_flows_requiring_revalidation counters in
  let intents := GovernorCounters.intents_fenced counters in
  note_if (flows >? 0) (note RecoveryDisposition.EvidenceRequiresRevalidation RecordType.FlowClassified 0 flows) ;;
  note_if (intents >? 0) (note RecoveryDisposition.StaleLiveAuthority RecordType.IntentFenced 0 intents).

(** The store before recovery. *)
Definition fresh (options : Options) (config : GovernorConfig.t) (boot : BootIdentity.t)
    (recovery_tick : Tick) : t :=
  mk options (Governor.set_incarnation boot (Governor.make config)) Journal.default
    (RecoveryReport.default <| RecoveryReport.recovery_tick := recovery_tick |>
                            <| RecoveryReport.current_boot := BootIdentity.boot boot |>
                            <| RecoveryReport.current_epoch := BootIdentity.epoch boot |>) 0 false.

Definition recover (recovery_tick : Tick) : MD unit :=
  recover_snapshot recovery_tick ;;
  s ← self;
  j ← io (Journal.open false (journal (options_ s)));
  assign (fun s => s <| journal_ := j |>) ;;
  replay_into_governor recovery_tick ;;
  on_self report_authority ;;
  on_journal (Journal.append RecordType.Begin [] true) ;;
  assign (fun s => s <| open_ := true |>).

(** The store a method built out of a local one, which is destroyed when the method fails. *)
Definition construct (m : MD unit) (s : t) : M Disk.t t := fun d =>
  match m (s, d) with
  | ((s, d), Val _) => (d, Val s)
  | ((s, d), Err c) => let '((_, d), _) := Journal.destroy (journal_ s, d) in (d, Err c)
  end.

Definition open (options : Options) (config : GovernorConfig.t) (boot : BootIdentity.t)
    (recovery_tick : Tick) : M Disk.t t :=
  lift (refuse_if (directory_empty options) StatusCode.InvalidArgument) ;;
  lift (refuse_if (negb (BootIdentity.valid boot)) StatusCode.InvalidArgument) ;;
  Disk.try_call StatusCode.IoError ;;  (* create_directories *)
  construct (recover recovery_tick) (fresh options config boot recovery_tick).

(** *** Recording *)

Definition encode_snapshot (s : t) : StatusOr (list Z) :=
  let '(writer, serialized) := serialize (governor_ s) (ByteWriter.make (snapshot_max_bytes (options_ s))) in
  serialized ;;
  refuse_if (ByteWriter.overflowed_ writer) StatusCode.Oversized ;;
  Val (ByteWriter.buffer_ writer).

(** The payload of a record. *)
Definition encoded {A} `{Encode A} (x : A) : StatusOr (list Z) :=
  let writer := encode x (ByteWriter.make kMaxJournalRecordBytes) in
  refuse_if (ByteWriter.overflowed_ writer) StatusCode.Oversized ;;
  Val (ByteWriter.buffer_ writer).

Definition count_record : MD unit := assign (fun s => s <| records_since_snapshot_ ::= inc64 |>).

(** [record_policy], [record_capacity] and [record_path]: the governor first, then the journal. *)
Definition record_statement {A} `{Encode A} (submit : A -> M Governor.t unit) (type : RecordType.t) (x : A)
    : MD unit :=
  payload ← lift (encoded x);
  on_self (on_governor (submit x)) ;;
  on_journal (Journal.append type payload true) ;;
  count_record.
Definition record_policy : PolicyDocument.t -> MD unit :=
  record_statement Governor.submit_policy RecordType.PolicyAccepted.
Definition record_capacity : ResourceCapacity.t -> MD unit :=
  record_statement Governor.submit_capacity RecordType.CapacityAccepted.
Definition record_path : PathDescriptor.t -> MD unit :=
  record_statement Governor.submit_path RecordType.PathAccepted.

Definition compact_snapshot : MD unit :=
  s ← self;
  payload ← lift (encode_snapshot s);
  io (SnapshotFile.write_atomic false (snapshot_max_bytes (options_ s)) payload) ;;
  on_journal (Journal.append RecordType.Snapshot [] true) ;;
  on_journal Journal.reset ;;
  assign (fun s => s <| records_since_snapshot_ := 0 |>).

Definition record_evidence (sample : FlowSample.t) : MD FlowDecision.t :=
  payload ← lift (encoded sample);
  on_journal (Journal.append RecordType.FlowClassified payload true) ;;
  count_record ;;
  decision ← catch (on_self (on_governor (Governor.submit_evidence sample)));
  s ← self;
  (if negb (snapshot_every_records (options_ s) =? 0) &&
      (records_since_snapshot_ s >=? snapshot_every_records (options_ s))
   then catch compact_snapshot ;; mret tt
   else mret tt) ;;
  lift decision.

Definition record_tick (now : Tick) : MD DecisionBatch.t :=
  let writer := put_u64 now (ByteWriter.make 16) in
  on_journal (Journal.append RecordType.TickCommitted (ByteWriter.buffer_ writer) true) ;;
  count_record ;;
  on_self (on_governor (Governor.tick now)).

Definition close : MD unit :=
  s ← self;
  if negb (open_ s) then mret tt
  else
    catch (on_journal (Journal.append RecordType.Shutdown [] true)) ;;
    on_journal Journal.close ;;
    assign (fun s => s <| open_ := false |>).
End DurableGovernor.
