(* ===== verification/DurableFacts.v ===== *)
(** * What the durable governor guarantees

    Recovery from the journal is the re-execution, under the new identity, of exactly the inputs
    that were recorded: the journal's contract ([JournalFacts]), the codec's round trips
    ([CodecFacts]) and the governor's operations meet here. *)
From S2P Require Import Prelude Status Checked Tri Tick Hash OMap Flow Tables Policy Impact Classification Intervention Governor GovernorFacts GovernorRuns Codec CodecFacts Restore Journal JournalFacts Durable.

Import DurableGovernor.
#[local] Opaque crc32c journal_header record_header.
#[local] Opaque Governor.submit_policy Governor.submit_capacity Governor.submit_path
  Governor.submit_evidence Governor.complete_flow Governor.tick.

(** ** What a method leaves alone *)

Definition keeps {S A B} (part : S -> B) (m : M S A) : Prop := forall s, part (m s).1 = part s.

Lemma part_kept_bind {S A B C} (part : S -> C) (m : M S A) (k : A -> M S B) :
  keeps part m -> (forall x, keeps part (k x)) -> keeps part (m ≫= k).
Proof.
  intros Hm Hk s. specialize (Hm s). unfold mbind, M_bind.
  destruct (m s) as [s1 [x|c]]; cbn [fst] in *; [|done]. by rewrite Hk.
Qed.

Lemma keeps_catch {S A C} (part : S -> C) (m : M S A) : keeps part m -> keeps part (catch m).
Proof. intros Hm s. specialize (Hm s). unfold catch. by destruct (m s). Qed.

(** Governor and options are reached by neither the disk nor the journal. *)
Notation keeps_governor := (keeps (fun sd : t * Disk.t => (governor_ sd.1, options_ sd.1))).

Lemma governor_kept_io {A} (m : M Disk.t A) : keeps_governor (io m).
Proof. intros [s d]. unfold io. by destruct (m d). Qed.
Lemma governor_kept_journal {A} (m : Journal.MJ A) : keeps_governor (on_journal m).
Proof. intros [s d]. unfold on_journal. by destruct (m (journal_ s, d)) as [[j d'] x]. Qed.
Lemma governor_kept_compaction : keeps_governor compact_snapshot.
Proof.
  repeat first [ apply governor_kept_io | apply governor_kept_journal | apply part_kept_bind; [|intros ?] | by intros [] ].
Qed.

(** The journal does not touch the snapshot. *)
Notation keeps_snapshot := (keeps (fun jd : Journal.t * Disk.t => Disk.snapshot jd.2)).

Lemma snapshot_kept_io {A} (m : M Disk.t A) : keeps Disk.snapshot m -> keeps_snapshot (Journal.io m).
Proof. intros Hm [j d]. specialize (Hm d). unfold Journal.io. by destruct (m d). Qed.

Lemma snapshot_kept_disk :
  (forall c, keeps Disk.snapshot (Disk.try_call c)) /\
  (forall bs, keeps Disk.snapshot (Disk.fwrite Disk.journal bs)) /\
  keeps Disk.snapshot (Disk.flush_to_stable Disk.journal) /\ keeps Disk.snapshot (Disk.create Disk.journal) /\
  keeps Disk.snapshot Journal.write_header.
Proof.
  assert (Ht : forall c, keeps Disk.snapshot (Disk.try_call c))
    by (intros ? [? ? ? [|[] ?]]; done).
  assert (Hw : forall bs, keeps Disk.snapshot (Disk.fwrite Disk.journal bs))
    by (intros ? [? ? ? [|[] ?]]; done).
  assert (Hf : keeps Disk.snapshot (Disk.flush_to_stable Disk.journal))
    by (intros [? ? ? [|[] ?]]; done).
  split_and!; [exact Ht|exact Hw|exact Hf|apply part_kept_bind; [apply Ht|done]|by apply part_kept_bind].
Qed.

Ltac keep_snapshot :=
  repeat first
    [ apply snapshot_kept_io; apply snapshot_kept_disk
    | apply part_kept_bind; [|intros ?]
    | by intros []
    | match goal with |- keeps _ (match ?x with _ => _ end) => destruct x end
    | match goal with |- keeps _ (if ?x then _ else _) => destruct x end ].

Lemma append_keeps_snapshot type payload durable : keeps_snapshot (Journal.append type payload durable).
Proof. unfold Journal.append. keep_snapshot. Qed.
Lemma reset_keeps_snapshot : keeps_snapshot Journal.reset.
Proof. unfold Journal.reset. keep_snapshot. Qed.
Lemma on_journal_keeps_snapshot {A} (m : Journal.MJ A) :
  keeps_snapshot m -> keeps (fun sd : t * Disk.t => Disk.snapshot sd.2) (on_journal m).
Proof.
  intros Hm [s d]. specialize (Hm (journal_ s, d)). unfold on_journal.
  by destruct (m (journal_ s, d)) as [[j d'] x].
Qed.

(** ** The input a record carries *)

Definition decoded {A} (m : M ByteReader.t A) (payload : list Z) : option A :=
  match snd (m (ByteReader.make payload)) with Val x => Some x | Err _ => None end.

Definition op_of (e : Entry.t) : option gov_op :=
  let payload := Entry.payload e in
  match Entry.type e with
  | RecordType.PolicyAccepted => SubmitPolicy <$> decoded decode payload
  | RecordType.CapacityAccepted => SubmitCapacity <$> decoded decode payload
  | RecordType.PathAccepted => SubmitPath <$> decoded decode payload
  | RecordType.FlowClassified => SubmitEvidence <$> decoded decode payload
  | RecordType.FlowTransition =>
      (fun '(flow, generation, at_) => CompleteFlow flow generation at_) <$> decoded read_completion payload
  | RecordType.TickCommitted => TickTo <$> decoded need_u64 payload
  | _ => None
  end.

Definition holds_input (type : RecordType.t) : bool :=
  match type with
  | RecordType.PolicyAccepted | RecordType.CapacityAccepted | RecordType.PathAccepted
  | RecordType.FlowClassified | RecordType.FlowTransition | RecordType.TickCommitted => true
  | _ => false
  end.

(** A sweep later than the recovery is not replayed. *)
Definition due (recovery_tick : Tick) (op : gov_op) : bool :=
  match op with TickTo now => now <=? recovery_tick | _ => true end.

Definition replayed_ops (recovery_tick : Tick) (es : list Entry.t) : list gov_op :=
  List.filter (due recovery_tick) (omap op_of es).

(** What the governor answers to a statement. *)
Definition statement_result (op : gov_op) (g : Governor.t) : Status :=
  match op with
  | SubmitPolicy p => snd (Governor.submit_policy p g)
  | SubmitCapacity c => snd (Governor.submit_capacity c g)
  | SubmitPath p => snd (Governor.submit_path p g)
  | CompleteFlow flow generation at_ => snd (Governor.complete_flow flow generation at_ g)
  | _ => Val tt
  end.

(** ** The visitor *)

Section visitor.
Context (recovery_tick : Tick).

Lemma note_governor disposition type sequence count s :
  governor_ (fst (note disposition type sequence count s)) = governor_ s /\
  snd (note disposition type sequence count s) = Val tt.
Proof. by destruct s. Qed.

Lemma on_governor_run {A} (m : M Governor.t A) s :
  catch (on_governor m) s = (s <| governor_ := fst (m (governor_ s)) |>, Val (snd (m (governor_ s)))).
Proof. unfold catch, on_governor, on. by destruct (m (governor_ s)). Qed.

(** How the visit of [e] ended: the governor was handed [op], if any, and an error is the
    governor's refusal of the statement in [e], or [e] should hold an input and does not. *)
Definition visits_op (op : option gov_op) (e : Entry.t) (s : t) (out : t * Status) : Prop :=
  governor_ out.1 = gov_run (option_list op) (governor_ s) /\
  match out.2 with
  | Val _ => True
  | Err c => match op_of e with
             | Some op => statement_result op (governor_ s) = Err c
             | None => holds_input (Entry.type e) = true
             end
  end.

Lemma statement_visits {A} `{Decode A} (submit : A -> M Governor.t unit) (mk : A -> gov_op)
    type payload sequence s :
  op_of (Entry.mk type payload sequence) = mk <$> decoded decode payload -> holds_input type = true ->
  (forall x g, gov_apply (mk x) g = fst (submit x g) /\ statement_result (mk x) g = snd (submit x g)) ->
  visits_op (mk <$> decoded decode payload) (Entry.mk type payload sequence) s
    (replay_statement submit type payload sequence s).
Proof.
  intros Ho Hi Hmk. unfold replay_statement, decoded in *.
  destruct (snd (decode _)) as [x|c]; [|by split; [|cbn; rewrite Ho]].
  rewrite (run_bind (lift _) _ s s x eq_refl), (run_bind _ _ _ _ _ (on_governor_run _ _)).
  destruct (Hmk x (governor_ s)) as [Ha Hr]. destruct (submit x (governor_ s)) as [g' r].
  cbn [fst snd] in *. destruct (refused_except _ _ r) eqn:E.
  - destruct r as [|c]; [done|]. split; [by rewrite <- Ha|]. cbn [snd]. by rewrite Ho.
  - split; [|done]. cbn. by rewrite Ha.
Qed.

Lemma visitor_visits e s :
  visits_op (op ← op_of e; if due recovery_tick op then Some op else None) e s
    (visit (visitor recovery_tick) e s).
Proof.
  destruct e as [type payload sequence]. unfold visit, visitor. cbn [Entry.type Entry.payload Entry.sequence].
  unfold mbind at 2, M_bind at 1, modify at 1. set (s1 := s <| report_ ::= _ |>).
  assert (Hs1 : governor_ s1 = governor_ s) by (by destruct s).
  assert (Hmove : forall op out, visits_op op (Entry.mk type payload sequence) s1 out ->
    visits_op op (Entry.mk type payload sequence) s out).
  { intros op out [H1 H2]. rewrite Hs1 in H1. split; [done|]. rewrite Hs1 in H2. done. }
  destruct type; apply Hmove; clear Hmove Hs1; clearbody s1; clear s; try (split; [by destruct s1|done]).
  - pose proof (statement_visits Governor.submit_policy SubmitPolicy RecordType.PolicyAccepted
      payload sequence s1 eq_refl eq_refl ltac:(done)) as H.
    unfold op_of at 1. cbn [Entry.type Entry.payload]. by destruct (decoded _ _).
  - pose proof (statement_visits Governor.submit_capacity SubmitCapacity RecordType.CapacityAccepted
      payload sequence s1 eq_refl eq_refl ltac:(done)) as H.
    unfold op_of at 1. cbn [Entry.type Entry.payload]. by destruct (decoded _ _).
  - pose proof (statement_visits Governor.submit_path SubmitPath RecordType.PathAccepted
      payload sequence s1 eq_refl eq_refl ltac:(done)) as H.
    unfold op_of at 1. cbn [Entry.type Entry.payload]. by destruct (decoded _ _).
  - unfold replay_evidence, op_of, decoded. cbn [Entry.type Entry.payload].
    destruct (snd (decode _)) as [x|c] eqn:Ed; [|split; [done|by cbn; unfold decoded; rewrite Ed]].
    rewrite (run_bind (lift _) _ s1 s1 x eq_refl), (run_bind _ _ _ _ _ (on_governor_run _ _)).
    by destruct (refused_except _ _ _).
  - unfold replay_completion, op_of, decoded. cbn [Entry.type Entry.payload].
    destruct (snd (read_completion _)) as [[[f n] a]|c] eqn:Ed; [|split; [done|by cbn; unfold decoded; rewrite Ed]].
    rewrite (run_bind (lift _) _ s1 s1 (f, n, a) eq_refl), (run_bind _ _ _ _ _ (on_governor_run _ _)).
    destruct (Governor.complete_flow f n a (governor_ s1)) as [g' r] eqn:Ec. cbn [fst snd].
    destruct (refused_except _ _ r) eqn:E.
    + destruct r as [|c]; [done|]. split; cbn; [by rewrite Ec|]. unfold decoded. rewrite Ed. cbn. by rewrite Ec.
    + split; [|done]. cbn. by rewrite Ec.
  - unfold replay_tick, op_of, decoded. cbn [Entry.type Entry.payload].
    destruct (snd (need_u64 _)) as [x|c] eqn:Ed; [|split; [done|by cbn; unfold decoded; rewrite Ed]].
    rewrite (run_bind (lift _) _ s1 s1 x eq_refl). cbn. destruct (x <=? recovery_tick); [|done].
    rewrite (run_bind _ _ s1 (s1 <| governor_ := fst (Governor.tick x (governor_ s1)) |>) tt); [done|].
    by rewrite (run_bind _ _ _ _ _ (on_governor_run _ _)).
Qed.

Lemma replayed_ops_cons e es :
  replayed_ops recovery_tick (e :: es) =
  option_list (op ← op_of e; if due recovery_tick op then Some op else None) ++ replayed_ops recovery_tick es.
Proof.
  unfold replayed_ops. simpl. destruct (op_of e) as [op|]; [|done]. simpl.
  by destruct (due recovery_tick op).
Qed.

Lemma replayed_ops_app es fs :
  replayed_ops recovery_tick (es ++ fs) = replayed_ops recovery_tick es ++ replayed_ops recovery_tick fs.
Proof.
  induction es as [|e es IH]; [done|]. simpl app. by rewrite !replayed_ops_cons, IH, app_assoc.
Qed.

Lemma gov_run_app ops ops' g : gov_run (ops ++ ops') g = gov_run ops' (gov_run ops g).
Proof. apply foldl_app. Qed.

(** Visiting a run of records hands the governor their inputs in order, until the first it
    refuses for good. *)
Lemma visits_run es : forall s s' r,
  for_each (visit (visitor recovery_tick)) es s = (s', r) ->
  match r with
  | Val _ => governor_ s' = gov_run (replayed_ops recovery_tick es) (governor_ s)
  | Err c => exists es1 e es2, es = es1 ++ e :: es2 /\
      governor_ s' = gov_run (replayed_ops recovery_tick (es1 ++ [e])) (governor_ s) /\
      match op_of e with
      | Some op => statement_result op (gov_run (replayed_ops recovery_tick es1) (governor_ s)) = Err c
      | None => holds_input (Entry.type e) = true
      end
  end.
Proof.
  induction es as [|e es IH]; intros s s' r E; cbn [for_each] in E.
  { unfold mret, M_ret in E. by injection E as <- <-. }
  pose proof (visitor_visits e s) as [Hg He]. unfold mbind, M_bind in E.
  destruct (visit (visitor recovery_tick) e s) as [s1 [[]|c]]; cbn [fst snd] in *.
  - apply IH in E. destruct r as [u|c].
    + by rewrite replayed_ops_cons, gov_run_app, <- Hg.
    + destruct E as (es1 & e' & es2 & -> & Hs & H). exists (e :: es1), e', es2. split; [done|].
      cbn [app]. rewrite !replayed_ops_cons, !gov_run_app, <- Hg. done.
  - injection E as <- <-. exists [], e, es. split; [done|]. split; [|done].
    cbn [app]. rewrite replayed_ops_cons, gov_run_app, <- Hg. reflexivity.
Qed.
End visitor.

(** ** The record of an input *)

Definition type_of (op : gov_op) : RecordType.t :=
  match op with
  | SubmitPolicy _ => RecordType.PolicyAccepted
  | SubmitCapacity _ => RecordType.CapacityAccepted
  | SubmitPath _ => RecordType.PathAccepted
  | SubmitEvidence _ => RecordType.FlowClassified
  | TickTo _ => RecordType.TickCommitted
  | _ => RecordType.Count
  end.

Definition payload_of (op : gov_op) : StatusOr (list Z) :=
  match op with
  | SubmitPolicy p => encoded p
  | SubmitCapacity c => encoded c
  | SubmitPath p => encoded p
  | SubmitEvidence s => encoded s
  | TickTo now => Val (le_bytes 8 now)
  | _ => Err StatusCode.Unsupported
  end.

(** An input the store can record, with members in range. *)
Definition op_wire (op : gov_op) : Prop :=
  match op with
  | SubmitPolicy p => wire_ok p
  | SubmitCapacity c => wire_ok c
  | SubmitPath p => wire_ok p
  | SubmitEvidence s => wire_ok s
  | TickTo now => u64_ok now
  | _ => False
  end.

Lemma decoded_encoded {A} `{RoundTrips A} (x : A) payload :
  wire_ok x -> encoded x = Val payload -> decoded decode payload = Some x.
Proof.
  intros Hx E. unfold encoded in E. destruct (ByteWriter.overflowed_ _) eqn:Ho; [done|].
  cbn in E. injection E as <-.
  destruct (round_trips_lossless A _ x (ByteWriter.make kMaxJournalRecordBytes) Hx) as (bs & Eb & Hr);
    [by vm_compute|done|]. rewrite Eb. unfold decoded. cbn [ByteWriter.buffer_ ByteWriter.make app].
  destruct (Hr (ByteReader.make bs) []) as (r' & -> & _); [|done]. by rewrite app_nil_r.
Qed.

Lemma decoded_tick now : u64_ok now -> decoded need_u64 (le_bytes 8 now) = Some now.
Proof.
  intros Hnow. unfold decoded.
  destruct (parses_all _ _ _ (parses_need_value 8 now Hnow) (ByteReader.make (le_bytes 8 now)) [])
    as (r' & E & _); [by rewrite app_nil_r|].
  change need_u64 with (need (ByteReader.read_le 8)). by rewrite E.
Qed.

#[local] Opaque decoded encoded.

(** What a record of an input carries is that input. *)
Lemma op_of_record op payload sequence :
  op_wire op -> payload_of op = Val payload ->
  op_of (Entry.mk (type_of op) payload sequence) = Some op.
Proof.
  intros Hop Hp. destruct op as [p|c|p|s| |now| | ]; try (destruct Hop; fail);
    cbn [type_of payload_of op_wire] in Hop, Hp |- *; unfold op_of; cbn [Entry.type Entry.payload].
  - rewrite (decoded_encoded p payload Hop Hp). reflexivity.
  - rewrite (decoded_encoded c payload Hop Hp). reflexivity.
  - rewrite (decoded_encoded p payload Hop Hp). reflexivity.
  - rewrite (decoded_encoded s payload Hop Hp). reflexivity.
  - injection Hp as <-. rewrite (decoded_tick now Hop). reflexivity.
Qed.

(** ** Recording *)

Definition store_apply (op : gov_op) : MD unit :=
  match op with
  | SubmitPolicy p => record_policy p
  | SubmitCapacity c => record_capacity c
  | SubmitPath p => record_path p
  | SubmitEvidence s => record_evidence s ;; mret tt
  | TickTo now => record_tick now ;; mret tt
  | _ => mret tt
  end.

(** A store that records to an intact journal and does not compact. *)
Record backed (s : t) (d : Disk.t) (es : list Entry.t) : Prop := {
  backed_ready : ready (journal_ s) d es;
  backed_snapshot : Disk.snapshot d = None;
  backed_compaction : snapshot_every_records (options_ s) = 0 }.

(** What one operation did to the journal. *)
Variant recording (op : gov_op) (s : t) (d : Disk.t) (es : list Entry.t) (s' : t) (d' : Disk.t) : Prop :=
| recorded payload :
    payload_of op = Val payload ->
    Journal.sequence_ (journal_ s') = Journal.sequence_ (journal_ s) + 1 ->
    backed s' d' (es ++ [Entry.mk (type_of op) payload (Journal.sequence_ (journal_ s) + 1)]) ->
    recording op s d es s' d'
| untouched :
    journal_ s' = journal_ s -> backed s' d' es -> recording op s d es s' d'
| interrupted payload k :
    payload_of op = Val payload -> (0 < k)%nat ->
    let e := Entry.mk (type_of op) payload (Journal.sequence_ (journal_ s) + 1) in
    Entry.ok e -> Disk.journal d' = Some (torn_after es e k) -> Disk.snapshot d' = None ->
    recording op s d es s' d'.

Lemma fwrite_snapshot bs d : Disk.snapshot (fst (Disk.fwrite Disk.journal bs d)) = Disk.snapshot d.
Proof. destruct d as [j sn tmp faults]. by destruct faults as [|[k|] faults]. Qed.

Lemma flush_snapshot d : Disk.snapshot (fst (Disk.flush_to_stable Disk.journal d)) = Disk.snapshot d.
Proof. destruct d as [j sn tmp faults]. by destruct faults as [|[k|] faults]. Qed.

(** [m] leaves the snapshot alone. *)
Definition spares_snapshot {A} (m : Journal.MJ A) : Prop :=
  forall j d, Disk.snapshot (m (j, d)).1.2 = Disk.snapshot d.

Lemma spares_bind {A B} (m : Journal.MJ A) (k : A -> Journal.MJ B) :
  spares_snapshot m -> (forall x, spares_snapshot (k x)) -> spares_snapshot (m ≫= k).
Proof.
  intros Hm Hk j d. specialize (Hm j d). unfold mbind, M_bind.
  destruct (m (j, d)) as [[j1 d1] [x|c]]; cbn [fst snd] in *; [|done]. by rewrite Hk.
Qed.

Lemma spares_io {A} (m : M Disk.t A) :
  (forall d, Disk.snapshot (fst (m d)) = Disk.snapshot d) -> spares_snapshot (Journal.io m).
Proof. intros H j d. unfold Journal.io. specialize (H d). by destruct (m d). Qed.

Lemma spares_append type payload durable : spares_snapshot (Journal.append type payload durable).
Proof.
  unfold Journal.append. apply spares_bind; [done|]. intros j0.
  do 5 (apply spares_bind; [done|intros _]).
  apply spares_bind; [apply spares_io, fwrite_snapshot|intros _].
  apply spares_bind; [destruct (bool_decide _); [done|apply spares_io, fwrite_snapshot]|intros _].
  apply spares_bind; [apply spares_io, fwrite_snapshot|intros _].
  apply spares_bind; [done|intros _].
  destruct (_ && _); [apply spares_io, flush_snapshot|done].
Qed.

(** The append of an operation's record. *)
Lemma append_recording op s d es payload j' d' r :
  backed s d es -> payload_of op = Val payload ->
  Journal.append (type_of op) payload true (journal_ s, d) = ((j', d'), r) ->
  forall s', journal_ s' = j' -> options_ s' = options_ s ->
  recording op s d es s' d' /\ (r = Val tt -> Journal.sequence_ j' = Journal.sequence_ (journal_ s) + 1).
Proof.
  intros [Hr Hn Hc] Hp E s' Hj Ho. pose proof (spares_append (type_of op) payload true (journal_ s) d) as Hs.
  rewrite E in Hs. cbn [fst snd] in Hs. rewrite Hn in Hs.
  destruct (append_outcome _ _ _ _ _ _ _ _ Hr E) as [(-> & Hq & Hr')|(c & k & -> & Hk & Hf & Hsame)].
  - split; [|done]. eapply recorded; [done|by rewrite Hj|]. split; [by rewrite Hj|done|by rewrite Ho].
  - split; [|done]. destruct (decide (k = 0%nat)) as [->|Hk0].
    + destruct Hsame as [->|Hk0]; [|by rewrite length_to_bytes in Hk0].
      apply untouched; [done|]. split; [|done|by rewrite Ho]. rewrite Hj. destruct Hr as [H1 H2 H3 H4 H5 H6].
      split; [done..|]. rewrite Hf. unfold torn_after. cbn [take]. by rewrite app_nil_r.
    + destruct Hk as [|Hok]; [done|]. apply (interrupted _ _ _ _ _ _ payload k); [done|lia|exact Hok|done|done].
Qed.

Lemma backed_frame s s' d es :
  journal_ s' = journal_ s -> options_ s' = options_ s -> backed s d es -> backed s' d es.
Proof. intros Hj Ho [Hr Hn Hc]. split; [by rewrite Hj|done|by rewrite Ho]. Qed.

(** The state a run is known to have ended in. *)
Ltac split_state E :=
  apply pair_equal_spec in E as [E _]; apply pair_equal_spec in E as [<- <-].

Lemma statement_recording {A} `{Encode A} (submit : A -> M Governor.t unit) (x : A) op s d es s' d' r :
  payload_of op = encoded x -> backed s d es ->
  record_statement submit (type_of op) x (s, d) = ((s', d'), r) -> recording op s d es s' d'.
Proof.
  intros Hp Hb. unfold record_statement. rewrite <- Hp.
  destruct (payload_of op) as [payload|c] eqn:Ep; [|intros [= <- <- <-]; by apply untouched].
  rewrite (run_bind (lift _) _ (s, d) (s, d) payload eq_refl).
  unfold mbind at 1, M_bind at 1, on_self, on_governor, on.
  destruct (submit x (governor_ s)) as [g' [u|c]];
    [|intros [= <- <- <-]; apply untouched; [done|by apply (backed_frame s)]].
  unfold mbind at 1, M_bind at 1, on_journal. cbn [journal_ update eta eta_t].
  destruct (Journal.append _ _ _ _) as [[j1 d1] ra] eqn:Ea.
  intros E. assert (journal_ s' = j1 /\ options_ s' = options_ s /\ d' = d1) as (Hj & Ho & ->)
    by (destruct ra; split_state E; split_and!; reflexivity).
  by apply (append_recording _ _ _ _ _ _ _ _ Hb Ep Ea).
Qed.

Lemma evidence_recording x s d es s' d' r :
  backed s d es -> store_apply (SubmitEvidence x) (s, d) = ((s', d'), r) ->
  recording (SubmitEvidence x) s d es s' d'.
Proof.
  intros Hb. cbn [store_apply]. unfold record_evidence.
  destruct (encoded x) as [payload|c] eqn:Ep; [|intros [= <- <- <-]; by apply untouched].
  unfold mbind, M_bind, lift, on_journal.
  destruct (Journal.append _ _ _ _) as [[j1 d1] ra] eqn:Ea.
  intros E. assert (journal_ s' = j1 /\ options_ s' = options_ s /\ d' = d1) as (Hj & Ho & ->).
  { destruct ra as [u|c]; [|split_state E; split_and!; reflexivity].
    unfold count_record, assign, catch, on_self, on_governor, on, self in E. cbn [fst snd] in E.
    destruct (Governor.submit_evidence x _) as [g' dec] eqn:Eg. cbn [fst snd] in E.
    destruct Hb as [_ _ Hc].
    match type of E with context [snapshot_every_records (options_ ?y)] =>
      change (options_ y) with (options_ s) in E end.
    rewrite Hc in E. change (negb (0 =? 0)) with false in E. cbn [andb] in E.
    destruct dec; split_state E; split_and!; reflexivity. }
  by apply (append_recording (SubmitEvidence x) _ _ _ _ _ _ _ Hb Ep Ea).
Qed.

Lemma tick_payload now : ByteWriter.buffer_ (put_u64 now (ByteWriter.make 16)) = le_bytes 8 now.
Proof.
  destruct (writes_push (le_bytes 8 now) (ByteWriter.make 16)) as (_ & _ & Ho & Hb); [by vm_compute|].
  apply Hb, Ho. split; [done|]. unfold size_of, ByteWriter.size, size_of. rewrite length_le_bytes. by vm_compute.
Qed.

Lemma tick_recording now s d es s' d' r :
  backed s d es -> store_apply (TickTo now) (s, d) = ((s', d'), r) ->
  recording (TickTo now) s d es s' d'.
Proof.
  intros Hb. cbn [store_apply]. unfold record_tick. rewrite tick_payload.
  unfold mbind, M_bind, lift, on_journal.
  destruct (Journal.append _ _ _ _) as [[j1 d1] ra] eqn:Ea.
  intros E. assert (journal_ s' = j1 /\ options_ s' = options_ s /\ d' = d1) as (Hj & Ho & ->).
  { destruct ra as [u|c]; [|split_state E; split_and!; reflexivity].
    unfold count_record, assign, on_self, on_governor, on in E. cbn [fst snd] in E.
    destruct (Governor.tick now _) as [g' [b|c]]; split_state E; split_and!; reflexivity. }
  by apply (append_recording (TickTo now) _ _ _ _ _ _ _ Hb eq_refl Ea).
Qed.

Lemma store_recording op s d es s' d' r :
  op_wire op -> backed s d es -> store_apply op (s, d) = ((s', d'), r) -> recording op s d es s' d'.
Proof.
  intros Hw Hb E. destruct op as [p|c|p|x| |now| | ]; try (destruct Hw; fail).
  - apply (statement_recording Governor.submit_policy p (SubmitPolicy p) s d es s' d' r);
      [reflexivity|exact Hb|exact E].
  - apply (statement_recording Governor.submit_capacity c (SubmitCapacity c) s d es s' d' r);
      [reflexivity|exact Hb|exact E].
  - apply (statement_recording Governor.submit_path p (SubmitPath p) s d es s' d' r);
      [reflexivity|exact Hb|exact E].
  - exact (evidence_recording x s d es s' d' r Hb E).
  - exact (tick_recording now s d es s' d' r Hb E).
Qed.

(** ** A run of the store *)

(** The operation's record is complete and everything is on stable storage. *)
Definition durably (s s' : t) (d' : Disk.t) : bool :=
  (Journal.sequence_ (journal_ s') =? Journal.sequence_ (journal_ s) + 1) &&
  match Disk.journal d' with
  | Some f => (File.synced f =? length (File.bytes f))%nat
  | None => false
  end.

(** The operation wrote nothing. *)
Definition left_alone (d d' : Disk.t) : bool :=
  bool_decide (Disk.content Disk.journal d' = Disk.content Disk.journal d).

(** Apply operations until one is interrupted while it writes. The log holds those recorded
    durably; an operation the governor or a guard refused before anything was written is passed
    over. *)
Fixpoint store_run (ops : list gov_op) (sd : t * Disk.t) : (t * Disk.t) * list gov_op * option gov_op :=
  match ops with
  | [] => (sd, [], None)
  | op :: ops =>
      let '(s, d) := sd in
      let '((s', d'), _) := store_apply op (s, d) in
      if durably s s' d' then
        let '(sd, log, last) := store_run ops (s', d') in (sd, op :: log, last)
      else if left_alone d d' then store_run ops (s', d')
      else ((s', d'), [], Some op)
  end.

Lemma backed_file s d es : backed s d es ->
  Disk.journal d = Some (File.mk (journal_header ++ run_bytes es) (length (journal_header ++ run_bytes es))).
Proof. intros [H _ _]. apply H. Qed.

Lemma torn_longer es e k : (0 < k)%nat ->
  (length (journal_header ++ run_bytes es) < length (File.bytes (torn_after es e k)))%nat.
Proof.
  intros Hk. unfold torn_after. cbn [File.bytes]. rewrite !length_app, length_take, length_to_bytes. lia.
Qed.

Lemma store_run_outcome ops : forall s d es s' d' log last,
  backed s d es -> Forall op_wire ops -> store_run ops (s, d) = ((s', d'), log, last) ->
  exists new e k,
  Forall2 (fun e op => op_of e = Some op) new log /\ Forall Entry.ok (es ++ new) /\
  Disk.journal d' = Some (torn_after (es ++ new) e k) /\ Disk.snapshot d' = None /\
  (k = 0%nat \/ (Entry.ok e /\ exists op, last = Some op /\ op_of e = Some op)).
Proof.
  induction ops as [|op ops IH]; intros s d es s' d' log last Hb Hw E; cbn [store_run] in E.
  { injection E as -> -> <- <-. exists [], (Entry.mk RecordType.Begin [] 1), 0%nat. rewrite app_nil_r.
    split; [constructor|]. split; [apply Hb|]. split; [|split; [apply Hb|by left]].
    rewrite (backed_file _ _ _ Hb). unfold torn_after. cbn [take]. by rewrite app_nil_r. }
  inversion_clear Hw as [|?? Hop Hw'].
  destruct (store_apply op (s, d)) as [[s1 d1] r] eqn:Ea.
  destruct (store_recording _ _ _ _ _ _ _ Hop Hb Ea) as [payload Hp Hq Hb1|Hj Hb1|payload k Hp Hk e He Hf Hn].
  - assert (durably s s1 d1 = true) as Hd.
    { unfold durably. rewrite Hq, Z.eqb_refl, (backed_file _ _ _ Hb1). cbn [File.synced File.bytes andb].
      apply Nat.eqb_refl. }
    rewrite Hd in E. destruct (store_run ops (s1, d1)) as [[[s2 d2] log'] last'] eqn:Er.
    injection E as -> -> <- ->.
    destruct (IH _ _ _ _ _ _ _ Hb1 Hw' Er) as (new & e & k & Hnew & Hok & Hf & Hn & Hk).
    rewrite <- app_assoc in *. eexists (_ :: new), e, k. split; [|done].
    constructor; [by apply op_of_record|done].
  - assert (durably s s1 d1 = false) as Hd.
    { unfold durably. rewrite Hj. by rewrite (proj2 (Z.eqb_neq _ _)) by lia. }
    assert (left_alone d d1 = true) as Hl.
    { apply bool_decide_eq_true. unfold Disk.content.
      by rewrite (backed_file _ _ _ Hb), (backed_file _ _ _ Hb1). }
    rewrite Hd, Hl in E. by apply (IH _ _ _ _ _ _ _ Hb1 Hw' E).
  - pose proof (torn_longer es e k Hk) as Hlong.
    assert (durably s s1 d1 = false) as Hd.
    { unfold durably. rewrite Hf. apply andb_false_intro2, Nat.eqb_neq. cbn [torn_after File.synced] in *. lia. }
    assert (left_alone d d1 = false) as Hl.
    { apply bool_decide_eq_false. unfold Disk.content. rewrite (backed_file _ _ _ Hb), Hf. intros Heq.
      cbn [File.bytes] in Heq. rewrite Heq in Hlong. lia. }
    rewrite Hd, Hl in E. injection E as <- <- <- <-. exists [], e, k. rewrite app_nil_r.
    split; [constructor|]. split; [apply Hb|]. split; [done|]. split; [done|]. right.
    split; [done|]. exists op. split; [done|]. by apply op_of_record.
Qed.

(** ** Recovery *)

(** The governor recovery starts from. *)
Definition newborn (config : GovernorConfig.t) (boot : BootIdentity.t) : Governor.t :=
  Governor.set_incarnation boot (Governor.make config).

(** Some record of [es] holds no readable input, or a statement the governor refuses for good
    when everything before it has been replayed; [g'] is [g] after the inputs up to that one. *)
Definition refused_at (recovery_tick : Tick) (es : list Entry.t) (g g' : Governor.t) (c : StatusCode.t) : Prop :=
  exists es1 e es2, es = es1 ++ e :: es2 /\ g' = gov_run (replayed_ops recovery_tick (es1 ++ [e])) g /\
  match op_of e with
  | Some op => statement_result op (gov_run (replayed_ops recovery_tick es1) g) = Err c
  | None => holds_input (Entry.type e) = true
  end.

(** What [open] comes back with when the journal holds exactly [es]. *)
Definition recovers (options : Options) (config : GovernorConfig.t) (boot : BootIdentity.t)
    (recovery_tick : Tick) (es : list Entry.t) (opened : StatusOr t) : Prop :=
  let g := newborn config boot in
  match opened with
  | Val s => governor_ s = gov_run (replayed_ops recovery_tick es) g \/
             refused_at recovery_tick es g (governor_ s) StatusCode.IntegrityFailure
  | Err c => (exists g', refused_at recovery_tick es g g' c) \/ c = StatusCode.Oversized \/ c = StatusCode.Overflow
  end.

Record options_ok (options : Options) (boot : BootIdentity.t) : Prop := {
  oo_directory : directory_empty options = false;
  oo_boot : BootIdentity.valid boot = true;
  oo_record : 0 < Journal.max_record_bytes (journal options) <= kMaxJournalRecordBytes }.

Lemma report_authority_governor s :
  governor_ (fst (report_authority s)) = governor_ s /\ snd (report_authority s) = Val tt /\
  journal_ (fst (report_authority s)) = journal_ s.
Proof.
  unfold report_authority, note_if, mbind, M_bind, get.
  destruct (_ >? 0); (destruct (_ >? 0); [by destruct s|by destruct s]).
Qed.

Lemma replay_report_frame stats corrupt s :
  governor_ (replay_report stats corrupt s) = governor_ s /\
  journal_ (replay_report stats corrupt s) = journal_ s.
Proof.
  unfold replay_report. destruct (JournalReplayStats.truncated_tail stats), corrupt; by destruct s.
Qed.

(** The marker is refused only for lack of room. *)
Lemma begin_refused j d f :
  Journal.open_ j = true -> 0 < Journal.max_record_bytes (Journal.options_ j) ->
  Disk.faults d = [] -> Disk.journal d = Some f ->
  match snd (Journal.append RecordType.Begin [] true (j, d)) with
  | Val _ => True
  | Err c => c = StatusCode.Oversized \/ c = StatusCode.Overflow
  end.
Proof.
  intros Ho Hm Hd Hf. destruct (append_works RecordType.Begin [] j d f Hd Hf) as (j' & d' & r & -> & _ & H).
  destruct H as [(c & -> & _ & Hc)|(-> & _)]; [|done]. apply Hc; [done|done|]. unfold size_of. simpl. lia.
Qed.

(** [m] does not touch the store's own journal. *)
Notation spares_journal := (keeps journal_).

Lemma spares_journal_governor {A} (m : M Governor.t A) : spares_journal (catch (on_governor m)).
Proof. intros s. by rewrite on_governor_run. Qed.

Lemma spares_journal_note disposition type sequence count : spares_journal (note disposition type sequence count).
Proof. by intros []. Qed.

Ltac spare_journal :=
  repeat first
    [ done
    | apply part_kept_bind; [|intros ?]
    | apply spares_journal_governor
    | apply spares_journal_note
    | match goal with |- spares_journal (match ?x with _ => _ end) => destruct x end
    | by intros [] ].

Lemma visitor_spares recovery_tick type payload sequence :
  spares_journal (visitor recovery_tick type payload sequence).
Proof.
  unfold visitor, replay_statement, replay_evidence, replay_completion, replay_tick.
  destruct type; spare_journal.
Qed.

Lemma visits_spare recovery_tick es : spares_journal (for_each (visit (visitor recovery_tick)) es).
Proof.
  induction es as [|e es IH]; cbn [for_each]; [done|].
  apply part_kept_bind; [apply visitor_spares|intros _; exact IH].
Qed.

Lemma replay_into_intact recovery_tick s d f es e k :
  Disk.faults d = [] -> Disk.journal d = Some f -> Forall Entry.ok es ->
  (k = 0%nat \/ Entry.ok e) -> (k < length (Entry.to_bytes e))%nat ->
  File.bytes f = journal_header ++ run_bytes es ++ take k (Entry.to_bytes e) ->
  exists s' r, replay_into_governor recovery_tick (s, d) = ((s', d), r) /\
  match r with
  | Val _ => journal_ s' = journal_ s /\
      (governor_ s' = gov_run (replayed_ops recovery_tick es) (governor_ s) \/
       refused_at recovery_tick es (governor_ s) (governor_ s') StatusCode.IntegrityFailure)
  | Err c => refused_at recovery_tick es (governor_ s) (governor_ s') c
  end.
Proof.
  intros Hd Hf Hes He Hk Hb. unfold replay_into_governor.
  assert (Hcall : Disk.call d = (d, None)) by (unfold Disk.call; by rewrite Hd).
  rewrite Hcall. cbn [Disk.failed orb]. rewrite bool_decide_eq_true_2 by (by rewrite Hf). cbn [negb].
  destruct (for_each (visit (visitor recovery_tick)) es s) as [s1 r] eqn:Ev.
  pose proof (visits_run recovery_tick es s s1 r Ev) as Hv. destruct r as [[]|c].
  - assert (He' : exists e', Entry.ok e' /\ (k < length (Entry.to_bytes e'))%nat /\
      File.bytes f = journal_header ++ run_bytes es ++ take k (Entry.to_bytes e')).
    { destruct He as [->|He]; [|eauto]. exists (Entry.mk RecordType.Begin [] 1).
      rewrite length_to_bytes. split; [exact begin_ok|]. split; [simpl; lia|done]. }
    destruct He' as (e' & He' & Hk' & Hb').
    rewrite (replay_file _ d f es e' k s s1 Hd Hf Hes He' Hk' Hb' Ev).
    eexists _, _. split; [reflexivity|]. cbv beta iota.
    destruct (replay_report_frame (accepted es (bool_decide (0 < k)%nat)) false s1) as [Hg Hj].
    rewrite Hg, Hj. split; [|by left].
    pose proof (visits_spare recovery_tick es s) as Hs. by rewrite Ev in Hs.
  - destruct (replay_refused _ d f es _ s s1 c Hd Hf Hes Hb Ev) as [stats ->].
    destruct (decide (c = StatusCode.IntegrityFailure)) as [->|Hc].
    + eexists _, _. split; [reflexivity|]. cbv beta iota.
      destruct (replay_report_frame stats true s1) as [Hg Hj]. rewrite Hg, Hj.
      pose proof (visits_spare recovery_tick es s) as Hs. rewrite Ev in Hs. split; [done|by right].
    + exists s1, (Err c). split; [|done]. by destruct c.
Qed.

(** Recovery of a store that has a journal and no snapshot. *)
Lemma open_intact options config boot recovery_tick d f es e k :
  options_ok options boot -> Disk.faults d = [] -> Disk.snapshot d = None -> Disk.journal d = Some f ->
  Forall Entry.ok es -> (k = 0%nat \/ Entry.ok e) -> (k < length (Entry.to_bytes e))%nat ->
  File.bytes f = journal_header ++ run_bytes es ++ take k (Entry.to_bytes e) ->
  recovers options config boot recovery_tick es (snd (open options config boot recovery_tick d)).
Proof.
  intros [Hdir Hboot Hrec] Hd Hn Hf Hes He Hk Hb. unfold open. rewrite !run_guard, Hdir, Hboot. cbn [negb].
  assert (Htry : forall c, Disk.try_call c d = (d, Val tt))
    by (intros; unfold Disk.try_call, Disk.call; by rewrite Hd).
  rewrite (run_bind _ _ _ _ _ (Htry _)). unfold construct.
  set (s0 := fresh options config boot recovery_tick).
  assert (Hsnap : recover_snapshot recovery_tick (s0, d) = ((s0, d), Val tt)).
  { unfold recover_snapshot, mbind, M_bind, self, catch, io. rewrite Htry. unfold get, mret, M_ret.
    by rewrite Hn. }
  unfold recover. rewrite (run_bind _ _ _ _ _ Hsnap), (run_bind self _ (s0, d) (s0, d) s0 eq_refl).
  rewrite (run_bind (io _) _ (s0, d) (s0, d) (Journal.mk true (journal options)
    (from_option Entry.sequence 0 (last es)) (size_of (File.bytes f)))).
  2:{ unfold io. change (options_ s0) with options. rewrite (open_run _ es e k d f) by done.
      replace (_ =? 0) with false by (symmetry; apply Z.eqb_neq; lia).
      rewrite Z.gtb_ltb. by rewrite (proj2 (Z.ltb_ge _ _)) by lia. }
  set (j := Journal.mk _ _ _ _). set (s1 := s0 <| journal_ := j |>).
  rewrite (run_bind (assign _) _ (s0, d) (s1, d) tt eq_refl).
  destruct (replay_into_intact recovery_tick s1 d f es e k Hd Hf Hes He Hk Hb) as (s2 & r & Er & Hr).
  destruct r as [[]|c].
  2:{ unfold mbind at 1, M_bind at 1. rewrite Er.
      destruct (Journal.destroy _) as [[] ?]. left. by eexists. }
  destruct Hr as [Hj Hg]. rewrite (run_bind _ _ _ _ _ Er).
  destruct (report_authority_governor s2) as (Hga & Hra & Hja).
  rewrite (run_bind (on_self _) _ (s2, d) (fst (report_authority s2), d) tt).
  2:{ unfold on_self. destruct (report_authority s2). cbn [snd fst] in *. by rewrite Hra. }
  set (s3 := fst (report_authority s2)) in *.
  pose proof (begin_refused (journal_ s3) d f) as Hbegin. rewrite Hja, Hj in Hbegin.
  specialize (Hbegin eq_refl (proj1 Hrec) Hd Hf).
  unfold mbind, M_bind, on_journal. rewrite Hja, Hj.
  destruct (Journal.append RecordType.Begin [] true (journal_ s1, d)) as [[j4 d4] [u|c]]; cbn [snd] in *;
    [|destruct (Journal.destroy _) as [[] ?]; by right].
  unfold assign, recovers. cbn [fst snd governor_ update eta eta_t]. rewrite Hga. exact Hg.
Qed.

(** ** Recording evidence, compaction included *)

Lemma record_evidence_cases x s d :
  governor_ (record_evidence x (s, d)).1.1 = governor_ s \/
  exists payload j1 d1 s1,
    encoded x = Val payload /\
    Journal.append RecordType.FlowClassified payload true (journal_ s, d) = ((j1, d1), Val tt) /\
    journal_ s1 = j1 /\ governor_ s1 = fst (Governor.submit_evidence x (governor_ s)) /\
    options_ s1 = options_ s /\
    (record_evidence x (s, d)).1 =
      if negb (snapshot_every_records (options_ s1) =? 0) &&
         (records_since_snapshot_ s1 >=? snapshot_every_records (options_ s1))
      then (compact_snapshot (s1, d1)).1 else (s1, d1).
Proof.
  unfold record_evidence. destruct (encoded x) as [payload|c]; [|by left].
  rewrite (run_bind _ _ _ (s, d) payload) by done.
  destruct (Journal.append RecordType.FlowClassified payload true (journal_ s, d)) as [[j1 d1] [[]|c]] eqn:Ea.
  2:{ left. unfold mbind at 1, M_bind at 1, on_journal at 1. rewrite Ea. done. }
  rewrite (run_bind (on_journal _) _ _ (s <| journal_ := j1 |>, d1) tt) by (unfold on_journal; by rewrite Ea).
  rewrite (run_bind count_record _ _ (s <| journal_ := j1 |> <| records_since_snapshot_ ::= inc64 |>, d1) tt) by done.
  destruct (Governor.submit_evidence x (governor_ s)) as [g decision] eqn:Eg.
  set (s1 := s <| journal_ := j1 |> <| records_since_snapshot_ ::= inc64 |> <| governor_ := g |>).
  rewrite (run_bind _ _ _ (s1, d1) decision)
    by (unfold catch, on_self, on_governor, on; cbn [governor_ update eta eta_t]; by rewrite Eg).
  right. exists payload, j1, d1, s1. split_and!; [done..|].
  rewrite (run_bind self _ (s1, d1) (s1, d1) s1 eq_refl). destruct (_ && _); [|by destruct decision].
  unfold mbind, M_bind, catch. by destruct (compact_snapshot (s1, d1)) as [[s2 d2] r2], decision.
Qed.

Lemma record_evidence_governor x s d :
  governor_ (record_evidence x (s, d)).1.1 = governor_ s \/
  governor_ (record_evidence x (s, d)).1.1 = fst (Governor.submit_evidence x (governor_ s)).
Proof.
  destruct (record_evidence_cases x s d) as [Hk|(payload & j1 & d1 & s1 & _ & _ & _ & Hg & _ & ->)]; [by left|right].
  pose proof (governor_kept_compaction (s1, d1)) as Hc. destruct (_ && _); [|done]. by injection Hc as -> _.
Qed.

(** The snapshot is complete, on stable storage, and the image of the governor. *)
Definition imaged (s : t) (d : Disk.t) : Prop :=
  exists image, encode_snapshot s = Val image /\
  Disk.snapshot d = Some (File.mk (snapshot_image image) (length (snapshot_image image))).

Lemma compaction_outcome s d es s' d' r :
  ready (journal_ s) d es -> compact_snapshot (s, d) = ((s', d'), r) ->
  governor_ s' = governor_ s /\ options_ s' = options_ s /\
  (ready (journal_ s') d' es \/ imaged s' d').
Proof.
  intros Hr E. pose proof (governor_kept_compaction (s, d)) as Hk. rewrite E in Hk. cbn [fst] in Hk.
  injection Hk as Hg Ho. split; [done|]. split; [done|]. revert E. unfold compact_snapshot.
  rewrite (run_bind self _ (s, d) (s, d) s eq_refl).
  destruct (encode_snapshot s) as [image|c] eqn:Ei; [|intros [= <- <- <-]; by left].
  rewrite (run_bind _ _ _ (s, d) image) by done.
  destruct (SnapshotFile.write_atomic false (snapshot_max_bytes (options_ s)) image d) as [d1 r1] eqn:Ew.
  pose proof (write_atomic_outcome _ _ _ _ _ Ew) as [Hj Hw]. destruct r1 as [[]|c].
  2:{ unfold mbind at 1, M_bind at 1, io at 1. rewrite Ew. intros [= <- <- <-]. left.
      destruct Hr. split; [done..|]. by rewrite Hj. }
  rewrite (run_bind (io _) _ _ (s, d1) tt) by (unfold io; by rewrite Ew).
  destruct Hw as [_ Hw]. intros E. right. exists image. split; [unfold encode_snapshot in *; by rewrite Hg, Ho|].
  match type of E with ?m _ = _ => assert (Hm : keeps (fun sd : t * Disk.t => Disk.snapshot sd.2) m) end.
  { apply part_kept_bind; [apply on_journal_keeps_snapshot, append_keeps_snapshot|intros _].
    apply part_kept_bind; [apply on_journal_keeps_snapshot, reset_keeps_snapshot|done]. }
  specialize (Hm (s, d1)). rewrite E in Hm. cbn [fst snd] in Hm. by rewrite Hm.
Qed.

(** ** Properties *)


(** C31: Evidence is durable before it counts, in a store whose journal is intact and forces
    every record out ([fsync_on_commit]), with or without compaction. Whatever call fails, a sample
    that is recorded has either left the governor exactly as it was, or the governor is what the
    sample makes of it and, before it was, the sample's record had been appended and was on stable
    storage behind everything recorded before. The record is still there, all of it, when the
    operation returns, unless a compaction has put a snapshot in its place that is complete and on
    stable storage and is the image of the very governor that counted the sample. *)
Theorem evidence_durable_before_decision x s d es s' d' r :
  ready (journal_ s) d es -> record_evidence x (s, d) = ((s', d'), r) ->
  governor_ s' = governor_ s \/
  exists payload j1 d1,
    encoded x = Val payload /\
    Journal.append RecordType.FlowClassified payload true (journal_ s, d) = ((j1, d1), Val tt) /\
    governor_ s' = fst (Governor.submit_evidence x (governor_ s)) /\
    let log := es ++ [Entry.mk RecordType.FlowClassified payload (Journal.sequence_ (journal_ s) + 1)] in
    ready j1 d1 log /\
    (ready (journal_ s') d' log \/ snapshot_every_records (options_ s) <> 0 /\ imaged s' d').
Proof.
  intros Hr E. destruct (record_evidence_cases x s d) as [Hk|(payload & j1 & d1 & s1 & Hp & Ha & Hj & Hg & Ho & Es)];
    rewrite E in *; cbn [fst snd] in *; [by left|right].
  exists payload, j1, d1. destruct (append_outcome _ _ _ _ _ _ _ _ Hr Ha) as [(_ & _ & Hr1)|(c & k & Hc & _)];
    [|discriminate Hc].
  split; [done|]. split; [done|]. destruct (_ && _) eqn:Hc.
  2:{ injection Es as -> ->. rewrite Hj. split; [exact Hg|]. split; [exact Hr1|left; exact Hr1]. }
  apply andb_prop in Hc as [Hc _]. rewrite Ho in Hc. apply negb_true_iff, Z.eqb_neq in Hc.
  destruct (compact_snapshot (s1, d1)) as [[s2 d2] r2] eqn:Ec. injection Es as -> ->.
  rewrite <- Hj in Hr1. destruct (compaction_outcome _ _ _ _ _ _ Hr1 Ec) as (Hg2 & _ & Hout).
  rewrite Hg2, Hg. rewrite Hj in Hr1. split; [reflexivity|]. split; [exact Hr1|].
  destruct Hout as [Hout|Hout]; [left; exact Hout|right; split; [exact Hc|exact Hout]].
Qed.

(** *** A store in operation *)

Definition store_options : Options := mkOptions false Journal.default_options kMaxSnapshotBytes 0.
Definition first_boot : BootIdentity.t := BootIdentity.mk 3 1 0 0.
Definition second_boot : BootIdentity.t := BootIdentity.mk 9 5 0 0.
Definition empty_disk : Disk.t := Disk.mk None None None [].

(** The store just opened on an empty disk, which from then on fails as [faults] says. *)
Definition first_open : Disk.t * StatusOr t :=
  Eval vm_compute in open store_options demo_config first_boot 0 empty_disk.
Lemma first_open_eq : open store_options demo_config first_boot 0 empty_disk = first_open.
Proof. vm_compute. reflexivity. Qed.
Definition first_store : t :=
  match snd first_open with
  | Val s => s
  | Err _ => fresh store_options demo_config first_boot 0
  end.
Definition first_disk (faults : list (option nat)) : Disk.t := fst first_open <| Disk.faults := faults |>.
Definition begin_entry : Entry.t := Entry.mk RecordType.Begin [] 1.

Lemma first_backed faults : backed first_store (first_disk faults) [begin_entry].
Proof.
  split; [|reflexivity..]. split; [reflexivity|by vm_compute|reflexivity|by vm_compute| |].
  - apply Forall_singleton. exact begin_ok.
  - vm_compute. reflexivity.
Qed.

Lemma demo_ops_wire : Forall op_wire demo_ops.
Proof. unfold demo_ops. repeat constructor; vm_compute; repeat split; try discriminate; lia. Qed.

Lemma store_options_ok boot : BootIdentity.valid boot = true -> options_ok store_options boot.
Proof. split; [done|done|by vm_compute]. Qed.

(** The fifth input is interrupted five bytes into its payload. *)
Definition interrupted_faults : list (option nat) := replicate 17 None ++ [Some 5%nat].
Definition interrupted_run : (t * Disk.t) * list gov_op * option gov_op :=
  Eval vm_compute in store_run demo_ops (first_store, first_disk interrupted_faults).
Lemma interrupted_run_eq :
  store_run demo_ops (first_store, first_disk interrupted_faults) = interrupted_run.
Proof. vm_compute. reflexivity. Qed.


(** A store that compacts after every record. *)
Definition compacting_store : t :=
  first_store <| options_ := mkOptions false Journal.default_options kMaxSnapshotBytes 1 |>.

Lemma evidence_durable_before_decision_witness :
  let '((s', d'), r) := record_evidence (stream_sample 1 500) (compacting_store, first_disk []) in
  governor_ s' = governor_ compacting_store \/
  exists payload j1 d1,
    encoded (stream_sample 1 500) = Val payload /\
    Journal.append RecordType.FlowClassified payload true (journal_ compacting_store, first_disk []) = ((j1, d1), Val tt) /\
    governor_ s' = fst (Governor.submit_evidence (stream_sample 1 500) (governor_ compacting_store)) /\
    let log := [begin_entry] ++
      [Entry.mk RecordType.FlowClassified payload (Journal.sequence_ (journal_ compacting_store) + 1)] in
    ready j1 d1 log /\
    (ready (journal_ s') d' log \/ snapshot_every_records (options_ compacting_store) <> 0 /\ imaged s' d').
Proof.
  destruct (record_evidence (stream_sample 1 500) (compacting_store, first_disk [])) as [[s' d'] r] eqn:E.
  exact (evidence_durable_before_decision (stream_sample 1 500) compacting_store (first_disk []) [begin_entry]
    s' d' r (backed_ready _ _ _ (first_backed [])) E).
Defined.

(** What [open] makes of the disk after a crash that kept everything. *)
Definition reopened (boot : BootIdentity.t) (recovery_tick : Tick) (d : Disk.t) : option Governor.t :=
  match open store_options demo_config boot recovery_tick
          (after_crash (length (Disk.content Disk.journal d)) d) with
  | (_, Val s) => Some (governor_ s)
  | (_, Err _) => None
  end.

(** The flow [(7, 1)] governs: its state, its authority, the boot it is bound to and the number
    of live intents. *)
Definition governing (g : Governor.t) : option (ElephantState.t * AuthorityLevel.t * Z * nat) :=
  record ← OMap.find (7, 1) (Governor.flows_ g);
  let c := FlowRecord.classification record in
  Some (FlowClassification.state c, FlowClassification.authority c,
        AuthorityVector.boot (FlowClassification.authority_vector c),
        length (IntentLedger.live_intents (Governor.intents_ g))).

(** Replaying the journal re-establishes authority. A store that recorded the demo
    inputs and crashed is opened a million ticks later under a new identity: the flow is an
    elephant with authority [Govern], bound to the new boot, with a live intent, and nothing was
    fenced. The identity that wrote the journal is accepted again as well: only a snapshot is
    checked against it. *)
Theorem journal_replay_reestablishes_authority :
  let '((_, d), log, _) := store_run demo_ops (first_store, first_disk []) in
  log = demo_ops /\
  (g ← reopened second_boot 1000000 d; governing g) =
    Some (ElephantState.Elephant, AuthorityLevel.Govern, BootIdentity.boot second_boot, 1%nat) /\
  (g ← reopened second_boot 1000000 d; Some (GovernorCounters.intents_fenced (Governor.counters_ g))) = Some 0 /\
  (g ← reopened first_boot 1000000 d; governing g) =
    Some (ElephantState.Elephant, AuthorityLevel.Govern, BootIdentity.boot first_boot, 1%nat).
Proof. vm_compute. split_and!; reflexivity. Qed.

(** A policy can be in force without being durable: [record_policy] submits it to the
    governor before it is journalled. When the write fails the caller is told [IoError], the
    running governor decides by the new policy, and a restart knows nothing of it. *)
Theorem policy_in_force_not_durable :
  let policy := demo_policy 1 1000 1 3 demo_authorization in
  let '((s, d), r) := record_policy policy (first_store, first_disk [Some 0%nat]) in
  r = Err StatusCode.IoError /\ Governor.policy_ (governor_ s) = Some policy /\
  (g ← reopened second_boot 400 d; Some (Governor.policy_ g)) = Some None.
Proof. vm_compute. split_and!; reflexivity. Qed.
