(* ===== verification/Service.v ===== *)
(** * The service ([include/efg/service.hpp], [src/service.cpp])

    A bounded queue in front of the governor and the thread that works it off. Every section
    of the code that holds the mutex is one step, and so is the processing of one request,
    which happens without the mutex on the worker alone. A thread is the point it has reached:
    the worker waits, holds a request or is on its way out; a caller of [start], [stop] or
    [cancel] is between its two sections. Waiting on a condition variable with a predicate is
    a step that is enabled when the predicate holds. A step is chosen by an action, so that a
    list of actions is one interleaving. Whether the user's sink throws at its [n]th invocation
    is a parameter. *)
From S2P Require Import Prelude Status Checked Tri Tick Hash OMap Flow Tables Policy Impact Classification Intervention Governor.

Definition kDefaultQueueCapacity : Z := Z.shiftl 1 14.
Definition kMaxQueueCapacity : Z := Z.shiftl 1 20.

Module ServiceState.
Inductive t : Type := Idle | Running | Stopping | Stopped.
#[global] Instance eq_dec : EqDecision t.
Proof. solve_decision. Defined.
Definition eqb (a b : t) : bool := bool_decide (a = b).
End ServiceState.

Module RequestKind.
Inductive t : Type := Evidence | Tick | Completion.
End RequestKind.

(** [FlowSample{}]. *)
Definition no_sample : FlowSample.t :=
  FlowSample.mk 0 0 0 0 0 0 TickSpan.default 0 0 ServiceClass.Unknown Priority.unknown
    ProtectionState.Unknown 0 0 ValidityWindow.default Provenance.default.

Module ServiceRequest.
Record t := mk {
  kind : RequestKind.t;
  sample : FlowSample.t;
  flow : FlowId;
  generation : Generation;
  tick : Tick }.
End ServiceRequest.

(** The atomics. *)
Module ServiceStats.
Record t := mk {
  submitted : Z;
  processed : Z;
  rejected_full : Z;
  rejected_closed : Z;
  cancelled : Z;
  decision_batches : Z;
  flows_decided : Z;
  elephants : Z;
  suspensions : Z;
  sinks_invoked : Z;
  sink_failures : Z;
  queue_depth : Z;
  queue_high_water : Z;
  last_tick : Tick }.
#[global] Instance eta_t : Eta t := fun r =>
  mk (submitted r) (processed r) (rejected_full r) (rejected_closed r) (cancelled r)
     (decision_batches r) (flows_decided r) (elephants r) (suspensions r) (sinks_invoked r)
     (sink_failures r) (queue_depth r) (queue_high_water r) (last_tick r).
Definition zero : t := mk 0 0 0 0 0 0 0 0 0 0 0 0 0 0.
End ServiceStats.

Module GovernorService.

(** The worker thread: not created (or joined), waiting for work, processing a request, out of
    its loop, ended and not joined yet. *)
Inductive Worker : Type :=
| NoThread | Waiting | Working (request : ServiceRequest.t) | Leaving | Ended.

(** A caller between the sections of its call: [start] about to create the thread, [stop] and
    [cancel] about to join, and about to take the mutex a second time. *)
Inductive Call : Type :=
| StartThread (sink : bool)
| StopJoin (already_stopped : bool) | StopFinish (already_stopped : bool)
| CancelJoin | CancelFinish.

Record t := mk {
  queue_capacity : Z;
  queue_ : list ServiceRequest.t;
  state_ : ServiceState.t;
  queue_high_water_ : Z;
  accepting_ : bool;
  drain_ : bool;
  governor_ : Governor.t;
  worker_ : Worker;
  sink_ : bool;
  stats_ : ServiceStats.t;
  callers : list Call }.
#[global] Instance eta_t : Eta t := fun r =>
  mk (queue_capacity r) (queue_ r) (state_ r) (queue_high_water_ r) (accepting_ r) (drain_ r)
     (governor_ r) (worker_ r) (sink_ r) (stats_ r) (callers r).

(** [GovernorService(config)]. *)
Definition make (capacity : Z) (config : GovernorConfig.t) : t :=
  let capacity := if capacity =? 0 then 1 else capacity in
  let capacity := if capacity >? kMaxQueueCapacity then kMaxQueueCapacity else capacity in
  mk capacity [] ServiceState.Idle 0 false true (Governor.make config) NoThread false
    ServiceStats.zero [].

Definition count (f : ServiceStats.t -> Z) `{!Setter f} (s : t) : t := s <| stats_ ::= update (f:=f) inc64 |>.
Definition is_state (x : ServiceState.t) (s : t) : bool := ServiceState.eqb (state_ s) x.
Definition joinable (s : t) : bool := match worker_ s with NoThread => false | _ => true end.

(** *** Calls *)

(** The first section of [start]. *)
Definition start (sink : bool) : M t unit :=
  s ← get;
  lift (refuse_if (is_state ServiceState.Running s || is_state ServiceState.Stopping s)
          StatusCode.AlreadyExists) ;;
  lift (refuse_if (joinable s) StatusCode.Busy) ;;
  modify (fun s => s <| queue_ := [] |> <| queue_high_water_ := 0 |> <| accepting_ := true |>
                     <| drain_ := true |> <| state_ := ServiceState.Running |>
                     <| callers ::= (fun l => l ++ [StartThread sink]) |>).

Definition submit (request : ServiceRequest.t) : M t unit := fun s =>
  if negb (accepting_ s) || negb (is_state ServiceState.Running s)
  then (count ServiceStats.rejected_closed s, Err StatusCode.ShuttingDown)
  else if size_of (queue_ s) >=? queue_capacity s
  then (count ServiceStats.rejected_full s, Err StatusCode.CapacityExceeded)
  else
    let s := s <| queue_ ::= (fun q => q ++ [request]) |> in
    let s := if size_of (queue_ s) >? queue_high_water_ s
             then s <| queue_high_water_ := size_of (queue_ s) |> else s in
    (count ServiceStats.submitted s, Val tt).

Definition submit_evidence (sample : FlowSample.t) : M t unit :=
  submit (ServiceRequest.mk RequestKind.Evidence sample (FlowSample.flow sample)
            (FlowSample.flow_generation sample) (TickSpan.end_ (FlowSample.span sample))).
Definition submit_completion (flow : FlowId) (generation : Generation) (at_ : Tick) : M t unit :=
  submit (ServiceRequest.mk RequestKind.Completion no_sample flow generation at_).
Definition submit_tick (now : Tick) : M t unit :=
  submit (ServiceRequest.mk RequestKind.Tick no_sample 0 0 now).

(** The first section of [stop], and the one after the join. *)
Definition stop (s : t) : t :=
  let s := s <| accepting_ := false |> <| drain_ := true |> in
  let s := if is_state ServiceState.Running s then s <| state_ := ServiceState.Stopping |> else s in
  s <| callers ::= (fun l => l ++ [StopJoin (is_state ServiceState.Idle s)]) |>.
Definition stop_finish (already_stopped : bool) (s : t) : t :=
  let s := if negb already_stopped || is_state ServiceState.Stopping s
           then s <| state_ := ServiceState.Stopped |> else s in
  s <| queue_ := [] |> <| queue_high_water_ := 0 |> <| accepting_ := false |>.

Definition cancel (s : t) : t :=
  let s := s <| accepting_ := false |> <| drain_ := false |> in
  let s := if is_state ServiceState.Running s then s <| state_ := ServiceState.Stopping |> else s in
  let s := s <| stats_ ::= update (f:=ServiceStats.cancelled) (add64 (size_of (queue_ s))) |> in
  s <| queue_ := [] |> <| callers ::= (fun l => l ++ [CancelJoin]) |>.
Definition cancel_finish (s : t) : t :=
  s <| state_ := ServiceState.Stopped |> <| queue_ := [] |> <| queue_high_water_ := 0 |>.

(** The next step of a caller: the call it turns into, if it goes on. A join waits until the
    thread has ended; assigning a thread over one that has not been joined would end the
    program. *)
Definition proceed (c : Call) (s : t) : option (t * option Call) :=
  let joined := match worker_ s with NoThread | Ended => true | _ => false end in
  match c with
  | StartThread sink =>
      if joinable s then None else Some (s <| worker_ := Waiting |> <| sink_ := sink |>, None)
  | StopJoin b => if joined then Some (s <| worker_ := NoThread |>, Some (StopFinish b)) else None
  | StopFinish b => Some (stop_finish b s, None)
  | CancelJoin => if joined then Some (s <| worker_ := NoThread |>, Some CancelFinish) else None
  | CancelFinish => Some (cancel_finish s, None)
  end.

Definition stats (s : t) : ServiceStats.t :=
  stats_ s <| ServiceStats.queue_depth := size_of (queue_ s) |>
           <| ServiceStats.queue_high_water := queue_high_water_ s |>.

(** *** The worker *)

Section worker.
Context (throws : Z -> FlowDecision.t -> bool).

Definition invoke_sink (decision : FlowDecision.t) (s : t) : t :=
  if negb (sink_ s) then s
  else
    let failed := throws (ServiceStats.sinks_invoked (stats_ s)) decision in
    let s := count ServiceStats.sinks_invoked s in
    if failed then count ServiceStats.sink_failures s else s.

Definition is_decided (x : ElephantState.t) (decision : FlowDecision.t) : bool :=
  ElephantState.eqb (FlowClassification.state (FlowDecision.classification decision)) x.

Definition count_if (b : bool) (f : ServiceStats.t -> Z) `{!Setter f} (s : t) : t :=
  if b then count f s else s.

(** The [switch] of [process_request]. *)
Definition dispatch (request : ServiceRequest.t) (s : t) : t :=
  match ServiceRequest.kind request with
  | RequestKind.Evidence =>
      let '(g, decision) := Governor.submit_evidence (ServiceRequest.sample request) (governor_ s) in
      let s := s <| governor_ := g |> in
      match decision with
      | Err _ => s
      | Val decision =>
          let s := count ServiceStats.flows_decided s in
          let s := count_if (is_decided ElephantState.Elephant decision) ServiceStats.elephants s in
          let s := count_if (is_decided ElephantState.Suspended decision) ServiceStats.suspensions s in
          invoke_sink decision s
      end
  | RequestKind.Completion =>
      s <| governor_ := fst (Governor.complete_flow (ServiceRequest.flow request)
                               (ServiceRequest.generation request) (ServiceRequest.tick request)
                               (governor_ s)) |>
  | RequestKind.Tick =>
      let '(g, batch) := Governor.tick (ServiceRequest.tick request) (governor_ s) in
      let s := s <| governor_ := g |> in
      match batch with
      | Err _ => s
      | Val batch =>
          foldl (fun s decision =>
            let s := count ServiceStats.flows_decided s in
            let s := count_if (is_decided ElephantState.Suspended decision) ServiceStats.suspensions s in
            invoke_sink decision s)
            (count ServiceStats.decision_batches s) (DecisionBatch.decisions batch)
      end
  end.

Definition process_request (request : ServiceRequest.t) (s : t) : t :=
  let s := count ServiceStats.processed (dispatch request s) in
  if ServiceRequest.tick request >? ServiceStats.last_tick (stats_ s)
  then s <| stats_ ::= update (f:=ServiceStats.last_tick) (fun _ => ServiceRequest.tick request) |>
  else s.

(** [worker_main]: the loop, from wait to wait. *)
Definition worker_step (s : t) : option t :=
  match worker_ s with
  | NoThread | Ended => None
  | Waiting =>
      match queue_ s with
      | request :: rest => Some (s <| queue_ := rest |> <| worker_ := Working request |>)
      | [] => if is_state ServiceState.Running s then None else Some (s <| worker_ := Leaving |>)
      end
  | Working request => Some (process_request request s <| worker_ := Waiting |>)
  | Leaving => Some (s <| state_ := ServiceState.Stopped |> <| worker_ := Ended |>)
  end.
End worker.
End GovernorService.
