(* ===== verification/ServiceFacts.v ===== *)
(** * What the service guarantees under every interleaving

    Requests are worked off in the order they were accepted, the queue is bounded and nothing
    is lost track of, whatever the threads do; when one thread at a time starts and stops the
    service, [stop] returns, and returns only after every accepted request was processed. *)
From S2P Require Import Prelude Status Checked Tri Tick Hash OMap Flow Tables Policy Impact Classification Intervention Governor GovernorFacts GovernorRuns Service.

Import GovernorService.
#[local] Opaque Governor.submit_evidence Governor.complete_flow Governor.tick.

(** ** Interleavings *)

(** What became of the requests so far. *)
Module Log.
Record t := mk {
  accepted : list ServiceRequest.t;
  processed : list ServiceRequest.t;
  discarded : list ServiceRequest.t }.
#[global] Instance eta_t : Eta t := fun r => mk (accepted r) (processed r) (discarded r).
Definition empty : t := mk [] [] [].
Definition discard (q : list ServiceRequest.t) (l : t) : t := l <| discarded ::= (fun d => d ++ q) |>.
End Log.

Inductive Action : Type :=
| Start (sink : bool) | Submit (request : ServiceRequest.t) | Stop | Cancel
| Proceed (caller : nat) | Work.

(** The caller at [i] goes on as [next]. *)
Definition continue (i : nat) (next : option Call) (s : t) : t :=
  s <| callers ::= (fun l => match next with Some c => <[i := c]> l | None => delete i l end) |>.

Section run.
Context (throws : Z -> FlowDecision.t -> bool).

Definition step (a : Action) (w : t * Log.t) : option (t * Log.t) :=
  let '(s, l) := w in
  match a with
  | Start sink =>
      match start sink s with
      | (s', Val _) => Some (s', Log.discard (queue_ s) l)
      | (s', Err _) => Some (s', l)
      end
  | Submit r =>
      match submit r s with
      | (s', Val _) => Some (s', l <| Log.accepted ::= (fun x => x ++ [r]) |>)
      | (s', Err _) => Some (s', l)
      end
  | Stop => Some (stop s, l)
  | Cancel => Some (cancel s, Log.discard (queue_ s) l)
  | Proceed i =>
      c ← callers s !! i;
      '(s', next) ← proceed c s;
      Some (continue i next s',
            match c with StopFinish _ | CancelFinish => Log.discard (queue_ s) l | _ => l end)
  | Work =>
      s' ← worker_step throws s;
      Some (s', match worker_ s with
                | Working r => l <| Log.processed ::= (fun x => x ++ [r]) |>
                | _ => l
                end)
  end.

(** Run a list of actions, each of which has to be admissible. *)
Fixpoint exec (admissible : Action -> t -> bool) (acts : list Action) (w : t * Log.t) : option (t * Log.t) :=
  match acts with
  | [] => Some w
  | a :: acts => if admissible a w.1 then w' ← step a w; exec admissible acts w' else None
  end.

Definition any (_ : Action) (_ : t) : bool := true.

(** [start], [stop] and [cancel] are called one after the other. *)
Definition in_turn (a : Action) (s : t) : bool :=
  match a with
  | Start _ | Stop | Cancel => match callers s with [] => true | _ => false end
  | _ => true
  end.

Definition in_flight (s : t) : list ServiceRequest.t :=
  match worker_ s with Working r => [r] | _ => [] end.

Definition op_of_request (r : ServiceRequest.t) : gov_op :=
  match ServiceRequest.kind r with
  | RequestKind.Evidence => SubmitEvidence (ServiceRequest.sample r)
  | RequestKind.Completion =>
      CompleteFlow (ServiceRequest.flow r) (ServiceRequest.generation r) (ServiceRequest.tick r)
  | RequestKind.Tick => TickTo (ServiceRequest.tick r)
  end.

(** ** Processing a request *)

(** A step of processing changes the counters, and never those of the queue. *)
Definition counts (s s' : t) : Prop :=
  exists st, s' = s <| stats_ := st |> /\
  ServiceStats.submitted st = ServiceStats.submitted (stats_ s) /\
  ServiceStats.processed st = ServiceStats.processed (stats_ s) /\
  ServiceStats.cancelled st = ServiceStats.cancelled (stats_ s).

#[local] Instance counts_preorder : PreOrder counts.
Proof.
  split.
  - intros []. eexists. by split.
  - intros s1 s2 s3 (st & -> & H) (st' & -> & H'). exists st'. split; [by destruct s1|].
    cbn in *. intuition congruence.
Qed.

Lemma counts_if b f `{!Setter f} s :
  (forall st, ServiceStats.submitted (update (f:=f) inc64 st) = ServiceStats.submitted st /\
     ServiceStats.processed (update (f:=f) inc64 st) = ServiceStats.processed st /\
     ServiceStats.cancelled (update (f:=f) inc64 st) = ServiceStats.cancelled st) ->
  counts s (count_if b f s).
Proof. intros H. unfold count_if, count. destruct b; [|done]. eexists. split; [done|]. apply H. Qed.

Lemma counts_sink d s : counts s (invoke_sink throws d s).
Proof.
  unfold invoke_sink. destruct (sink_ s); cbn [negb]; [|done].
  etrans; [|by apply (counts_if (throws _ d) ServiceStats.sink_failures)].
  by apply (counts_if true ServiceStats.sinks_invoked).
Qed.

Lemma counts_batch ds : forall s, counts s (foldl (fun s decision =>
    invoke_sink throws decision
      (count_if (is_decided ElephantState.Suspended decision) ServiceStats.suspensions
         (count ServiceStats.flows_decided s))) s ds).
Proof.
  induction ds as [|d ds IH]; intros s; [done|]. cbn [foldl]. etrans; [|apply IH].
  etrans; [|apply counts_sink]. etrans; [|by apply counts_if].
  by apply (counts_if true ServiceStats.flows_decided).
Qed.

(** What processing a request amounts to. *)
Lemma process_shape r s :
  exists st, process_request throws r s =
    s <| governor_ := gov_apply (op_of_request r) (governor_ s) |> <| stats_ := st |> /\
  ServiceStats.submitted st = ServiceStats.submitted (stats_ s) /\
  ServiceStats.processed st = inc64 (ServiceStats.processed (stats_ s)) /\
  ServiceStats.cancelled st = ServiceStats.cancelled (stats_ s).
Proof.
  unfold process_request. set (s1 := dispatch throws r s).
  assert (H : counts (s <| governor_ := gov_apply (op_of_request r) (governor_ s) |>) s1).
  { unfold s1, dispatch, op_of_request. destruct (ServiceRequest.kind r); cbn [gov_apply].
    - destruct (Governor.submit_evidence _ _) as [g [d|c]]; cbn [fst]; [|done].
      etrans; [|apply counts_sink]. etrans; [|by apply counts_if]. etrans; [|by apply counts_if].
      by apply (counts_if true ServiceStats.flows_decided).
    - destruct (Governor.tick _ _) as [g [b|c]]; cbn [fst]; [|done].
      etrans; [|apply counts_batch]. by apply (counts_if true ServiceStats.decision_batches).
    - done. }
  clearbody s1. destruct H as (st & -> & H1 & H2 & H3). cbv zeta.
  destruct (_ >? _); eexists; (split; [by destruct s|]); cbn in *; by rewrite ?H1, ?H2, ?H3.
Qed.

(** ** Nothing is lost track of *)

Record tracked (config : GovernorConfig.t) (s : t) (l : Log.t) : Prop := {
  tr_all : Log.accepted l ≡ₚ Log.processed l ++ Log.discarded l ++ in_flight s ++ queue_ s;
  tr_fifo : Log.processed l ++ in_flight s ++ queue_ s `sublist_of` Log.accepted l;
  tr_governor : governor_ s = gov_run (op_of_request <$> Log.processed l) (Governor.make config);
  tr_room : size_of (queue_ s) <= queue_high_water_ s <= queue_capacity s;
  tr_submitted : ServiceStats.submitted (stats_ s) = wrap 64 (size_of (Log.accepted l));
  tr_processed : ServiceStats.processed (stats_ s) = wrap 64 (size_of (Log.processed l)) }.

(** What [tracked] looks at, the queue and its high water apart. *)
Record alike (s s' : t) : Prop := {
  al_worker : in_flight s' = in_flight s;
  al_governor : governor_ s' = governor_ s;
  al_capacity : queue_capacity s' = queue_capacity s;
  al_submitted : ServiceStats.submitted (stats_ s') = ServiceStats.submitted (stats_ s);
  al_processed : ServiceStats.processed (stats_ s') = ServiceStats.processed (stats_ s) }.

Lemma tracked_alike config s s' l :
  alike s s' -> queue_ s' = queue_ s -> queue_high_water_ s' = queue_high_water_ s ->
  tracked config s l -> tracked config s' l.
Proof.
  intros [Hw Hg Hc Hs Hp] Hq Hh [H1 H2 H3 H4 H5 H6].
  split; rewrite ?Hw, ?Hg, ?Hc, ?Hs, ?Hp, ?Hq, ?Hh; done.
Qed.

(** The queue is dropped. *)
Lemma tracked_clear config s s' l :
  alike s s' -> queue_ s' = [] -> 0 <= queue_high_water_ s' <= queue_capacity s ->
  tracked config s l -> tracked config s' (Log.discard (queue_ s) l).
Proof.
  intros [Hw Hg Hc Hs Hp] Hq Hh [H1 H2 H3 H4 H5 H6].
  split; cbn [Log.discard Log.accepted Log.processed Log.discarded update eta Log.eta_t];
    rewrite ?Hw, ?Hg, ?Hc, ?Hs, ?Hp, ?Hq; try done.
  - rewrite H1, app_nil_r. rewrite <- !app_assoc. do 2 f_equiv. apply Permutation_app_comm.
  - rewrite app_nil_r. etrans; [|exact H2]. rewrite app_assoc. apply sublist_inserts_r. done.
Qed.

Lemma capacity_nonneg config s l : tracked config s l -> 0 <= queue_capacity s.
Proof. intros H. pose proof (tr_room _ _ _ H). pose proof (size_of_nonneg (queue_ s)). lia. Qed.

Lemma size_snoc {A} (l : list A) x : wrap 64 (size_of (l ++ [x])) = inc64 (wrap 64 (size_of l)).
Proof.
  unfold inc64, wrap, size_of. rewrite Z.add_mod_idemp_l, length_app by lia. f_equal. simpl. lia.
Qed.

Lemma tracked_submit config r s l s' l' :
  tracked config s l -> step (Submit r) (s, l) = Some (s', l') -> tracked config s' l'.
Proof.
  intros Ht. cbn [step]. unfold submit.
  destruct (_ || _); [intros [= <- <-]; by apply (tracked_alike config s); [split|..]|].
  destruct (_ >=? _) eqn:Hroom; [intros [= <- <-]; by apply (tracked_alike config s); [split|..]|].
  intros [= <- <-]. destruct Ht as [H1 H2 H3 H4 H5 H6].
  set (s1 := s <| queue_ ::= _ |>). set (s2 := if _ >? _ then _ else s1).
  assert (Hs2 : alike s s2 /\ queue_ s2 = queue_ s ++ [r] /\
    size_of (queue_ s ++ [r]) <= queue_high_water_ s2 <= queue_capacity s).
  { unfold s2, s1. assert (size_of (queue_ s ++ [r]) = size_of (queue_ s) + 1)
      by (unfold size_of; rewrite length_app; simpl; lia).
    rewrite Z.geb_leb in Hroom. apply Z.leb_gt in Hroom.
    destruct (_ >? _) eqn:Hhw; cbn in *; split; [by split| |by split|]; (split; [done|lia]). }
  clearbody s2. destruct Hs2 as ([Hw Hg Hc Hs Hp] & Hq & Hh).
  set (s3 := count ServiceStats.submitted s2).
  assert (Hs3 : ServiceStats.submitted (stats_ s3) = inc64 (ServiceStats.submitted (stats_ s)))
    by (by rewrite <- Hs).
  change (in_flight s2) with (in_flight s3) in Hw. change (governor_ s2) with (governor_ s3) in Hg.
  change (queue_capacity s2) with (queue_capacity s3) in Hc. change (queue_ s2) with (queue_ s3) in Hq.
  change (queue_high_water_ s2) with (queue_high_water_ s3) in Hh.
  change (ServiceStats.processed (stats_ s2)) with (ServiceStats.processed (stats_ s3)) in Hp.
  split; rewrite ?Hw, ?Hg, ?Hc, ?Hs3, ?Hp, ?Hq; cbn [Log.accepted Log.processed Log.discarded update eta Log.eta_t]; try done.
  - rewrite H1. by rewrite <- !app_assoc.
  - rewrite !app_assoc. apply sublist_app; [by rewrite <- app_assoc|done].
  - by rewrite size_snoc, H5.
Qed.

Lemma tracked_work config s l s' l' :
  tracked config s l -> step Work (s, l) = Some (s', l') -> tracked config s' l'.
Proof.
  intros Ht. cbn [step]. unfold worker_step. destruct (worker_ s) as [| |r| |] eqn:Ew; try done.
  - destruct (queue_ s) as [|r q] eqn:Eq.
    + destruct (is_state _ s); [done|]. intros [= <- <-]. apply (tracked_alike config s); try done.
      split; [unfold in_flight; cbn; by rewrite Ew|done..].
    + intros [= <- <-]. destruct Ht as [H1 H2 H3 H4 H5 H6]. unfold in_flight in *. rewrite Ew, Eq in *.
      split; try done. cbn in *. unfold size_of in *. cbn in *. lia.
  - destruct (process_shape r s) as (st & -> & Hs & Hp & _). intros [= <- <-].
    destruct Ht as [H1 H2 H3 H4 H5 H6]. unfold in_flight in *. rewrite Ew in *.
    split; cbn in *; try done.
    + rewrite H1. rewrite <- !app_assoc. f_equiv. by rewrite Permutation_app_swap_app.
    + by rewrite <- app_assoc.
    + rewrite fmap_app. unfold gov_run. rewrite foldl_app. cbn. by rewrite H3.
    + by rewrite Hs.
    + by rewrite size_snoc, <- H6.
  - intros [= <- <-]. apply (tracked_alike config s); try done. split; [unfold in_flight; cbn; by rewrite Ew|done..].
Qed.

Lemma tracked_proceed config i s l s' l' :
  tracked config s l -> step (Proceed i) (s, l) = Some (s', l') -> tracked config s' l'.
Proof.
  intros Ht. cbn [step]. destruct (callers s !! i) as [c|]; [|done]. cbn.
  assert (Hj : (match worker_ s with NoThread | Ended => true | _ => false end) = true ->
    in_flight s = []) by (unfold in_flight; by destruct (worker_ s)).
  pose proof (capacity_nonneg _ _ _ Ht) as Hcap.
  destruct c as [sink|b|b| |]; cbn [proceed].
  - unfold joinable. destruct (worker_ s) eqn:Ew; try done. intros [= <- <-].
    apply (tracked_alike config s); try done. split; try done. unfold in_flight. cbn. by rewrite Ew.
  - destruct (match worker_ s with NoThread | Ended => true | _ => false end); [|done].
    intros [= <- <-]. apply (tracked_alike config s); try done. split; try done. by rewrite Hj.
  - intros [= <- <-]. apply tracked_clear; [split|..|done];
      unfold stop_finish; destruct (_ || _); cbn; try done; lia.
  - destruct (match worker_ s with NoThread | Ended => true | _ => false end); [|done].
    intros [= <- <-]. apply (tracked_alike config s); try done. split; try done. by rewrite Hj.
  - intros [= <- <-]. apply tracked_clear; [by split|done|cbn; lia|done].
Qed.

Lemma tracked_step config a s l s' l' :
  tracked config s l -> step a (s, l) = Some (s', l') -> tracked config s' l'.
Proof.
  intros Ht. pose proof (capacity_nonneg _ _ _ Ht) as Hcap.
  pose proof (size_of_nonneg (queue_ s)) as Hpos. pose proof (tr_room _ _ _ Ht) as Hroom.
  destruct a as [sink|r| | |i|].
  - cbn [step]. unfold start, mbind, M_bind, get, lift, modify, refuse_if.
    destruct (_ || _); [by intros [= <- <-]|]. destruct (joinable s); [by intros [= <- <-]|].
    intros [= <- <-]. apply tracked_clear; [by split|done|cbn; lia|done].
  - by apply tracked_submit.
  - cbn [step]. intros [= <- <-]. unfold stop.
    destruct (is_state ServiceState.Running _); (apply (tracked_alike config s); [by split|done..]).
  - cbn [step]. intros [= <- <-]. unfold cancel.
    destruct (is_state ServiceState.Running _); (apply tracked_clear; [by split|done|cbn; lia|done]).
  - by apply tracked_proceed.
  - by apply tracked_work.
Qed.

(** An invariant of every admissible step holds after every run. *)
Lemma exec_invariant (admissible : Action -> t -> bool) (P : t * Log.t -> Prop) acts : forall w w',
  (forall a w w', P w -> admissible a w.1 = true -> step a w = Some w' -> P w') ->
  P w -> exec admissible acts w = Some w' -> P w'.
Proof.
  induction acts as [|a acts IH]; intros w w' Hstep Hw E; cbn [exec] in E; [by injection E as <-|].
  destruct (admissible a w.1) eqn:Ha; [|done]. destruct (step a w) as [w1|] eqn:Es; [|done]. cbn in E.
  eapply IH; [done| |done]. by eapply Hstep.
Qed.

Lemma tracked_make capacity config : 0 <= capacity -> tracked config (make capacity config) Log.empty.
Proof.
  intros Hc. split; try done. cbn. unfold size_of. simpl.
  assert (0 < kMaxQueueCapacity) by done.
  destruct (Z.eqb_spec capacity 0); destruct (_ >? _) eqn:E; lia.
Qed.

Lemma tracked_exec admissible capacity config acts s l :
  0 <= capacity -> exec admissible acts (make capacity config, Log.empty) = Some (s, l) ->
  tracked config s l.
Proof.
  intros Hc E.
  apply (exec_invariant admissible (fun w => tracked config w.1 w.2) acts (make capacity config, Log.empty) (s, l)).
  - intros a [s1 l1] [s2 l2] H1 _ H2. by eapply tracked_step.
  - by apply tracked_make.
  - done.
Qed.

(** ** One caller at a time *)

(** The service has not been started, or has come to rest. *)
Definition settled (s : t) : Prop :=
  accepting_ s = false /\ worker_ s = NoThread /\ queue_ s = [] /\
  (state_ s = ServiceState.Idle \/ state_ s = ServiceState.Stopped).

Definition serving (s : t) : Prop :=
  accepting_ s = true /\ state_ s = ServiceState.Running /\
  match worker_ s with Waiting | Working _ => True | _ => False end.

(** The worker has been told to stop. *)
Definition closing (s : t) : Prop :=
  accepting_ s = false /\
  match worker_ s with
  | NoThread => False
  | Waiting | Working _ => state_ s = ServiceState.Stopping
  | Leaving => state_ s = ServiceState.Stopping /\ queue_ s = []
  | Ended => state_ s = ServiceState.Stopped /\ queue_ s = []
  end.

(** What the service is like while the only caller is at the point it has reached. *)
Definition orderly (s : t) : Prop :=
  match callers s with
  | [] => serving s \/ settled s
  | [StartThread _] => accepting_ s = true /\ state_ s = ServiceState.Running /\ worker_ s = NoThread
  | [StopJoin b] =>
      (settled s /\ b = is_state ServiceState.Idle s) \/ (closing s /\ b = false)
  | [StopFinish b] => settled s /\ b = is_state ServiceState.Idle s
  | [CancelJoin] => settled s \/ closing s
  | [CancelFinish] => settled s
  | _ => False
  end.

Ltac open_state s :=
  destruct s as [cap q st hw acc dr g w sk stt cs];
  unfold orderly, settled, serving, closing, in_turn, is_state, ServiceState.eqb, joinable in *;
  cbn in *.

(** A submission gets in only while the service is being started or serves. *)
Lemma orderly_submit r s : orderly s -> orderly (fst (submit r s)).
Proof.
  intros Ho. unfold submit. destruct (_ || _) eqn:Hclosed; [exact Ho|].
  destruct (_ >=? _); [exact Ho|]. apply orb_false_iff in Hclosed as [Ha Hs].
  apply negb_false_iff in Ha, Hs. unfold is_state, ServiceState.eqb in Hs. apply bool_decide_eq_true in Hs.
  set (s1 := s <| queue_ ::= _ |>).
  assert (H1 : orderly s1).
  { clear -Ho Ha Hs. unfold s1. open_state s. subst.
    destruct cs as [|[] []]; naive_solver. }
  destruct (_ >? _); exact H1.
Qed.

Lemma orderly_begin a s l s' l' :
  orderly s -> callers s = [] -> (a = Stop \/ a = Cancel \/ exists sink, a = Start sink) ->
  step a (s, l) = Some (s', l') -> orderly s'.
Proof.
  intros Ho Hc Ha. destruct Ha as [->|[->|[sink ->]]]; cbn [step].
  - intros [= <- <-]. unfold stop. open_state s. subst. destruct st; cbn; destruct w; naive_solver.
  - intros [= <- <-]. unfold cancel. open_state s. subst. destruct st; cbn; destruct w; naive_solver.
  - unfold start, mbind, M_bind, get, lift, modify, refuse_if.
    destruct (_ || _) eqn:Hst; [by intros [= <- <-]|]. destruct (joinable s) eqn:Hj; [by intros [= <- <-]|].
    intros [= <- <-]. open_state s. subst. destruct w; naive_solver.
Qed.

Lemma orderly_proceed i s l s' l' :
  orderly s -> step (Proceed i) (s, l) = Some (s', l') -> orderly s'.
Proof.
  intros Ho. cbn [step]. destruct (callers s !! i) as [c|] eqn:Hi; [|done]. cbn.
  assert (Hone : callers s = [c] /\ i = 0%nat).
  { unfold orderly in Ho. destruct (callers s) as [|c0 [|]]; [done| |by destruct c0].
    destruct i; [by injection Hi as ->|done]. }
  destruct Hone as [Hc ->]. destruct c as [sink|b|b| |]; cbn [proceed].
  - destruct (joinable s) eqn:Hj; [done|]. intros [= <- <-]. open_state s. subst. naive_solver.
  - destruct (worker_ s) eqn:Hw; try done; intros [= <- <-]; open_state s; subst; naive_solver.
  - intros [= <- <-]. unfold stop_finish. open_state s. subst. destruct st; cbn; naive_solver.
  - destruct (worker_ s) eqn:Hw; try done; intros [= <- <-]; open_state s; subst; naive_solver.
  - intros [= <- <-]. unfold cancel_finish. open_state s. subst. naive_solver.
Qed.

Lemma orderly_work s l s' l' : orderly s -> step Work (s, l) = Some (s', l') -> orderly s'.
Proof.
  intros Ho. cbn [step]. unfold worker_step. destruct (worker_ s) as [| |r| |] eqn:Hw; try done.
  - destruct (queue_ s) as [|r q'] eqn:Hq.
    + destruct (is_state _ s) eqn:Hst; [done|]. intros [= <- <-]. open_state s. subst.
      destruct cs as [|[] []]; naive_solver.
    + intros [= <- <-]. open_state s. subst. destruct cs as [|[] []]; naive_solver.
  - destruct (process_shape r s) as (st' & -> & _). intros [= <- <-]. open_state s. subst.
    destruct cs as [|[] []]; naive_solver.
  - intros [= <- <-]. open_state s. subst. destruct cs as [|[] []]; naive_solver.
Qed.

Lemma orderly_step a s l s' l' :
  orderly s -> in_turn a s = true -> step a (s, l) = Some (s', l') -> orderly s'.
Proof.
  intros Ho Ht E.
  assert (Hc : (a = Stop \/ a = Cancel \/ exists sink, a = Start sink) -> callers s = []).
  { intros [->|[->|[sink ->]]]; cbn in Ht; by destruct (callers s). }
  destruct a as [sink|r| | |i|].
  - by eapply (orderly_begin (Start sink)); eauto.
  - pose proof (orderly_submit r s Ho) as H. cbn [step] in E.
    destruct (submit r s) as [s1 [u|c]]; by injection E as <- <-.
  - by eapply (orderly_begin Stop); eauto.
  - by eapply (orderly_begin Cancel); eauto.
  - by eapply orderly_proceed.
  - by eapply orderly_work.
Qed.

Lemma orderly_exec (admissible : Action -> t -> bool) capacity config acts s l :
  (forall a s, admissible a s = true -> in_turn a s = true) ->
  exec admissible acts (make capacity config, Log.empty) = Some (s, l) -> orderly s.
Proof.
  intros Hadm E.
  apply (exec_invariant admissible (fun w => orderly w.1) acts (make capacity config, Log.empty) (s, l)).
  - intros a [s1 l1] [s2 l2] H1 H2 H3. eapply (orderly_step a s1 l1); eauto.
  - right. split; [done|]. split; [done|]. split; [done|]. by left.
  - done.
Qed.

(** No [cancel] either. *)
Definition drained (a : Action) (s : t) : bool :=
  in_turn a s && match a with Cancel => false | _ => true end.

Lemma drained_in_turn a s : drained a s = true -> in_turn a s = true.
Proof. unfold drained. by intros [? _]%andb_true_iff. Qed.

(** Without [cancel] the queue is empty whenever it is cleared. *)
Lemma drained_step a s l s' l' :
  orderly s -> drained a s = true -> step a (s, l) = Some (s', l') ->
  Log.discarded l = [] -> Log.discarded l' = [].
Proof.
  intros Ho Hd E Hl. pose proof (drained_in_turn a s Hd) as Ht.
  destruct a as [sink|r| | |i|]; cbn [step] in E.
  - unfold start, mbind, M_bind, get, lift, modify, refuse_if in E.
    destruct (_ || _) eqn:Hst; [by injection E as <- <-|].
    destruct (joinable s) eqn:Hj; [by injection E as <- <-|]. injection E as <- <-.
    cbn in Ht. unfold orderly in Ho. destruct (callers s); [|done].
    destruct Ho as [(_ & _ & Hw)|(_ & _ & Hq & _)]; [unfold joinable in Hj; by destruct (worker_ s)|].
    cbn. by rewrite Hq, Hl.
  - destruct (submit r s) as [s1 [u|c]]; by injection E as <- <-.
  - by injection E as <- <-.
  - unfold drained in Hd. by rewrite andb_false_r in Hd.
  - destruct (callers s !! i) as [c|] eqn:Hi; [|done]. cbn in E.
    destruct (proceed c s) as [[s1 next]|]; [|done]. injection E as <- <-.
    unfold orderly in Ho. destruct (callers s) as [|c0 [|]]; [done| |by destruct c0].
    destruct i; [injection Hi as ->|done]. destruct c; try done; cbn.
    + destruct Ho as [(_ & _ & Hq & _) _]. by rewrite Hq, Hl.
    + destruct Ho as (_ & _ & Hq & _). by rewrite Hq, Hl.
  - destruct (worker_step throws s) as [s1|]; [|done]. cbn in E. injection E as <- <-.
    by destruct (worker_ s).
Qed.

Lemma drained_exec capacity config acts s l :
  exec drained acts (make capacity config, Log.empty) = Some (s, l) -> Log.discarded l = [].
Proof.
  intros E.
  apply (exec_invariant drained (fun w => orderly w.1 /\ Log.discarded w.2 = []) acts
    (make capacity config, Log.empty) (s, l)); [|split; [right|]|done].
  - intros a [s1 l1] [s2 l2] [H1 H2] H3 H4. split; [|by eapply drained_step].
    eapply (orderly_step a s1 l1); eauto using drained_in_turn.
  - split; [done|]. split; [done|]. split; [done|]. by left.
  - done.
Qed.

(** ** Steps left until a caller returns *)

Definition work_left (s : t) : nat :=
  match worker_ s with
  | NoThread | Ended => 0
  | Leaving => 1
  | Waiting => 2 * length (queue_ s) + 2
  | Working _ => 2 * length (queue_ s) + 3
  end.

(** The caller waits for the worker, or is past that. *)
Definition returning (s : t) : Prop :=
  match callers s with
  | [StopJoin _] | [CancelJoin] | [StopFinish _] | [CancelFinish] => True
  | _ => False
  end.

Definition steps_left (s : t) : nat :=
  match callers s with
  | [StopJoin _] | [CancelJoin] => work_left s + 2
  | [StopFinish _] | [CancelFinish] => 1
  | _ => 0
  end.

Definition counted (a : Action) : bool := match a with Submit _ => false | _ => true end.

(** While a caller is returning, some thread can take a step. *)
Lemma returning_enabled s l :
  orderly s -> returning s -> is_Some (step Work (s, l)) \/ is_Some (step (Proceed 0) (s, l)).
Proof.
  intros Ho Hr. unfold orderly, returning in *.
  destruct (callers s) as [|c [|]] eqn:Hc; [done| |by destruct c].
  cbn [step]. rewrite Hc. cbn [lookup list_lookup mbind option_bind].
  assert (Hwork : closing s -> is_Some (worker_step throws s) \/ worker_ s = Ended).
  { intros [_ H]. unfold worker_step. destruct (worker_ s) eqn:Hw; [done| |left; by eexists|left; by eexists|by right].
    left. destruct (queue_ s); [|by eexists]. unfold is_state. rewrite H. by eexists. }
  assert (Hjoin : settled s \/ closing s ->
    is_Some (worker_step throws s) \/ worker_ s = NoThread \/ worker_ s = Ended).
  { intros [(_ & Hw & _)|Hcl]; [by right; left|]. destruct (Hwork Hcl); auto. }
  destruct c as [sink|b|b| |]; [done| |by right|  |by right].
  - destruct Hjoin as [[s1 H1]|[H1|H1]]; [tauto|left; rewrite H1; by eexists|..];
      right; cbn [proceed]; rewrite H1; by eexists.
  - destruct Hjoin as [[s1 H1]|[H1|H1]]; [tauto|left; rewrite H1; by eexists|..];
      right; cbn [proceed]; rewrite H1; by eexists.
Qed.

(** Each step of the worker or of the caller is one step less; submissions are refused. *)
Lemma returning_step a s l s' l' :
  orderly s -> returning s -> in_turn a s = true -> step a (s, l) = Some (s', l') ->
  (returning s' /\ (steps_left s' + (if counted a then 1 else 0) = steps_left s)%nat) \/
  (callers s' = [] /\ steps_left s = 1%nat).
Proof.
  intros Ho Hr Ht E. unfold orderly, returning in Ho, Hr.
  destruct (callers s) as [|c [|]] eqn:Hc; [done| |by destruct c].
  assert (Hacc : accepting_ s = false) by (unfold settled, closing in Ho; destruct c; naive_solver).
  destruct a as [sink|r| | |i|]; [by cbn in Ht; rewrite Hc in Ht| |by cbn in Ht; rewrite Hc in Ht
    |by cbn in Ht; rewrite Hc in Ht| |]; cbn [step counted] in *.
  - unfold submit in E. rewrite Hacc in E. cbn in E. injection E as <- <-. left.
    unfold returning, steps_left, work_left. cbn. rewrite Hc. split; [done|]. by destruct c; cbn; lia.
  - rewrite Hc in E. destruct i; [|by destruct i]. cbn in E.
    unfold returning, steps_left, work_left. rewrite Hc.
    destruct c as [sink|b|b| |]; [done|..]; cbn [proceed] in E.
    + destruct (worker_ s) eqn:Hw; try done; injection E as <- <-; left; cbn; by rewrite Hc.
    + injection E as <- <-. right. unfold stop_finish. split; [|done]. destruct (_ || _); cbn; by rewrite Hc.
    + destruct (worker_ s) eqn:Hw; try done; injection E as <- <-; left; cbn; by rewrite Hc.
    + injection E as <- <-. right. cbn. by rewrite Hc.
  - left. assert (Hjoin : worker_ s <> NoThread -> steps_left s = (work_left s + 2)%nat /\
      forall s1, callers s1 = callers s -> returning s1 /\ steps_left s1 = (work_left s1 + 2)%nat).
    { intros Hw. unfold returning, steps_left, settled in *. rewrite Hc.
      destruct c; try naive_solver; (split; [done|]); intros s1 Hs1; by rewrite Hs1. }
    assert (Hwork : worker_ s <> NoThread /\ callers s' = callers s /\ (work_left s' + 1 = work_left s)%nat).
    { unfold worker_step in E. unfold work_left. destruct (worker_ s) as [| |r| |] eqn:Hw; try done;
        cbn [mbind option_bind] in E; (split; [done|]).
      - destruct (queue_ s) as [|r q] eqn:Hq.
        + destruct (is_state ServiceState.Running s); [done|]. by injection E as <- <-.
        + injection E as <- <-. split; [done|]. cbn. lia.
      - destruct (process_shape r s) as (st' & E' & _). rewrite E' in E. injection E as <- <-.
        split; [done|]. cbn. lia.
      - by injection E as <- <-. }
    destruct Hwork as (Hw & Hcs & Hwl). destruct (Hjoin Hw) as [Hs Hs']. destruct (Hs' s' Hcs) as [Hr' Hs1].
    split; [done|]. lia.
Qed.
End run.

Lemma sublist_full {A} (l k : list A) : l `sublist_of` k -> length l = length k -> l = k.
Proof.
  induction 1 as [|x a b _ IH|x a b Hs IH]; intros Hl; cbn in *; [done|f_equal; apply IH; lia|].
  apply sublist_length in Hs. lia.
Qed.

(** ** Properties *)

(** C11: Whatever the interleaving of callers, submitters and worker: the governor is the
    fresh one after exactly the processed requests; processed, in-flight and queued requests are,
    in this order, a subsequence of the accepted ones, so they are worked off first come first
    served; every accepted request is processed, in flight, queued or was discarded; the queue
    stays within its high water mark and that within the capacity; and the counters of
    submitted and processed requests are exact modulo their width. *)
Theorem service_tracks_requests throws capacity config acts s l :
  0 <= capacity -> exec throws any acts (make capacity config, Log.empty) = Some (s, l) ->
  tracked config s l.
Proof. apply tracked_exec. Qed.

(** A service that is started, given two requests and stopped. *)
Definition quiet (_ : Z) (_ : FlowDecision.t) : bool := false.
Definition demo_request (s : FlowSample.t) : ServiceRequest.t :=
  ServiceRequest.mk RequestKind.Evidence s (FlowSample.flow s) (FlowSample.flow_generation s)
    (TickSpan.end_ (FlowSample.span s)).
Definition demo_requests : list ServiceRequest.t := [demo_request (stream_sample 1 500); demo_request (stream_sample 2 500)].
Definition busy_actions : list Action := [Start true; Proceed 0] ++ (Submit <$> demo_requests) ++ [Work; Stop].
Definition stopping_actions : list Action := [Work; Submit (demo_request (stream_sample 3 500)); Work; Work; Work; Work].
Definition demo_actions : list Action := busy_actions ++ stopping_actions ++ [Proceed 0; Proceed 0].
Definition demo_service : t := make 8 demo_config.
Definition demo_end : option (t * Log.t) := Eval vm_compute in exec quiet drained demo_actions (demo_service, Log.empty).
Lemma demo_end_eq : exec quiet drained demo_actions (demo_service, Log.empty) = demo_end.
Proof. vm_compute. reflexivity. Qed.
Lemma demo_any_eq : exec quiet any demo_actions (demo_service, Log.empty) = demo_end.
Proof. vm_compute. reflexivity. Qed.

Lemma service_tracks_requests_witness :
  exists s l, demo_end = Some (s, l) /\ Log.accepted l = demo_requests /\ tracked demo_config s l.
Proof.
  pose proof demo_any_eq as E. assert (H : demo_end <> None) by (vm_compute; discriminate).
  assert (Ha : (Log.accepted ∘ snd <$> demo_end) = Some demo_requests) by (vm_compute; reflexivity).
  destruct demo_end as [[s l]|]; [|destruct (H eq_refl)]. exists s, l. split; [reflexivity|].
  split; [by injection Ha|].
  exact (service_tracks_requests quiet 8 demo_config demo_actions s l ltac:(lia) E).
Defined.

(** C12: When the service has come to rest after any number of starts and stops, called one
    after the other, and no [cancel], with submitters and worker interleaved in any way: every
    request that was accepted has been processed, in the order of acceptance, and the governor
    is the fresh one after exactly these; the queue is empty and the thread joined. *)
Theorem stop_drains throws capacity config acts s l :
  0 <= capacity -> exec throws drained acts (make capacity config, Log.empty) = Some (s, l) ->
  callers s = [] -> state_ s = ServiceState.Stopped ->
  Log.processed l = Log.accepted l /\
  governor_ s = gov_run (op_of_request <$> Log.accepted l) (Governor.make config) /\
  ServiceStats.processed (stats_ s) = ServiceStats.submitted (stats_ s) /\
  queue_ s = [] /\ worker_ s = NoThread.
Proof.
  intros Hc E Hcs Hst. pose proof (tracked_exec throws _ _ _ _ _ _ Hc E) as Ht.
  pose proof (drained_exec throws _ _ _ _ _ E) as Hd.
  pose proof (orderly_exec throws drained _ _ _ _ _ drained_in_turn E) as Ho.
  unfold orderly in Ho. rewrite Hcs in Ho. destruct Ho as [(_ & Hrun & _)|(_ & Hw & Hq & _)]; [congruence|].
  destruct Ht as [H1 H2 H3 _ H5 H6]. unfold in_flight in *. rewrite Hw, Hq, Hd, ?app_nil_r in *.
  assert (Heq : Log.processed l = Log.accepted l).
  { apply sublist_full; [done|]. by rewrite H1. }
  rewrite H3, H5, H6, Heq. done.
Qed.

Lemma stop_drains_witness :
  exists s l, demo_end = Some (s, l) /\ Log.accepted l = demo_requests /\
  Log.processed l = Log.accepted l /\
  governor_ s = gov_run (op_of_request <$> Log.accepted l) (Governor.make demo_config) /\
  ServiceStats.processed (stats_ s) = ServiceStats.submitted (stats_ s) /\
  queue_ s = [] /\ worker_ s = NoThread.
Proof.
  pose proof demo_end_eq as E. assert (H : demo_end <> None) by (vm_compute; discriminate).
  assert (Ha : ((fun w => (Log.accepted w.2, callers w.1, state_ w.1)) <$> demo_end) =
    Some (demo_requests, [], ServiceState.Stopped)) by (vm_compute; reflexivity).
  destruct demo_end as [[s l]|]; [|destruct (H eq_refl)]. exists s, l. split; [reflexivity|].
  injection Ha as Ha Hc Hs. split; [done|].
  exact (stop_drains quiet 8 demo_config demo_actions s l ltac:(lia) E Hc Hs).
Defined.

(** C13: [stop] and [cancel] return, when the calls that start and end the service ([start],
    [stop], [cancel], [~GovernorService]) are made one after the other; submissions and the worker are
    interleaved with them in any way. In every state the service can reach so, a caller that waits
    for the worker, or is past that, does not wait for ever: some thread can take a step,
    submissions are refused, and in whatever order worker, submitters and that caller go on, the
    caller has returned after at most two steps per queued request and five more. *)
Theorem stop_returns throws capacity config acts0 s l :
  exec throws in_turn acts0 (make capacity config, Log.empty) = Some (s, l) -> returning s ->
  (is_Some (step throws Work (s, l)) \/ is_Some (step throws (Proceed 0) (s, l))) /\
  (steps_left s <= 2 * length (queue_ s) + 5)%nat /\
  forall acts w, exec throws in_turn acts (s, l) = Some w ->
  (steps_left s <= length (List.filter counted acts))%nat ->
  exists acts1 acts2 w1, acts = acts1 ++ acts2 /\ exec throws in_turn acts1 (s, l) = Some w1 /\
  callers w1.1 = [].
Proof.
  intros E Hr. pose proof (orderly_exec throws in_turn _ _ _ _ _ (fun _ _ H => H) E) as Ho.
  split; [by apply returning_enabled|]. split.
  { unfold steps_left, work_left. destruct (callers s) as [|[] []]; destruct (worker_ s); lia. }
  clear E. intros acts. revert s l Ho Hr.
  induction acts as [|a acts IH]; intros s l Ho Hr w E Hn; cbn [exec List.filter] in E, Hn.
  { exfalso. unfold steps_left, returning in *. cbn in Hn. destruct (callers s) as [|[] []]; try done; lia. }
  destruct (in_turn a (s, l).1) eqn:Ha; [|done]. destruct (step throws a (s, l)) as [[s1 l1]|] eqn:Es; [|done].
  destruct (returning_step throws a s l s1 l1 Ho Hr Ha Es) as [[Hr1 Hs1]|[Hc Hs1]].
  - destruct (IH s1 l1 (orderly_step throws a s l s1 l1 Ho Ha Es) Hr1 w E) as (acts1 & acts2 & w1 & -> & E1 & Hw1).
    { destruct (counted a); cbn [length] in Hn; lia. }
    exists (a :: acts1), acts2, w1. split; [done|]. split; [|done]. cbn [exec]. by rewrite Ha, Es.
  - exists [a], acts, (s1, l1). split; [done|]. split; [|done]. cbn [exec]. by rewrite Ha, Es.
Qed.

Definition demo_stopping : option (t * Log.t) :=
  Eval vm_compute in exec quiet in_turn busy_actions (demo_service, Log.empty).
Lemma demo_stopping_eq : exec quiet in_turn busy_actions (demo_service, Log.empty) = demo_stopping.
Proof. vm_compute. reflexivity. Qed.

Lemma stop_returns_witness :
  exists s l, demo_stopping = Some (s, l) /\ returning s /\ (steps_left s <= 2 * length (queue_ s) + 5)%nat /\
  exists acts1 acts2 w1, stopping_actions ++ [Proceed 0; Proceed 0] = acts1 ++ acts2 /\
  exec quiet in_turn acts1 (s, l) = Some w1 /\ callers w1.1 = [].
Proof.
  pose proof demo_stopping_eq as E. assert (H : demo_stopping <> None) by (vm_compute; discriminate).
  assert (Hrun : (w ← demo_stopping; exec quiet in_turn (stopping_actions ++ [Proceed 0; Proceed 0]) w) <> None)
    by (vm_compute; discriminate).
  assert (Hr : match demo_stopping with Some w => returning w.1 /\ steps_left w.1 = 7%nat | None => False end)
    by (vm_compute; auto).
  destruct demo_stopping as [[s l]|]; [|destruct (H eq_refl)]. destruct Hr as [Hr Hs]. cbn [fst] in Hr, Hs.
  destruct (stop_returns quiet 8 demo_config busy_actions s l E Hr) as (_ & Hle & Hall).
  exists s, l. split; [reflexivity|]. split; [exact Hr|]. split; [exact Hle|].
  cbn [mbind option_bind] in Hrun.
  destruct (exec quiet in_turn (stopping_actions ++ [Proceed 0; Proceed 0]) (s, l)) as [w|] eqn:Ew;
    [|destruct (Hrun eq_refl)].
  apply (Hall _ w Ew). rewrite Hs. vm_compute. lia.
Defined.

(** [stop] can lose an accepted request. [start] makes the service accept work before it
    creates the thread: a [stop] from another thread in between finds nothing to join and clears
    the queue. Both calls report success; the request was accepted and is neither processed nor
    counted as cancelled. *)
Theorem stop_races_start :
  exists s l, exec quiet any [Start true; Submit (demo_request (stream_sample 1 500)); Stop; Proceed 1; Proceed 1]
    (demo_service, Log.empty) = Some (s, l) /\
  Log.accepted l = [demo_request (stream_sample 1 500)] /\ Log.processed l = [] /\
  Log.discarded l = Log.accepted l /\ queue_ s = [] /\ state_ s = ServiceState.Stopped /\
  ServiceStats.submitted (stats_ s) = 1 /\ ServiceStats.processed (stats_ s) = 0 /\
  ServiceStats.cancelled (stats_ s) = 0.
Proof. eexists _, _. split; [vm_compute; reflexivity|]. vm_compute. split_and!; reflexivity. Qed.
