(* ===== verification/Text.v ===== *)
(** * Text utilities ([include/efg/text.hpp], [src/text.cpp])

    Strings are lists of bytes. A function that appends to its argument returns the longer
    list. [append_json_number], which renders floating point values, is in Double.v. *)
From Stdlib Require Import String Ascii.
From S2P Require Import Prelude Checked Tick.

#[local] Open Scope string_scope.
#[local] Open Scope list_scope.
#[local] Open Scope Z_scope.

Definition kMaxNameBytes : Z := 128.

(** The bytes of a string literal. *)
Definition text (s : string) : list Z := (fun a => Z.of_N (N_of_ascii a)) <$> list_ascii_of_string s.

Definition kQuote : Z := 34.
Definition kBackslash : Z := 92.
Definition kNewline : Z := 10.

Definition hex_digit (value : Z) : Z := if value <? 10 then 48 + value else 97 + (value - 10).

(** ** Numbers *)

(** The loop that fills [scratch] from its end; its twenty bytes are the fuel. *)
Fixpoint digits_loop (fuel : nat) (value : Z) (scratch : list Z) : list Z :=
  match fuel with
  | O => scratch
  | S fuel =>
      if value =? 0 then scratch
      else digits_loop fuel (value / 10) ((48 + value mod 10) :: scratch)
  end.

Definition append_u64 (out : list Z) (value : Z) : list Z :=
  if value =? 0 then out ++ [48] else out ++ digits_loop 20 value [].

Definition append_i64 (out : list Z) (value : Z) : list Z :=
  if value <? 0 then
    let magnitude := wrap 64 (wrap 64 (- (value + 1)) + 1) in
    append_u64 (out ++ [45]) magnitude
  else append_u64 out (wrap 64 value).

Definition to_decimal (value : Z) : list Z := append_u64 [] value.

(** [scale *= 10u] as often as there are decimals. *)
Fixpoint scale_of (decimals : nat) (scale : Z) : Z :=
  match decimals with O => scale | S decimals => scale_of decimals (wrap 64 (scale * 10)) end.

(** [None]: the scale has wrapped to zero and the division is undefined. *)
Definition to_fixed (value : Z) (decimals : nat) : option (list Z) :=
  if (decimals =? 0)%nat then Some (append_u64 [] value)
  else
  let scale := scale_of decimals 1 in
  if scale =? 0 then None
  else
  let out := append_u64 [] (value / scale) ++ [46] in
  let digits := to_decimal (value mod scale) in
  Some (out ++ replicate (decimals - length digits) 48 ++ digits).

(** Two decimals: the division is defined. *)
Definition to_percent (bp : Z) : list Z :=
  match to_fixed bp 2 with Some out => out ++ [37] | None => [] end.

(** ** JSON *)

Definition json_escape (uc : Z) : list Z :=
  if uc =? 34 then [kBackslash; kQuote]
  else if uc =? 92 then [kBackslash; kBackslash]
  else if uc =? 8 then [kBackslash; 98]
  else if uc =? 12 then [kBackslash; 102]
  else if uc =? 10 then [kBackslash; 110]
  else if uc =? 13 then [kBackslash; 114]
  else if uc =? 9 then [kBackslash; 116]
  else if uc <? 0x20 then
    [kBackslash; 117; 48; 48; hex_digit (Z.land (Z.shiftr uc 4) 0x0F); hex_digit (Z.land uc 0x0F)]
  else [uc].

Definition append_json_string (out : list Z) (s : list Z) : list Z :=
  foldl (fun out c => out ++ json_escape c) (out ++ [kQuote]) s ++ [kQuote].

(** ** Slices *)

(** [text[cut]] where [cut] is below the size. *)
Definition byte_at (s : list Z) (cut : nat) : Z := nth cut s 0.
Definition is_continuation (b : Z) : bool := Z.land b 0xC0 =? 0x80.

Fixpoint cut_loop (s : list Z) (cut : nat) : nat :=
  match cut with
  | O => O
  | S below => if is_continuation (byte_at s cut) then cut_loop s below else cut
  end.

Definition truncate_utf8 (s : list Z) (max_bytes : nat) : list Z :=
  if (length s <=? max_bytes)%nat then s else take (cut_loop s max_bytes) s.

(** [text.find(delimiter, start)] *)
Definition find_from (s : list Z) (delimiter : Z) (start : nat) : option nat :=
  (fun p => start + fst p)%nat <$> list_find (fun c => c = delimiter) (drop start s).

(** Every turn but the last moves [start] past a delimiter: one turn more than there are bytes
    is enough. *)
Fixpoint split_loop (fuel : nat) (s : list Z) (delimiter : Z) (start : nat) (out : list (list Z)) : list (list Z) :=
  match fuel with
  | O => out
  | S fuel =>
      match find_from s delimiter start with
      | None => out ++ [drop start s]
      | Some position =>
          split_loop fuel s delimiter (position + 1) (out ++ [take (position - start) (drop start s)])
      end
  end.
Definition split (s : list Z) (delimiter : Z) : list (list Z) := split_loop (S (length s)) s delimiter 0 [].

(** ** Parsing *)

Fixpoint parse_digits (s : list Z) (value : Z) : option Z :=
  match s with
  | [] => Some value
  | c :: s =>
      if (c <? 48) || (c >? 57) then None
      else
      let digit := c - 48 in
      if value >? (u64_max - digit) / 10 then None
      else parse_digits s (wrap 64 (wrap 64 (value * 10) + digit))
  end.

Definition parse_u64 (s : list Z) : option Z :=
  if bool_decide (s = []) || (size_of s >? 20) then None else parse_digits s 0.

Definition parse_label (s : list Z) : option (list Z) :=
  if size_of s >? kMaxNameBytes then None
  else if existsb (fun uc => (uc <? 0x20) || (uc =? 0x7F)) s then None
  else Some s.

Definition is_identifier (s : list Z) : bool :=
  if bool_decide (s = []) || (size_of s >? kMaxNameBytes) then false
  else
  forallb (fun c => ((97 <=? c) && (c <=? 122)) || ((65 <=? c) && (c <=? 90)) || ((48 <=? c) && (c <=? 57)) ||
                    (c =? 95) || (c =? 45) || (c =? 46)) s.

Definition render_tick (tick : Tick) : list Z := append_u64 (text "t") tick.
