(* ===== verification/TextFacts.v ===== *)
(** * What text says

    Decimal numerals and their parser, fixed point values, field splitting and truncation,
    each against what it means. *)
From Stdlib Require Import String.
From S2P Require Import Prelude Checked Tick Text.

#[local] Open Scope string_scope.
#[local] Open Scope list_scope.
#[local] Open Scope Z_scope.

(** ** Numerals *)

Definition ascii_ok (c : Z) : Prop := 0 <= c < 128.
Definition is_digit (c : Z) : Prop := 48 <= c <= 57.
Definition digits (s : list Z) : Prop := Forall is_digit s.

(** The number a string of digits denotes, continuing from [v]. *)
Definition numeral_from (v : Z) (s : list Z) : Z := foldl (fun v c => v * 10 + (c - 48)) v s.
Definition numeral (s : list Z) : Z := numeral_from 0 s.

Lemma numeral_from_shift s : forall v, numeral_from v s = v * 10 ^ Z.of_nat (length s) + numeral s.
Proof.
  induction s as [|c s IH]; intros v; unfold numeral; cbn [numeral_from foldl length].
  - unfold numeral_from. cbn. lia.
  - fold (numeral_from (v * 10 + (c - 48)) s) (numeral_from (0 * 10 + (c - 48)) s).
    rewrite IH, (IH (0 * 10 + (c - 48))), Nat2Z.inj_succ, Z.pow_succ_r by lia. lia.
Qed.

Lemma numeral_snoc s c : numeral (s ++ [c]) = numeral s * 10 + (c - 48).
Proof. unfold numeral, numeral_from. by rewrite foldl_app. Qed.

Lemma numeral_bounds s : digits s -> 0 <= numeral s < 10 ^ Z.of_nat (length s).
Proof.
  induction s as [|c s IH] using rev_ind; intros Hs; [done|].
  apply Forall_app in Hs as [Hs Hc]. apply Forall_cons in Hc as [Hc _]. unfold is_digit in Hc. specialize (IH Hs).
  rewrite numeral_snoc, length_app. cbn [length]. rewrite Nat2Z.inj_add, Z.pow_add_r by lia. change (10 ^ Z.of_nat 1) with 10. lia.
Qed.

(** ** Rendering *)

(** No leading zeros, and nothing at all for zero. *)
Definition leading (value : Z) (ds : list Z) : Prop :=
  if value =? 0 then ds = [] else exists c cs, ds = c :: cs /\ c <> 48.

Lemma digits_loop_spec fuel : forall value scratch, 0 <= value < 10 ^ Z.of_nat fuel ->
  exists ds, digits_loop fuel value scratch = ds ++ scratch /\ digits ds /\ numeral ds = value /\
  leading value ds /\ (length ds <= fuel)%nat.
Proof.
  unfold leading. induction fuel as [|fuel IH]; intros value scratch Hv; cbn [digits_loop].
  { exists []. change (10 ^ Z.of_nat 0) with 1 in Hv. assert (value = 0) as -> by lia. split_and!; [done|constructor|done|done|done]. }
  destruct (Z.eqb_spec value 0) as [->|Hz]; [exists []; split_and!; [done|constructor|done|done|cbn; lia]|].
  rewrite Nat2Z.inj_succ, Z.pow_succ_r in Hv by lia.
  pose proof (Z.mod_pos_bound value 10 ltac:(lia)) as Hm. pose proof (Z.div_mod value 10 ltac:(lia)) as Hd.
  destruct (IH (value / 10) ((48 + value mod 10) :: scratch)) as (ds & -> & Hds & Hn & Hlead & Hlen).
  { split; [apply Z.div_pos; lia|]. apply Z.div_lt_upper_bound; lia. }
  exists (ds ++ [48 + value mod 10]). rewrite <- app_assoc. split; [done|].
  split; [apply Forall_app; split; [done|]; repeat constructor; unfold is_digit; lia|].
  rewrite numeral_snoc, Hn. split; [lia|]. rewrite length_app. split; [|cbn; lia].
  destruct (Z.eqb_spec (value / 10) 0) as [Hq|Hq].
  - subst ds. eexists _, _. split; [reflexivity|lia].
  - destruct Hlead as (c & cs & -> & Hc). by exists c, (cs ++ [48 + value mod 10]).
Qed.

(** What [to_decimal] writes for a 64 bit value. *)
Lemma to_decimal_spec value : u64_ok value ->
  digits (to_decimal value) /\ numeral (to_decimal value) = value /\ (1 <= length (to_decimal value) <= 20)%nat /\
  (forall c cs, to_decimal value = c :: cs -> c = 48 -> cs = []).
Proof.
  intros Hv. unfold to_decimal, append_u64. destruct (Z.eqb_spec value 0) as [->|Hz].
  { repeat split; [repeat constructor; unfold is_digit; lia|cbn; lia..|]. intros c cs. cbn. congruence. }
  destruct (digits_loop_spec 20 value []) as (ds & -> & Hd & Hn & Hl & Hlen).
  { unfold in_range in Hv. change (10 ^ Z.of_nat 20) with 100000000000000000000. lia. }
  rewrite app_nil_r. cbn [app]. unfold leading in Hl. destruct (Z.eqb_spec value 0); [done|]. destruct Hl as (c & cs & -> & Hc).
  repeat split; [done..|cbn; lia|done|]. intros c' cs' [= -> ->]. done.
Qed.

Lemma append_decimal out value : append_u64 out value = out ++ to_decimal value.
Proof. unfold to_decimal, append_u64. by destruct (value =? 0). Qed.

(** ** Parsing *)

Lemma parse_digits_value s : digits s -> forall v, u64_ok v ->
  parse_digits s v = if numeral_from v s <=? u64_max then Some (numeral_from v s) else None.
Proof.
  induction 1 as [|c s Hc Hs IH]; intros v Hv; cbn [parse_digits].
  { unfold numeral_from. cbn [foldl]. replace (v <=? u64_max) with true; [done|]. unfold u64_max in *. ulia. }
  unfold is_digit in Hc. replace ((c <? 48) || (c >? 57)) with false by lia. cbn zeta.
  change (numeral_from v (c :: s)) with (numeral_from (v * 10 + (c - 48)) s).
  pose proof (numeral_from_shift s (v * 10 + (c - 48))) as Hshift. pose proof (numeral_bounds s Hs) as Hb.
  assert (Hp : 1 <= 10 ^ Z.of_nat (length s)) by (apply (Z.pow_le_mono_r 10 0); lia).
  pose proof (Z.mul_div_le (u64_max - (c - 48)) 10 ltac:(lia)) as Hq.
  pose proof (Z.mod_pos_bound (u64_max - (c - 48)) 10 ltac:(lia)) as Hr. pose proof (Z.div_mod (u64_max - (c - 48)) 10 ltac:(lia)) as Hdm.
  unfold in_range in Hv. change u64_max with 18446744073709551615 in *.
  destruct (v >? _) eqn:E.
  - replace (numeral_from _ s <=? _) with false; [done|]. symmetry. apply Z.leb_gt. rewrite Hshift. nia.
  - unfold wrap. rewrite (Z.mod_small (v * 10)), Z.mod_small by lia. apply IH. unfold in_range. lia.
Qed.

Lemma parse_digits_only s : forall v n, parse_digits s v = Some n -> digits s.
Proof.
  induction s as [|c s IH]; intros v n E; cbn [parse_digits] in E; [constructor|].
  destruct ((c <? 48) || (c >? 57)) eqn:Ec; [done|]. cbn zeta in E. destruct (v >? _); [done|].
  constructor; [unfold is_digit; lia|by eapply IH].
Qed.

Lemma parse_u64_spec s n :
  parse_u64 s = Some n <-> digits s /\ 1 <= size_of s <= 20 /\ numeral s = n /\ n <= u64_max.
Proof.
  unfold parse_u64. destruct s as [|c s]; [rewrite bool_decide_true by done; unfold size_of; cbn; split; [done|lia]|].
  rewrite bool_decide_false by done. cbn [orb]. assert (Hsz : 1 <= size_of (c :: s)) by (unfold size_of; cbn [length]; lia).
  destruct (size_of (c :: s) >? 20) eqn:E; [split; [done|lia]|]. split.
  - intros Hp. pose proof (parse_digits_only _ _ _ Hp) as Hd. rewrite parse_digits_value in Hp by (done || ulia).
    change (numeral_from 0 (c :: s)) with (numeral (c :: s)) in Hp. destruct (numeral _ <=? _) eqn:El; [|done].
    injection Hp as <-. split; [done|lia].
  - intros (Hd & _ & <- & Hm). rewrite parse_digits_value by (done || ulia). change (numeral_from 0 (c :: s)) with (numeral (c :: s)).
    by replace (numeral _ <=? _) with true by lia.
Qed.

(** ** Fixed point *)

Lemma scale_of_spec decimals : forall scale, 0 <= scale -> scale * 10 ^ Z.of_nat decimals < 2 ^ 64 ->
  scale_of decimals scale = scale * 10 ^ Z.of_nat decimals.
Proof.
  induction decimals as [|decimals IH]; intros scale H0 Hm; cbn [scale_of]; [cbn; lia|].
  rewrite Nat2Z.inj_succ, Z.pow_succ_r in * by lia.
  assert (Hp : 1 <= 10 ^ Z.of_nat decimals) by (apply (Z.pow_le_mono_r 10 0); lia).
  unfold wrap. rewrite Z.mod_small by nia. rewrite IH; lia.
Qed.

Lemma replicate_digits n s : digits s -> digits (replicate n 48 ++ s).
Proof. intros Hs. apply Forall_app. split; [|done]. apply Forall_replicate. unfold is_digit. lia. Qed.

Lemma numeral_padded n s : numeral (replicate n 48 ++ s) = numeral s.
Proof. unfold numeral, numeral_from. rewrite foldl_app. f_equal. by induction n. Qed.

(** As few digits as the value allows. *)
Lemma to_decimal_short value d : (0 < d)%nat -> 0 <= value < 10 ^ Z.of_nat d -> u64_ok value -> (length (to_decimal value) <= d)%nat.
Proof.
  intros Hd Hv Hu. destruct (to_decimal_spec value Hu) as (Hdig & Hn & Hl & Hlead).
  destruct (to_decimal value) as [|c cs] eqn:E; [cbn; lia|].
  destruct (Z.eq_dec c 48) as [->|Hc]; [rewrite (Hlead _ _ eq_refl eq_refl); cbn; lia|].
  apply Forall_cons in Hdig as [Hc2 Hcs]. unfold is_digit in Hc2. unfold numeral in Hn.
  change (numeral_from 0 (c :: cs)) with (numeral_from (0 * 10 + (c - 48)) cs) in Hn.
  rewrite numeral_from_shift in Hn. pose proof (numeral_bounds cs Hcs).
  destruct (Nat.le_gt_cases d (length cs)) as [Hle|]; [|cbn; lia].
  exfalso. assert (10 ^ Z.of_nat d <= 10 ^ Z.of_nat (length cs)) by (apply Z.pow_le_mono_r; lia). nia.
Qed.

Lemma to_fixed_spec value d : u64_ok value -> (0 < d < 20)%nat ->
  exists frac, to_fixed value d = Some (to_decimal (value / 10 ^ Z.of_nat d) ++ [46] ++ frac) /\
  digits frac /\ length frac = d /\ numeral frac = value mod 10 ^ Z.of_nat d.
Proof.
  intros Hv Hd. unfold to_fixed. destruct (Nat.eqb_spec d 0); [lia|].
  assert (Hpow : 10 ^ Z.of_nat d <= 10 ^ 19) by (apply Z.pow_le_mono_r; lia).
  assert (Hp : 1 <= 10 ^ Z.of_nat d) by (apply (Z.pow_le_mono_r 10 0); lia). change (10 ^ 19) with 10000000000000000000 in Hpow.
  rewrite scale_of_spec by lia. rewrite Z.mul_1_l. cbn zeta. destruct (Z.eqb_spec (10 ^ Z.of_nat d) 0); [lia|].
  set (scale := 10 ^ Z.of_nat d) in *. pose proof (Z.mod_pos_bound value scale ltac:(lia)) as Hm.
  assert (Hu : u64_ok (value mod scale)) by (unfold in_range; lia).
  destruct (to_decimal_spec _ Hu) as (Hdig & Hn & _). pose proof (to_decimal_short (value mod scale) d ltac:(lia) Hm Hu) as Hlen.
  exists (replicate (d - length (to_decimal (value mod scale))) 48 ++ to_decimal (value mod scale)).
  split; [f_equal; rewrite append_decimal; by rewrite <- app_assoc|]. split; [by apply replicate_digits|].
  split; [rewrite length_app, length_replicate; lia|by rewrite numeral_padded].
Qed.

(** ** Splitting *)

Fixpoint join (delimiter : Z) (fields : list (list Z)) : list Z :=
  match fields with
  | [] => []
  | [f] => f
  | f :: fields => f ++ delimiter :: join delimiter fields
  end.

Lemma split_loop_out fuel : forall s delimiter start out,
  split_loop fuel s delimiter start out = out ++ split_loop fuel s delimiter start [].
Proof.
  induction fuel as [|fuel IH]; intros s delimiter start out; cbn [split_loop]; [by rewrite app_nil_r|].
  destruct (find_from s delimiter start); [|done]. rewrite IH, (IH s delimiter _ ([] ++ _)). by rewrite <- app_assoc.
Qed.

Lemma find_from_split s delimiter start :
  match find_from s delimiter start with
  | None => delimiter ∉ drop start s
  | Some position => exists field, drop start s = field ++ delimiter :: drop (position + 1) s /\ delimiter ∉ field /\
      take (position - start) (drop start s) = field /\ (start <= position)%nat
  end.
Proof.
  unfold find_from. destruct (list_find _ (drop start s)) as [[i c]|] eqn:E; cbn [fmap option_fmap option_map fst].
  - apply list_find_Some in E as (Hi & -> & Hno). exists (take i (drop start s)).
    split_and!; [|intros Hin; apply list_elem_of_lookup in Hin as [j Hj]; apply lookup_take_Some in Hj as [Hj Hlt]; by eapply Hno|f_equal; lia|lia].
    rewrite <- (take_drop_middle _ _ _ Hi) at 1. by rewrite drop_drop, Nat.add_1_r, Nat.add_succ_r.
  - apply list_find_None in E. intros Hin. rewrite Forall_forall in E. by eapply E.
Qed.

Lemma join_cons delimiter f fields : fields <> [] -> join delimiter (f :: fields) = f ++ delimiter :: join delimiter fields.
Proof. by destruct fields. Qed.

Lemma split_loop_spec fuel : forall s delimiter start, (length (drop start s) < fuel)%nat ->
  let fields := split_loop fuel s delimiter start [] in
  fields <> [] /\ join delimiter fields = drop start s /\ Forall (fun f => delimiter ∉ f) fields.
Proof.
  induction fuel as [|fuel IH]; intros s delimiter start Hl; [lia|]. cbn [split_loop]. cbv zeta.
  pose proof (find_from_split s delimiter start) as Hf. destruct (find_from s delimiter start) as [position|].
  - destruct Hf as (field & Hd & Hno & -> & Hle). cbn [app]. rewrite split_loop_out.
    destruct (IH s delimiter (position + 1)%nat) as (Hn & Hj & Ha).
    { rewrite Hd, length_app in Hl. cbn [length] in Hl. lia. }
    cbn [app]. rewrite join_cons by done. split; [done|]. split; [by rewrite Hj, Hd|by constructor].
  - cbn [app]. split; [done|]. split; [done|]. by constructor.
Qed.

(** Fields are determined by the text. *)
Lemma join_inj delimiter : forall fields fields', fields <> [] -> fields' <> [] ->
  Forall (fun f => delimiter ∉ f) fields -> Forall (fun f => delimiter ∉ f) fields' ->
  join delimiter fields = join delimiter fields' -> fields = fields'.
Proof.
  assert (Hfirst : forall (f g r r' : list Z), delimiter ∉ f -> delimiter ∉ g -> f ++ delimiter :: r = g ++ delimiter :: r' -> f = g /\ r = r').
  { induction f as [|c f IH]; intros [|c' g] r r' Hf Hg E; cbn in E.
    - by injection E.
    - exfalso. apply Hg. injection E as <- _. constructor.
    - exfalso. apply Hf. injection E as -> _. constructor.
    - injection E as -> E. apply IH in E as [-> ->]; [done|intros ?; apply Hf; by constructor|intros ?; apply Hg; by constructor]. }
  assert (Hlast : forall (f g r : list Z), delimiter ∉ f -> f = g ++ delimiter :: r -> False).
  { intros f g r Hf ->. apply Hf. apply elem_of_app. right. constructor. }
  induction fields as [|f fields IH]; intros fields' Hn Hn' Ha Ha' E; [done|]. destruct fields' as [|g fields']; [done|].
  apply Forall_cons in Ha as [Hf Ha]. apply Forall_cons in Ha' as [Hg Ha'].
  destruct fields as [|f2 fields], fields' as [|g2 fields'].
  - cbn in E. by subst.
  - exfalso. rewrite (join_cons delimiter g) in E by done. exact (Hlast _ _ _ Hf E).
  - exfalso. rewrite (join_cons delimiter f) in E by done. symmetry in E. exact (Hlast _ _ _ Hg E).
  - rewrite !join_cons in E by done. apply Hfirst in E as [-> E]; [|done|done]. f_equal. by apply IH.
Qed.

(** ** Truncation *)

(** A character: one byte that is no continuation, and the continuations after it. *)
Definition character (c : list Z) : Prop :=
  exists lead more, c = lead :: more /\ is_continuation lead = false /\ Forall (fun b => is_continuation b = true) more.

Lemma byte_at_app_r l s k : byte_at (l ++ s) (length l + k) = byte_at s k.
Proof. unfold byte_at. rewrite app_nth2 by lia. f_equal. lia. Qed.

(** From inside a character the loop comes back to its first byte. *)
Lemma cut_loop_back l lead more s k :
  is_continuation lead = false -> Forall (fun b => is_continuation b = true) more -> (k <= length more)%nat ->
  cut_loop (l ++ (lead :: more) ++ s) (length l + k) = length l.
Proof.
  intros Hl Hm. induction k as [|k IH]; intros Hk.
  - rewrite Nat.add_0_r. destruct (length l) as [|n] eqn:E; [done|]. cbn [cut_loop]. rewrite <- E.
    rewrite <- (Nat.add_0_r (length l)), byte_at_app_r. cbn [byte_at nth app]. unfold byte_at. cbn [nth]. by rewrite Hl, Nat.add_0_r.
  - rewrite Nat.add_succ_r. cbn [cut_loop]. rewrite <- Nat.add_succ_r, byte_at_app_r.
    assert (Hb : is_continuation (byte_at ((lead :: more) ++ s) (S k)) = true).
    { unfold byte_at. cbn [app nth]. rewrite app_nth1 by lia. rewrite Forall_forall in Hm. apply Hm.
      apply list_elem_of_In. apply nth_In. lia. }
    rewrite Hb. apply IH. lia.
Qed.

(** Truncation keeps whole characters, as many as fit. *)
Theorem truncation_keeps_characters cs max_bytes : Forall character cs ->
  exists kept dropped, cs = kept ++ dropped /\ truncate_utf8 (mjoin cs) max_bytes = mjoin kept /\
  (length (mjoin kept) <= max_bytes)%nat /\
  match dropped with [] => True | c :: _ => (max_bytes < length (mjoin kept ++ c))%nat end.
Proof.
  intros Hcs. unfold truncate_utf8. destruct (Nat.leb_spec (length (mjoin cs)) max_bytes) as [Hle|Hgt].
  { exists cs, []. by rewrite app_nil_r. }
  assert (H : exists kept c dropped, cs = kept ++ c :: dropped /\ (length (mjoin kept) <= max_bytes < length (mjoin kept ++ c))%nat).
  { clear Hcs. revert max_bytes Hgt. induction cs as [|c cs IH]; intros n Hgt; [cbn in Hgt; lia|].
    destruct (Nat.lt_ge_cases n (length c)) as [Hc|Hc]; [exists [], c, cs; split; [done|]; cbn; lia|].
    change (mjoin (c :: cs)) with (c ++ mjoin cs) in Hgt. rewrite length_app in Hgt.
    destruct (IH (n - length c)%nat) as (kept & d & dropped & -> & Hk); [lia|]. exists (c :: kept), d, dropped. split; [done|].
    change (mjoin (c :: kept)) with (c ++ mjoin kept). rewrite !length_app in *. lia. }
  destruct H as (kept & c & dropped & -> & Hk). exists kept, (c :: dropped). split; [done|].
  apply Forall_app in Hcs as [_ Hcs]. apply Forall_cons in Hcs as [(lead & more & -> & Hl & Hm) _].
  assert (E : mjoin (kept ++ (lead :: more) :: dropped) = mjoin kept ++ (lead :: more) ++ mjoin dropped).
  { rewrite join_app. done. }
  rewrite E. rewrite length_app in Hk. cbn [length] in Hk.
  replace max_bytes with (length (mjoin kept) + (max_bytes - length (mjoin kept)))%nat by lia.
  rewrite cut_loop_back by (done || lia). split; [apply take_app_length|]. rewrite length_app. cbn [length]. lia.
Qed.

(** ** Properties *)

(** Decimal text is exact. Every 64 bit value is written as digits, without leading zeros,
    that [parse_u64] reads back as the value; and [parse_u64] accepts exactly the strings of one
    to twenty digits whose number fits into 64 bits, and answers that number. *)
Theorem decimal_round_trip value s n :
  u64_ok value ->
  parse_u64 (to_decimal value) = Some value /\ (forall cs, to_decimal value = 48 :: cs -> value = 0) /\
  (parse_u64 s = Some n <-> digits s /\ 1 <= size_of s <= 20 /\ numeral s = n /\ n <= u64_max).
Proof.
  intros Hv. destruct (to_decimal_spec value Hv) as (Hd & Hn & Hl & Hlead). split; [|split; [|apply parse_u64_spec]].
  - apply parse_u64_spec. unfold size_of. unfold in_range in Hv. change u64_max with 18446744073709551615. split_and!; [done|lia..].
  - intros cs E. rewrite (Hlead _ _ E eq_refl) in E. rewrite E in Hn. by subst value.
Qed.

Lemma decimal_round_trip_witness :
  parse_u64 (text "18446744073709551615") = Some u64_max /\ parse_u64 (text "18446744073709551616") = None.
Proof.
  destruct (decimal_round_trip u64_max (text "18446744073709551616") 0) as (E & _ & _); [ulia|].
  split; [exact E|reflexivity].
Defined.

(** Fixed point text with up to nineteen decimals is the integer part, a point and exactly that
    many digits of the remainder; beyond the wrap-around of the scale to zero it is undefined. *)
Theorem fixed_point_exact value d :
  u64_ok value -> (0 < d < 20)%nat ->
  exists frac, to_fixed value d = Some (to_decimal (value / 10 ^ Z.of_nat d) ++ [46] ++ frac) /\
  digits frac /\ length frac = d /\ value = value / 10 ^ Z.of_nat d * 10 ^ Z.of_nat d + numeral frac.
Proof.
  intros Hv Hd. destruct (to_fixed_spec value d Hv Hd) as (frac & E & Hf & Hl & Hn). exists frac. split_and!; [done..|].
  rewrite Hn, Z.mul_comm. apply Z.div_mod. assert (1 <= 10 ^ Z.of_nat d) by (apply (Z.pow_le_mono_r 10 0); lia). lia.
Qed.

Example fixed_point_undefined : to_fixed 1 64 = None.
Proof. vm_compute. reflexivity. Qed.

(** Splitting is the inverse of joining with the delimiter. *)
Theorem split_joins s delimiter fields :
  split s delimiter = fields <->
  fields <> [] /\ join delimiter fields = s /\ Forall (fun f => delimiter ∉ f) fields.
Proof.
  assert (H := split_loop_spec (S (length s)) s delimiter 0). rewrite drop_0 in H. specialize (H ltac:(lia)).
  fold (split s delimiter) in H. cbv zeta in H. destruct H as (Hn & Hj & Ha). split; [by intros <-|].
  intros (Hn' & Hj' & Ha'). apply (join_inj delimiter); [done..|congruence].
Qed.
