(* ===== verification/Double.v ===== *)
(** * Floating point values and their text ([append_json_number], [src/text.cpp])

    A [double] is an IEEE 754 binary64 value; its operations are those of the standard
    library's specification of floating point arithmetic, with 53 bits of precision, rounded to
    nearest, ties to even. The program uses them for the two rates of a benchmark result only. *)
From Stdlib Require Import String SpecFloat.
From S2P Require Import Prelude Checked Tick Text TextFacts.

#[local] Open Scope string_scope.
#[local] Open Scope list_scope.
#[local] Open Scope Z_scope.

Module Double.
Definition t : Type := spec_float.
Definition prec : Z := 53.
Definition emax : Z := 1024.

Definition zero : t := S754_zero false.
(** [static_cast<double>(n)], and the value of an integral literal. *)
Definition of_integer (n : Z) : t := binary_normalize prec emax n 0 false.
Definition mul (x y : t) : t := SFmul prec emax x y.
Definition div (x y : t) : t := SFdiv prec emax x y.
Definition opp (x : t) : t := SFopp x.
Definition ltb (x y : t) : bool := SFltb x y.
Definition leb (x y : t) : bool := SFleb x y.

(** The integral part of a finite value that is not negative. *)
Definition truncate (m : positive) (e : Z) : Z :=
  if e <? 0 then Z.shiftr (Zpos m) (- e) else Z.shiftl (Zpos m) e.

(** [static_cast<u64>(x)]; [None] where the conversion is undefined. *)
Definition to_u64 (x : t) : option Z :=
  match x with
  | S754_zero _ => Some 0
  | S754_finite false m e => if truncate m e <=? u64_max then Some (truncate m e) else None
  | S754_finite true m e => if truncate m e =? 0 then Some 0 else None
  | S754_infinity _ | S754_nan => None
  end.

(** Values the type has: the mantissa in its 53 bits. *)
Definition valid (x : t) : Prop :=
  match x with S754_finite _ m _ => Zpos m < 2 ^ prec | _ => True end.
End Double.

(** [None]: an undefined conversion or division. *)
Definition append_json_number (out : list Z) (value : Double.t) (decimals : nat) : option (list Z) :=
  if negb (Double.leb Double.zero value) && negb (Double.ltb value Double.zero)
  then Some (out ++ text "null")
  else if Double.ltb (Double.of_integer (10 ^ 300)) value ||
          Double.ltb value (Double.opp (Double.of_integer (10 ^ 300)))
  then Some (out ++ text "null")
  else
    let '(out, value) := if Double.ltb value Double.zero then (out ++ [45], Double.opp value) else (out, value) in
    let scale := scale_of decimals 1 in
    let scaled := Double.mul value (Double.of_integer scale) in
    if negb (Double.ltb scaled (Double.of_integer 18000000000000000000))
    then Some (out ++ text "null")
    else
      truncated ← Double.to_u64 scaled;
      if (decimals =? 0)%nat then Some (append_u64 out truncated)
      else fixed ← to_fixed truncated decimals; Some (out ++ fixed).

Example number_thirds : append_json_number [] (Double.div (Double.of_integer 1) (Double.of_integer 3)) 2 = Some (text "0.33").
Proof. vm_compute. reflexivity. Qed.
Example number_overflow : append_json_number [] (Double.div (Double.of_integer (2 ^ 63)) (Double.of_integer 1)) 2 = Some (text "null").
Proof. vm_compute. reflexivity. Qed.
Example number_not_a_number : append_json_number [] (Double.div Double.zero Double.zero) 2 = Some (text "null").
Proof. vm_compute. reflexivity. Qed.
Example number_negative : append_json_number [] (Double.opp (Double.div (Double.of_integer 5) (Double.of_integer 2))) 2 = Some (text "-2.50").
Proof. vm_compute. reflexivity. Qed.

(** A negative value too large to be scaled is written as a minus sign and [null], which is no
    JSON; the rates of a benchmark are never negative. *)
Example number_minus_null : append_json_number [] (Double.opp (Double.of_integer (2 ^ 63))) 2 = Some (text "-null").
Proof. vm_compute. reflexivity. Qed.

(** ** Rounding keeps to the precision *)

Lemma digits2_bounds p : 2 ^ (Zpos (digits2_pos p) - 1) <= Zpos p < 2 ^ Zpos (digits2_pos p).
Proof.
  induction p as [p IH|p IH|]; cbn [digits2_pos]; [| |done];
    rewrite Pos2Z.inj_succ; replace (Z.succ (Zpos (digits2_pos p)) - 1) with (Z.succ (Zpos (digits2_pos p) - 1)) by lia;
    rewrite !Z.pow_succ_r by lia; lia.
Qed.

Lemma Zdigits2_bound m : 0 <= m -> m < 2 ^ Zdigits2 m.
Proof. intros Hm. destruct m as [|p|p]; [done|apply digits2_bounds|lia]. Qed.

Lemma shr_1_half m r s : 0 <= m -> shr_m (shr_1 (Build_shr_record m r s)) = m / 2 /\ 0 <= m / 2.
Proof.
  intros Hm. split; [|apply Z.div_pos; lia]. destruct m as [|[p|p|]|p]; cbn [shr_1 shr_m]; [done| | |done|lia].
  - rewrite Pos2Z.inj_xI. symmetry. rewrite Z.add_comm, Z.mul_comm, Z.div_add by lia. done.
  - rewrite Pos2Z.inj_xO, Z.mul_comm, Z.div_mul by lia. done.
Qed.

Lemma shr_iter p : forall mrs, 0 <= shr_m mrs ->
  shr_m (SpecFloat.iter_pos shr_1 p mrs) = shr_m mrs / 2 ^ Zpos p /\ 0 <= shr_m (SpecFloat.iter_pos shr_1 p mrs).
Proof.
  induction p as [p IH|p IH|]; intros mrs Hm; cbn [SpecFloat.iter_pos].
  - destruct mrs as [m r s]. cbn [shr_m] in Hm. destruct (shr_1_half m r s Hm) as [H1 H2].
    destruct (IH (shr_1 (Build_shr_record m r s))) as [H3 H4]; [lia|].
    destruct (IH _ H4) as [H5 H6]. split; [|exact H6]. rewrite H5, H3, H1. cbn [shr_m].
    rewrite !Z.div_div by (try apply Z.mul_pos_pos; try apply Z.pow_pos_nonneg; lia). f_equal.
    replace (Zpos p~1) with (1 + (Zpos p + Zpos p)) by lia. rewrite !Z.pow_add_r by lia. lia.
  - destruct (IH mrs Hm) as [H3 H4]. destruct (IH _ H4) as [H5 H6]. split; [|exact H6]. rewrite H5, H3.
    rewrite Z.div_div by (try apply Z.pow_pos_nonneg; lia). f_equal.
    replace (Zpos p~0) with (Zpos p + Zpos p) by lia. rewrite !Z.pow_add_r by lia. lia.
  - destruct mrs as [m r s]. cbn [shr_m] in Hm. destruct (shr_1_half m r s Hm) as [H1 H2]. rewrite H1. by split.
Qed.

Lemma shr_fexp_bound m e l : 0 <= m ->
  let '(mrs, _) := shr_fexp Double.prec Double.emax m e l in 0 <= shr_m mrs < 2 ^ Double.prec.
Proof.
  intros Hm. unfold shr_fexp, shr. set (n := fexp _ _ _ - e).
  assert (Hn : Zdigits2 m - Double.prec <= n) by (subst n; unfold fexp; lia).
  assert (Hrec : shr_m (shr_record_of_loc m l) = m) by (destruct l as [|[]]; done).
  pose proof (Zdigits2_bound m Hm) as Hd. assert (H0 : 0 <= Zdigits2 m) by (destruct m; cbn; lia).
  destruct n as [|p|p].
  - rewrite Hrec. split; [lia|]. eapply Z.lt_le_trans; [exact Hd|]. apply Z.pow_le_mono_r; unfold Double.prec in *; lia.
  - destruct (shr_iter p (shr_record_of_loc m l)) as [H1 H2]; [lia|]. split; [exact H2|]. rewrite H1, Hrec.
    apply Z.div_lt_upper_bound; [apply Z.pow_pos_nonneg; lia|]. rewrite <- Z.pow_add_r by (unfold Double.prec; lia).
    eapply Z.lt_le_trans; [exact Hd|]. apply Z.pow_le_mono_r; lia.
  - rewrite Hrec. split; [lia|]. eapply Z.lt_le_trans; [exact Hd|]. apply Z.pow_le_mono_r; unfold Double.prec in *; lia.
Qed.

(** What rounding a positive mantissa gives. *)
Definition rounded (s : bool) (x : Double.t) : Prop :=
  match x with
  | S754_finite s' m _ => s' = s /\ Zpos m < 2 ^ Double.prec
  | S754_zero s' | S754_infinity s' => s' = s
  | S754_nan => False
  end.

Lemma round_aux_rounded s m e l : 0 <= m -> rounded s (binary_round_aux Double.prec Double.emax s m e l).
Proof.
  intros Hm. unfold binary_round_aux. pose proof (shr_fexp_bound m e l Hm) as H1.
  destruct (shr_fexp _ _ m e l) as [mrs1 e1].
  set (m2 := round_nearest_even _ _). assert (H2 : 0 <= m2).
  { subst m2. unfold round_nearest_even. destruct (loc_of_shr_record mrs1) as [|[]]; [lia| |lia|lia]. destruct (Z.even _); lia. }
  pose proof (shr_fexp_bound m2 e1 loc_Exact H2) as H3. destruct (shr_fexp _ _ m2 e1 loc_Exact) as [mrs2 e2].
  destruct (shr_m mrs2) as [|p|p]; [done| |lia]. destruct (_ <=? _); [split; [done|lia]|done].
Qed.

Lemma of_integer_rounded n : 0 <= n -> rounded false (Double.of_integer n).
Proof.
  intros Hn. unfold Double.of_integer, binary_normalize. destruct n as [|p|p]; [done| |lia].
  unfold binary_round. destruct (shl_align _ _ _) as [mz ez]. by apply round_aux_rounded.
Qed.

Lemma mul_rounded x y : rounded false x -> rounded false y ->
  rounded false (Double.mul x y) \/ Double.mul x y = S754_nan.
Proof.
  unfold Double.mul. destruct x as [sx|sx| |sx mx ex], y as [sy|sy| |sy my ey]; cbn; try done; auto;
    intros Hx Hy; destruct_and?; subst; auto. left. by apply round_aux_rounded.
Qed.

Lemma div_rounded x y : rounded false x -> rounded false y ->
  rounded false (Double.div x y) \/ Double.div x y = S754_nan.
Proof.
  unfold Double.div. destruct x as [sx|sx| |sx mx ex], y as [sy|sy| |sy my ey]; cbn [SFdiv rounded xorb]; try done; auto;
    intros Hx Hy; destruct_and?; subst; auto. left. unfold SFdiv_core_binary. set (m' := match _ with Z0 => _ | _ => _ end).
  assert (Hm : 0 <= m').
  { subst m'. destruct (ex - ey - _); [lia|by apply Z.shiftl_nonneg|lia]. }
  destruct (Z.div_eucl m' (Zpos my)) as [q r] eqn:E. apply round_aux_rounded.
  pose proof (Z.div_pos m' (Zpos my) Hm ltac:(lia)) as Hq. unfold Z.div in Hq. by rewrite E in Hq.
Qed.

(** ** The text of a value that is not negative *)

Lemma finite_ltb m e m' e' : SFltb (S754_finite false m e) (S754_finite false m' e') = true ->
  e < e' \/ e = e' /\ Zpos m < Zpos m'.
Proof.
  unfold SFltb. cbn [SFcompare]. destruct (Z.compare_spec e e') as [->|H|H]; [|by left|done].
  pose proof (Pos.compare_spec m m') as Hc. unfold Pos.compare in Hc. destruct Hc as [->|H|H]; [done| |done]. intros _. right. lia.
Qed.

Lemma convert_below y : rounded false y -> Double.ltb y (Double.of_integer 18000000000000000000) = true ->
  exists n, Double.to_u64 y = Some n /\ u64_ok n.
Proof.
  change (Double.of_integer 18000000000000000000) with (S754_finite false 8789062500000000 11).
  destruct y as [s|s| |s m e]; cbn [rounded]; intros Hy Hlt; [by exists 0|by subst s|done|]. destruct Hy as [-> Hm].
  assert (Htr : 0 <= Double.truncate m e <= u64_max).
  { apply finite_ltb in Hlt. unfold Double.truncate, Double.prec, u64_max in *. change (2 ^ 53) with 9007199254740992 in Hm.
    destruct (Z.ltb_spec e 0).
    - rewrite Z.shiftr_div_pow2 by lia. assert (1 <= 2 ^ (- e)) by (apply (Z.pow_le_mono_r 2 0); lia).
      split; [apply Z.div_pos; lia|]. apply Z.lt_le_incl, Z.div_lt_upper_bound; lia.
    - rewrite Z.shiftl_mul_pow2 by lia. assert (0 <= 2 ^ e) by lia. split; [lia|].
      destruct Hlt as [Hlt|[-> Hlt]]; [|change (2 ^ 11) with 2048; lia].
      assert (2 ^ e <= 1024) by (apply (Z.pow_le_mono_r 2 e 10); lia).
      pose proof (Z.mul_le_mono_nonneg (Zpos m) 9007199254740992 (2 ^ e) 1024). lia. }
  cbn [Double.to_u64]. replace (Double.truncate m e <=? u64_max) with true by lia.
  exists (Double.truncate m e). split; [done|]. unfold in_range, u64_max in *. lia.
Qed.

(** The value in hundredths, cut off; none when it is not a number or too large. *)
Definition hundredths (value : Double.t) : option Z :=
  if Double.leb Double.zero value && negb (Double.ltb (Double.of_integer (10 ^ 300)) value) &&
     Double.ltb (Double.mul value (Double.of_integer 100)) (Double.of_integer 18000000000000000000)
  then Double.to_u64 (Double.mul value (Double.of_integer 100))
  else None.

Definition fixed_text (n : Z) : list Z := match to_fixed n 2 with Some s => s | None => [] end.
Definition number_text (value : Double.t) : list Z :=
  match hundredths value with Some n => fixed_text n | None => text "null" end.

(** What a rate is: a rounded quotient, or not a number. *)
Definition rate_ok (value : Double.t) : Prop := rounded false value \/ value = S754_nan.

Lemma hundredths_range value n : rate_ok value -> hundredths value = Some n -> u64_ok n.
Proof.
  intros Hv. unfold hundredths. destruct (_ && _) eqn:E; [|done]. apply andb_true_iff in E as [E Hlt]. apply andb_true_iff in E as [Hle _].
  destruct Hv as [Hv| ->]; [|done]. destruct (mul_rounded value (Double.of_integer 100) Hv) as [Hr|Hn]; [by apply of_integer_rounded| |by rewrite Hn in Hlt].
  destruct (convert_below _ Hr Hlt) as (n' & -> & Hn'). by intros [= <-].
Qed.

Lemma not_negative value : rounded false value -> Double.leb Double.zero value = true /\ Double.ltb value Double.zero = false /\
  Double.ltb value (Double.opp (Double.of_integer (10 ^ 300))) = false.
Proof.
  destruct value as [s|s| |s m e]; cbn [rounded]; intros Hv; [|subst s|done|destruct Hv as [-> _]]; vm_compute; auto.
Qed.

(** [append_json_number] is defined for every rate and writes [number_text]. *)
Lemma append_number out value : rate_ok value -> append_json_number out value 2 = Some (out ++ number_text value).
Proof.
  intros [Hv| ->]; [|reflexivity]. destruct (not_negative value Hv) as (H1 & H2 & H3).
  unfold append_json_number, number_text, hundredths. rewrite H1, H2, H3. cbn [negb andb orb].
  rewrite orb_false_r. destruct (Double.ltb (Double.of_integer (10 ^ 300)) value); [done|]. cbn [negb andb].
  change (scale_of 2 1) with 100.
  destruct (Double.ltb (Double.mul value _) _) eqn:Elt; cbn [negb]; [|done].
  destruct (mul_rounded value (Double.of_integer 100) Hv) as [Hr|Hn]; [by apply of_integer_rounded| |by rewrite Hn in Elt].
  destruct (convert_below _ Hr Elt) as (n & -> & Hn). cbn [mbind option_bind Nat.eqb]. unfold fixed_text.
  by destruct (to_fixed_spec n 2 Hn ltac:(lia)) as (frac & -> & _).
Qed.
