(* ===== verification/Json.v ===== *)
(** * A reader of JSON

    Reference definitions: what a string of bytes means as JSON. The grammar is that of
    RFC 8259 for objects, arrays, strings, booleans, [null] and numbers without sign and
    exponent, which is all the program writes. A document has to be well-formed UTF-8 (RFC 3629);
    a string stands for the bytes of its characters. The lemmas say how the meaning of a
    document is put together from the meanings of its parts, whatever the white space. *)
From Stdlib Require Import String.
From S2P Require Import Prelude Checked Tick Hash Text TextFacts.

#[local] Open Scope string_scope.
#[local] Open Scope list_scope.
#[local] Open Scope Z_scope.

(** [JDecimal n places] is [n / 10 ^ places]. *)
Inductive json : Type :=
| JNull
| JBool (b : bool)
| JNumber (n : Z)
| JDecimal (n : Z) (places : nat)
| JString (s : list Z)
| JArray (items : list json)
| JObject (members : list (list Z * json)).

(** ** UTF-8 *)

(** What may come next: a new character, [n + 1] more bytes of the current one, or the second byte
    of one that begins with the byte named, whose range is narrower. *)
Inductive utf8_state : Type :=
| Whole | Tail (n : nat) | AfterE0 | AfterED | AfterF0 | AfterF4 | IllFormed.

Definition between (low high b : Z) : bool := (low <=? b) && (b <=? high).

Definition utf8_step (st : utf8_state) (b : Z) : utf8_state :=
  match st with
  | Whole =>
      if between 0 0x7F b then Whole
      else if between 0xC2 0xDF b then Tail 0
      else if b =? 0xE0 then AfterE0
      else if b =? 0xED then AfterED
      else if between 0xE1 0xEF b then Tail 1
      else if b =? 0xF0 then AfterF0
      else if between 0xF1 0xF3 b then Tail 2
      else if b =? 0xF4 then AfterF4
      else IllFormed
  | Tail O => if between 0x80 0xBF b then Whole else IllFormed
  | Tail (S n) => if between 0x80 0xBF b then Tail n else IllFormed
  | AfterE0 => if between 0xA0 0xBF b then Tail 0 else IllFormed
  | AfterED => if between 0x80 0x9F b then Tail 0 else IllFormed
  | AfterF0 => if between 0x90 0xBF b then Tail 1 else IllFormed
  | AfterF4 => if between 0x80 0x8F b then Tail 1 else IllFormed
  | IllFormed => IllFormed
  end.

Definition utf8_run (st : utf8_state) (s : list Z) : utf8_state := foldl utf8_step st s.
Definition utf8 (s : list Z) : bool := match utf8_run Whole s with Whole => true | _ => false end.

(** ** The reader *)

Definition is_ws (c : Z) : bool := (c =? 32) || (c =? 10) || (c =? 13) || (c =? 9).

Fixpoint skip_ws (s : list Z) : list Z :=
  match s with c :: r => if is_ws c then skip_ws r else s | [] => [] end.

Fixpoint read_literal (word s : list Z) : option (list Z) :=
  match word, s with
  | [], _ => Some s
  | w :: word, c :: s => if c =? w then read_literal word s else None
  | _ :: _, [] => None
  end.

Definition digit (c : Z) : bool := (48 <=? c) && (c <=? 57).

Fixpoint read_digits (v : Z) (s : list Z) : Z * list Z :=
  match s with
  | c :: r => if digit c then read_digits (v * 10 + (c - 48)) r else (v, s)
  | [] => (v, [])
  end.

(** The rest of a number behind its integral part [n]. *)
Definition read_fraction (n : Z) (s : list Z) : option (json * list Z) :=
  match s with
  | c :: f =>
      if c =? 46 then
        let '(m, r) := read_digits n f in
        if (length r <? length f)%nat then Some (JDecimal m (length f - length r), r) else None
      else Some (JNumber n, s)
  | [] => Some (JNumber n, s)
  end.

Definition hex_value (c : Z) : option Z :=
  if digit c then Some (c - 48) else if (97 <=? c) && (c <=? 102) then Some (c - 87)
  else if (65 <=? c) && (c <=? 70) then Some (c - 55) else None.

(** The byte a short escape stands for. *)
Definition unescape (c : Z) : option Z :=
  if c =? 34 then Some 34 else if c =? 92 then Some 92 else if c =? 47 then Some 47
  else if c =? 98 then Some 8 else if c =? 102 then Some 12 else if c =? 110 then Some 10
  else if c =? 114 then Some 13 else if c =? 116 then Some 9 else None.

(** The rest of a string behind its opening quote. *)
Fixpoint read_string (s : list Z) : option (list Z * list Z) :=
  let more b r := (fun p => (b :: fst p, snd p)) <$> r in
  match s with
  | [] => None
  | c :: s =>
      if c =? 34 then Some ([], s)
      else if c =? 92 then
        match s with
        | [] => None
        | e :: s =>
            if e =? 117 then
              match s with
              | z1 :: z2 :: h :: l :: s =>
                  match hex_value h, hex_value l with
                  | Some hi, Some lo => if (z1 =? 48) && (z2 =? 48) && (hi <? 8) then more (16 * hi + lo) (read_string s) else None
                  | _, _ => None
                  end
              | _ => None
              end
            else match unescape e with Some b => more b (read_string s) | None => None end
        end
      else if c <? 32 then None else more c (read_string s)
  end.

(** Items separated by commas up to the closing bracket. *)
Fixpoint sequence {A} (item : list Z -> option (A * list Z)) (close : Z) (n : nat) (s : list Z) : option (list A * list Z) :=
  match n with
  | O => None
  | S n =>
      match item s with
      | None => None
      | Some (x, s) =>
          match skip_ws s with
          | [] => None
          | c :: s =>
              if c =? 44 then (fun p => (x :: fst p, snd p)) <$> sequence item close n s
              else if c =? close then Some ([x], s) else None
          end
      end
  end.

Definition listing {A} (item : list Z -> option (A * list Z)) (close : Z) (n : nat) (s : list Z) : option (list A * list Z) :=
  match skip_ws s with
  | [] => None
  | c :: r => if c =? close then Some ([], r) else sequence item close n s
  end.

Definition member (value : list Z -> option (json * list Z)) (s : list Z) : option ((list Z * json) * list Z) :=
  match skip_ws s with
  | 34 :: s =>
      match read_string s with
      | None => None
      | Some (key, s) =>
          match skip_ws s with
          | 58 :: s => (fun p => ((key, fst p), snd p)) <$> value s
          | _ => None
          end
      end
  | _ => None
  end.

Fixpoint value (fuel : nat) (s : list Z) : option (json * list Z) :=
  match fuel with
  | O => None
  | S fuel =>
      match skip_ws s with
      | [] => None
      | c :: r =>
          if c =? 34 then (fun p => (JString (fst p), snd p)) <$> read_string r
          else if c =? 91 then (fun p => (JArray (fst p), snd p)) <$> listing (value fuel) 93 fuel r
          else if c =? 123 then (fun p => (JObject (fst p), snd p)) <$> listing (member (value fuel)) 125 fuel r
          else if digit c then let '(n, r) := read_digits 0 (c :: r) in read_fraction n r
          else if c =? 116 then (fun r => (JBool true, r)) <$> read_literal [114; 117; 101] r
          else if c =? 102 then (fun r => (JBool false, r)) <$> read_literal [97; 108; 115; 101] r
          else if c =? 110 then (fun r => (JNull, r)) <$> read_literal [117; 108; 108] r
          else None
      end
  end.

(** A whole document; a nesting takes at least two bytes, so its size is enough fuel. *)
Definition read_json (s : list Z) : option json :=
  if negb (utf8 s) then None
  else
  match value (length s) s with
  | Some (v, r) => if bool_decide (skip_ws r = []) then Some v else None
  | None => None
  end.

(** ** Well-formed text *)

Lemma utf8_run_app st a b : utf8_run st (a ++ b) = utf8_run (utf8_run st a) b.
Proof. apply foldl_app. Qed.

Lemma utf8_whole s : utf8 s = true <-> utf8_run Whole s = Whole.
Proof. unfold utf8. by destruct (utf8_run Whole s). Qed.

Lemma utf8_app a b : utf8 a = true -> utf8 (a ++ b) = utf8 b.
Proof. intros Ha%utf8_whole. unfold utf8. by rewrite utf8_run_app, Ha. Qed.

Lemma utf8_ill s : utf8_run IllFormed s = IllFormed.
Proof. by induction s. Qed.

(** An ASCII character is whole, and can only follow whole ones. *)
Lemma utf8_step_ascii st c : ascii_ok c -> utf8_step st c = match st with Whole => Whole | _ => IllFormed end.
Proof.
  unfold ascii_ok, utf8_step, between. intros Hc. destruct st as [|[|n]| | | | |]; split_ifs; try done; lia.
Qed.

Lemma utf8_run_ascii s st : Forall ascii_ok s -> s <> [] -> utf8_run st s = match st with Whole => Whole | _ => IllFormed end.
Proof.
  intros Hs Hne. destruct Hs as [|c s Hc Hs]; [done|]. unfold utf8_run. cbn [foldl]. rewrite utf8_step_ascii by done.
  destruct st; try apply utf8_ill. clear Hne Hc. induction Hs as [|d s Hd _ IH]; [done|]. cbn [foldl]. by rewrite utf8_step_ascii.
Qed.

Lemma ascii_utf8 s : Forall ascii_ok s -> utf8 s = true.
Proof. intros Hs. destruct (decide (s = [])) as [->|Hne]; [done|]. apply utf8_whole. by rewrite utf8_run_ascii. Qed.

Lemma ascii_bytes s : Forall ascii_ok s -> Forall byte_ok s.
Proof. intros Hs. eapply Forall_impl; [exact Hs|]. unfold ascii_ok, byte_ok. intros c. cbn. lia. Qed.

(** Escapes are ASCII; what is not escaped is copied. *)
Lemma escape_ascii c : ascii_ok c -> Forall ascii_ok (json_escape c) /\ json_escape c <> [].
Proof.
  intros Hc. unfold ascii_ok in Hc. assert (Hin : c ∈ Z.of_nat <$> seq 0 128).
  { apply list_elem_of_fmap. exists (Z.to_nat c). rewrite elem_of_seq. lia. }
  assert (H : Forall (fun c => Forall ascii_ok (json_escape c) /\ json_escape c <> []) (Z.of_nat <$> seq 0 128))
    by (apply (bool_decide_eq_true_1 _); vm_compute; reflexivity).
  rewrite Forall_forall in H. by apply H.
Qed.

Lemma escape_high c : 128 <= c -> json_escape c = [c].
Proof.
  intros Hc. unfold json_escape. repeat match goal with |- context [c =? ?k] => replace (c =? k) with false by lia end. by replace (c <? 0x20) with false by lia.
Qed.

Lemma utf8_run_escaped s : Forall byte_ok s -> forall st, utf8_run st (mjoin (json_escape <$> s)) = utf8_run st s.
Proof.
  induction 1 as [|c s Hc _ IH]; intros st; [done|].
  change (mjoin (json_escape <$> c :: s)) with (json_escape c ++ mjoin (json_escape <$> s)).
  rewrite utf8_run_app, IH. change (utf8_run st (c :: s)) with (utf8_run (utf8_step st c) s). f_equal.
  destruct (Z.lt_ge_cases c 128) as [Hlt|Hge]; [|by rewrite escape_high].
  assert (Ha : ascii_ok c) by (unfold byte_ok, ascii_ok in *; lia). destruct (escape_ascii c Ha) as [He Hne].
  by rewrite utf8_run_ascii, utf8_step_ascii.
Qed.

(** ** What documents mean *)

Definition blank (s : list Z) : Prop := Forall (fun c => is_ws c = true) s.
Definition ends (tail : list Z) : Prop := match tail with c :: _ => digit c = false /\ c <> 46 | [] => True end.
(** Not white space, nor the bracket [close]. *)
Definition starts (close : Z) (s : list Z) : Prop := match s with c :: _ => is_ws c = false /\ c <> close | [] => False end.

Definition item_spells {A} (item : list Z -> option (A * list Z)) (bs : list Z) (x : A) : Prop :=
  forall ws tail, blank ws -> ends tail -> item (ws ++ bs ++ tail) = Some (x, tail).

Definition spells (bs : list Z) (v : json) : Prop :=
  starts 93 bs /\ utf8 bs = true /\ forall fuel, (length bs <= fuel)%nat -> item_spells (value fuel) bs v.

Lemma blank_ascii ws : blank ws -> Forall ascii_ok ws.
Proof. intros Hw. eapply Forall_impl; [exact Hw|]. unfold is_ws, ascii_ok. intros c. cbn. lia. Qed.

Lemma skip_blank ws s : blank ws -> skip_ws (ws ++ s) = skip_ws s.
Proof. induction 1 as [|c ws Hc _ IH]; [done|]. cbn. by rewrite Hc. Qed.

Lemma skip_starts close s tail : starts close s -> skip_ws (s ++ tail) = s ++ tail.
Proof. destruct s as [|c s]; [done|]. intros [Hc _]. cbn. by rewrite Hc. Qed.

Lemma blank_ends ws tail : blank ws -> ends tail -> ends (ws ++ tail).
Proof.
  intros Hw Ht. destruct Hw as [|c ws Hc _]; [done|]. cbn. unfold is_ws, digit in *. split; lia.
Qed.

(** *** Strings *)

Lemma read_escaped c s : byte_ok c -> read_string (json_escape c ++ s) = (fun p => (c :: fst p, snd p)) <$> read_string s.
Proof.
  intros Hc. unfold byte_ok in Hc. unfold json_escape.
  destruct (Z.eqb_spec c 34) as [->|]; [done|]. destruct (Z.eqb_spec c 92) as [->|]; [done|].
  destruct (Z.eqb_spec c 8) as [->|]; [done|]. destruct (Z.eqb_spec c 12) as [->|]; [done|].
  destruct (Z.eqb_spec c 10) as [->|]; [done|]. destruct (Z.eqb_spec c 13) as [->|]; [done|].
  destruct (Z.eqb_spec c 9) as [->|]; [done|]. destruct (Z.ltb_spec c 0x20) as [Hlt|Hge].
  - assert (Hin : In c (Z.of_nat <$> seq 0 32)).
    { apply list_elem_of_In, list_elem_of_fmap. exists (Z.to_nat c). rewrite elem_of_seq. lia. }
    cbn in Hin. repeat (destruct Hin as [<-|Hin]; [reflexivity|]). done.
  - cbn [app read_string]. replace (c =? 34) with false by lia. replace (c =? 92) with false by lia.
    by replace (c <? 32) with false by lia.
Qed.

Lemma json_string_bytes out s : append_json_string out s = out ++ [34] ++ mjoin (json_escape <$> s) ++ [34].
Proof.
  unfold append_json_string. assert (H : forall out, foldl (fun out c => out ++ json_escape c) out s = out ++ mjoin (json_escape <$> s)).
  { clear out. induction s as [|c s IH]; intros out; cbn [foldl fmap list_fmap]; [by rewrite app_nil_r|]. by rewrite IH, <- app_assoc. }
  rewrite H, <- !app_assoc. done.
Qed.

Lemma read_string_bytes s tail : Forall byte_ok s -> read_string (mjoin (json_escape <$> s) ++ 34 :: tail) = Some (s, tail).
Proof.
  induction 1 as [|c s Hc _ IH]; [done|]. change (mjoin (json_escape <$> c :: s)) with (json_escape c ++ mjoin (json_escape <$> s)).
  rewrite <- app_assoc, read_escaped, IH by done. done.
Qed.

(** A string is as well formed as the bytes it is made of; otherwise it spoils what it is in. *)
Lemma utf8_run_string s : Forall byte_ok s ->
  utf8_run Whole (append_json_string [] s) = if utf8 s then Whole else IllFormed.
Proof.
  intros Hs. rewrite json_string_bytes. cbn [app]. change (utf8_run Whole (34 :: ?x)) with (utf8_run Whole x).
  rewrite utf8_run_app, utf8_run_escaped by done. unfold utf8. by destruct (utf8_run Whole s) as [|[|n]| | | | |].
Qed.

Lemma spells_string s : Forall byte_ok s -> utf8 s = true -> spells (append_json_string [] s) (JString s).
Proof.
  intros Hs Hu. assert (Hus : utf8 (append_json_string [] s) = true) by (apply utf8_whole; by rewrite utf8_run_string, Hu).
  rewrite json_string_bytes in *. split; [done|]. split; [exact Hus|]. clear Hus Hu. intros [|fuel] Hf; [cbn in Hf; lia|]. intros ws tail Hw Ht.
  cbn [value]. rewrite skip_blank by done. rewrite <- !app_assoc. cbn [app skip_ws is_ws orb Z.eqb Pos.eqb].
  by rewrite read_string_bytes.
Qed.

Lemma spells_ascii s : Forall ascii_ok s -> spells (append_json_string [] s) (JString s).
Proof. intros Hs. apply spells_string; [by apply ascii_bytes|by apply ascii_utf8]. Qed.

(** *** Numbers and booleans *)

Lemma digits_ascii s : digits s -> Forall ascii_ok s.
Proof. intros Hs. eapply Forall_impl; [exact Hs|]. unfold is_digit, ascii_ok. intros c. cbn. lia. Qed.

Lemma read_digits_all ds : digits ds -> forall v tail, ends tail -> read_digits v (ds ++ tail) = (numeral_from v ds, tail).
Proof.
  induction 1 as [|c ds Hc _ IH]; intros v tail Ht.
  - destruct tail as [|c tail]; [done|]. cbn [app read_digits]. by rewrite (proj1 Ht).
  - cbn [app read_digits]. unfold is_digit in Hc. replace (digit c) with true by (unfold digit; lia). by rewrite IH.
Qed.

Lemma read_digits_dot ds s : digits ds -> forall v, read_digits v (ds ++ 46 :: s) = (numeral_from v ds, 46 :: s).
Proof.
  induction 1 as [|c ds Hc _ IH]; intros v; [done|]. cbn [app read_digits]. unfold is_digit in Hc.
  replace (digit c) with true by (unfold digit; lia). by rewrite IH.
Qed.

Lemma spells_number n : u64_ok n -> spells (to_decimal n) (JNumber n).
Proof.
  intros Hn. destruct (to_decimal_spec n Hn) as (Hd & Hv & Hl & _). pose proof (ascii_utf8 _ (digits_ascii _ Hd)) as Hu. unfold spells.
  destruct (to_decimal n) as [|c cs] eqn:E; [cbn in Hl; lia|]. pose proof Hd as Hd'. apply Forall_cons in Hd' as [Hc _]. unfold is_digit in Hc.
  assert (Hws : is_ws c = false) by (unfold is_ws; lia). split; [split; [done|lia]|]. split; [exact Hu|].
  intros [|fuel] Hf; [cbn in Hf; lia|]. intros ws tail Hw Ht. cbn [value]. rewrite skip_blank by done.
  cbn [app skip_ws]. rewrite Hws. replace (c =? 34) with false by lia. replace (c =? 91) with false by lia.
  replace (c =? 123) with false by lia. replace (digit c) with true by (unfold digit; lia).
  change (c :: cs ++ tail) with ((c :: cs) ++ tail). rewrite read_digits_all by done.
  change (numeral_from 0 (c :: cs)) with (numeral (c :: cs)). rewrite Hv. unfold read_fraction.
  destruct tail as [|d tail]; [done|]. destruct Ht as [_ Ht]. by replace (d =? 46) with false by lia.
Qed.

(** A number with a fraction. *)
Lemma spells_decimal n frac : u64_ok n -> digits frac -> frac <> [] ->
  spells (to_decimal n ++ [46] ++ frac) (JDecimal (n * 10 ^ Z.of_nat (length frac) + numeral frac) (length frac)).
Proof.
  intros Hn Hf Hne. destruct (to_decimal_spec n Hn) as (Hd & Hv & Hl & _).
  assert (Hu : utf8 (to_decimal n ++ [46] ++ frac) = true).
  { apply ascii_utf8. rewrite !Forall_app. split; [by apply digits_ascii|]. split; [|by apply digits_ascii]. repeat constructor; lia. }
  unfold spells.
  destruct (to_decimal n) as [|c cs] eqn:E; [cbn in Hl; lia|]. pose proof Hd as Hd'. apply Forall_cons in Hd' as [Hc _]. unfold is_digit in Hc.
  assert (Hws : is_ws c = false) by (unfold is_ws; lia). split; [split; [done|lia]|]. split; [exact Hu|].
  intros [|fuel] Hfu; [cbn in Hfu; lia|]. intros ws tail Hw Ht. cbn [value]. rewrite skip_blank by done.
  cbn [app skip_ws]. rewrite Hws. replace (c =? 34) with false by lia. replace (c =? 91) with false by lia.
  replace (c =? 123) with false by lia. replace (digit c) with true by (unfold digit; lia). rewrite <- app_assoc.
  change ((46 :: frac) ++ tail) with (46 :: frac ++ tail). change (c :: cs ++ 46 :: frac ++ tail) with ((c :: cs) ++ 46 :: frac ++ tail).
  rewrite read_digits_dot by done.
  change (numeral_from 0 (c :: cs)) with (numeral (c :: cs)). rewrite Hv. cbn [app read_fraction Z.eqb Pos.eqb].
  rewrite read_digits_all, numeral_from_shift by done. rewrite length_app.
  assert (0 < length frac)%nat by (destruct frac; [done|cbn; lia]).
  replace (length tail <? length frac + length tail)%nat with true by (symmetry; apply Nat.ltb_lt; lia).
  by replace (length frac + length tail - length tail)%nat with (length frac) by lia.
Qed.

Lemma spells_null : spells (text "null") JNull.
Proof.
  split; [done|]. split; [done|]. intros [|fuel] Hf; [cbn in Hf; lia|]. intros ws tail Hw Ht. cbn [value]. by rewrite skip_blank.
Qed.

Definition bool_text (b : bool) : list Z := text (if b then "true" else "false").

Lemma spells_bool b : spells (bool_text b) (JBool b).
Proof.
  split; [by destruct b|]. split; [by destruct b|]. intros [|fuel] Hf; [destruct b; cbn in Hf; lia|]. intros ws tail Hw Ht. cbn [value].
  rewrite skip_blank by done. by destruct b.
Qed.

(** *** Arrays and objects *)

(** An item with the white space on both sides of the comma before it; the first item has no
    comma. *)
Record piece (A : Type) : Type := Piece { before : list Z; after : list Z; bytes : list Z; meaning : A }.
Arguments Piece {A} _ _ _ _.
Arguments before {A} _.
Arguments after {A} _.
Arguments bytes {A} _.
Arguments meaning {A} _.

Fixpoint more_pieces {A} (ps : list (piece A)) : list Z :=
  match ps with
  | [] => []
  | p :: ps => before p ++ [44] ++ after p ++ bytes p ++ more_pieces ps
  end.

Definition piece_bytes {A} (ps : list (piece A)) : list Z :=
  match ps with
  | [] => []
  | p :: ps => before p ++ after p ++ bytes p ++ more_pieces ps
  end.

Record piece_ok {A} (item : list Z -> option (A * list Z)) (close : Z) (p : piece A) : Prop := {
  po_before : blank (before p);
  po_after : blank (after p);
  po_starts : starts close (bytes p);
  po_spells : item_spells item (bytes p) (meaning p) }.

Lemma sequence_spells {A} (item : list Z -> option (A * list Z)) close last tail : forall ps p n ws,
  close = 93 \/ close = 125 -> blank last -> blank ws -> Forall (piece_ok item close) (p :: ps) -> (length ps < n)%nat ->
  sequence item close n (ws ++ bytes p ++ more_pieces ps ++ last ++ close :: tail) = Some (meaning <$> p :: ps, tail).
Proof.
  intros ps. induction ps as [|q ps IH]; intros p [|n] ws Hcl Hla Hws Hp Hn; try (cbn in Hn; lia); cbn [sequence];
    apply Forall_cons in Hp as [Hp Hps]; destruct Hp as [_ _ _ Hsp].
  - cbn [more_pieces app]. rewrite Hsp; [|done|].
    + rewrite skip_blank by done. cbn [skip_ws]. destruct Hcl as [->| ->]; done.
    + apply blank_ends; [done|]. by destruct Hcl as [->| ->].
  - pose proof Hps as Hps'. apply Forall_cons in Hps' as [Hq _]. destruct Hq as [Hqb Hqa _ _]. cbn [more_pieces]. rewrite <- !app_assoc.
    rewrite Hsp; [|done|by apply blank_ends]. rewrite skip_blank by done. cbn [app skip_ws is_ws orb Z.eqb Pos.eqb].
    rewrite IH by (done || cbn in Hn; lia). done.
Qed.

Lemma listing_spells {A} (item : list Z -> option (A * list Z)) close last tail ps n :
  close = 93 \/ close = 125 -> blank last -> Forall (piece_ok item close) ps -> (length ps <= n)%nat ->
  listing item close n (piece_bytes ps ++ last ++ close :: tail) = Some (meaning <$> ps, tail).
Proof.
  intros Hcl Hla Hps Hn. unfold listing. destruct ps as [|p ps].
  { cbn [piece_bytes app]. rewrite skip_blank by done. cbn [skip_ws]. by destruct Hcl as [->| ->]. }
  pose proof Hps as Hps'. apply Forall_cons in Hps' as [[Hb Ha Hst _] _]. cbn [piece_bytes]. rewrite <- !app_assoc.
  rewrite (app_assoc (before p) (after p)). assert (Hba : blank (before p ++ after p)) by (by apply Forall_app).
  rewrite skip_blank, (skip_starts close) by done. pose proof (sequence_spells item close last tail ps p n (before p ++ after p)) as E.
  destruct (bytes p) as [|c cs]; [done|]. destruct Hst as [_ Hc]. cbn [app].
  replace (c =? close) with false by (symmetry; by apply Z.eqb_neq). apply E; [done..|cbn in Hn; lia].
Qed.

(** Bytes cover the items they are made of. *)
Lemma piece_bytes_length {A} (ps : list (piece A)) :
  (forall p, p ∈ ps -> bytes p <> []) ->
  (length ps <= length (piece_bytes ps))%nat /\ forall p, p ∈ ps -> (length (bytes p) <= length (piece_bytes ps))%nat.
Proof.
  assert (H : forall ps, (forall p, p ∈ ps -> bytes p <> []) ->
    (length ps <= length (more_pieces ps))%nat /\ forall p : piece A, p ∈ ps -> (length (bytes p) <= length (more_pieces ps))%nat).
  { clear ps. induction ps as [|p ps IH]; intros Hne; [split; [done|]; intros p Hp; by inversion Hp|].
    destruct IH as [IH1 IH2]; [intros q Hq; apply Hne; by constructor|]. cbn [more_pieces length].
    rewrite !length_app. cbn [length]. split; [lia|]. intros q Hq.
    inversion Hq as [|? ? ? Hq']; subst; [lia|]. pose proof (IH2 q Hq'). lia. }
  intros Hne. destruct ps as [|p ps]; [split; [done|]; intros p Hp; by inversion Hp|].
  destruct (H ps) as [H1 H2]; [intros q Hq; apply Hne; by constructor|]. cbn [piece_bytes length]. rewrite !length_app.
  assert (Hp : bytes p <> []) by (apply Hne; constructor). assert (1 <= length (bytes p))%nat by (destruct (bytes p); [done|cbn; lia]).
  split; [lia|]. intros q Hq. inversion Hq as [|? ? ? Hq']; subst; [lia|]. pose proof (H2 q Hq'). lia.
Qed.

(** Pieces that are well formed make a well-formed whole. *)
Lemma piece_bytes_utf8 {A} (ps : list (piece A)) :
  Forall (fun p => blank (before p) /\ blank (after p) /\ utf8 (bytes p) = true) ps -> utf8 (piece_bytes ps) = true.
Proof.
  assert (H : forall ps, Forall (fun p : piece A => blank (before p) /\ blank (after p) /\ utf8 (bytes p) = true) ps -> utf8 (more_pieces ps) = true).
  { induction 1 as [|p l (Hb & Ha & Hu) _ IH]; [done|]. cbn [more_pieces].
    by rewrite !utf8_app by (done || by apply ascii_utf8, blank_ascii). }
  intros Hps. destruct Hps as [|p l (Hb & Ha & Hu) Hl]; [done|]. cbn [piece_bytes].
  rewrite !utf8_app by (done || by apply ascii_utf8, blank_ascii). by apply H.
Qed.

Lemma bracketed_utf8 {A} (ps : list (piece A)) open close last : ascii_ok open -> ascii_ok close -> blank last ->
  Forall (fun p => blank (before p) /\ blank (after p) /\ utf8 (bytes p) = true) ps ->
  utf8 ([open] ++ piece_bytes ps ++ last ++ [close]) = true.
Proof.
  intros Ho Hc Hl Hps. rewrite !utf8_app; [|by apply ascii_utf8, blank_ascii|by apply piece_bytes_utf8|]; apply ascii_utf8; by constructor.
Qed.

Lemma starts_nonempty close s : starts close s -> s <> [].
Proof. by destruct s. Qed.

Lemma spells_array ps last :
  Forall (fun p => blank (before p) /\ blank (after p) /\ spells (bytes p) (meaning p)) ps -> blank last ->
  spells ([91] ++ piece_bytes ps ++ last ++ [93]) (JArray (meaning <$> ps)).
Proof.
  intros Hps Hla. split; [done|]. split.
  { apply bracketed_utf8; [unfold ascii_ok; lia..|done|]. eapply Forall_impl; [exact Hps|]. by intros p (Hb & Ha & _ & Hu & _). }
  intros [|fuel] Hf; [cbn in Hf; lia|]. intros ws tail Hw _.
  destruct (piece_bytes_length ps) as [H1 H2].
  { intros p Hp. rewrite Forall_forall in Hps. destruct (Hps p Hp) as (_ & _ & Hst & _). by apply (starts_nonempty 93). }
  rewrite !length_app in Hf. cbn [length] in Hf. cbn [value]. rewrite skip_blank by done.
  cbn [app skip_ws is_ws orb Z.eqb Pos.eqb]. rewrite <- !app_assoc. change ([93] ++ tail) with (93 :: tail). rewrite listing_spells; [done|by left|done| |lia].
  apply Forall_forall. intros p Hp. pose proof (H2 p Hp). rewrite Forall_forall in Hps. destruct (Hps p Hp) as (Hb & Ha & Hst & _ & Hsp).
  split; [done..|]. apply Hsp. lia.
Qed.

(** A name that needs no escape. *)
Definition plain (s : list Z) : bool := forallb (fun c => (32 <=? c) && (c <? 128) && negb (c =? 34) && negb (c =? 92)) s.

Lemma read_plain s tail : plain s = true -> read_string (s ++ 34 :: tail) = Some (s, tail).
Proof.
  intros Hs. induction s as [|c s IH]; [done|].
  cbn [plain forallb] in *. apply andb_prop in Hs as [Hc Hs]. cbn [app read_string].
  replace (c =? 34) with false by lia. replace (c =? 92) with false by lia. replace (c <? 32) with false by lia. by rewrite IH.
Qed.

Lemma plain_ascii s : plain s = true -> Forall ascii_ok s.
Proof.
  intros Hs. apply Forall_forall. intros c Hc. unfold plain in Hs. rewrite forallb_forall in Hs.
  apply list_elem_of_In in Hc. specialize (Hs c Hc). unfold ascii_ok. lia.
Qed.

Definition member_bytes (key value : list Z) : list Z := [34] ++ key ++ [34; 58; 32] ++ value.

Lemma member_spells fuel key bs v : plain key = true -> spells bs v -> (length bs <= fuel)%nat ->
  item_spells (member (value fuel)) (member_bytes key bs) (key, v).
Proof.
  intros Hk (_ & _ & Hsp) Hf ws tail Hw Ht. unfold member, member_bytes. rewrite skip_blank by done. rewrite <- !app_assoc.
  cbn [app skip_ws is_ws orb Z.eqb Pos.eqb]. rewrite read_plain by done. cbn [skip_ws is_ws orb Z.eqb Pos.eqb].
  change (32 :: bs ++ tail) with ([32] ++ bs ++ tail). by rewrite (Hsp fuel Hf) by (done || by repeat constructor).
Qed.

(** An object: names with the pieces that are their values. *)
Definition field_piece (f : list Z * piece json) : piece (list Z * json) :=
  Piece (before (snd f)) (after (snd f)) (member_bytes (fst f) (bytes (snd f))) (fst f, meaning (snd f)).
Definition field_meaning (f : list Z * piece json) : list Z * json := (fst f, meaning (snd f)).
Definition field_ok (f : list Z * piece json) : Prop :=
  plain (fst f) = true /\ blank (before (snd f)) /\ blank (after (snd f)) /\ spells (bytes (snd f)) (meaning (snd f)).

Lemma spells_object fs last : Forall field_ok fs -> blank last ->
  spells ([123] ++ piece_bytes (field_piece <$> fs) ++ last ++ [125]) (JObject (field_meaning <$> fs)).
Proof.
  intros Hfs Hla. split; [done|]. split.
  { apply bracketed_utf8; [unfold ascii_ok; lia..|done|]. apply Forall_fmap. eapply Forall_impl; [exact Hfs|].
    intros f (Hk & Hb & Ha & _ & Hu & _). split; [done|]. split; [done|]. unfold field_piece. cbn [bytes]. unfold member_bytes.
    rewrite !utf8_app by (done || by apply ascii_utf8, plain_ascii). done. }
  intros [|fuel] Hf; [cbn in Hf; lia|]. intros ws tail Hw _.
  destruct (piece_bytes_length (field_piece <$> fs)) as [H1 H2].
  { intros p Hp. apply list_elem_of_fmap in Hp as (f & -> & _). done. }
  rewrite !length_app in Hf. cbn [length] in Hf. cbn [value]. rewrite skip_blank by done.
  cbn [app skip_ws is_ws orb Z.eqb Pos.eqb]. rewrite <- !app_assoc. change ([125] ++ tail) with (125 :: tail).
  rewrite listing_spells; [cbn; by rewrite <- list_fmap_compose|by right|done| |lia].
  apply Forall_forall. intros p Hp. pose proof (H2 p Hp) as Hlen. apply list_elem_of_fmap in Hp as (f & -> & Hin).
  rewrite Forall_forall in Hfs. destruct (Hfs f Hin) as (Hk & Hb & Ha & Hsp).
  split; [done..|]. apply member_spells; [done..|]. change (bytes (field_piece f)) with ([34] ++ fst f ++ [34; 58; 32] ++ bytes (snd f)) in Hlen. rewrite !length_app in Hlen. lia.
Qed.

(** A value with white space after it is a document. *)
Lemma spells_document bs v ws : spells bs v -> blank ws -> ws <> [] -> read_json (bs ++ ws) = Some v.
Proof.
  intros (_ & Hu & Hsp) Hw Hne. unfold read_json.
  rewrite utf8_app, (ascii_utf8 ws (blank_ascii ws Hw)) by done. cbn [negb]. pose proof (Hsp (length (bs ++ ws)) ltac:(rewrite length_app; lia) [] ws) as E.
  cbn [app] in E. rewrite E; [|constructor|].
  - rewrite <- (app_nil_r ws), skip_blank by done. by rewrite bool_decide_true.
  - destruct Hw as [|c ws Hc _]; [done|]. cbn. unfold is_ws, digit in *. split; lia.
Qed.
