(* ===== verification/Names.v ===== *)
(** * The names of enumerators

    The overloads of [to_string] as instances of one class, and the parsers that go back. *)
From Stdlib Require Import String.
From S2P Require Import Prelude Status Checked Tri Tick Hash Flow Policy Impact Classification Intervention Journal Durable Service Text TextFacts.

#[local] Open Scope string_scope.
#[local] Open Scope list_scope.
#[local] Open Scope Z_scope.

Class Named (A : Type) := to_string : A -> list Z.

#[global] Instance named_StatusCode : Named StatusCode.t := fun x =>
  match x with
  | StatusCode.Ok => text "Ok"
  | StatusCode.InvalidArgument => text "InvalidArgument"
  | StatusCode.OutOfRange => text "OutOfRange"
  | StatusCode.Overflow => text "Overflow"
  | StatusCode.Underflow => text "Underflow"
  | StatusCode.DivideByZero => text "DivideByZero"
  | StatusCode.NotFound => text "NotFound"
  | StatusCode.AlreadyExists => text "AlreadyExists"
  | StatusCode.Conflict => text "Conflict"
  | StatusCode.CapacityExceeded => text "CapacityExceeded"
  | StatusCode.Unsupported => text "Unsupported"
  | StatusCode.Stale => text "Stale"
  | StatusCode.Expired => text "Expired"
  | StatusCode.UnknownEvidence => text "UnknownEvidence"
  | StatusCode.ContradictoryEvidence => text "ContradictoryEvidence"
  | StatusCode.DuplicateEvidence => text "DuplicateEvidence"
  | StatusCode.GapDetected => text "GapDetected"
  | StatusCode.GenerationMismatch => text "GenerationMismatch"
  | StatusCode.AuthorityMismatch => text "AuthorityMismatch"
  | StatusCode.EpochMismatch => text "EpochMismatch"
  | StatusCode.BootMismatch => text "BootMismatch"
  | StatusCode.RevalidationRequired => text "RevalidationRequired"
  | StatusCode.PolicyViolation => text "PolicyViolation"
  | StatusCode.ProtectionViolation => text "ProtectionViolation"
  | StatusCode.Corrupt => text "Corrupt"
  | StatusCode.Truncated => text "Truncated"
  | StatusCode.Oversized => text "Oversized"
  | StatusCode.VersionMismatch => text "VersionMismatch"
  | StatusCode.IntegrityFailure => text "IntegrityFailure"
  | StatusCode.IoError => text "IoError"
  | StatusCode.Closed => text "Closed"
  | StatusCode.Cancelled => text "Cancelled"
  | StatusCode.ShuttingDown => text "ShuttingDown"
  | StatusCode.Busy => text "Busy"
  | StatusCode.Internal => text "Internal"
  end.

#[global] Instance named_Tri : Named Tri.t := fun x =>
  match x with
  | Tri.False_ => text "false"
  | Tri.True_ => text "true"
  | Tri.Unknown => text "unknown"
  end.

#[global] Instance named_FreshnessVerdict : Named FreshnessVerdict.t := fun x =>
  match x with
  | FreshnessVerdict.Fresh => text "fresh"
  | FreshnessVerdict.NotYetValid => text "not_yet_valid"
  | FreshnessVerdict.Expired => text "expired"
  | FreshnessVerdict.Malformed => text "malformed"
  | FreshnessVerdict.Regressed => text "regressed"
  end.

#[global] Instance named_BindingVerdict : Named BindingVerdict.t := fun x =>
  match x with
  | BindingVerdict.Match => text "match"
  | BindingVerdict.FlowGenerationChanged => text "flow_generation_changed"
  | BindingVerdict.PathGenerationChanged => text "path_generation_changed"
  | BindingVerdict.CapacityGenerationChanged => text "capacity_generation_changed"
  | BindingVerdict.PolicyGenerationChanged => text "policy_generation_changed"
  | BindingVerdict.EvidenceWindowSuperseded => text "evidence_window_superseded"
  | BindingVerdict.EpochChanged => text "epoch_changed"
  | BindingVerdict.BootChanged => text "boot_changed"
  | BindingVerdict.PublisherChanged => text "publisher_changed"
  | BindingVerdict.PublisherIncarnationChanged => text "publisher_incarnation_changed"
  | BindingVerdict.Absent => text "absent"
  end.

#[global] Instance named_ServiceClass : Named ServiceClass.t := fun x =>
  match x with
  | ServiceClass.Unknown => text "unknown"
  | ServiceClass.BestEffort => text "best_effort"
  | ServiceClass.Standard => text "standard"
  | ServiceClass.Priority => text "priority"
  | ServiceClass.Reserved => text "reserved"
  | ServiceClass.Control => text "control"
  end.

#[global] Instance named_ProtectionState : Named ProtectionState.t := fun x =>
  match x with
  | ProtectionState.Unknown => text "unknown"
  | ProtectionState.Unprotected => text "unprotected"
  | ProtectionState.Protected => text "protected"
  | ProtectionState.NonPreemptible => text "non_preemptible"
  end.

#[global] Instance named_ThresholdKind : Named ThresholdKind.t := fun x =>
  match x with
  | ThresholdKind.Always => text "always"
  | ThresholdKind.Never => text "never"
  | ThresholdKind.CumulativeBytes => text "cumulative_bytes"
  | ThresholdKind.DurationTicks => text "duration_ticks"
  | ThresholdKind.SustainedRate => text "sustained_rate"
  | ThresholdKind.PeakRate => text "peak_rate"
  | ThresholdKind.ShareOfCapacity => text "share_of_capacity"
  | ThresholdKind.ShareOfAvailable => text "share_of_available"
  | ThresholdKind.CompetingFlows => text "competing_flows"
  | ThresholdKind.CompetingElephants => text "competing_elephants"
  | ThresholdKind.ExcessOverGuarantee => text "excess_over_guarantee"
  | ThresholdKind.ServiceClassIs => text "service_class_is"
  | ThresholdKind.PriorityAtLeast => text "priority_at_least"
  | ThresholdKind.IsProtected => text "is_protected"
  | ThresholdKind.IsNonPreemptible => text "is_non_preemptible"
  | ThresholdKind.HasReservation => text "has_reservation"
  | ThresholdKind.Count => text "count"
  end.

#[global] Instance named_RuleKind : Named RuleKind.t := fun x =>
  match x with
  | RuleKind.Threshold => text "threshold"
  | RuleKind.All => text "all"
  | RuleKind.Any => text "any"
  | RuleKind.Not => text "not"
  end.

#[global] Instance named_ElephantState : Named ElephantState.t := fun x =>
  match x with
  | ElephantState.Unknown => text "unknown"
  | ElephantState.NotElephant => text "not_elephant"
  | ElephantState.Elephant => text "elephant"
  | ElephantState.Suspended => text "suspended"
  end.

#[global] Instance named_AuthorityLevel : Named AuthorityLevel.t := fun x =>
  match x with
  | AuthorityLevel.None => text "none"
  | AuthorityLevel.Observe => text "observe"
  | AuthorityLevel.Govern => text "govern"
  end.

#[global] Instance named_IntentKind : Named IntentKind.t := fun x =>
  match x with
  | IntentKind.ObserveOnly => text "observe_only"
  | IntentKind.RequestAlternatePlacement => text "request_alternate_placement"
  | IntentKind.RequestRateShaping => text "request_rate_shaping"
  | IntentKind.RequestSchedulingIsolation => text "request_scheduling_isolation"
  | IntentKind.ProtectReservedFlow => text "protect_reserved_flow"
  | IntentKind.ReduceCompetingAdmission => text "reduce_competing_admission"
  | IntentKind.EscalateCongestion => text "escalate_congestion"
  | IntentKind.Count => text "count"
  end.

#[global] Instance named_IntentState : Named IntentState.t := fun x =>
  match x with
  | IntentState.Suppressed => text "suppressed"
  | IntentState.Authorized => text "authorized"
  | IntentState.Clamped => text "clamped"
  | IntentState.Active => text "active"
  | IntentState.Revoked => text "revoked"
  | IntentState.Fenced => text "fenced"
  | IntentState.Expired => text "expired"
  | IntentState.Completed => text "completed"
  end.

#[global] Instance named_RecordType : Named RecordType.t := fun x =>
  match x with
  | RecordType.Begin => text "begin"
  | RecordType.PolicyAccepted => text "policy_accepted"
  | RecordType.CapacityAccepted => text "capacity_accepted"
  | RecordType.PathAccepted => text "path_accepted"
  | RecordType.FlowClassified => text "flow_classified"
  | RecordType.FlowTransition => text "flow_transition"
  | RecordType.IntentRecorded => text "intent_recorded"
  | RecordType.IntentTransition => text "intent_transition"
  | RecordType.IntentFenced => text "intent_fenced"
  | RecordType.TickCommitted => text "tick_committed"
  | RecordType.Snapshot => text "snapshot"
  | RecordType.Shutdown => text "shutdown"
  | RecordType.Count => text "count"
  end.

#[global] Instance named_RecoveryDisposition : Named RecoveryDisposition.t := fun x =>
  match x with
  | RecoveryDisposition.DurableConfiguration => text "durable_configuration"
  | RecoveryDisposition.CommittedState => text "committed_state"
  | RecoveryDisposition.UnfinishedAttempt => text "unfinished_attempt"
  | RecoveryDisposition.AmbiguousOutcome => text "ambiguous_outcome"
  | RecoveryDisposition.StaleLiveAuthority => text "stale_live_authority"
  | RecoveryDisposition.EvidenceRequiresRevalidation => text "evidence_requires_revalidation"
  end.

#[global] Instance named_ServiceState : Named ServiceState.t := fun x =>
  match x with
  | ServiceState.Idle => text "idle"
  | ServiceState.Running => text "running"
  | ServiceState.Stopping => text "stopping"
  | ServiceState.Stopped => text "stopped"
  end.

(** Suppression reasons are bits: a set of several has the name of none. *)
Definition suppress_names : list (Z * string) := [
  (SuppressReason.None, "none");
  (SuppressReason.ProtectedObligation, "protected_obligation");
  (SuppressReason.NonPreemptibleObligation, "non_preemptible_obligation");
  (SuppressReason.ReservationObligation, "reservation_obligation");
  (SuppressReason.PolicyForbids, "policy_forbids");
  (SuppressReason.AuthorityStale, "authority_stale");
  (SuppressReason.NoAuthority, "no_authority");
  (SuppressReason.ImpactBelowThreshold, "impact_below_threshold");
  (SuppressReason.ContentionBelowThreshold, "contention_below_threshold");
  (SuppressReason.BoundsExceeded, "bounds_exceeded");
  (SuppressReason.FlowCompleted, "flow_completed");
  (SuppressReason.CapacityUnknown, "capacity_unknown");
  (SuppressReason.LedgerBudgetExhausted, "ledger_budget_exhausted");
  (SuppressReason.ShuttingDown, "shutting_down")].
Definition suppress_name (reason : Z) : list Z :=
  match list_find (fun p => fst p = reason) suppress_names with
  | Some (_, (_, name)) => text name
  | None => text "none"
  end.

(** ** Reasons *)

Definition kReasonNames : list (Z * string) := [
  (ReasonCode.VolumeThresholdMet, "volume_threshold_met");
  (ReasonCode.DurationThresholdMet, "duration_threshold_met");
  (ReasonCode.SustainedRateThresholdMet, "sustained_rate_threshold_met");
  (ReasonCode.ResourceShareThresholdMet, "resource_share_threshold_met");
  (ReasonCode.PolicyRuleSatisfied, "policy_rule_satisfied");
  (ReasonCode.HysteresisHeld, "hysteresis_held");
  (ReasonCode.ExitThresholdNotReached, "exit_threshold_not_reached");
  (ReasonCode.BelowVolumeThreshold, "below_volume_threshold");
  (ReasonCode.BelowDurationThreshold, "below_duration_threshold");
  (ReasonCode.BelowRateThreshold, "below_rate_threshold");
  (ReasonCode.BelowShareThreshold, "below_share_threshold");
  (ReasonCode.PolicyRuleNotSatisfied, "policy_rule_not_satisfied");
  (ReasonCode.EvidenceMissing, "evidence_missing");
  (ReasonCode.EvidenceStale, "evidence_stale");
  (ReasonCode.EvidenceUnknownField, "evidence_unknown_field");
  (ReasonCode.TelemetryGap, "telemetry_gap");
  (ReasonCode.CapacityMissing, "capacity_missing");
  (ReasonCode.CapacityStale, "capacity_stale");
  (ReasonCode.PathUnknown, "path_unknown");
  (ReasonCode.PathGenerationChanged, "path_generation_changed");
  (ReasonCode.FlowGenerationChanged, "flow_generation_changed");
  (ReasonCode.PolicyChanged, "policy_changed");
  (ReasonCode.FlowCompleted, "flow_completed");
  (ReasonCode.PolicyRuleIndeterminate, "policy_rule_indeterminate");
  (ReasonCode.RevalidationRequired, "revalidation_required");
  (ReasonCode.ProtectedObligation, "protected_obligation");
  (ReasonCode.NonPreemptibleObligation, "non_preemptible_obligation");
  (ReasonCode.ReservedCapacityBounded, "reserved_capacity_bounded");
  (ReasonCode.ControlClassBounded, "control_class_bounded");
  (ReasonCode.GovernanceAuthorized, "governance_authorized");
  (ReasonCode.GovernanceSuppressed, "governance_suppressed");
  (ReasonCode.GovernanceClampedToBounds, "governance_clamped_to_bounds");
  (ReasonCode.ImpactBelowActionThreshold, "impact_below_action_threshold");
  (ReasonCode.ContentionBelowActionThreshold, "contention_below_action_threshold")].

Definition reason_names (set : Z) : list (list Z) :=
  (fun entry => text (snd entry)) <$> List.filter (fun entry => has_reason set (fst entry)) kReasonNames.

Definition known_reasons : Z := foldl (fun known entry => Z.lor known (fst entry)) 0 kReasonNames.

Definition render_reasons (set : Z) : list Z :=
  if set =? ReasonCode.None then text "none"
  else
  let '(out, _) := foldl (fun p name => let '(out, first) := p : list Z * bool in
                            (((if first then out else out ++ [44]) ++ name), false)) ([], true) (reason_names set) in
  if negb (Z.ldiff set known_reasons =? 0)
  then (if bool_decide (out = []) then out else out ++ [44]) ++ text "unrecognized_reason_bits"
  else out.

(** ** Parsers *)

(** A chain of comparisons with literals. *)
Definition parse_table {A} (table : list (string * A)) (name : list Z) : option A :=
  (fun p => snd (snd p)) <$> list_find (fun entry => name = text (fst entry)) table.

Definition parse_service_class : list Z -> option ServiceClass.t := parse_table [
  ("unknown", ServiceClass.Unknown);
  ("best_effort", ServiceClass.BestEffort);
  ("standard", ServiceClass.Standard);
  ("priority", ServiceClass.Priority);
  ("reserved", ServiceClass.Reserved);
  ("control", ServiceClass.Control)].

Definition parse_protection_state : list Z -> option ProtectionState.t := parse_table [
  ("unknown", ProtectionState.Unknown);
  ("unprotected", ProtectionState.Unprotected);
  ("protected", ProtectionState.Protected);
  ("non_preemptible", ProtectionState.NonPreemptible)].

(** The loop over the enumerators, which compares the name of each. *)
Definition parse_named {A} `{Named A} (all : list A) (name : list Z) : option A :=
  (fun p => snd p) <$> list_find (fun x => to_string x = name) all.

Definition parse_threshold_kind : list Z -> option ThresholdKind.t := parse_named
  [ThresholdKind.Always; ThresholdKind.Never; ThresholdKind.CumulativeBytes;
   ThresholdKind.DurationTicks; ThresholdKind.SustainedRate; ThresholdKind.PeakRate;
   ThresholdKind.ShareOfCapacity; ThresholdKind.ShareOfAvailable; ThresholdKind.CompetingFlows;
   ThresholdKind.CompetingElephants; ThresholdKind.ExcessOverGuarantee;
   ThresholdKind.ServiceClassIs; ThresholdKind.PriorityAtLeast; ThresholdKind.IsProtected;
   ThresholdKind.IsNonPreemptible; ThresholdKind.HasReservation].

Definition parse_intent_kind : list Z -> option IntentKind.t := parse_named
  [IntentKind.ObserveOnly; IntentKind.RequestAlternatePlacement; IntentKind.RequestRateShaping;
   IntentKind.RequestSchedulingIsolation; IntentKind.ProtectReservedFlow;
   IntentKind.ReduceCompetingAdmission; IntentKind.EscalateCongestion].

(** ** Facts *)

(** Every name is read back: the enumerations of policies and samples are closed under
    rendering. *)
Theorem names_round_trip :
  (forall x, parse_service_class (to_string x) = Some x) /\
  (forall x, parse_protection_state (to_string x) = Some x) /\
  (forall x, parse_threshold_kind (to_string x) = if bool_decide (x = ThresholdKind.Count) then None else Some x) /\
  (forall x, parse_intent_kind (to_string x) = if bool_decide (x = IntentKind.Count) then None else Some x).
Proof. split_and!; intros []; vm_compute; reflexivity. Qed.

(** Names need no escape and are short. *)
Lemma reason_names_ascii set : Forall (fun name => Forall ascii_ok name) (reason_names set).
Proof.
  unfold reason_names. apply Forall_fmap, Forall_forall. intros entry Hin. apply list_elem_of_In, filter_In in Hin as [Hin _].
  assert (H : Forall (fun entry => Forall ascii_ok (text (snd entry))) kReasonNames)
    by (apply (bool_decide_eq_true_1 _); vm_compute; reflexivity).
  rewrite Forall_forall in H. apply H. by apply list_elem_of_In.
Qed.

Lemma suppress_ascii reason : Forall ascii_ok (suppress_name reason).
Proof.
  unfold suppress_name. destruct (list_find _ _) as [[i [r name]]|] eqn:E; [|apply (bool_decide_eq_true_1 _); vm_compute; reflexivity].
  apply list_find_Some in E as (E & _). apply list_elem_of_lookup_2 in E.
  assert (H : Forall (fun entry => Forall ascii_ok (text (snd entry))) suppress_names)
    by (apply (bool_decide_eq_true_1 _); vm_compute; reflexivity).
  rewrite Forall_forall in H. exact (H _ E).
Qed.

Lemma reason_names_length set : (length (reason_names set) <= 34)%nat.
Proof.
  unfold reason_names. rewrite length_fmap. etrans; [apply filter_length_le|]. by vm_compute.
Qed.
