(* ===== verification/Explain.v ===== *)
(** * Explanations ([include/efg/explain.hpp], [src/explain.cpp], [Governor::explain])

    A string that the code appends to piece by piece is the list of its pieces, in the order
    of the calls; [build] is what the string holds at the end. *)
From Stdlib Require Import String.
From S2P Require Import Prelude Status Checked Tri Tick Hash OMap Flow Tables Policy Impact Classification Intervention Governor Journal Durable Service Text Names.

#[local] Open Scope string_scope.
#[local] Open Scope list_scope.
#[local] Open Scope Z_scope.

Definition kMaxExplanationLines : Z := 48.
Definition kMaxExplanationText : Z := 8192.

(** ** Pieces of text *)

Inductive chunk : Type :=
| Put (s : list Z)      (* [out.append(s)], [out.push_back(c)] *)
| Num (v : Z)           (* [append_u64(out, v)] *)
| Str (s : list Z).     (* [append_json_string(out, s)] *)

Definition write_chunk (out : list Z) (c : chunk) : list Z :=
  match c with
  | Put s => out ++ s
  | Num v => append_u64 out v
  | Str s => append_json_string out s
  end.
Definition build (cs : list chunk) : list Z := foldl write_chunk [] cs.

Definition lit (s : string) : chunk := Put (text s).
Definition flag (b : bool) : chunk := lit (if b then "true" else "false").
Definition newline : chunk := Put [kNewline].
(** The name of a member, in quotes, with colon and blank. *)
Definition key (indent name : string) : chunk := Put (text indent ++ [kQuote] ++ text name ++ [kQuote; 58; 32]).

(** [if (!first) { out.push_back(','); } first = false;] before every item. *)
Fixpoint commas {A} (first : bool) (item : A -> list chunk) (xs : list A) : list chunk :=
  match xs with
  | [] => []
  | x :: xs => (if first then [] else [lit ","]) ++ item x ++ commas false item xs
  end.

(** ** Data *)

Module ExplanationKind.
Inductive t : Type :=
| Qualification | Disqualification | Indeterminate | Suspension | Protection | Authority | Impact
| Intent | Suppression | History.
#[global] Instance eq_dec : EqDecision t.
Proof. solve_decision. Defined.
End ExplanationKind.

#[global] Instance named_ExplanationKind : Named ExplanationKind.t := fun kind =>
  match kind with
  | ExplanationKind.Qualification => text "qualification"
  | ExplanationKind.Disqualification => text "disqualification"
  | ExplanationKind.Indeterminate => text "indeterminate"
  | ExplanationKind.Suspension => text "suspension"
  | ExplanationKind.Protection => text "protection"
  | ExplanationKind.Authority => text "authority"
  | ExplanationKind.Impact => text "impact"
  | ExplanationKind.Intent => text "intent"
  | ExplanationKind.Suppression => text "suppression"
  | ExplanationKind.History => text "history"
  end.

Module ExplanationLine.
Record t := mk { kind : ExplanationKind.t; text : list Z }.
End ExplanationLine.

Module Explanation.
Record t := mk {
  flow : FlowId;
  flow_generation : Generation;
  found : bool;
  state : ElephantState.t;
  authority : AuthorityLevel.t;
  reasons : Z;
  summary : list Z;
  lines : list ExplanationLine.t;
  truncated : bool;
  measurements : FlowMeasurements.t;
  impact : ImpactAssessment.t;
  trace : list ThresholdTraceEntry.t;
  authority_vector : AuthorityVector.t;
  intents : list GovernanceIntent.t;
  history_digest : Z;
  history_folded : Z }.

Definition digest (e : t) : Z :=
  Hasher.digest_of ([
    Hasher.write_u64 (flow e);
    Hasher.write_u64 (flow_generation e);
    Hasher.write_bool (found e);
    Hasher.write_u8 (ElephantState.to_u8 (state e));
    Hasher.write_u8 (AuthorityLevel.to_u8 (authority e));
    Hasher.write_u64 (reasons e);
    Hasher.write_digest (FlowMeasurements.digest (measurements e));
    Hasher.write_digest (ImpactAssessment.digest (impact e));
    Hasher.write_u32 (wrap 32 (size_of (trace e))) ] ++
    (trace e ≫= FlowClassification.trace_writes) ++ [
    Hasher.write_digest (AuthorityVector.digest (authority_vector e));
    Hasher.write_u64 (history_digest e);
    Hasher.write_u64 (history_folded e);
    Hasher.write_u32 (wrap 32 (size_of (intents e))) ] ++
    ((fun i => Hasher.write_u64 (GovernanceIntent.digest i)) <$> intents e)).
End Explanation.

(** ** [Governor::explain] *)

Definition explain (flow : FlowId) (generation : Generation) (now : Tick) : M Governor.t Explanation.t := fun g =>
  match Governor.with_record (flow, generation) (Governor.evaluate now) g with
  | (g, Err c) => (g, Err c)
  | (g, Val decision) =>
      let cls := FlowDecision.classification decision in
      match OMap.find (flow, generation) (Governor.flows_ g) with
      | None => (g, Err StatusCode.NotFound)
      | Some record =>
          (g, Val (Explanation.mk flow generation true
            (FlowClassification.state cls) (FlowClassification.authority cls) (FlowClassification.reasons cls)
            [] [] (FlowClassification.trace_truncated cls)
            (FlowClassification.measurements cls) (FlowClassification.impact cls) (FlowClassification.trace cls)
            (FlowClassification.authority_vector cls)
            (IntentLedger.for_flow flow generation (Governor.intents_ g))
            (ClassificationHistory.digest_ (FlowRecord.history record))
            (ClassificationHistory.folded_count_ (FlowRecord.history record))))
      end
  end.

(** ** Rendering *)

Definition authority_vector_chunks (a : AuthorityVector.t) : list chunk := [
  lit "flow="; Num (AuthorityVector.flow a);
  lit "/gen="; Num (AuthorityVector.flow_generation a);
  lit " path="; Num (AuthorityVector.path a);
  lit "/gen="; Num (AuthorityVector.path_generation a);
  lit " capacity="; Num (AuthorityVector.capacity a);
  lit "/gen="; Num (AuthorityVector.capacity_generation a);
  lit " window="; Num (AuthorityVector.window a);
  lit "/seq="; Num (AuthorityVector.window_sequence a);
  lit " policy="; Num (AuthorityVector.policy a);
  lit "/gen="; Num (AuthorityVector.policy_generation a);
  lit " classification_gen="; Num (AuthorityVector.classification_generation a);
  lit " epoch="; Num (AuthorityVector.epoch a);
  lit " boot="; Num (AuthorityVector.boot a);
  lit " publisher="; Num (AuthorityVector.publisher a);
  lit "/boot="; Num (AuthorityVector.publisher_boot a);
  lit " valid=["; Num (ValidityWindow.issued_at (AuthorityVector.validity a));
  lit ","; Num (ValidityWindow.expires_at (AuthorityVector.validity a));
  lit ") bind="; Num (AuthorityVector.bound_flags a) ].
Definition render_authority_vector (a : AuthorityVector.t) : list Z := build (authority_vector_chunks a).

(** The lines so far and the flag. *)
Definition Lines : Type := list ExplanationLine.t * bool.

Definition add_line (kind : ExplanationKind.t) (line : list Z) (p : Lines) : Lines :=
  let '(out, truncated) := p in
  if size_of out >=? kMaxExplanationLines then (out, true)
  else (out ++ [ExplanationLine.mk kind line], truncated).

(** [name.rfind("below_", 0) == 0] *)
Definition has_prefix (prefix name : list Z) : bool := bool_decide (take (length prefix) name = prefix).
Definition is_one_of (names : list string) (name : list Z) : bool := existsb (fun n => bool_decide (name = text n)) names.

Definition classify_reason (name : list Z) : ExplanationKind.t :=
  if has_prefix (text "below_") name || is_one_of ["policy_rule_not_satisfied"] name
  then ExplanationKind.Disqualification
  else if is_one_of ["evidence_stale"; "telemetry_gap"; "revalidation_required"; "evidence_missing";
                     "evidence_unknown_field"; "capacity_missing"; "capacity_stale"; "path_unknown";
                     "path_generation_changed"; "flow_generation_changed"; "policy_changed";
                     "flow_completed"; "policy_rule_indeterminate"] name
  then ExplanationKind.Suspension
  else if is_one_of ["protected_obligation"; "non_preemptible_obligation"; "reserved_capacity_bounded";
                     "control_class_bounded"] name
  then ExplanationKind.Protection
  else if is_one_of ["governance_authorized"; "governance_suppressed"; "governance_clamped_to_bounds"] name
  then ExplanationKind.Authority
  else if is_one_of ["impact_below_action_threshold"; "contention_below_action_threshold"] name
  then ExplanationKind.Suppression
  else ExplanationKind.Qualification.

(** *** The texts of the lines *)

Definition state_chunks (e : Explanation.t) : list chunk := [
  lit "state="; Put (to_string (Explanation.state e));
  lit " authority="; Put (to_string (Explanation.authority e)) ].

Definition observed_chunks (m : FlowMeasurements.t) : list chunk := [
  lit "observed=["; Num (TickSpan.begin_ (FlowMeasurements.observed m));
  lit ","; Num (TickSpan.end_ (FlowMeasurements.observed m));
  lit ") duration_ticks="; Num (FlowMeasurements.duration_ticks m);
  lit " cumulative_bytes="; Num (FlowMeasurements.cumulative_bytes m);
  lit " sustained_rate_per_kilotick="; Num (FlowMeasurements.sustained_rate m);
  lit " peak_window_rate="; Num (FlowMeasurements.peak_window_rate m);
  lit " windows="; Num (FlowMeasurements.window_count m);
  lit " dropped="; Num (FlowMeasurements.dropped_windows m) ].

Definition obligation_chunks (m : FlowMeasurements.t) : list chunk := [
  lit "service_class="; Put (to_string (FlowMeasurements.service_class m));
  lit " priority=";
  (if Priority.known (FlowMeasurements.priority m)
   then Num (Priority.level (FlowMeasurements.priority m)) else lit "unknown");
  lit " protection="; Put (to_string (FlowMeasurements.protection m));
  lit " reservation="; Num (FlowMeasurements.reservation m);
  lit " contiguous="; flag (FlowMeasurements.evidence_contiguous m);
  lit " gap="; flag (FlowMeasurements.gap_detected m) ].

Definition binding_chunks (m : FlowMeasurements.t) : list chunk :=
  if FlowMeasurements.capacity_known m then [
    lit "binding_resource="; Num (FlowMeasurements.binding_resource m);
    lit " capacity_per_kilotick="; Num (FlowMeasurements.resource_capacity m);
    lit " reserved="; Num (FlowMeasurements.resource_reserved m);
    lit " available="; Num (FlowMeasurements.resource_available m);
    lit " share_of_capacity="; Put (to_percent (FlowMeasurements.share_of_capacity m));
    lit " share_of_available="; Put (to_percent (FlowMeasurements.share_of_available m)) ]
  else [ lit "binding_resource=unknown share=unknown" ].

Definition threshold_chunks (entry : ThresholdTraceEntry.t) : list chunk := [
  lit "threshold "; Put (to_string (ThresholdTraceEntry.kind entry));
  lit " node="; Num (ThresholdTraceEntry.node_index entry);
  lit " threshold="; Num (ThresholdTraceEntry.threshold_value entry);
  lit " observed=";
  (if ThresholdTraceEntry.observed_defined entry then Num (ThresholdTraceEntry.observed_value entry)
   else lit "undefined");
  lit " result="; Put (to_string (ThresholdTraceEntry.result entry)) ].

Definition impact_chunks (impact : ImpactAssessment.t) : list chunk := [
  lit "severity="; Put (to_percent (ImpactAssessment.severity impact));
  lit " contention_pressure="; Put (to_percent (ImpactAssessment.contention_pressure impact));
  lit " rate_pressure="; Put (to_percent (ImpactAssessment.rate_pressure impact));
  lit " competing_flows="; Num (ImpactAssessment.competing_flows impact);
  lit " competing_elephants="; Num (ImpactAssessment.competing_elephants impact);
  lit " excess_rate="; Num (ImpactAssessment.excess_rate impact);
  lit " excess_over_guarantee="; Num (ImpactAssessment.excess_over_guarantee impact);
  lit " protected_conflict="; flag (ImpactAssessment.protected_obligation_conflict impact) ].

Definition intent_chunks (intent : GovernanceIntent.t) : list chunk := [
  lit "intent "; Put (to_string (GovernanceIntent.kind intent));
  lit " state="; Put (to_string (GovernanceIntent.state intent));
  lit " suppressed="; Put (suppress_name (GovernanceIntent.suppressed intent));
  lit " granted_rate_reduction="; Put (to_percent (IntentBounds.rate_reduction_bp (GovernanceIntent.granted intent)));
  lit " window=["; Num (TickSpan.begin_ (GovernanceIntent.window intent));
  lit ","; Num (TickSpan.end_ (GovernanceIntent.window intent));
  lit ")" ].

Definition history_chunks (e : Explanation.t) : list chunk := [
  lit "history_digest="; Num (Explanation.history_digest e);
  lit " folded="; Num (Explanation.history_folded e) ].

Definition add_lines {A} (line : A -> ExplanationKind.t * list Z) (xs : list A) (p : Lines) : Lines :=
  foldl (fun p x => let '(kind, line) := line x in add_line kind line p) p xs.

Definition build_explanation_lines (e : Explanation.t) : Lines :=
  let p := ([], Explanation.truncated e) in
  if negb (Explanation.found e) then
    add_line ExplanationKind.Indeterminate (text "flow generation is not tracked by this governor") p
  else
  let m := Explanation.measurements e in
  let p := add_line ExplanationKind.Qualification (build (state_chunks e)) p in
  let p := add_lines (fun name => (classify_reason name, name)) (reason_names (Explanation.reasons e)) p in
  let p := add_line ExplanationKind.Qualification (build (observed_chunks m)) p in
  let p := add_line ExplanationKind.Qualification (build (obligation_chunks m)) p in
  let p := add_line ExplanationKind.Impact (build (binding_chunks m)) p in
  let p := add_lines (fun entry => (ExplanationKind.Qualification, build (threshold_chunks entry))) (Explanation.trace e) p in
  let p := add_line ExplanationKind.Impact (build (impact_chunks (Explanation.impact e))) p in
  let p := add_line ExplanationKind.Authority (render_authority_vector (Explanation.authority_vector e)) p in
  let p := add_lines (fun intent => (ExplanationKind.Intent, build (intent_chunks intent))) (Explanation.intents e) p in
  add_line ExplanationKind.History (build (history_chunks e)) p.

(** *** Text *)

Definition line_chunks (line : ExplanationLine.t) : list chunk := [
  lit "  ["; Put (to_string (ExplanationLine.kind line)); lit "] "; Put (ExplanationLine.text line); newline ].

Fixpoint render_lines (lines : list ExplanationLine.t) (truncated : bool) (out : list Z) : list Z * bool :=
  match lines with
  | [] => (out, truncated)
  | line :: lines =>
      let out := foldl write_chunk out (line_chunks line) in
      if size_of out >=? kMaxExplanationText then (out, true) else render_lines lines truncated out
  end.

Definition render_text (e : Explanation.t) : list Z :=
  let '(lines, truncated) := build_explanation_lines e in
  let out := build [lit "flow "; Num (Explanation.flow e); lit " generation "; Num (Explanation.flow_generation e); newline] in
  let '(out, truncated) := render_lines lines truncated out in
  let out := if truncated
             then foldl write_chunk out [lit "  [history] additional lines omitted at the explanation ceiling"; newline]
             else out in
  foldl write_chunk out [lit "explanation_digest="; Num (Explanation.digest e); newline].

(** *** JSON *)

Definition json_head (e : Explanation.t) : list chunk := [
  lit "{"; newline;
  key "  " "found"; flag (Explanation.found e); lit ","; newline;
  key "  " "flow"; Num (Explanation.flow e); lit ","; newline;
  key "  " "flow_generation"; Num (Explanation.flow_generation e); lit ","; newline;
  key "  " "state"; Str (to_string (Explanation.state e)); lit ","; newline;
  key "  " "authority"; Str (to_string (Explanation.authority e)); lit ","; newline ].

Definition json_reasons (e : Explanation.t) : list chunk :=
  [key "  " "reasons"; lit "["] ++
  commas true (fun name => [Str name]) (reason_names (Explanation.reasons e)) ++
  [lit "],"; newline].

Definition json_measurements (m : FlowMeasurements.t) : list chunk := [
  key "  " "measurements"; lit "{"; newline;
  key "    " "duration_ticks"; Num (FlowMeasurements.duration_ticks m); lit ","; newline;
  key "    " "cumulative_bytes"; Num (FlowMeasurements.cumulative_bytes m); lit ","; newline;
  key "    " "sustained_rate_per_kilotick"; Num (FlowMeasurements.sustained_rate m); lit ","; newline;
  key "    " "peak_window_rate_per_kilotick"; Num (FlowMeasurements.peak_window_rate m); lit ","; newline;
  key "    " "window_count"; Num (FlowMeasurements.window_count m); lit ","; newline;
  key "    " "dropped_windows"; Num (FlowMeasurements.dropped_windows m); lit ","; newline;
  key "    " "evidence_present"; flag (FlowMeasurements.evidence_present m); lit ","; newline;
  key "    " "evidence_contiguous"; flag (FlowMeasurements.evidence_contiguous m); lit ","; newline;
  key "    " "gap_detected"; flag (FlowMeasurements.gap_detected m); lit ","; newline;
  key "    " "service_class"; Str (to_string (FlowMeasurements.service_class m)); lit ","; newline;
  key "    " "priority_known"; flag (Priority.known (FlowMeasurements.priority m)); lit ","; newline;
  key "    " "priority"; Num (Priority.level (FlowMeasurements.priority m)); lit ","; newline;
  key "    " "protection"; Str (to_string (FlowMeasurements.protection m)); lit ","; newline;
  key "    " "reservation"; Num (FlowMeasurements.reservation m); lit ","; newline;
  key "    " "capacity_known"; flag (FlowMeasurements.capacity_known m); lit ","; newline;
  key "    " "binding_resource"; Num (FlowMeasurements.binding_resource m); lit ","; newline;
  key "    " "resource_capacity_per_kilotick"; Num (FlowMeasurements.resource_capacity m); lit ","; newline;
  key "    " "resource_reserved_per_kilotick"; Num (FlowMeasurements.resource_reserved m); lit ","; newline;
  key "    " "resource_available_per_kilotick"; Num (FlowMeasurements.resource_available m); lit ","; newline;
  key "    " "share_of_capacity_bp"; Num (FlowMeasurements.share_of_capacity m); lit ","; newline;
  key "    " "share_of_available_bp"; Num (FlowMeasurements.share_of_available m); newline;
  lit "  },"; newline ].

(** [if (!items.empty())] a line break and two blanks before the closing bracket. *)
Definition json_close {A} (xs : list A) : list chunk :=
  (if bool_decide (length xs = O) then [] else [newline; lit "  "]) ++ [lit "],"; newline].

Definition json_threshold (entry : ThresholdTraceEntry.t) : list chunk := [
  newline; key "    {" "node"; Num (ThresholdTraceEntry.node_index entry);
  key ", " "kind"; Str (to_string (ThresholdTraceEntry.kind entry));
  key ", " "threshold"; Num (ThresholdTraceEntry.threshold_value entry);
  key ", " "observed_defined"; flag (ThresholdTraceEntry.observed_defined entry);
  key ", " "observed"; Num (ThresholdTraceEntry.observed_value entry);
  key ", " "result"; Str (to_string (ThresholdTraceEntry.result entry));
  lit "}" ].

Definition json_thresholds (e : Explanation.t) : list chunk :=
  [key "  " "thresholds"; lit "["] ++ commas true json_threshold (Explanation.trace e) ++ json_close (Explanation.trace e).

Definition json_impact (impact : ImpactAssessment.t) : list chunk := [
  key "  " "impact"; lit "{"; newline;
  key "    " "severity_bp"; Num (ImpactAssessment.severity impact); lit ","; newline;
  key "    " "contention_pressure_bp"; Num (ImpactAssessment.contention_pressure impact); lit ","; newline;
  key "    " "rate_pressure_bp"; Num (ImpactAssessment.rate_pressure impact); lit ","; newline;
  key "    " "competing_flows"; Num (ImpactAssessment.competing_flows impact); lit ","; newline;
  key "    " "competing_elephants"; Num (ImpactAssessment.competing_elephants impact); lit ","; newline;
  key "    " "excess_rate"; Num (ImpactAssessment.excess_rate impact); lit ","; newline;
  key "    " "excess_over_guarantee"; Num (ImpactAssessment.excess_over_guarantee impact); lit ","; newline;
  key "    " "protected_obligation_conflict"; flag (ImpactAssessment.protected_obligation_conflict impact); newline;
  lit "  },"; newline ].

Definition json_authority (e : Explanation.t) : list chunk := [
  key "  " "authority_vector"; Str (render_authority_vector (Explanation.authority_vector e)); lit ","; newline;
  key "  " "history_digest"; Num (Explanation.history_digest e); lit ","; newline;
  key "  " "history_folded"; Num (Explanation.history_folded e); lit ","; newline ].

Definition json_intent (intent : GovernanceIntent.t) : list chunk := [
  newline; key "    {" "kind"; Str (to_string (GovernanceIntent.kind intent));
  key ", " "state"; Str (to_string (GovernanceIntent.state intent));
  key ", " "suppressed"; Str (suppress_name (GovernanceIntent.suppressed intent));
  key ", " "rate_reduction_bp"; Num (IntentBounds.rate_reduction_bp (GovernanceIntent.granted intent));
  key ", " "targets"; Num (IntentBounds.targets (GovernanceIntent.granted intent));
  key ", " "window_begin"; Num (TickSpan.begin_ (GovernanceIntent.window intent));
  key ", " "window_end"; Num (TickSpan.end_ (GovernanceIntent.window intent));
  lit "}" ].

Definition json_intents (e : Explanation.t) : list chunk :=
  [key "  " "intents"; lit "["] ++ commas true json_intent (Explanation.intents e) ++ json_close (Explanation.intents e).

Definition json_line (line : ExplanationLine.t) : list chunk := [
  newline; key "    {" "kind"; Str (to_string (ExplanationLine.kind line));
  key ", " "text"; Str (ExplanationLine.text line);
  lit "}" ].

Definition json_lines (lines : list ExplanationLine.t) : list chunk :=
  [key "  " "lines"; lit "["] ++ commas true json_line lines ++ json_close lines.

Definition json_tail (truncated : bool) (e : Explanation.t) : list chunk := [
  key "  " "truncated"; flag truncated; lit ","; newline;
  key "  " "explanation_digest"; Num (Explanation.digest e); newline;
  lit "}"; newline ].

Definition render_json (e : Explanation.t) : list Z :=
  let '(lines, truncated) := build_explanation_lines e in
  build (json_head e ++ json_reasons e ++ json_measurements (Explanation.measurements e) ++ json_thresholds e ++
         json_impact (Explanation.impact e) ++ json_authority e ++ json_intents e ++ json_lines lines ++
         json_tail truncated e).
