(* ===== verification/ExplainFacts.v ===== *)
(** * What explanations say

    The lines of an explanation are bounded and complete unless they say otherwise; the JSON
    rendering is a document, and reading it gives back the explanation. *)
From Stdlib Require Import String.
From S2P Require Import Prelude Status Checked Tri Tick Hash OMap Flow Tables Policy Impact Classification Intervention Governor GovernorFacts GovernorRuns Codec CodecFacts Journal Durable Service Text TextFacts Json Names Explain.

#[local] Open Scope string_scope.
#[local] Open Scope list_scope.
#[local] Open Scope Z_scope.

(** ** Pieces *)

Definition chunk_bytes (c : chunk) : list Z :=
  match c with Put s => s | Num v => to_decimal v | Str s => append_json_string [] s end.

Lemma write_chunk_bytes out c : write_chunk out c = out ++ chunk_bytes c.
Proof.
  destruct c; cbn; [done|apply append_decimal|]. rewrite json_string_bytes, (json_string_bytes []). done.
Qed.

Lemma foldl_write cs : forall out, foldl write_chunk out cs = out ++ mjoin (chunk_bytes <$> cs).
Proof.
  induction cs as [|c cs IH]; intros out; cbn [foldl fmap list_fmap]; [by rewrite app_nil_r|].
  rewrite IH, write_chunk_bytes. by rewrite <- app_assoc.
Qed.

Lemma build_bytes cs : build cs = mjoin (chunk_bytes <$> cs).
Proof. apply (foldl_write cs []). Qed.

(** A piece of ASCII text. *)
Definition chunk_ok (c : chunk) : Prop :=
  match c with Put s => Forall ascii_ok s | Num v => u64_ok v | Str s => Forall ascii_ok s end.

Lemma decimal_ascii v : u64_ok v -> Forall ascii_ok (to_decimal v).
Proof. intros Hv. by apply digits_ascii, to_decimal_spec. Qed.

Lemma chunk_ascii c : chunk_ok c -> Forall ascii_ok (chunk_bytes c).
Proof.
  destruct c as [s|v|s]; cbn; [done|apply decimal_ascii|]. intros Hs. rewrite json_string_bytes. cbn [app].
  apply Forall_cons. split; [unfold ascii_ok; lia|]. apply Forall_app. split; [|repeat constructor; lia].
  induction Hs as [|c s Hc _ IH]; [done|]. change (mjoin (json_escape <$> c :: s)) with (json_escape c ++ mjoin (json_escape <$> s)).
  apply Forall_app. split; [by apply escape_ascii|done].
Qed.

Lemma build_ok cs : Forall chunk_ok cs -> Forall ascii_ok (build cs).
Proof.
  intros Hcs. rewrite build_bytes. induction Hcs as [|c cs Hc _ IH]; [constructor|].
  change (mjoin (chunk_bytes <$> c :: cs)) with (chunk_bytes c ++ mjoin (chunk_bytes <$> cs)).
  apply Forall_app. split; [by apply chunk_ascii|done].
Qed.

Lemma u32_u64 v : u32_ok v -> u64_ok v.
Proof. unfold in_range. lia. Qed.

Lemma percent_ascii bp : u64_ok bp -> Forall ascii_ok (to_percent bp).
Proof.
  intros Hbp. unfold to_percent. destruct (to_fixed_spec bp 2 Hbp) as (frac & -> & Hf & _); [lia|].
  assert (Hq : u64_ok (bp / 10 ^ Z.of_nat 2)).
  { change (10 ^ Z.of_nat 2) with 100. unfold in_range in *. split; [apply Z.div_pos; lia|]. apply Z.div_lt_upper_bound; lia. }
  rewrite <- !app_assoc. apply Forall_app. split; [by apply decimal_ascii|]. cbn [app]. apply Forall_cons. split; [unfold ascii_ok; lia|].
  apply Forall_app. split; [by apply digits_ascii|]. repeat constructor; lia.
Qed.

(** ** Lines *)

(** All the lines an explanation has to offer, in order. *)
Definition all_lines (e : Explanation.t) : list ExplanationLine.t :=
  let line kind cs := ExplanationLine.mk kind (build cs) in
  if negb (Explanation.found e)
  then [line ExplanationKind.Indeterminate [lit "flow generation is not tracked by this governor"]]
  else
    let m := Explanation.measurements e in
    [line ExplanationKind.Qualification (state_chunks e)] ++
    ((fun name => ExplanationLine.mk (classify_reason name) name) <$> reason_names (Explanation.reasons e)) ++
    [line ExplanationKind.Qualification (observed_chunks m); line ExplanationKind.Qualification (obligation_chunks m);
     line ExplanationKind.Impact (binding_chunks m)] ++
    ((fun entry => line ExplanationKind.Qualification (threshold_chunks entry)) <$> Explanation.trace e) ++
    [line ExplanationKind.Impact (impact_chunks (Explanation.impact e));
     line ExplanationKind.Authority (authority_vector_chunks (Explanation.authority_vector e))] ++
    ((fun intent => line ExplanationKind.Intent (intent_chunks intent)) <$> Explanation.intents e) ++
    [line ExplanationKind.History (history_chunks e)].

Definition feed (ls : list ExplanationLine.t) (p : Lines) : Lines :=
  foldl (fun p l => add_line (ExplanationLine.kind l) (ExplanationLine.text l) p) p ls.

Lemma feed_app ls ls' p : feed (ls ++ ls') p = feed ls' (feed ls p).
Proof. unfold feed. by rewrite foldl_app. Qed.

Lemma feed_cons l ls p : feed (l :: ls) p = feed ls (add_line (ExplanationLine.kind l) (ExplanationLine.text l) p).
Proof. done. Qed.

Lemma feed_nil p : feed [] p = p.
Proof. done. Qed.

Lemma add_lines_feed {A} (line : A -> ExplanationKind.t * list Z) xs : forall p,
  add_lines line xs p = feed ((fun x => ExplanationLine.mk (fst (line x)) (snd (line x))) <$> xs) p.
Proof.
  induction xs as [|x xs IH]; intros p; [done|]. unfold add_lines, feed in *. cbn [foldl fmap list_fmap].
  rewrite <- IH. by destruct (line x).
Qed.

Lemma feed_spec ls : forall out truncated, (length out <= 48)%nat ->
  feed ls (out, truncated) = (take 48 (out ++ ls), truncated || (48 <? length (out ++ ls))%nat).
Proof.
  induction ls as [|l ls IH]; intros out truncated Hl.
  { unfold feed. cbn [foldl]. rewrite app_nil_r, take_ge by done. replace (48 <? length out)%nat with false; [by destruct truncated|].
    symmetry. by apply Nat.ltb_ge. }
  unfold feed in *. cbn [foldl]. unfold add_line at 2. change kMaxExplanationLines with 48. unfold size_of.
  destruct (Z.of_nat (length out) >=? 48) eqn:E.
  - assert (Hout : length out = 48%nat) by lia. rewrite IH by done.
    rewrite !take_app_length', !length_app by done. cbn [length]. f_equal.
    replace (48 <? length out + S (length ls))%nat with true; [by destruct truncated|]. symmetry. apply Nat.ltb_lt. lia.
  - rewrite IH by (rewrite length_app; cbn [length]; lia). rewrite <- app_assoc. cbn [app].
    assert (El : ExplanationLine.mk (ExplanationLine.kind l) (ExplanationLine.text l) = l) by (by destruct l). by rewrite El.
Qed.

Lemma lines_spec e :
  build_explanation_lines e =
  (take 48 (all_lines e), Explanation.truncated e || (48 <? length (all_lines e))%nat).
Proof.
  pose proof (feed_spec (all_lines e) [] (Explanation.truncated e)) as H. cbn [app] in H. rewrite <- H by (cbn; lia). clear H.
  unfold build_explanation_lines, all_lines. destruct (negb _); [reflexivity|]. cbv zeta.
  rewrite !feed_app, !add_lines_feed, !feed_cons, !feed_nil. cbn [ExplanationLine.kind ExplanationLine.text fst snd].
  unfold render_authority_vector. reflexivity.
Qed.

(** ** Explanations in range *)

Record explanation_ok (e : Explanation.t) : Prop := {
  eo_flow : u64_ok (Explanation.flow e);
  eo_generation : u64_ok (Explanation.flow_generation e);
  eo_measurements : wire_ok (Explanation.measurements e);
  eo_impact : wire_ok (Explanation.impact e);
  eo_trace : Forall wire_ok (Explanation.trace e);
  eo_vector : wire_ok (Explanation.authority_vector e);
  eo_intents : Forall wire_ok (Explanation.intents e);
  eo_history : u64_ok (Explanation.history_digest e);
  eo_folded : u64_ok (Explanation.history_folded e) }.

Ltac in_words :=
  repeat match goal with
  | H : _ /\ _ |- _ => destruct H
  | H : wire_ok _ |- _ => hnf in H
  end.

(** A literal is ASCII text, which can be seen. *)
Definition is_ascii (s : list Z) : bool := forallb (between 0 127) s.

Lemma text_ascii s : is_ascii s = true -> Forall ascii_ok s.
Proof.
  unfold is_ascii. rewrite forallb_forall. intros Hs. apply Forall_forall. intros c Hc. apply list_elem_of_In in Hc.
  specialize (Hs c Hc). unfold between, ascii_ok in *. lia.
Qed.

Lemma lit_ok s : is_ascii (text s) = true -> chunk_ok (lit s).
Proof. apply text_ascii. Qed.

Lemma flag_ok b : chunk_ok (flag b).
Proof. destruct b; by apply lit_ok. Qed.

Lemma level_u64 p : wire_ok p -> u64_ok (Priority.level p).
Proof. unfold wire_ok, ok_Priority, Priority.level, Priority.kMaxLevel. destruct (Priority.known_ p); ulia. Qed.

(** Names of enumerators, of which there are finitely many. *)
Ltac name_ascii :=
  match goal with |- Forall ascii_ok (to_string ?x) => destruct x; apply text_ascii; reflexivity end.

(** Pieces whose numbers are known to be in range and whose names are literals. *)
Ltac chunk_ok_tac :=
  first [ apply lit_ok; reflexivity | apply flag_ok | cbn [chunk_ok];
          first [ assumption | by apply u32_u64 | by apply percent_ascii, u32_u64 | by apply level_u64
                | apply suppress_ascii | name_ascii ] ].
Ltac chunks_ok := repeat (apply Forall_cons; split; [chunk_ok_tac|]); exact (List.Forall_nil _).

Lemma state_ok e : Forall chunk_ok (state_chunks e).
Proof. chunks_ok. Qed.

Lemma observed_ok m : wire_ok m -> Forall chunk_ok (observed_chunks m).
Proof. intros Hm. in_words. chunks_ok. Qed.

Lemma obligation_ok m : wire_ok m -> Forall chunk_ok (obligation_chunks m).
Proof.
  intros Hm. unfold obligation_chunks. pose proof (level_u64 (FlowMeasurements.priority m)) as Hl. in_words.
  destruct (Priority.known (FlowMeasurements.priority m)); chunks_ok.
Qed.

Lemma binding_ok m : wire_ok m -> Forall chunk_ok (binding_chunks m).
Proof. intros Hm. unfold binding_chunks. in_words. destruct (FlowMeasurements.capacity_known m); chunks_ok. Qed.

Lemma threshold_ok entry : wire_ok entry -> Forall chunk_ok (threshold_chunks entry).
Proof. intros Hm. unfold threshold_chunks. in_words. destruct (ThresholdTraceEntry.observed_defined entry); chunks_ok. Qed.

Lemma impact_ok i : wire_ok i -> Forall chunk_ok (impact_chunks i).
Proof. intros Hm. in_words. chunks_ok. Qed.

Lemma vector_ok a : wire_ok a -> Forall chunk_ok (authority_vector_chunks a).
Proof. intros Ha. in_words. chunks_ok. Qed.

Lemma intent_ok i : wire_ok i -> Forall chunk_ok (intent_chunks i).
Proof. intros Hi. in_words. chunks_ok. Qed.

Definition line_ok (l : ExplanationLine.t) : Prop := Forall ascii_ok (ExplanationLine.text l).

Lemma all_lines_ok e : explanation_ok e -> Forall line_ok (all_lines e).
Proof.
  intros []. unfold all_lines. destruct (negb _); [apply Forall_cons; split; [|exact (List.Forall_nil _)]; apply build_ok; chunks_ok|].
  assert (Hb : forall kind cs, Forall chunk_ok cs -> line_ok (ExplanationLine.mk kind (build cs))) by (intros; by apply build_ok).
  assert (Hmap : forall A (kind : A -> ExplanationKind.t) (cs : A -> list chunk) xs, Forall (fun x => Forall chunk_ok (cs x)) xs ->
    Forall line_ok ((fun x => ExplanationLine.mk (kind x) (build (cs x))) <$> xs)).
  { intros A kind cs xs Hxs. apply Forall_fmap. eapply Forall_impl; [exact Hxs|]. intros x. apply Hb. }
  repeat (apply Forall_app; split).
  - apply List.Forall_cons; [apply Hb, state_ok|constructor].
  - apply Forall_fmap. eapply Forall_impl; [apply reason_names_ascii|]. done.
  - do 3 (apply List.Forall_cons; [apply Hb; auto using observed_ok, obligation_ok, binding_ok|]). constructor.
  - apply (Hmap _ (fun _ => ExplanationKind.Qualification)). eapply Forall_impl; [exact eo_trace0|]. intros x. apply threshold_ok.
  - do 2 (apply List.Forall_cons; [apply Hb; auto using impact_ok, vector_ok|]). constructor.
  - apply (Hmap _ (fun _ => ExplanationKind.Intent)). eapply Forall_impl; [exact eo_intents0|]. intros x. apply intent_ok.
  - apply List.Forall_cons; [apply Hb; chunks_ok|constructor].
Qed.

(** ** The document *)

Definition field (ws : list Z) (name : string) (bs : list Z) (v : json) : list Z * piece json := (text name, Piece [] ws bs v).
Definition nfield ws name v := field ws name (to_decimal v) (JNumber v).
Definition sfield ws name s := field ws name (append_json_string [] s) (JString s).
Definition bfield ws name b := field ws name (bool_text b) (JBool b).

Definition array_bytes (ps : list (piece json)) (last : list Z) : list Z := [91] ++ piece_bytes ps ++ last ++ [93].
Definition object_bytes (fs : list (list Z * piece json)) (last : list Z) : list Z :=
  [123] ++ piece_bytes (field_piece <$> fs) ++ last ++ [125].

(** An item of a list with the white space before it. *)
Definition items {A} (ws : list Z) (bs : A -> list Z) (v : A -> json) (xs : list A) : list (piece json) :=
  (fun x => Piece [] ws (bs x) (v x)) <$> xs.

Lemma commas_pieces {A} (item : A -> list chunk) ws bs v (xs : list A) :
  (forall x, mjoin (chunk_bytes <$> item x) = ws ++ bs x) ->
  mjoin (chunk_bytes <$> commas true item xs) = piece_bytes (items ws bs v xs).
Proof.
  intros Hi. assert (Hrest : forall xs, mjoin (chunk_bytes <$> commas false item xs) = more_pieces (items ws bs v xs)).
  { clear xs. induction xs as [|x xs IH]; [done|]. cbn [commas].
    rewrite !fmap_app, !join_app, IH, Hi. cbn [fmap list_fmap]. by rewrite <- app_assoc. }
  destruct xs as [|x xs]; [done|]. cbn [commas app]. rewrite fmap_app, join_app, Hi, Hrest. by rewrite <- app_assoc.
Qed.

Lemma items_spell {A} ws bs v (xs : list A) last :
  blank ws -> blank last -> Forall (fun x => spells (bs x) (v x)) xs -> spells (array_bytes (items ws bs v xs) last) (JArray (v <$> xs)).
Proof.
  intros Hw Hl Hxs. replace (v <$> xs) with (meaning <$> items ws bs v xs) by (unfold items; rewrite <- list_fmap_compose; done).
  apply spells_array; [|done]. unfold items. apply Forall_fmap. eapply Forall_impl; [exact Hxs|]. intros x Hx. cbn. split; [constructor|]. by split.
Qed.

Lemma field_spells ws name bs v : plain (text name) = true -> blank ws -> spells bs v -> field_ok (field ws name bs v).
Proof. intros. split; [done|]. split; [constructor|]. by split. Qed.

Definition nl (n : nat) : list Z := kNewline :: replicate n 32.

Lemma blank_nl n : blank (nl n).
Proof. constructor; [done|]. by apply Forall_replicate. Qed.

Lemma blank_nil : blank [].
Proof. constructor. Qed.

Lemma blank_space : blank [32].
Proof. by repeat constructor. Qed.
#[export] Hint Resolve blank_nl blank_nil blank_space u32_u64 spells_number spells_ascii spells_bool : json.

Ltac field_tac := apply field_spells; [reflexivity|auto with json|auto with json].
Ltac fields_tac := repeat (apply List.Forall_cons; [first [field_tac | apply field_spells; [reflexivity|auto with json|]]|]); try exact (List.Forall_nil _).

(** Both sides of a rendering, with the appends to the right. *)
Ltac settle :=
  repeat match goal with
  | |- context [to_decimal ?v] => generalize (to_decimal v); intros ?
  | |- context [append_json_string [] ?s] => generalize (append_json_string [] s); intros ?
  | |- context [bool_text ?b] => generalize (bool_text b); intros ?
  end; vm_compute; reflexivity.
Ltac same_bytes :=
  unfold object_bytes, array_bytes, field_piece, nfield, sfield, bfield, field;
  cbn [fmap list_fmap mjoin list_join piece_bytes more_pieces before after bytes snd fst chunk_bytes];
  repeat match goal with |- context [chunk_bytes (flag ?b)] => change (chunk_bytes (flag b)) with (bool_text b) end;
  unfold member_bytes; rewrite <- !app_assoc; settle.

(** *** Small objects *)

Definition threshold_fields (entry : ThresholdTraceEntry.t) := [
  nfield [] "node" (ThresholdTraceEntry.node_index entry);
  sfield [32] "kind" (to_string (ThresholdTraceEntry.kind entry));
  nfield [32] "threshold" (ThresholdTraceEntry.threshold_value entry);
  bfield [32] "observed_defined" (ThresholdTraceEntry.observed_defined entry);
  nfield [32] "observed" (ThresholdTraceEntry.observed_value entry);
  sfield [32] "result" (to_string (ThresholdTraceEntry.result entry)) ].

Lemma threshold_bytes entry : mjoin (chunk_bytes <$> json_threshold entry) = nl 4 ++ object_bytes (threshold_fields entry) [].
Proof. unfold threshold_fields, json_threshold. same_bytes. Qed.

Lemma threshold_spells entry : wire_ok entry ->
  spells (object_bytes (threshold_fields entry) []) (JObject (field_meaning <$> threshold_fields entry)).
Proof.
  intros Hm. in_words. apply spells_object; [|apply blank_nil]. fields_tac; apply spells_ascii; name_ascii.
Qed.

Definition intent_fields (intent : GovernanceIntent.t) := [
  sfield [] "kind" (to_string (GovernanceIntent.kind intent));
  sfield [32] "state" (to_string (GovernanceIntent.state intent));
  sfield [32] "suppressed" (suppress_name (GovernanceIntent.suppressed intent));
  nfield [32] "rate_reduction_bp" (IntentBounds.rate_reduction_bp (GovernanceIntent.granted intent));
  nfield [32] "targets" (IntentBounds.targets (GovernanceIntent.granted intent));
  nfield [32] "window_begin" (TickSpan.begin_ (GovernanceIntent.window intent));
  nfield [32] "window_end" (TickSpan.end_ (GovernanceIntent.window intent)) ].

Lemma intent_bytes intent : mjoin (chunk_bytes <$> json_intent intent) = nl 4 ++ object_bytes (intent_fields intent) [].
Proof. unfold intent_fields, json_intent. same_bytes. Qed.

Lemma intent_spells intent : wire_ok intent ->
  spells (object_bytes (intent_fields intent) []) (JObject (field_meaning <$> intent_fields intent)).
Proof.
  intros Hm. in_words. apply spells_object; [|apply blank_nil].
  fields_tac; apply spells_ascii; first [name_ascii|apply suppress_ascii].
Qed.

Definition line_fields (line : ExplanationLine.t) := [
  sfield [] "kind" (to_string (ExplanationLine.kind line));
  sfield [32] "text" (ExplanationLine.text line) ].

Lemma line_bytes line : mjoin (chunk_bytes <$> json_line line) = nl 4 ++ object_bytes (line_fields line) [].
Proof. unfold line_fields, json_line. same_bytes. Qed.

Lemma line_spells line : line_ok line ->
  spells (object_bytes (line_fields line) []) (JObject (field_meaning <$> line_fields line)).
Proof.
  intros Hl. apply spells_object; [|apply blank_nil]. fields_tac; apply spells_ascii; first [name_ascii|exact Hl].
Qed.

Definition measurement_fields (m : FlowMeasurements.t) := [
  nfield (nl 4) "duration_ticks" (FlowMeasurements.duration_ticks m);
  nfield (nl 4) "cumulative_bytes" (FlowMeasurements.cumulative_bytes m);
  nfield (nl 4) "sustained_rate_per_kilotick" (FlowMeasurements.sustained_rate m);
  nfield (nl 4) "peak_window_rate_per_kilotick" (FlowMeasurements.peak_window_rate m);
  nfield (nl 4) "window_count" (FlowMeasurements.window_count m);
  nfield (nl 4) "dropped_windows" (FlowMeasurements.dropped_windows m);
  bfield (nl 4) "evidence_present" (FlowMeasurements.evidence_present m);
  bfield (nl 4) "evidence_contiguous" (FlowMeasurements.evidence_contiguous m);
  bfield (nl 4) "gap_detected" (FlowMeasurements.gap_detected m);
  sfield (nl 4) "service_class" (to_string (FlowMeasurements.service_class m));
  bfield (nl 4) "priority_known" (Priority.known (FlowMeasurements.priority m));
  nfield (nl 4) "priority" (Priority.level (FlowMeasurements.priority m));
  sfield (nl 4) "protection" (to_string (FlowMeasurements.protection m));
  nfield (nl 4) "reservation" (FlowMeasurements.reservation m);
  bfield (nl 4) "capacity_known" (FlowMeasurements.capacity_known m);
  nfield (nl 4) "binding_resource" (FlowMeasurements.binding_resource m);
  nfield (nl 4) "resource_capacity_per_kilotick" (FlowMeasurements.resource_capacity m);
  nfield (nl 4) "resource_reserved_per_kilotick" (FlowMeasurements.resource_reserved m);
  nfield (nl 4) "resource_available_per_kilotick" (FlowMeasurements.resource_available m);
  nfield (nl 4) "share_of_capacity_bp" (FlowMeasurements.share_of_capacity m);
  nfield (nl 4) "share_of_available_bp" (FlowMeasurements.share_of_available m) ].

Lemma measurement_bytes m : mjoin (chunk_bytes <$> json_measurements m) =
  text "  " ++ member_bytes (text "measurements") (object_bytes (measurement_fields m) (nl 2)) ++ [44; 10].
Proof. unfold measurement_fields, json_measurements. same_bytes. Qed.

Lemma measurement_spells m : wire_ok m ->
  spells (object_bytes (measurement_fields m) (nl 2)) (JObject (field_meaning <$> measurement_fields m)).
Proof.
  intros Hm. pose proof (level_u64 (FlowMeasurements.priority m)) as Hl. in_words. apply spells_object; [|apply blank_nl].
  fields_tac; apply spells_ascii; name_ascii.
Qed.

Definition impact_fields (impact : ImpactAssessment.t) := [
  nfield (nl 4) "severity_bp" (ImpactAssessment.severity impact);
  nfield (nl 4) "contention_pressure_bp" (ImpactAssessment.contention_pressure impact);
  nfield (nl 4) "rate_pressure_bp" (ImpactAssessment.rate_pressure impact);
  nfield (nl 4) "competing_flows" (ImpactAssessment.competing_flows impact);
  nfield (nl 4) "competing_elephants" (ImpactAssessment.competing_elephants impact);
  nfield (nl 4) "excess_rate" (ImpactAssessment.excess_rate impact);
  nfield (nl 4) "excess_over_guarantee" (ImpactAssessment.excess_over_guarantee impact);
  bfield (nl 4) "protected_obligation_conflict" (ImpactAssessment.protected_obligation_conflict impact) ].

Lemma impact_bytes impact : mjoin (chunk_bytes <$> json_impact impact) =
  text "  " ++ member_bytes (text "impact") (object_bytes (impact_fields impact) (nl 2)) ++ [44; 10].
Proof. unfold impact_fields, json_impact. same_bytes. Qed.

Lemma impact_spells impact : wire_ok impact ->
  spells (object_bytes (impact_fields impact) (nl 2)) (JObject (field_meaning <$> impact_fields impact)).
Proof. intros Hm. in_words. apply spells_object; [|apply blank_nl]. fields_tac. Qed.

(** *** The whole *)

Definition closing {A} (xs : list A) : list Z := if bool_decide (length xs = O) then [] else nl 2.

Lemma blank_closing {A} (xs : list A) : blank (closing xs).
Proof. unfold closing. destruct (bool_decide _); [apply blank_nil|apply blank_nl]. Qed.

Lemma array_section {A} name item ws bs v (xs : list A) :
  (forall x, mjoin (chunk_bytes <$> item x) = ws ++ bs x) ->
  mjoin (chunk_bytes <$> [key "  " name; lit "["] ++ commas true item xs ++ json_close xs) =
  text "  " ++ member_bytes (text name) (array_bytes (items ws bs v xs) (closing xs)) ++ [44; 10].
Proof.
  intros Hi. rewrite !fmap_app, !join_app, (commas_pieces item ws bs v xs Hi). unfold member_bytes, array_bytes, json_close, closing, key.
  destruct (bool_decide _); cbn [fmap list_fmap mjoin list_join chunk_bytes]; rewrite <- !app_assoc; reflexivity.
Qed.

Definition reasons_array (e : Explanation.t) : list Z :=
  array_bytes (items [] (append_json_string []) JString (reason_names (Explanation.reasons e))) [].
Definition section {A} (fields : A -> list (list Z * piece json)) (xs : list A) : list Z :=
  array_bytes (items (nl 4) (fun x => object_bytes (fields x) []) (fun x => JObject (field_meaning <$> fields x)) xs) (closing xs).
Definition section_json {A} (fields : A -> list (list Z * piece json)) (xs : list A) : json :=
  JArray ((fun x => JObject (field_meaning <$> fields x)) <$> xs).

Definition explanation_fields (e : Explanation.t) : list (list Z * piece json) :=
  let '(lines, truncated) := build_explanation_lines e in [
  bfield (nl 2) "found" (Explanation.found e);
  nfield (nl 2) "flow" (Explanation.flow e);
  nfield (nl 2) "flow_generation" (Explanation.flow_generation e);
  sfield (nl 2) "state" (to_string (Explanation.state e));
  sfield (nl 2) "authority" (to_string (Explanation.authority e));
  field (nl 2) "reasons" (reasons_array e) (JArray (JString <$> reason_names (Explanation.reasons e)));
  field (nl 2) "measurements" (object_bytes (measurement_fields (Explanation.measurements e)) (nl 2))
    (JObject (field_meaning <$> measurement_fields (Explanation.measurements e)));
  field (nl 2) "thresholds" (section threshold_fields (Explanation.trace e)) (section_json threshold_fields (Explanation.trace e));
  field (nl 2) "impact" (object_bytes (impact_fields (Explanation.impact e)) (nl 2))
    (JObject (field_meaning <$> impact_fields (Explanation.impact e)));
  sfield (nl 2) "authority_vector" (render_authority_vector (Explanation.authority_vector e));
  nfield (nl 2) "history_digest" (Explanation.history_digest e);
  nfield (nl 2) "history_folded" (Explanation.history_folded e);
  field (nl 2) "intents" (section intent_fields (Explanation.intents e)) (section_json intent_fields (Explanation.intents e));
  field (nl 2) "lines" (section line_fields lines) (section_json line_fields lines);
  bfield (nl 2) "truncated" truncated;
  nfield (nl 2) "explanation_digest" (Explanation.digest e) ].

Lemma reasons_section e : mjoin (chunk_bytes <$> json_reasons e) =
  text "  " ++ member_bytes (text "reasons") (reasons_array e) ++ [44; 10].
Proof.
  unfold json_reasons, reasons_array. rewrite !fmap_app, !join_app.
  rewrite (commas_pieces (fun name => [Str name]) [] (append_json_string []) JString).
  - unfold member_bytes, array_bytes. generalize (piece_bytes (items [] (append_json_string []) JString (reason_names (Explanation.reasons e)))).
    intros x. rewrite <- !app_assoc. vm_compute. reflexivity.
  - intros s. exact (app_nil_r (append_json_string [] s)).
Qed.

(** The order and the white space of the members, whatever they say. *)
Lemma explanation_layout found flow generation state authority r o1 t1 o2 vector digest folded t2 t3 truncated last
    m1 m2 m3 m4 m5 m6 m7 m8 m9 m10 m11 m12 m13 m14 m15 m16 :
  let lead name := chunk_bytes (key "  " name) in
  let comma := chunk_bytes (lit ",") in let break := chunk_bytes newline in
  mjoin [chunk_bytes (lit "{"); break; lead "found"; found; comma; break; lead "flow"; flow; comma; break;
         lead "flow_generation"; generation; comma; break; lead "state"; state; comma; break;
         lead "authority"; authority; comma; break] ++
  (text "  " ++ member_bytes (text "reasons") r ++ [44; 10]) ++
  (text "  " ++ member_bytes (text "measurements") o1 ++ [44; 10]) ++
  (text "  " ++ member_bytes (text "thresholds") t1 ++ [44; 10]) ++
  (text "  " ++ member_bytes (text "impact") o2 ++ [44; 10]) ++
  mjoin [lead "authority_vector"; vector; comma; break; lead "history_digest"; digest; comma; break;
         lead "history_folded"; folded; comma; break] ++
  (text "  " ++ member_bytes (text "intents") t2 ++ [44; 10]) ++
  (text "  " ++ member_bytes (text "lines") t3 ++ [44; 10]) ++
  mjoin [lead "truncated"; truncated; comma; break; lead "explanation_digest"; last; break; chunk_bytes (lit "}"); break] =
  object_bytes [
    field (nl 2) "found" found m1; field (nl 2) "flow" flow m2; field (nl 2) "flow_generation" generation m3;
    field (nl 2) "state" state m4; field (nl 2) "authority" authority m5; field (nl 2) "reasons" r m6;
    field (nl 2) "measurements" o1 m7; field (nl 2) "thresholds" t1 m8; field (nl 2) "impact" o2 m9;
    field (nl 2) "authority_vector" vector m10; field (nl 2) "history_digest" digest m11;
    field (nl 2) "history_folded" folded m12; field (nl 2) "intents" t2 m13; field (nl 2) "lines" t3 m14;
    field (nl 2) "truncated" truncated m15; field (nl 2) "explanation_digest" last m16 ] [10] ++ [10].
Proof.
  cbv zeta. unfold object_bytes, field_piece, field, member_bytes.
  cbn [fmap list_fmap mjoin list_join piece_bytes more_pieces before after bytes snd fst].
  rewrite <- !app_assoc. vm_compute. reflexivity.
Qed.

Lemma threshold_section e : mjoin (chunk_bytes <$> json_thresholds e) =
  text "  " ++ member_bytes (text "thresholds") (section threshold_fields (Explanation.trace e)) ++ [44; 10].
Proof. apply (array_section "thresholds" json_threshold (nl 4)), threshold_bytes. Qed.

Lemma intent_section e : mjoin (chunk_bytes <$> json_intents e) =
  text "  " ++ member_bytes (text "intents") (section intent_fields (Explanation.intents e)) ++ [44; 10].
Proof. apply (array_section "intents" json_intent (nl 4)), intent_bytes. Qed.

Lemma line_section lines : mjoin (chunk_bytes <$> json_lines lines) =
  text "  " ++ member_bytes (text "lines") (section line_fields lines) ++ [44; 10].
Proof. apply (array_section "lines" json_line (nl 4)), line_bytes. Qed.

Lemma render_json_bytes e : render_json e = object_bytes (explanation_fields e) [10] ++ [10].
Proof.
  unfold render_json, explanation_fields. destruct (build_explanation_lines e) as [lines truncated].
  rewrite build_bytes, !fmap_app, !join_app, reasons_section, measurement_bytes, threshold_section, impact_bytes, intent_section, line_section.
  apply explanation_layout.
Qed.

(** ** Properties *)

(** What an explanation means as a document. *)
Definition explanation_json (e : Explanation.t) : json :=
  let m := Explanation.measurements e in let i := Explanation.impact e in
  let str s := JString s in
  JObject [
    (text "found", JBool (Explanation.found e));
    (text "flow", JNumber (Explanation.flow e));
    (text "flow_generation", JNumber (Explanation.flow_generation e));
    (text "state", str (to_string (Explanation.state e)));
    (text "authority", str (to_string (Explanation.authority e)));
    (text "reasons", JArray (JString <$> reason_names (Explanation.reasons e)));
    (text "measurements", JObject [
      (text "duration_ticks", JNumber (FlowMeasurements.duration_ticks m));
      (text "cumulative_bytes", JNumber (FlowMeasurements.cumulative_bytes m));
      (text "sustained_rate_per_kilotick", JNumber (FlowMeasurements.sustained_rate m));
      (text "peak_window_rate_per_kilotick", JNumber (FlowMeasurements.peak_window_rate m));
      (text "window_count", JNumber (FlowMeasurements.window_count m));
      (text "dropped_windows", JNumber (FlowMeasurements.dropped_windows m));
      (text "evidence_present", JBool (FlowMeasurements.evidence_present m));
      (text "evidence_contiguous", JBool (FlowMeasurements.evidence_contiguous m));
      (text "gap_detected", JBool (FlowMeasurements.gap_detected m));
      (text "service_class", str (to_string (FlowMeasurements.service_class m)));
      (text "priority_known", JBool (Priority.known (FlowMeasurements.priority m)));
      (text "priority", JNumber (Priority.level (FlowMeasurements.priority m)));
      (text "protection", str (to_string (FlowMeasurements.protection m)));
      (text "reservation", JNumber (FlowMeasurements.reservation m));
      (text "capacity_known", JBool (FlowMeasurements.capacity_known m));
      (text "binding_resource", JNumber (FlowMeasurements.binding_resource m));
      (text "resource_capacity_per_kilotick", JNumber (FlowMeasurements.resource_capacity m));
      (text "resource_reserved_per_kilotick", JNumber (FlowMeasurements.resource_reserved m));
      (text "resource_available_per_kilotick", JNumber (FlowMeasurements.resource_available m));
      (text "share_of_capacity_bp", JNumber (FlowMeasurements.share_of_capacity m));
      (text "share_of_available_bp", JNumber (FlowMeasurements.share_of_available m)) ]);
    (text "thresholds", JArray ((fun entry => JObject [
      (text "node", JNumber (ThresholdTraceEntry.node_index entry));
      (text "kind", str (to_string (ThresholdTraceEntry.kind entry)));
      (text "threshold", JNumber (ThresholdTraceEntry.threshold_value entry));
      (text "observed_defined", JBool (ThresholdTraceEntry.observed_defined entry));
      (text "observed", JNumber (ThresholdTraceEntry.observed_value entry));
      (text "result", str (to_string (ThresholdTraceEntry.result entry))) ]) <$> Explanation.trace e));
    (text "impact", JObject [
      (text "severity_bp", JNumber (ImpactAssessment.severity i));
      (text "contention_pressure_bp", JNumber (ImpactAssessment.contention_pressure i));
      (text "rate_pressure_bp", JNumber (ImpactAssessment.rate_pressure i));
      (text "competing_flows", JNumber (ImpactAssessment.competing_flows i));
      (text "competing_elephants", JNumber (ImpactAssessment.competing_elephants i));
      (text "excess_rate", JNumber (ImpactAssessment.excess_rate i));
      (text "excess_over_guarantee", JNumber (ImpactAssessment.excess_over_guarantee i));
      (text "protected_obligation_conflict", JBool (ImpactAssessment.protected_obligation_conflict i)) ]);
    (text "authority_vector", str (render_authority_vector (Explanation.authority_vector e)));
    (text "history_digest", JNumber (Explanation.history_digest e));
    (text "history_folded", JNumber (Explanation.history_folded e));
    (text "intents", JArray ((fun intent => JObject [
      (text "kind", str (to_string (GovernanceIntent.kind intent)));
      (text "state", str (to_string (GovernanceIntent.state intent)));
      (text "suppressed", str (suppress_name (GovernanceIntent.suppressed intent)));
      (text "rate_reduction_bp", JNumber (IntentBounds.rate_reduction_bp (GovernanceIntent.granted intent)));
      (text "targets", JNumber (IntentBounds.targets (GovernanceIntent.granted intent)));
      (text "window_begin", JNumber (TickSpan.begin_ (GovernanceIntent.window intent)));
      (text "window_end", JNumber (TickSpan.end_ (GovernanceIntent.window intent))) ]) <$> Explanation.intents e));
    (text "lines", JArray ((fun line => JObject [
      (text "kind", str (to_string (ExplanationLine.kind line)));
      (text "text", str (ExplanationLine.text line)) ]) <$> take 48 (all_lines e)));
    (text "truncated", JBool (Explanation.truncated e || (48 <? length (all_lines e))%nat));
    (text "explanation_digest", JNumber (Explanation.digest e)) ].

Lemma explanation_meaning e : JObject (field_meaning <$> explanation_fields e) = explanation_json e.
Proof. unfold explanation_fields. rewrite lines_spec. reflexivity. Qed.

Lemma section_spells {A} (fields : A -> list (list Z * piece json)) xs :
  Forall (fun x => spells (object_bytes (fields x) []) (JObject (field_meaning <$> fields x))) xs ->
  spells (section fields xs) (section_json fields xs).
Proof. intros Hxs. apply items_spell; [apply blank_nl|apply blank_closing|exact Hxs]. Qed.

Lemma explanation_fields_ok e : explanation_ok e -> Forall field_ok (explanation_fields e).
Proof.
  intros He. pose proof (all_lines_ok e He) as Hlines. destruct He. unfold explanation_fields. rewrite lines_spec.
  assert (Hd : u64_ok (Explanation.digest e)) by apply digest_range.
  fields_tac; try (apply spells_ascii; first [name_ascii|apply build_ok, vector_ok; assumption]).
  - apply items_spell; [apply blank_nil|apply blank_nil|]. eapply Forall_impl; [apply reason_names_ascii|]. intros s. apply spells_ascii.
  - by apply measurement_spells.
  - apply section_spells. eapply Forall_impl; [eassumption|]. intros x. apply threshold_spells.
  - by apply impact_spells.
  - apply section_spells. eapply Forall_impl; [eassumption|]. intros x. apply intent_spells.
  - apply section_spells, Forall_take. eapply Forall_impl; [exact Hlines|]. intros x. apply line_spells.
Qed.

(** C23: The JSON of an explanation is a document, and reading it gives back the explanation:
    the identity of the flow, the decision with its reasons, every measurement, threshold,
    impact figure and intent with its value, the authority vector and the digests. *)
Theorem explanation_is_json e : explanation_ok e -> read_json (render_json e) = Some (explanation_json e).
Proof.
  intros He. rewrite render_json_bytes. apply spells_document; [|apply (blank_nl 0)|done].
  rewrite <- explanation_meaning. apply spells_object; [by apply explanation_fields_ok|apply (blank_nl 0)].
Qed.

(** *** An explanation and the decision it explains *)

Lemma with_record_result {A} key (m : Governor.MR A) g g' x :
  Governor.with_record key m g = (g', Val x) -> exists record, OMap.find key (Governor.flows_ g') = Some record.
Proof.
  unfold Governor.with_record. destruct (OMap.find key (Governor.flows_ g)); [|done].
  destruct (m _) as [[g1 r1] y]. intros [= <- ->]. exists r1. apply OMap.find_set_eq.
Qed.

(** An explanation and a classification asked for in the same state are one decision: both
    leave the same governor behind, both fail with the same error, and the explanation carries
    the verdict, the authority, the reasons, the measurements, the trace and the authority vector of the
    classification, with the intents and the history the governor holds for the flow afterwards. *)
Theorem explanation_is_the_decision flow generation now g :
  match Governor.classification flow generation now g, explain flow generation now g with
  | (g1, Err c1), (g2, Err c2) => g1 = g2 /\ c1 = c2
  | (g1, Val cls), (g2, Val e) =>
      g1 = g2 /\ Explanation.found e = true /\
      (Explanation.flow e, Explanation.flow_generation e) = (flow, generation) /\
      Explanation.state e = FlowClassification.state cls /\
      Explanation.authority e = FlowClassification.authority cls /\
      Explanation.reasons e = FlowClassification.reasons cls /\
      Explanation.measurements e = FlowClassification.measurements cls /\
      Explanation.impact e = FlowClassification.impact cls /\
      Explanation.trace e = FlowClassification.trace cls /\
      Explanation.truncated e = FlowClassification.trace_truncated cls /\
      Explanation.authority_vector e = FlowClassification.authority_vector cls /\
      Explanation.intents e = IntentLedger.for_flow flow generation (Governor.intents_ g1) /\
      exists h, Governor.history flow generation g1 = Some h /\
        Explanation.history_digest e = ClassificationHistory.digest_ h /\
        Explanation.history_folded e = ClassificationHistory.folded_count_ h
  | _, _ => False
  end.
Proof.
  unfold Governor.classification, explain, Governor.history.
  destruct (Governor.with_record (flow, generation) (Governor.evaluate now) g) as [g1 [d|c]] eqn:E; [|done].
  destruct (with_record_result _ _ _ _ _ E) as [record ->]. cbn. repeat (split; [reflexivity|]). by exists (FlowRecord.history record).
Qed.

(** The lines of an explanation never exceed their ceiling of 48, and an explanation that does
    not say it was cut leaves nothing out: every reason, every threshold of the trace and every intent
    has its line. Without cut evidence it is cut only when there are more than 48 lines to show. *)
Theorem explanation_lines_complete e lines truncated :
  build_explanation_lines e = (lines, truncated) ->
  size_of lines <= kMaxExplanationLines /\
  (truncated = false -> Explanation.found e = true ->
    (forall name, name ∈ reason_names (Explanation.reasons e) -> ExplanationLine.mk (classify_reason name) name ∈ lines) /\
    (forall entry, entry ∈ Explanation.trace e ->
       ExplanationLine.mk ExplanationKind.Qualification (build (threshold_chunks entry)) ∈ lines) /\
    (forall intent, intent ∈ Explanation.intents e ->
       ExplanationLine.mk ExplanationKind.Intent (build (intent_chunks intent)) ∈ lines)) /\
  (truncated = true -> Explanation.truncated e = true \/
    (48 < 7 + length (reason_names (Explanation.reasons e)) + length (Explanation.trace e) + length (Explanation.intents e))%nat).
Proof.
  rewrite lines_spec. intros [= <- <-]. split; [|split].
  - unfold size_of. rewrite length_take. change kMaxExplanationLines with 48. lia.
  - intros Ht Hfound. apply orb_false_elim in Ht as [_ Ht]. apply Nat.ltb_ge in Ht. rewrite take_ge by done.
    unfold all_lines. rewrite Hfound. cbn [negb]. split; [|split].
    + intros name Hn. rewrite !elem_of_app. right; left. by apply (list_elem_of_fmap_2 (fun name => ExplanationLine.mk (classify_reason name) name)).
    + intros entry Hn. rewrite !elem_of_app. do 3 right; left.
      by apply (list_elem_of_fmap_2 (fun entry => ExplanationLine.mk ExplanationKind.Qualification (build (threshold_chunks entry)))).
    + intros intent Hn. rewrite !elem_of_app. do 5 right; left.
      by apply (list_elem_of_fmap_2 (fun intent => ExplanationLine.mk ExplanationKind.Intent (build (intent_chunks intent)))).
  - intros Ht. apply orb_true_elim in Ht as [Ht|Ht]; [by left|right]. apply Nat.ltb_lt in Ht.
    unfold all_lines in Ht. destruct (negb _); [cbn [length] in Ht; lia|]. rewrite !length_app, !length_fmap in Ht. cbn [length] in Ht. lia.
Qed.

(** ** Witnesses *)

(** The explanation of the demo flow. *)
Definition demo_explanation : Explanation.t :=
  Eval vm_compute in
    match snd (explain 7 1 300 demo_run) with
    | Val e => e
    | Err _ => Explanation.mk 0 0 false ElephantState.Unknown AuthorityLevel.None 0 [] [] false
                 FlowMeasurements.default ImpactAssessment.default [] AuthorityVector.default [] 0 0
    end.

Lemma demo_explanation_ok : explanation_ok demo_explanation.
Proof. split; cbn; repeat first [split | constructor]; vm_compute; congruence. Qed.

Lemma explanation_is_json_witness :
  Explanation.state demo_explanation = ElephantState.Elephant /\
  read_json (render_json demo_explanation) = Some (explanation_json demo_explanation).
Proof. split; [reflexivity|]. apply (explanation_is_json demo_explanation), demo_explanation_ok. Defined.

Lemma explanation_lines_complete_witness :
  snd (build_explanation_lines demo_explanation) = false /\
  size_of (fst (build_explanation_lines demo_explanation)) = 12 /\
  size_of (fst (build_explanation_lines demo_explanation)) <= kMaxExplanationLines.
Proof.
  split; [vm_compute; reflexivity|]. split; [vm_compute; reflexivity|].
  destruct (explanation_lines_complete demo_explanation (fst (build_explanation_lines demo_explanation))
    (snd (build_explanation_lines demo_explanation))) as [H _]; [|exact H].
  apply surjective_pairing.
Defined.
