(* ===== verification/Transport.v ===== *)
(** * Framed transport ([include/efg/transport.hpp], [src/transport.cpp])

    The frame codec and the stream it runs over. A socket is known by what it answers: the
    arrivals are what successive [recv] calls find, in the pieces the network makes of them,
    until the peer closes (the end of the list), the connection is reset, or the peer falls silent
    without closing; the answers to [send] are a list as well, in which a peer that no longer reads
    is [None], and a list that has run out accepts everything. The sockets block and have no
    timeout, so a [recv] from a silent peer and a [send] to one that does not read never return:
    they leave the stream [blocked], and whoever called them goes no further. The POSIX
    variants of the code are modelled. *)
From Stdlib Require Import String Ascii.
From S2P Require Import Prelude Status Checked Tick Hash Codec Journal Text.

Definition kMaxFramePayload : Z := Z.shiftl 1 20.
Definition kMaxFrameBytes : Z := kMaxFramePayload + 64.
Definition kMaxEvidenceBatch : Z := 4096.
Definition kMaxWorkers : Z := Z.shiftl 1 10.

Abbreviation WorkerId := Z (only parsing).

Module FrameType.
Inductive t : Type :=
| Invalid | Hello | Welcome | Fence | Heartbeat | EvidenceBatch | EvidenceAck | FlowCompletion
| PolicyPush | CapacityPush | PathPush | IntentGrant | StatusReport | Shutdown | Bye | Failure | Count.
#[global] Instance eq_dec : EqDecision t.
Proof. solve_decision. Defined.
Definition all : list t :=
  [Invalid; Hello; Welcome; Fence; Heartbeat; EvidenceBatch; EvidenceAck; FlowCompletion; PolicyPush;
   CapacityPush; PathPush; IntentGrant; StatusReport; Shutdown; Bye; Failure].
Definition to_u16 (x : t) : Z :=
  match x with
  | Invalid => 0 | Hello => 1 | Welcome => 2 | Fence => 3 | Heartbeat => 4 | EvidenceBatch => 5
  | EvidenceAck => 6 | FlowCompletion => 7 | PolicyPush => 8 | CapacityPush => 9 | PathPush => 10
  | IntentGrant => 11 | StatusReport => 12 | Shutdown => 13 | Bye => 14 | Failure => 15 | Count => 16
  end.
Definition of_u16 (raw : Z) : t := nth (Z.to_nat raw) all Count.
Definition to_string (x : t) : list Z :=
  text match x with
       | Invalid => "invalid" | Hello => "hello" | Welcome => "welcome" | Fence => "fence"
       | Heartbeat => "heartbeat" | EvidenceBatch => "evidence_batch" | EvidenceAck => "evidence_ack"
       | FlowCompletion => "flow_completion" | PolicyPush => "policy_push"
       | CapacityPush => "capacity_push" | PathPush => "path_push" | IntentGrant => "intent_grant"
       | StatusReport => "status_report" | Shutdown => "shutdown" | Bye => "bye"
       | Failure => "failure" | Count => "count"
       end.
End FrameType.

(** The first type below [Count] of that name. *)
Definition parse_frame_type (name : list Z) : option FrameType.t :=
  List.find (fun type => bool_decide (FrameType.to_string type = name)) FrameType.all.

Module FenceReason.
Inductive t : Type :=
| None | EpochStale | EpochAhead | BootMismatch | WorkerUnknown | WorkerDuplicate | FrameMalformed
| FrameOversized | IntegrityFailure | SchemaMismatch | GenerationRegression | ShuttingDown
| PopulationCeiling.
#[global] Instance eq_dec : EqDecision t.
Proof. solve_decision. Defined.
Definition to_u16 (x : t) : Z :=
  match x with
  | None => 0 | EpochStale => 1 | EpochAhead => 2 | BootMismatch => 3 | WorkerUnknown => 4
  | WorkerDuplicate => 5 | FrameMalformed => 6 | FrameOversized => 7 | IntegrityFailure => 8
  | SchemaMismatch => 9 | GenerationRegression => 10 | ShuttingDown => 11 | PopulationCeiling => 12
  end.
Definition to_string (x : t) : list Z :=
  text match x with
       | None => "none" | EpochStale => "epoch_stale" | EpochAhead => "epoch_ahead"
       | BootMismatch => "boot_mismatch" | WorkerUnknown => "worker_unknown"
       | WorkerDuplicate => "worker_duplicate" | FrameMalformed => "frame_malformed"
       | FrameOversized => "frame_oversized" | IntegrityFailure => "integrity_failure"
       | SchemaMismatch => "schema_mismatch" | GenerationRegression => "generation_regression"
       | ShuttingDown => "shutting_down" | PopulationCeiling => "population_ceiling"
       end.
End FenceReason.

(** ** Frames *)

Definition kFrameMagic : Z := 0x45464746.
Definition kFrameHeaderBytes : Z := 56.
Definition kFrameCrcOffset : Z := 52.

Module FrameHeader.
Record t := mk {
  type : FrameType.t;
  flags : Z;
  sequence : Z;
  epoch : EpochId;
  boot : BootId;
  worker : WorkerId;
  payload_length : Z;
  payload_crc : Z }.
#[global] Instance eta_t : Eta t := fun r =>
  mk (type r) (flags r) (sequence r) (epoch r) (boot r) (worker r) (payload_length r) (payload_crc r).
End FrameHeader.

Module Frame.
Record t := mk { header : FrameHeader.t; payload : list Z }.
#[global] Instance eta_t : Eta t := fun r => mk (header r) (payload r).
Definition wire_size (f : t) : Z := kFrameHeaderBytes + size_of (payload f).
End Frame.

(** [limits_.max_payload] is the argument of the codec's methods. *)
Module FrameCodec.
Definition encode (max_payload : Z) (frame : Frame.t) : M ByteWriter.t unit :=
  let header := Frame.header frame in
  let type := FrameHeader.type header in
  lift (refuse_if ((FrameType.to_u16 type >=? FrameType.to_u16 FrameType.Count) ||
                   bool_decide (type = FrameType.Invalid)) StatusCode.InvalidArgument) ;;
  lift (refuse_if (size_of (Frame.payload frame) >? max_payload) StatusCode.Oversized) ;;
  modify (emit [
    put_u32 kFrameMagic;
    put_u32 kSchemaVersion;
    put_u16 (FrameType.to_u16 type);
    put_u16 (FrameHeader.flags header);
    put_u64 (FrameHeader.sequence header);
    put_u64 (FrameHeader.epoch header);
    put_u64 (FrameHeader.boot header);
    put_u64 (FrameHeader.worker header);
    put_u32 (wrap 32 (size_of (Frame.payload frame)));
    put_u32 (crc32c (Frame.payload frame)) ]) ;;
  writer ← get;
  lift (refuse_if (negb (ByteWriter.size writer =? kFrameCrcOffset)) StatusCode.Internal) ;;
  modify (emit [
    put_u32 (crc32c (ByteWriter.buffer_ writer));
    put_bytes (Frame.payload frame) ]) ;;
  writer ← get;
  lift (refuse_if (ByteWriter.overflowed_ writer) StatusCode.Oversized).

(** What a failing call had stored in its output argument is discarded by every caller. *)
Definition decode_header (max_payload : Z) (bytes : list Z) : StatusOr FrameHeader.t :=
  refuse_if (size_of bytes <? kFrameHeaderBytes) StatusCode.Truncated ;;
  snd ((magic ← need_u32;
        schema ← need_u32;
        type ← need ByteReader.read_u16;
        flags ← need ByteReader.read_u16;
        lift (refuse_if (negb (magic =? kFrameMagic)) StatusCode.Corrupt) ;;
        lift (refuse_if (negb (schema =? kSchemaVersion)) StatusCode.VersionMismatch) ;;
        lift (refuse_if ((type =? 0) || (type >=? FrameType.to_u16 FrameType.Count))
                StatusCode.Corrupt) ;;
        sequence ← need_u64;
        epoch ← need_u64;
        boot ← need_u64;
        worker ← need_u64;
        payload_length ← need_u32;
        payload_crc ← need_u32;
        header_crc ← need_u32;
        lift (refuse_if (negb (header_crc =? crc32c (take (Z.to_nat kFrameCrcOffset) bytes)))
                StatusCode.IntegrityFailure) ;;
        lift (refuse_if (payload_length >? max_payload) StatusCode.Oversized) ;;
        mret (FrameHeader.mk (FrameType.of_u16 type) flags sequence epoch boot worker payload_length
                payload_crc))
       (ByteReader.make (take (Z.to_nat kFrameHeaderBytes) bytes))).

Definition decode (max_payload : Z) (bytes : list Z) : StatusOr Frame.t :=
  header ← decode_header max_payload bytes;
  let length := FrameHeader.payload_length header in
  refuse_if (size_of bytes <? kFrameHeaderBytes + length) StatusCode.Truncated ;;
  let payload := take (Z.to_nat length) (drop (Z.to_nat kFrameHeaderBytes) bytes) in
  refuse_if (negb (crc32c payload =? FrameHeader.payload_crc header)) StatusCode.IntegrityFailure ;;
  Val (Frame.mk header payload).
End FrameCodec.

(** ** Streams *)

(** What one [recv] finds: at least one byte, a broken connection, or nothing for ever. *)
Inductive Arrival : Type := Bytes (first : Z) (more : list Z) | Reset | Silence.

(** The bytes that arrive before the stream ends, whether it ends otherwise than by a close, and
    whether it does not end at all. *)
Fixpoint incoming (l : list Arrival) : list Z :=
  match l with
  | Bytes b bs :: l => b :: bs ++ incoming l
  | _ => []
  end.
Fixpoint broken (l : list Arrival) : bool :=
  match l with
  | [] => false
  | Reset :: _ | Silence :: _ => true
  | Bytes _ _ :: l => broken l
  end.
Fixpoint stalls (l : list Arrival) : bool :=
  match l with
  | [] | Reset :: _ => false
  | Silence :: _ => true
  | Bytes _ _ :: l => stalls l
  end.

Module TcpStream.
Record t := mk {
  valid : bool;
  arrivals : list Arrival;
  sends : list (option Z);
  sent : list Z;
  shut : bool;
  blocked : bool }.
#[global] Instance eta_t : Eta t := fun r =>
  mk (valid r) (arrivals r) (sends r) (sent r) (shut r) (blocked r).

(** A call on the socket that does not return. *)
Definition block (s : t) : t := s <| blocked := true |>.

(** [std::min<std::size_t>(size, 0x40000000)]. *)
Definition chunk_of (size : nat) : nat := Z.to_nat (Z.min (Z.of_nat size) 0x40000000).

(** [::recv(socket, data, chunk, 0)]: up to [chunk] bytes, none at the end of the stream, or
    failure. What is returned for a call that blocks is immaterial. *)
Definition recv (chunk : nat) (s : t) : t * option (list Z) :=
  match arrivals s with
  | [] => (s, Some [])
  | Reset :: _ => (s, None)
  | Silence :: _ => (block s, None)
  | Bytes b bs :: more =>
      let more := match drop chunk (b :: bs) with [] => more | c :: cs => Bytes c cs :: more end in
      (s <| arrivals := more |>, Some (take chunk (b :: bs)))
  end.

(** Every turn receives at least one byte: [fuel] starts as the bytes still wanted. *)
Fixpoint read_loop (fuel want : nat) (got : list Z) (s : t) : t * StatusOr (list Z) :=
  match want with
  | O => (s, Val got)
  | Datatypes.S _ =>
  match fuel with
  | O => (s, Err StatusCode.Internal)
  | Datatypes.S fuel =>
      match recv (chunk_of want) s with
      | (s, None) => (s, Err StatusCode.IoError)
      | (s, Some []) => (s, Err StatusCode.Closed)
      | (s, Some received) => read_loop fuel (want - length received) (got ++ received) s
      end
  end
  end.
Definition read_exact (count : nat) : M t (list Z) := read_loop count count [].

Definition read_some (size : nat) : M t (list Z) := fun s =>
  if (size =? 0)%nat then (s, Err StatusCode.InvalidArgument)
  else
    match recv (chunk_of size) s with
    | (s, None) => (s, Err StatusCode.IoError)
    | (s, Some []) => (s, Err StatusCode.Closed)
    | (s, Some received) => (s, Val received)
    end.

(** [::send]: the number of bytes taken, at most those offered, unless it blocks. Nothing is
    sent behind a shutdown. *)
Definition send (bytes : list Z) (s : t) : t * Z :=
  if shut s then (s, -1)
  else
  let '(answer, more) := match sends s with [] => (Some (size_of bytes), []) | n :: more => (n, more) end in
  match answer with
  | None => (block s, -1)
  | Some n =>
      let n := Z.min n (size_of bytes) in
      (s <| sends := more |> <| sent ::= (fun out => out ++ take (Z.to_nat n) bytes) |>, n)
  end.

Fixpoint write_loop (fuel : nat) (bytes : list Z) (s : t) : t * Status :=
  match bytes with
  | [] => (s, Val tt)
  | _ =>
  match fuel with
  | O => (s, Err StatusCode.Internal)
  | Datatypes.S fuel =>
      let '(s, sent) := send (take (chunk_of (length bytes)) bytes) s in
      if sent <=? 0 then (s, Err StatusCode.IoError)
      else write_loop fuel (drop (Z.to_nat sent) bytes) s
  end
  end.
Definition write_all (bytes : list Z) : M t unit := write_loop (length bytes) bytes.

(** The status of a shutdown and of a close is ignored by every caller. *)
Definition shutdown_send (s : t) : t := s <| shut := true |>.
Definition close (s : t) : t := s <| valid := false |>.
End TcpStream.

Definition read_frame (max_payload : Z) : M TcpStream.t Frame.t :=
  header ← TcpStream.read_exact (Z.to_nat kFrameHeaderBytes);
  parsed ← lift (FrameCodec.decode_header max_payload header);
  tail ← (if negb (FrameHeader.payload_length parsed =? 0)
          then TcpStream.read_exact (Z.to_nat (FrameHeader.payload_length parsed))
          else mret []);
  lift (FrameCodec.decode max_payload (header ++ tail)).

Definition write_frame (max_payload : Z) (frame : Frame.t) : M TcpStream.t unit :=
  let '(writer, encoded) := FrameCodec.encode max_payload frame (ByteWriter.make kMaxFrameBytes) in
  lift encoded ;;
  TcpStream.write_all (ByteWriter.buffer_ writer).
