(* ===== verification/TransportFacts.v ===== *)
(** * What the framed transport guarantees

    A stream delivers its bytes in order however the network cuts them; a frame that is written
    is read back, and nothing else ever is: a changed byte or a missing tail is refused. *)
From S2P Require Import Prelude Status Checked Tick Hash Codec CodecFacts Journal JournalFacts Text Transport.

#[local] Opaque crc32c.

(** ** Streams *)

Lemma chunk_bounds n : (0 < n)%nat -> (0 < TcpStream.chunk_of n <= n)%nat.
Proof. unfold TcpStream.chunk_of. lia. Qed.

(** A stream that is blocked if [b]. *)
Definition block_if (b : bool) (s : TcpStream.t) : TcpStream.t := if b then TcpStream.block s else s.

(** One [recv]: some of the bytes to come, the end, or no return. *)
Lemma recv_spec chunk s :
  (0 < chunk)%nat ->
  let l := TcpStream.arrivals s in
  (incoming l = [] /\ TcpStream.recv chunk s = (block_if (stalls l) s, if broken l then None else Some [])) \/
  exists k l', (0 < k <= chunk)%nat /\ (k <= length (incoming l))%nat /\
  TcpStream.recv chunk s = (s <| TcpStream.arrivals := l' |>, Some (take k (incoming l))) /\
  incoming l' = drop k (incoming l) /\ broken l' = broken l /\ stalls l' = stalls l.
Proof.
  intros Hc l. unfold TcpStream.recv. subst l. destruct (TcpStream.arrivals s) as [|[b bs| |] more] eqn:El;
    [by left| |by left|by left].
  right. cbn [incoming broken stalls]. rewrite app_comm_cons. set (l := b :: bs).
  assert (Hl : (0 < length l)%nat) by (cbn; lia).
  destruct (Nat.le_gt_cases (length l) chunk) as [Hle|Hgt].
  - exists (length l), more. rewrite drop_ge, take_ge, take_app_length, drop_app_length, length_app by done.
    split; [lia|]. split; [lia|]. done.
  - destruct (drop chunk l) as [|c cs] eqn:Ed.
    { apply (f_equal length) in Ed. rewrite length_drop in Ed. cbn [length] in Ed. lia. }
    exists chunk, (Bytes c cs :: more). rewrite take_app_le, drop_app_le, Ed, length_app by lia.
    split; [lia|]. split; [lia|]. done.
Qed.

Lemma read_loop_spec fuel : forall want got s,
  (want <= fuel)%nat ->
  let l := TcpStream.arrivals s in
  exists l', TcpStream.read_loop fuel want got s =
    (block_if (stalls l && (length (incoming l) <? want)%nat) (s <| TcpStream.arrivals := l' |>),
     if (want <=? length (incoming l))%nat then Val (got ++ take want (incoming l))
     else Err (if broken l then StatusCode.IoError else StatusCode.Closed)) /\
  incoming l' = drop want (incoming l) /\ broken l' = broken l /\ stalls l' = stalls l.
Proof.
  induction fuel as [|fuel IH]; intros [|want] got s Hf l; cbn [TcpStream.read_loop]; try lia.
  1,2: exists l; rewrite take_0, drop_0, app_nil_r, andb_false_r; by destruct s.
  destruct (chunk_bounds (S want)) as [Hc Hcw]; [lia|].
  destruct (recv_spec (TcpStream.chunk_of (S want)) s Hc) as [[Hi ->]|(k & l1 & Hk & Hkl & -> & Hi & Hb & Hst)].
  - fold l in Hi. exists l. rewrite Hi. cbn [length Nat.leb drop]. fold l. rewrite andb_true_r. by destruct (broken l), (stalls l), s.
  - fold l in Hkl, Hi, Hb, Hst |- *. set (x := take k (incoming l)).
    assert (Hx : length x = k) by (unfold x; rewrite length_take; lia).
    destruct x as [|b bs] eqn:Ex; [cbn in Hx; lia|]. rewrite <- Ex in Hx |- *. clear Ex. subst x.
    rewrite Hx. destruct (IH (S want - k)%nat (got ++ take k (incoming l)) (s <| TcpStream.arrivals := l1 |>))
      as (l2 & E & Hi2 & Hb2 & Hst2); [lia|].
    cbn [TcpStream.arrivals update eta TcpStream.eta_t] in E, Hi2, Hb2, Hst2. rewrite E. exists l2.
    rewrite Hi, Hb, Hst in *. rewrite length_drop, drop_drop in *.
    replace (k + (S want - k))%nat with (S want) in * by lia. split; [|by rewrite Hi2, Hb2, Hst2].
    replace (length (incoming l) - k <? S want - k)%nat with (length (incoming l) <? S want)%nat
      by (destruct (Nat.ltb_spec (length (incoming l)) (S want)), (Nat.ltb_spec (length (incoming l) - k) (S want - k)); done || lia).
    f_equal. destruct (Nat.leb_spec (S want - k) (length (incoming l) - k));
      destruct (Nat.leb_spec (S want) (length (incoming l))); try lia; [|done].
    rewrite <- app_assoc. do 2 f_equal.
    rewrite <- (take_drop k (take (S want) (incoming l))), take_take, Nat.min_l by lia.
    by rewrite skipn_firstn_comm.
Qed.

Lemma read_exact_spec n s :
  let l := TcpStream.arrivals s in
  exists l', TcpStream.read_exact n s =
    (block_if (stalls l && (length (incoming l) <? n)%nat) (s <| TcpStream.arrivals := l' |>),
     if (n <=? length (incoming l))%nat then Val (take n (incoming l))
     else Err (if broken l then StatusCode.IoError else StatusCode.Closed)) /\
  incoming l' = drop n (incoming l) /\ broken l' = broken l /\ stalls l' = stalls l.
Proof. apply (read_loop_spec n n []). done. Qed.

(** A stream that sends everything offered, in whatever pieces. *)
Definition taken (answer : option Z) : Prop := match answer with Some n => 0 < n | None => False end.
Definition sending (s : TcpStream.t) : Prop :=
  TcpStream.blocked s = false /\ TcpStream.shut s = false /\ Forall taken (TcpStream.sends s).

Lemma write_loop_spec fuel : forall bytes s,
  (length bytes <= fuel)%nat -> sending s ->
  exists sends, TcpStream.write_loop fuel bytes s =
    (s <| TcpStream.sends := sends |> <| TcpStream.sent ::= (fun out => out ++ bytes) |>, Val tt) /\
  Forall taken sends.
Proof.
  induction fuel as [|fuel IH]; intros [|b bytes] s Hf (Hbl & Hs & Hp); cbn [length] in Hf; try lia.
  1,2: exists (TcpStream.sends s); split; [|done]; cbn [TcpStream.write_loop]; f_equal; destruct s; cbv [update eta TcpStream.eta_t]; cbn; by rewrite app_nil_r.
  cbn [TcpStream.write_loop]. set (bs := b :: bytes) in *.
  destruct (chunk_bounds (length bs)) as [Hc Hcw]; [cbn; lia|].
  set (offer := take (TcpStream.chunk_of (length bs)) bs).
  assert (Ho : length offer = TcpStream.chunk_of (length bs)) by (unfold offer; rewrite length_take; lia).
  assert (Hsend : exists k more, (0 < k <= length bs)%nat /\ Forall taken more /\
    TcpStream.send offer s = (s <| TcpStream.sends := more |>
      <| TcpStream.sent ::= (fun out => out ++ take k bs) |>, Z.of_nat k)).
  { unfold TcpStream.send. rewrite Hs. destruct (TcpStream.sends s) as [|n more] eqn:En.
    - exists (length offer), []. unfold size_of. rewrite Z.min_id, Nat2Z.id.
      split; [lia|]. split; [done|]. rewrite take_ge by done. unfold offer. by rewrite length_take, Nat.min_l by lia.
    - inversion Hp as [|? ? Hn Hm]; subst. destruct n as [n|]; [|destruct Hn]. cbn in Hn. exists (Z.to_nat (Z.min n (size_of offer))), more.
      unfold size_of in *. split; [lia|]. split; [done|]. f_equal; [|lia].
      assert (Et : take (Z.to_nat (Z.min n (Z.of_nat (length offer)))) offer =
                   take (Z.to_nat (Z.min n (Z.of_nat (length offer)))) bs).
      { unfold offer at 2. rewrite take_take. f_equal. lia. }
      by rewrite Et. }
  destruct Hsend as (k & more & Hk & Hm & ->). replace (Z.of_nat k <=? 0) with false by lia.
  rewrite Nat2Z.id. destruct (IH (drop k bs) (s <| TcpStream.sends := more |>
      <| TcpStream.sent ::= (fun out => out ++ take k bs) |>)) as (sends & E & Hsends).
  { rewrite length_drop. cbn in *. lia. }
  { by split. }
  exists sends. split; [|done]. rewrite E. f_equal. destruct s. cbv [update eta TcpStream.eta_t].
  cbn. rewrite <- app_assoc. by rewrite take_drop.
Qed.

Lemma write_all_spec bytes s :
  sending s ->
  exists s', TcpStream.write_all bytes s = (s', Val tt) /\ sending s' /\
  TcpStream.sent s' = TcpStream.sent s ++ bytes /\
  TcpStream.arrivals s' = TcpStream.arrivals s /\ TcpStream.valid s' = TcpStream.valid s.
Proof.
  intros Hs. destruct (write_loop_spec (length bytes) bytes s) as (sends & E & Hf); [done..|].
  eexists. split; [exact E|]. destruct Hs as (? & ? & _). by split.
Qed.

(** ** Frames on the wire *)

Definition frame_fields (h : FrameHeader.t) : list Z :=
  le_bytes 4 kFrameMagic ++ le_bytes 4 kSchemaVersion ++ le_bytes 2 (FrameType.to_u16 (FrameHeader.type h)) ++
  le_bytes 2 (FrameHeader.flags h) ++ le_bytes 8 (FrameHeader.sequence h) ++
  le_bytes 8 (FrameHeader.epoch h) ++ le_bytes 8 (FrameHeader.boot h) ++ le_bytes 8 (FrameHeader.worker h) ++
  le_bytes 4 (FrameHeader.payload_length h) ++ le_bytes 4 (FrameHeader.payload_crc h) ++ [].

Definition header_bytes (h : FrameHeader.t) : list Z :=
  frame_fields h ++ le_bytes 4 (crc32c (frame_fields h)) ++ [].

(** The frame as it is received: the sender leaves length and checksum to the codec. *)
Definition completed (f : Frame.t) : Frame.t :=
  f <| Frame.header ::= (fun h =>
    h <| FrameHeader.payload_length := size_of (Frame.payload f) |>
      <| FrameHeader.payload_crc := crc32c (Frame.payload f) |>) |>.

Definition frame_bytes (f : Frame.t) : list Z :=
  header_bytes (Frame.header (completed f)) ++ Frame.payload f.

(** Headers within the width of their fields, and frames that may be sent. *)
Record header_ok (h : FrameHeader.t) : Prop := {
  ho_type : FrameHeader.type h <> FrameType.Invalid /\ FrameHeader.type h <> FrameType.Count;
  ho_flags : u16_ok (FrameHeader.flags h);
  ho_sequence : u64_ok (FrameHeader.sequence h);
  ho_epoch : u64_ok (FrameHeader.epoch h);
  ho_boot : u64_ok (FrameHeader.boot h);
  ho_worker : u64_ok (FrameHeader.worker h);
  ho_length : u32_ok (FrameHeader.payload_length h);
  ho_crc : u32_ok (FrameHeader.payload_crc h) }.

Record frame_ok (max_payload : Z) (f : Frame.t) : Prop := {
  fo_header : header_ok (Frame.header (completed f));
  fo_size : size_of (Frame.payload f) <= max_payload }.

Lemma length_frame_fields h : length (frame_fields h) = 52%nat.
Proof. unfold frame_fields. by rewrite !length_app, !length_le_bytes. Qed.
Lemma length_header_bytes h : length (header_bytes h) = 56%nat.
Proof. unfold header_bytes. by rewrite !length_app, length_frame_fields, length_le_bytes. Qed.
Lemma length_frame_bytes f : length (frame_bytes f) = (56 + length (Frame.payload f))%nat.
Proof. unfold frame_bytes. by rewrite length_app, length_header_bytes. Qed.

Lemma completed_idem f : completed (completed f) = completed f.
Proof. by destruct f as [[] ?]. Qed.
Lemma frame_bytes_completed f : frame_bytes (completed f) = frame_bytes f.
Proof. unfold frame_bytes. by rewrite completed_idem. Qed.

Lemma frame_type_code type : type <> FrameType.Invalid /\ type <> FrameType.Count ->
  FrameType.of_u16 (FrameType.to_u16 type) = type /\ 1 <= FrameType.to_u16 type <= 15.
Proof. intros []. by destruct type. Qed.

Lemma frame_type_cast raw : 1 <= raw <= 15 ->
  FrameType.to_u16 (FrameType.of_u16 raw) = raw /\
  FrameType.of_u16 raw <> FrameType.Invalid /\ FrameType.of_u16 raw <> FrameType.Count.
Proof.
  intros H. assert (E : In raw [1; 2; 3; 4; 5; 6; 7; 8; 9; 10; 11; 12; 13; 14; 15]) by (simpl; lia).
  repeat (destruct E as [<-|E]; [done|]). done.
Qed.

(** Every type that can be sent has a name of its own. *)
Lemma frame_type_names type :
  parse_frame_type (FrameType.to_string type) = if bool_decide (type = FrameType.Count) then None else Some type.
Proof. by destruct type. Qed.

(** A fresh writer with enough room holds what is written. *)
Lemma writes_room f bs ceiling : writes f bs -> size_of bs <= ceiling ->
  let w := f (ByteWriter.make ceiling) in
  ByteWriter.buffer_ w = bs /\ ByteWriter.overflowed_ w = false /\ ByteWriter.ceiling_ w = ceiling /\ writer_ok w.
Proof.
  intros Hf Hc. destruct (Hf (ByteWriter.make ceiling)) as (Hok & Hce & Ho & Hb).
  { pose proof (size_of_nonneg bs). unfold writer_ok, ByteWriter.size, size_of in *. simpl. lia. }
  assert (E : ByteWriter.overflowed_ (f (ByteWriter.make ceiling)) = false) by (apply Ho; by split).
  cbn zeta. rewrite (Hb E). done.
Qed.

Lemma encode_frame max_payload f :
  frame_ok max_payload f -> max_payload <= kMaxFramePayload ->
  exists w, FrameCodec.encode max_payload f (ByteWriter.make kMaxFrameBytes) = (w, Val tt) /\
  ByteWriter.buffer_ w = frame_bytes f.
Proof.
  intros [Hh Hs] Hmax. pose proof (size_of_nonneg (Frame.payload f)) as Hpos.
  change kMaxFramePayload with 1048576 in Hmax. pose proof (frame_type_code _ (ho_type _ Hh)) as [_ Ht].
  destruct (ho_type _ Hh) as [Hi _]. cbn in Ht, Hi. unfold FrameCodec.encode. rewrite !run_guard.
  replace (_ || _) with false
    by (symmetry; apply orb_false_iff; split; [cbn; blia|by apply bool_decide_eq_false]).
  replace (_ >? _) with false by (symmetry; blia).
  rewrite wrap_small by ulia.
  match goal with |- context [modify (emit ?fs)] =>
    destruct (writes_room (emit fs) (frame_fields (Frame.header (completed f))) kMaxFrameBytes) as (Hb & Ho & Hc & Hok) end.
  { repeat (apply writes_cons; [apply writes_push|]). apply writes_nil. }
  { unfold size_of. by rewrite length_frame_fields. }
  erewrite run_bind by reflexivity. set (w := emit _ _) in *. clearbody w.
  erewrite run_bind by reflexivity. rewrite run_guard. unfold ByteWriter.size. rewrite Hb. unfold size_of at 1. rewrite length_frame_fields.
  cbn [negb Z.eqb]. change (negb (Z.of_nat 52 =? kFrameCrcOffset)) with false. cbv iota.
  erewrite run_bind by reflexivity.
  match goal with |- context [emit ?fs w] =>
    assert (Hw : writes (emit fs) (le_bytes 4 (crc32c (frame_fields (Frame.header (completed f)))) ++
                                   Frame.payload f ++ [])) end.
  { repeat (apply writes_cons; [apply writes_push|]). apply writes_nil. }
  destruct (Hw w Hok) as (_ & _ & Ho' & Hb'). set (w' := emit _ w) in *.
  assert (Hroom : ByteWriter.overflowed_ w' = false).
  { apply Ho'. split; [done|]. rewrite Hc. unfold ByteWriter.size. rewrite Hb.
    rewrite app_nil_r, size_of_app. unfold size_of at 1 2. rewrite length_frame_fields, length_le_bytes.
    change kMaxFrameBytes with (1048576 + 64). lia. }
  exists w'. erewrite run_bind by reflexivity. unfold lift. rewrite Hroom. split; [done|].
  rewrite (Hb' Hroom), Hb, app_nil_r. unfold frame_bytes, header_bytes. by rewrite <- !app_assoc.
Qed.

(** Reading fields one after the other. *)
Lemma parses_exactly {A} (m : M ByteReader.t A) bs tail x :
  parses m bs x -> snd (m (ByteReader.make (bs ++ tail))) = Val x.
Proof.
  intros Hp. destruct (parses_all _ _ _ Hp (ByteReader.make (bs ++ tail)) tail) as (r' & -> & _); [|done].
  unfold rest. by rewrite drop_0.
Qed.

Lemma decode_header_bytes max_payload h tail :
  header_ok h -> FrameHeader.payload_length h <= max_payload ->
  FrameCodec.decode_header max_payload (header_bytes h ++ tail) = Val h.
Proof.
  intros Hh Hmax. unfold FrameCodec.decode_header.
  replace (size_of _ <? kFrameHeaderBytes) with false
    by (symmetry; apply Z.ltb_ge; unfold size_of; rewrite length_app, length_header_bytes; change kFrameHeaderBytes with 56; lia).
  cbn [refuse_if mbind StatusOr_bind]. change (Z.to_nat kFrameHeaderBytes) with 56%nat.
  change (Z.to_nat kFrameCrcOffset) with 52%nat.
  replace (take 52 (header_bytes h ++ tail)) with (frame_fields h)
    by (unfold header_bytes; rewrite <- app_assoc; symmetry; apply take_app_length'; by rewrite length_frame_fields).
  rewrite take_app_length' by (by rewrite length_header_bytes).
  rewrite <- (app_nil_r (header_bytes h)). apply parses_exactly.
  destruct (frame_type_code _ (ho_type _ Hh)) as [Hof Hrange].
  unfold header_bytes. set (crc := crc32c (frame_fields h)).
  assert (Hcrc : u32_ok crc) by apply crc32c_range. clearbody crc.
  unfold frame_fields. destruct Hh. rewrite <- !app_assoc, app_nil_l.
  eapply parses_bind; [apply parses_need_value; by vm_compute|].
  eapply parses_bind; [apply parses_need_value; by vm_compute|].
  eapply parses_bind; [apply parses_need_value; unfold in_range; lia|].
  eapply parses_bind; [by apply parses_need_value|].
  apply parses_guard; [by rewrite Z.eqb_refl|]. apply parses_guard; [by rewrite Z.eqb_refl|].
  apply parses_guard.
  { apply orb_false_iff. cbn. split; [apply Z.eqb_neq; lia|]. rewrite Z.geb_leb. apply Z.leb_gt. lia. }
  do 7 (eapply parses_bind; [by apply parses_need_value|]).
  apply parses_guard; [by rewrite Z.eqb_refl|]. apply parses_guard; [blia|].
  rewrite Hof. destruct h. apply parses_ret.
Qed.

Lemma decode_frame max_payload f tail :
  frame_ok max_payload f ->
  FrameCodec.decode max_payload (frame_bytes f ++ tail) = Val (completed f).
Proof.
  intros [Hh Hs]. unfold FrameCodec.decode, frame_bytes. rewrite <- app_assoc, decode_header_bytes by done.
  cbn [mbind StatusOr_bind]. change (Z.to_nat kFrameHeaderBytes) with 56%nat.
  change (FrameHeader.payload_length _) with (size_of (Frame.payload f)).
  change (FrameHeader.payload_crc _) with (crc32c (Frame.payload f)).
  replace (size_of _ <? _) with false.
  2: { symmetry. apply Z.ltb_ge. unfold size_of. rewrite !length_app, length_header_bytes. change kFrameHeaderBytes with 56. lia. }
  cbn [refuse_if]. rewrite drop_app_length' by (by rewrite length_header_bytes).
  unfold size_of. rewrite Nat2Z.id, take_app_length, Z.eqb_refl. by destruct f.
Qed.

(** [read_frame] on a stream whose next bytes are those of a frame. *)
Lemma read_frame_spec max_payload f tail s :
  frame_ok max_payload f -> incoming (TcpStream.arrivals s) = frame_bytes f ++ tail ->
  exists l, read_frame max_payload s = (s <| TcpStream.arrivals := l |>, Val (completed f)) /\
  incoming l = tail /\ broken l = broken (TcpStream.arrivals s) /\ stalls l = stalls (TcpStream.arrivals s).
Proof.
  intros Hf Hi. pose proof (length_frame_bytes f) as Hlen. unfold read_frame.
  change (Z.to_nat kFrameHeaderBytes) with 56%nat.
  destruct (read_exact_spec 56 s) as (l1 & E1 & Hi1 & Hb1 & Hst1). rewrite Hi in E1, Hi1.
  rewrite length_app, Hlen in E1. replace (56 <=? _)%nat with true in E1 by (symmetry; apply Nat.leb_le; lia).
  replace (_ <? 56)%nat with false in E1 by (symmetry; apply Nat.ltb_ge; lia). rewrite andb_false_r in E1. cbn [block_if] in E1.
  assert (Eh : take 56 (frame_bytes f ++ tail) = header_bytes (Frame.header (completed f))).
  { unfold frame_bytes. rewrite <- app_assoc. apply take_app_length'. by rewrite length_header_bytes. }
  assert (Et : drop 56 (frame_bytes f ++ tail) = Frame.payload f ++ tail).
  { unfold frame_bytes. rewrite <- app_assoc. apply drop_app_length'. by rewrite length_header_bytes. }
  rewrite Eh in E1. rewrite Et in Hi1. rewrite (run_bind _ _ _ _ _ E1).
  assert (Ed : FrameCodec.decode_header max_payload (header_bytes (Frame.header (completed f))) =
    Val (Frame.header (completed f))).
  { rewrite <- (app_nil_r (header_bytes _)). apply decode_header_bytes; [apply Hf|]. by destruct Hf. }
  rewrite (run_bind _ _ _ (s <| TcpStream.arrivals := l1 |>) (Frame.header (completed f)))
    by (unfold lift; by rewrite Ed).
  change (FrameHeader.payload_length _) with (size_of (Frame.payload f)).
  assert (Ew : forall t, FrameCodec.decode max_payload (header_bytes (Frame.header (completed f)) ++ Frame.payload f ++ t) =
    Val (completed f)).
  { intros t. rewrite app_assoc. by apply (decode_frame max_payload f t). }
  destruct (Z.eqb_spec (size_of (Frame.payload f)) 0) as [Hz|Hz]; cbn [negb].
  - rewrite (run_bind _ _ _ (s <| TcpStream.arrivals := l1 |>) []) by done. unfold lift.
    assert (Hp : Frame.payload f = []) by (unfold size_of in Hz; apply length_zero_iff_nil; lia).
    specialize (Ew []). rewrite Hp in Ew, Hi1. change ([] ++ []) with (@nil Z) in Ew. rewrite Ew. exists l1. split; [reflexivity|]. split; [exact Hi1|]. split; [exact Hb1|exact Hst1].
  - destruct (read_exact_spec (length (Frame.payload f)) (s <| TcpStream.arrivals := l1 |>)) as (l2 & E2 & Hi2 & Hb2 & Hst2).
    cbn [TcpStream.arrivals update eta TcpStream.eta_t] in E2, Hi2, Hb2, Hst2.
    rewrite Hi1, length_app, take_app_length in E2. rewrite Hi1, drop_app_length in Hi2.
    replace (_ <=? _)%nat with true in E2 by (symmetry; apply Nat.leb_le; lia).
    replace (_ <? _)%nat with false in E2 by (symmetry; apply Nat.ltb_ge; lia). rewrite andb_false_r in E2. cbn [block_if] in E2.
    unfold size_of. rewrite Nat2Z.id, (run_bind _ _ _ _ _ E2). unfold lift. specialize (Ew []).
    rewrite app_nil_r in Ew. rewrite Ew. exists l2. split; [reflexivity|]. rewrite Hb2, Hb1, Hst2, Hst1. split; [exact Hi2|split; reflexivity].
Qed.

(** ** Only frames are accepted *)

Lemma need_step n r r' v tl :
  Forall byte_ok tl -> rest r = tl -> need (ByteReader.read_le n) r = (r', Val v) ->
  tl = le_bytes n v ++ rest r' /\ in_range (8 * Z.of_nat n) v /\ Forall byte_ok (rest r').
Proof. intros H <- E. by apply need_inv in E. Qed.

Ltac read_field E :=
  let r := fresh "r" in let v := fresh "v" in let H := fresh "E" in
  let B := fresh "B" in let R := fresh "R" in let F := fresh "F" in
  apply M_bind_Val in E as (r & v & H & E);
  eapply need_step in H as (B & R & F); [|eassumption|reflexivity].
Ltac pass_guard E := let G := fresh "G" in apply guard_inv in E as [G E].

Lemma decode_header_inv max_payload bytes h :
  Forall byte_ok bytes -> FrameCodec.decode_header max_payload bytes = Val h ->
  header_ok h /\ FrameHeader.payload_length h <= max_payload /\ exists body, bytes = header_bytes h ++ body.
Proof.
  intros Hb. unfold FrameCodec.decode_header. change (Z.to_nat kFrameHeaderBytes) with 56%nat.
  change (Z.to_nat kFrameCrcOffset) with 52%nat.
  destruct (Z.ltb_spec (size_of bytes) kFrameHeaderBytes) as [|Hlen]; [done|]. cbn [refuse_if mbind StatusOr_bind].
  assert (Hl : (56 <= length bytes)%nat) by (unfold size_of in Hlen; change kFrameHeaderBytes with 56 in Hlen; lia).
  match goal with |- snd (?m ?r) = _ -> _ => destruct (m r) as [r' x] eqn:E end. cbn [snd]. intros ->.
  set (head := take 56 bytes) in E. assert (Hh : length head = 56%nat) by (unfold head; rewrite length_take; lia).
  assert (F0 : Forall byte_ok (rest (ByteReader.make head))) by (by apply Forall_take).
  assert (Hr0 : rest (ByteReader.make head) = head) by done.
  revert Hr0 F0 E. generalize (ByteReader.make head). intros r0 Hr0 F0 E.
  do 4 read_field E. do 3 pass_guard E. do 7 read_field E. do 2 pass_guard E.
  apply pair_equal_spec in E as [<- E]. injection E as <-.
  apply negb_false_iff, Z.eqb_eq in G, G0, G2. subst v v0 v9. apply orb_false_iff in G1 as [G1 G1']. apply Z.eqb_neq in G1.
  assert (Hraw : 1 <= v1 <= 15) by (cbn in G1'; unfold in_range in R1; lia).
  destruct (frame_type_cast v1 Hraw) as (Eraw & Ht). rewrite Z.gtb_ltb in G3; apply Z.ltb_ge in G3; split; [|split; [exact G3|]].
  { by split. }
  set (h := FrameHeader.mk _ _ _ _ _ _ _ _). exists (drop 56 bytes). fold head in Hh.
  assert (Hfields : head = frame_fields h ++ le_bytes 4 (crc32c (take 52 bytes)) ++ rest r10).
  { unfold frame_fields, h. cbn [FrameHeader.type FrameHeader.flags FrameHeader.sequence FrameHeader.epoch
      FrameHeader.boot FrameHeader.worker FrameHeader.payload_length FrameHeader.payload_crc].
    rewrite Eraw, <- !app_assoc, app_nil_l. rewrite <- Hr0, B, B0, B1, B2, B3, B4, B5, B6, B7, B8, B9. done. }
  assert (Hend : rest r10 = []).
  { apply (f_equal length) in Hfields. rewrite Hh, !length_app, length_frame_fields, length_le_bytes in Hfields.
    apply length_zero_iff_nil. lia. }
  assert (H52 : take 52 bytes = frame_fields h).
  { rewrite <- (take_drop 56 bytes). fold head. rewrite Hfields, <- app_assoc.
    apply take_app_length'. by rewrite length_frame_fields. }
  rewrite <- (take_drop 56 bytes) at 1. f_equal. fold head. unfold header_bytes. by rewrite Hfields, H52, Hend.
Qed.

Lemma decode_inv max_payload bytes f :
  Forall byte_ok bytes -> FrameCodec.decode max_payload bytes = Val f ->
  frame_ok max_payload f /\ completed f = f /\ exists tail, bytes = frame_bytes f ++ tail.
Proof.
  intros Hb E. unfold FrameCodec.decode in E. change (Z.to_nat kFrameHeaderBytes) with 56%nat in E.
  apply StatusOr_bind_Val in E as (h & Eh & E). cbv zeta in E.
  apply refuse_if_bind in E as [G1 E]. apply refuse_if_bind in E as [G2 E]. injection E as <-.
  destruct (decode_header_inv _ _ _ Hb Eh) as (Hh & Hmax & body & ->).
  rewrite drop_app_length' in * by (by rewrite length_header_bytes).
  apply negb_false_iff, Z.eqb_eq in G2. apply Z.ltb_ge in G1.
  unfold size_of in G1. rewrite length_app, length_header_bytes in G1. change kFrameHeaderBytes with 56 in G1.
  set (p := take (Z.to_nat (FrameHeader.payload_length h)) body) in *.
  destruct (ho_length _ Hh) as [Hpos _].
  assert (Hp : size_of p = FrameHeader.payload_length h) by (unfold p, size_of; rewrite length_take; lia).
  assert (Hc : completed (Frame.mk h p) = Frame.mk h p).
  { unfold completed. cbn [Frame.payload]. rewrite Hp, G2. by destruct h. }
  split; [split; [by rewrite Hc|cbn [Frame.payload]; lia]|]. split; [done|].
  exists (drop (Z.to_nat (FrameHeader.payload_length h)) body). unfold frame_bytes. rewrite Hc.
  cbn [Frame.header Frame.payload]. rewrite <- app_assoc. unfold p. by rewrite take_drop.
Qed.

(** Two sums of different lists that differ in one byte are different. *)
Lemma sealed_byte_change (fields fields' before after : list Z) (b b' : Z) :
  byte_ok b -> byte_ok b' -> b <> b' -> length fields = length fields' ->
  fields ++ le_bytes 4 (crc32c fields) = before ++ b :: after ->
  fields' ++ le_bytes 4 (crc32c fields') = before ++ b' :: after -> False.
Proof.
  intros Hb Hb' Hne Hlen E E'.
  destruct (Nat.le_gt_cases (length fields) (length before)) as [Hle|Hgt].
  - assert (Hf : fields = fields').
    { apply (f_equal (take (length fields))) in E. rewrite take_app_length, take_app_le in E by done.
      apply (f_equal (take (length fields'))) in E'. rewrite take_app_length, take_app_le in E' by lia.
      by rewrite E, E', Hlen. }
    subst fields'. rewrite E in E'. apply app_inv_head in E'. congruence.
  - assert (Hsplit : forall (l : list Z) c, length l = length fields -> l ++ le_bytes 4 (crc32c l) = before ++ c :: after ->
      l = before ++ c :: take (length fields - S (length before)) after /\
      le_bytes 4 (crc32c l) = drop (length fields - S (length before)) after).
    { intros l c Hl El. pose proof (f_equal (take (length l)) El) as Et. pose proof (f_equal (drop (length l)) El) as Ed.
      rewrite take_app_length in Et. rewrite drop_app_length in Ed.
      rewrite take_app_ge in Et by lia. rewrite drop_app_ge in Ed by lia. rewrite Hl in Et, Ed.
      destruct (length fields - length before)%nat as [|k] eqn:Ek; [lia|].
      replace (length fields - S (length before))%nat with k by lia. done. }
    destruct (Hsplit _ _ eq_refl E) as [Ef Ec]. destruct (Hsplit _ _ (eq_sym Hlen) E') as [Ef' Ec'].
    rewrite <- Ec' in Ec. apply le_bytes_inj in Ec; [|apply crc32c_range..].
    rewrite Ef, Ef' in Ec. by apply crc_detects_byte_change in Ec.
Qed.

Lemma changed_header_refused max_payload h before b b' after tail :
  byte_ok b -> byte_ok b' -> b <> b' -> header_bytes h = before ++ b :: after ->
  Forall byte_ok (before ++ b' :: after ++ tail) ->
  exists c, FrameCodec.decode_header max_payload (before ++ b' :: after ++ tail) = Err c.
Proof.
  intros Hb Hb' Hne Eh Hok. destruct (FrameCodec.decode_header _ _) as [h'|c] eqn:E; [exfalso|by exists c].
  apply decode_header_inv in E as (_ & _ & body & E); [|done].
  apply (f_equal (take 56)) in E. rewrite app_comm_cons, app_assoc in E.
  assert (Hl : length (before ++ b' :: after) = 56%nat).
  { rewrite <- (length_header_bytes h), Eh, !length_app. done. }
  rewrite !take_app_length' in E by (by rewrite ?length_header_bytes).
  unfold header_bytes in E, Eh. rewrite app_nil_r in E, Eh.
  eapply (sealed_byte_change _ _ before after b b' Hb Hb' Hne); [|exact Eh|symmetry; exact E].
  by rewrite !length_frame_fields.
Qed.

Lemma header_of_frame_ok max_payload f : frame_ok max_payload f ->
  FrameCodec.decode_header max_payload (header_bytes (Frame.header (completed f))) = Val (Frame.header (completed f)).
Proof.
  intros [Hh Hs]. rewrite <- (app_nil_r (header_bytes _)). by apply decode_header_bytes.
Qed.

Lemma header_bytes_ok h : Forall byte_ok (header_bytes h).
Proof. unfold header_bytes, frame_fields. rewrite !Forall_app. auto 20 using le_bytes_ok, Forall_nil_2. Qed.

(** What reading a frame amounts to, as a function of the bytes to come. *)
Definition frame_length (h : FrameHeader.t) : nat := 56 + Z.to_nat (FrameHeader.payload_length h).
Definition next_frame (max_payload : Z) (bytes : list Z) (is_broken : bool) : StatusOr Frame.t :=
  let cut := Err (if is_broken then StatusCode.IoError else StatusCode.Closed) in
  if (length bytes <? 56)%nat then cut
  else match FrameCodec.decode_header max_payload (take 56 bytes) with
       | Err c => Err c
       | Val h => if (length bytes <? frame_length h)%nat then cut
                  else FrameCodec.decode max_payload (take (frame_length h) bytes)
       end.

(** The bytes to come end inside a frame. *)
Definition cut_short (max_payload : Z) (bytes : list Z) : bool :=
  (length bytes <? 56)%nat ||
  match FrameCodec.decode_header max_payload (take 56 bytes) with
  | Err _ => false
  | Val h => (length bytes <? frame_length h)%nat
  end.

Lemma decode_keeps_header max_payload head tail h f :
  length head = 56%nat -> FrameCodec.decode_header max_payload head = Val h ->
  FrameCodec.decode max_payload (head ++ tail) = Val f -> Frame.header f = h.
Proof.
  intros Hl Eh E. unfold FrameCodec.decode in E. apply StatusOr_bind_Val in E as (h' & Eh' & E). cbv zeta in E.
  apply refuse_if_bind in E as [_ E]. apply refuse_if_bind in E as [_ E]. injection E as <-. cbn [Frame.header].
  enough (Ee : FrameCodec.decode_header max_payload (head ++ tail) = FrameCodec.decode_header max_payload head) by congruence.
  unfold FrameCodec.decode_header. change (Z.to_nat kFrameHeaderBytes) with 56%nat. change (Z.to_nat kFrameCrcOffset) with 52%nat.
  rewrite (take_app_le head tail 52), (take_app_le head tail 56) by lia.
  replace (size_of (head ++ tail) <? kFrameHeaderBytes) with (size_of head <? kFrameHeaderBytes); [done|].
  unfold size_of. rewrite length_app, Hl. change kFrameHeaderBytes with 56.
  symmetry. transitivity false; [apply Z.ltb_ge; lia|done].
Qed.

Lemma read_frame_next max_payload s :
  let bytes := incoming (TcpStream.arrivals s) in
  exists l, read_frame max_payload s =
    (block_if (stalls (TcpStream.arrivals s) && cut_short max_payload bytes) (s <| TcpStream.arrivals := l |>),
     next_frame max_payload bytes (broken (TcpStream.arrivals s))) /\
  (broken l = broken (TcpStream.arrivals s) /\ stalls l = stalls (TcpStream.arrivals s)) /\ (exists n, incoming l = drop n bytes) /\
  forall f, next_frame max_payload bytes (broken (TcpStream.arrivals s)) = Val f ->
  (frame_length (Frame.header f) <= length bytes)%nat /\ incoming l = drop (frame_length (Frame.header f)) bytes.
Proof.
  intros bytes. unfold read_frame, next_frame, cut_short. change (Z.to_nat kFrameHeaderBytes) with 56%nat.
  destruct (read_exact_spec 56 s) as (l1 & E1 & Hi1 & Hb1 & Hst1). fold bytes in E1, Hi1.
  destruct (Nat.ltb_spec (length bytes) 56) as [Hs|Hs].
  { replace (56 <=? length bytes)%nat with false in E1 by (symmetry; apply Nat.leb_gt; lia).
    exists l1. unfold mbind, M_bind. rewrite E1. split; [done|]. split; [done|]. split; [by exists 56%nat|done]. }
  replace (56 <=? length bytes)%nat with true in E1 by (symmetry; apply Nat.leb_le; lia).
  rewrite andb_false_r in E1. cbn [block_if orb] in E1 |- *.
  rewrite (run_bind _ _ _ _ _ E1). assert (Hh : length (take 56 bytes) = 56%nat) by (rewrite length_take; lia).
  destruct (FrameCodec.decode_header max_payload (take 56 bytes)) as [h|c] eqn:Eh.
  2: { exists l1. rewrite andb_false_r. split; [done|]. split; [done|]. split; [by exists 56%nat|done]. }
  rewrite (run_bind _ _ _ (s <| TcpStream.arrivals := l1 |>) h) by done.
  set (n := Z.to_nat (FrameHeader.payload_length h)). set (st := stalls (TcpStream.arrivals s)) in *.
  destruct (read_exact_spec n (s <| TcpStream.arrivals := l1 |>)) as (l2 & E2 & Hi2 & Hb2 & Hst2).
  cbn [TcpStream.arrivals update eta TcpStream.eta_t] in E2, Hi2, Hb2, Hst2. rewrite Hi1, length_drop in E2. rewrite Hi1, drop_drop in Hi2.
  set (rest_of := if negb (FrameHeader.payload_length h =? 0) then TcpStream.read_exact n else mret []).
  assert (Er : exists l3, rest_of (s <| TcpStream.arrivals := l1 |>) =
    (block_if (st && (length bytes - 56 <? n)%nat) (s <| TcpStream.arrivals := l3 |>),
      if (n <=? length bytes - 56)%nat then Val (take n (drop 56 bytes))
      else Err (if broken (TcpStream.arrivals s) then StatusCode.IoError else StatusCode.Closed)) /\
    incoming l3 = drop (56 + n) bytes /\ broken l3 = broken (TcpStream.arrivals s) /\ stalls l3 = st).
  { unfold rest_of. destruct (Z.eqb_spec (FrameHeader.payload_length h) 0) as [Hz|Hz]; cbn [negb].
    - exists l1. unfold n. rewrite Hz, andb_false_r. by rewrite Hi1.
    - exists l2. rewrite <- Hb1. cbn in E2. rewrite E2, Hst1. rewrite Hb2, Hi2, Hst2, Hst1. done. }
  clearbody rest_of. destruct Er as (l3 & Er & Hi3 & Hb3 & Hst3). unfold frame_length. fold n.
  exists l3. unfold mbind, M_bind. rewrite Er.
  destruct (Nat.ltb_spec (length bytes) (56 + n)) as [Hn|Hn].
  { replace (n <=? _)%nat with false by (symmetry; apply Nat.leb_gt; lia).
    replace (_ <? n)%nat with true by (symmetry; apply Nat.ltb_lt; lia). split; [done|]. split; [done|].
    split; [by eexists|done]. }
  replace (n <=? _)%nat with true by (symmetry; apply Nat.leb_le; lia).
  replace (_ <? n)%nat with false by (symmetry; apply Nat.ltb_ge; lia). rewrite andb_false_r. cbn [block_if].
  assert (Et : take (56 + n) bytes = take 56 bytes ++ take n (drop 56 bytes)).
  { rewrite <- (take_drop 56 (take (56 + n) bytes)), take_take, Nat.min_l, skipn_firstn_comm by lia. do 2 f_equal. lia. }
  rewrite Et. split; [reflexivity|]. split; [done|]. split; [by eexists|]. intros f Ef.
  rewrite (decode_keeps_header _ _ _ _ _ Hh Eh Ef). fold n. split; [exact Hn|exact Hi3].
Qed.

(** What is read in full does not block. *)
Lemma next_frame_whole max_payload bytes is_broken f :
  next_frame max_payload bytes is_broken = Val f -> cut_short max_payload bytes = false.
Proof.
  unfold next_frame, cut_short. destruct (length bytes <? 56)%nat; [done|].
  destruct (FrameCodec.decode_header _ _) as [h|c]; [|done]. by destruct (length bytes <? frame_length h)%nat.
Qed.

Lemma next_frame_ok max_payload bytes is_broken f :
  Forall byte_ok bytes -> next_frame max_payload bytes is_broken = Val f ->
  frame_ok max_payload f /\ completed f = f /\ exists tail, bytes = frame_bytes f ++ tail.
Proof.
  intros Hb E. unfold next_frame in E. destruct (length bytes <? 56)%nat; [done|].
  destruct (FrameCodec.decode_header _ _) as [h|]; [|done]. destruct (length bytes <? frame_length h)%nat; [done|].
  apply decode_inv in E as (Hf & Hc & tail & E); [|by apply Forall_take]. split; [done|]. split; [done|].
  exists (tail ++ drop (frame_length h) bytes). by rewrite app_assoc, <- E, take_drop.
Qed.

Lemma write_frame_spec max_payload f s :
  frame_ok max_payload f -> max_payload <= kMaxFramePayload -> sending s ->
  exists s', write_frame max_payload f s = (s', Val tt) /\ sending s' /\
  TcpStream.sent s' = TcpStream.sent s ++ frame_bytes f /\
  TcpStream.arrivals s' = TcpStream.arrivals s /\ TcpStream.valid s' = TcpStream.valid s.
Proof.
  intros Hf Hmax Hs. unfold write_frame. destruct (encode_frame max_payload f Hf Hmax) as (w & -> & Eb).
  erewrite run_bind by reflexivity. rewrite Eb. by apply write_all_spec.
Qed.

(** *** Peers that do not stall *)

(** No call on the stream blocks: the peer sends or closes in the end, and reads. *)
Definition responsive (s : TcpStream.t) : Prop :=
  TcpStream.blocked s = false /\ stalls (TcpStream.arrivals s) = false /\ Forall is_Some (TcpStream.sends s).

Lemma read_frame_responsive max_payload s : responsive s -> responsive (read_frame max_payload s).1.
Proof.
  intros (Hb & Hs & Ht). destruct (read_frame_next max_payload s) as (l & -> & [_ Hl] & _).
  rewrite Hs in Hl |- *. by split.
Qed.

(** What writing leaves alone. *)
Lemma write_loop_frame fuel : forall bytes s,
  let s' := (TcpStream.write_loop fuel bytes s).1 in
  TcpStream.arrivals s' = TcpStream.arrivals s /\ TcpStream.valid s' = TcpStream.valid s /\
  (responsive s -> responsive s').
Proof.
  induction fuel as [|fuel IH]; intros [|b bytes] s; cbn [TcpStream.write_loop]; try done. cbv zeta.
  destruct (TcpStream.send _ s) as [s1 n] eqn:E.
  assert (H1 : TcpStream.arrivals s1 = TcpStream.arrivals s /\ TcpStream.valid s1 = TcpStream.valid s /\
    (responsive s -> responsive s1)).
  { unfold TcpStream.send in E. destruct (TcpStream.shut s); [by injection E as <- _|].
    destruct (TcpStream.sends s) as [|[k|] more] eqn:Es; injection E as <- _; (split; [done|split; [done|]]);
      intros (Hb & Hs & Ht); rewrite Es in Ht; inversion Ht as [|? ? Hk Hm]; [done|done|].
    by destruct Hk. }
  destruct (n <=? 0); [done|]. destruct (IH (drop (Z.to_nat n) (b :: bytes)) s1) as (Ha & Hv & Hr). rewrite Ha, Hv. tauto.
Qed.

Lemma write_frame_frame max_payload f s :
  let s' := (write_frame max_payload f s).1 in
  TcpStream.arrivals s' = TcpStream.arrivals s /\ TcpStream.valid s' = TcpStream.valid s /\
  (responsive s -> responsive s').
Proof.
  unfold write_frame. destruct (FrameCodec.encode _ _ _) as [w [u|c]]; [|done].
  rewrite (run_bind _ _ _ s u) by done. apply write_loop_frame.
Qed.

(** A frame of which one byte was changed, and one that was cut. *)
Lemma frame_bytes_split f before b after :
  frame_bytes f = before ++ b :: after ->
  let h := header_bytes (Frame.header (completed f)) in
  (exists after1, h = before ++ b :: after1 /\ after = after1 ++ Frame.payload f) \/
  (exists before2, before = h ++ before2 /\ Frame.payload f = before2 ++ b :: after).
Proof.
  intros E h. unfold frame_bytes in E. fold h in E. destruct (Nat.le_gt_cases (length h) (length before)) as [Hle|Hgt].
  - right. exists (drop (length h) before). pose proof (f_equal (take (length h)) E) as Et.
    pose proof (f_equal (drop (length h)) E) as Ed. rewrite take_app_length, take_app_le in Et by done.
    rewrite drop_app_length, drop_app_le in Ed by done. split; [|done]. rewrite Et at 1. symmetry. apply take_drop.
  - left. pose proof (f_equal (take (length h)) E) as Et. pose proof (f_equal (drop (length h)) E) as Ed.
    rewrite take_app_length, take_app_ge in Et by lia. rewrite drop_app_length, drop_app_ge in Ed by lia.
    destruct (length h - length before)%nat as [|k] eqn:Ek; [lia|]. exists (take k after). split; [exact Et|].
    cbn [drop] in Ed. by rewrite Ed, take_drop.
Qed.

(** The header is refused, or it is the one of the frame and the change is in the payload. *)
Lemma changed_frame_header max_payload f before b b' after tail :
  frame_ok max_payload f -> frame_bytes f = before ++ b :: after ->
  let bytes := before ++ b' :: after ++ tail in
  let h := Frame.header (completed f) in
  Forall byte_ok bytes -> b' <> b ->
  (56 + length (Frame.payload f) <= length bytes)%nat /\
  ((exists c, FrameCodec.decode_header max_payload (take 56 bytes) = Err c) \/
   FrameCodec.decode_header max_payload (take 56 bytes) = Val h /\
   exists before2, before = header_bytes h ++ before2 /\ Frame.payload f = before2 ++ b :: after).
Proof.
  intros Hf Ef bytes h Hok Hne.
  pose proof (f_equal length Ef) as Hlen. rewrite length_frame_bytes, length_app in Hlen. cbn [length] in Hlen.
  split; [unfold bytes; rewrite !length_app; cbn [length]; rewrite length_app; lia|].
  assert (Hb' : byte_ok b') by (unfold bytes in Hok; apply Forall_app in Hok as [_ Hok]; by inversion Hok).
  destruct (frame_bytes_split f before b after Ef) as [(after1 & Eh & Ea)|(before2 & Eb & Ep)].
  - left. assert (Hb : byte_ok b) by (pose proof (header_bytes_ok (Frame.header (completed f))) as H0;
      rewrite Eh in H0; apply Forall_app in H0 as [_ H0]; by inversion H0).
    assert (Et : take 56 bytes = before ++ b' :: after1 ++ []).
    { unfold bytes. rewrite Ea, app_nil_r, <- app_assoc, app_comm_cons, app_assoc.
      apply take_app_length'. rewrite <- (length_header_bytes h). unfold h. rewrite Eh, !length_app. done. }
    rewrite Et. apply (changed_header_refused max_payload _ before b b' after1 [] Hb Hb' (not_eq_sym Hne) Eh).
    rewrite <- Et. by apply Forall_take.
  - right. split; [|by exists before2].
    assert (Et : take 56 bytes = header_bytes h).
    { unfold bytes. rewrite Eb, <- app_assoc. apply take_app_length'. by rewrite length_header_bytes. }
    rewrite Et. exact (header_of_frame_ok _ _ Hf).
Qed.

(** Of a changed frame there is always enough to refuse it. *)
Lemma changed_frame_whole max_payload f before b b' after tail :
  frame_ok max_payload f -> frame_bytes f = before ++ b :: after ->
  Forall byte_ok (before ++ b' :: after ++ tail) -> b' <> b ->
  cut_short max_payload (before ++ b' :: after ++ tail) = false.
Proof.
  intros Hf Ef Hok Hne. destruct (changed_frame_header max_payload f before b b' after tail Hf Ef Hok Hne) as [Hl Hh].
  unfold cut_short. rewrite (proj2 (Nat.ltb_ge _ _)) by lia. cbn [orb].
  destruct Hh as [[c ->]|[-> _]]; [done|]. apply Nat.ltb_ge. unfold frame_length. cbn. unfold size_of. lia.
Qed.

Lemma changed_frame_refused max_payload f before b b' after tail is_broken g :
  frame_ok max_payload f -> Forall byte_ok (Frame.payload f) -> frame_bytes f = before ++ b :: after ->
  Forall byte_ok (before ++ b' :: after ++ tail) -> b' <> b ->
  next_frame max_payload (before ++ b' :: after ++ tail) is_broken <> Val g.
Proof.
  intros Hf Hp Ef Hok Hne En. pose proof (f_equal length Ef) as Hlen.
  rewrite length_frame_bytes, length_app in Hlen. cbn [length] in Hlen.
  destruct (changed_frame_header max_payload f before b b' after tail Hf Ef Hok Hne) as [Hlb Hh].
  assert (Hb' : byte_ok b') by (apply Forall_app in Hok as [_ Hok]; by inversion Hok).
  unfold next_frame in En. set (bytes := before ++ b' :: after ++ tail) in *.
  destruct (Nat.ltb_spec (length bytes) 56); [lia|].
  destruct Hh as [(c & Ec)|(Eh & before2 & Eb & Ep)].
  - by rewrite Ec in En.
  - rewrite Eh in En. pose proof (header_of_frame_ok _ _ Hf) as Ehh.
    assert (Hfl : frame_length (Frame.header (completed f)) = (56 + length (Frame.payload f))%nat)
      by (unfold frame_length; cbn; unfold size_of; lia).
    rewrite Hfl in En. destruct (Nat.ltb_spec (length bytes) (56 + length (Frame.payload f))); [lia|].
    assert (Etk : take (56 + length (Frame.payload f)) bytes =
      header_bytes (Frame.header (completed f)) ++ before2 ++ b' :: after).
    { unfold bytes. rewrite app_comm_cons, app_assoc, take_app_length'.
      - by rewrite Eb, <- app_assoc.
      - rewrite length_app. cbn [length]. lia. }
    rewrite Etk in En. pose proof (decode_keeps_header _ _ _ _ _ (length_header_bytes _) Ehh En) as Ehd.
    apply decode_inv in En as (_ & Hc & t & Et2); [|rewrite <- Etk; by apply Forall_take].
    unfold frame_bytes in Et2. rewrite Hc, Ehd, <- app_assoc in Et2. apply app_inv_head in Et2.
    assert (Hsz : FrameHeader.payload_length (Frame.header g) = size_of (Frame.payload g)) by (by rewrite <- Hc at 1).
    assert (Hcrc : FrameHeader.payload_crc (Frame.header g) = crc32c (Frame.payload g)) by (by rewrite <- Hc at 1).
    rewrite Ehd in Hsz, Hcrc. change (FrameHeader.payload_length _) with (size_of (Frame.payload f)) in Hsz.
    change (FrameHeader.payload_crc _) with (crc32c (Frame.payload f)) in Hcrc.
    assert (Hg : Frame.payload g = before2 ++ b' :: after).
    { pose proof (f_equal length Et2) as Hl2. unfold size_of in Hsz. rewrite Ep in Hsz. rewrite !length_app in Hl2.
      rewrite length_app in Hsz. cbn [length] in *. assert (t = []) as -> by (apply length_zero_iff_nil; lia).
      by rewrite app_nil_r in Et2. }
    rewrite Hg, Ep in Hcrc. rewrite Ep in Hp. apply Forall_app in Hp as [_ Hp]. inversion Hp; subst.
    revert Hcrc. by apply crc_detects_byte_change.
Qed.

Lemma cut_frame_refused max_payload f before b after is_broken :
  frame_ok max_payload f -> frame_bytes f = before ++ b :: after ->
  next_frame max_payload before is_broken = Err (if is_broken then StatusCode.IoError else StatusCode.Closed) /\
  cut_short max_payload before = true.
Proof.
  intros Hf Ef. unfold next_frame, cut_short. destruct (Nat.ltb_spec (length before) 56) as [|Hge]; [done|].
  destruct (frame_bytes_split f before b after Ef) as [(after1 & Eh & Ea)|(before2 & -> & Ep)].
  { apply (f_equal length) in Eh. rewrite length_header_bytes, length_app in Eh. cbn [length] in Eh. lia. }
  rewrite take_app_length' by (by rewrite length_header_bytes). rewrite (header_of_frame_ok _ _ Hf).
  destruct (Nat.ltb_spec (length (header_bytes (Frame.header (completed f)) ++ before2))
    (frame_length (Frame.header (completed f)))) as [|Hg]; [split; reflexivity|exfalso].
  unfold frame_length in Hg. cbn in Hg. unfold size_of in Hg. rewrite Nat2Z.id, length_app, length_header_bytes, Ep, length_app in Hg.
  cbn [length] in Hg. lia.
Qed.

(** Frames one after the other. *)
Fixpoint read_frames (max_payload : Z) (n : nat) : M TcpStream.t (list Frame.t) :=
  match n with
  | O => mret []
  | S n => f ← read_frame max_payload; fs ← read_frames max_payload n; mret (f :: fs)
  end.

Lemma read_frames_spec max_payload fs : forall s tail,
  Forall (frame_ok max_payload) fs ->
  incoming (TcpStream.arrivals s) = mjoin (frame_bytes <$> fs) ++ tail ->
  exists l, read_frames max_payload (length fs) s = (s <| TcpStream.arrivals := l |>, Val (completed <$> fs)) /\
  incoming l = tail.
Proof.
  induction fs as [|f fs IH]; intros s tail Hf Hi; cbn [length read_frames].
  { exists (TcpStream.arrivals s). split; [by destruct s|exact Hi]. }
  inversion Hf as [|? ? Hf1 Hf2]; subst. rewrite fmap_cons in Hi. cbn [mjoin list_join] in Hi. rewrite <- app_assoc in Hi.
  destruct (read_frame_spec _ _ _ _ Hf1 Hi) as (l1 & E1 & Hi1 & _). rewrite (run_bind _ _ _ _ _ E1).
  destruct (IH (s <| TcpStream.arrivals := l1 |>) tail) as (l2 & E2 & Hi2); [exact Hf2|exact Hi1|]. rewrite (run_bind _ _ _ _ _ E2).
  exists l2. split; [reflexivity|exact Hi2].
Qed.

Lemma write_frames_spec max_payload fs : forall s,
  max_payload <= kMaxFramePayload -> Forall (frame_ok max_payload) fs -> sending s ->
  exists s', for_each (write_frame max_payload) fs s = (s', Val tt) /\ sending s' /\
  TcpStream.sent s' = TcpStream.sent s ++ mjoin (frame_bytes <$> fs).
Proof.
  induction fs as [|f fs IH]; intros s Hmax Hf Hs; cbn [for_each].
  { exists s. cbn. by rewrite app_nil_r. }
  inversion Hf as [|? ? Hf1 Hf2]; subst.
  destruct (write_frame_spec _ _ _ Hf1 Hmax Hs) as (s1 & E1 & Hs1 & Hb1 & _).
  rewrite (run_bind _ _ _ _ _ E1). destruct (IH s1 Hmax Hf2 Hs1) as (s2 & E2 & Hs2 & Hb2).
  exists s2. split; [exact E2|]. split; [done|]. cbn. by rewrite Hb2, Hb1, <- app_assoc.
Qed.

(** ** Properties *)

(** C20: Frames survive the wire. Frames of any type and payload that respect the payload
    ceiling are written without error by a stream that takes what it is offered in pieces of any
    size; a peer to whom these bytes arrive, cut into pieces in any way and with anything behind
    them, reads the same frames in the same order, their length and checksum filled in, and is
    left with what came behind. *)
Theorem frames_survive_the_wire max_payload fs sender :
  max_payload <= kMaxFramePayload -> Forall (frame_ok max_payload) fs -> sending sender ->
  exists sender' bytes, for_each (write_frame max_payload) fs sender = (sender', Val tt) /\
  TcpStream.sent sender' = TcpStream.sent sender ++ bytes /\
  forall receiver tail, incoming (TcpStream.arrivals receiver) = bytes ++ tail ->
  exists l, read_frames max_payload (length fs) receiver =
    (receiver <| TcpStream.arrivals := l |>, Val (completed <$> fs)) /\ incoming l = tail.
Proof.
  intros Hmax Hf Hs. destruct (write_frames_spec _ fs sender Hmax Hf Hs) as (s' & E & _ & Hb).
  exists s', (mjoin (frame_bytes <$> fs)). split; [exact E|]. split; [exact Hb|].
  intros receiver tail. by apply read_frames_spec.
Qed.

(** A heartbeat, and a peer that sends and receives it in pieces. *)
Definition demo_frame : Frame.t :=
  Frame.mk (FrameHeader.mk FrameType.Heartbeat 0 1 7 9 3 0 0) [5; 0; 0; 0; 0; 0; 0; 0].
Definition demo_stream (arrivals : list Arrival) : TcpStream.t := TcpStream.mk true arrivals [Some 3; Some 100; Some 1] [] false false.
Definition pieces (bytes : list Z) : list Arrival := (fun b => Bytes b []) <$> bytes.

Lemma incoming_pieces bytes : incoming (pieces bytes) = bytes.
Proof. induction bytes as [|b bytes IH]; [done|]. cbn. by f_equal. Qed.

Lemma demo_frame_ok : frame_ok 1024 demo_frame.
Proof.
  split; [|unfold size_of; cbn; lia]. split; [split; discriminate|..|apply crc32c_range]; cbn; unfold in_range, size_of; cbn; lia.
Qed.

Lemma frames_survive_the_wire_witness :
  exists sender' bytes, for_each (write_frame 1024) [demo_frame; demo_frame] (demo_stream []) = (sender', Val tt) /\
  TcpStream.sent sender' = bytes /\
  exists l, read_frames 1024 2 (demo_stream (pieces bytes)) =
    (demo_stream l, Val (completed <$> [demo_frame; demo_frame])) /\ incoming l = [].
Proof.
  destruct (frames_survive_the_wire 1024 [demo_frame; demo_frame] (demo_stream [])) as (s' & bytes & E & Hs & H).
  - done.
  - apply Forall_cons; split; [apply demo_frame_ok|]. apply Forall_cons; split; [apply demo_frame_ok|constructor].
  - split; [reflexivity|]. split; [reflexivity|]. repeat constructor.
  - exists s', bytes. split; [exact E|]. split; [exact Hs|].
    destruct (H (demo_stream (pieces bytes)) []) as (l & El & Hl).
    + rewrite app_nil_r. apply incoming_pieces.
    + exists l. split; [exact El|exact Hl].
Defined.

(** C21: Nothing else survives it. If one byte of a frame is changed on the way, or the frame
    is cut short, the reader returns an error, whatever follows and however it is cut into
    pieces; a cut is reported as the end of the stream it is. Only a peer that stops inside the
    frame without closing keeps the reader waiting; a changed byte never does. *)
Theorem damaged_frame_refused max_payload f before b after receiver :
  frame_ok max_payload f -> Forall byte_ok (Frame.payload f) -> frame_bytes f = before ++ b :: after ->
  Forall byte_ok (incoming (TcpStream.arrivals receiver)) ->
  let '(receiver', r) := read_frame max_payload receiver in
  (forall b' tail, b' <> b -> incoming (TcpStream.arrivals receiver) = before ++ b' :: after ++ tail ->
     (exists c, r = Err c) /\ TcpStream.blocked receiver' = TcpStream.blocked receiver) /\
  (incoming (TcpStream.arrivals receiver) = before ->
     if stalls (TcpStream.arrivals receiver) then TcpStream.blocked receiver' = true
     else r = Err (if broken (TcpStream.arrivals receiver) then StatusCode.IoError else StatusCode.Closed) /\
          TcpStream.blocked receiver' = TcpStream.blocked receiver).
Proof.
  intros Hf Hp Ef Hok. destruct (read_frame_next max_payload receiver) as (l & E & _). rewrite E. clear E.
  set (bytes := incoming (TcpStream.arrivals receiver)) in *. set (is_broken := broken _). clearbody is_broken bytes.
  split.
  - intros b' tail Hne ->. rewrite (changed_frame_whole max_payload f before b b' after tail Hf Ef Hok Hne), andb_false_r.
    split; [|done]. destruct (next_frame _ _ _) as [g|c] eqn:En; [exfalso|by exists c].
    by apply (changed_frame_refused max_payload f before b b' after tail is_broken g).
  - intros ->. destruct (cut_frame_refused max_payload f before b after is_broken Hf Ef) as [-> ->].
    rewrite andb_true_r. by destruct (stalls _).
Qed.

Lemma damaged_frame_refused_witness :
  let '(receiver', r) := read_frame 1024
    (demo_stream (pieces (take 60 (frame_bytes demo_frame) ++ 1 :: drop 61 (frame_bytes demo_frame)))) in
  let '(cut', r') := read_frame 1024 (demo_stream (pieces (take 60 (frame_bytes demo_frame)))) in
  let '(silent', r'') := read_frame 1024 (demo_stream (pieces (take 60 (frame_bytes demo_frame)) ++ [Silence])) in
  (exists c, r = Err c) /\ r' = Err StatusCode.Closed /\ TcpStream.blocked silent' = true.
Proof.
  assert (E : frame_bytes demo_frame = take 60 (frame_bytes demo_frame) ++ 0 :: drop 61 (frame_bytes demo_frame))
    by (vm_compute; reflexivity).
  assert (Hp : Forall byte_ok (Frame.payload demo_frame)) by (repeat constructor; unfold byte_ok; lia).
  pose proof (fun receiver => damaged_frame_refused 1024 demo_frame _ 0 _ receiver demo_frame_ok Hp E) as H.
  pose proof (H (demo_stream (pieces (take 60 (frame_bytes demo_frame) ++ 1 :: drop 61 (frame_bytes demo_frame))))) as H1.
  pose proof (H (demo_stream (pieces (take 60 (frame_bytes demo_frame))))) as H2.
  pose proof (H (demo_stream (pieces (take 60 (frame_bytes demo_frame)) ++ [Silence]))) as H3. clear H.
  destruct (read_frame 1024 (demo_stream (pieces (take 60 (frame_bytes demo_frame) ++ _)))) as [s1 r1].
  destruct (read_frame 1024 (demo_stream (pieces (take 60 (frame_bytes demo_frame))))) as [s2 r2].
  destruct (read_frame 1024 _) as [s3 r3]. split.
  { apply H1 with (b' := 1) (tail := []); [vm_compute; repeat constructor; discriminate|lia|vm_compute; reflexivity]. }
  split.
  { apply H2; [vm_compute; repeat constructor; discriminate|vm_compute; reflexivity]. }
  apply H3; [vm_compute; repeat constructor; discriminate|vm_compute; reflexivity].
Defined.
