(* ===== verification/Sockets.v ===== *)
(** * Socket handles ([include/efg/transport.hpp], [src/transport.cpp], lines 174 to 515)

    Who owns which descriptor. [TcpStream] and [TcpListener] are movable, closing handles on
    sockets of the process; the loopback helpers create them. What travels over a stream is in
    [Transport.v]; here a socket is only a descriptor. The operating system is a parameter: the
    outcome of each call is taken from a list of answers (a list that has run out fails), and
    [pick] chooses the descriptor of a new socket. [stray] counts calls on a descriptor that is
    not open, which in a process is a call on somebody else's file. The POSIX variants are
    modelled. *)
From Stdlib Require Import String.
From stdpp Require Import gmap.
From S2P Require Import Prelude Status Checked Tick Text.

#[local] Open Scope string_scope.
#[local] Open Scope list_scope.
#[local] Open Scope Z_scope.

Definition kBadSocket : Z := -1.
(** [kInvalidSocket], [~0] as a native handle. *)
Definition kInvalidSocket : Z := kBadSocket.

Module Os.
Record t := mk {
  open_ : gset Z;
  answers : list Z;
  stray : Z;
  runtime_users : Z;
  runtime_ready : bool;
  bind_runtime : option bool;
  connect_runtime : option bool }.
#[global] Instance eta_t : Eta t := fun r =>
  mk (open_ r) (answers r) (stray r) (runtime_users r) (runtime_ready r) (bind_runtime r) (connect_runtime r).

(** The process before it has any socket; [others] are its other descriptors. *)
Definition start (others : gset Z) (answers : list Z) : t := mk others answers 0 0 false None None.

Definition answer : M t Z := fun o =>
  match answers o with
  | [] => (o, Val (-1))
  | a :: more => (o <| answers := more |>, Val a)
  end.

(** A call on a descriptor; -1 is nobody's. *)
Definition use (socket : Z) (o : t) : t :=
  if (socket =? kBadSocket) || bool_decide (socket ∈ open_ o) then o else o <| stray ::= Z.succ |>.
Definition call (socket : Z) : M t Z := modify (use socket) ;; answer.

(** [::close]: the descriptor is free whatever the call returns. *)
Definition close (socket : Z) : M t Z :=
  result ← call socket;
  modify (fun o => o <| open_ ::= (fun s => s ∖ {[socket]}) |>) ;;
  mret result.
End Os.

(** [last_socket_error]: POSIX reports every failure alike. *)
Definition last_socket_error : StatusCode.t := StatusCode.IoError.

Definition close_socket (socket : Z) : M Os.t unit :=
  if socket =? kBadSocket then mret tt
  else
    result ← Os.close socket;
    lift (refuse_if (negb (result =? 0)) last_socket_error).

Definition shutdown_socket (socket : Z) : M Os.t unit :=
  if socket =? kBadSocket then mret tt
  else
    result ← Os.call socket;
    lift (refuse_if (negb (result =? 0)) last_socket_error).

(** [(void)call(...)]. *)
Definition ignore {A} (m : M Os.t A) : M Os.t unit := catch m ;; mret tt.

(** ** The socket runtime *)

Module NetworkRuntime.
(** The constructor; the result is [ok_]. *)
Definition construct (o : Os.t) : Os.t * bool :=
  (o <| Os.runtime_ready := true |> <| Os.runtime_users ::= Z.succ |>, true).

Definition destroy (o : Os.t) : Os.t :=
  if Os.runtime_users o >? 0 then o <| Os.runtime_users ::= Z.pred |> else o.

(** [static NetworkRuntime runtime;]: constructed by the first call that comes by. *)
Definition ensure (proj : Os.t -> option bool) `{!Setter proj} : M Os.t unit :=
  modify (fun o =>
    match proj o with
    | Some _ => o
    | None => let '(o, ok_) := construct o in o <| proj := Some ok_ |>
    end) ;;
  o ← get;
  lift (refuse_if (negb (bool_decide (proj o = Some true))) StatusCode.IoError).
End NetworkRuntime.

Section calls.
Context (pick : gset Z -> Z).

(** [::socket] and [::accept]. *)
Definition new_socket : M Os.t Z :=
  a ← Os.answer;
  if a <? 0 then mret kBadSocket
  else
    o ← get;
    let socket := pick (Os.open_ o) in
    modify (fun o => o <| Os.open_ ::= (fun s => {[socket]} ∪ s) |>) ;;
    mret socket.

(** A call that must succeed, or the new socket is closed again. *)
Definition or_close (socket : Z) (m : M Os.t Z) : M Os.t unit :=
  result ← m;
  if negb (result =? 0)
  then ignore (close_socket socket) ;; lift (Err last_socket_error)
  else mret tt.

(** ** Streams and listeners *)

(** [bind_loopback]: the socket and the port it was bound to. The port asked for goes to the
    operating system only. *)
Definition bind_loopback : M Os.t (Z * Z) :=
  NetworkRuntime.ensure Os.bind_runtime ;;
  socket ← new_socket;
  lift (refuse_if (socket =? kBadSocket) last_socket_error) ;;
  ignore (Os.call socket) ;;
  or_close socket (Os.call socket) ;;
  or_close socket (Os.call socket) ;;
  or_close socket (Os.call socket) ;;
  port ← Os.answer;
  mret (socket, wrap 16 port).

Definition connect_loopback : M Os.t Z :=
  NetworkRuntime.ensure Os.connect_runtime ;;
  socket ← new_socket;
  lift (refuse_if (socket =? kBadSocket) last_socket_error) ;;
  or_close socket (Os.call socket) ;;
  ignore (Os.call socket) ;;
  mret socket.

(** [TcpListener::accept]; its socket is an argument. *)
Definition accept (listener : Z) : M Os.t Z :=
  lift (refuse_if (listener =? kInvalidSocket) StatusCode.Closed) ;;
  modify (Os.use listener) ;;
  accepted ← new_socket;
  lift (refuse_if (accepted =? kBadSocket) last_socket_error) ;;
  ignore (Os.call accepted) ;;
  mret accepted.
End calls.

(** ** Objects *)

(** A stream or a listener: [socket_], and the [bound_port_] of a listener. *)
Inductive Obj : Type := TcpStream (socket : Z) | TcpListener (socket bound_port : Z).
Definition socket_of (x : Obj) : Z := match x with TcpStream s | TcpListener s _ => s end.
Definition valid (x : Obj) : bool := negb (socket_of x =? kInvalidSocket).
Definition same_class (x y : Obj) : bool :=
  match x, y with TcpStream _, TcpStream _ | TcpListener _ _, TcpListener _ _ => true | _, _ => false end.

(** What a move or a [close] leaves behind. *)
Definition released (x : Obj) : Obj :=
  match x with TcpStream _ => TcpStream kInvalidSocket | TcpListener _ _ => TcpListener kInvalidSocket 0 end.

(** The destructors, also the first half of a move assignment. *)
Definition destroy (x : Obj) (o : Os.t) : Os.t :=
  if valid x then fst (close_socket (socket_of x) o) else o.

Definition close (x : Obj) : M Os.t Obj := fun o =>
  let '(o, status) := close_socket (socket_of x) o in (o, Val (released x)).

(** [peer()]. *)
Definition peer (x : Obj) : M Os.t (list Z) :=
  if negb (valid x) then mret (text "closed")
  else
    result ← Os.call (socket_of x);
    if negb (result =? 0) then mret (text "unknown")
    else port ← Os.answer; mret (append_u64 (text "127.0.0.1:") (wrap 16 port)).

(** ** A process that uses them *)

Module Process.
Record t := mk { os : Os.t; objects : gmap nat Obj }.
#[global] Instance eta_t : Eta t := fun r => mk (os r) (objects r).
End Process.

Section steps.
Context (pick : gset Z -> Z).

(** What the statements of a program do to its objects, named by variables. A variable is
    declared once and used until it is destroyed. *)
Inductive step (p : Process.t) : Process.t -> Prop :=
| Declared x obj : Process.objects p !! x = None -> valid obj = false -> released obj = obj ->
    step p (p <| Process.objects ::= <[x := obj]> |>)
| Bound x o socket port : Process.objects p !! x = None -> bind_loopback pick (Process.os p) = (o, Val (socket, port)) ->
    step p (p <| Process.os := o |> <| Process.objects ::= <[x := TcpListener socket port]> |>)
| NotBound o c : bind_loopback pick (Process.os p) = (o, Err c) -> step p (p <| Process.os := o |>)
| Connected x o socket : Process.objects p !! x = None -> connect_loopback pick (Process.os p) = (o, Val socket) ->
    step p (p <| Process.os := o |> <| Process.objects ::= <[x := TcpStream socket]> |>)
| NotConnected o c : connect_loopback pick (Process.os p) = (o, Err c) -> step p (p <| Process.os := o |>)
| Accepted x l listener port o socket : Process.objects p !! x = None -> Process.objects p !! l = Some (TcpListener listener port) ->
    accept pick listener (Process.os p) = (o, Val socket) ->
    step p (p <| Process.os := o |> <| Process.objects ::= <[x := TcpStream socket]> |>)
| NotAccepted l listener port o c : Process.objects p !! l = Some (TcpListener listener port) ->
    accept pick listener (Process.os p) = (o, Err c) -> step p (p <| Process.os := o |>)
| MoveConstructed x y other : Process.objects p !! x = None -> Process.objects p !! y = Some other ->
    step p (p <| Process.objects ::= (fun m => <[x := other]> (<[y := released other]> m)) |>)
| MoveAssigned x y this other : x <> y -> Process.objects p !! x = Some this -> Process.objects p !! y = Some other ->
    same_class this other = true ->
    step p (p <| Process.os ::= destroy this |> <| Process.objects ::= (fun m => <[x := other]> (<[y := released other]> m)) |>)
| SelfAssigned x this : Process.objects p !! x = Some this -> step p p
| Closed x this o obj : Process.objects p !! x = Some this -> close this (Process.os p) = (o, Val obj) ->
    step p (p <| Process.os := o |> <| Process.objects ::= <[x := obj]> |>)
| Shut x socket : Process.objects p !! x = Some (TcpStream socket) ->
    step p (p <| Process.os := fst (shutdown_socket socket (Process.os p)) |>)
| Transferred x socket : Process.objects p !! x = Some (TcpStream socket) ->
    step p (p <| Process.os := fst (Os.call socket (Process.os p)) |>)
| Asked x this : Process.objects p !! x = Some this -> step p (p <| Process.os := fst (peer this (Process.os p)) |>)
| Destroyed x this : Process.objects p !! x = Some this ->
    step p (p <| Process.os ::= destroy this |> <| Process.objects ::= delete x |>).
End steps.
