(* ===== verification/SocketsFacts.v ===== *)
(** * No descriptor is lost or closed twice

    Whatever a process does with its streams and listeners, and whatever the operating system
    answers, the descriptors it has open are those of its live objects, each of them owned by
    exactly one. *)
From stdpp Require Import gmap relations.
From S2P Require Import Prelude Status Checked Tick Text Sockets.

(** ** Calls *)

(** The outcome of [m] satisfies [Q]. *)
Definition wp {A} (m : M Os.t A) (Q : Os.t -> StatusOr A -> Prop) (o : Os.t) : Prop := Q (fst (m o)) (snd (m o)).

Lemma wp_bind {A B} (m : M Os.t A) (k : A -> M Os.t B) Q o :
  wp m (fun o' r => match r with Val v => wp (k v) Q o' | Err c => Q o' (Err c) end) o -> wp (m ≫= k) Q o.
Proof. unfold wp, mbind, M_bind. by destruct (m o) as [o' [v|c]]. Qed.

Lemma wp_mono {A} (m : M Os.t A) (Q Q' : Os.t -> StatusOr A -> Prop) o :
  (forall o' r, Q o' r -> Q' o' r) -> wp m Q o -> wp m Q' o.
Proof. unfold wp. auto. Qed.

(** The descriptors are as before and nothing stray was called. *)
Definition unmoved (o o' : Os.t) : Prop := Os.open_ o' = Os.open_ o /\ Os.stray o' = Os.stray o.

#[global] Instance unmoved_preorder : PreOrder unmoved.
Proof. split; [by intros o|]. intros a b c [] []. split; congruence. Qed.

Lemma answer_spec o : wp Os.answer (fun o' r => unmoved o o' /\ exists a, r = Val a) o.
Proof. unfold wp, Os.answer. destruct (Os.answers o); (split; [done|by eexists]). Qed.

Definition usable (socket : Z) (o : Os.t) : Prop := socket = kBadSocket \/ socket ∈ Os.open_ o.

Lemma use_spec socket o : usable socket o -> unmoved o (Os.use socket o).
Proof.
  intros Hu. unfold Os.use. destruct Hu as [->|Hin]; [done|]. rewrite bool_decide_eq_true_2, orb_true_r by done. done.
Qed.

Lemma call_spec socket o : usable socket o -> wp (Os.call socket) (fun o' r => unmoved o o' /\ exists a, r = Val a) o.
Proof.
  intros Hu. apply wp_bind. unfold wp at 1, modify. cbn [fst snd].
  eapply wp_mono; [|apply answer_spec]. intros o' r [Hm Ha]. split; [|exact Ha]. etrans; [by apply use_spec|exact Hm].
Qed.

(** Closing frees exactly the descriptor. *)
Lemma close_spec socket o : socket ∈ Os.open_ o -> socket <> kBadSocket ->
  wp (close_socket socket) (fun o' _ => Os.open_ o' = Os.open_ o ∖ {[socket]} /\ Os.stray o' = Os.stray o) o.
Proof.
  intros Hin Hne. unfold close_socket. replace (socket =? kBadSocket) with false by lia. unfold Os.close.
  do 2 apply wp_bind. eapply wp_mono; [|apply call_spec; by right]. intros o1 r [[Ho Hs] [a ->]].
  apply wp_bind. unfold wp, modify, mret, M_ret, lift. cbn. by rewrite Ho.
Qed.

Lemma ignore_call_spec socket o : usable socket o ->
  wp (ignore (Os.call socket)) (fun o' r => unmoved o o' /\ r = Val tt) o.
Proof.
  intros Hu. pose proof (call_spec socket o Hu) as H. unfold wp, ignore, catch, mbind, M_bind, mret, M_ret in *.
  destruct (Os.call socket o) as [o' r]. cbn in *. by destruct H.
Qed.

Lemma ensure_spec (proj : Os.t -> option bool) `{!Setter proj} o :
  (forall o v, unmoved o (o <| proj := v |>)) ->
  wp (NetworkRuntime.ensure proj) (fun o' _ => unmoved o o') o.
Proof.
  intros Hp. unfold NetworkRuntime.ensure. apply wp_bind. unfold wp at 1, modify. cbn [fst snd].
  apply wp_bind. unfold wp, get, lift. cbn [fst snd]. destruct (proj o); [done|].
  unfold NetworkRuntime.construct. etrans; [|apply Hp]. done.
Qed.

Section picking.
Context (pick : gset Z -> Z).
(** A new descriptor is one that is not in use. *)
Hypothesis pick_fresh : forall s, pick s ∉ s.
Hypothesis pick_valid : forall s, pick s <> kBadSocket.

(** A new socket, or none. *)
Definition opened (o o' : Os.t) (socket : Z) : Prop :=
  socket ∉ Os.open_ o /\ socket <> kBadSocket /\ Os.open_ o' = {[socket]} ∪ Os.open_ o /\ Os.stray o' = Os.stray o.

Lemma new_socket_spec o : wp (new_socket pick)
  (fun o' r => match r with
               | Val socket => socket = kBadSocket /\ unmoved o o' \/ opened o o' socket
               | Err _ => False end) o.
Proof.
  unfold new_socket. apply wp_bind. eapply wp_mono; [|apply answer_spec]. intros o1 r [[Ho Hs] [a ->]].
  destruct (a <? 0); [left; done|]. unfold wp, mbind, M_bind, get, modify, mret, M_ret. cbn. right.
  rewrite Ho. split; [apply pick_fresh|]. split; [apply pick_valid|]. simpl. by rewrite Ho.
Qed.

Lemma opened_unmoved o o1 o2 socket : opened o o1 socket -> unmoved o1 o2 -> opened o o2 socket.
Proof. intros (H1 & H2 & H3 & H4) [H5 H6]. split_and!; congruence || done. Qed.

Lemma opened_usable o o1 socket : opened o o1 socket -> usable socket o1.
Proof. intros (_ & _ & H & _). right. rewrite H. set_solver. Qed.

Lemma opened_closed o o1 o2 socket : opened o o1 socket ->
  Os.open_ o2 = Os.open_ o1 ∖ {[socket]} -> Os.stray o2 = Os.stray o1 -> unmoved o o2.
Proof. intros (H1 & _ & H3 & H4) H5 H6. split; [|congruence]. rewrite H5, H3. set_solver. Qed.

(** The prologue of the three functions: a new socket, or the end. *)
Lemma wp_new_socket {A} o o1 (k : Z -> M Os.t A) (Q : Os.t -> StatusOr A -> Prop) : unmoved o o1 ->
  (forall o2, unmoved o o2 -> Q o2 (Err last_socket_error)) ->
  (forall o2 socket, opened o o2 socket -> wp (k socket) Q o2) ->
  wp (socket ← new_socket pick; lift (refuse_if (socket =? kBadSocket) last_socket_error) ;; k socket) Q o1.
Proof.
  intros Hm1 Hbad Hk. apply wp_bind. eapply wp_mono; [|apply new_socket_spec]. intros o2 [socket|c] H2; [|done].
  apply wp_bind. unfold wp at 1, lift. cbn [fst snd]. unfold refuse_if. destruct (socket =? kBadSocket) eqn:E.
  - apply Z.eqb_eq in E. destruct H2 as [[_ H2]|(_ & Hne & _)]; [apply Hbad; by etrans|done].
  - apply Z.eqb_neq in E. destruct H2 as [[? _]|H2]; [done|]. apply Hk.
    destruct Hm1 as [Ho Hst], H2 as (H1 & H3 & H4 & H5). rewrite Ho in H1, H4. split_and!; [done..|]. by rewrite H5.
Qed.

(** A call that fails gives the new socket back. *)
Lemma or_close_spec o o1 socket : opened o o1 socket ->
  wp (or_close socket (Os.call socket))
    (fun o' r => match r with Val _ => opened o o' socket | Err _ => unmoved o o' end) o1.
Proof.
  intros Hop. unfold or_close. apply wp_bind. eapply wp_mono; [|apply call_spec; by eapply opened_usable].
  intros o2 r [Hm [a ->]]. pose proof (opened_unmoved _ _ _ _ Hop Hm) as Hop2. destruct (negb (a =? 0)); [|exact Hop2].
  destruct Hop2 as (H1 & H2 & H3 & H4). pose proof (close_spec socket o2 ltac:(rewrite H3; set_solver) H2) as Hc.
  unfold wp, ignore, catch, mbind, M_bind, mret, M_ret, lift in *. destruct (close_socket socket o2) as [o3 r3]. cbn in *.
  destruct Hc as [Hc1 Hc2]. by apply (opened_closed o o2 o3 socket).
Qed.

Lemma bind_spec o : wp (bind_loopback pick)
  (fun o' r => match r with Val (socket, _) => opened o o' socket | Err _ => unmoved o o' end) o.
Proof.
  unfold bind_loopback. apply wp_bind. eapply wp_mono; [|by apply ensure_spec]. intros o1 [[]|c] Hm1; [|exact Hm1].
  apply (wp_new_socket o); [exact Hm1|auto|]. clear Hm1. intros o2 socket Hop.
  apply wp_bind. eapply wp_mono; [|apply ignore_call_spec; by eapply opened_usable]. intros o3 r [Hm ->].
  pose proof (opened_unmoved _ _ _ _ Hop Hm) as Hop3. clear Hm Hop.
  do 3 (apply wp_bind; eapply wp_mono; [|by apply or_close_spec]; clear Hop3; intros ? [[]|?] Hop3; [|exact Hop3]).
  apply wp_bind. eapply wp_mono; [|apply answer_spec]. intros o7 r [Hm [a ->]]. by eapply opened_unmoved.
Qed.

Lemma connect_spec o : wp (connect_loopback pick)
  (fun o' r => match r with Val socket => opened o o' socket | Err _ => unmoved o o' end) o.
Proof.
  unfold connect_loopback. apply wp_bind. eapply wp_mono; [|by apply ensure_spec]. intros o1 [[]|c] Hm1; [|exact Hm1].
  apply (wp_new_socket o); [exact Hm1|auto|]. clear Hm1. intros o2 socket Hop.
  apply wp_bind. eapply wp_mono; [|by apply or_close_spec]. intros o3 [[]|c] Hop3; [|exact Hop3].
  apply wp_bind. eapply wp_mono; [|apply ignore_call_spec; by eapply opened_usable]. intros o4 r [Hm ->]. by eapply opened_unmoved.
Qed.

Lemma accept_spec listener o : usable listener o -> wp (accept pick listener)
  (fun o' r => match r with Val socket => opened o o' socket | Err _ => unmoved o o' end) o.
Proof.
  intros Hu. unfold accept. apply wp_bind. unfold wp at 1, lift. cbn [fst snd]. unfold refuse_if at 1.
  destruct (listener =? kInvalidSocket); [done|]. apply wp_bind. unfold wp at 1, modify. cbn [fst snd].
  pose proof (use_spec listener o Hu) as Hm1. revert Hm1. generalize (Os.use listener o). intros o1 Hm1.
  apply (wp_new_socket o); [exact Hm1|auto|]. intros o2 socket Hop.
  apply wp_bind. eapply wp_mono; [|apply ignore_call_spec; by eapply opened_usable]. intros o4 r [Hm ->]. by eapply opened_unmoved.
Qed.

(** ** Ownership *)

Definition owner (p : Process.t) (socket : Z) (x : nat) : Prop :=
  exists obj, Process.objects p !! x = Some obj /\ socket_of obj = socket.

(** The open descriptors are those of [others] and those of the objects, one object each. *)
Record owned (others : gset Z) (p : Process.t) : Prop := {
  ow_others : others ⊆ Os.open_ (Process.os p) /\ kBadSocket ∉ others;
  ow_open : forall socket x, owner p socket x -> socket <> kInvalidSocket ->
    socket ∈ Os.open_ (Process.os p) /\ socket ∉ others;
  ow_one : forall socket x y, owner p socket x -> owner p socket y -> socket <> kInvalidSocket -> x = y;
  ow_all : forall socket, socket ∈ Os.open_ (Process.os p) -> socket ∈ others \/ socket <> kInvalidSocket /\ exists x, owner p socket x;
  ow_stray : Os.stray (Process.os p) = 0 }.

Lemma released_socket obj : socket_of (released obj) = kInvalidSocket.
Proof. by destruct obj. Qed.

(** Calls that leave the descriptors alone. *)
Lemma owned_unmoved others p o : owned others p -> unmoved (Process.os p) o -> owned others (p <| Process.os := o |>).
Proof.
  intros [H1 H2 H3 H4 H5] [Ho Hs]. split; simpl; rewrite ?Ho, ?Hs; try done.
Qed.

(** A new object for a new descriptor. *)
Lemma owned_opened others p o x obj : owned others p -> Process.objects p !! x = None ->
  opened (Process.os p) o (socket_of obj) ->
  owned others (p <| Process.os := o |> <| Process.objects ::= <[x := obj]> |>).
Proof.
  intros [[H1 H1'] H2 H3 H4 H5] Hx (O1 & O2 & O3 & O4).
  assert (Hown : forall socket y, owner (p <| Process.os := o |> <| Process.objects ::= <[x := obj]> |>) socket y <->
    (y = x /\ socket = socket_of obj) \/ (y <> x /\ owner p socket y)).
  { intros socket y. unfold owner. simpl. destruct (decide (y = x)) as [->|Hne].
    - rewrite lookup_insert_eq. naive_solver.
    - rewrite lookup_insert_ne by done. naive_solver. }
  split; simpl.
  - rewrite O3. split; [set_solver|done].
  - intros socket y Hy Hne. rewrite O3. apply Hown in Hy as [[-> ->]|[_ Hy]]; [set_solver|].
    destruct (H2 _ _ Hy Hne). set_solver.
  - intros socket y z Hy Hz Hne. apply Hown in Hy, Hz. destruct Hy as [[-> ->]|[_ Hy]], Hz as [[-> Hs]|[_ Hz]]; [done| | |by eapply H3].
    + by destruct (H2 _ _ Hz Hne).
    + subst socket. by destruct (H2 _ _ Hy Hne).
  - intros socket. rewrite O3. intros [Hin%elem_of_singleton|Hin]%elem_of_union.
    + right. split; [rewrite Hin; exact O2|]. exists x. apply Hown. by left.
    + destruct (H4 _ Hin) as [?|[Hne [y Hy]]]; [by left|right]. split; [done|]. exists y. apply Hown. right. split; [|done].
      intros ->. destruct Hy as (obj' & Hy & _). congruence.
  - congruence.
Qed.

(** A change of the objects that gives up the descriptors [gone] and no others. *)
Lemma owned_change others p p' (gone : gset Z) : owned others p ->
  Os.open_ (Process.os p') = Os.open_ (Process.os p) ∖ gone -> Os.stray (Process.os p') = Os.stray (Process.os p) ->
  (forall socket, socket ∈ gone -> socket ∉ others) ->
  (forall socket x, owner p socket x -> socket <> kInvalidSocket -> socket ∉ gone -> exists x', owner p' socket x') ->
  (forall socket x', owner p' socket x' -> socket <> kInvalidSocket -> socket ∉ gone /\ exists x, owner p socket x) ->
  (forall socket x y, owner p' socket x -> owner p' socket y -> socket <> kInvalidSocket -> x = y) ->
  owned others p'.
Proof.
  intros [[H1 H1'] H2 H3 H4 H5] Ho Hs Hg Hkeep Hback Hone. split.
  - rewrite Ho. split; [|done]. intros socket Hin. apply elem_of_difference. split; [by apply H1|]. intros Hgone. by apply (Hg socket).
  - intros socket x Hx Hne. destruct (Hback socket x Hx Hne) as [Hng [y Hy]]. rewrite Ho.
    destruct (H2 socket y Hy Hne). set_solver.
  - exact Hone.
  - intros socket. rewrite Ho. intros [Hin Hng]%elem_of_difference. destruct (H4 _ Hin) as [?|[Hne [x Hx]]]; [by left|].
    right. split; [done|]. by eapply Hkeep.
  - congruence.
Qed.

(** The descriptor a destructor frees. *)
Definition freed (obj : Obj) : gset Z := if valid obj then {[socket_of obj]} else ∅.

Lemma valid_spec obj : valid obj = true <-> socket_of obj <> kInvalidSocket.
Proof. unfold valid. rewrite negb_true_iff, Z.eqb_neq. done. Qed.

Lemma elem_of_freed obj socket : socket ∈ freed obj <-> socket = socket_of obj /\ socket <> kInvalidSocket.
Proof.
  unfold freed. destruct (valid obj) eqn:E.
  - apply valid_spec in E. rewrite elem_of_singleton. naive_solver.
  - assert (socket_of obj = kInvalidSocket) by (destruct (decide (socket_of obj = kInvalidSocket)); [done|]; apply valid_spec in n; congruence).
    split; [by intros ?%elem_of_empty|]. intros [-> ?]. done.
Qed.

Lemma close_object others p x obj : owned others p -> Process.objects p !! x = Some obj ->
  wp (close_socket (socket_of obj)) (fun o _ => Os.open_ o = Os.open_ (Process.os p) ∖ freed obj /\ Os.stray o = Os.stray (Process.os p)) (Process.os p).
Proof.
  intros Hp Hx. unfold freed, valid. destruct (socket_of obj =? kInvalidSocket) eqn:E; cbn [negb].
  - apply Z.eqb_eq in E. rewrite E. unfold wp. cbn. split; [set_solver|done].
  - apply Z.eqb_neq in E. apply close_spec; [|exact E]. by apply (ow_open _ _ Hp _ x); [exists obj|].
Qed.

Lemma destroy_spec others p x obj : owned others p -> Process.objects p !! x = Some obj ->
  Os.open_ (destroy obj (Process.os p)) = Os.open_ (Process.os p) ∖ freed obj /\
  Os.stray (destroy obj (Process.os p)) = Os.stray (Process.os p).
Proof.
  intros Hp Hx. pose proof (close_object others p x obj Hp Hx) as H. unfold destroy, freed in *.
  destruct (valid obj); [exact H|]. split; [set_solver|done].
Qed.

Lemma freed_not_others others p x obj : owned others p -> Process.objects p !! x = Some obj ->
  forall socket, socket ∈ freed obj -> socket ∉ others.
Proof. intros Hp Hx socket [-> Hne]%elem_of_freed. apply (ow_open _ _ Hp _ x); [by exists obj|done]. Qed.

(** The owners after an assignment of variables. *)
Lemma owner_insert p (m : gmap nat Obj) x obj socket y :
  Process.objects p = <[x := obj]> m ->
  owner p socket y <-> (y = x /\ socket = socket_of obj) \/ (y <> x /\ exists obj', m !! y = Some obj' /\ socket_of obj' = socket).
Proof.
  intros E. unfold owner. rewrite E. destruct (decide (y = x)) as [->|Hne].
  - rewrite lookup_insert_eq. naive_solver.
  - rewrite lookup_insert_ne by done. naive_solver.
Qed.

Lemma owned_declare others p x obj : owned others p -> Process.objects p !! x = None -> valid obj = false ->
  owned others (p <| Process.objects ::= <[x := obj]> |>).
Proof.
  intros Hp Hx Hv. set (p' := p <| Process.objects ::= <[x := obj]> |>).
  assert (Hs : socket_of obj = kInvalidSocket) by (destruct (decide (socket_of obj = kInvalidSocket)) as [|n]; [done|]; apply valid_spec in n; congruence).
  assert (Hown : forall socket y, socket <> kInvalidSocket -> owner p' socket y <-> owner p socket y).
  { intros socket y Hne. rewrite (owner_insert p' (Process.objects p) x obj) by done. unfold owner.
    split; [naive_solver|]. intros (obj' & Hy & <-). right. split; [congruence|]. by exists obj'. }
  apply (owned_change others p p' ∅); [done|simpl; set_solver|done|set_solver|..].
  - intros socket y Hy Hne _. exists y. by apply Hown.
  - intros socket y Hy Hne. split; [set_solver|]. exists y. by apply Hown.
  - intros socket y z Hy Hz Hne. apply Hown in Hy, Hz; [|done..]. by apply (ow_one _ _ Hp socket).
Qed.

(** [x] takes the descriptor of [y]; what [x] had, if it was there, is gone. *)
Lemma owned_move others p p' x y this other : owned others p -> x <> y ->
  Process.objects p !! x = this -> Process.objects p !! y = Some other ->
  Process.objects p' = <[x := other]> (<[y := released other]> (Process.objects p)) ->
  let gone := match this with Some obj => freed obj | None => ∅ end in
  Os.open_ (Process.os p') = Os.open_ (Process.os p) ∖ gone -> Os.stray (Process.os p') = Os.stray (Process.os p) ->
  owned others p'.
Proof.
  intros Hp Hne Hx Hy Hobj gone Ho Hst.
  assert (Hown : forall socket z, socket <> kInvalidSocket -> owner p' socket z <->
    (z = x /\ socket = socket_of other) \/ (z <> x /\ z <> y /\ owner p socket z)).
  { intros socket z Hn. rewrite (owner_insert p' _ _ _ _ _ Hobj). unfold owner. split.
    - intros [?|(Hzx & obj' & Hz & <-)]; [by left|]. destruct (decide (z = y)) as [->|Hzy].
      + rewrite lookup_insert_eq in Hz. injection Hz as <-. by rewrite released_socket in Hn.
      + rewrite lookup_insert_ne in Hz by done. right. split_and!; [done..|]. by exists obj'.
    - intros [?|(Hzx & Hzy & obj' & Hz & <-)]; [by left|]. right. split; [done|]. exists obj'. by rewrite lookup_insert_ne. }
  assert (Hgone : forall socket, socket ∈ gone -> socket <> kInvalidSocket /\ owner p socket x).
  { intros socket Hin. subst gone. destruct this as [obj|]; [|by apply elem_of_empty in Hin].
    apply elem_of_freed in Hin as [-> ?]. split; [done|]. by exists obj. }
  apply (owned_change others p p' gone); [done|done|done|..].
  - intros socket Hin. destruct (Hgone _ Hin). by apply (ow_open _ _ Hp _ x).
  - intros socket z Hz Hn Hng. destruct (decide (z = y)) as [->|Hzy].
    + exists x. apply Hown; [done|]. left. split; [done|]. destruct Hz as (obj & Hz & <-). congruence.
    + destruct (decide (z = x)) as [->|Hzx]; [|exists z; apply Hown; auto]. exfalso. apply Hng.
      destruct Hz as (obj & Hz & <-). subst gone. rewrite <- Hx, Hz. by apply elem_of_freed.
  - intros socket z Hz Hn. apply Hown in Hz as [[-> ->]|(Hzx & Hzy & Hz)]; [| |done].
    + split; [|exists y; by exists other]. intros Hin. destruct (Hgone _ Hin) as [_ Hox].
      apply Hne. apply (ow_one _ _ Hp (socket_of other)); [done|by exists other|done].
    + split; [|by exists z]. intros Hin. destruct (Hgone _ Hin) as [_ Hox]. apply Hzx. by apply (ow_one _ _ Hp socket).
  - intros socket z1 z2 H1 H2 Hn. apply Hown in H1, H2; [|done..].
    assert (Hoy : owner p (socket_of other) y) by (by exists other).
    destruct H1 as [[-> ->]|(? & ? & H1)], H2 as [[-> E]|(? & ? & H2)]; [done| | |by apply (ow_one _ _ Hp socket)].
    + exfalso. apply H0. by apply (ow_one _ _ Hp (socket_of other)).
    + subst socket. exfalso. apply H0. by apply (ow_one _ _ Hp (socket_of other)).
Qed.

(** [x] gives its descriptor up. *)
Lemma owned_give_up others p p' x obj : owned others p -> Process.objects p !! x = Some obj ->
  (Process.objects p' = delete x (Process.objects p) \/ Process.objects p' = <[x := released obj]> (Process.objects p)) ->
  Os.open_ (Process.os p') = Os.open_ (Process.os p) ∖ freed obj -> Os.stray (Process.os p') = Os.stray (Process.os p) ->
  owned others p'.
Proof.
  intros Hp Hx Hobj Ho Hst.
  assert (Hown : forall socket z, socket <> kInvalidSocket -> owner p' socket z <-> z <> x /\ owner p socket z).
  { intros socket z Hn. unfold owner. destruct Hobj as [-> | ->]; (destruct (decide (z = x)) as [->|Hne];
      [rewrite ?lookup_delete_eq, ?lookup_insert_eq|rewrite ?lookup_delete_ne, ?lookup_insert_ne by done]); [naive_solver..| |naive_solver].
    split; [|naive_solver]. intros (obj' & [= <-] & E). rewrite released_socket in E. congruence. }
  apply (owned_change others p p' (freed obj)); [done|done|done|..].
  - by apply (freed_not_others others p x).
  - intros socket z Hz Hn Hng. exists z. apply Hown; [done|]. split; [|done]. intros ->. apply Hng.
    destruct Hz as (obj' & Hz & <-). apply elem_of_freed. split; congruence.
  - intros socket z Hz Hn. apply Hown in Hz as [Hzx Hz]; [|done]. split; [|by exists z].
    intros [-> _]%elem_of_freed. apply Hzx. apply (ow_one _ _ Hp (socket_of obj)); [done|by exists obj|done].
  - intros socket z1 z2 H1 H2 Hn. apply Hown in H1 as [_ H1], H2 as [_ H2]; [|done..]. by apply (ow_one _ _ Hp socket).
Qed.

Lemma object_usable others p x obj : owned others p -> Process.objects p !! x = Some obj -> usable (socket_of obj) (Process.os p).
Proof.
  intros Hp Hx. destruct (decide (socket_of obj = kInvalidSocket)) as [->|Hne]; [by left|right].
  apply (ow_open _ _ Hp _ x); [by exists obj|done].
Qed.

Lemma shutdown_spec socket o : usable socket o -> unmoved o (fst (shutdown_socket socket o)).
Proof.
  intros Hu. unfold shutdown_socket. destruct (socket =? kBadSocket); [done|].
  assert (H : wp (result ← Os.call socket; lift (refuse_if (negb (result =? 0)) last_socket_error)) (fun o' _ => unmoved o o') o).
  { apply wp_bind. eapply wp_mono; [|by apply call_spec]. by intros o' r [Hm [a ->]]. }
  exact H.
Qed.

Lemma peer_spec obj o : usable (socket_of obj) o -> unmoved o (fst (peer obj o)).
Proof.
  intros Hu. assert (H : wp (peer obj) (fun o' _ => unmoved o o') o); [|exact H]. unfold peer. destruct (negb (valid obj)); [done|].
  apply wp_bind. eapply wp_mono; [|by apply call_spec]. intros o1 r [Hm [a ->]]. destruct (negb (a =? 0)); [exact Hm|].
  apply wp_bind. eapply wp_mono; [|apply answer_spec]. intros o2 r [Hm2 [b ->]]. unfold wp. cbn. by etrans.
Qed.

Lemma step_owned others p p' : owned others p -> step pick p p' -> owned others p'.
Proof.
  intros Hp Hstep. inversion Hstep; subst; clear Hstep.
  - by apply owned_declare.
  - pose proof (bind_spec (Process.os p)) as Hb. unfold wp in Hb. rewrite H0 in Hb. by apply owned_opened.
  - pose proof (bind_spec (Process.os p)) as Hb. unfold wp in Hb. rewrite H in Hb. by apply owned_unmoved.
  - pose proof (connect_spec (Process.os p)) as Hb. unfold wp in Hb. rewrite H0 in Hb. by apply owned_opened.
  - pose proof (connect_spec (Process.os p)) as Hb. unfold wp in Hb. rewrite H in Hb. by apply owned_unmoved.
  - pose proof (accept_spec listener (Process.os p) (object_usable _ _ _ _ Hp H0)) as Hb. unfold wp in Hb. rewrite H1 in Hb. by apply owned_opened.
  - pose proof (accept_spec listener (Process.os p) (object_usable _ _ _ _ Hp H)) as Hb. unfold wp in Hb. rewrite H0 in Hb. by apply owned_unmoved.
  - apply (owned_move others p _ x y None other); try done; [congruence|]. simpl. set_solver.
  - destruct (destroy_spec others p x this Hp H0) as [Ho Hs].
    by apply (owned_move others p _ x y (Some this) other).
  - done.
  - unfold close in H0. pose proof (close_object others p x this Hp H) as Hc. unfold wp in Hc.
    destruct (close_socket _ _) as [o1 r]. injection H0 as <- <-. cbn in Hc. destruct Hc as [Ho Hs].
    apply (owned_give_up others p _ x this); try done. by right.
  - apply owned_unmoved; [done|]. apply shutdown_spec. by apply (object_usable others p x (TcpStream socket)).
  - apply owned_unmoved; [done|]. apply (call_spec socket). by apply (object_usable others p x (TcpStream socket)).
  - apply owned_unmoved; [done|]. apply peer_spec. by apply (object_usable others p x).
  - destruct (destroy_spec others p x this Hp H) as [Ho Hs]. apply (owned_give_up others p _ x this); try done. by left.
Qed.

Definition idle (others : gset Z) (answers : list Z) : Process.t := Process.mk (Os.start others answers) ∅.

Lemma idle_owned others answers : kBadSocket ∉ others -> owned others (idle others answers).
Proof.
  intros Hb. assert (Hno : forall socket x, ~ owner (idle others answers) socket x).
  { intros socket x (obj & Hx & _). simpl in Hx. by rewrite lookup_empty in Hx. }
  split; simpl; [done| | |by left|done]; intros; exfalso; by eapply Hno.
Qed.

(** C22: No descriptor is lost, shared or closed twice. Whatever a process does with streams and
    listeners, binding, connecting, accepting, moving, closing, destroying them, in any order, and
    whatever the operating system answers, no call is ever made on a descriptor that is not the
    object's own open socket, a descriptor belongs to one object at most, and once every object is
    destroyed the descriptors of the process are the ones it had before. *)
Theorem sockets_owned_once (others : gset Z) (answers : list Z) (p : Process.t) :
  kBadSocket ∉ others -> rtc (step pick) (idle others answers) p ->
  Os.stray (Process.os p) = 0 /\ others ⊆ Os.open_ (Process.os p) /\
  (forall x y a b, Process.objects p !! x = Some a -> Process.objects p !! y = Some b ->
     valid a = true -> socket_of a = socket_of b -> x = y) /\
  (Process.objects p = ∅ -> Os.open_ (Process.os p) = others).
Proof.
  intros Hb Hrun. assert (Hp : owned others p).
  { pose proof (idle_owned others answers Hb) as H0. revert H0. induction Hrun as [|a b c Hs _ IH]; [done|].
    intros H0. apply IH. by eapply step_owned. }
  destruct Hp as [[H1 _] H2 H3 H4 H5]. split_and!; [done..| |].
  - intros x y a b Ha Hb' Hv E. apply valid_spec in Hv. apply (H3 (socket_of a)); [by exists a|by exists b|done].
  - intros He. apply set_eq. intros socket. split; [|apply H1].
    intros Hin. destruct (H4 _ Hin) as [?|[_ [x (obj & Hx & _)]]]; [done|]. rewrite He in Hx. by rewrite lookup_empty in Hx.
Qed.
End picking.

(** ** Witnesses *)

(** The number after the largest one in use. *)
Definition above (s : gset Z) : Z := foldr Z.max 2 (elements s) + 1.

Lemma above_max (l : list Z) a : a ∈ l -> a <= foldr Z.max 2 l.
Proof. induction 1 as [a l|a b l _ IH]; cbn [foldr]; lia. Qed.

Lemma above_fresh s : above s ∉ s.
Proof. intros Hin. apply elem_of_elements, above_max in Hin. unfold above in Hin. lia. Qed.

Lemma above_valid s : above s <> kBadSocket.
Proof.
  unfold above, kBadSocket. assert (H : forall l, 2 <= foldr Z.max 2 l) by (induction l as [|a l IH]; cbn [foldr]; lia).
  pose proof (H (elements s)). lia.
Qed.

(** A listener that is bound, a connection that cannot be opened because [connect] fails, then
    the end of the listener. *)
Definition standard_files : gset Z := {[0; 1; 2]}.
Definition demo_answers : list Z := [0; 0; 0; 0; 0; 4242; 0; 111; 0; 0].

Lemma sockets_owned_once_witness :
  exists p, Os.stray (Process.os p) = 0 /\ Os.open_ (Process.os p) = standard_files /\ Os.answers (Process.os p) = [].
Proof.
  destruct (bind_loopback above (Os.start standard_files demo_answers)) as [o1 [[l port]|c]] eqn:E1;
    [|vm_compute in E1; discriminate E1].
  destruct (connect_loopback above o1) as [o2 [s|c]] eqn:E2;
    [vm_compute in E1; injection E1 as <- <- <-; vm_compute in E2; discriminate E2|].
  pose (p0 := idle standard_files demo_answers).
  pose (p1 := p0 <| Process.os := o1 |> <| Process.objects ::= <[0%nat := TcpListener l port]> |>).
  pose (p2 := p1 <| Process.os := o2 |>).
  pose (p3 := p2 <| Process.os ::= destroy (TcpListener l port) |> <| Process.objects ::= delete 0%nat |>).
  assert (Hrun : rtc (step above) p0 p3).
  { apply (rtc_l _ _ p1); [by apply Bound|]. apply (rtc_l _ _ p2); [by apply (NotConnected _ p1 o2 c)|].
    apply (rtc_l _ _ p3); [by apply (Destroyed _ p2 0%nat)|constructor]. }
  destruct (sockets_owned_once above above_fresh above_valid standard_files demo_answers p3) as (H1 & _ & _ & H4).
  - vm_compute. discriminate.
  - exact Hrun.
  - exists p3. split; [exact H1|]. split; [apply H4; reflexivity|].
    vm_compute in E1. injection E1 as <- <- <-. vm_compute in E2. injection E2 as <- <-. vm_compute. reflexivity.
Defined.
