(* ===== verification/Cluster.v ===== *)
(** * Coordinator and worker ([include/efg/cluster.hpp], [src/cluster.cpp])

    The coordinator owns a governor, in memory or in a durable store, and serves one session at
    a time; a worker registers and sends evidence. Both are methods over the streams of
    [Transport.v]. What the rest of the process does is explicit: the connections [accept]
    returns are an argument of [run], and [stop_calls] says, for each test of [stop_requested_],
    whether another thread has called [stop] since the test before. The text of a status, which
    a few fence frames carry, is a parameter: [message n] is the text in the frame with sequence
    number [n]. The free-text [detail] of an outcome is not kept; the report is in
    [ClusterReport.v]. A session whose stream is blocked ends there, as [None]; a worker's call
    that leaves its stream blocked has not returned, whatever its value. *)
From Stdlib Require Import String.
From S2P Require Import Prelude Status Checked Tri Tick Hash OMap Flow Tables Policy Impact Classification Intervention Governor Codec Restore Journal Durable Text Transport.

#[local] Open Scope string_scope.
#[local] Open Scope list_scope.
#[local] Open Scope Z_scope.

Definition kMaxNonceHistory : Z := 4096.

Definition put_string (s : list Z) (w : ByteWriter.t) : ByteWriter.t := fst (ByteWriter.write_string s w).
Definition need_string (max_bytes : Z) : M ByteReader.t (list Z) := need (ByteReader.read_string max_bytes).

(** ** Payloads *)

Definition append_fence (reason : FenceReason.t) (detail : list Z) : ByteWriter.t -> ByteWriter.t :=
  emit [put_u16 (FenceReason.to_u16 reason); put_string detail].

(** The reason is the raw number: the cast to the enumeration keeps any. Both outputs keep
    their initial value where the payload ends too early. *)
Definition read_fence (payload : list Z) : Z * list Z :=
  match ByteReader.read_u16 (ByteReader.make payload) with
  | (_, None) => (FenceReason.to_u16 FenceReason.None, [])
  | (r, Some raw) => (raw, default [] (snd (ByteReader.read_string kMaxNameBytes r)))
  end.

Definition encode_evidence_batch (samples : list FlowSample.t) (max_batch : Z) : M ByteWriter.t unit :=
  lift (refuse_if (size_of samples >? max_batch) StatusCode.Oversized) ;;
  modify (emit ([put_u32 (wrap 32 (size_of samples)); put_u64 0] ++ (encode <$> samples))) ;;
  writer ← get;
  lift (refuse_if (ByteWriter.overflowed_ writer) StatusCode.Oversized).

Definition decode_evidence_batch (max_batch : Z) : M ByteReader.t (list FlowSample.t) :=
  count ← need_u32;
  reserved ← need_u64;
  lift (refuse_if (negb (reserved =? 0)) StatusCode.InvalidArgument) ;;
  lift (refuse_if (count >? max_batch) StatusCode.Oversized) ;;
  samples ← read_items decode (Z.to_nat count);
  reader ← get;
  lift (refuse_if (negb (ByteReader.at_end reader)) StatusCode.ContradictoryEvidence) ;;
  mret samples.

(** ** Data *)

Module ClusterLimits.
Record t := mk { max_workers : Z; max_payload : Z; max_batch : Z }.
Definition default : t := mk kMaxWorkers kMaxFramePayload kMaxEvidenceBatch.
End ClusterLimits.

Module SessionOutcome.
Record t := mk {
  worker : WorkerId;
  boot : BootId;
  epoch : EpochId;
  label : list Z;
  fenced : bool;
  clean_bye : bool;
  fence : FenceReason.t;
  frames : Z;
  samples : Z;
  accepted : Z;
  duplicates : Z;
  rejected : Z;
  intents_fenced : Z }.
#[global] Instance eta_t : Eta t := fun r =>
  mk (worker r) (boot r) (epoch r) (label r) (fenced r) (clean_bye r) (fence r) (frames r) (samples r)
     (accepted r) (duplicates r) (rejected r) (intents_fenced r).
Definition default : t := mk 0 0 0 [] false false FenceReason.None 0 0 0 0 0 0.
End SessionOutcome.

Module WorkerRecord.
Record t := mk {
  worker : WorkerId;
  boot : BootId;
  epoch : EpochId;
  label : list Z;
  sessions : Z;
  fences : Z;
  last_seen : Tick;
  outcome : list Z }.
#[global] Instance eta_t : Eta t := fun r =>
  mk (worker r) (boot r) (epoch r) (label r) (sessions r) (fences r) (last_seen r) (outcome r).
End WorkerRecord.

Module CoordinatorConfig.
Record t := mk {
  boot : BootIdentity.t;
  limits : ClusterLimits.t;
  governor : GovernorConfig.t;
  start_tick : Tick;
  tick_stride : Z;
  expected_sessions : Z;
  has_store : bool;
  policy : PolicyDocument.t;
  capacities : list ResourceCapacity.t;
  paths : list PathDescriptor.t }.
End CoordinatorConfig.

(** [store_] and [governor_]: the governor of the coordinator, and the store with its disk if
    there is one. *)
Inductive Host : Type :=
| Inline (governor : Governor.t)
| Stored (store : DurableGovernor.t) (disk : Disk.t).

Module Host.
Definition governor (h : Host) : Governor.t :=
  match h with Inline g => g | Stored s _ => DurableGovernor.governor_ s end.

(** [store_ != nullptr ? store_->record(...) : governor_->submit(...)] *)
Definition through {A} (record : DurableGovernor.MD A) (submit : M Governor.t A) : M Host A := fun h =>
  match h with
  | Inline g => let '(g, x) := submit g in (Inline g, x)
  | Stored s d => let '((s, d), x) := record (s, d) in (Stored s d, x)
  end.

(** [governor_->...], which does not go through the store. *)
Definition direct {A} (m : M Governor.t A) : M Host A :=
  through (DurableGovernor.on_self (DurableGovernor.on_governor m)) m.

Definition submit_policy p := through (DurableGovernor.record_policy p) (Governor.submit_policy p).
Definition submit_capacity c := through (DurableGovernor.record_capacity c) (Governor.submit_capacity c).
Definition submit_path p := through (DurableGovernor.record_path p) (Governor.submit_path p).
Definition submit_evidence s := through (DurableGovernor.record_evidence s) (Governor.submit_evidence s).
Definition complete_flow flow generation at_ := direct (Governor.complete_flow flow generation at_).

(** The disk as the host leaves it, [d] being the one it was opened on, and as its
    destruction leaves it. *)
Definition disk (h : Host) (d : Disk.t) : Disk.t :=
  match h with Inline _ => d | Stored _ d => d end.
Definition destroy (h : Host) (d : Disk.t) : Disk.t :=
  match h with
  | Inline _ => d
  | Stored s d => (Journal.destroy (DurableGovernor.journal_ s, d)).1.2
  end.
End Host.

(** ** The coordinator *)

Module Coordinator.
Record t := mk {
  config_ : CoordinatorConfig.t;
  boot_ : BootIdentity.t;
  port_ : Z;
  host_ : Host;
  sessions_ : list SessionOutcome.t;
  workers_ : list WorkerRecord.t;
  seen_nonces_ : list Z;
  last_tick_ : Tick;
  session_sequence_ : Z;
  next_worker_id_ : WorkerId;
  stop_requested_ : bool;
  listening_ : bool;
  stop_calls : list bool }.
#[global] Instance eta_t : Eta t := fun r =>
  mk (config_ r) (boot_ r) (port_ r) (host_ r) (sessions_ r) (workers_ r) (seen_nonces_ r) (last_tick_ r)
     (session_sequence_ r) (next_worker_id_ r) (stop_requested_ r) (listening_ r) (stop_calls r).

Definition limits (c : t) : ClusterLimits.t := CoordinatorConfig.limits (config_ c).
Definition max_payload (c : t) : Z := ClusterLimits.max_payload (limits c).
Definition governor (c : t) : Governor.t := Host.governor (host_ c).

(** *** Construction *)

Definition store_options : DurableGovernor.Options :=
  DurableGovernor.mkOptions false Journal.default_options kMaxSnapshotBytes 0.

Definition open_host (config : CoordinatorConfig.t) : M Disk.t Host :=
  if CoordinatorConfig.has_store config then
    store ← DurableGovernor.open store_options (CoordinatorConfig.governor config)
              (CoordinatorConfig.boot config) (CoordinatorConfig.start_tick config);
    disk ← get;
    mret (Stored store disk)
  else
    mret (Inline (Governor.set_incarnation (CoordinatorConfig.boot config)
                    (Governor.make (CoordinatorConfig.governor config)))).

Definition configure (config : CoordinatorConfig.t) : M Host unit :=
  (if negb (RuleSet.empty (PolicyDocument.enter_rule (CoordinatorConfig.policy config)))
   then Host.submit_policy (CoordinatorConfig.policy config) else mret tt) ;;
  for_each Host.submit_capacity (CoordinatorConfig.capacities config) ;;
  for_each Host.submit_path (CoordinatorConfig.paths config).

Definition make (config : CoordinatorConfig.t) (host : Host) : t :=
  mk config (CoordinatorConfig.boot config) 0 host [] [] [] (CoordinatorConfig.start_tick config) 0 0
    false false [].

(** The coordinator that is being built is destroyed when a statement is refused. *)
Definition construct (config : CoordinatorConfig.t) (host : Host) : M Disk.t t := fun d =>
  match configure config host with
  | (host, Val _) => (Host.disk host d, Val (make config host))
  | (host, Err c) => (Host.destroy host d, Err c)
  end.

Definition create (config : CoordinatorConfig.t) : M Disk.t t :=
  let limits := CoordinatorConfig.limits config in
  let max_workers := ClusterLimits.max_workers limits in
  let max_payload := ClusterLimits.max_payload limits in
  lift (refuse_if (negb (BootIdentity.valid (CoordinatorConfig.boot config))) StatusCode.InvalidArgument) ;;
  lift (refuse_if ((max_workers =? 0) || (max_workers >? kMaxWorkers)) StatusCode.OutOfRange) ;;
  lift (refuse_if ((max_payload =? 0) || (max_payload >? kMaxFramePayload)) StatusCode.OutOfRange) ;;
  host ← open_host config;
  construct config host.

(** [bound] is what [bind_loopback] returned. *)
Definition listen (bound : StatusOr Z) : M t unit :=
  c ← get;
  lift (refuse_if (listening_ c) StatusCode.AlreadyExists) ;;
  port ← lift bound;
  modify (fun c => c <| port_ := port |> <| listening_ := true |>).

Definition stop (c : t) : t := c <| stop_requested_ := true |> <| listening_ := false |>.

(** A test of [stop_requested_]. *)
Definition test_stop (c : t) : t * bool :=
  let '(called, more) := match stop_calls c with [] => (false, []) | b :: more => (b, more) end in
  let c := c <| stop_calls := more |> in
  let c := if called then stop c else c in
  (c, stop_requested_ c).

Definition find_worker (id : WorkerId) (c : t) : option nat :=
  fst <$> list_find (fun r => WorkerRecord.worker r = id) (workers_ c).

Definition advance_to (tick : Tick) (c : t) : t :=
  if tick >? last_tick_ c then c <| last_tick_ := tick |> else c.
End Coordinator.

(** ** Sessions *)

(** A session being served: the coordinator, the accepted stream, the outcome so far, the index
    the pointer to the worker's record stands for, and the local [clean_bye]. *)
Module Session.
Record t := mk {
  coordinator : Coordinator.t;
  stream : TcpStream.t;
  outcome : SessionOutcome.t;
  record : option nat;
  clean_bye : bool }.
#[global] Instance eta_t : Eta t := fun r =>
  mk (coordinator r) (stream r) (outcome r) (record r) (clean_bye r).
Definition make (c : Coordinator.t) (stream : TcpStream.t) : t :=
  mk c stream SessionOutcome.default None false.

(** The session waits for its peer for ever. *)
Definition blocked (s : t) : bool := TcpStream.blocked (stream s).
(** What follows a call on the stream, if it returns. *)
Definition then_ (f : t -> t) (s : t) : t := if blocked s then s else f s.

Definition note (f : SessionOutcome.t -> SessionOutcome.t) (s : t) : t := s <| outcome ::= f |>.
Definition on_coordinator (f : Coordinator.t -> Coordinator.t) (s : t) : t := s <| coordinator ::= f |>.
Definition on_record (f : WorkerRecord.t -> WorkerRecord.t) (s : t) : t :=
  match record s with
  | None => s
  | Some i => on_coordinator (fun c => c <| Coordinator.workers_ ::= alter f i |>) s
  end.

(** A frame of the coordinator to the registered worker. *)
Definition reply (type : FrameType.t) (worker : WorkerId) (payload : ByteWriter.t) : M t unit := fun s =>
  let s := on_coordinator (fun c => c <| Coordinator.session_sequence_ ::= inc64 |>) s in
  let c := coordinator s in
  let header := FrameHeader.mk type 0 (Coordinator.session_sequence_ c) (BootIdentity.epoch (Coordinator.boot_ c))
                  (BootIdentity.boot (Coordinator.boot_ c)) worker 0 0 in
  on stream (write_frame (Coordinator.max_payload c) (Frame.mk header (ByteWriter.buffer_ payload))) s.

Definition fence_session (reason : FenceReason.t) (detail : list Z) (s : t) : t :=
  let s := note (fun o => o <| SessionOutcome.fenced := true |> <| SessionOutcome.fence := reason |>) s in
  let writer := append_fence reason detail (ByteWriter.make 256) in
  let '(s, _) := reply FrameType.Fence (SessionOutcome.worker (outcome s)) writer s in
  then_ (fun s => s <| stream ::= TcpStream.shutdown_send |>) s.

(** *** Registration *)

Definition read_hello : M ByteReader.t (WorkerId * BootId * EpochId * Z * list Z) :=
  requested_worker ← need_u64;
  boot ← need_u64;
  epoch ← need_u64;
  nonce ← need_u64;
  label ← need_string kMaxNameBytes;
  mret (requested_worker, boot, epoch, nonce, label).

(** The identifier for a worker that asks for [requested], or what the fence says. *)
Definition assign_worker (requested : WorkerId) (c : Coordinator.t) : list Z + (Coordinator.t * WorkerId) :=
  let max_workers := ClusterLimits.max_workers (Coordinator.limits c) in
  let next := Coordinator.next_worker_id_ c in
  if negb (id_valid requested) then
    if next >=? max_workers then inl (text "worker population ceiling reached")
    else let assigned := wrap 64 (next + 1) in inr (c <| Coordinator.next_worker_id_ := assigned |>, assigned)
  else if requested >? max_workers then inl (text "requested worker identifier exceeds the ceiling")
  else if requested >? next then inr (c <| Coordinator.next_worker_id_ := requested |>, requested)
  else inr (c, requested).

(** The record of the worker, created or brought up to date. *)
Definition enroll (assigned : WorkerId) (boot : BootId) (epoch : EpochId) (label : list Z) (s : t) : t :=
  let c := coordinator s in
  let s :=
    match Coordinator.find_worker assigned c with
    | None =>
        let fresh := WorkerRecord.mk assigned boot epoch label 0 0 (Coordinator.last_tick_ c) [] in
        on_coordinator (fun c => c <| Coordinator.workers_ ::= (fun l => l ++ [fresh]) |>) s
          <| record := Some (length (Coordinator.workers_ c)) |>
    | Some i =>
        on_record (fun r =>
          let r := if negb (WorkerRecord.boot r =? boot)
                   then r <| WorkerRecord.outcome := text "superseded_by_new_boot" |>
                          <| WorkerRecord.fences ::= inc64 |>
                   else r in
          r <| WorkerRecord.boot := boot |> <| WorkerRecord.epoch := epoch |>
            <| WorkerRecord.label := label |> <| WorkerRecord.last_seen := Coordinator.last_tick_ c |>)
          (s <| record := Some i |>)
    end in
  on_record (fun r => r <| WorkerRecord.sessions ::= inc64 |>) s.

Definition consume_nonce (nonce : Z) (c : Coordinator.t) : Coordinator.t :=
  let c := if size_of (Coordinator.seen_nonces_ c) >=? kMaxNonceHistory
           then c <| Coordinator.seen_nonces_ ::= tail |> else c in
  c <| Coordinator.seen_nonces_ ::= (fun l => l ++ [nonce]) |>.

Definition welcome_payload (assigned : WorkerId) (c : Coordinator.t) : ByteWriter.t :=
  emit [
    put_u64 assigned;
    put_u64 (BootIdentity.epoch (Coordinator.boot_ c));
    put_u64 (BootIdentity.boot (Coordinator.boot_ c));
    put_u64 (match Governor.policy_ (Coordinator.governor c) with
             | Some policy => PolicyDocument.digest policy
             | None => 0
             end);
    put_u32 1 ] (ByteWriter.make 256).

(** Whether the session was fenced. *)
Definition handle_hello (frame : Frame.t) : M t bool := fun s =>
  let fenced reason detail s := (fence_session reason (text detail) s, Val true) in
  match snd (read_hello (ByteReader.make (Frame.payload frame))) with
  | Err _ => fenced FenceReason.FrameMalformed "hello payload is truncated" s
  | Val (requested, boot, epoch, nonce, label) =>
  let own := BootIdentity.epoch (Coordinator.boot_ (coordinator s)) in
  if negb (FrameHeader.epoch (Frame.header frame) =? epoch) || negb (FrameHeader.boot (Frame.header frame) =? boot)
  then fenced FenceReason.FrameMalformed "hello frame identity disagrees with its payload" s
  else
  let s := note (fun o => o <| SessionOutcome.epoch := epoch |> <| SessionOutcome.boot := boot |>
                            <| SessionOutcome.label := label |>) s in
  if epoch <? own then fenced FenceReason.EpochStale "worker epoch is older than the coordinator epoch" s
  else if epoch >? own then fenced FenceReason.EpochAhead "worker epoch is newer than the coordinator epoch" s
  else if bool_decide (nonce ∈ Coordinator.seen_nonces_ (coordinator s))
  then fenced FenceReason.WorkerDuplicate "session nonce was already consumed" s
  else
  match assign_worker requested (coordinator s) with
  | inl detail => (fence_session FenceReason.PopulationCeiling detail s, Val true)
  | inr (c, assigned) =>
      let s := enroll assigned boot epoch label (s <| coordinator := c |>) in
      let s := on_coordinator (consume_nonce nonce) s in
      let s := note (fun o => o <| SessionOutcome.worker := assigned |> <| SessionOutcome.label := label |>) s in
      (reply FrameType.Welcome assigned (welcome_payload assigned (coordinator s)) ;; mret false) s
  end
  end.

(** *** Evidence *)

Definition submit_sample (now : Tick) (s : t) (sample : FlowSample.t) : t :=
  let s := note (fun o => o <| SessionOutcome.samples ::= inc64 |>) s in
  let decision_tick := TickSpan.end_ (FlowSample.span sample) in
  let issued := ValidityWindow.issued_at (FlowSample.validity sample) in
  let decision_tick := if issued >? decision_tick then issued else decision_tick in
  let decision_tick := if decision_tick <? now then now else decision_tick in
  let '(host, decision) := Host.submit_evidence sample (Coordinator.host_ (coordinator s)) in
  let s := on_coordinator (fun c => c <| Coordinator.host_ := host |>) s in
  match decision with
  | Val decision =>
      let s := note (fun o => o <| SessionOutcome.accepted ::= inc64 |>) s in
      let s := if FlowDecision.evidence_duplicate decision
               then note (fun o => o <| SessionOutcome.duplicates ::= inc64 |>) s else s in
      on_coordinator (Coordinator.advance_to decision_tick) s
  | Err _ => note (fun o => o <| SessionOutcome.rejected ::= inc64 |>) s
  end.

Definition apply_evidence_batch (payload : list Z) (now : Tick) : M t unit := fun s =>
  let max_batch := ClusterLimits.max_batch (Coordinator.limits (coordinator s)) in
  match snd (decode_evidence_batch max_batch (ByteReader.make payload)) with
  | Err c => (s, Err c)
  | Val samples => (foldl (submit_sample now) s samples, Val tt)
  end.

Definition apply_completion (payload : list Z) (now : Tick) : M t unit := fun s =>
  match snd (DurableGovernor.read_completion (ByteReader.make payload)) with
  | Err c => (s, Err c)
  | Val (flow, generation, at_) =>
      if negb (id_valid flow) || negb (id_valid generation) then (s, Err StatusCode.InvalidArgument)
      else
      let at_ := if at_ <? now then now else at_ in
      let '(host, status) := Host.complete_flow flow generation at_ (Coordinator.host_ (coordinator s)) in
      let s := on_coordinator (fun c => c <| Coordinator.host_ := host |>) s in
      match status with
      | Err StatusCode.NotFound | Val _ => (on_coordinator (Coordinator.advance_to at_) s, Val tt)
      | Err c => (s, Err c)
      end
  end.

Definition ack_payload (s : t) : ByteWriter.t :=
  emit [
    put_u64 (SessionOutcome.accepted (outcome s));
    put_u64 (SessionOutcome.duplicates (outcome s));
    put_u64 (SessionOutcome.rejected (outcome s));
    put_u64 (Coordinator.last_tick_ (coordinator s));
    put_u64 (decision_digest (Coordinator.governor (coordinator s))) ] (ByteWriter.make 256).

(** *** The stream *)

(** How a turn of the loop ends. *)
Inductive Turn : Type := Again | Break | Return (status : Status).

Section loop.
Context (message : Z -> list Z).

(** The text of the status the next frame reports. *)
Definition next_message (s : t) : list Z := message (inc64 (Coordinator.session_sequence_ (coordinator s))).

Definition refuse (turn : Turn) (reason : FenceReason.t) (detail : list Z) (s : t) : t * Turn :=
  (fence_session reason detail s, turn).

Definition on_heartbeat (payload : list Z) (s : t) : t * Turn :=
  match snd (need_u64 (ByteReader.make payload)) with
  | Err _ => refuse (Return (Val tt)) FenceReason.FrameMalformed (text "heartbeat payload is truncated") s
  | Val tick => (on_coordinator (Coordinator.advance_to tick) s, Again)
  end.

Definition on_batch (payload : list Z) (s : t) : t * Turn :=
  match apply_evidence_batch payload (Coordinator.last_tick_ (coordinator s)) s with
  | (s, Err c) =>
      let reason := if bool_decide (c = StatusCode.Oversized) then FenceReason.FrameOversized
                    else FenceReason.FrameMalformed in
      let writer := append_fence reason (next_message s) (ByteWriter.make 256) in
      let '(s, _) := reply FrameType.Fence (SessionOutcome.worker (outcome s)) writer s in
      (then_ (note (fun o => o <| SessionOutcome.fenced := true |> <| SessionOutcome.fence := reason |>)) s,
       Return (Val tt))
  | (s, Val _) =>
      match reply FrameType.EvidenceAck (SessionOutcome.worker (outcome s)) (ack_payload s) s with
      | (s, Err c) => (s, Return (Err c))
      | (s, Val _) => (s, Again)
      end
  end.

Definition on_completion (payload : list Z) (s : t) : t * Turn :=
  match apply_completion payload (Coordinator.last_tick_ (coordinator s)) s with
  | (s, Err _) => refuse (Return (Val tt)) FenceReason.GenerationRegression (next_message s) s
  | (s, Val _) => (s, Again)
  end.

Definition handle_frame (frame : Frame.t) (s : t) : t * Turn :=
  let s := note (fun o => o <| SessionOutcome.frames ::= inc64 |>) s in
  let header := Frame.header frame in
  if negb (FrameHeader.epoch header =? BootIdentity.epoch (Coordinator.boot_ (coordinator s)))
  then refuse Break FenceReason.EpochStale (text "frame epoch disagrees with the coordinator epoch") s
  else if negb (FrameHeader.worker header =? SessionOutcome.worker (outcome s))
  then refuse Break FenceReason.WorkerUnknown (text "frame worker disagrees with the registered worker") s
  else if negb (FrameHeader.boot header =? SessionOutcome.boot (outcome s))
  then refuse Break FenceReason.BootMismatch (text "frame boot disagrees with the registered incarnation") s
  else
  match FrameHeader.type header with
  | FrameType.Bye => (s <| clean_bye := true |>, Break)
  | FrameType.Hello => refuse Break FenceReason.WorkerDuplicate (text "second hello inside one session") s
  | FrameType.Heartbeat => on_heartbeat (Frame.payload frame) s
  | FrameType.EvidenceBatch => on_batch (Frame.payload frame) s
  | FrameType.FlowCompletion => on_completion (Frame.payload frame) s
  | FrameType.Shutdown => (s <| clean_bye := true |>, Again)
  | _ => refuse (Return (Val tt)) FenceReason.FrameMalformed (text "frame type is not accepted from a worker") s
  end.

Definition stream_turn (s : t) : t * Turn :=
  let '(stream', frame) := read_frame (Coordinator.max_payload (coordinator s)) (stream s) in
  let s := s <| stream := stream' |> in
  if blocked s then (s, Break)
  else
  match frame with
  | Err StatusCode.Closed => (s, Break)
  | Err _ => refuse Break FenceReason.FrameMalformed (text "frame read failed") s
  | Val frame => handle_frame frame s
  end.

(** The loop of [handle_stream]; a frame has at least 56 bytes, so the number of bytes to come
    is enough fuel. [None]: it does not return, since the session is blocked (or the fuel is
    exhausted). *)
Fixpoint stream_loop (fuel : nat) (s : t) : t * option Status :=
  match fuel with
  | O => (s, None)
  | Datatypes.S fuel =>
      let leave s := (note (fun o => o <| SessionOutcome.clean_bye := clean_bye s |>) s, Some (Val tt)) in
      let '(c, stopping) := Coordinator.test_stop (coordinator s) in
      let s := s <| coordinator := c |> in
      if stopping then leave s
      else
      let '(s, turn) := stream_turn s in
      if blocked s then (s, None)
      else
      match turn with
      | Again => stream_loop fuel s
      | Break => leave s
      | Return status => (s, Some status)
      end
  end.

Definition handle_stream (s : t) : t * option Status :=
  stream_loop (Datatypes.S (length (incoming (TcpStream.arrivals (stream s))))) s.

(** *** A whole session *)

Definition fenced_text (s : t) : list Z :=
  text "fenced: " ++ FenceReason.to_string (SessionOutcome.fence (outcome s)).

(** The stream is closed and the outcome kept. *)
Definition finish (s : t) : t :=
  on_coordinator (fun c => c <| Coordinator.sessions_ ::= (fun l => l ++ [outcome s]) |>)
    (s <| stream ::= TcpStream.close |>).

Definition close_record (s : t) : t :=
  on_record (fun r =>
    let r := r <| WorkerRecord.last_seen := Coordinator.last_tick_ (coordinator s) |>
               <| WorkerRecord.outcome :=
                    if SessionOutcome.fenced (outcome s) then fenced_text s
                    else text (if SessionOutcome.clean_bye (outcome s) then "clean" else "closed") |> in
    if SessionOutcome.fenced (outcome s) then r <| WorkerRecord.fences ::= inc64 |> else r) s.

(** The end of a session that is not blocked. *)
Definition ending (s : t) : t * option Status :=
  if blocked s then (s, None) else (finish s, Some (Val tt)).

(** [serve_one] from the accepted stream on. [None]: it does not return. *)
Definition serve (stream' : TcpStream.t) (c : Coordinator.t) : t * option Status :=
  let '(stream', frame) := read_frame (Coordinator.max_payload c) stream' in
  let s := make c stream' in
  match frame with
  | Err _ =>
      ending (then_ (note (fun o => o <| SessionOutcome.fenced := true |>
                                      <| SessionOutcome.fence := FenceReason.FrameMalformed |>)) s)
  | Val hello =>
  let s := note (fun o => o <| SessionOutcome.frames ::= inc64 |>) s in
  if negb (bool_decide (FrameHeader.type (Frame.header hello) = FrameType.Hello))
  then ending (fence_session FenceReason.FrameMalformed (text "first frame was not a hello") s)
  else
  match handle_hello hello s with
  | (s, Err _) | (s, Val true) =>
      ending (then_ (on_record (fun r =>
         r <| WorkerRecord.last_seen := Coordinator.last_tick_ (coordinator s) |>
           <| WorkerRecord.outcome := fenced_text s |>)) s)
  | (s, Val false) =>
      match handle_stream s with
      | (s, None) => (s, None)
      | (s, Some _) =>
          (finish (close_record s <| stream ::= TcpStream.shutdown_send |>), Some (Val tt))
      end
  end
  end.
End loop.
End Session.

Module Run.
Section run.
Context (message : Z -> list Z).

(** [accepted] is what the system's [accept] returns on a bound listener. *)
Definition serve_one (accepted : StatusOr TcpStream.t) (c : Coordinator.t) : Coordinator.t * option Status :=
  match (if Coordinator.listening_ c then accepted else Err StatusCode.Closed) with
  | Err code => (c, Some (Err code))
  | Val stream =>
      let '(s, status) := Session.serve message stream c in (Session.coordinator s, status)
  end.

(** The loop of [run]. [None]: it waits for a further connection, or inside a session. *)
Fixpoint run_loop (accepts : list (StatusOr TcpStream.t)) (c : Coordinator.t) : Coordinator.t * option Status :=
  let '(c, stopping) := Coordinator.test_stop c in
  if stopping then (c, Some (Val tt))
  else
  let expected := CoordinatorConfig.expected_sessions (Coordinator.config_ c) in
  if negb (expected =? 0) && (size_of (Coordinator.sessions_ c) >=? expected) then (c, Some (Val tt))
  else
  match accepts with
  | [] => (c, None)
  | accepted :: accepts =>
      match serve_one accepted c with
      | (c, None) => (c, None)
      | (c, Some (Val _)) => run_loop accepts c
      | (c, Some (Err code)) =>
          let '(c, stopping) := Coordinator.test_stop c in
          if stopping || negb (Coordinator.listening_ c) then (c, Some (Val tt))
          else if bool_decide (code = StatusCode.Closed) then (c, Some (Val tt))
          else (c, Some (Err code))
      end
  end.

Definition run (bound : StatusOr Z) (accepts : list (StatusOr TcpStream.t)) (c : Coordinator.t)
    : Coordinator.t * option Status :=
  if negb (Coordinator.listening_ c) then
    match Coordinator.listen bound c with
    | (c, Err code) => (c, Some (Err code))
    | (c, Val _) => run_loop accepts c
    end
  else run_loop accepts c.
End run.
End Run.

(** ** The worker *)

Module WorkerConfig.
Record t := mk {
  port : Z;
  boot : BootIdentity.t;
  requested_worker : WorkerId;
  session_nonce : Z;
  label : list Z;
  start_tick : Tick;
  limits : ClusterLimits.t }.
End WorkerConfig.

Module Worker.
Record t := mk {
  config_ : WorkerConfig.t;
  boot_ : BootIdentity.t;
  stream_ : TcpStream.t;
  assigned_worker_ : WorkerId;
  buffer_ : list FlowSample.t;
  sequence_ : Z;
  frames_sent_ : Z;
  samples_sent_ : Z;
  accepted_ : Z;
  duplicates_ : Z;
  rejected_ : Z;
  registered_ : bool;
  last_fence_ : Z;
  fence_detail_ : list Z }.
#[global] Instance eta_t : Eta t := fun r =>
  mk (config_ r) (boot_ r) (stream_ r) (assigned_worker_ r) (buffer_ r) (sequence_ r) (frames_sent_ r)
     (samples_sent_ r) (accepted_ r) (duplicates_ r) (rejected_ r) (registered_ r) (last_fence_ r)
     (fence_detail_ r).

Definition max_payload (w : t) : Z := ClusterLimits.max_payload (WorkerConfig.limits (config_ w)).
Definition max_batch (w : t) : Z := ClusterLimits.max_batch (WorkerConfig.limits (config_ w)).

Definition make (config : WorkerConfig.t) (stream : TcpStream.t) : t :=
  mk config (WorkerConfig.boot config) stream 0 [] 0 0 0 0 0 0 false (FenceReason.to_u16 FenceReason.None) [].

(** [connected] is what [connect_loopback] returned. *)
Definition connect (config : WorkerConfig.t) (connected : StatusOr TcpStream.t) : StatusOr t :=
  refuse_if (WorkerConfig.port config =? 0) StatusCode.InvalidArgument ;;
  refuse_if (negb (BootIdentity.valid (WorkerConfig.boot config))) StatusCode.InvalidArgument ;;
  stream ← connected;
  Val (make config stream).

Definition send (type : FrameType.t) (payload : list Z) : M t unit :=
  w ← get;
  lift (refuse_if (negb (TcpStream.valid (stream_ w))) StatusCode.Closed) ;;
  modify (fun w => w <| sequence_ ::= inc64 |>) ;;
  w ← get;
  let header := FrameHeader.mk type 0 (sequence_ w) (BootIdentity.epoch (boot_ w)) (BootIdentity.boot (boot_ w))
                  (assigned_worker_ w) 0 0 in
  on stream_ (write_frame (max_payload w) (Frame.mk header payload)) ;;
  modify (fun w => w <| frames_sent_ ::= inc64 |>).

Definition receive : M t Frame.t := w ← get; on stream_ (read_frame (max_payload w)).

(** A fence frame in place of the expected answer. *)
Definition fenced_by (frame : Frame.t) : M t unit :=
  let '(reason, detail) := read_fence (Frame.payload frame) in
  modify (fun w => w <| last_fence_ := reason |> <| fence_detail_ := detail |>) ;;
  fail StatusCode.AuthorityMismatch.

Definition hello_payload (w : t) : ByteWriter.t :=
  emit [
    put_u64 (WorkerConfig.requested_worker (config_ w));
    put_u64 (BootIdentity.boot (boot_ w));
    put_u64 (BootIdentity.epoch (boot_ w));
    put_u64 (WorkerConfig.session_nonce (config_ w));
    put_string (WorkerConfig.label (config_ w)) ] (ByteWriter.make 256).

Definition read_welcome : M ByteReader.t (WorkerId * EpochId * BootId * Z * Z) :=
  worker ← need_u64;
  epoch ← need_u64;
  coordinator_boot ← need_u64;
  policy_digest ← need_u64;
  accepted ← need_u32;
  mret (worker, epoch, coordinator_boot, policy_digest, accepted).

Definition accept_welcome (reply : Frame.t) : M t unit :=
  welcome ← lift (snd (read_welcome (ByteReader.make (Frame.payload reply))));
  let '(worker, epoch, coordinator_boot, _, accepted) := welcome in
  lift (refuse_if (negb (accepted =? 1)) StatusCode.AuthorityMismatch) ;;
  w ← get;
  (if negb (epoch =? BootIdentity.epoch (boot_ w))
   then modify (fun w => w <| last_fence_ := FenceReason.to_u16 FenceReason.EpochAhead |>
                           <| fence_detail_ := text "welcome epoch disagrees with the worker epoch" |>) ;;
        fail StatusCode.EpochMismatch
   else mret tt) ;;
  lift (refuse_if (negb (FrameHeader.boot (Frame.header reply) =? coordinator_boot)) StatusCode.BootMismatch) ;;
  modify (fun w => w <| assigned_worker_ := worker |> <| registered_ := true |>).

Definition register_session : M t unit :=
  w ← get;
  let writer := hello_payload w in
  lift (refuse_if (ByteWriter.overflowed_ writer) StatusCode.Oversized) ;;
  send FrameType.Hello (ByteWriter.buffer_ writer) ;;
  reply ← receive;
  match FrameHeader.type (Frame.header reply) with
  | FrameType.Fence => fenced_by reply
  | FrameType.Welcome => accept_welcome reply
  | _ => fail StatusCode.Conflict
  end.

Definition need_registered : M t unit :=
  w ← get; lift (refuse_if (negb (registered_ w)) StatusCode.AuthorityMismatch).

Definition heartbeat (now : Tick) : M t unit :=
  need_registered ;;
  send FrameType.Heartbeat (ByteWriter.buffer_ (put_u64 now (ByteWriter.make 16))).

(** Read a counter of the acknowledgement straight into a member. *)
Definition read_into (f : t -> Z) `{!Setter f} : M (t * ByteReader.t) unit := fun wr =>
  let '(w, r) := wr in
  match need_u64 r with
  | (r, Val v) => ((w <| f := v |>, r), Val tt)
  | (r, Err c) => ((w, r), Err c)
  end.
Definition read_past : M (t * ByteReader.t) unit := fun wr =>
  let '(w, r) := wr in let '(r, x) := need_u64 r in ((w, r), x ≫= fun _ => Val tt).

Definition read_ack (payload : list Z) : M t unit := fun w =>
  let '((w, _), x) :=
    (read_into accepted_ ;; read_into duplicates_ ;; read_into rejected_ ;; read_past ;; read_past)
      (w, ByteReader.make payload) in
  (w, x).

Definition flush_internal : M t unit :=
  w ← get;
  if bool_decide (buffer_ w = []) then mret tt
  else
  let '(writer, encoded) := encode_evidence_batch (buffer_ w) (max_batch w) (ByteWriter.make kMaxFramePayload) in
  lift encoded ;;
  send FrameType.EvidenceBatch (ByteWriter.buffer_ writer) ;;
  modify (fun w => w <| samples_sent_ ::= add64 (size_of (buffer_ w)) |> <| buffer_ := [] |>) ;;
  ack ← receive;
  match FrameHeader.type (Frame.header ack) with
  | FrameType.Fence => fenced_by ack
  | FrameType.EvidenceAck => read_ack (Frame.payload ack)
  | _ => fail StatusCode.Conflict
  end.

Definition submit_evidence (sample : FlowSample.t) : M t unit :=
  need_registered ;;
  w ← get;
  (if size_of (buffer_ w) >=? max_batch w then flush_internal else mret tt) ;;
  modify (fun w => w <| buffer_ ::= (fun l => l ++ [sample]) |>).

Definition complete_flow (flow : FlowId) (generation : Generation) (at_ : Tick) : M t unit :=
  need_registered ;;
  flush_internal ;;
  send FrameType.FlowCompletion
    (ByteWriter.buffer_ (emit [put_u64 flow; put_u64 generation; put_u64 at_] (ByteWriter.make 32))).

Definition flush : M t unit := need_registered ;; flush_internal.

Definition bye (reason : list Z) : M t unit :=
  need_registered ;;
  flush_internal ;;
  send FrameType.Bye (ByteWriter.buffer_ (emit [put_u16 0; put_string reason] (ByteWriter.make 256))) ;;
  modify (fun w => w <| registered_ := false |> <| stream_ ::= TcpStream.shutdown_send |>).
End Worker.
