(* ===== verification/ClusterFacts.v ===== *)
(** * What coordinator and worker guarantee

    Every session ends, whatever arrives; only frames that carry the identity of a registered
    session reach the governor, and the governor is what their contents make of it; worker and
    coordinator agree on the registration and on every batch; the books of the coordinator stay
    bounded and consistent over any number of sessions. *)
From S2P Require Import Prelude Status Checked Tri Tick Hash OMap Flow Tables Policy Impact Classification Intervention Governor GovernorFacts GovernorRuns Codec CodecFacts Restore Journal JournalFacts Durable DurableFacts Text Transport TransportFacts Cluster.

#[local] Opaque crc32c Governor.submit_evidence Governor.complete_flow Governor.submit_policy Governor.submit_capacity Governor.submit_path Governor.tick decision_digest.

(** ** Reaching a governor through operations *)

Definition reaches (allowed : gov_op -> Prop) (g g' : Governor.t) : Prop :=
  exists ops, Forall allowed ops /\ g' = gov_run ops g.

#[global] Instance reaches_preorder allowed : PreOrder (reaches allowed).
Proof.
  split.
  - intros g. by exists [].
  - intros g1 g2 g3 (ops & H & ->) (ops' & H' & ->). exists (ops ++ ops').
    split; [by apply Forall_app|]. unfold gov_run. by rewrite foldl_app.
Qed.

Lemma reaches_mono (p q : gov_op -> Prop) g g' : (forall op, p op -> q op) -> reaches p g g' -> reaches q g g'.
Proof. intros Hpq (ops & H & ->). exists ops. split; [|done]. by eapply Forall_impl. Qed.

Lemma reaches_op (p : gov_op -> Prop) op g : p op -> reaches p g (gov_apply op g).
Proof. intros Hp. exists [op]. split; [by constructor|done]. Qed.

Lemma host_evidence_reaches (p : gov_op -> Prop) x h :
  p (SubmitEvidence x) -> reaches p (Host.governor h) (Host.governor (Host.submit_evidence x h).1).
Proof.
  intros Hp. unfold Host.submit_evidence, Host.through. destruct h as [g|s d].
  - pose proof (reaches_op p (SubmitEvidence x) g Hp) as H. cbn [gov_apply] in H.
    by destruct (Governor.submit_evidence x g).
  - pose proof (record_evidence_governor x s d) as H.
    destruct (DurableGovernor.record_evidence x (s, d)) as [[s' d'] r]. cbn [fst Host.governor] in *.
    destruct H as [->| ->]; [done|]. by apply (reaches_op p (SubmitEvidence x)).
Qed.

Lemma host_completion_reaches (p : gov_op -> Prop) flow generation at_ h :
  p (CompleteFlow flow generation at_) ->
  reaches p (Host.governor h) (Host.governor (Host.complete_flow flow generation at_ h).1).
Proof.
  intros Hp. unfold Host.complete_flow, Host.direct, Host.through.
  pose proof (reaches_op p _ (Host.governor h) Hp) as H. cbn [gov_apply] in H. destruct h as [g|s d]; cbn [Host.governor] in *.
  - by destruct (Governor.complete_flow flow generation at_ g).
  - unfold DurableGovernor.on_self, DurableGovernor.on_governor, on.
    by destruct (Governor.complete_flow flow generation at_ (DurableGovernor.governor_ s)).
Qed.

(** ** What serving a frame leaves alone *)

(** Configuration, identity and registry of the coordinator, the registration of the session
    and the bytes still to come; a stream that does not block still does not. *)
Record alike (s s' : Session.t) : Prop := {
  al_config : Coordinator.config_ (Session.coordinator s') = Coordinator.config_ (Session.coordinator s);
  al_boot : Coordinator.boot_ (Session.coordinator s') = Coordinator.boot_ (Session.coordinator s);
  al_sessions : Coordinator.sessions_ (Session.coordinator s') = Coordinator.sessions_ (Session.coordinator s);
  al_workers : Coordinator.workers_ (Session.coordinator s') = Coordinator.workers_ (Session.coordinator s);
  al_nonces : Coordinator.seen_nonces_ (Session.coordinator s') = Coordinator.seen_nonces_ (Session.coordinator s);
  al_next : Coordinator.next_worker_id_ (Session.coordinator s') = Coordinator.next_worker_id_ (Session.coordinator s);
  al_record : Session.record s' = Session.record s;
  al_worker : SessionOutcome.worker (Session.outcome s') = SessionOutcome.worker (Session.outcome s);
  al_oboot : SessionOutcome.boot (Session.outcome s') = SessionOutcome.boot (Session.outcome s);
  al_arrivals : TcpStream.arrivals (Session.stream s') = TcpStream.arrivals (Session.stream s);
  al_responsive : responsive (Session.stream s) -> responsive (Session.stream s') }.

#[global] Instance alike_preorder : PreOrder alike.
Proof.
  split.
  - by intros s.
  - intros s1 s2 s3 [] []. split; [congruence..|auto].
Qed.

(** The governor, which most steps do not touch either. *)
Definition session_governor (s : Session.t) : Governor.t := Coordinator.governor (Session.coordinator s).
Definition host_of (s : Session.t) : Host := Coordinator.host_ (Session.coordinator s).

(** Steps that keep the host too. *)
Definition spares (s s' : Session.t) : Prop := alike s s' /\ host_of s' = host_of s.
#[global] Instance spares_preorder : PreOrder spares.
Proof.
  split.
  - by intros s.
  - intros s1 s2 s3 [H1 E1] [H2 E2]. split; [by etrans|congruence].
Qed.

Lemma reply_spares type worker payload s : spares s (Session.reply type worker payload s).1.
Proof.
  unfold Session.reply, on. cbv zeta.
  match goal with |- context [write_frame ?m ?f ?st] => destruct (write_frame_frame m f st) as (H & _ & Hr);
    destruct (write_frame m f st) as [st' r] end.
  cbn [fst] in *. split; [split; first [exact H|exact Hr|done]|done].
Qed.

Lemma note_spares f s :
  SessionOutcome.worker (f (Session.outcome s)) = SessionOutcome.worker (Session.outcome s) ->
  SessionOutcome.boot (f (Session.outcome s)) = SessionOutcome.boot (Session.outcome s) ->
  spares s (Session.note f s).
Proof. intros. by split. Qed.

Lemma then_spares f s : (forall s, spares s (f s)) -> spares s (Session.then_ f s).
Proof. intros Hf. unfold Session.then_. by destruct (Session.blocked s). Qed.

Lemma fence_spares reason detail s : spares s (Session.fence_session reason detail s).
Proof.
  unfold Session.fence_session. cbv zeta. set (s1 := Session.note _ s).
  assert (H1 : spares s s1) by (by apply note_spares). clearbody s1.
  pose proof (reply_spares FrameType.Fence (SessionOutcome.worker (Session.outcome s1))
    (append_fence reason detail (ByteWriter.make 256)) s1) as H2.
  destruct (Session.reply _ _ _ s1) as [s2 r]. cbn [fst] in H2. etrans; [exact H1|]. etrans; [exact H2|]. apply then_spares. by split.
Qed.

Lemma advance_spares tick s : spares s (Session.on_coordinator (Coordinator.advance_to tick) s).
Proof.
  unfold Session.on_coordinator. assert (H : exists last, Coordinator.advance_to tick (Session.coordinator s) =
    Session.coordinator s <| Coordinator.last_tick_ := last |>).
  { unfold Coordinator.advance_to. destruct (_ >? _); [by eexists|].
    exists (Coordinator.last_tick_ (Session.coordinator s)). by destruct (Session.coordinator s). }
  destruct H as [last H]. set (s' := s <| Session.coordinator ::= _ |>).
  assert (Hc : Session.coordinator s' = Session.coordinator s <| Coordinator.last_tick_ := last |>) by exact H.
  unfold spares, host_of. rewrite Hc. split; [split; try rewrite Hc; done|done].
Qed.
#[local] Hint Resolve reply_spares fence_spares advance_spares : efg.

(** ** The operations a frame carries *)

(** [frame] carries [op] for the session that [worker] and [boot] registered. *)
Definition identified (c : Coordinator.t) (o : SessionOutcome.t) (frame : Frame.t) : Prop :=
  let header := Frame.header frame in
  FrameHeader.epoch header = BootIdentity.epoch (Coordinator.boot_ c) /\
  FrameHeader.worker header = SessionOutcome.worker o /\
  FrameHeader.boot header = SessionOutcome.boot o.

Definition carried (c : Coordinator.t) (frame : Frame.t) (op : gov_op) : Prop :=
  let reader := ByteReader.make (Frame.payload frame) in
  match op with
  | SubmitEvidence x => FrameHeader.type (Frame.header frame) = FrameType.EvidenceBatch /\
      exists samples, snd (decode_evidence_batch (ClusterLimits.max_batch (Coordinator.limits c)) reader) = Val samples /\
      x ∈ samples
  | CompleteFlow flow generation at_ => FrameHeader.type (Frame.header frame) = FrameType.FlowCompletion /\
      exists stated, snd (DurableGovernor.read_completion reader) = Val (flow, generation, stated) /\ stated <= at_
  | _ => False
  end.

Lemma submit_sample_alike now s x :
  alike s (Session.submit_sample now s x) /\
  (Host.submit_evidence x (host_of s)).1 = host_of (Session.submit_sample now s x).
Proof.
  unfold Session.submit_sample. cbv zeta. set (s1 := Session.note _ s).
  assert (H1 : spares s s1) by (by apply note_spares).
  change (Coordinator.host_ (Session.coordinator s1)) with (host_of s1).
  destruct H1 as [H1 E1]. rewrite E1.
  destruct (Host.submit_evidence x (host_of s)) as [h decision]. cbn [fst]. clearbody s1.
  set (s2 := Session.on_coordinator _ s1). assert (H2 : alike s1 s2) by (by split).
  assert (E2 : host_of s2 = h) by done. clearbody s2. rewrite <- E2.
  assert (H3 : forall s3, spares s2 s3 -> alike s s3 /\ host_of s2 = host_of s3).
  { intros s3 [Ha Eh]. split; [|done]. etrans; [exact H1|]. by etrans. }
  apply H3. destruct decision as [d|c]; [|by apply note_spares]. etrans; [|apply advance_spares].
  destruct (FlowDecision.evidence_duplicate d); [|by apply note_spares].
  etrans; [|by apply note_spares]. by apply note_spares.
Qed.

Lemma submit_samples_reach (p : gov_op -> Prop) now xs : forall s,
  (forall x, x ∈ xs -> p (SubmitEvidence x)) ->
  alike s (foldl (Session.submit_sample now) s xs) /\
  reaches p (session_governor s) (session_governor (foldl (Session.submit_sample now) s xs)).
Proof.
  induction xs as [|x xs IH]; intros s Hp; [done|]. cbn [foldl].
  destruct (submit_sample_alike now s x) as [H1 E1].
  destruct (IH (Session.submit_sample now s x)) as [H2 R2]; [intros y Hy; apply Hp; by constructor|].
  split; [by etrans|]. etrans; [|exact R2].
  change (reaches p (Host.governor (host_of s)) (Host.governor (host_of (Session.submit_sample now s x)))).
  rewrite <- E1. apply host_evidence_reaches, Hp. by constructor.
Qed.

Lemma completion_reaches (p : gov_op -> Prop) payload now s s' r :
  (forall flow generation stated at_,
     snd (DurableGovernor.read_completion (ByteReader.make payload)) = Val (flow, generation, stated) ->
     stated <= at_ -> p (CompleteFlow flow generation at_)) ->
  Session.apply_completion payload now s = (s', r) ->
  alike s s' /\ reaches p (session_governor s) (session_governor s').
Proof.
  intros Hp. unfold Session.apply_completion.
  destruct (snd (DurableGovernor.read_completion (ByteReader.make payload))) as [[[flow generation] stated]|c] eqn:Er;
    [|by intros [= <- <-]].
  destruct (_ || _); [by intros [= <- <-]|]. set (at_ := if stated <? now then now else stated).
  assert (Hat : stated <= at_) by (unfold at_; destruct (Z.ltb_spec stated now); lia). clearbody at_.
  pose proof (host_completion_reaches p flow generation at_ (host_of s) (Hp _ _ _ _ eq_refl Hat)) as Hr.
  change (Coordinator.host_ (Session.coordinator s)) with (host_of s).
  destruct (Host.complete_flow flow generation at_ (host_of s)) as [h status]. cbn [fst] in Hr.
  set (s1 := Session.on_coordinator _ s). assert (H1 : alike s s1) by (by split).
  assert (E1 : host_of s1 = h) by done. clearbody s1. rewrite <- E1 in Hr.
  assert (H2 : forall s2, spares s1 s2 -> alike s s2 /\ reaches p (session_governor s) (session_governor s2)).
  { intros s2 [Ha Eh]. split; [by etrans|]. unfold session_governor, Coordinator.governor.
    unfold host_of in Eh. rewrite Eh. exact Hr. }
  destruct status as [u|c]; [|destruct c]; intros [= <- <-]; apply H2; auto with efg; done.
Qed.

(** Sessions that differ in their stream at most. *)
Definition enlisted (s s' : Session.t) : Prop := exists stream, alike (s <| Session.stream := stream |>) s'.

Lemma alike_enlisted s s' : alike s s' -> enlisted s s'.
Proof. exists (Session.stream s). by destruct s. Qed.

#[global] Instance enlisted_preorder : PreOrder enlisted.
Proof.
  split.
  - intros s. by apply alike_enlisted.
  - intros s1 s2 s3 [st1 H1] [st2 H2]. exists st2. destruct H1, H2. cbn in *. split; cbn; [congruence..|auto].
Qed.

Lemma test_stop_shape c : exists calls requested listening, (Coordinator.test_stop c).1 =
  c <| Coordinator.stop_calls := calls |> <| Coordinator.stop_requested_ := requested |>
    <| Coordinator.listening_ := listening |>.
Proof.
  unfold Coordinator.test_stop, Coordinator.stop.
  destruct (Coordinator.stop_calls c) as [|[] more]; cbn; [exists []|exists more, true, false|exists more];
    (try exists (Coordinator.stop_requested_ c), (Coordinator.listening_ c)); by destruct c.
Qed.

Lemma test_stop_spares s : spares s (s <| Session.coordinator := (Coordinator.test_stop (Session.coordinator s)).1 |>).
Proof.
  destruct (test_stop_shape (Session.coordinator s)) as (calls & requested & listening & E). rewrite E. by split.
Qed.

(** A frame among those the bytes of a stream consist of. *)
Inductive sent_in (max_payload : Z) (is_broken : bool) : list Z -> Frame.t -> Prop :=
| sent_first bytes f : next_frame max_payload bytes is_broken = Val f -> sent_in max_payload is_broken bytes f
| sent_later bytes f f' : next_frame max_payload bytes is_broken = Val f ->
    sent_in max_payload is_broken (drop (frame_length (Frame.header f)) bytes) f' ->
    sent_in max_payload is_broken bytes f'.

Definition stream_sends (max_payload : Z) (stream : TcpStream.t) (f : Frame.t) : Prop :=
  sent_in max_payload (broken (TcpStream.arrivals stream)) (incoming (TcpStream.arrivals stream)) f.

Section sessions.
Context (message : Z -> list Z).

Lemma handle_frame_reaches f s s' turn :
  Session.handle_frame message f s = (s', turn) ->
  alike s s' /\
  reaches (fun op => identified (Session.coordinator s) (Session.outcome s) f /\ carried (Session.coordinator s) f op)
    (session_governor s) (session_governor s').
Proof.
  set (p := fun op => identified _ _ f /\ _). unfold Session.handle_frame. cbv zeta. set (s0 := Session.note _ s).
  assert (H0 : spares s s0) by (by apply note_spares).
  assert (Hs : forall s', spares s0 s' -> alike s s' /\ reaches p (session_governor s) (session_governor s')).
  { intros s1 H1. assert (H2 : spares s s1) by (by etrans). destruct H2 as [Ha Eh]. split; [done|].
    unfold session_governor, Coordinator.governor. unfold host_of in Eh. by rewrite Eh. }
  assert (Hr : forall t reason detail, Session.refuse t reason detail s0 = (s', turn) ->
    alike s s' /\ reaches p (session_governor s) (session_governor s')).
  { intros t reason detail [= <- <-]. apply Hs. auto with efg. }
  change (BootIdentity.epoch (Coordinator.boot_ (Session.coordinator s0)))
    with (BootIdentity.epoch (Coordinator.boot_ (Session.coordinator s))).
  change (SessionOutcome.worker (Session.outcome s0)) with (SessionOutcome.worker (Session.outcome s)).
  change (SessionOutcome.boot (Session.outcome s0)) with (SessionOutcome.boot (Session.outcome s)).
  destruct (Z.eqb_spec (FrameHeader.epoch (Frame.header f)) (BootIdentity.epoch (Coordinator.boot_ (Session.coordinator s)))) as [He|];
    [|by apply Hr].
  destruct (Z.eqb_spec (FrameHeader.worker (Frame.header f)) (SessionOutcome.worker (Session.outcome s))) as [Hw|]; [|by apply Hr].
  destruct (Z.eqb_spec (FrameHeader.boot (Frame.header f)) (SessionOutcome.boot (Session.outcome s))) as [Hb|]; [|by apply Hr].
  assert (Hid : identified (Session.coordinator s) (Session.outcome s) f) by done. cbn [negb].
  assert (Hkeep : forall s1, alike s0 s1 -> reaches p (session_governor s0) (session_governor s1) ->
    forall s2, spares s1 s2 -> alike s s2 /\ reaches p (session_governor s) (session_governor s2)).
  { intros s1 Ha1 Hr1 s2 [Ha2 Eh2]. destruct (Hs s0) as [Ha Hr0]; [done|].
    split; [etrans; [exact Ha|]; by etrans|]. etrans; [exact Hr0|].
    unfold session_governor, Coordinator.governor in *. unfold host_of in Eh2. by rewrite Eh2. }
  destruct (FrameHeader.type (Frame.header f)) eqn:Et; try (by apply Hr);
    try (intros [= <- <-]; apply Hs; by split).
  - unfold Session.on_heartbeat. destruct (snd _) as [tick|c]; [|by apply Hr].
    intros [= <- <-]. apply Hs. auto with efg.
  - unfold Session.on_batch, Session.apply_evidence_batch. cbv zeta.
    destruct (snd _) as [samples|c] eqn:Ed.
    + set (now := Coordinator.last_tick_ _).
      destruct (submit_samples_reach p now samples s0) as [Ha Hr1].
      { intros x Hx. split; [done|]. cbn [carried]. split; [done|]. by exists samples. }
      set (s1 := foldl _ s0 samples) in *. clearbody s1.
      pose proof (reply_spares FrameType.EvidenceAck (SessionOutcome.worker (Session.outcome s1)) (Session.ack_payload s1) s1) as H2.
      destruct (Session.reply _ _ _ s1) as [s2 [u|c]]; cbn [fst] in H2; intros [= <- <-]; by apply (Hkeep s1).
    + set (reason := if bool_decide _ then _ else _). clearbody reason.
      pose proof (reply_spares FrameType.Fence (SessionOutcome.worker (Session.outcome s0))
        (append_fence reason (Session.next_message message s0) (ByteWriter.make 256)) s0) as H2.
      destruct (Session.reply _ _ _ s0) as [s2 r]. cbn [fst] in H2. intros [= <- <-]. apply Hs.
      etrans; [exact H2|]. apply then_spares. intros s3. by apply note_spares.
  - unfold Session.on_completion. destruct (Session.apply_completion _ _ s0) as [s1 [u|c]] eqn:Ea;
      (apply (completion_reaches p) in Ea as [Ha Hr1];
       [|intros flow generation stated at_ E Hle; split; [done|]; cbn [carried]; split; [done|]; by exists stated]).
    + intros [= <- <-]. by apply (Hkeep s1).
    + intros [= <- <-]. apply (Hkeep s1); auto with efg.
Qed.

(** One turn: the stream ends or breaks off, or a frame is handled. *)
Lemma stream_turn_cases s s' turn :
  Session.stream_turn message s = (s', turn) ->
  exists stream', enlisted s (s <| Session.stream := stream' |>) /\
  broken (TcpStream.arrivals stream') = broken (TcpStream.arrivals (Session.stream s)) /\
  (responsive (Session.stream s) -> responsive stream') /\
  ((turn <> Session.Again /\ spares (s <| Session.stream := stream' |>) s') \/
   exists f, next_frame (Coordinator.max_payload (Session.coordinator s)) (incoming (TcpStream.arrivals (Session.stream s)))
       (broken (TcpStream.arrivals (Session.stream s))) = Val f /\
     (frame_length (Frame.header f) <= length (incoming (TcpStream.arrivals (Session.stream s))))%nat /\
     incoming (TcpStream.arrivals stream') = drop (frame_length (Frame.header f)) (incoming (TcpStream.arrivals (Session.stream s))) /\
     Session.handle_frame message f (s <| Session.stream := stream' |>) = (s', turn)).
Proof.
  unfold Session.stream_turn.
  destruct (read_frame_next (Coordinator.max_payload (Session.coordinator s)) (Session.stream s)) as (l & E & [Hb _] & _ & Hf).
  pose proof (read_frame_responsive (Coordinator.max_payload (Session.coordinator s)) (Session.stream s)) as Hr.
  rewrite E in *. cbn [fst] in Hr. set (stream' := block_if _ _) in *. intros Es. exists stream'.
  assert (Ha : TcpStream.arrivals stream' = l) by (unfold stream'; by destruct (_ && _)). rewrite Ha. clearbody stream'.
  split; [eexists; reflexivity|]. split; [exact Hb|]. split; [exact Hr|].
  destruct (Session.blocked _); [left; by injection Es as <- <-|]. destruct (next_frame _ _ _) as [f|c] eqn:En.
  - right. exists f. destruct (Hf f eq_refl) as [Hl Hi]. by repeat split.
  - left. destruct c; injection Es as <- <-; (split; [done|]); auto with efg; done.
Qed.

Lemma stream_loop_reaches fuel : forall s s' r,
  Session.stream_loop message fuel s = (s', r) ->
  enlisted s s' /\
  reaches (fun op => exists f, stream_sends (Coordinator.max_payload (Session.coordinator s)) (Session.stream s) f /\
      identified (Session.coordinator s) (Session.outcome s) f /\ carried (Session.coordinator s) f op)
    (session_governor s) (session_governor s').
Proof.
  induction fuel as [|fuel IH]; intros s s' r E; cbn [Session.stream_loop] in E; [by injection E as <- <-|].
  pose proof (test_stop_spares s) as H0.
  destruct (Coordinator.test_stop (Session.coordinator s)) as [c0 stopping]. cbn [fst] in H0.
  set (s0 := s <| Session.coordinator := c0 |>) in *. clearbody s0. clear c0.
  assert (Hdone : forall s1 s', enlisted s0 s1 -> host_of s1 = host_of s0 -> spares s1 s' ->
    enlisted s s' /\ session_governor s' = session_governor s).
  { intros s1 s2 He Eh [Ha Eh2]. destruct H0 as [Ha0 Eh0]. split.
    - etrans; [by apply alike_enlisted|]. etrans; [exact He|]. by apply alike_enlisted.
    - unfold session_governor, Coordinator.governor. unfold host_of in *. by rewrite Eh2, Eh, Eh0. }
  set (leave := fun s => Session.note (fun o => o <| SessionOutcome.clean_bye := Session.clean_bye s |>) s).
  assert (Hleave : forall s1, spares s1 (leave s1)) by (intros s1; by apply note_spares).
  destruct stopping.
  { injection E as <- <-. destruct (Hdone s0 (leave s0)) as [He Eg]; [done|done|apply Hleave|].
    split; [exact He|]. change (Session.note _ s0) with (leave s0). by rewrite Eg. }
  destruct (Session.stream_turn message s0) as [s1 turn] eqn:Et.
  destruct (stream_turn_cases s0 s1 turn Et) as (stream' & He & Hb & _ & [[Hn Hsp]|(f & En & Hlen & Hi & Ef)]).
  - assert (Hgo : exists s2, s' = s2 /\ spares s1 s2).
    { destruct (Session.blocked s1); [injection E as <- <-; by eexists|].
      destruct turn as [| |st]; [done|injection E as <- <-; exists (leave s1); split; [done|apply Hleave]|injection E as <- <-; by eexists]. }
    destruct Hgo as (s2 & -> & H2).
    destruct (Hdone (s0 <| Session.stream := stream' |>) s2) as [He2 Eg]; [done|done|by etrans|].
    split; [exact He2|]. by rewrite Eg.
  - apply handle_frame_reaches in Ef as [Ha Hr].
    set (p := fun op => exists f, _).
    destruct H0 as [Ha0 Eh0].
    assert (Eg0 : session_governor s0 = session_governor s)
      by (unfold session_governor, Coordinator.governor; unfold host_of in Eh0; by rewrite Eh0).
    assert (Hsame : forall f op, identified (Session.coordinator s0) (Session.outcome s0) f /\ carried (Session.coordinator s0) f op ->
      identified (Session.coordinator s) (Session.outcome s) f /\ carried (Session.coordinator s) f op).
    { intros f' op. unfold identified, carried, Coordinator.limits. destruct Ha0. by rewrite al_boot0, al_worker0, al_oboot0, al_config0. }
    assert (Emax : Coordinator.max_payload (Session.coordinator s0) = Coordinator.max_payload (Session.coordinator s)).
    { unfold Coordinator.max_payload, Coordinator.limits. by rewrite (al_config _ _ Ha0). }
    rewrite Emax, (al_arrivals _ _ Ha0) in En. rewrite (al_arrivals _ _ Ha0) in Hi, Hb.
    assert (He1 : enlisted s s1).
    { etrans; [by apply alike_enlisted|]. etrans; [exact He|]. by apply alike_enlisted. }
    assert (Hr1 : reaches p (session_governor s) (session_governor s1)).
    { rewrite <- Eg0. eapply reaches_mono; [|exact Hr]. intros op Hop. exists f. split; [by apply sent_first|]. by apply Hsame. }
    assert (Hgo : enlisted s1 s' /\ reaches p (session_governor s1) (session_governor s')).
    { destruct (Session.blocked s1); [by injection E as <- <-|]. destruct turn as [| |st].
      - apply IH in E as [He2 Hr2]. split; [done|]. eapply reaches_mono; [|exact Hr2].
        intros op (f' & Hsent & Hid). destruct He1 as [st1 He1]. exists f'. split.
        + apply (sent_later _ _ _ f); [done|]. rewrite <- Hi, <- Hb.
          unfold stream_sends in Hsent. rewrite (al_arrivals _ _ Ha) in Hsent.
          assert (Em1 : Coordinator.max_payload (Session.coordinator s1) = Coordinator.max_payload (Session.coordinator s)).
          { unfold Coordinator.max_payload, Coordinator.limits. by rewrite (al_config _ _ He1). }
          rewrite Em1 in Hsent. exact Hsent.
        + unfold identified, carried, Coordinator.limits in *. destruct He1. cbn in *. by rewrite al_boot0, al_worker0, al_oboot0, al_config0 in Hid.
      - injection E as <- <-. destruct (Hleave s1) as [Ha1 _]. split; [by apply alike_enlisted|].
        by change (session_governor (Session.note _ s1)) with (session_governor s1).
      - injection E as <- <-. done. }
    destruct Hgo as [He2 Hr2]. split; [by etrans|by etrans].
Qed.

(** ** Sessions end *)

(** The loop returns, or the session is blocked, which only a stream that is not responsive
    makes it. *)
Lemma stream_loop_ends fuel : forall s s' r,
  (length (incoming (TcpStream.arrivals (Session.stream s))) < fuel)%nat ->
  Session.stream_loop message fuel s = (s', r) ->
  (r = None -> Session.blocked s' = true) /\ (responsive (Session.stream s) -> r <> None).
Proof.
  induction fuel as [|fuel IH]; intros s s' r Hf E; [lia|]. cbn [Session.stream_loop] in E.
  pose proof (test_stop_spares s) as [H0 _].
  destruct (Coordinator.test_stop (Session.coordinator s)) as [c0 []]; cbn [fst] in H0; [by injection E as <- <-|].
  set (s0 := s <| Session.coordinator := c0 |>) in *. clearbody s0.
  destruct (Session.stream_turn message s0) as [s1 turn] eqn:Et.
  destruct (stream_turn_cases s0 s1 turn Et) as (stream' & _ & _ & Hr & Hcase).
  assert (Hres : responsive (Session.stream s) -> responsive (Session.stream s1)).
  { intros H. apply (al_responsive _ _ H0), Hr in H.
    destruct Hcase as [[_ [Ha _]]|(f & _ & _ & _ & [Ha _]%handle_frame_reaches)]; apply (al_responsive _ _ Ha), H. }
  destruct (Session.blocked s1) eqn:Hbl.
  { injection E as <- <-. split; [done|]. intros [Hb _]%Hres. unfold Session.blocked in Hbl. congruence. }
  destruct turn; [|by injection E as <- <-..].
  destruct Hcase as [[[] _]|(f & _ & Hlen & Hi & [Ha _]%handle_frame_reaches)]; [done|].
  apply IH in E as [E1 E2]; [by split; [|intros H%Hres; apply E2]|].
  rewrite (al_arrivals _ _ Ha). cbn [Session.stream update eta Session.eta_t].
  rewrite (al_arrivals _ _ H0) in Hi, Hlen. change (TcpStream.arrivals (Session.stream (s0 <| Session.stream := stream' |>)))
    with (TcpStream.arrivals stream'). rewrite Hi, length_drop. unfold frame_length in *. lia.
Qed.

Lemma reply_coordinator type worker payload s :
  Session.coordinator (Session.reply type worker payload s).1 =
  Session.coordinator s <| Coordinator.session_sequence_ ::= inc64 |>.
Proof. unfold Session.reply, on. cbv zeta. by destruct (write_frame _ _ _). Qed.

Lemma fence_coordinator reason detail s :
  Session.coordinator (Session.fence_session reason detail s) =
  Session.coordinator s <| Coordinator.session_sequence_ ::= inc64 |>.
Proof.
  unfold Session.fence_session. cbv zeta. set (s1 := Session.note _ s).
  pose proof (reply_coordinator FrameType.Fence (SessionOutcome.worker (Session.outcome s1))
    (append_fence reason detail (ByteWriter.make 256)) s1) as H. destruct (Session.reply _ _ _ s1) as [s2 r].
  unfold Session.then_. by destruct (Session.blocked s2).
Qed.

(** ** Registration *)

(** What admits a hello: the identifier, the boot and the nonce it is admitted with. *)
Variant admitted (hello : Frame.t) (c : Coordinator.t) : Coordinator.t -> WorkerId -> BootId -> Z -> list Z -> Prop :=
| admitted_intro requested boot epoch nonce label c' assigned :
    snd (Session.read_hello (ByteReader.make (Frame.payload hello))) = Val (requested, boot, epoch, nonce, label) ->
    FrameHeader.epoch (Frame.header hello) = epoch -> FrameHeader.boot (Frame.header hello) = boot ->
    epoch = BootIdentity.epoch (Coordinator.boot_ c) -> nonce ∉ Coordinator.seen_nonces_ c ->
    Session.assign_worker requested c = inr (c', assigned) ->
    admitted hello c c' assigned boot nonce label.

Definition enrolled (assigned : WorkerId) (boot : BootId) (nonce : Z) (label : list Z) (c' : Coordinator.t) (s : Session.t) : Session.t :=
  Session.on_coordinator (Session.consume_nonce nonce)
    (Session.enroll assigned boot (BootIdentity.epoch (Coordinator.boot_ c')) label (s <| Session.coordinator := c' |>)).

Lemma assign_boot requested c c' assigned :
  Session.assign_worker requested c = inr (c', assigned) ->
  exists next, c' = c <| Coordinator.next_worker_id_ := next |> /\
  (Coordinator.next_worker_id_ c <= ClusterLimits.max_workers (Coordinator.limits c) -> 0 <= requested ->
   ClusterLimits.max_workers (Coordinator.limits c) <= kMaxWorkers -> 0 <= Coordinator.next_worker_id_ c ->
   1 <= assigned <= next /\ Coordinator.next_worker_id_ c <= next <= ClusterLimits.max_workers (Coordinator.limits c)).
Proof.
  unfold Session.assign_worker, id_valid. cbv zeta. intros E.
  set (next := Coordinator.next_worker_id_ c) in *. set (m := ClusterLimits.max_workers _) in *.
  destruct (Z.eqb_spec requested 0) as [Hz|Hz]; cbn [negb] in E.
  - destruct (next >=? m) eqn:En; [done|]. injection E as <- <-. eexists. split; [done|]. intros H1 _ H2 H3.
    change kMaxWorkers with 1024 in H2. rewrite wrap_small by ulia. lia.
  - destruct (requested >? m) eqn:Em; [done|]. destruct (requested >? next) eqn:Er; injection E as <- <-.
    + eexists. split; [done|]. lia.
    + exists next. split; [by destruct c|]. lia.
Qed.

(** Enrolling does not look at the outcome. *)
Lemma enroll_outcome assigned boot epoch label s o :
  Session.enroll assigned boot epoch label (s <| Session.outcome := o |>) =
  Session.enroll assigned boot epoch label s <| Session.outcome := o |>.
Proof.
  destruct s as [c st o' rec bye]. unfold Session.enroll.
  change (Session.coordinator (Session.mk c st o' rec bye <| Session.outcome := o |>)) with c.
  change (Session.coordinator (Session.mk c st o' rec bye)) with c.
  by destruct (Coordinator.find_worker assigned c).
Qed.

Lemma handle_hello_cases hello s s' r :
  Session.handle_hello hello s = (s', r) ->
  (r = Val true /\ Session.record s' = Session.record s /\
   (responsive (Session.stream s) -> responsive (Session.stream s')) /\
   Session.coordinator s' = Session.coordinator s <| Coordinator.session_sequence_ ::= inc64 |>) \/
  exists c' assigned boot nonce label o,
    admitted hello (Session.coordinator s) c' assigned boot nonce label /\ r <> Val true /\
    SessionOutcome.worker o = assigned /\ SessionOutcome.boot o = boot /\
    spares (enrolled assigned boot nonce label c' s <| Session.outcome := o |>) s'.
Proof.
  unfold Session.handle_hello. cbv zeta.
  assert (Hf : forall reason detail s1, Session.coordinator s1 = Session.coordinator s -> Session.record s1 = Session.record s ->
    Session.stream s1 = Session.stream s -> (Session.fence_session reason detail s1, Val true) = (s', r) ->
    r = Val true /\ Session.record s' = Session.record s /\ (responsive (Session.stream s) -> responsive (Session.stream s')) /\
    Session.coordinator s' = Session.coordinator s <| Coordinator.session_sequence_ ::= inc64 |>).
  { intros reason detail s1 Ec Er Est [= <- <-]. split; [done|]. rewrite fence_coordinator, Ec. rewrite <- Er, <- Est.
    by destruct (fence_spares reason detail s1) as [[] _]. }
  destruct (snd (Session.read_hello _)) as [[[[[requested boot] epoch] nonce] label]|c] eqn:Eh; [|intros E; left; eapply Hf; [| | |exact E]; done].
  destruct (Z.eqb_spec (FrameHeader.epoch (Frame.header hello)) epoch) as [He|]; [|intros E; left; eapply Hf; [| | |exact E]; done].
  destruct (Z.eqb_spec (FrameHeader.boot (Frame.header hello)) boot) as [Hb|]; [|intros E; left; eapply Hf; [| | |exact E]; done].
  cbn [negb orb]. set (s1 := Session.note _ s).
  assert (E1 : Session.coordinator s1 = Session.coordinator s) by done.
  assert (R1 : Session.record s1 = Session.record s) by done. rewrite E1.
  set (own := BootIdentity.epoch _). destruct (Z.ltb_spec epoch own) as [|H1]; [intros E; left; by eapply Hf|].
  destruct (epoch >? own) eqn:H2; [intros E; left; by eapply Hf|].
  assert (Hown : epoch = own) by lia. case_bool_decide as Hn; [intros E; left; by eapply Hf|].
  destruct (Session.assign_worker requested (Session.coordinator s)) as [detail|[c' assigned]] eqn:Ea;
    [intros E; left; by eapply Hf|].
  intros E. right. exists c', assigned, boot, nonce, label.
  set (s2 := Session.note _ _) in E.
  exists (Session.outcome s2).
  pose proof (reply_spares FrameType.Welcome assigned (Session.welcome_payload assigned (Session.coordinator s2)) s2) as Hr.
  unfold mbind, M_bind in E. destruct (Session.reply _ _ _ s2) as [s3 x]. cbn [fst] in Hr.
  assert (E3 : s3 = s' /\ r <> Val true)
    by (destruct x; unfold mret, M_ret in E; injection E as <- <-; (split; [done|discriminate])).
  destruct E3 as [-> Hr']. destruct (assign_boot _ _ _ _ Ea) as (next & Ec' & _).
  assert (Hshape : s2 = enrolled assigned boot nonce label c' s <| Session.outcome := Session.outcome s2 |>).
  { assert (Hep : BootIdentity.epoch (Coordinator.boot_ c') = epoch) by (rewrite Ec'; symmetry; exact Hown).
    unfold s2, enrolled. rewrite Hep.
    change (s1 <| Session.coordinator := c' |>) with
      (s <| Session.coordinator := c' |> <| Session.outcome := Session.outcome s1 |>).
    rewrite enroll_outcome. by destruct (Session.enroll assigned boot epoch label (s <| Session.coordinator := c' |>)). }
  split; [by econstructor|]. split; [done|]. split; [done|]. split.
  - unfold s2. change (s1 <| Session.coordinator := c' |>) with
      (s <| Session.coordinator := c' |> <| Session.outcome := Session.outcome s1 |>). by rewrite enroll_outcome.
  - by rewrite <- Hshape.
Qed.

(** ** A whole session *)

(** The books of the coordinator: everything but ticks, sequence numbers and the governor. *)
Record books_kept (c c' : Coordinator.t) : Prop := {
  bk_config : Coordinator.config_ c' = Coordinator.config_ c;
  bk_boot : Coordinator.boot_ c' = Coordinator.boot_ c;
  bk_sessions : Coordinator.sessions_ c' = Coordinator.sessions_ c;
  bk_workers : WorkerRecord.worker <$> Coordinator.workers_ c' = WorkerRecord.worker <$> Coordinator.workers_ c;
  bk_nonces : Coordinator.seen_nonces_ c' = Coordinator.seen_nonces_ c;
  bk_next : Coordinator.next_worker_id_ c' = Coordinator.next_worker_id_ c }.

#[local] Instance books_preorder : PreOrder books_kept.
Proof.
  split.
  - by intros c.
  - intros c1 c2 c3 [] []. split; congruence.
Qed.

Lemma enlisted_books s s' : enlisted s s' -> books_kept (Session.coordinator s) (Session.coordinator s').
Proof. intros [st []]. cbn in *. split; congruence. Qed.

Lemma sequence_books c : books_kept c (c <| Coordinator.session_sequence_ ::= inc64 |>).
Proof. by split. Qed.

Lemma alter_workers f (i : nat) (l : list WorkerRecord.t) : (forall r, WorkerRecord.worker (f r) = WorkerRecord.worker r) ->
  WorkerRecord.worker <$> alter f i l = WorkerRecord.worker <$> l.
Proof.
  intros Hf. revert i. induction l as [|r l IH]; intros [|i]; [done|done|..].
  - change (WorkerRecord.worker (f r) :: (WorkerRecord.worker <$> l) = WorkerRecord.worker <$> r :: l). by rewrite Hf.
  - change (WorkerRecord.worker r :: (WorkerRecord.worker <$> alter f i l) = WorkerRecord.worker <$> r :: l). by rewrite IH.
Qed.

Lemma on_record_books f s : (forall r, WorkerRecord.worker (f r) = WorkerRecord.worker r) ->
  books_kept (Session.coordinator s) (Session.coordinator (Session.on_record f s)) /\
  host_of (Session.on_record f s) = host_of s /\ Session.outcome (Session.on_record f s) = Session.outcome s.
Proof.
  intros Hf. unfold Session.on_record. destruct (Session.record s) as [i|]; [|done].
  split; [split; try done; by apply alter_workers|done].
Qed.

(** How a session that was served stands to the coordinator it started with. *)
Variant served (c : Coordinator.t) (stream : TcpStream.t) (s : Session.t) : Prop :=
| served_refused : books_kept c (Session.coordinator s) -> host_of s = Coordinator.host_ c -> served c stream s
| served_admitted hello c' assigned boot nonce label :
    stream_sends (Coordinator.max_payload c) stream hello -> admitted hello c c' assigned boot nonce label ->
    SessionOutcome.worker (Session.outcome s) = assigned -> SessionOutcome.boot (Session.outcome s) = boot ->
    books_kept (Session.coordinator (enrolled assigned boot nonce label c' (Session.make c stream))) (Session.coordinator s) ->
    reaches (fun op => exists f, stream_sends (Coordinator.max_payload c) stream f /\
        identified c (Session.outcome s) f /\ carried c f op)
      (Coordinator.governor c) (session_governor s) ->
    served c stream s.

Lemma enroll_host assigned boot epoch label s :
  host_of (Session.enroll assigned boot epoch label s) = host_of s /\
  Coordinator.config_ (Session.coordinator (Session.enroll assigned boot epoch label s)) = Coordinator.config_ (Session.coordinator s) /\
  Coordinator.boot_ (Session.coordinator (Session.enroll assigned boot epoch label s)) = Coordinator.boot_ (Session.coordinator s) /\
  Coordinator.sessions_ (Session.coordinator (Session.enroll assigned boot epoch label s)) = Coordinator.sessions_ (Session.coordinator s) /\
  Session.stream (Session.enroll assigned boot epoch label s) = Session.stream s.
Proof.
  unfold Session.enroll. cbv zeta. unfold Session.on_record.
  destruct (Coordinator.find_worker assigned (Session.coordinator s)); by repeat split.
Qed.

(** The nonces remembered once [nonce] is consumed. *)
Definition remembered (nonce : Z) (c : Coordinator.t) : list Z :=
  (if size_of (Coordinator.seen_nonces_ c) >=? kMaxNonceHistory then tail (Coordinator.seen_nonces_ c)
   else Coordinator.seen_nonces_ c) ++ [nonce].

Lemma consume_shape nonce c :
  Session.consume_nonce nonce c = c <| Coordinator.seen_nonces_ := remembered nonce c |>.
Proof. unfold Session.consume_nonce, remembered. by destruct (_ >=? _). Qed.

Lemma enrolled_facts assigned boot nonce label c' s :
  let e := enrolled assigned boot nonce label c' s in
  host_of e = Coordinator.host_ c' /\ Coordinator.config_ (Session.coordinator e) = Coordinator.config_ c' /\
  Coordinator.boot_ (Session.coordinator e) = Coordinator.boot_ c' /\
  Coordinator.sessions_ (Session.coordinator e) = Coordinator.sessions_ c' /\ Session.stream e = Session.stream s /\
  forall s0, Session.coordinator (enrolled assigned boot nonce label c' s0) = Session.coordinator e.
Proof.
  cbv zeta. unfold enrolled. set (epoch := BootIdentity.epoch _).
  destruct (enroll_host assigned boot epoch label (s <| Session.coordinator := c' |>)) as (Eh & Ec & Eb & Es & Est).
  set (e := Session.enroll assigned boot epoch label (s <| Session.coordinator := c' |>)) in *.
  assert (Hc : forall s0, Session.coordinator (Session.enroll assigned boot epoch label (s0 <| Session.coordinator := c' |>)) =
    Session.coordinator e).
  { intros s0. unfold e, Session.enroll. cbv zeta.
    change (Session.coordinator (s0 <| Session.coordinator := c' |>)) with c'.
    change (Session.coordinator (s <| Session.coordinator := c' |>)) with c'.
    by destruct (Coordinator.find_worker assigned c'). }
  clearbody e. set (e' := Session.on_coordinator (Session.consume_nonce nonce) e).
  assert (Ee : Session.coordinator e' = Session.coordinator e <| Coordinator.seen_nonces_ := remembered nonce (Session.coordinator e) |>)
    by apply consume_shape.
  unfold host_of in *. rewrite Ee. split; [exact Eh|]. split; [exact Ec|]. split; [exact Eb|]. split; [exact Es|].
  split; [exact Est|]. intros s0. rewrite <- Ee. unfold e'.
  change (Session.consume_nonce nonce (Session.coordinator (Session.enroll assigned boot epoch label (s0 <| Session.coordinator := c' |>))) =
    Session.consume_nonce nonce (Session.coordinator e)). by rewrite Hc.
Qed.

(** A session is finished as [s], or does not return from [s] since it is blocked, which only a
    stream that is not responsive makes it. *)
Definition concludes (stream : TcpStream.t) (s : Session.t) (result : Session.t * option Status) : Prop :=
  (result = (Session.finish s, Some (Val tt)) \/ result = (s, None) /\ Session.blocked s = true) /\
  (responsive stream -> result.2 <> None).

Lemma ending_concludes stream s :
  (responsive stream -> responsive (Session.stream s)) -> concludes stream s (Session.ending s).
Proof.
  intros Hr. unfold concludes, Session.ending. destruct (Session.blocked s) eqn:Hb; [|by split; [left|]].
  split; [by right|]. intros [H _]%Hr. unfold Session.blocked in Hb. congruence.
Qed.

Lemma concludes_from stream stream1 s result :
  (responsive stream -> responsive stream1) -> concludes stream1 s result -> concludes stream s result.
Proof. intros Hr [H Hn]. split; [done|auto]. Qed.

Lemma marked_spares mark s : (forall r, WorkerRecord.worker (mark r) = WorkerRecord.worker r) ->
  let s' := Session.then_ (Session.on_record mark) s in
  books_kept (Session.coordinator s) (Session.coordinator s') /\ host_of s' = host_of s /\
  Session.outcome s' = Session.outcome s /\ Session.stream s' = Session.stream s.
Proof.
  intros Hm. cbv zeta. unfold Session.then_. destruct (Session.blocked s); [done|].
  destruct (on_record_books mark s Hm) as (Hb & Eh & Eo). split_and!; [done..|].
  unfold Session.on_record. by destruct (Session.record s).
Qed.

(** What a frame says is the same for coordinators of one configuration and incarnation. *)
Lemma same_frames c c' o o' f op :
  Coordinator.config_ c = Coordinator.config_ c' -> Coordinator.boot_ c = Coordinator.boot_ c' ->
  SessionOutcome.worker o = SessionOutcome.worker o' -> SessionOutcome.boot o = SessionOutcome.boot o' ->
  identified c o f -> carried c f op -> identified c' o' f /\ carried c' f op.
Proof. intros Ec Eb Ew Eo. unfold identified, carried, Coordinator.limits. by rewrite Ec, Eb, Ew, Eo. Qed.

(** A registered session from its hello on. *)
Lemma streams_to_end s :
  exists s', concludes (Session.stream s) s'
    (let '(s, r) := Session.handle_stream message s in
     match r with
     | None => (s, None)
     | Some _ => (Session.finish (Session.close_record s <| Session.stream ::= TcpStream.shutdown_send |>), Some (Val tt))
     end) /\
  books_kept (Session.coordinator s) (Session.coordinator s') /\
  SessionOutcome.worker (Session.outcome s') = SessionOutcome.worker (Session.outcome s) /\
  SessionOutcome.boot (Session.outcome s') = SessionOutcome.boot (Session.outcome s) /\
  reaches (fun op => exists f, stream_sends (Coordinator.max_payload (Session.coordinator s)) (Session.stream s) f /\
      identified (Session.coordinator s) (Session.outcome s) f /\ carried (Session.coordinator s) f op)
    (session_governor s) (session_governor s').
Proof.
  unfold Session.handle_stream. set (n := length (incoming (TcpStream.arrivals (Session.stream s)))).
  destruct (Session.stream_loop message (S n) s) as [s1 r] eqn:E.
  destruct (stream_loop_ends (S n) s s1 r ltac:(lia) E) as [Hbl Hnb].
  apply stream_loop_reaches in E as [He Hr].
  set (s2 := match r with None => s1 | Some _ => Session.close_record s1 <| Session.stream ::= TcpStream.shutdown_send |> end).
  assert (Hcl : books_kept (Session.coordinator s1) (Session.coordinator s2) /\ host_of s2 = host_of s1 /\
    Session.outcome s2 = Session.outcome s1).
  { unfold s2. destruct r; [|done]. apply on_record_books. intros r0. by destruct (SessionOutcome.fenced (Session.outcome s1)). }
  exists s2. split; [destruct r; [by split; [left|]|split; [right; auto|intros H0; by destruct (Hnb H0)]]|].
  destruct Hcl as (Hb & Eh & Eo). clearbody s2. split; [etrans; [by apply enlisted_books|done]|].
  destruct He as [st Ha]. rewrite Eo. split; [exact (al_worker _ _ Ha)|]. split; [exact (al_oboot _ _ Ha)|].
  unfold session_governor, Coordinator.governor in *. unfold host_of in Eh. by rewrite Eh.
Qed.

(** A session behind a hello that was admitted, whatever became of the welcome. *)
Lemma admitted_served c stream hello c' assigned boot nonce label s1 s2 s' o :
  stream_sends (Coordinator.max_payload c) stream hello -> admitted hello c c' assigned boot nonce label ->
  spares (enrolled assigned boot nonce label c' s1 <| Session.outcome := o |>) s2 ->
  SessionOutcome.worker o = assigned -> SessionOutcome.boot o = boot ->
  (forall f, stream_sends (Coordinator.max_payload c) (Session.stream s1) f -> stream_sends (Coordinator.max_payload c) stream f) ->
  books_kept (Session.coordinator s2) (Session.coordinator s') ->
  SessionOutcome.worker (Session.outcome s') = SessionOutcome.worker (Session.outcome s2) ->
  SessionOutcome.boot (Session.outcome s') = SessionOutcome.boot (Session.outcome s2) ->
  reaches (fun op => exists f, stream_sends (Coordinator.max_payload (Session.coordinator s2)) (Session.stream s2) f /\
      identified (Session.coordinator s2) (Session.outcome s2) f /\ carried (Session.coordinator s2) f op)
    (session_governor s2) (session_governor s') ->
  served c stream s'.
Proof.
  intros Hsent Had [Ha Eh] Hw Hb Hlater Hbk Ew Eb Hr.
  destruct (enrolled_facts assigned boot nonce label c' s1) as (Fh & Fc & Fb & Fs & Fst & Fco).
  set (e := enrolled assigned boot nonce label c' s1) in *.
  assert (Ec' : exists next, c' = c <| Coordinator.next_worker_id_ := next |>).
  { destruct Had as [??????? _ _ _ _ _ Has]. apply assign_boot in Has as (next & -> & _). by eexists. }
  destruct Ec' as [next ->].
  assert (Hbooks : books_kept (Session.coordinator e) (Session.coordinator s2)) by (destruct Ha; split; cbn in *; congruence).
  assert (Ec2 : Coordinator.config_ (Session.coordinator s2) = Coordinator.config_ c) by (by rewrite (bk_config _ _ Hbooks), Fc).
  assert (Eb2 : Coordinator.boot_ (Session.coordinator s2) = Coordinator.boot_ c) by (by rewrite (bk_boot _ _ Hbooks), Fb).
  pose proof (al_worker _ _ Ha) as Hw2. pose proof (al_oboot _ _ Ha) as Hb2. pose proof (al_arrivals _ _ Ha) as Har. cbn in Hw2, Hb2.
  eapply served_admitted; [exact Hsent|exact Had|congruence|congruence|rewrite Fco; by etrans|].
  assert (Hhost : host_of s2 = Coordinator.host_ c) by (rewrite Eh; exact Fh).
  unfold session_governor, Coordinator.governor in *. unfold host_of in Hhost. rewrite Hhost in Hr.
  eapply reaches_mono; [|exact Hr]. intros op (f & Hf & Hid & Hca). exists f. split.
  - apply Hlater. unfold stream_sends in *. rewrite Har in Hf.
    change (Session.stream (e <| Session.outcome := o |>)) with (Session.stream e) in Hf. rewrite Fst in Hf.
    unfold Coordinator.max_payload, Coordinator.limits in *. by rewrite Ec2 in Hf.
  - by eapply same_frames.
Qed.

Lemma serve_shape stream c :
  exists s, concludes stream s (Session.serve message stream c) /\ served c stream s.
Proof.
  unfold Session.serve.
  destruct (read_frame_next (Coordinator.max_payload c) stream) as (l & E & [Hb _] & _ & Hf).
  pose proof (read_frame_responsive (Coordinator.max_payload c) stream) as Hres. rewrite E in *. cbn [fst] in Hres.
  set (stream1 := block_if _ _) in *.
  assert (Ha1 : TcpStream.arrivals stream1 = l) by (unfold stream1; by destruct (_ && _)). clearbody stream1.
  cbv zeta. destruct (next_frame _ _ _) as [hello|code] eqn:En.
  2: { eexists. split; [apply ending_concludes|apply served_refused]; unfold Session.then_; by destruct (Session.blocked _). }
  destruct (Hf hello eq_refl) as [Hlen Hi]. clear Hf E. rewrite <- Ha1 in Hi, Hb. clear l Ha1.
  set (s1 := Session.note _ _). assert (E1 : Session.coordinator s1 = c) by done. assert (Hst1 : Session.stream s1 = stream1) by done.
  clearbody s1. case_bool_decide; cbn [negb].
  2: { eexists. match goal with |- context [Session.fence_session ?r ?d _] => destruct (fence_spares r d s1) as [Ha Eh] end.
       split; [apply ending_concludes; intros H0; apply (al_responsive _ _ Ha); rewrite Hst1; auto|].
       apply served_refused; [rewrite fence_coordinator, E1; apply sequence_books|unfold host_of in *; by rewrite Eh, E1]. }
  destruct (Session.handle_hello hello s1) as [s2 r] eqn:Eh. apply handle_hello_cases in Eh.
  set (mark := fun r0 : WorkerRecord.t => _). destruct (marked_spares mark s2) as (Hbk & Eho & Eou & Est); [done|].
  set (s3 := Session.then_ (Session.on_record mark) s2) in *. clearbody s3. clear mark.
  destruct Eh as [(-> & _ & Hr2 & Ec)|(c' & assigned & boot & nonce & label & o & Had & Hr & Hw & Hbt & Hsp)].
  - exists s3. split; [apply ending_concludes; rewrite Est; rewrite Hst1 in Hr2; auto|]. apply served_refused.
    + etrans; [|exact Hbk]. rewrite Ec, E1. apply sequence_books.
    + rewrite Eho. unfold host_of. by rewrite Ec, E1.
  - rewrite E1 in Had. assert (Hsent : stream_sends (Coordinator.max_payload c) stream hello) by (by apply sent_first).
    assert (Hlater : forall f, stream_sends (Coordinator.max_payload c) (Session.stream s1) f ->
      stream_sends (Coordinator.max_payload c) stream f).
    { intros f Hf. rewrite Hst1 in Hf. apply (sent_later _ _ _ hello); [done|]. by rewrite <- Hi, <- Hb. }
    assert (Hres2 : responsive stream -> responsive (Session.stream s2)).
    { intros H0. destruct Hsp as [Ha2 _]. apply (al_responsive _ _ Ha2).
      destruct (enrolled_facts assigned boot nonce label c' s1) as (_ & _ & _ & _ & Fst & _).
      change (responsive (Session.stream (enrolled assigned boot nonce label c' s1))). rewrite Fst, Hst1. auto. }
    destruct r as [[]|code]; [done| |].
    + destruct (streams_to_end s2) as (s4 & Hc4 & Hb4 & Hw4 & Hbo4 & Hr4). exists s4.
      split; [by eapply concludes_from|by eapply admitted_served].
    + exists s3. split; [apply ending_concludes; by rewrite Est|]. eapply admitted_served; try done; try (by rewrite Eou).
      unfold session_governor, Coordinator.governor. unfold host_of in Eho. by rewrite Eho.
Qed.

(** ** The books over many sessions *)

Definition ids (c : Coordinator.t) : list WorkerId := WorkerRecord.worker <$> Coordinator.workers_ c.

Record books_ok (c : Coordinator.t) : Prop := {
  bo_limit : 1 <= ClusterLimits.max_workers (Coordinator.limits c) <= kMaxWorkers;
  bo_nonces : NoDup (Coordinator.seen_nonces_ c);
  bo_history : size_of (Coordinator.seen_nonces_ c) <= kMaxNonceHistory;
  bo_ids : NoDup (ids c);
  bo_range : Forall (fun id => 1 <= id <= Coordinator.next_worker_id_ c) (ids c);
  bo_next : 0 <= Coordinator.next_worker_id_ c <= ClusterLimits.max_workers (Coordinator.limits c) }.

Lemma books_ok_kept c c' : books_kept c c' -> books_ok c -> books_ok c'.
Proof.
  intros [] []. unfold ids, Coordinator.limits in *.
  split; unfold ids, Coordinator.limits; rewrite ?bk_config0, ?bk_workers0, ?bk_nonces0, ?bk_next0; done.
Qed.

(** As many distinct identifiers as there are numbers. *)
Lemma ids_bounded c : books_ok c ->
  size_of (Coordinator.workers_ c) <= ClusterLimits.max_workers (Coordinator.limits c).
Proof.
  intros [_ _ _ Hnd Hr [Hn Hm]]. set (next := Coordinator.next_worker_id_ c) in *.
  assert (Hsub : forall x, In x (ids c) -> In x (Z.of_nat <$> seq 1 (Z.to_nat next))).
  { intros x Hx. apply list_elem_of_In in Hx. rewrite Forall_forall in Hr. specialize (Hr x Hx).
    apply list_elem_of_In, list_elem_of_fmap. exists (Z.to_nat x). split; [lia|]. apply elem_of_seq. lia. }
  apply NoDup_ListNoDup in Hnd. pose proof (List.NoDup_incl_length Hnd Hsub) as Hl.
  unfold ids in Hl. rewrite !length_fmap, length_seq in Hl. unfold size_of. lia.
Qed.

Lemma remembered_ok nonce c : books_ok c -> nonce ∉ Coordinator.seen_nonces_ c ->
  NoDup (remembered nonce c) /\ size_of (remembered nonce c) <= kMaxNonceHistory.
Proof.
  intros Hok Hn. pose proof (bo_nonces _ Hok) as Hnd. pose proof (bo_history _ Hok) as Hh. unfold remembered.
  change kMaxNonceHistory with 4096 in *. rewrite size_of_app. change (size_of [nonce]) with 1.
  destruct (Coordinator.seen_nonces_ c) as [|x l] eqn:El; destruct (_ >=? _) eqn:Eg; rewrite Z.geb_leb in Eg.
  - done.
  - split; [apply NoDup_singleton|]. unfold size_of. simpl. lia.
  - cbn [tail]. apply NoDup_cons in Hnd as [_ Hnd]. split.
    + apply NoDup_app. split; [done|]. split; [|apply NoDup_singleton].
      intros y Hy ->%list_elem_of_singleton. apply Hn. by constructor.
    + unfold size_of in *. cbn [length] in Hh. lia.
  - apply Z.leb_gt in Eg. split; [|lia]. apply NoDup_app. split; [done|]. split; [|apply NoDup_singleton].
    by intros y Hy ->%list_elem_of_singleton.
Qed.

Lemma find_worker_none id c : Coordinator.find_worker id c = None -> id ∉ ids c.
Proof.
  unfold Coordinator.find_worker, ids. destruct (list_find _ _) as [[i r]|] eqn:E; [done|]. intros _ Hin.
  apply list_find_None in E. apply list_elem_of_fmap in Hin as (r & -> & Hr). rewrite Forall_forall in E. by apply (E r).
Qed.

Lemma enroll_ids assigned boot epoch label s :
  let c := Session.coordinator s in let c' := Session.coordinator (Session.enroll assigned boot epoch label s) in
  (ids c' = ids c \/ (ids c' = ids c ++ [assigned] /\ assigned ∉ ids c)) /\
  Coordinator.next_worker_id_ c' = Coordinator.next_worker_id_ c /\
  Coordinator.seen_nonces_ c' = Coordinator.seen_nonces_ c /\ Coordinator.config_ c' = Coordinator.config_ c.
Proof.
  cbv zeta. unfold Session.enroll. cbv zeta.
  match goal with |- context [Session.on_record ?f ?s1] => set (s2 := s1) end.
  assert (Hs2 : (ids (Session.coordinator s2) = ids (Session.coordinator s) \/
      (ids (Session.coordinator s2) = ids (Session.coordinator s) ++ [assigned] /\ assigned ∉ ids (Session.coordinator s))) /\
    Coordinator.next_worker_id_ (Session.coordinator s2) = Coordinator.next_worker_id_ (Session.coordinator s) /\
    Coordinator.seen_nonces_ (Session.coordinator s2) = Coordinator.seen_nonces_ (Session.coordinator s) /\
    Coordinator.config_ (Session.coordinator s2) = Coordinator.config_ (Session.coordinator s)).
  { unfold s2. destruct (Coordinator.find_worker assigned (Session.coordinator s)) as [i|] eqn:Ef.
    - split; [|done]. left. apply alter_workers. intros r. by destruct (negb _).
    - split; [|done]. right. split; [|by apply find_worker_none].
      unfold ids. cbn [Session.coordinator Session.on_coordinator update eta Session.eta_t Coordinator.workers_]. by rewrite fmap_app. }
  clearbody s2. match goal with |- context [Session.on_record ?f s2] => destruct (on_record_books f s2) as (Hbk & _ & _); [done|];
    set (s3 := Session.on_record f s2) in * end.
  clearbody s3. destruct Hbk. unfold ids in *. by rewrite bk_workers0, bk_next0, bk_nonces0, bk_config0.
Qed.

Lemma enrolled_ok hello c c' assigned boot nonce label s :
  Forall byte_ok (Frame.payload hello) -> books_ok c -> admitted hello c c' assigned boot nonce label ->
  books_ok (Session.coordinator (enrolled assigned boot nonce label c' s)).
Proof.
  intros Hp Hok Had. destruct Had as [requested boot epoch nonce label c' assigned Eh _ _ _ Hn Ha].
  assert (Hreq : 0 <= requested).
  { match type of Eh with snd (?m ?r) = _ => destruct (m r) as [r' x] eqn:E end. cbn [snd] in Eh. subst x.
    unfold Session.read_hello in E. assert (Hr : rest (ByteReader.make (Frame.payload hello)) = Frame.payload hello) by done.
    rewrite <- Hr in Hp. read_field E. apply M_bind_Val in E as (? & ? & _ & E). apply M_bind_Val in E as (? & ? & _ & E).
    apply M_bind_Val in E as (? & ? & _ & E). apply M_bind_Val in E as (? & ? & _ & E).
    apply pair_equal_spec in E as [_ E]. injection E as -> _ _ _ _. unfold in_range in R. lia. }
  apply assign_boot in Ha as (next & -> & Hrange).
  destruct (Hrange (proj2 (bo_next _ Hok)) Hreq (proj2 (bo_limit _ Hok)) (proj1 (bo_next _ Hok))) as [Ha Hnx].
  destruct (remembered_ok nonce c Hok Hn) as [Hr1 Hr2].
  unfold enrolled. set (ep := BootIdentity.epoch _). set (c1 := c <| Coordinator.next_worker_id_ := next |>).
  destruct (enroll_ids assigned boot ep label (s <| Session.coordinator := c1 |>)) as (Hids & En & Es & Ec).
  set (e := Session.enroll _ _ _ _ _) in *. change (Session.coordinator (s <| Session.coordinator := c1 |>)) with c1 in *. clearbody e.
  set (fin := Session.on_coordinator (Session.consume_nonce nonce) e).
  assert (Ee : Session.coordinator fin = Session.coordinator e <| Coordinator.seen_nonces_ := remembered nonce (Session.coordinator e) |>)
    by apply consume_shape.
  rewrite Ee. assert (Erem : remembered nonce (Session.coordinator e) = remembered nonce c) by (unfold remembered; by rewrite Es).
  rewrite Erem. destruct Hok as [Hl _ _ Hnd Hrg _].
  assert (Hrg' : Forall (fun id => 1 <= id <= next) (ids c)) by (eapply Forall_impl; [exact Hrg|]; intros x Hx; cbv beta in Hx |- *; lia).
  assert (Hlim : ClusterLimits.max_workers (CoordinatorConfig.limits (Coordinator.config_ (Session.coordinator e))) =
    ClusterLimits.max_workers (Coordinator.limits c)) by (by rewrite Ec).
  split; unfold Coordinator.limits in *; cbn [Coordinator.config_ Coordinator.seen_nonces_ Coordinator.next_worker_id_ update eta Coordinator.eta_t];
    change (ids (Session.coordinator e <| Coordinator.seen_nonces_ := remembered nonce c |>)) with (ids (Session.coordinator e)).
  - cbn. by rewrite Hlim.
  - exact Hr1.
  - exact Hr2.
  - destruct Hids as [->|[-> Hni]]; [done|]. apply NoDup_app. split; [done|]. split; [|apply NoDup_singleton].
    intros y Hy ->%list_elem_of_singleton. done.
  - cbn. rewrite En. cbn. destruct Hids as [->|[-> _]]; [done|]. apply Forall_app. split; [done|]. apply Forall_singleton. lia.
  - cbn. rewrite En, Hlim. cbn. lia.
Qed.
End sessions.

Section runs.
Context (message : Z -> list Z).

Definition stream_bytes_ok (a : StatusOr TcpStream.t) : Prop :=
  match a with Val s => Forall byte_ok (incoming (TcpStream.arrivals s)) | Err _ => True end.

Lemma sent_in_ok max_payload is_broken bytes f :
  sent_in max_payload is_broken bytes f -> Forall byte_ok bytes -> Forall byte_ok (Frame.payload f).
Proof.
  induction 1 as [bytes f E|bytes f f' E _ IH]; intros Hb.
  - apply next_frame_ok in E as (_ & _ & tail & ->); [|done]. apply Forall_app in Hb as [Hb _].
    unfold frame_bytes in Hb. by apply Forall_app in Hb as [_ Hb].
  - apply IH. by apply Forall_drop.
Qed.

Lemma admitted_same hello c c' assigned boot nonce label :
  admitted hello c c' assigned boot nonce label -> exists next, c' = c <| Coordinator.next_worker_id_ := next |>.
Proof. intros [??????? _ _ _ _ _ Ha]. apply assign_boot in Ha as (next & -> & _). by eexists. Qed.

(** What a session leaves of the books and of the list of sessions. *)
Lemma served_books c stream s :
  served c stream s ->
  Coordinator.sessions_ (Session.coordinator s) = Coordinator.sessions_ c /\
  Coordinator.boot_ (Session.coordinator s) = Coordinator.boot_ c /\
  Coordinator.config_ (Session.coordinator s) = Coordinator.config_ c /\
  (Forall byte_ok (incoming (TcpStream.arrivals stream)) -> books_ok c -> books_ok (Session.coordinator s)).
Proof.
  intros [Hbk _|hello c' assigned boot nonce label Hsent Had _ _ Hbk _].
  - split; [apply Hbk|]. split; [apply Hbk|]. split; [apply Hbk|]. intros _. by apply books_ok_kept.
  - destruct (admitted_same _ _ _ _ _ _ _ Had) as [next Ec].
    destruct (enrolled_facts assigned boot nonce label c' (Session.make c stream)) as (_ & Fc & Fb & Fs & _).
    destruct Hbk as [Kc Kb Ks Kw Kn Kx] eqn:E. rewrite Ks, Fs, Kb, Fb, Kc, Fc, Ec. split; [done|]. split; [done|]. split; [done|].
    intros Hb Hok. apply (books_ok_kept _ _ Hbk). eapply enrolled_ok; [|exact Hok|exact Had]. by eapply sent_in_ok.
Qed.

Lemma serve_one_outcome a c c' r :
  Run.serve_one message a c = (c', r) ->
  Coordinator.boot_ c' = Coordinator.boot_ c /\ Coordinator.config_ c' = Coordinator.config_ c /\
  (stream_bytes_ok a -> books_ok c -> books_ok c') /\
  match r with
  | None => Coordinator.sessions_ c' = Coordinator.sessions_ c /\ exists stream, a = Val stream /\ ~ responsive stream
  | Some (Val _) => exists o, Coordinator.sessions_ c' = Coordinator.sessions_ c ++ [o]
  | Some (Err _) => c' = c
  end.
Proof.
  unfold Run.serve_one. destruct (Coordinator.listening_ c); [destruct a as [stream|code]|]; [|by intros [= <- <-]..].
  destruct (serve_shape message stream c) as (s & [E Hres] & Hs).
  destruct (served_books _ _ _ Hs) as (Es & Eb & Ec & Hok).
  destruct E as [E|[E _]]; rewrite E in *; intros [= <- <-]; (split; [exact Eb|]; split; [exact Ec|]; split).
  - intros Hb Hc. destruct (Hok Hb Hc). by split.
  - exists (Session.outcome s). by rewrite <- Es.
  - exact Hok.
  - split; [exact Es|]. exists stream. split; [done|]. intros Hr. by destruct (Hres Hr).
Qed.

Lemma test_stop_books c :
  books_ok c -> books_ok (Coordinator.test_stop c).1.
Proof.
  intros H. destruct (test_stop_shape c) as (calls & requested & listening & ->). destruct H. by split.
Qed.

Lemma test_stop_keeps c :
  Coordinator.sessions_ (Coordinator.test_stop c).1 = Coordinator.sessions_ c /\
  Coordinator.boot_ (Coordinator.test_stop c).1 = Coordinator.boot_ c /\
  Coordinator.config_ (Coordinator.test_stop c).1 = Coordinator.config_ c.
Proof. by destruct (test_stop_shape c) as (calls & requested & listening & ->). Qed.

(** How far a run has come that accepted some of [accepts]. *)
Definition run_so_far (accepts : list (StatusOr TcpStream.t)) (c c' : Coordinator.t) (r : option Status) : Prop :=
  Coordinator.boot_ c' = Coordinator.boot_ c /\ Coordinator.config_ c' = Coordinator.config_ c /\
  (Forall stream_bytes_ok accepts -> books_ok c -> books_ok c') /\
  exists outcomes, Coordinator.sessions_ c' = Coordinator.sessions_ c ++ outcomes /\
  (length outcomes <= length accepts)%nat /\
  (r = None -> length outcomes = length accepts \/
     exists stream, accepts !! length outcomes = Some (Val stream) /\ ~ responsive stream).

Lemma run_rests accepts c c' r :
  Coordinator.boot_ c' = Coordinator.boot_ c -> Coordinator.config_ c' = Coordinator.config_ c ->
  (books_ok c -> books_ok c') ->
  Coordinator.sessions_ c' = Coordinator.sessions_ c -> (r <> None \/ accepts = []) -> run_so_far accepts c c' r.
Proof.
  intros Hb Hc Hok Hs Hr. split; [done|]. split; [done|]. split; [auto|]. exists []. rewrite app_nil_r. split; [done|].
  split; [cbn; lia|]. intros ->. left. destruct Hr as [| ->]; done.
Qed.

(** The loop of [run] serves what it accepts and waits only when there is nothing left, or in a
    session whose peer stalls. *)
Lemma run_loop_outcome accepts : forall c c' r,
  Run.run_loop message accepts c = (c', r) -> run_so_far accepts c c' r.
Proof.
  induction accepts as [|a accepts IH]; intros c c' r E; cbn [Run.run_loop] in E;
    pose proof (test_stop_books c) as Hok0; pose proof (test_stop_keeps c) as (Hs0 & Hb0 & Hc0);
    destruct (Coordinator.test_stop c) as [c0 stopping]; cbn [fst] in Hok0, Hs0, Hb0, Hc0;
    destruct stopping; try (injection E as <- <-; apply run_rests; auto; by left);
    destruct (negb _ && _); try (injection E as <- <-; apply run_rests; auto; by left).
  - destruct (Run.serve_one message a c0) as [c1 r1] eqn:E1.
    destruct (serve_one_outcome a c0 c1 r1 E1) as (Hb1 & Hc1 & Hok1 & Hr1). destruct r1 as [[u|code]|].
    + destruct Hr1 as [o Ho]. destruct (IH c1 c' r E) as (Hb & Hc & Hok & outcomes & Hs & Hl & Hn).
      split; [congruence|]. split; [congruence|]. split; [intros Ha; inversion Ha; subst; auto|].
      exists (o :: outcomes). rewrite Hs, Ho, Hs0, <- app_assoc. split; [done|]. cbn [length]. split; [lia|].
      intros Hr. destruct (Hn Hr) as [->|Hst]; [by left|by right].
    + subst c1. pose proof (test_stop_books c0) as Hok2. pose proof (test_stop_keeps c0) as (Hs2 & Hb2 & Hc2).
      destruct (Coordinator.test_stop c0) as [c2 stopping]. cbn [fst] in Hok2, Hs2, Hb2, Hc2.
      assert (Hc : c' = c2 /\ r <> None).
      { destruct (stopping || _); [by injection E as <- <-|]. destruct (bool_decide _); by injection E as <- <-. }
      destruct Hc as [-> Hr]. apply run_rests; [congruence|congruence|auto|congruence|by left].
    + destruct Hr1 as [Hs1 (stream & -> & Hst)]. injection E as <- <-. split; [congruence|]. split; [congruence|].
      split; [intros Ha; inversion Ha; subst; auto|]. exists []. rewrite app_nil_r, Hs1. split; [done|]. split; [cbn; lia|].
      intros _. right. by exists stream.
Qed.
End runs.

(** ** A coordinator and what a worker sends it *)

Definition demo_cluster : CoordinatorConfig.t :=
  CoordinatorConfig.mk (BootIdentity.mk 3 7 0 0) (ClusterLimits.mk 4 4096 8) demo_config 0 1 0 false
    (demo_policy 1 1000 1 3 demo_authorization) [demo_capacity 1 10000 5000] [demo_path 1].
Definition no_disk : Disk.t := Disk.mk None None None [].
Definition demo_created : Disk.t * StatusOr Coordinator.t := Eval vm_compute in Coordinator.create demo_cluster no_disk.
Definition demo_coordinator : Coordinator.t :=
  Eval vm_compute in value_or demo_created.2 (Coordinator.make demo_cluster (Inline (Governor.make demo_config)))
    <| Coordinator.listening_ := true |>.
Definition written (f : ByteWriter.t -> ByteWriter.t) : list Z := ByteWriter.buffer_ (f (ByteWriter.make 4096)).
Definition demo_hello (nonce : Z) : Frame.t :=
  Frame.mk (FrameHeader.mk FrameType.Hello 0 1 7 5 0 0 0)
    (written (emit [put_u64 0; put_u64 5; put_u64 7; put_u64 nonce; put_string [119; 49]])).
Definition demo_batch (sequence n : Z) : Frame.t :=
  Frame.mk (FrameHeader.mk FrameType.EvidenceBatch 0 sequence 7 5 1 0 0)
    (written (emit [put_u32 1; put_u64 0; encode (stream_sample n 500)])).
Definition demo_bye : Frame.t := Frame.mk (FrameHeader.mk FrameType.Bye 0 9 7 5 1 0 0) [0; 0; 0; 0; 0; 0].
Definition demo_session (frames : list Frame.t) : TcpStream.t :=
  TcpStream.mk true (pieces (mjoin (frame_bytes <$> frames))) [] [] false false.
Definition silent (_ : Z) : list Z := [].

(** ** Properties *)

(** C18: A session ends unless its peer stalls. Whatever bytes arrive, however they are cut,
    whatever the stream takes of the answers and whenever [stop] is called: if the peer sends or
    closes in the end, and reads what it is sent, the session that was accepted is served to its
    end, the stream is closed and exactly one outcome is added to the list. The sockets have no
    timeout, so a peer that stalls keeps its session for ever, and no outcome is added. [run] waits,
    accordingly, either for a further connection, when all those that arrived have been served, or
    inside the first session whose peer stalls, when exactly those before it have been. *)
Theorem sessions_end message stream accepts c c' :
  (let '(s, r) := Session.serve message stream c in
   match r with
   | Some status => status = Val tt /\ TcpStream.valid (Session.stream s) = false /\
       Coordinator.sessions_ (Session.coordinator s) = Coordinator.sessions_ c ++ [Session.outcome s]
   | None => Session.blocked s = true /\ ~ responsive stream /\
       Coordinator.sessions_ (Session.coordinator s) = Coordinator.sessions_ c
   end) /\
  (Run.run_loop message accepts c = (c', None) ->
     exists n, length (Coordinator.sessions_ c') = (length (Coordinator.sessions_ c) + n)%nat /\
     (n = length accepts \/ exists stalled, accepts !! n = Some (Val stalled) /\ ~ responsive stalled)).
Proof.
  split.
  - destruct (serve_shape message stream c) as (s & [E Hr] & Hs). destruct (served_books _ _ _ Hs) as (Es & _).
    destruct E as [E|[E Hb]]; rewrite E in *.
    + split; [done|]. split; [done|]. by rewrite <- Es.
    + split; [exact Hb|]. split; [|exact Es]. intros H. by destruct (Hr H).
  - intros E. destruct (run_loop_outcome message accepts c c' None E) as (_ & _ & _ & outcomes & Hs & _ & Hn).
    exists (length outcomes). rewrite Hs, length_app. auto.
Qed.

(** C17: Only registered sessions reach the governor. After a session the governor is the one
    before it, with operations applied each of which was carried by an evidence batch or a
    completion among the frames of the stream; that frame bore the coordinator's epoch and the
    worker and boot of the session, and these were registered by an admitted hello of the same
    stream: one of the coordinator's epoch with a fresh nonce and an identifier within the
    ceiling. Everything else that arrives leaves the governor alone. *)
Theorem only_registered_sessions_count message stream c :
  let s := (Session.serve message stream c).1 in
  reaches (fun op => exists hello c' nonce label f,
      stream_sends (Coordinator.max_payload c) stream hello /\
      admitted hello c c' (SessionOutcome.worker (Session.outcome s)) (SessionOutcome.boot (Session.outcome s)) nonce label /\
      stream_sends (Coordinator.max_payload c) stream f /\ identified c (Session.outcome s) f /\ carried c f op)
    (Coordinator.governor c) (session_governor s).
Proof.
  cbv zeta. destruct (serve_shape message stream c) as (s & [E _] & Hs).
  assert (Es : session_governor (Session.serve message stream c).1 = session_governor s /\
    Session.outcome (Session.serve message stream c).1 = Session.outcome s) by (by destruct E as [->|[-> _]]).
  destruct Es as [-> ->]. clear E. destruct Hs as [_ Hh|hello c' assigned boot nonce label Hsent Had Hw Hbo _ Hr].
  - unfold session_governor, Coordinator.governor. unfold host_of in Hh. by rewrite Hh.
  - eapply reaches_mono; [|exact Hr]. intros op (f & Hf & Hid & Hca). exists hello, c', nonce, label, f. by rewrite Hw, Hbo.
Qed.

Definition demo_accepts : list (StatusOr TcpStream.t) :=
  [Val (demo_session [demo_hello 1; demo_batch 2 1; demo_batch 3 2; demo_bye]); Val (demo_session [demo_hello 1])].

(** The peer of the second session falls silent inside its hello. *)
Definition stalled_session : TcpStream.t :=
  TcpStream.mk true (pieces (take 60 (frame_bytes (demo_hello 2))) ++ [Silence]) [] [] false false.
Definition stalled_accepts : list (StatusOr TcpStream.t) :=
  [Val (demo_session [demo_hello 1; demo_bye]); Val stalled_session; Val (demo_session [demo_hello 3; demo_bye])].

Lemma sessions_end_witness :
  exists c' n, Run.run_loop silent stalled_accepts demo_coordinator = (c', None) /\
  length (Coordinator.sessions_ c') = 1%nat /\ length (Coordinator.sessions_ c') = n /\
  (n = 3%nat \/ exists stalled, stalled_accepts !! n = Some (Val stalled) /\ ~ responsive stalled).
Proof.
  destruct (Run.run_loop silent stalled_accepts demo_coordinator) as [c' r] eqn:E.
  assert (Hr : (r, length (Coordinator.sessions_ c')) = (None, 1%nat)).
  { transitivity ((fun x => (x.2, length (Coordinator.sessions_ x.1))) (Run.run_loop silent stalled_accepts demo_coordinator));
      [by rewrite E|vm_compute; reflexivity]. }
  injection Hr as -> Hl.
  pose proof (sessions_end silent stalled_session stalled_accepts demo_coordinator c') as [_ H].
  destruct (H E) as (n & Hn & Hs).
  exists c', n. split; [reflexivity|]. split; [exact Hl|]. split; [exact Hn|exact Hs].
Defined.

(** The governor has seen both batches of the first session, and nothing of the second. *)
Example demo_sessions_governor :
  Coordinator.governor (Run.run_loop silent demo_accepts demo_coordinator).1 =
  gov_run [SubmitEvidence (stream_sample 1 500); SubmitEvidence (stream_sample 2 500)]
    (Coordinator.governor demo_coordinator).
Proof. vm_compute. reflexivity. Qed.

(** Sequence numbers are not looked at: a frame sent twice, or after one with a higher number, is
    served like any other. Only the ledger of the flow recognises the repeated window. *)
Example replayed_frames_accepted :
  let frames := [demo_hello 1; demo_batch 9 1; demo_batch 9 1; demo_batch 3 2; demo_bye] in
  let o := Session.outcome (Session.serve silent (demo_session frames) demo_coordinator).1 in
  (SessionOutcome.frames o, SessionOutcome.accepted o, SessionOutcome.duplicates o, SessionOutcome.fenced o, SessionOutcome.clean_bye o) =
  (5, 3, 1, false, true).
Proof. vm_compute. reflexivity. Qed.

Lemma created_books config disk c :
  0 <= ClusterLimits.max_workers (CoordinatorConfig.limits config) -> (Coordinator.create config disk).2 = Val c ->
  books_ok c /\ Coordinator.boot_ c = CoordinatorConfig.boot config /\ Coordinator.config_ c = config.
Proof.
  intros Hm. unfold Coordinator.create. rewrite !run_guard.
  destruct (negb _); [done|].
  destruct ((ClusterLimits.max_workers _ =? 0) || _) eqn:Ew; [done|].
  destruct ((ClusterLimits.max_payload _ =? 0) || _); [done|].
  unfold mbind, M_bind. destruct (Coordinator.open_host config disk) as [d [host|code]]; [|done].
  unfold Coordinator.construct. destruct (Coordinator.configure config host) as [h [u|code]]; [|done].
  intros [= <-]. split; [|done]. apply orb_false_iff in Ew as [Ez Em]. apply Z.eqb_neq in Ez. rewrite Z.gtb_ltb in Em.
  apply Z.ltb_ge in Em. split; unfold Coordinator.limits; cbn; try (by constructor); lia || done.
Qed.

(** C19: The coordinator's books stay bounded and consistent. From its creation on, over any
    connections whatever their bytes and whenever it is stopped: it remembers at most 4096
    nonces and none twice; every worker has one record, under an identifier between one and the
    highest assigned so far, and there are never more of them than the configured ceiling; its
    own identity does not change. *)
Theorem coordinator_books_bounded message config disk c calls bound accepts c' r :
  0 <= ClusterLimits.max_workers (CoordinatorConfig.limits config) ->
  (Coordinator.create config disk).2 = Val c -> Forall stream_bytes_ok accepts ->
  Run.run message bound accepts (c <| Coordinator.stop_calls := calls |>) = (c', r) ->
  books_ok c' /\
  size_of (Coordinator.workers_ c') <= ClusterLimits.max_workers (CoordinatorConfig.limits config) /\
  Coordinator.boot_ c' = CoordinatorConfig.boot config /\ Coordinator.config_ c' = config.
Proof.
  intros Hm Ec Ha Er. destruct (created_books config disk c Hm Ec) as (Hok & Hb & Hc).
  set (good := fun c1 => books_ok c1 /\ Coordinator.boot_ c1 = CoordinatorConfig.boot config /\ Coordinator.config_ c1 = config).
  assert (Hgood : forall c1, good c1 -> Run.run_loop message accepts c1 = (c', r) -> good c').
  { intros c1 (H1 & B1 & C1) E. apply run_loop_outcome in E as (B & C & H & _). split; [auto|]. split; congruence. }
  enough (H : good c').
  { destruct H as (H & B & C). split; [done|]. split; [|done]. rewrite <- C. by apply ids_bounded. }
  set (c0 := c <| Coordinator.stop_calls := calls |>) in *.
  assert (H0 : good c0) by (split; [destruct Hok; by split|done]). clearbody c0.
  unfold Run.run in Er. destruct (Coordinator.listening_ c0) eqn:El; cbn [negb] in Er; [by apply (Hgood c0)|].
  unfold Coordinator.listen, mbind, M_bind, get, lift, modify in Er. rewrite El in Er. cbn [refuse_if] in Er.
  destruct bound as [port|code].
  - eapply Hgood; [|exact Er]. destruct H0 as [[] B]. by split; [split|].
  - by injection Er as <- <-.
Qed.

Lemma demo_bytes_ok : Forall stream_bytes_ok demo_accepts.
Proof.
  apply Forall_cons. split; [|apply Forall_cons; split; [|constructor]]; cbn [stream_bytes_ok];
    unfold demo_session; cbn [TcpStream.arrivals]; rewrite incoming_pieces;
    apply (bool_decide_eq_true_1 _); vm_compute; reflexivity.
Qed.

Lemma coordinator_books_bounded_witness :
  exists c c' r, demo_created.2 = Val c /\ Run.run silent (Val 4000) demo_accepts (c <| Coordinator.stop_calls := [] |>) = (c', r) /\
  books_ok c' /\ size_of (Coordinator.workers_ c') <= 4 /\
  Coordinator.boot_ c' = BootIdentity.mk 3 7 0 0 /\ Coordinator.config_ c' = demo_cluster.
Proof.
  assert (E : (Coordinator.create demo_cluster no_disk).2 = demo_created.2) by (vm_compute; reflexivity).
  assert (Hv : ok demo_created.2 = true) by (vm_compute; reflexivity).
  destruct (demo_created.2) as [c|code]; [|discriminate Hv]. exists c.
  destruct (Run.run silent (Val 4000) demo_accepts (c <| Coordinator.stop_calls := [] |>)) as [c' r] eqn:Er.
  exists c', r. split; [reflexivity|]. split; [reflexivity|].
  refine (coordinator_books_bounded silent demo_cluster no_disk c [] (Val 4000) demo_accepts c' r _ E demo_bytes_ok Er).
  vm_compute. discriminate.
Defined.
