(* ===== verification/ClusterAgree.v ===== *)
(** * Worker and coordinator agree

    The two ends of a connection composed through the bytes on it: what a worker learns about
    its registration is what the coordinator decided, and a batch it flushes is applied exactly
    as it was buffered and acknowledged with the numbers of the session. *)
From Stdlib Require Import String.
From S2P Require Import Prelude Status Checked Tri Tick Hash OMap Flow Tables Policy Impact Classification Intervention Governor GovernorFacts GovernorRuns Codec CodecFacts Restore Journal JournalFacts Durable Text Transport TransportFacts Cluster ClusterFacts.

#[local] Open Scope string_scope.
#[local] Open Scope list_scope.
#[local] Open Scope Z_scope.

#[local] Opaque crc32c Governor.submit_evidence decision_digest.

(** ** Strings *)

Lemma read_bytes_rest bs tail r :
  rest r = bs ++ tail ->
  exists r', ByteReader.read_bytes (size_of bs) r = (r', Some bs) /\ rest r' = tail.
Proof.
  intros Hr. unfold ByteReader.read_bytes, ByteReader.remaining.
  assert (Hlen := length_drop (ByteReader.data_ r) (ByteReader.offset_ r)).
  unfold rest in *. rewrite Hr, length_app in Hlen. unfold size_of.
  destruct (Z.ltb_spec (Z.of_nat (length (ByteReader.data_ r) - ByteReader.offset_ r)) (Z.of_nat (length bs))); [lia|].
  rewrite Nat2Z.id, Hr, take_app_length. eexists. split; [done|]. cbn.
  by rewrite Nat.add_comm, <- drop_drop, Hr, drop_app_length.
Qed.

Lemma parses_string max_bytes s :
  size_of s <= max_bytes -> max_bytes < 2 ^ 32 ->
  parses (need_string max_bytes) (le_bytes 4 (size_of s) ++ s) s.
Proof.
  intros Hs Hm. pose proof (size_of_nonneg s) as Hpos. unfold need_string, need, ByteReader.read_string.
  assert (Hv : ByteReader.le_value (le_bytes 4 (size_of s)) = size_of s).
  { rewrite le_value_bytes. apply Z.mod_small. change (256 ^ Z.of_nat 4) with (2 ^ 32). lia. }
  split.
  - intros r tail E. rewrite <- app_assoc in E.
    destruct (read_le_rest 4 _ _ r (length_le_bytes 4 _) E) as (r1 & E1 & Hr1).
    unfold ByteReader.read_u32. rewrite E1, Hv. replace (size_of s >? max_bytes) with false by lia.
    destruct (read_bytes_rest s tail r1 Hr1) as (r2 & E2 & Hr2). rewrite E2. by exists r2.
  - intros r cut E Hc. destruct (Nat.lt_ge_cases (length (rest r)) 4) as [Hl|Hl].
    + unfold ByteReader.read_u32. rewrite read_le_short by done. by exists r.
    + assert (Hsplit : exists mid, rest r = le_bytes 4 (size_of s) ++ mid /\ mid ++ cut = s).
      { exists (drop 4 (rest r)). pose proof (f_equal (take 4) E) as Et. pose proof (f_equal (drop 4) E) as Ed.
        rewrite take_app_le, take_app_length' in Et by (rewrite ?length_le_bytes; lia).
        rewrite drop_app_le, drop_app_length' in Ed by (rewrite ?length_le_bytes; lia).
        split; [|done]. rewrite <- Et. symmetry. apply take_drop. }
      destruct Hsplit as (mid & Er & Em).
      destruct (read_le_rest 4 _ _ r (length_le_bytes 4 _) Er) as (r1 & E1 & Hr1).
      unfold ByteReader.read_u32. rewrite E1, Hv. replace (size_of s >? max_bytes) with false by lia.
      unfold ByteReader.read_bytes. destruct (Z.ltb_spec (Z.of_nat (ByteReader.remaining r1)) (size_of s)) as [|Hge]; [by exists r1|].
      exfalso. assert (Hrem : ByteReader.remaining r1 = length mid).
      { rewrite <- Hr1. unfold rest, ByteReader.remaining. by rewrite length_drop. }
      apply (f_equal length) in Em. rewrite length_app in Em. unfold size_of in Hge. destruct cut; [done|]. cbn [length] in Em. lia.
Qed.

Lemma writes_string s : size_of s <= 0xFFFFFFFF -> writes (put_string s) (le_bytes 4 (size_of s) ++ s).
Proof.
  intros Hs. eapply writes_ext; [|apply (writes_seq _ _ _ _ (writes_push (le_bytes 4 (size_of s))) (writes_push s))].
  intros w. unfold put_string, ByteWriter.write_string. replace (size_of s >? 0xFFFFFFFF) with false by lia.
  change (ByteWriter.write_u32 (size_of s) w) with (ByteWriter.push (le_bytes 4 (size_of s)) w).
  destruct (ByteWriter.push (le_bytes 4 (size_of s)) w) as [w1 [|]] eqn:E; [done|]. cbn [fst].
  assert (Ho : ByteWriter.overflowed_ w1 = true).
  { unfold ByteWriter.push, ByteWriter.reserve in E. destruct (ByteWriter.overflowed_ w) eqn:Eo; [by injection E as <-|].
    destruct ((_ >? _) || _); [by injection E as <-|done]. }
  unfold ByteWriter.push, ByteWriter.reserve. by rewrite Ho.
Qed.

Lemma carries_string max_bytes s :
  size_of s <= max_bytes -> max_bytes < 2 ^ 32 -> carries (put_string s) (need_string max_bytes) s.
Proof.
  intros Hs Hm. eexists. split; [apply writes_string; lia|by apply parses_string].
Qed.

(** ** One frame from end to end *)

Lemma inc64_range z : u64_ok (inc64 z).
Proof. unfold inc64, wrap, in_range. apply Z.mod_pos_bound. lia. Qed.
#[local] Hint Resolve inc64_range crc32c_range : efg.

(** [w] with the arrivals [answers] on its stream. *)
Definition hearing (answers : list Arrival) (w : Worker.t) : Worker.t :=
  w <| Worker.stream_ ::= (fun s => s <| TcpStream.arrivals := answers |>) |>.

Record worker_ready (w : Worker.t) : Prop := {
  wr_valid : TcpStream.valid (Worker.stream_ w) = true;
  wr_sending : sending (Worker.stream_ w);
  wr_payload : 256 <= Worker.max_payload w <= kMaxFramePayload;
  wr_boot : u64_ok (BootIdentity.boot (Worker.boot_ w));
  wr_epoch : u64_ok (BootIdentity.epoch (Worker.boot_ w));
  wr_assigned : u64_ok (Worker.assigned_worker_ w) }.

Record coordinator_ready (c : Coordinator.t) : Prop := {
  cr_payload : 256 <= Coordinator.max_payload c <= kMaxFramePayload;
  cr_boot : u64_ok (BootIdentity.boot (Coordinator.boot_ c));
  cr_epoch : u64_ok (BootIdentity.epoch (Coordinator.boot_ c)) }.

Definition worker_frame (type : FrameType.t) (payload : list Z) (w : Worker.t) : Frame.t :=
  Frame.mk (FrameHeader.mk type 0 (inc64 (Worker.sequence_ w)) (BootIdentity.epoch (Worker.boot_ w))
              (BootIdentity.boot (Worker.boot_ w)) (Worker.assigned_worker_ w) 0 0) payload.

Definition coordinator_frame (type : FrameType.t) (worker : WorkerId) (payload : list Z) (c : Coordinator.t) : Frame.t :=
  Frame.mk (FrameHeader.mk type 0 (inc64 (Coordinator.session_sequence_ c)) (BootIdentity.epoch (Coordinator.boot_ c))
              (BootIdentity.boot (Coordinator.boot_ c)) worker 0 0) payload.

(** What a frame of either side has to satisfy. *)
Lemma built_frame_ok type sequence epoch boot worker payload max_payload :
  type <> FrameType.Invalid /\ type <> FrameType.Count -> u64_ok sequence -> u64_ok epoch -> u64_ok boot -> u64_ok worker ->
  size_of payload <= max_payload -> max_payload <= kMaxFramePayload ->
  frame_ok max_payload (Frame.mk (FrameHeader.mk type 0 sequence epoch boot worker 0 0) payload).
Proof.
  intros Ht Hs He Hb Hw Hp Hm. pose proof (size_of_nonneg payload). change kMaxFramePayload with 1048576 in Hm.
  split; [|exact Hp]. split; try done; cbn; [ulia|apply crc32c_range].
Qed.

Lemma send_spec type payload w :
  worker_ready w -> type <> FrameType.Invalid /\ type <> FrameType.Count -> size_of payload <= Worker.max_payload w ->
  exists st, Worker.send type payload w =
    (w <| Worker.sequence_ ::= inc64 |> <| Worker.stream_ := st |> <| Worker.frames_sent_ ::= inc64 |>, Val tt) /\
  frame_ok (Worker.max_payload w) (worker_frame type payload w) /\
  TcpStream.sent st = TcpStream.sent (Worker.stream_ w) ++ frame_bytes (worker_frame type payload w) /\
  TcpStream.arrivals st = TcpStream.arrivals (Worker.stream_ w) /\ TcpStream.blocked st = false.
Proof.
  intros [] Ht Hp. unfold Worker.send. erewrite run_bind by reflexivity. rewrite run_guard, wr_valid0. cbn [negb].
  erewrite run_bind by reflexivity. erewrite run_bind by reflexivity.
  set (w1 := w <| Worker.sequence_ ::= inc64 |>).
  assert (Hok : frame_ok (Worker.max_payload w) (worker_frame type payload w))
    by (apply built_frame_ok; auto with efg; apply wr_payload0).
  destruct (write_frame_spec (Worker.max_payload w) (worker_frame type payload w) (Worker.stream_ w) Hok)
    as (st & E & Hst & Hb & Ha & _); [apply wr_payload0|done|].
  exists st. split; [|destruct Hst; by split]. erewrite run_bind; [reflexivity|].
  unfold on. change (write_frame (Worker.max_payload w1) _ (Worker.stream_ w1))
    with (write_frame (Worker.max_payload w) (worker_frame type payload w) (Worker.stream_ w)). by rewrite E.
Qed.

Lemma receive_spec f more w :
  frame_ok (Worker.max_payload w) f -> incoming (TcpStream.arrivals (Worker.stream_ w)) = frame_bytes f ++ more ->
  exists l, Worker.receive w = (hearing l w, Val (completed f)) /\ incoming l = more.
Proof.
  intros Hf Hi. unfold Worker.receive. erewrite run_bind by reflexivity. unfold on.
  destruct (read_frame_spec _ _ _ _ Hf Hi) as (l & E & Hl & _). rewrite E. exists l. split; [reflexivity|exact Hl].
Qed.

Lemma reply_spec type worker payload s :
  coordinator_ready (Session.coordinator s) -> sending (Session.stream s) -> u64_ok worker ->
  type <> FrameType.Invalid /\ type <> FrameType.Count -> size_of (ByteWriter.buffer_ payload) <= 256 ->
  let c := Session.coordinator s in let f := coordinator_frame type worker (ByteWriter.buffer_ payload) c in
  exists st, Session.reply type worker payload s =
    (s <| Session.coordinator ::= (fun c => c <| Coordinator.session_sequence_ ::= inc64 |>) |> <| Session.stream := st |>, Val tt) /\
  sending st /\ TcpStream.sent st = TcpStream.sent (Session.stream s) ++ frame_bytes f /\
  TcpStream.arrivals st = TcpStream.arrivals (Session.stream s) /\
  forall max_payload, 256 <= max_payload <= kMaxFramePayload -> frame_ok max_payload f.
Proof.
  intros [] Hs Hw Ht Hp c f.
  assert (Hok : forall max_payload, 256 <= max_payload <= kMaxFramePayload -> frame_ok max_payload f)
    by (intros m Hm; apply built_frame_ok; auto with efg; lia).
  destruct (write_frame_spec (Coordinator.max_payload c) f (Session.stream s)) as (st & E & Hst & Hb & Ha & _);
    [by apply Hok|apply cr_payload0|done|].
  exists st. split; [|auto]. unfold Session.reply, on, Session.on_coordinator. cbv zeta.
  match goal with |- context [write_frame ?m ?g ?x] =>
    change (write_frame m g x) with (write_frame (Coordinator.max_payload c) f (Session.stream s)) end.
  rewrite E. reflexivity.
Qed.

(** Writers with a ceiling of 256 bytes. *)
Lemma small_writer f bs : writes f bs -> size_of (ByteWriter.buffer_ (f (ByteWriter.make 256))) <= 256.
Proof.
  intros Hf. destruct (Hf (ByteWriter.make 256)) as (Hok & Hc & _); [done|].
  unfold writer_ok in Hok. rewrite Hc in Hok. exact Hok.
Qed.

(** ** Registration *)

Definition hello_bytes (w : Worker.t) : list Z :=
  le_bytes 8 (WorkerConfig.requested_worker (Worker.config_ w)) ++ le_bytes 8 (BootIdentity.boot (Worker.boot_ w)) ++
  le_bytes 8 (BootIdentity.epoch (Worker.boot_ w)) ++ le_bytes 8 (WorkerConfig.session_nonce (Worker.config_ w)) ++
  (le_bytes 4 (size_of (WorkerConfig.label (Worker.config_ w))) ++ WorkerConfig.label (Worker.config_ w)) ++ [].

Record hello_ok (w : Worker.t) : Prop := {
  he_requested : u64_ok (WorkerConfig.requested_worker (Worker.config_ w));
  he_nonce : u64_ok (WorkerConfig.session_nonce (Worker.config_ w));
  he_label : size_of (WorkerConfig.label (Worker.config_ w)) <= kMaxNameBytes }.

Lemma hello_written w : hello_ok w ->
  ByteWriter.buffer_ (Worker.hello_payload w) = hello_bytes w /\
  ByteWriter.overflowed_ (Worker.hello_payload w) = false /\ size_of (hello_bytes w) <= 256.
Proof.
  intros [Hr Hn Hl]. change kMaxNameBytes with 128 in Hl.
  assert (Hsz : size_of (hello_bytes w) <= 256).
  { unfold hello_bytes. rewrite !size_of_app. unfold size_of in *. rewrite !length_le_bytes. cbn [length]. lia. }
  unfold Worker.hello_payload. match goal with |- context [emit ?fs _] =>
    destruct (writes_room (emit fs) (hello_bytes w) 256) as (Hb & Ho & _); [|done|by rewrite Hb] end.
  unfold hello_bytes. do 4 (apply writes_cons; [apply (writes_push (le_bytes 8 _))|]).
  apply writes_cons; [apply writes_string; lia|apply writes_nil].
Qed.

Lemma hello_read w tail : hello_ok w -> worker_ready w ->
  snd (Session.read_hello (ByteReader.make (hello_bytes w ++ tail))) =
  Val (WorkerConfig.requested_worker (Worker.config_ w), BootIdentity.boot (Worker.boot_ w),
       BootIdentity.epoch (Worker.boot_ w), WorkerConfig.session_nonce (Worker.config_ w), WorkerConfig.label (Worker.config_ w)).
Proof.
  intros [] []. apply parses_exactly. unfold hello_bytes, Session.read_hello.
  do 4 (eapply parses_bind; [by apply parses_need_value|]).
  eapply parses_bind; [by apply parses_string|]. apply parses_ret.
Qed.

Lemma fence_spec reason detail s :
  coordinator_ready (Session.coordinator s) -> sending (Session.stream s) ->
  u64_ok (SessionOutcome.worker (Session.outcome s)) -> size_of detail <= 200 ->
  exists payload, let f := coordinator_frame FrameType.Fence (SessionOutcome.worker (Session.outcome s)) payload (Session.coordinator s) in
  TcpStream.sent (Session.stream (Session.fence_session reason detail s)) = TcpStream.sent (Session.stream s) ++ frame_bytes f /\
  TcpStream.arrivals (Session.stream (Session.fence_session reason detail s)) = TcpStream.arrivals (Session.stream s) /\
  Session.blocked (Session.fence_session reason detail s) = false /\
  (forall max_payload, 256 <= max_payload <= kMaxFramePayload -> frame_ok max_payload f) /\
  fst (read_fence payload) = FenceReason.to_u16 reason.
Proof.
  intros Hc Hs Hw Hd. pose proof (size_of_nonneg detail) as Hpos. unfold Session.fence_session. cbv zeta. set (s1 := Session.note _ s).
  change (SessionOutcome.worker (Session.outcome s1)) with (SessionOutcome.worker (Session.outcome s)).
  set (writer := append_fence reason detail (ByteWriter.make 256)).
  assert (Hwr : writes (append_fence reason detail)
    (le_bytes 2 (FenceReason.to_u16 reason) ++ (le_bytes 4 (size_of detail) ++ detail) ++ [])).
  { apply writes_cons; [apply (writes_push (le_bytes 2 _))|]. apply writes_cons; [apply writes_string; lia|apply writes_nil]. }
  destruct (writes_room _ _ 256 Hwr) as (Hb & _).
  { rewrite !size_of_app. unfold size_of in *. rewrite !length_le_bytes. cbn [length]. lia. }
  destruct (reply_spec FrameType.Fence (SessionOutcome.worker (Session.outcome s)) writer s1) as (st & E & Hst & Hsent & Ha & Hf);
    [done|done|done|done|by apply (small_writer _ _ Hwr)|].
  rewrite E. unfold Session.then_, Session.blocked. cbn [Session.stream update eta Session.eta_t].
  rewrite (proj1 Hst : TcpStream.blocked st = false). exists (ByteWriter.buffer_ writer). split; [exact Hsent|]. split; [exact Ha|].
  split; [exact (proj1 Hst)|]. split; [exact Hf|]. unfold writer. rewrite Hb. unfold read_fence.
  destruct (read_le_rest 2 _ _ (ByteReader.make (le_bytes 2 (FenceReason.to_u16 reason) ++ (le_bytes 4 (size_of detail) ++ detail) ++ []))
    (length_le_bytes 2 (FenceReason.to_u16 reason)) eq_refl) as (r & Er & _).
  change (ByteReader.read_u16 (ByteReader.make ?x)) with (ByteReader.read_le 2 (ByteReader.make x)). rewrite Er. cbn [fst].
  rewrite le_value_bytes. by destruct reason.
Qed.

(** What the coordinator decides about a worker's hello. *)
Definition verdict (w : Worker.t) (c : Coordinator.t) : FenceReason.t + WorkerId :=
  let epoch := BootIdentity.epoch (Worker.boot_ w) in
  let own := BootIdentity.epoch (Coordinator.boot_ c) in
  if epoch <? own then inl FenceReason.EpochStale
  else if epoch >? own then inl FenceReason.EpochAhead
  else if bool_decide (WorkerConfig.session_nonce (Worker.config_ w) ∈ Coordinator.seen_nonces_ c)
  then inl FenceReason.WorkerDuplicate
  else match Session.assign_worker (WorkerConfig.requested_worker (Worker.config_ w)) c with
       | inl _ => inl FenceReason.PopulationCeiling
       | inr (_, assigned) => inr assigned
       end.

(** How a session opens: the part of [serve] before the stream is handled. *)
Definition greet (stream : TcpStream.t) (c : Coordinator.t) : Session.t * StatusOr bool :=
  let '(stream', frame) := read_frame (Coordinator.max_payload c) stream in
  let s := Session.make c stream' in
  match frame with
  | Err code =>
      (Session.then_ (Session.note (fun o => o <| SessionOutcome.fenced := true |>
                                              <| SessionOutcome.fence := FenceReason.FrameMalformed |>)) s, Val true)
  | Val hello =>
      let s := Session.note (fun o => o <| SessionOutcome.frames ::= inc64 |>) s in
      if negb (bool_decide (FrameHeader.type (Frame.header hello) = FrameType.Hello))
      then (Session.fence_session FenceReason.FrameMalformed (text "first frame was not a hello") s, Val true)
      else Session.handle_hello hello s
  end.

Lemma fence_record reason detail s : Session.record (Session.fence_session reason detail s) = Session.record s.
Proof. by destruct (fence_spares reason detail s) as [[] _]. Qed.

Lemma then_unregistered f s : Session.record s = None -> Session.then_ (Session.on_record f) s = s.
Proof. intros E. unfold Session.then_, Session.on_record. rewrite E. by destruct (Session.blocked s). Qed.

Lemma serve_greets message stream c :
  Session.serve message stream c =
  match greet stream c with
  | (s, Val false) =>
      match Session.handle_stream message s with
      | (s, None) => (s, None)
      | (s, Some _) => (Session.finish (Session.close_record s <| Session.stream ::= TcpStream.shutdown_send |>), Some (Val tt))
      end
  | (s, _) =>
      Session.ending (Session.then_ (Session.on_record (fun r =>
         r <| WorkerRecord.last_seen := Coordinator.last_tick_ (Session.coordinator s) |>
           <| WorkerRecord.outcome := Session.fenced_text s |>)) s)
  end.
Proof.
  unfold Session.serve, greet. destruct (read_frame _ stream) as [stream' [hello|code]]; cbv zeta.
  2: { rewrite then_unregistered; [reflexivity|]. unfold Session.then_. by destruct (Session.blocked _). }
  destruct (negb _).
  - rewrite then_unregistered; [reflexivity|]. by rewrite fence_record.
  - destruct (Session.handle_hello _ _) as [s [[]|code]]; reflexivity.
Qed.

Definition welcome_bytes (assigned : WorkerId) (c : Coordinator.t) : list Z :=
  le_bytes 8 assigned ++ le_bytes 8 (BootIdentity.epoch (Coordinator.boot_ c)) ++
  le_bytes 8 (BootIdentity.boot (Coordinator.boot_ c)) ++
  le_bytes 8 (match Governor.policy_ (Coordinator.governor c) with Some p => PolicyDocument.digest p | None => 0 end) ++
  le_bytes 4 1 ++ [].

Lemma welcome_written assigned c :
  ByteWriter.buffer_ (Session.welcome_payload assigned c) = welcome_bytes assigned c /\
  size_of (welcome_bytes assigned c) <= 256.
Proof.
  assert (Hsz : size_of (welcome_bytes assigned c) <= 256).
  { unfold welcome_bytes. rewrite !size_of_app. unfold size_of in *. rewrite !length_le_bytes. cbn [length]. lia. }
  unfold Session.welcome_payload. match goal with |- context [emit ?fs _] =>
    destruct (writes_room (emit fs) (welcome_bytes assigned c) 256) as (Hb & Ho & _); [|done|by rewrite Hb] end.
  unfold welcome_bytes. do 4 (apply writes_cons; [apply (writes_push (le_bytes 8 _))|]).
  apply writes_cons; [apply (writes_push (le_bytes 4 _))|apply writes_nil].
Qed.

Lemma welcome_read assigned c : u64_ok assigned -> coordinator_ready c ->
  exists digest, snd (Worker.read_welcome (ByteReader.make (welcome_bytes assigned c))) =
  Val (assigned, BootIdentity.epoch (Coordinator.boot_ c), BootIdentity.boot (Coordinator.boot_ c), digest, 1).
Proof.
  intros Ha []. eexists. rewrite <- (app_nil_r (welcome_bytes assigned c)). apply parses_exactly.
  unfold welcome_bytes, Worker.read_welcome. do 3 (eapply parses_bind; [by apply parses_need_value|]).
  eapply parses_bind; [apply (@parses_need 8), length_le_bytes|].
  eapply parses_bind; [by apply parses_need_value|]. apply parses_ret.
Qed.

Lemma assign_detail requested c detail : Session.assign_worker requested c = inl detail -> size_of detail <= 200.
Proof.
  unfold Session.assign_worker. cbv zeta. destruct (negb _); [destruct (_ >=? _); [|done]|destruct (requested >? ClusterLimits.max_workers _);
    [|by destruct (_ >? _)]]; intros [= <-]; vm_compute; discriminate.
Qed.

Lemma enrolled_sequence assigned boot nonce label c' s :
  Coordinator.session_sequence_ (Session.coordinator (enrolled assigned boot nonce label c' s)) = Coordinator.session_sequence_ c'.
Proof.
  unfold enrolled. set (e := Session.enroll _ _ _ _ _).
  change (Coordinator.session_sequence_ (Session.consume_nonce nonce (Session.coordinator e)) = Coordinator.session_sequence_ c').
  rewrite consume_shape. unfold e, Session.enroll. cbv zeta. unfold Session.on_record.
  change (Session.coordinator (s <| Session.coordinator := c' |>)) with c'.
  by destruct (Coordinator.find_worker assigned c').
Qed.

(** [s'] has answered [s] with the one frame [f]. *)
Definition answered (s s' : Session.t) (f : Frame.t) : Prop :=
  TcpStream.arrivals (Session.stream s') = TcpStream.arrivals (Session.stream s) /\
  TcpStream.sent (Session.stream s') = TcpStream.sent (Session.stream s) ++ frame_bytes f /\
  Session.blocked s' = false /\
  forall max_payload, 256 <= max_payload <= kMaxFramePayload -> frame_ok max_payload f.

Lemma hello_fenced reason detail s s1 :
  coordinator_ready (Session.coordinator s) -> sending (Session.stream s) -> size_of detail <= 200 ->
  SessionOutcome.worker (Session.outcome s1) = 0 -> Session.coordinator s1 = Session.coordinator s -> Session.stream s1 = Session.stream s ->
  exists payload, answered s (Session.fence_session reason detail s1) (coordinator_frame FrameType.Fence 0 payload (Session.coordinator s)) /\
  Session.coordinator (Session.fence_session reason detail s1) =
    Session.coordinator s <| Coordinator.session_sequence_ ::= inc64 |> /\
  fst (read_fence payload) = FenceReason.to_u16 reason.
Proof.
  intros Hc Hs Hd Hz1 Ec Est.
  destruct (fence_spec reason detail s1) as (payload & Hsent & Ha & Hbl & Hf & Hr); [by rewrite Ec|by rewrite Est|rewrite Hz1; ulia|done|].
  cbv zeta in *. rewrite Hz1, Ec, Est in *.
  exists payload. split; [by split|]. split; [|done]. by rewrite fence_coordinator, Ec.
Qed.

Lemma hello_welcomed assigned nonce label c' next w s s2 :
  coordinator_ready (Session.coordinator s) -> sending (Session.stream s) -> u64_ok assigned ->
  c' = Session.coordinator s <| Coordinator.next_worker_id_ := next |> ->
  Session.coordinator s2 = Session.coordinator (enrolled assigned (BootIdentity.boot (Worker.boot_ w)) nonce label c' s) ->
  Session.stream s2 = Session.stream s ->
  exists s' payload, Session.reply FrameType.Welcome assigned (Session.welcome_payload assigned (Session.coordinator s2)) s2 = (s', Val tt) /\
  Session.outcome s' = Session.outcome s2 /\
  answered s s' (coordinator_frame FrameType.Welcome assigned payload (Session.coordinator s)) /\
  Session.coordinator s' = Session.coordinator s2 <| Coordinator.session_sequence_ ::= inc64 |> /\
  exists digest, snd (Worker.read_welcome (ByteReader.make payload)) =
    Val (assigned, BootIdentity.epoch (Coordinator.boot_ (Session.coordinator s)),
         BootIdentity.boot (Coordinator.boot_ (Session.coordinator s)), digest, 1).
Proof.
  intros Hc Hs Hass Ec' Hce Hst. destruct (enrolled_facts assigned (BootIdentity.boot (Worker.boot_ w)) nonce label c' s)
    as (_ & Fc & Fb & _). rewrite <- Hce in Fc, Fb.
  assert (Hboot : Coordinator.boot_ (Session.coordinator s2) = Coordinator.boot_ (Session.coordinator s)) by (by rewrite Fb, Ec').
  assert (Hseq : Coordinator.session_sequence_ (Session.coordinator s2) = Coordinator.session_sequence_ (Session.coordinator s))
    by (by rewrite Hce, enrolled_sequence, Ec').
  assert (Hready : coordinator_ready (Session.coordinator s2)).
  { destruct Hc. split; unfold Coordinator.max_payload, Coordinator.limits in *; rewrite ?Hboot; [|done..]. by rewrite Fc, Ec'. }
  destruct (welcome_written assigned (Session.coordinator s2)) as [Hwb Hws].
  destruct (reply_spec FrameType.Welcome assigned (Session.welcome_payload assigned (Session.coordinator s2)) s2)
    as (st & E & Hsd & Hsent & Ha & Hf); [done|by rewrite Hst|done|done|by rewrite Hwb|].
  eexists _, (welcome_bytes assigned (Session.coordinator s2)). split; [exact E|]. split; [done|].
  assert (Efr : coordinator_frame FrameType.Welcome assigned (ByteWriter.buffer_ (Session.welcome_payload assigned (Session.coordinator s2)))
    (Session.coordinator s2) = coordinator_frame FrameType.Welcome assigned (welcome_bytes assigned (Session.coordinator s2)) (Session.coordinator s)).
  { unfold coordinator_frame. by rewrite Hwb, Hboot, Hseq. }
  cbv zeta in Hsent, Hf. rewrite Efr in Hsent, Hf. rewrite Hst in Hsent, Ha.
  split; [split; [exact Ha|]; split; [exact Hsent|]; split; [exact (proj1 Hsd)|exact Hf]|].
  split; [done|]. rewrite <- Hboot. by apply welcome_read.
Qed.

(** The coordinator's side: its verdict, and the answer that says so. *)
Lemma hello_answered w s hello :
  worker_ready w -> hello_ok w -> coordinator_ready (Session.coordinator s) -> books_ok (Session.coordinator s) ->
  sending (Session.stream s) -> SessionOutcome.worker (Session.outcome s) = 0 ->
  hello = completed (worker_frame FrameType.Hello (hello_bytes w) w) ->
  let c := Session.coordinator s in
  exists s' r payload, Session.handle_hello hello s = (s', r) /\
  match verdict w c with
  | inl reason => answered s s' (coordinator_frame FrameType.Fence 0 payload c) /\ r = Val true /\
      Session.coordinator s' = c <| Coordinator.session_sequence_ ::= inc64 |> /\
      fst (read_fence payload) = FenceReason.to_u16 reason
  | inr assigned => answered s s' (coordinator_frame FrameType.Welcome assigned payload c) /\ r = Val false /\
      SessionOutcome.worker (Session.outcome s') = assigned /\
      SessionOutcome.boot (Session.outcome s') = BootIdentity.boot (Worker.boot_ w) /\
      BootIdentity.epoch (Coordinator.boot_ c) = BootIdentity.epoch (Worker.boot_ w) /\
      exists digest, snd (Worker.read_welcome (ByteReader.make payload)) =
        Val (assigned, BootIdentity.epoch (Coordinator.boot_ c), BootIdentity.boot (Coordinator.boot_ c), digest, 1)
  end.
Proof.
  intros Hw Hh Hc Hbk Hs Hzero -> c. unfold Session.handle_hello, verdict. cbv zeta.
  change (Frame.payload _) with (hello_bytes w).
  rewrite <- (app_nil_r (hello_bytes w)), hello_read by done.
  change (FrameHeader.epoch _) with (BootIdentity.epoch (Worker.boot_ w)).
  change (FrameHeader.boot _) with (BootIdentity.boot (Worker.boot_ w)). rewrite !Z.eqb_refl. cbn [negb orb].
  set (s1 := Session.note _ s). change (Session.coordinator s1) with c. fold c.
  assert (Hfence : forall reason detail, size_of detail <= 200 ->
    exists s' r payload, (Session.fence_session reason detail s1, Val true) = (s', r) /\
    (answered s s' (coordinator_frame FrameType.Fence 0 payload c) /\ r = Val true /\
     Session.coordinator s' = c <| Coordinator.session_sequence_ ::= inc64 |> /\ fst (read_fence payload) = FenceReason.to_u16 reason)).
  { intros reason detail Hd. destruct (hello_fenced reason detail s s1) as (payload & ?); [done..|].
    eexists _, _, payload. split; [reflexivity|]. naive_solver. }
  destruct (Z.ltb_spec (BootIdentity.epoch (Worker.boot_ w)) (BootIdentity.epoch (Coordinator.boot_ c))) as [|Hlt]; [by apply Hfence|].
  destruct (_ >? _) eqn:Eg; [by apply Hfence|].
  assert (Hep : BootIdentity.epoch (Coordinator.boot_ c) = BootIdentity.epoch (Worker.boot_ w)) by lia.
  case_bool_decide; [by apply Hfence|].
  destruct (Session.assign_worker _ c) as [detail|[c' assigned]] eqn:Ea; [by apply Hfence, (assign_detail _ _ _ Ea)|].
  apply assign_boot in Ea as (next & Ec' & Hrange). destruct Hbk as [Hlim _ _ _ _ Hnext].
  assert (Hass : u64_ok assigned).
  { destruct Hrange as [H1 H2]; [apply Hnext|apply Hh|apply Hlim|apply Hnext|]. fold c in Hlim.
    change kMaxWorkers with 1024 in Hlim. ulia. }
  set (s2 := Session.note _ _).
  destruct (hello_welcomed assigned (WorkerConfig.session_nonce (Worker.config_ w)) (WorkerConfig.label (Worker.config_ w)) c' next w s1 s2)
    as (s' & payload & E & Ho & Hans & _ & Hwel); [done|done|done|done| | |].
  - unfold s2, enrolled. replace (BootIdentity.epoch (Coordinator.boot_ c')) with (BootIdentity.epoch (Worker.boot_ w)); [done|]. rewrite Ec'. symmetry. exact Hep.
  - unfold s2. change (Session.stream (Session.enroll assigned (BootIdentity.boot (Worker.boot_ w)) (BootIdentity.epoch (Worker.boot_ w))
      (WorkerConfig.label (Worker.config_ w)) (s1 <| Session.coordinator := c' |>)) = Session.stream s1). unfold Session.enroll. cbv zeta.
    by destruct (Coordinator.find_worker _ _).
  - erewrite run_bind by exact E. eexists _, _, payload. split; [reflexivity|]. split; [exact Hans|]. split; [done|].
    rewrite Ho. split; [done|]. split; [|by split]. unfold s2. change (s1 <| Session.coordinator := c' |>) with
      (s <| Session.coordinator := c' |> <| Session.outcome := Session.outcome s1 |>). by rewrite enroll_outcome.
Qed.

(** Methods of the worker that write nothing. *)
Definition sent_by (w : Worker.t) : list Z := TcpStream.sent (Worker.stream_ w).
Definition quiet {A} (m : M Worker.t A) : Prop := forall w, sent_by (m w).1 = sent_by w.

Lemma quiet_bind {A B} (m : M Worker.t A) (k : A -> M Worker.t B) : quiet m -> (forall x, quiet (k x)) -> quiet (m ≫= k).
Proof.
  intros Hm Hk w. unfold mbind, M_bind. pose proof (Hm w) as E. destruct (m w) as [w1 [x|c]]; [|exact E]. by rewrite Hk.
Qed.

Lemma quiet_receive : quiet Worker.receive.
Proof.
  intros w. unfold Worker.receive. erewrite run_bind by reflexivity. unfold on.
  destruct (read_frame_next (Worker.max_payload w) (Worker.stream_ w)) as (l & E & _). rewrite E. by destruct (_ && _).
Qed.

Lemma quiet_state {A} (m : M Worker.t A) : (forall w, Worker.stream_ (m w).1 = Worker.stream_ w) -> quiet m.
Proof. intros Hm w. unfold sent_by. by rewrite Hm. Qed.

Lemma quiet_fenced f : quiet (Worker.fenced_by f).
Proof. apply quiet_state. intros w. unfold Worker.fenced_by. by destruct (read_fence _). Qed.

Lemma quiet_welcome f : quiet (Worker.accept_welcome f).
Proof.
  apply quiet_bind; [done|]. intros [[[[worker epoch] boot] digest] accepted].
  apply quiet_bind; [done|]. intros _. apply quiet_bind; [done|]. intros w0.
  apply quiet_bind; [by destruct (negb _)|]. intros _. apply quiet_bind; done.
Qed.

(** The worker's side of the two answers. *)
Lemma register_sends w answers :
  worker_ready w -> hello_ok w ->
  exists st, TcpStream.sent st = TcpStream.sent (Worker.stream_ w) ++ frame_bytes (worker_frame FrameType.Hello (hello_bytes w) w) /\
  TcpStream.arrivals st = answers /\ TcpStream.blocked st = false /\
  forall w1, w1 = w <| Worker.sequence_ ::= inc64 |> <| Worker.stream_ := st |> <| Worker.frames_sent_ ::= inc64 |> ->
  Worker.register_session (hearing answers w) =
    (reply ← Worker.receive;
     match FrameHeader.type (Frame.header reply) with
     | FrameType.Fence => Worker.fenced_by reply
     | FrameType.Welcome => Worker.accept_welcome reply
     | _ => fail StatusCode.Conflict
     end) w1.
Proof.
  intros Hw Hh. destruct (hello_written w Hh) as (Hb & Ho & Hsz).
  assert (Hr : worker_ready (hearing answers w)) by (destruct Hw; split; done).
  destruct (send_spec FrameType.Hello (hello_bytes w) (hearing answers w) Hr) as (st & E & _ & Hs & Ha & Hbl); [done| |].
  { change (size_of (hello_bytes w) <= Worker.max_payload w). pose proof (wr_payload _ Hw). lia. }
  exists st. split; [exact Hs|]. split; [exact Ha|]. split; [exact Hbl|]. intros w1 ->. unfold Worker.register_session.
  erewrite run_bind by reflexivity. change (Worker.hello_payload (hearing answers w)) with (Worker.hello_payload w).
  cbv zeta. rewrite run_guard, Ho, Hb. erewrite run_bind by exact E. reflexivity.
Qed.

Lemma register_fenced w answers f more :
  worker_ready w -> hello_ok w -> FrameHeader.type (Frame.header f) = FrameType.Fence ->
  frame_ok (Worker.max_payload w) f -> incoming answers = frame_bytes f ++ more ->
  let '(w', x) := Worker.register_session (hearing answers w) in
  x = Err StatusCode.AuthorityMismatch /\ Worker.last_fence_ w' = fst (read_fence (Frame.payload f)) /\
  Worker.registered_ w' = Worker.registered_ w /\ Worker.assigned_worker_ w' = Worker.assigned_worker_ w /\
  TcpStream.blocked (Worker.stream_ w') = false.
Proof.
  intros Hw Hh Ht Hf Hi. destruct (register_sends w answers Hw Hh) as (st & _ & Ha & Hbl & E). rewrite (E _ eq_refl). clear E.
  set (w1 := w <| Worker.sequence_ ::= inc64 |> <| Worker.stream_ := st |> <| Worker.frames_sent_ ::= inc64 |>).
  destruct (receive_spec f more w1) as (l & E & _); [exact Hf|by rewrite <- Ha in Hi|].
  erewrite run_bind by exact E. change (FrameHeader.type (Frame.header (completed f))) with (FrameHeader.type (Frame.header f)).
  rewrite Ht. unfold Worker.fenced_by. change (Frame.payload (completed f)) with (Frame.payload f).
  destruct (read_fence (Frame.payload f)) as [reason detail]. done.
Qed.

Lemma register_welcomed w answers assigned payload digest c more :
  worker_ready w -> hello_ok w ->
  let f := coordinator_frame FrameType.Welcome assigned payload c in
  frame_ok (Worker.max_payload w) f -> incoming answers = frame_bytes f ++ more ->
  snd (Worker.read_welcome (ByteReader.make payload)) =
    Val (assigned, BootIdentity.epoch (Coordinator.boot_ c), BootIdentity.boot (Coordinator.boot_ c), digest, 1) ->
  BootIdentity.epoch (Coordinator.boot_ c) = BootIdentity.epoch (Worker.boot_ w) ->
  let '(w', x) := Worker.register_session (hearing answers w) in
  x = Val tt /\ Worker.registered_ w' = true /\ Worker.assigned_worker_ w' = assigned /\
  TcpStream.blocked (Worker.stream_ w') = false.
Proof.
  intros Hw Hh f Hf Hi Hr Hep. destruct (register_sends w answers Hw Hh) as (st & _ & Ha & Hbl & E). rewrite (E _ eq_refl). clear E.
  set (w1 := w <| Worker.sequence_ ::= inc64 |> <| Worker.stream_ := st |> <| Worker.frames_sent_ ::= inc64 |>).
  destruct (receive_spec f more w1) as (l & E & _); [exact Hf|by rewrite <- Ha in Hi|].
  erewrite run_bind by exact E. change (FrameHeader.type (Frame.header (completed f))) with FrameType.Welcome. cbv iota.
  unfold Worker.accept_welcome. change (Frame.payload (completed f)) with payload. rewrite Hr.
  erewrite run_bind by reflexivity. cbv beta iota. rewrite run_guard. cbn [negb Z.eqb Pos.eqb]. erewrite run_bind by reflexivity.
  change (BootIdentity.epoch (Worker.boot_ (hearing l w1))) with (BootIdentity.epoch (Worker.boot_ w)).
  change (FrameHeader.boot (Frame.header (completed f))) with (BootIdentity.boot (Coordinator.boot_ c)).
  rewrite Hep, !Z.eqb_refl. cbn [negb]. erewrite run_bind by reflexivity. rewrite run_guard. done.
Qed.

(** ** Batches *)

(** A reader that never leaves its data. *)
Definition inside (r : ByteReader.t) : Prop := (ByteReader.offset_ r <= length (ByteReader.data_ r))%nat.
Definition stays_inside {A} (m : M ByteReader.t A) : Prop := forall r, inside r -> inside (m r).1.

Lemma inside_bind {A B} (m : M ByteReader.t A) (k : A -> M ByteReader.t B) :
  stays_inside m -> (forall x, stays_inside (k x)) -> stays_inside (m ≫= k).
Proof.
  intros Hm Hk r Hr. unfold mbind, M_bind. specialize (Hm r Hr). destruct (m r) as [r1 [x|c]]; [|done]. by apply Hk.
Qed.

Lemma inside_pure {A} (m : M ByteReader.t A) : (forall r, (m r).1 = r) -> stays_inside m.
Proof. intros Hm r Hr. by rewrite Hm. Qed.

Lemma inside_need n : stays_inside (need (ByteReader.read_le n)).
Proof.
  intros r Hr. unfold need, ByteReader.read_le, ByteReader.remaining, inside in *.
  destruct (Nat.ltb_spec (length (ByteReader.data_ r) - ByteReader.offset_ r) n); [done|]. cbn. lia.
Qed.

Lemma inside_bool : stays_inside need_bool.
Proof.
  intros r Hr. pose proof (inside_need 1 r Hr) as H1. unfold need_bool, need, ByteReader.read_bool in *.
  change (ByteReader.read_u8 r) with (ByteReader.read_le 1 r). destruct (ByteReader.read_le 1 r) as [r1 [raw|]]; [|done].
  by destruct (raw >? 1).
Qed.

Lemma inside_items {A} (m : M ByteReader.t A) n : stays_inside m -> stays_inside (read_items m n).
Proof.
  intros Hm. induction n as [|n IH]; [by apply inside_pure|]. cbn [read_items].
  apply inside_bind; [done|]. intros x. apply inside_bind; [done|]. intros l. by apply inside_pure.
Qed.

Lemma inside_sample : stays_inside (decode : M ByteReader.t FlowSample.t).
Proof.
  unfold decode, decode_FlowSample, read_enum, read_Priority, decode, decode_TickSpan, decode_ValidityWindow, decode_Provenance.
  repeat first [apply inside_bind; [|intros ?] | apply inside_need | apply inside_bool | case_match | by apply inside_pure].
Qed.

Lemma inside_end r : inside r -> rest r = [] -> ByteReader.at_end r = true.
Proof.
  intros Hr E. apply (f_equal length) in E. unfold rest in E. rewrite length_drop in E. cbn in E.
  unfold inside, ByteReader.at_end in *. apply Nat.eqb_eq. lia.
Qed.

(** What the encoder of a batch has written. *)
Lemma batch_written samples max_batch writer :
  encode_evidence_batch samples max_batch (ByteWriter.make kMaxFramePayload) = (writer, Val tt) ->
  Forall wire_ok samples -> size_of samples < 2 ^ 32 ->
  exists bs, ByteWriter.buffer_ writer = le_bytes 4 (size_of samples) ++ le_bytes 8 0 ++ bs /\
  parses (read_items decode (Z.to_nat (size_of samples))) bs samples.
Proof.
  intros E Hok Hsz. pose proof (size_of_nonneg samples). unfold encode_evidence_batch in E.
  rewrite run_guard in E. destruct (_ >? max_batch); [done|].
  erewrite run_bind in E by reflexivity. erewrite run_bind in E by reflexivity.
  unfold wrap in E. rewrite Z.mod_small in E by lia.
  destruct (carries_encoded samples Hok) as (bs & Hw & Hp). exists bs. split; [|exact Hp].
  assert (Hall : writes (emit ([put_u32 (size_of samples); put_u64 0] ++ (encode <$> samples)))
    (le_bytes 4 (size_of samples) ++ le_bytes 8 0 ++ bs)).
  { cbn [app]. apply writes_cons; [apply (writes_push (le_bytes 4 _))|]. by apply writes_cons; [apply (writes_push (le_bytes 8 _))|]. }
  destruct (Hall (ByteWriter.make kMaxFramePayload)) as (_ & _ & _ & Hb); [done|].
  set (w := emit _ (ByteWriter.make _)) in *. clearbody w. unfold lift in E. apply pair_equal_spec in E as [<- Ho].
  destruct (ByteWriter.overflowed_ w); [done|]. by rewrite (Hb eq_refl).
Qed.

Lemma batch_read samples max_batch max_batch' writer :
  encode_evidence_batch samples max_batch (ByteWriter.make kMaxFramePayload) = (writer, Val tt) ->
  Forall wire_ok samples -> size_of samples <= max_batch' < 2 ^ 32 ->
  snd (decode_evidence_batch max_batch' (ByteReader.make (ByteWriter.buffer_ writer))) = Val samples.
Proof.
  intros E Hok Hsz. destruct (batch_written _ _ _ E Hok) as (bs & -> & Hp); [lia|].
  pose proof (size_of_nonneg samples). set (data := le_bytes 4 _ ++ _). unfold decode_evidence_batch.
  destruct (parses_all _ _ _ (parses_need_value 4 (size_of samples) ltac:(ulia)) (ByteReader.make data) (le_bytes 8 0 ++ bs))
    as (r1 & E1 & R1); [done|].
  destruct (parses_all _ _ _ (parses_need_value 8 0 ltac:(ulia)) r1 bs R1) as (r2 & E2 & R2).
  destruct (parses_all _ _ _ Hp r2 []) as (r3 & E3 & R3); [by rewrite app_nil_r|].
  erewrite run_bind by exact E1. erewrite run_bind by exact E2. rewrite run_guard. cbn [negb Z.eqb]. rewrite run_guard.
  replace (_ >? max_batch') with false by lia.
  erewrite run_bind by exact E3. erewrite run_bind by reflexivity. rewrite run_guard, inside_end; [done| |done].
  assert (I1 : inside r1) by (apply (f_equal fst) in E1; cbn in E1; rewrite <- E1; apply inside_need; unfold inside; cbn; lia).
  assert (I2 : inside r2) by (apply (f_equal fst) in E2; cbn in E2; rewrite <- E2; by apply inside_need).
  apply (f_equal fst) in E3. cbn in E3. rewrite <- E3. by apply inside_items, I2; apply inside_sample.
Qed.

(** The abstract effect of a batch: every sample is put to the host in turn. *)
Fixpoint host_run (samples : list FlowSample.t) (h : Host) : Host * list (StatusOr FlowDecision.t) :=
  match samples with
  | [] => (h, [])
  | x :: samples =>
      let '(h1, decision) := Host.submit_evidence x h in
      let '(h2, decisions) := host_run samples h1 in (h2, decision :: decisions)
  end.

Definition taken (d : StatusOr FlowDecision.t) : bool := ok d.
Definition repeated (d : StatusOr FlowDecision.t) : bool :=
  match d with Val d => FlowDecision.evidence_duplicate d | Err _ => false end.
Definition counted (p : StatusOr FlowDecision.t -> bool) (ds : list (StatusOr FlowDecision.t)) : Z := size_of (List.filter p ds).

Definition counters_ok (o : SessionOutcome.t) : Prop :=
  u64_ok (SessionOutcome.accepted o) /\ u64_ok (SessionOutcome.duplicates o) /\ u64_ok (SessionOutcome.rejected o).

Lemma count_step (b : bool) z n : wrap 64 ((if b then inc64 z else z) + n) = wrap 64 (z + ((if b then 1 else 0) + n)).
Proof. unfold inc64, wrap. destruct b; [rewrite Zplus_mod_idemp_l|]; f_equal; lia. Qed.

Lemma counted_cons p d ds : counted p (d :: ds) = (if p d then 1 else 0) + counted p ds.
Proof. unfold counted, size_of. cbn [List.filter]. destruct (p d); cbn [length]; lia. Qed.

Lemma count_ok (b : bool) z : u64_ok z -> u64_ok (if b then inc64 z else z).
Proof. intros Hz. destruct b; [apply inc64_range|done]. Qed.

(** One sample: what of the session changes. *)
Lemma submit_sample_counts now s x :
  let d := (Host.submit_evidence x (host_of s)).2 in
  let o := Session.outcome s in
  let s' := Session.submit_sample now s x in
  Session.stream s' = Session.stream s /\
  Coordinator.session_sequence_ (Session.coordinator s') = Coordinator.session_sequence_ (Session.coordinator s) /\
  SessionOutcome.accepted (Session.outcome s') = (if taken d then inc64 (SessionOutcome.accepted o) else SessionOutcome.accepted o) /\
  SessionOutcome.duplicates (Session.outcome s') = (if repeated d then inc64 (SessionOutcome.duplicates o) else SessionOutcome.duplicates o) /\
  SessionOutcome.rejected (Session.outcome s') = (if taken d then SessionOutcome.rejected o else inc64 (SessionOutcome.rejected o)).
Proof.
  cbv zeta. unfold Session.submit_sample. cbv zeta.
  change (Coordinator.host_ (Session.coordinator (Session.note _ s))) with (host_of s).
  destruct (Host.submit_evidence x (host_of s)) as [h [d|c]]; cbn [snd taken repeated ok]; [|done].
  unfold Session.on_coordinator, Coordinator.advance_to. cbn [Session.coordinator update eta Session.eta_t].
  match goal with |- context [if ?b then _ <| Coordinator.last_tick_ := _ |> else _] => destruct b end; by destruct (FlowDecision.evidence_duplicate d).
Qed.

(** The outcome after the decisions [ds]. *)
Definition tallied (ds : list (StatusOr FlowDecision.t)) (o o' : SessionOutcome.t) : Prop :=
  SessionOutcome.accepted o' = wrap 64 (SessionOutcome.accepted o + counted taken ds) /\
  SessionOutcome.duplicates o' = wrap 64 (SessionOutcome.duplicates o + counted repeated ds) /\
  SessionOutcome.rejected o' = wrap 64 (SessionOutcome.rejected o + counted (fun d => negb (taken d)) ds).

Lemma submit_samples_spec now xs : forall s, counters_ok (Session.outcome s) ->
  let s' := foldl (Session.submit_sample now) s xs in
  Session.stream s' = Session.stream s /\
  Coordinator.session_sequence_ (Session.coordinator s') = Coordinator.session_sequence_ (Session.coordinator s) /\
  host_of s' = (host_run xs (host_of s)).1 /\
  tallied (host_run xs (host_of s)).2 (Session.outcome s) (Session.outcome s') /\ counters_ok (Session.outcome s').
Proof.
  induction xs as [|x xs IH]; intros s (Ha & Hd & Hr); cbn [foldl host_run].
  - split; [done|]. split; [done|]. split; [done|]. split; [|done].
    split; [|split]; unfold counted, wrap; cbn; rewrite Z.add_0_r, Z.mod_small; done.
  - destruct (submit_sample_counts now s x) as (Est & Esq & Ea & Ed & Er).
    destruct (submit_sample_alike now s x) as [_ Eh].
    set (s1 := Session.submit_sample now s x) in *. clearbody s1.
    destruct (Host.submit_evidence x (host_of s)) as [h1 d]. cbn [fst snd] in *. rewrite Eh.
    assert (Hc1 : counters_ok (Session.outcome s1)).
    { split; [rewrite Ea; by apply count_ok|]. split; [rewrite Ed; by apply count_ok|]. rewrite Er. destruct (taken d); [done|apply inc64_range]. }
    destruct (IH s1 Hc1) as (E1 & E2 & E3 & (T1 & T2 & T3) & E5). clear IH.
    destruct (host_run xs (host_of s1)) as [h2 ds]. cbn [fst snd] in *.
    split; [congruence|]. split; [congruence|]. split; [done|]. split; [|done].
    split; [|split]; rewrite counted_cons; [rewrite T1, Ea, count_step; done|rewrite T2, Ed, count_step; done|].
    rewrite T3, Er. destruct (taken d); cbn [negb]; [f_equal; lia|]. exact (count_step true _ _).
Qed.

(** The acknowledgement. *)
Definition ack_bytes (s : Session.t) : list Z :=
  le_bytes 8 (SessionOutcome.accepted (Session.outcome s)) ++ le_bytes 8 (SessionOutcome.duplicates (Session.outcome s)) ++
  le_bytes 8 (SessionOutcome.rejected (Session.outcome s)) ++ le_bytes 8 (Coordinator.last_tick_ (Session.coordinator s)) ++
  le_bytes 8 (decision_digest (Coordinator.governor (Session.coordinator s))) ++ [].

Lemma ack_written s :
  ByteWriter.buffer_ (Session.ack_payload s) = ack_bytes s /\ size_of (ack_bytes s) <= 256.
Proof.
  assert (Hsz : size_of (ack_bytes s) <= 256).
  { unfold ack_bytes. rewrite !size_of_app. unfold size_of in *. rewrite !length_le_bytes. cbn [length]. lia. }
  unfold Session.ack_payload. match goal with |- context [emit ?fs _] =>
    destruct (writes_room (emit fs) (ack_bytes s) 256) as (Hb & _); [|done|by rewrite Hb] end.
  unfold ack_bytes. do 5 (apply writes_cons; [apply (writes_push (le_bytes 8 _))|]). apply writes_nil.
Qed.

Lemma read_into_step (f : Worker.t -> Z) `{!Setter f} v tail w r :
  u64_ok v -> rest r = le_bytes 8 v ++ tail ->
  exists r', Worker.read_into f (w, r) = ((w <| f := v |>, r'), Val tt) /\ rest r' = tail.
Proof.
  intros Hv Hr. destruct (parses_all _ _ _ (parses_need_value 8 v Hv) r tail Hr) as (r' & E & R).
  exists r'. split; [|done]. unfold Worker.read_into. change need_u64 with (need (ByteReader.read_le 8)). by rewrite E.
Qed.

Lemma read_past_step v tail w r :
  rest r = le_bytes 8 v ++ tail -> exists r', Worker.read_past (w, r) = ((w, r'), Val tt) /\ rest r' = tail.
Proof.
  intros Hr. destruct (parses_all _ _ _ (parses_need (length_le_bytes 8 v)) r tail Hr) as (r' & E & R).
  exists r'. split; [|done]. unfold Worker.read_past. change need_u64 with (need (ByteReader.read_le 8)). by rewrite E.
Qed.

Lemma read_ack_spec s w :
  counters_ok (Session.outcome s) ->
  Worker.read_ack (ack_bytes s) w =
    (w <| Worker.accepted_ := SessionOutcome.accepted (Session.outcome s) |>
       <| Worker.duplicates_ := SessionOutcome.duplicates (Session.outcome s) |>
       <| Worker.rejected_ := SessionOutcome.rejected (Session.outcome s) |>, Val tt).
Proof.
  intros (Ha & Hd & Hr). unfold Worker.read_ack.
  destruct (read_into_step Worker.accepted_ _ _ w (ByteReader.make (ack_bytes s)) Ha eq_refl) as (r1 & E1 & R1).
  erewrite run_bind by exact E1.
  destruct (read_into_step Worker.duplicates_ _ _ (w <| Worker.accepted_ := SessionOutcome.accepted (Session.outcome s) |>) r1 Hd R1) as (r2 & E2 & R2).
  erewrite run_bind by exact E2.
  edestruct (read_into_step Worker.rejected_) as (r3 & E3 & R3); [exact Hr|exact R2|]. erewrite run_bind by exact E3.
  edestruct read_past_step as (r4 & E4 & R4); [exact R3|]. erewrite run_bind by exact E4.
  edestruct read_past_step as (r5 & E5 & R5); [exact R4|]. by rewrite E5.
Qed.

(** Without a store, these are the operations of the governor itself. *)
Lemma host_run_inline xs : forall g, (host_run xs (Inline g)).1 = Inline (gov_run (SubmitEvidence <$> xs) g).
Proof.
  induction xs as [|x xs IH]; intros g; [done|]. cbn [host_run]. unfold Host.submit_evidence, Host.through.
  change (gov_run (SubmitEvidence <$> x :: xs) g) with (gov_run (SubmitEvidence <$> xs) (Governor.submit_evidence x g).1).
  destruct (Governor.submit_evidence x g) as [g1 d]. cbn [fst]. rewrite <- IH. by destruct (host_run xs (Inline g1)).
Qed.

(** A registered worker with a batch, and the session that serves it. *)
Record linked (w : Worker.t) (s : Session.t) (writer : ByteWriter.t) : Prop := {
  li_worker : worker_ready w;
  li_coordinator : coordinator_ready (Session.coordinator s);
  li_sending : sending (Session.stream s);
  li_epoch : BootIdentity.epoch (Worker.boot_ w) = BootIdentity.epoch (Coordinator.boot_ (Session.coordinator s));
  li_assigned : Worker.assigned_worker_ w = SessionOutcome.worker (Session.outcome s);
  li_boot : BootIdentity.boot (Worker.boot_ w) = SessionOutcome.boot (Session.outcome s);
  li_counters : counters_ok (Session.outcome s);
  li_pending : Worker.buffer_ w <> [];
  li_samples : Forall wire_ok (Worker.buffer_ w);
  li_encoded : encode_evidence_batch (Worker.buffer_ w) (Worker.max_batch w) (ByteWriter.make kMaxFramePayload) = (writer, Val tt);
  li_batch : size_of (Worker.buffer_ w) <= ClusterLimits.max_batch (Coordinator.limits (Session.coordinator s)) < 2 ^ 32;
  li_payload : size_of (ByteWriter.buffer_ writer) <= Worker.max_payload w /\
               size_of (ByteWriter.buffer_ writer) <= Coordinator.max_payload (Session.coordinator s) }.

Lemma quiet_ack payload : quiet (Worker.read_ack payload).
Proof.
  apply quiet_state. intros w. unfold Worker.read_ack, mbind, M_bind, Worker.read_into, Worker.read_past.
  repeat (cbv beta iota; match goal with |- context [need_u64 ?r] => destruct (need_u64 r) as [? [?|?]] end); reflexivity.
Qed.

Definition await_ack : M Worker.t unit :=
  ack ← Worker.receive;
  match FrameHeader.type (Frame.header ack) with
  | FrameType.Fence => Worker.fenced_by ack
  | FrameType.EvidenceAck => Worker.read_ack (Frame.payload ack)
  | _ => fail StatusCode.Conflict
  end.

Lemma quiet_await : quiet await_ack.
Proof.
  apply quiet_bind; [apply quiet_receive|]. intros f. destruct (FrameHeader.type _); auto using quiet_fenced, quiet_ack. all: done.
Qed.

Lemma flush_sends w s writer answers :
  linked w s writer ->
  exists st, TcpStream.sent st = sent_by w ++ frame_bytes (worker_frame FrameType.EvidenceBatch (ByteWriter.buffer_ writer) w) /\
  TcpStream.arrivals st = answers /\ TcpStream.blocked st = false /\
  forall w1, w1 = w <| Worker.sequence_ ::= inc64 |> <| Worker.stream_ := st |> <| Worker.frames_sent_ ::= inc64 |>
                    <| Worker.samples_sent_ ::= add64 (size_of (Worker.buffer_ w)) |> <| Worker.buffer_ := [] |> ->
  Worker.flush_internal (hearing answers w) = await_ack w1.
Proof.
  intros []. assert (Hr : worker_ready (hearing answers w)) by (destruct li_worker0; split; done).
  destruct (send_spec FrameType.EvidenceBatch (ByteWriter.buffer_ writer) (hearing answers w) Hr) as (st & E & _ & Hs & Ha & Hbl); [done|apply li_payload0|].
  exists st. split; [exact Hs|]. split; [exact Ha|]. split; [exact Hbl|]. intros w1 ->. unfold Worker.flush_internal.
  erewrite run_bind by reflexivity. change (Worker.buffer_ (hearing answers w)) with (Worker.buffer_ w).
  rewrite bool_decide_false by done. change (Worker.max_batch (hearing answers w)) with (Worker.max_batch w).
  rewrite li_encoded0. erewrite run_bind by reflexivity. erewrite run_bind by exact E. erewrite run_bind by reflexivity. reflexivity.
Qed.

Lemma batch_dispatched message w s writer st :
  linked w s writer ->
  Session.handle_frame message (completed (worker_frame FrameType.EvidenceBatch (ByteWriter.buffer_ writer) w)) (s <| Session.stream := st |>) =
  Session.on_batch message (ByteWriter.buffer_ writer)
    (Session.note (fun o => o <| SessionOutcome.frames ::= inc64 |>) (s <| Session.stream := st |>)).
Proof.
  intros []. unfold Session.handle_frame. cbv zeta. set (f := worker_frame _ _ w). set (s0 := Session.note _ _).
  change (FrameHeader.epoch (Frame.header (completed f))) with (BootIdentity.epoch (Worker.boot_ w)).
  change (FrameHeader.boot (Frame.header (completed f))) with (BootIdentity.boot (Worker.boot_ w)).
  change (FrameHeader.worker (Frame.header (completed f))) with (Worker.assigned_worker_ w).
  change (Coordinator.boot_ (Session.coordinator s0)) with (Coordinator.boot_ (Session.coordinator s)).
  change (SessionOutcome.worker (Session.outcome s0)) with (SessionOutcome.worker (Session.outcome s)).
  change (SessionOutcome.boot (Session.outcome s0)) with (SessionOutcome.boot (Session.outcome s)).
  rewrite li_epoch0, li_assigned0, li_boot0, !Z.eqb_refl. reflexivity.
Qed.

Lemma turn_takes_batch message w s writer tail :
  linked w s writer ->
  incoming (TcpStream.arrivals (Session.stream s)) =
    frame_bytes (worker_frame FrameType.EvidenceBatch (ByteWriter.buffer_ writer) w) ++ tail ->
  exists s' payload, Session.stream_turn message s = (s', Session.Again) /\ Session.blocked s' = false /\
  let f := coordinator_frame FrameType.EvidenceAck (SessionOutcome.worker (Session.outcome s)) payload (Session.coordinator s) in
  payload = ack_bytes s' /\ incoming (TcpStream.arrivals (Session.stream s')) = tail /\
  TcpStream.sent (Session.stream s') = TcpStream.sent (Session.stream s) ++ frame_bytes f /\
  (forall max_payload, 256 <= max_payload <= kMaxFramePayload -> frame_ok max_payload f) /\
  host_of s' = (host_run (Worker.buffer_ w) (host_of s)).1 /\ counters_ok (Session.outcome s') /\
  tallied (host_run (Worker.buffer_ w) (host_of s)).2 (Session.outcome s) (Session.outcome s').
Proof.
  intros Hl Hi. pose proof Hl as []. set (f := worker_frame _ _ w) in *.
  assert (Hf : frame_ok (Coordinator.max_payload (Session.coordinator s)) f).
  { destruct li_worker0, li_coordinator0, li_payload0. apply built_frame_ok; auto with efg; lia. }
  destruct (read_frame_spec _ f tail (Session.stream s) Hf Hi) as (l & El & Hl2 & _).
  unfold Session.stream_turn. rewrite El. unfold Session.blocked at 1. cbn [Session.stream update eta Session.eta_t].
  change (TcpStream.blocked (Session.stream s <| TcpStream.arrivals := l |>)) with (TcpStream.blocked (Session.stream s)).
  rewrite (proj1 li_sending0), (batch_dispatched message w s writer) by exact Hl. set (s0 := Session.note _ _).
  unfold Session.on_batch, Session.apply_evidence_batch. cbv zeta.
  change (Coordinator.limits (Session.coordinator s0)) with (Coordinator.limits (Session.coordinator s)).
  rewrite (batch_read _ _ _ _ li_encoded0 li_samples0 li_batch0).
  set (now := Coordinator.last_tick_ _).
  destruct (submit_samples_spec now (Worker.buffer_ w) s0 li_counters0) as (Est & Esq & Eh & Ht & Hc).
  destruct (submit_samples_reach (fun _ => True) now (Worker.buffer_ w) s0) as [Hal _]; [done|].
  set (s1 := foldl _ s0 _) in *. clearbody s1.
  assert (Hcr : coordinator_ready (Session.coordinator s1)).
  { destruct li_coordinator0. split; unfold Coordinator.max_payload, Coordinator.limits in *;
      rewrite ?(al_boot _ _ Hal), ?(al_config _ _ Hal); done. }
  destruct (ack_written s1) as [Hb Hsz].
  destruct (reply_spec FrameType.EvidenceAck (SessionOutcome.worker (Session.outcome s1)) (Session.ack_payload s1) s1)
    as (st & E & Hsd & Hsent & Ha & Hok); [done|by rewrite Est|..].
  { rewrite (al_worker _ _ Hal). change (u64_ok (SessionOutcome.worker (Session.outcome s))). rewrite <- li_assigned0. apply li_worker0. }
  { done. }
  { by rewrite Hb. }
  rewrite E. eexists _, (ack_bytes s1). split; [reflexivity|]. split; [exact (proj1 Hsd)|].
  cbv zeta in Hsent, Hok |- *. rewrite Hb in Hsent, Hok.
  assert (Ef : coordinator_frame FrameType.EvidenceAck (SessionOutcome.worker (Session.outcome s1)) (ack_bytes s1) (Session.coordinator s1) =
    coordinator_frame FrameType.EvidenceAck (SessionOutcome.worker (Session.outcome s)) (ack_bytes s1) (Session.coordinator s)).
  { unfold coordinator_frame. rewrite (al_boot _ _ Hal), Esq, (al_worker _ _ Hal). reflexivity. }
  rewrite Ef in Hsent, Hok. split; [reflexivity|]. rewrite Est in Hsent, Ha.
  split; [change (incoming (TcpStream.arrivals st) = tail); rewrite Ha; exact Hl2|]. split; [exact Hsent|]. split; [exact Hok|].
  split; [exact Eh|]. split; [exact Hc|exact Ht].
Qed.

(** ** Properties *)

(** C14: Worker and coordinator agree on a registration. The bytes a worker sends to register do
    not depend on what it hears. If they reach the coordinator, however they are cut and
    whatever follows, the session decides by the rules (epoch, nonce, ceiling) and answers with
    one frame, without reading further; and when that answer reaches the worker, it knows the
    decision: refused, with the coordinator's reason and with nothing of the coordinator changed
    but the sequence number of its frames; or registered under the identifier and boot the
    session will hold its frames to. Neither side blocks. *)
Theorem registration_agrees w c receiver tail :
  worker_ready w -> hello_ok w -> coordinator_ready c -> books_ok c -> sending receiver ->
  exists hello, (forall answers, TcpStream.sent (Worker.stream_ (Worker.register_session (hearing answers w)).1) =
                                 TcpStream.sent (Worker.stream_ w) ++ hello) /\
  (incoming (TcpStream.arrivals receiver) = hello ++ tail ->
   exists s r answer, greet receiver c = (s, r) /\ Session.blocked s = false /\
   TcpStream.sent (Session.stream s) = TcpStream.sent receiver ++ answer /\
   incoming (TcpStream.arrivals (Session.stream s)) = tail /\
   forall answers more, incoming answers = answer ++ more ->
   let '(w', x) := Worker.register_session (hearing answers w) in
   TcpStream.blocked (Worker.stream_ w') = false /\
   match verdict w c with
   | inl reason =>
       r = Val true /\ Session.coordinator s = c <| Coordinator.session_sequence_ ::= inc64 |> /\
       x = Err StatusCode.AuthorityMismatch /\ Worker.last_fence_ w' = FenceReason.to_u16 reason /\
       Worker.registered_ w' = Worker.registered_ w
   | inr assigned =>
       r = Val false /\ SessionOutcome.worker (Session.outcome s) = assigned /\
       SessionOutcome.boot (Session.outcome s) = BootIdentity.boot (Worker.boot_ w) /\
       x = Val tt /\ Worker.registered_ w' = true /\ Worker.assigned_worker_ w' = assigned
   end).
Proof.
  intros Hw Hh Hc Hbk Hs. exists (frame_bytes (worker_frame FrameType.Hello (hello_bytes w) w)). split.
  { intros answers. destruct (register_sends w answers Hw Hh) as (st & Hst & _ & _ & E). rewrite (E _ eq_refl). rewrite <- Hst.
    apply quiet_bind; [apply quiet_receive|]. intros f. destruct (FrameHeader.type _); auto using quiet_fenced, quiet_welcome. all: done. }
  intros Hi. set (f := worker_frame FrameType.Hello (hello_bytes w) w) in *.
  assert (Hf : frame_ok (Coordinator.max_payload c) f).
  { destruct Hw. destruct (hello_written w Hh) as (_ & _ & ?). destruct Hc. apply built_frame_ok; auto with efg; lia. }
  destruct (read_frame_spec _ f tail receiver Hf Hi) as (l & El & Hl & _). unfold greet. rewrite El. cbv zeta.
  change (FrameHeader.type (Frame.header (completed f))) with FrameType.Hello. rewrite bool_decide_true by done. cbn [negb].
  set (s0 := Session.note _ _).
  destruct (hello_answered w s0 (completed f)) as (s & r & payload & E & Hv); [done..|].
  change (Session.coordinator s0) with c in Hv. exists s, r.
  destruct (verdict w c) as [reason|assigned].
  - destruct Hv as ((Ha & Hsent & Hbl & Hok) & Hr & Hco & Hre). eexists. split; [exact E|]. split; [exact Hbl|]. split; [exact Hsent|].
    split; [by rewrite Ha|]. intros answers more Hans.
    pose proof (register_fenced w answers (coordinator_frame FrameType.Fence 0 payload c) more Hw Hh eq_refl (Hok _ (wr_payload _ Hw)) Hans) as Hreg.
    destruct (Worker.register_session _) as [w' x]. destruct Hreg as (Hx & Hl2 & Hg & _ & Hwb).
    split; [exact Hwb|]. split; [exact Hr|]. split; [exact Hco|]. split; [exact Hx|]. split; [|exact Hg]. by rewrite Hl2.
  - destruct Hv as ((Ha & Hsent & Hbl & Hok) & Hr & Hwk & Hbt & Hep & digest & Hre). eexists. split; [exact E|]. split; [exact Hbl|]. split; [exact Hsent|].
    split; [by rewrite Ha|]. intros answers more Hans.
    pose proof (register_welcomed w answers assigned payload digest c more Hw Hh (Hok _ (wr_payload _ Hw)) Hans Hre Hep) as Hreg.
    destruct (Worker.register_session _) as [w' x]. destruct Hreg as (Hx & Hg & Has & Hwb). split; [exact Hwb|].
    split; [exact Hr|]. split; [exact Hwk|]. split; [exact Hbt|]. split; [exact Hx|by split].
Qed.

(** A worker of the demonstration's epoch. *)
Definition demo_worker : Worker.t :=
  Worker.make (WorkerConfig.mk 4000 (BootIdentity.mk 5 7 0 0) 0 1 [119; 49] 0 (ClusterLimits.mk 4 4096 8)) (demo_stream []).

Lemma demo_worker_ready : worker_ready demo_worker.
Proof. split; try (vm_compute; done). split; [done|]. split; [done|]. by repeat constructor. Qed.

Lemma demo_coordinator_ready : coordinator_ready demo_coordinator.
Proof. split; vm_compute; done. Qed.

Lemma demo_books : books_ok demo_coordinator.
Proof. split; try (by constructor); vm_compute; done. Qed.

Lemma registration_agrees_witness :
  let hello := sent_by (Worker.register_session (hearing [] demo_worker)).1 in
  exists s, greet (demo_stream (pieces hello)) demo_coordinator = (s, Val false) /\
  SessionOutcome.worker (Session.outcome s) = 1 /\
  let w := Worker.register_session (hearing (pieces (TcpStream.sent (Session.stream s))) demo_worker) in
  w.2 = Val tt /\ Worker.registered_ w.1 = true /\ Worker.assigned_worker_ w.1 = 1.
Proof.
  intros hello. destruct (registration_agrees demo_worker demo_coordinator (demo_stream (pieces hello)) [] demo_worker_ready)
    as (bytes & Hh & Hr).
  - split; vm_compute; done.
  - apply demo_coordinator_ready.
  - apply demo_books.
  - split; [done|]. split; [done|]. by repeat constructor.
  - destruct Hr as (s & r & answer & E & _ & Hs & _ & Ha).
    { cbn [TcpStream.arrivals demo_stream]. rewrite incoming_pieces, app_nil_r. exact (Hh []). }
    specialize (Ha (pieces answer) []). rewrite incoming_pieces, app_nil_r in Ha. specialize (Ha eq_refl).
    assert (Hv : verdict demo_worker demo_coordinator = inr 1) by (vm_compute; reflexivity). rewrite Hv in Ha.
    exists s. cbv zeta. change (TcpStream.sent (Session.stream s) = answer) in Hs. rewrite Hs.
    destruct (Worker.register_session (hearing (pieces answer) demo_worker)) as [w x].
    destruct Ha as (_ & -> & Hw & _ & -> & Hg & Hi). split; [exact E|]. split; [exact Hw|]. split; [reflexivity|]. by split.
Defined.

(** C15: A flushed batch arrives as it was buffered. The bytes a registered worker sends for its
    pending samples do not depend on what it hears. When they reach the session, however they are
    cut, the session puts exactly those samples to the governor (or the durable store) one after
    the other in the order they were submitted, goes on reading after the frame, and answers with
    one acknowledgement; once the worker has read it, its buffer is empty and its counters are
    the session's: the accepted, duplicate and rejected samples so far. Neither side blocks. *)
Theorem batch_agrees message w s writer tail :
  linked w s writer ->
  exists batch, (forall answers, sent_by (Worker.flush_internal (hearing answers w)).1 = sent_by w ++ batch) /\
  (incoming (TcpStream.arrivals (Session.stream s)) = batch ++ tail ->
   exists s' answer, Session.stream_turn message s = (s', Session.Again) /\ Session.blocked s' = false /\
   TcpStream.sent (Session.stream s') = TcpStream.sent (Session.stream s) ++ answer /\
   incoming (TcpStream.arrivals (Session.stream s')) = tail /\
   host_of s' = (host_run (Worker.buffer_ w) (host_of s)).1 /\
   tallied (host_run (Worker.buffer_ w) (host_of s)).2 (Session.outcome s) (Session.outcome s') /\
   forall answers more, incoming answers = answer ++ more ->
   let '(w', x) := Worker.flush_internal (hearing answers w) in
   TcpStream.blocked (Worker.stream_ w') = false /\ x = Val tt /\ Worker.buffer_ w' = [] /\
   Worker.samples_sent_ w' = add64 (size_of (Worker.buffer_ w)) (Worker.samples_sent_ w) /\
   Worker.accepted_ w' = SessionOutcome.accepted (Session.outcome s') /\
   Worker.duplicates_ w' = SessionOutcome.duplicates (Session.outcome s') /\
   Worker.rejected_ w' = SessionOutcome.rejected (Session.outcome s')).
Proof.
  intros Hl. exists (frame_bytes (worker_frame FrameType.EvidenceBatch (ByteWriter.buffer_ writer) w)). split.
  { intros answers. destruct (flush_sends w s writer answers Hl) as (st & Hst & _ & _ & E). rewrite (E _ eq_refl), quiet_await. exact Hst. }
  intros Hi. destruct (turn_takes_batch message w s writer tail Hl Hi) as (s' & payload & E & Hnb & Hp & Ht & Hs & Hok & Hh & Hc & Hta).
  eexists s', _. split; [exact E|]. split; [exact Hnb|]. split; [exact Hs|]. split; [exact Ht|]. split; [exact Hh|]. split; [exact Hta|].
  intros answers more Hans. destruct (flush_sends w s writer answers Hl) as (st & _ & Ha & Hbl & Ef). rewrite (Ef _ eq_refl). clear Ef.
  match goal with |- context [await_ack ?x] => set (w1 := x) end. set (f := coordinator_frame _ _ _ _) in *.
  destruct (receive_spec f more w1) as (l & Er & _); [apply Hok, (wr_payload _ (li_worker _ _ _ Hl))|by rewrite <- Ha in Hans|].
  unfold await_ack. erewrite run_bind by exact Er.
  change (FrameHeader.type (Frame.header (completed f))) with FrameType.EvidenceAck. cbv iota.
  change (Frame.payload (completed f)) with payload. rewrite Hp, read_ack_spec by exact Hc. done.
Qed.

Definition demo_registered : Worker.t :=
  demo_worker <| Worker.assigned_worker_ := 1 |> <| Worker.registered_ := true |>
              <| Worker.buffer_ := [stream_sample 1 500; stream_sample 2 500; stream_sample 2 500] |>.
Definition demo_writer : ByteWriter.t :=
  Eval vm_compute in (encode_evidence_batch (Worker.buffer_ demo_registered) 8 (ByteWriter.make kMaxFramePayload)).1.
Definition demo_serving (arrivals : list Arrival) : Session.t :=
  Session.mk demo_coordinator (demo_stream arrivals)
    (SessionOutcome.default <| SessionOutcome.worker := 1 |> <| SessionOutcome.boot := 5 |>) None false.

Lemma demo_linked arrivals : linked demo_registered (demo_serving arrivals) demo_writer.
Proof.
  assert (Hsend : sending (demo_stream arrivals)) by (split; [done|]; split; [done|]; by repeat constructor).
  split; [|apply demo_coordinator_ready|exact Hsend|reflexivity..| |discriminate| |vm_compute; reflexivity|vm_compute; split; [discriminate|reflexivity]|].
  - destruct demo_worker_ready. by split.
  - vm_compute; repeat split; discriminate.
  - repeat (apply Forall_cons; split); [..|constructor]; vm_compute; repeat split; discriminate.
  - vm_compute; split; discriminate.
Qed.

Lemma batch_agrees_witness :
  let batch := sent_by (Worker.flush_internal (hearing [] demo_registered)).1 in
  exists s', Session.stream_turn silent (demo_serving (pieces batch)) = (s', Session.Again) /\
  session_governor s' = gov_run [SubmitEvidence (stream_sample 1 500); SubmitEvidence (stream_sample 2 500);
    SubmitEvidence (stream_sample 2 500)] (Coordinator.governor demo_coordinator) /\
  let w := Worker.flush_internal (hearing (pieces (TcpStream.sent (Session.stream s'))) demo_registered) in
  w.2 = Val tt /\ Worker.accepted_ w.1 = 3 /\ Worker.duplicates_ w.1 = 1 /\ Worker.rejected_ w.1 = 0.
Proof.
  intros batch.
  destruct (batch_agrees silent demo_registered (demo_serving (pieces batch)) demo_writer [] (demo_linked _)) as (bytes & Hb & Hr).
  destruct Hr as (s' & answer & E & _ & Hs & _ & Hh & Ht & Ha).
  { cbn [Session.stream demo_serving TcpStream.arrivals demo_stream]. rewrite incoming_pieces, app_nil_r. exact (Hb []). }
  specialize (Ha (pieces answer) []). rewrite incoming_pieces, app_nil_r in Ha. specialize (Ha eq_refl).
  exists s'. cbv zeta. change (TcpStream.sent (Session.stream s') = answer) in Hs. rewrite Hs.
  destruct (Worker.flush_internal (hearing (pieces answer) demo_registered)) as [w x]. cbn [fst snd].
  destruct Ha as (_ & -> & _ & _ & -> & -> & ->). split; [exact E|].
  assert (Hhost : host_of (demo_serving (pieces batch)) = Inline (Coordinator.governor demo_coordinator)) by reflexivity.
  assert (Hc : tallied (host_run (Worker.buffer_ demo_registered) (Coordinator.host_ demo_coordinator)).2
    (Session.outcome (demo_serving (pieces batch))) (Session.outcome s')) by exact Ht.
  split.
  { unfold session_governor, Coordinator.governor. change (Coordinator.host_ (Session.coordinator s')) with (host_of s').
    rewrite Hh, Hhost, host_run_inline. reflexivity. }
  split; [reflexivity|]. destruct Hc as (Hc1 & Hc2 & Hc3). rewrite Hc1, Hc2, Hc3. vm_compute. split; [reflexivity|split; reflexivity].
Defined.
