(* ===== verification/ClusterReport.v ===== *)
(** * The report of the coordinator ([Coordinator::render_report], [src/cluster.cpp])

    The report is written piece by piece as explanations are, and read back by the same reader.
    The free text [detail] of an outcome is an argument, by the position of the session: it is
    whatever status text the session ended with. [write_report], which puts the bytes in a
    file, is in Apps.v. *)
From Stdlib Require Import String.
From S2P Require Import Prelude Status Checked Tri Tick Hash OMap Flow Tables Policy Impact Classification Intervention Governor GovernorFacts GovernorRuns Codec CodecFacts Journal Durable Service Text TextFacts Json Names Explain ExplainFacts Transport Cluster ClusterFacts.

#[local] Open Scope string_scope.
#[local] Open Scope list_scope.
#[local] Open Scope Z_scope.

(** ** Rendering *)

Section report.
Context (detail : nat -> list Z).

Definition report_session (i : nat) (session : SessionOutcome.t) : list chunk := [
  newline; lit (match i with O => "    {" | S _ => "    ,{" end);
  key "" "worker"; Num (SessionOutcome.worker session);
  key ", " "boot"; Num (SessionOutcome.boot session);
  key ", " "epoch"; Num (SessionOutcome.epoch session);
  key ", " "fenced"; flag (SessionOutcome.fenced session);
  key ", " "fence"; Str (FenceReason.to_string (SessionOutcome.fence session));
  key ", " "clean_bye"; flag (SessionOutcome.clean_bye session);
  key ", " "frames"; Num (SessionOutcome.frames session);
  key ", " "samples"; Num (SessionOutcome.samples session);
  key ", " "accepted"; Num (SessionOutcome.accepted session);
  key ", " "duplicates"; Num (SessionOutcome.duplicates session);
  key ", " "rejected"; Num (SessionOutcome.rejected session);
  key ", " "label"; Str (SessionOutcome.label session);
  key ", " "detail"; Str (detail i);
  lit "}" ].

(** [for (i = 0; i < sessions_.size(); ++i)] *)
Fixpoint report_sessions (i : nat) (sessions : list SessionOutcome.t) : list chunk :=
  match sessions with
  | [] => []
  | session :: sessions => report_session i session ++ report_sessions (S i) sessions
  end.

Definition report_head (c : Coordinator.t) : list chunk := [
  lit "{"; newline;
  key "  " "coordinator_boot"; Num (BootIdentity.boot (Coordinator.boot_ c)); lit ","; newline;
  key "  " "coordinator_epoch"; Num (BootIdentity.epoch (Coordinator.boot_ c)); lit ","; newline;
  key "  " "port"; Num (Coordinator.port_ c); lit ","; newline;
  key "  " "last_tick"; Num (Coordinator.last_tick_ c); lit ","; newline;
  key "  " "sessions"; lit "[" ].

Definition report_tail (c : Coordinator.t) : list chunk :=
  let counters := Governor.counters_ (Coordinator.governor c) in [
  lit "],"; newline;
  key "  " "decisions"; Num (GovernorCounters.decisions counters); lit ","; newline;
  key "  " "elephant_decisions"; Num (GovernorCounters.elephant_decisions counters); lit ","; newline;
  key "  " "suspended_decisions"; Num (GovernorCounters.suspended_decisions counters); lit ","; newline;
  key "  " "intents_fenced"; Num (GovernorCounters.intents_fenced counters); newline;
  lit "}"; newline ].

Definition render_report (c : Coordinator.t) : list Z :=
  build (report_head c ++ report_sessions 0 (Coordinator.sessions_ c) ++
         (if bool_decide (length (Coordinator.sessions_ c) = O) then [] else [newline; lit "  "]) ++
         report_tail c).

(** ** The document *)

Definition session_fields (i : nat) (session : SessionOutcome.t) := [
  nfield [] "worker" (SessionOutcome.worker session);
  nfield [32] "boot" (SessionOutcome.boot session);
  nfield [32] "epoch" (SessionOutcome.epoch session);
  bfield [32] "fenced" (SessionOutcome.fenced session);
  sfield [32] "fence" (FenceReason.to_string (SessionOutcome.fence session));
  bfield [32] "clean_bye" (SessionOutcome.clean_bye session);
  nfield [32] "frames" (SessionOutcome.frames session);
  nfield [32] "samples" (SessionOutcome.samples session);
  nfield [32] "accepted" (SessionOutcome.accepted session);
  nfield [32] "duplicates" (SessionOutcome.duplicates session);
  nfield [32] "rejected" (SessionOutcome.rejected session);
  sfield [32] "label" (SessionOutcome.label session);
  sfield [32] "detail" (detail i) ].

(** Items after the first begin with the comma, which stands before the white space of the
    next line's object only. *)
Definition session_piece (i : nat) (session : SessionOutcome.t) : piece json :=
  Piece (nl 4) [] (object_bytes (session_fields i session) []) (JObject (field_meaning <$> session_fields i session)).

Lemma session_bytes i session : mjoin (chunk_bytes <$> report_session i session) =
  nl 4 ++ (match i with O => [] | S _ => [44] end) ++ object_bytes (session_fields i session) [].
Proof. unfold session_fields, report_session. destruct i; same_bytes. Qed.

Lemma sessions_bytes sessions :
  mjoin (chunk_bytes <$> report_sessions 0 sessions) = piece_bytes (imap session_piece sessions).
Proof.
  assert (Hmore : forall sessions i, mjoin (chunk_bytes <$> report_sessions (S i) sessions) =
                             more_pieces (imap (fun k => session_piece (S i + k)) sessions)).
  { clear sessions. induction sessions as [|s sessions IH]; intros i; [reflexivity|]. cbn [report_sessions].
    rewrite fmap_app, join_app, session_bytes, IH, imap_cons, Nat.add_0_r. cbn [more_pieces session_piece before after bytes].
    rewrite <- !app_assoc. cbn [app]. do 4 f_equal. apply imap_ext. intros k x _. cbn. by rewrite Nat.add_succ_r. }
  destruct sessions as [|s sessions]; [reflexivity|]. cbn [report_sessions].
  rewrite fmap_app, join_app, session_bytes, Hmore, imap_cons. reflexivity.
Qed.

Definition sessions_array (c : Coordinator.t) : list Z :=
  array_bytes (imap session_piece (Coordinator.sessions_ c)) (closing (Coordinator.sessions_ c)).

Definition report_fields (c : Coordinator.t) : list (list Z * piece json) :=
  let counters := Governor.counters_ (Coordinator.governor c) in [
  nfield (nl 2) "coordinator_boot" (BootIdentity.boot (Coordinator.boot_ c));
  nfield (nl 2) "coordinator_epoch" (BootIdentity.epoch (Coordinator.boot_ c));
  nfield (nl 2) "port" (Coordinator.port_ c);
  nfield (nl 2) "last_tick" (Coordinator.last_tick_ c);
  field (nl 2) "sessions" (sessions_array c) (JArray (meaning <$> imap session_piece (Coordinator.sessions_ c)));
  nfield (nl 2) "decisions" (GovernorCounters.decisions counters);
  nfield (nl 2) "elephant_decisions" (GovernorCounters.elephant_decisions counters);
  nfield (nl 2) "suspended_decisions" (GovernorCounters.suspended_decisions counters);
  nfield (nl 2) "intents_fenced" (GovernorCounters.intents_fenced counters) ].

Lemma report_layout boot epoch port tick items last decisions elephants suspended fenced m1 m2 m3 m4 m5 m6 m7 m8 m9 :
  let lead name := chunk_bytes (key "  " name) in
  let comma := chunk_bytes (lit ",") in let break := chunk_bytes newline in
  mjoin [chunk_bytes (lit "{"); break; lead "coordinator_boot"; boot; comma; break;
         lead "coordinator_epoch"; epoch; comma; break; lead "port"; port; comma; break;
         lead "last_tick"; tick; comma; break; lead "sessions"; chunk_bytes (lit "[")] ++ items ++ last ++
  mjoin [chunk_bytes (lit "],"); break; lead "decisions"; decisions; comma; break;
         lead "elephant_decisions"; elephants; comma; break; lead "suspended_decisions"; suspended; comma; break;
         lead "intents_fenced"; fenced; break; chunk_bytes (lit "}"); break] =
  object_bytes [
    field (nl 2) "coordinator_boot" boot m1; field (nl 2) "coordinator_epoch" epoch m2; field (nl 2) "port" port m3;
    field (nl 2) "last_tick" tick m4; field (nl 2) "sessions" ([91] ++ items ++ last ++ [93]) m5;
    field (nl 2) "decisions" decisions m6; field (nl 2) "elephant_decisions" elephants m7;
    field (nl 2) "suspended_decisions" suspended m8; field (nl 2) "intents_fenced" fenced m9 ] [10] ++ [10].
Proof.
  cbv zeta. unfold object_bytes, field_piece, field, member_bytes.
  cbn [fmap list_fmap mjoin list_join piece_bytes more_pieces before after bytes snd fst].
  rewrite <- !app_assoc. vm_compute. reflexivity.
Qed.

Lemma closing_bytes {A} (xs : list A) :
  mjoin (chunk_bytes <$> (if bool_decide (length xs = O) then [] else [newline; lit "  "])) = closing xs.
Proof. unfold closing. by destruct (bool_decide _). Qed.

Lemma render_report_bytes c : render_report c = object_bytes (report_fields c) [10] ++ [10].
Proof.
  unfold render_report, report_fields. rewrite build_bytes, !fmap_app, !join_app, sessions_bytes, closing_bytes.
  apply report_layout.
Qed.

(** ** Properties *)

(** What the report means as a document. *)
Definition report_json (c : Coordinator.t) : json :=
  let counters := Governor.counters_ (Coordinator.governor c) in
  JObject [
    (text "coordinator_boot", JNumber (BootIdentity.boot (Coordinator.boot_ c)));
    (text "coordinator_epoch", JNumber (BootIdentity.epoch (Coordinator.boot_ c)));
    (text "port", JNumber (Coordinator.port_ c));
    (text "last_tick", JNumber (Coordinator.last_tick_ c));
    (text "sessions", JArray (imap (fun i session => JObject [
      (text "worker", JNumber (SessionOutcome.worker session));
      (text "boot", JNumber (SessionOutcome.boot session));
      (text "epoch", JNumber (SessionOutcome.epoch session));
      (text "fenced", JBool (SessionOutcome.fenced session));
      (text "fence", JString (FenceReason.to_string (SessionOutcome.fence session)));
      (text "clean_bye", JBool (SessionOutcome.clean_bye session));
      (text "frames", JNumber (SessionOutcome.frames session));
      (text "samples", JNumber (SessionOutcome.samples session));
      (text "accepted", JNumber (SessionOutcome.accepted session));
      (text "duplicates", JNumber (SessionOutcome.duplicates session));
      (text "rejected", JNumber (SessionOutcome.rejected session));
      (text "label", JString (SessionOutcome.label session));
      (text "detail", JString (detail i)) ]) (Coordinator.sessions_ c)));
    (text "decisions", JNumber (GovernorCounters.decisions counters));
    (text "elephant_decisions", JNumber (GovernorCounters.elephant_decisions counters));
    (text "suspended_decisions", JNumber (GovernorCounters.suspended_decisions counters));
    (text "intents_fenced", JNumber (GovernorCounters.intents_fenced counters)) ].

Record session_ok (session : SessionOutcome.t) : Prop := {
  so_worker : u64_ok (SessionOutcome.worker session);
  so_boot : u64_ok (SessionOutcome.boot session);
  so_epoch : u64_ok (SessionOutcome.epoch session);
  so_frames : u64_ok (SessionOutcome.frames session);
  so_samples : u64_ok (SessionOutcome.samples session);
  so_accepted : u64_ok (SessionOutcome.accepted session);
  so_duplicates : u64_ok (SessionOutcome.duplicates session);
  so_rejected : u64_ok (SessionOutcome.rejected session);
  so_label : Forall byte_ok (SessionOutcome.label session) }.

(** Every field within the width of its type. *)
Record report_ok (c : Coordinator.t) : Prop := {
  ro_boot : u64_ok (BootIdentity.boot (Coordinator.boot_ c));
  ro_epoch : u64_ok (BootIdentity.epoch (Coordinator.boot_ c));
  ro_port : in_range 16 (Coordinator.port_ c);
  ro_tick : u64_ok (Coordinator.last_tick_ c);
  ro_sessions : Forall session_ok (Coordinator.sessions_ c);
  ro_decisions : u64_ok (GovernorCounters.decisions (Governor.counters_ (Coordinator.governor c)));
  ro_elephants : u64_ok (GovernorCounters.elephant_decisions (Governor.counters_ (Coordinator.governor c)));
  ro_suspended : u64_ok (GovernorCounters.suspended_decisions (Governor.counters_ (Coordinator.governor c)));
  ro_fenced : u64_ok (GovernorCounters.intents_fenced (Governor.counters_ (Coordinator.governor c))) }.

Hypothesis detail_ok : forall i, Forall byte_ok (detail i).

(** The texts of a session, and of all sessions, are well-formed UTF-8. *)
Definition session_utf8 (i : nat) (session : SessionOutcome.t) : bool :=
  utf8 (SessionOutcome.label session) && utf8 (detail i).
Definition report_utf8 (c : Coordinator.t) : bool := forallb id (imap session_utf8 (Coordinator.sessions_ c)).

Lemma fence_ascii reason : Forall ascii_ok (FenceReason.to_string reason).
Proof. destruct reason; apply text_ascii; reflexivity. Qed.

Lemma session_spells i session : session_ok session -> session_utf8 i session = true ->
  spells (object_bytes (session_fields i session) []) (JObject (field_meaning <$> session_fields i session)).
Proof.
  intros [] [Hl Hd]%andb_prop. apply spells_object; [|apply blank_nil].
  fields_tac; first [apply spells_ascii, fence_ascii|by apply spells_string].
Qed.

Lemma report_fields_ok c : report_ok c -> report_utf8 c = true -> Forall field_ok (report_fields c).
Proof.
  intros [] Hu. assert (Hport : u64_ok (Coordinator.port_ c)) by (unfold in_range in *; lia). unfold report_fields. fields_tac.
  apply spells_array; [|apply blank_closing]. apply Forall_lookup. intros i p Hp.
  rewrite list_lookup_imap in Hp. apply fmap_Some in Hp as (session & Hs & ->). cbn [session_piece before after bytes meaning].
  split; [apply blank_nl|]. split; [apply blank_nil|]. apply session_spells.
  - rewrite Forall_lookup in ro_sessions0. by eapply ro_sessions0.
  - unfold report_utf8 in Hu. rewrite forallb_forall in Hu. apply Hu, list_elem_of_In, list_elem_of_lookup. exists i.
    by rewrite list_lookup_imap, Hs.
Qed.

(** *** What bytes the report is made of *)

Definition chunk_sound (c : chunk) : Prop :=
  match c with Put s => Forall ascii_ok s | Num v => u64_ok v | Str s => Forall byte_ok s end.
Definition chunk_utf8 (c : chunk) : bool := match c with Str s => utf8 s | _ => true end.

Lemma utf8_run_chunk c : chunk_sound c ->
  utf8_run Whole (chunk_bytes c) = if chunk_utf8 c then Whole else IllFormed.
Proof.
  destruct c as [s|v|s]; cbn [chunk_sound chunk_bytes chunk_utf8]; intros Hc; [..|by apply utf8_run_string];
    apply utf8_whole, ascii_utf8; [done|by apply decimal_ascii].
Qed.

Lemma utf8_build cs : Forall chunk_sound cs -> utf8 (build cs) = forallb chunk_utf8 cs.
Proof.
  intros Hcs. rewrite build_bytes. induction Hcs as [|c cs Hc _ IH]; [done|].
  change (mjoin (chunk_bytes <$> c :: cs)) with (chunk_bytes c ++ mjoin (chunk_bytes <$> cs)).
  unfold utf8. rewrite utf8_run_app, utf8_run_chunk by done. cbn [forallb].
  destruct (chunk_utf8 c); [exact IH|by rewrite utf8_ill].
Qed.

Ltac sound_tac :=
  first [ apply lit_ok; reflexivity | apply flag_ok | apply text_ascii; reflexivity | assumption
        | apply ascii_bytes, fence_ascii | apply detail_ok ].
Ltac sounds := repeat (apply Forall_cons; split; [sound_tac|]); exact (List.Forall_nil _).

Lemma sessions_sound sessions : Forall session_ok sessions -> forall i, Forall chunk_sound (report_sessions i sessions).
Proof.
  induction 1 as [|session sessions Hs _ IH]; intros i; [exact (List.Forall_nil _)|]. apply Forall_app. split; [|apply IH].
  destruct Hs. unfold report_session. destruct i; sounds.
Qed.

Lemma sessions_utf8 sessions : forall i,
  forallb chunk_utf8 (report_sessions i sessions) = forallb id (imap (fun k => session_utf8 (i + k)) sessions).
Proof.
  induction sessions as [|session sessions IH]; intros i; [done|]. cbn [report_sessions]. rewrite forallb_app, IH, imap_cons.
  cbn [forallb]. unfold id at 1. rewrite Nat.add_0_r. f_equal.
  - cbn. rewrite (ascii_utf8 _ (fence_ascii (SessionOutcome.fence session))), andb_true_r. done.
  - f_equal. apply imap_ext. intros k x _. cbn. by rewrite Nat.add_succ_r.
Qed.

Lemma render_report_utf8 c : report_ok c -> utf8 (render_report c) = report_utf8 c.
Proof.
  intros []. assert (Hport : u64_ok (Coordinator.port_ c)) by (unfold in_range in *; lia). unfold render_report.
  set (last := if bool_decide _ then _ else _).
  assert (Hlast : Forall chunk_sound last /\ forallb chunk_utf8 last = true).
  { unfold last. destruct (bool_decide _); (split; [|reflexivity]); [exact (List.Forall_nil _)|sounds]. }
  destruct Hlast as [Hl Hlu]. rewrite utf8_build.
  - rewrite !forallb_app, Hlu, sessions_utf8. change (forallb chunk_utf8 (report_head c)) with true.
    change (forallb chunk_utf8 (report_tail c)) with true. by rewrite andb_true_r.
  - repeat (apply Forall_app; split); [sounds|by apply sessions_sound|exact Hl|sounds].
Qed.

Lemma report_meaning c : JObject (field_meaning <$> report_fields c) = report_json c.
Proof.
  unfold report_fields, report_json. cbn [fmap list_fmap field_meaning fst snd field nfield meaning].
  rewrite fmap_imap. reflexivity.
Qed.

(** C24: The report of the coordinator is a JSON document exactly when the labels the workers sent
    and the texts the sessions ended with are well-formed UTF-8, and reading it then gives back every
    session with its counts, in order, and the counters of the governor. Nothing but that can
    spoil it: quotes, backslashes and control characters in a label are escaped. But a label is
    copied from the hello as it is, so one worker whose label is not UTF-8 makes the whole report
    unreadable. *)
Theorem report_is_json c :
  report_ok c -> read_json (render_report c) = if report_utf8 c then Some (report_json c) else None.
Proof.
  intros Hc. destruct (report_utf8 c) eqn:Hu; [|by unfold read_json; rewrite render_report_utf8, Hu].
  rewrite render_report_bytes. apply spells_document; [|apply (blank_nl 0)|discriminate].
  rewrite <- report_meaning. apply spells_object; [by apply report_fields_ok|apply (blank_nl 0)].
Qed.

End report.

(** ** Witnesses *)

(** The coordinator of the demo cluster after a session that was served and one that was fenced. *)
Definition reported_coordinator : Coordinator.t := Eval vm_compute in fst (Run.run_loop silent demo_accepts demo_coordinator).
Definition demo_detail (i : nat) : list Z := text (match i with O => "session opened" | S _ => "hello nonce was already used" end).

(** The same coordinator, had the first worker called itself by the one byte [0xE9]. *)
Definition misnamed_coordinator : Coordinator.t :=
  reported_coordinator <| Coordinator.sessions_ ::= alter (fun o => o <| SessionOutcome.label := [0xE9] |>) 0%nat |>.

Lemma report_is_json_witness :
  SessionOutcome.fenced <$> Coordinator.sessions_ reported_coordinator = [false; true] /\
  read_json (render_report demo_detail reported_coordinator) = Some (report_json demo_detail reported_coordinator) /\
  read_json (render_report demo_detail misnamed_coordinator) = None.
Proof.
  assert (Hd : forall i, Forall byte_ok (demo_detail i)) by (intros [|i]; apply ascii_bytes, text_ascii; reflexivity).
  split; [reflexivity|]. split.
  - rewrite (report_is_json demo_detail Hd); [vm_compute; reflexivity|].
    split; cbn; repeat first [split | constructor]; vm_compute; congruence.
  - rewrite (report_is_json demo_detail Hd); [vm_compute; reflexivity|].
    split; cbn; repeat first [split | constructor]; vm_compute; congruence.
Defined.
