(* ===== verification/Benchmark.v ===== *)
(** * The synthetic population benchmark ([include/efg/benchmark.hpp], [src/benchmark.cpp])

    The seeded random source, the description of a population, the policy made for it and the
    run that feeds a fresh governor with it. The clock is an argument: [elapsed] is what the
    steady clock says the first run took. The renderings of a result are in
    [BenchmarkReport.v]. *)
From S2P Require Import Prelude Status Checked Tri Tick Hash OMap Flow Tables Policy Impact Classification Intervention Governor Restore Text Double.

Definition kMaxBenchmarkPopulation : Z := Z.shiftl 1 22.

(** SplitMix64; the state is the member [state_]. *)
Module SeededRandom.
Definition t : Type := Z.

Definition next_u64 (state_ : t) : t * Z :=
  let state_ := wrap 64 (state_ + 0x9E3779B97F4A7C15) in
  let z := state_ in
  let z := wrap 64 (Z.lxor z (Z.shiftr z 30) * 0xBF58476D1CE4E5B9) in
  let z := wrap 64 (Z.lxor z (Z.shiftr z 27) * 0x94D049BB133111EB) in
  (state_, Z.lxor z (Z.shiftr z 31)).

Definition next_below (bound : Z) (state_ : t) : t * Z :=
  if bound =? 0 then (state_, 0)
  else let '(state_, z) := next_u64 state_ in (state_, z mod bound).

Definition next_in (lo hi : Z) (state_ : t) : t * Z :=
  if hi <=? lo then (state_, lo)
  else let '(state_, z) := next_below (wrap 64 (wrap 64 (hi - lo) + 1)) state_ in (state_, wrap 64 (lo + z)).
End SeededRandom.

Module PopulationSpec.
Record t := mk {
  mice : Z;
  elephants : Z;
  seed : Z;
  ticks : Z;
  window_ticks : Z;
  mouse_rate_lo : Z;
  mouse_rate_hi : Z;
  elephant_rate_lo : Z;
  elephant_rate_hi : Z;
  resources : Z;
  resource_capacity : Z;
  resource_reserved : Z;
  paths : Z;
  path_resources : Z;
  policy_complexity : Z;
  protected_bp : Z;
  abandon_bp : Z;
  sweep_after_ticks : Z }.
#[global] Instance eta_t : Eta t := fun r =>
  mk (mice r) (elephants r) (seed r) (ticks r) (window_ticks r) (mouse_rate_lo r) (mouse_rate_hi r)
     (elephant_rate_lo r) (elephant_rate_hi r) (resources r) (resource_capacity r) (resource_reserved r)
     (paths r) (path_resources r) (policy_complexity r) (protected_bp r) (abandon_bp r) (sweep_after_ticks r).
Definition default : t := mk 0 0 0x5EED1234 64 4 1 64 4096 16384 4 65536 8192 8 2 1 0 0 0.

(** [mice + elephants], at the width of [std::size_t]. *)
Definition population (s : t) : Z := wrap 64 (mice s + elephants s).

Definition validate (s : t) : Status :=
  refuse_if (population s =? 0) StatusCode.InvalidArgument ;;
  refuse_if (population s >? kMaxBenchmarkPopulation) StatusCode.Oversized ;;
  refuse_if ((ticks s =? 0) || (window_ticks s =? 0)) StatusCode.InvalidArgument ;;
  refuse_if (window_ticks s >? ticks s) StatusCode.InvalidArgument ;;
  refuse_if ((mouse_rate_lo s =? 0) || (mouse_rate_hi s <? mouse_rate_lo s)) StatusCode.InvalidArgument ;;
  refuse_if ((elephant_rate_lo s =? 0) || (elephant_rate_hi s <? elephant_rate_lo s)) StatusCode.InvalidArgument ;;
  refuse_if (elephant_rate_lo s <=? mouse_rate_hi s) StatusCode.InvalidArgument ;;
  refuse_if ((resources s =? 0) || (resource_capacity s =? 0)) StatusCode.InvalidArgument ;;
  refuse_if (resource_reserved s >=? resource_capacity s) StatusCode.InvalidArgument ;;
  refuse_if (resource_reserved s >=? resource_capacity s) StatusCode.InvalidArgument ;;
  refuse_if (resources s >? kMaxResources) StatusCode.Oversized ;;
  refuse_if ((paths s =? 0) || (paths s >? kMaxPaths)) StatusCode.OutOfRange ;;
  refuse_if ((path_resources s =? 0) || (path_resources s >? resources s)) StatusCode.InvalidArgument ;;
  refuse_if (path_resources s >? kMaxResourcesPerPath) StatusCode.Oversized ;;
  refuse_if ((policy_complexity s =? 0) || (policy_complexity s >? 24)) StatusCode.OutOfRange ;;
  refuse_if ((protected_bp s >? kBasisPointsScale) || (abandon_bp s >? kBasisPointsScale)) StatusCode.OutOfRange.
End PopulationSpec.

Definition kBenchmarkStartTick : Tick := 1000.

Definition rate_for (spec : PopulationSpec.t) (elephant : bool) (random : SeededRandom.t) : SeededRandom.t * Z :=
  if elephant
  then SeededRandom.next_in (PopulationSpec.elephant_rate_lo spec) (PopulationSpec.elephant_rate_hi spec) random
  else SeededRandom.next_in (PopulationSpec.mouse_rate_lo spec) (PopulationSpec.mouse_rate_hi spec) random.

Definition sustained_rate_threshold (spec : PopulationSpec.t) : Z :=
  wrap 64 (PopulationSpec.mouse_rate_hi spec + PopulationSpec.elephant_rate_lo spec) / 2.

(** ** The policy *)

Definition benchmark_thresholds (spec : PopulationSpec.t) : list Threshold.t :=
  let rate_threshold_kilo := wrap 64 (sustained_rate_threshold spec * kKiloTickScale) in
  let cumulative_threshold := wrap 64 (PopulationSpec.elephant_rate_lo spec * PopulationSpec.window_ticks spec) in
  let duration_threshold := wrap 64 (PopulationSpec.window_ticks spec * 2) in
  let share_threshold := 300 in [
  Threshold.mk ThresholdKind.CumulativeBytes cumulative_threshold ServiceClass.Unknown;
  Threshold.mk ThresholdKind.DurationTicks duration_threshold ServiceClass.Unknown;
  Threshold.mk ThresholdKind.SustainedRate rate_threshold_kilo ServiceClass.Unknown;
  Threshold.mk ThresholdKind.ShareOfCapacity share_threshold ServiceClass.Unknown ] ++
  replicate (Z.to_nat (PopulationSpec.policy_complexity spec - 1))
    (Threshold.mk ThresholdKind.Always 0 ServiceClass.Unknown).

(** The leaves and the chain of [All] nodes over them, which is built by the same loop as the
    synthesized exit rule. *)
Definition benchmark_rules (spec : PopulationSpec.t) : RuleSet.t := chain_leaves (leaf <$> benchmark_thresholds spec).

Definition benchmark_publisher (sequence : Z) : PublisherRef.t := PublisherRef.mk 1 1 1 sequence.

Definition make_benchmark_policy (spec : PopulationSpec.t) (id : PolicyId) (generation : Generation)
    (issued_at : Tick) (validity_ticks : Z) : StatusOr PolicyDocument.t :=
  PopulationSpec.validate spec ;;
  let rules := benchmark_rules spec in
  RuleSet.validate rules ;;
  validity ← make_validity issued_at validity_ticks;
  let policy := PolicyDocument.finalize
    (PolicyDocument.mk id generation rules RuleSet.default (HysteresisSpec.mk 2 3 8000)
       (IntentAuthorization.mk true true true true true true 2500 (PopulationSpec.ticks spec) 8 400 200)
       validity (Provenance.mk (benchmark_publisher 1) issued_at kSchemaVersion 0) 0) in
  PolicyDocument.validate policy ;;
  mret policy.

(** ** The population *)

Definition policy_validity (spec : PopulationSpec.t) : Z := wrap 64 (wrap 64 (PopulationSpec.ticks spec * 8) + 64).
Definition window_count (spec : PopulationSpec.t) : Z := PopulationSpec.ticks spec / PopulationSpec.window_ticks spec.

(** The resources the path [p] binds. *)
Definition path_binding (spec : PopulationSpec.t) (p : Z) : list ResourceId :=
  (fun k => wrap 64 (p + k) mod PopulationSpec.resources spec + 1) <$> seqZ 0 (PopulationSpec.path_resources spec).

Definition benchmark_capacity (spec : PopulationSpec.t) (r : Z) : StatusOr ResourceCapacity.t :=
  validity ← make_validity kBenchmarkStartTick (policy_validity spec);
  mret (ResourceCapacity.mk (r + 1) 1 (r + 1)
    (TickSpan.mk kBenchmarkStartTick (wrap 64 (kBenchmarkStartTick + PopulationSpec.ticks spec)))
    (wrap 64 (PopulationSpec.resource_capacity spec * kKiloTickScale))
    (wrap 64 (PopulationSpec.resource_reserved spec * kKiloTickScale))
    validity (Provenance.mk (benchmark_publisher (r + 2)) kBenchmarkStartTick kSchemaVersion 0)).

Definition benchmark_path (spec : PopulationSpec.t) (p : Z) : StatusOr PathDescriptor.t :=
  validity ← make_validity kBenchmarkStartTick (policy_validity spec);
  mret (PathDescriptor.mk (p + 1) 1 (path_binding spec p) validity
    (Provenance.mk (benchmark_publisher (PopulationSpec.resources spec + p + 2)) kBenchmarkStartTick kSchemaVersion 0)).

(** What the random source decides about one flow. *)
Module FlowProfile.
Record t := mk { index : Z; elephant : bool; rate : Z; protected_flow : bool; effective_windows : Z }.

(** [bp != 0 && random.next_below(kBasisPointsScale) < bp] *)
Definition chance (bp : Z) (random : SeededRandom.t) : SeededRandom.t * bool :=
  if bp =? 0 then (random, false)
  else let '(random, z) := SeededRandom.next_below kBasisPointsScale random in (random, z <? bp).

Definition draw (spec : PopulationSpec.t) (index : Z) (random : SeededRandom.t) : SeededRandom.t * t :=
  let elephant := index >=? PopulationSpec.mice spec in
  let '(random, rate) := rate_for spec elephant random in
  let '(random, protected_flow) := chance (PopulationSpec.protected_bp spec) random in
  let '(random, abandons) := chance (PopulationSpec.abandon_bp spec) random in
  let windows := window_count spec in
  let effective := if abandons then (if windows / 2 =? 0 then 1 else windows / 2) else windows in
  (random, mk index elephant rate protected_flow effective).

Definition window_bytes (spec : PopulationSpec.t) (p : t) : Z := wrap 64 (rate p * PopulationSpec.window_ticks spec).
End FlowProfile.

(** Window [w] of a flow, with the volume counted so far; the identifier of the window and
    the provenance are the caller's; the command line programs build their samples alike. *)
Definition synthetic_sample (start : Tick) (spec : PopulationSpec.t) (p : FlowProfile.t) (w cumulative window_id : Z)
    (provenance : Tick -> Provenance.t) : StatusOr FlowSample.t :=
  let index := FlowProfile.index p in
  let elephant := FlowProfile.elephant p in
  let begin_ := wrap 64 (start + wrap 64 (w * PopulationSpec.window_ticks spec)) in
  let end_ := wrap 64 (begin_ + PopulationSpec.window_ticks spec) in
  let '(protection, service_class, reservation) :=
    if FlowProfile.protected_flow p
    then (if elephant then ProtectionState.NonPreemptible else ProtectionState.Protected,
          ServiceClass.Reserved, 1000 + index)
    else (ProtectionState.Unprotected,
          if elephant then ServiceClass.Standard else ServiceClass.BestEffort, 0) in
  validity ← make_validity begin_ (wrap 64 (wrap 64 (PopulationSpec.ticks spec * 4) + 64));
  let sample :=
    FlowSample.mk (index + 1) 1 (1 + index mod PopulationSpec.paths spec) 1 window_id (w + 1)
      (TickSpan.mk begin_ end_) cumulative (FlowProfile.window_bytes spec p) service_class
      (Priority.of_level (if elephant then 3 else 1)) protection reservation 0 validity (provenance begin_) in
  mret (sample <| FlowSample.provenance ::= fun v => v <| Provenance.digest := FlowSample.digest sample |> |>).

Definition benchmark_sample (spec : PopulationSpec.t) (p : FlowProfile.t) (w cumulative : Z) : StatusOr FlowSample.t :=
  let serial := wrap 64 (wrap 64 (FlowProfile.index p * window_count spec) + w + 1) in
  synthetic_sample kBenchmarkStartTick spec p w cumulative serial
    (fun begin_ => Provenance.mk (benchmark_publisher serial) begin_ kSchemaVersion 0).

(** ** The run *)

Module BenchmarkResult.
Record t := mk {
  flows : Z;
  mice : Z;
  elephants : Z;
  samples_submitted : Z;
  samples_accepted : Z;
  samples_duplicate : Z;
  samples_rejected : Z;
  decisions : Z;
  classified_elephant : Z;
  classified_not_elephant : Z;
  classified_unknown : Z;
  classified_suspended : Z;
  intents_authorized : Z;
  intents_suppressed : Z;
  intents_clamped : Z;
  intents_fenced : Z;
  intents_revoked : Z;
  final_elephants : Z;
  final_not_elephants : Z;
  final_unknown : Z;
  final_suspended : Z;
  ticks : Z;
  elapsed_micros : Z;
  sub_second_numerator : Z;
  classifications_per_second : Double.t;
  samples_per_second : Double.t;
  decision_digest : Z;
  second_run_digest : Z;
  deterministic_replay : bool;
  counters : GovernorCounters.t }.
#[global] Instance eta_t : Eta t := fun r =>
  mk (flows r) (mice r) (elephants r) (samples_submitted r) (samples_accepted r) (samples_duplicate r)
     (samples_rejected r) (decisions r) (classified_elephant r) (classified_not_elephant r)
     (classified_unknown r) (classified_suspended r) (intents_authorized r) (intents_suppressed r)
     (intents_clamped r) (intents_fenced r) (intents_revoked r) (final_elephants r) (final_not_elephants r)
     (final_unknown r) (final_suspended r) (ticks r) (elapsed_micros r) (sub_second_numerator r)
     (classifications_per_second r) (samples_per_second r) (decision_digest r) (second_run_digest r) (deterministic_replay r) (counters r).
Definition default : t :=
  mk 0 0 0 0 0 0 0 0 0 0 0 0 0 0 0 0 0 0 0 0 0 0 0 0 Double.zero Double.zero 0 0 false GovernorCounters.zero.

Definition count_decision (state : ElephantState.t) (out : t) : t :=
  match state with
  | ElephantState.Elephant => out <| classified_elephant ::= inc64 |>
  | ElephantState.NotElephant => out <| classified_not_elephant ::= inc64 |>
  | ElephantState.Unknown => out <| classified_unknown ::= inc64 |>
  | ElephantState.Suspended => out <| classified_suspended ::= inc64 |>
  end.

Definition count_sample (decision : StatusOr FlowDecision.t) (out : t) : t :=
  let out := out <| samples_submitted ::= inc64 |> in
  match decision with
  | Val d =>
      let out := out <| samples_accepted ::= inc64 |> in
      let out := if FlowDecision.evidence_duplicate d then out <| samples_duplicate ::= inc64 |> else out in
      count_decision (FlowClassification.state (FlowDecision.classification d)) (out <| decisions ::= inc64 |>)
  | Err _ => out <| samples_rejected ::= inc64 |>
  end.

Definition count_final (state : ElephantState.t) (out : t) : t :=
  match state with
  | ElephantState.Elephant => out <| final_elephants ::= inc64 |>
  | ElephantState.NotElephant => out <| final_not_elephants ::= inc64 |>
  | ElephantState.Unknown => out <| final_unknown ::= inc64 |>
  | ElephantState.Suspended => out <| final_suspended ::= inc64 |>
  end.

Definition count_intent (out : t) (intent : GovernanceIntent.t) : t :=
  match GovernanceIntent.state intent with
  | IntentState.Authorized | IntentState.Active => out <| intents_authorized ::= inc64 |>
  | IntentState.Clamped => out <| intents_clamped ::= inc64 |>
  | IntentState.Suppressed => out <| intents_suppressed ::= inc64 |>
  | IntentState.Fenced => out <| intents_fenced ::= inc64 |>
  | IntentState.Revoked | IntentState.Expired | IntentState.Completed => out <| intents_revoked ::= inc64 |>
  end.
End BenchmarkResult.

Module BenchmarkRun.
Record t := mk { governor : Governor.t; random : SeededRandom.t; out : BenchmarkResult.t }.
#[global] Instance eta_t : Eta t := fun r => mk (governor r) (random r) (out r).

Definition submit (sample : FlowSample.t) (r : t) : t :=
  let '(g, decision) := Governor.submit_evidence sample (governor r) in
  r <| governor := g |> <| out ::= BenchmarkResult.count_sample decision |>.

(** [for (w = 0; w < effective_windows; ++w)], [n] windows from [w] on. *)
Fixpoint windows_loop (spec : PopulationSpec.t) (p : FlowProfile.t) (n : nat) (w cumulative : Z) : M t unit :=
  match n with
  | O => mret tt
  | S n =>
      let cumulative := wrap 64 (cumulative + FlowProfile.window_bytes spec p) in
      sample ← lift (benchmark_sample spec p w cumulative);
      modify (submit sample) ;;
      windows_loop spec p n (w + 1) cumulative
  end.

Definition run_flow (spec : PopulationSpec.t) (index : Z) : M t unit := fun r =>
  let '(random', p) := FlowProfile.draw spec index (random r) in
  windows_loop spec p (Z.to_nat (FlowProfile.effective_windows p)) 0 0 (r <| random := random' |>).

Definition setup (spec : PopulationSpec.t) : M t unit :=
  policy ← lift (make_benchmark_policy spec 7 1 kBenchmarkStartTick (policy_validity spec));
  on governor (Governor.submit_policy policy) ;;
  for_each (fun r => capacity ← lift (benchmark_capacity spec r); on governor (Governor.submit_capacity capacity))
    (seqZ 0 (PopulationSpec.resources spec)) ;;
  for_each (fun p => path ← lift (benchmark_path spec p); on governor (Governor.submit_path path))
    (seqZ 0 (PopulationSpec.paths spec)).

Definition final_tick (spec : PopulationSpec.t) : Tick :=
  wrap 64 (kBenchmarkStartTick +
    (if PopulationSpec.sweep_after_ticks spec =? 0 then wrap 64 (PopulationSpec.ticks spec + 1)
     else PopulationSpec.sweep_after_ticks spec)).

Definition sweep (now : Tick) (r : t) : t :=
  let '(g, batch) := Governor.tick now (governor r) in
  let r := r <| governor := g |> in
  if ok batch then r <| out ::= (fun o => o <| BenchmarkResult.ticks ::= inc64 |>) |> else r.

Definition classify_final (now : Tick) (r : t) (key : FlowKey) : t :=
  let '(g, classification) := Governor.classification (fst key) (snd key) now (governor r) in
  let r := r <| governor := g |> in
  match classification with
  | Val cls => r <| out ::= BenchmarkResult.count_final (FlowClassification.state cls) |>
  | Err _ => r
  end.

Definition finish (spec : PopulationSpec.t) (r : t) : t :=
  let now := final_tick spec in
  let r := sweep now r in
  let r := foldl (classify_final now) r (Governor.flow_keys (governor r)) in
  let r := r <| out ::= (fun o => foldl BenchmarkResult.count_intent o
                                    (IntentLedger.all_intents (Governor.intents_ (governor r)))) |> in
  r <| out ::= (fun o => o
         <| BenchmarkResult.flows := PopulationSpec.population spec |>
         <| BenchmarkResult.mice := PopulationSpec.mice spec |>
         <| BenchmarkResult.elephants := PopulationSpec.elephants spec |>
         <| BenchmarkResult.counters := Governor.counters_ (governor r) |>) |>.

Definition start (spec : PopulationSpec.t) (config : GovernorConfig.t) : t :=
  mk (Governor.set_incarnation (BootIdentity.mk 1 1 kBenchmarkStartTick (PopulationSpec.seed spec)) (Governor.make config))
     (PopulationSpec.seed spec) BenchmarkResult.default.

(** [run_once] with a fresh result. *)
Definition run_once (spec : PopulationSpec.t) (config : GovernorConfig.t) : StatusOr (BenchmarkResult.t * Z) :=
  let '(r, status) :=
    (setup spec ;;
     for_each (run_flow spec) (seqZ 0 (PopulationSpec.population spec)) ;;
     modify (finish spec)) (start spec config) in
  status ;;
  mret (out r, decision_digest (governor r)).
End BenchmarkRun.

(** The two rates of a run that took some time. *)
Definition set_rates (result : BenchmarkResult.t) : BenchmarkResult.t :=
  if negb (BenchmarkResult.elapsed_micros result =? 0) then
    let seconds := Double.div (Double.of_integer (BenchmarkResult.elapsed_micros result)) (Double.of_integer 1000000) in
    result
      <| BenchmarkResult.classifications_per_second := Double.div (Double.of_integer (BenchmarkResult.decisions result)) seconds |>
      <| BenchmarkResult.samples_per_second := Double.div (Double.of_integer (BenchmarkResult.samples_accepted result)) seconds |>
  else result.

Definition run_benchmark (elapsed : Z) (spec : PopulationSpec.t) (config : GovernorConfig.t) : StatusOr BenchmarkResult.t :=
  PopulationSpec.validate spec ;;
  first ← BenchmarkRun.run_once spec config;
  let '(result, digest) := first in
  let result := result
    <| BenchmarkResult.decision_digest := digest |>
    <| BenchmarkResult.elapsed_micros := (if elapsed <? 0 then 0 else elapsed) |> in
  second ← BenchmarkRun.run_once spec config;
  let '(_, replay_digest) := second in
  mret (set_rates (result
    <| BenchmarkResult.second_run_digest := replay_digest |>
    <| BenchmarkResult.deterministic_replay := (replay_digest =? digest) |>)).
