(* ===== verification/BenchmarkFacts.v ===== *)
(** * What the benchmark does

    The random source stays in its ranges, the policy made for a population selects what its
    four thresholds select, and the books of a run balance. *)
From S2P Require Import Prelude Status Checked Tri Tick Hash OMap Flow Tables Policy PolicyFacts Impact Classification Intervention Governor GovernorFacts GovernorRuns Restore Text Double Benchmark.

(** ** The random source *)

Lemma next_u64_range state : u64_ok (snd (SeededRandom.next_u64 state)).
Proof.
  unfold SeededRandom.next_u64. cbn [snd]. set (z := wrap 64 (_ * 0x94D049BB133111EB)).
  assert (Hz : u64_ok z) by (apply wrap_range; lia). clearbody z. auto with efg lia.
Qed.

Lemma next_below_range bound state : 0 < bound -> 0 <= snd (SeededRandom.next_below bound state) < bound.
Proof.
  intros Hb. unfold SeededRandom.next_below. replace (bound =? 0) with false by lia.
  destruct (SeededRandom.next_u64 state). cbn [snd]. apply Z.mod_pos_bound. lia.
Qed.

Lemma next_in_range lo hi state : u64_ok lo -> u64_ok hi -> lo <= hi -> lo <= snd (SeededRandom.next_in lo hi state) <= hi.
Proof.
  unfold in_range. intros Hlo Hhi Hle. unfold SeededRandom.next_in. destruct (hi <=? lo) eqn:E; [cbn [snd]; lia|].
  rewrite (wrap_small 64 (hi - lo)) by ulia.
  pose proof (next_below_range (wrap 64 (hi - lo + 1)) state) as Hb.
  destruct (decide (hi - lo + 1 = 2 ^ 64)) as [E64|E64].
  - rewrite E64 in *. assert (Hw : wrap 64 (2 ^ 64) = 0) by reflexivity. rewrite Hw. unfold SeededRandom.next_below. cbn [Z.eqb snd].
    rewrite Z.add_0_r, wrap_small by ulia. lia.
  - rewrite (wrap_small 64 (hi - lo + 1)) in * by ulia.
    destruct (SeededRandom.next_below (hi - lo + 1) state) as [s z]. cbn [snd] in *. rewrite wrap_small by ulia. lia.
Qed.

(** ** The policy *)

(** Every field within the width of its type. *)
Record spec_ok (s : PopulationSpec.t) : Prop := {
  sp_mice : u64_ok (PopulationSpec.mice s);
  sp_elephants : u64_ok (PopulationSpec.elephants s);
  sp_ticks : u64_ok (PopulationSpec.ticks s);
  sp_window : u64_ok (PopulationSpec.window_ticks s);
  sp_mouse_lo : u64_ok (PopulationSpec.mouse_rate_lo s);
  sp_mouse_hi : u64_ok (PopulationSpec.mouse_rate_hi s);
  sp_elephant_lo : u64_ok (PopulationSpec.elephant_rate_lo s);
  sp_elephant_hi : u64_ok (PopulationSpec.elephant_rate_hi s);
  sp_paths : u64_ok (PopulationSpec.paths s);
  sp_protected : u32_ok (PopulationSpec.protected_bp s);
  sp_abandon : u32_ok (PopulationSpec.abandon_bp s) }.

(** What a validated population promises. *)
Record spec_sane (s : PopulationSpec.t) : Prop := {
  ss_population : 0 < PopulationSpec.population s <= kMaxBenchmarkPopulation;
  ss_windows : 0 < PopulationSpec.window_ticks s <= PopulationSpec.ticks s;
  ss_mice : 0 < PopulationSpec.mouse_rate_lo s <= PopulationSpec.mouse_rate_hi s;
  ss_elephants : PopulationSpec.mouse_rate_hi s < PopulationSpec.elephant_rate_lo s <= PopulationSpec.elephant_rate_hi s;
  ss_paths : 0 < PopulationSpec.paths s <= kMaxPaths;
  ss_complexity : 0 < PopulationSpec.policy_complexity s <= 24 }.

Lemma validate_sane s : spec_ok s -> 0 <= PopulationSpec.policy_complexity s ->
  PopulationSpec.validate s = Val tt -> spec_sane s.
Proof.
  intros [] Hc H. unfold PopulationSpec.validate in H. inv_status H.
  assert (u64_ok (PopulationSpec.population s)) by (apply wrap_range; lia).
  unfold in_range in *. split; lia.
Qed.

(** The value of a threshold takes no part in the validation of a rule. *)
Lemma chain_validates a b c n : (n < 24)%nat ->
  RuleSet.validate (chain_leaves (leaf <$> [Threshold.mk ThresholdKind.CumulativeBytes a ServiceClass.Unknown;
    Threshold.mk ThresholdKind.DurationTicks b ServiceClass.Unknown; Threshold.mk ThresholdKind.SustainedRate c ServiceClass.Unknown;
    Threshold.mk ThresholdKind.ShareOfCapacity 300 ServiceClass.Unknown] ++ replicate n (Threshold.mk ThresholdKind.Always 0 ServiceClass.Unknown))) = Val tt.
Proof.
  intros Hn. do 24 (destruct n as [|n]; [vm_compute; reflexivity|]). lia.
Qed.

Lemma benchmark_rules_validate spec : 0 < PopulationSpec.policy_complexity spec <= 24 ->
  RuleSet.validate (benchmark_rules spec) = Val tt.
Proof. intros Hc. apply chain_validates. lia. Qed.

Lemma conjunction_always m n : forall acc,
  foldl (fun acc th => tri_and acc (Threshold.evaluate th m)) acc (replicate n (Threshold.mk ThresholdKind.Always 0 ServiceClass.Unknown)) = acc.
Proof. induction n as [|n IH]; intros acc; cbn [replicate foldl]; [done|]. rewrite IH. by destruct acc. Qed.

(** Arithmetic of the generated figures stays below 64 bits. *)
Record spec_fits (s : PopulationSpec.t) : Prop := {
  sf_rate : (PopulationSpec.mouse_rate_hi s + PopulationSpec.elephant_rate_lo s) * 1000 < 2 ^ 64;
  sf_volume : PopulationSpec.elephant_rate_hi s * (PopulationSpec.ticks s + PopulationSpec.window_ticks s) < 2 ^ 64;
  sf_ticks : PopulationSpec.ticks s * 8 + 2000 < 2 ^ 64 }.

Definition rate_threshold (s : PopulationSpec.t) : Z :=
  (PopulationSpec.mouse_rate_hi s + PopulationSpec.elephant_rate_lo s) / 2 * 1000.

Lemma benchmark_thresholds_exact s : spec_ok s -> spec_sane s -> spec_fits s ->
  benchmark_thresholds s = [
    Threshold.mk ThresholdKind.CumulativeBytes (PopulationSpec.elephant_rate_lo s * PopulationSpec.window_ticks s) ServiceClass.Unknown;
    Threshold.mk ThresholdKind.DurationTicks (PopulationSpec.window_ticks s * 2) ServiceClass.Unknown;
    Threshold.mk ThresholdKind.SustainedRate (rate_threshold s) ServiceClass.Unknown;
    Threshold.mk ThresholdKind.ShareOfCapacity 300 ServiceClass.Unknown ] ++
  replicate (Z.to_nat (PopulationSpec.policy_complexity s - 1)) (Threshold.mk ThresholdKind.Always 0 ServiceClass.Unknown).
Proof.
  intros [] [] []. unfold benchmark_thresholds, sustained_rate_threshold, rate_threshold, in_range in *. change kKiloTickScale with 1000.
  assert (Hd : 0 <= (PopulationSpec.mouse_rate_hi s + PopulationSpec.elephant_rate_lo s) / 2 <= PopulationSpec.mouse_rate_hi s + PopulationSpec.elephant_rate_lo s)
    by (split; [apply Z.div_pos; lia|apply Z.div_le_upper_bound; lia]).
  rewrite (wrap_small 64 (_ + _)) by (unfold in_range; lia). rewrite !wrap_small by (unfold in_range; nia). reflexivity.
Qed.

(** What the enter rule of the benchmark is meant to select. *)
Definition selected (s : PopulationSpec.t) (m : FlowMeasurements.t) : bool :=
  (FlowMeasurements.cumulative_bytes m >=? PopulationSpec.elephant_rate_lo s * PopulationSpec.window_ticks s) &&
  (FlowMeasurements.duration_ticks m >=? PopulationSpec.window_ticks s * 2) &&
  (FlowMeasurements.sustained_rate m >=? rate_threshold s) &&
  (FlowMeasurements.share_of_capacity m >=? 300).

Definition measured (m : FlowMeasurements.t) : Prop :=
  FlowMeasurements.evidence_present m = true /\ FlowMeasurements.evidence_contiguous m = true /\
  FlowMeasurements.capacity_known m = true.

Lemma benchmark_rules_meaning s m : spec_ok s -> spec_sane s -> spec_fits s -> measured m ->
  meaning (benchmark_rules s) m = tri_from_bool (selected s m).
Proof.
  intros Ho Hs Hf (He & Hc & Hk). unfold benchmark_rules. pose proof (ss_complexity s Hs) as Hn.
  rewrite (benchmark_thresholds_exact s Ho Hs Hf). set (n := Z.to_nat (_ - 1)).
  assert (n < 24)%nat by lia. rewrite chain_meaning; [|cbn [length app]; rewrite ?length_replicate..].
  - unfold conjunction. rewrite foldl_app, conjunction_always. cbn [foldl].
    unfold Threshold.evaluate, Threshold.when_known. cbn [Threshold.kind Threshold.value]. rewrite He, Hc, Hk. cbn [andb negb].
    unfold selected. by destruct (_ >=? _), (_ >=? _), (_ >=? _), (_ >=? _).
  - lia.
  - lia.
  - unfold kMaxRuleDepth. lia.
Qed.

(** C40: The policy of the benchmark. For a validated population whose figures fit into 64 bits the
    policy is made, is valid as a policy document, and its enter rule, evaluated on any measured
    flow, holds exactly when volume, duration, sustained rate and share all reach their thresholds,
    however many padding nodes the complexity asks for. *)
Theorem benchmark_policy_selects s id generation issued validity :
  spec_ok s -> PopulationSpec.validate s = Val tt -> 0 <= PopulationSpec.policy_complexity s -> spec_fits s ->
  u64_ok issued -> 0 < validity -> issued + validity < 2 ^ 64 -> id <> 0 -> generation <> 0 ->
  exists p, make_benchmark_policy s id generation issued validity = Val p /\
    PolicyDocument.validate p = Val tt /\
    forall m trace, measured m -> snd (PolicyDocument.evaluate_enter p m trace) = tri_from_bool (selected s m).
Proof.
  intros Ho Hv Hc Hf Hi Hd He Hid Hg. pose proof (validate_sane s Ho Hc Hv) as Hs.
  pose proof (benchmark_rules_validate s (ss_complexity s Hs)) as Hr.
  assert (Hw : make_validity issued validity = Val (ValidityWindow.mk issued (issued + validity))).
  { unfold make_validity. replace (validity =? 0) with false by lia. rewrite add_overflow_spec by ulia.
    by replace (_ <? _) with true by lia. }
  unfold make_benchmark_policy. rewrite Hv. cbn [mbind StatusOr_bind]. rewrite Hr. cbn [mbind StatusOr_bind]. rewrite Hw. cbn [mbind StatusOr_bind].
  set (p := PolicyDocument.finalize _).
  assert (Hp : PolicyDocument.validate p = Val tt).
  { unfold PolicyDocument.validate. apply refuse_if_bind. split; [cbn; unfold id_valid; lia|].
    apply refuse_if_bind. split; [cbn; unfold id_valid; lia|].
    apply StatusOr_bind_Val. exists tt. split; [exact Hr|]. apply StatusOr_bind_Val. exists tt. split; [reflexivity|].
    apply StatusOr_bind_Val. exists tt. split; [reflexivity|]. apply StatusOr_bind_Val. exists tt. split.
    { unfold IntentAuthorization.validate. cbn. destruct Hs. by replace (PopulationSpec.ticks s =? 0) with false by lia. }
    apply refuse_if_bind. split; [cbn; unfold ValidityWindow.well_formed; cbn; lia|].
    apply refuse_if_bind. split; [reflexivity|]. apply refuse_if_bind. split; [reflexivity|]. apply refuse_if_ok.
    unfold p, PolicyDocument.finalize. cbn [update PolicyDocument.digest]. set (d := PolicyDocument.canonical_digest _). clearbody d.
    cbn. destruct (d =? 0) eqn:E; [done|exact E]. }
  rewrite Hp. exists p. split; [reflexivity|]. split; [done|].
  intros m trace Hm. unfold PolicyDocument.evaluate_enter. rewrite evaluate_meaning. by apply benchmark_rules_meaning.
Qed.

(** The rate threshold lets every elephant rate through, and keeps every mouse rate out exactly
    when a rate lies between the two ranges. *)
Theorem rate_threshold_separates s : spec_sane s ->
  (forall rate, PopulationSpec.elephant_rate_lo s <= rate -> rate_threshold s <= rate * 1000) /\
  ((forall rate, rate <= PopulationSpec.mouse_rate_hi s -> rate * 1000 < rate_threshold s) <->
   PopulationSpec.mouse_rate_hi s + 1 < PopulationSpec.elephant_rate_lo s).
Proof.
  intros []. unfold rate_threshold.
  pose proof (Z.div_mod (PopulationSpec.mouse_rate_hi s + PopulationSpec.elephant_rate_lo s) 2 ltac:(lia)) as E.
  pose proof (Z.mod_pos_bound (PopulationSpec.mouse_rate_hi s + PopulationSpec.elephant_rate_lo s) 2 ltac:(lia)) as Hr.
  split; [intros rate Hrate; lia|]. split.
  - intros H. specialize (H (PopulationSpec.mouse_rate_hi s) ltac:(lia)). lia.
  - intros H rate Hrate. lia.
Qed.

(** Adjacent ranges are accepted as separable, and a population of one mouse ends with one
    elephant. *)
Definition adjacent_population : PopulationSpec.t :=
  PopulationSpec.mk 1 0 7 12 4 64 64 65 65 1 1000 0 1 1 1 0 0 0.
Definition adjacent_run : StatusOr (BenchmarkResult.t * Z) :=
  Eval vm_compute in BenchmarkRun.run_once adjacent_population GovernorConfig.default.
Lemma adjacent_run_eq : BenchmarkRun.run_once adjacent_population GovernorConfig.default = adjacent_run.
Proof. vm_compute. reflexivity. Qed.

Example adjacent_ranges_not_separated :
  PopulationSpec.validate adjacent_population = Val tt /\
  exists o digest, BenchmarkRun.run_once adjacent_population GovernorConfig.default = Val (o, digest) /\
    BenchmarkResult.mice o = 1 /\ BenchmarkResult.elephants o = 0 /\ BenchmarkResult.final_elephants o = 1.
Proof. split; [reflexivity|]. rewrite adjacent_run_eq. eexists _, _. split; [reflexivity|]. split; [reflexivity|]. by split. Qed.

(** ** The books of a run *)

Record balanced (o : BenchmarkResult.t) : Prop := {
  ba_submitted : BenchmarkResult.samples_submitted o =
    wrap 64 (BenchmarkResult.samples_accepted o + BenchmarkResult.samples_rejected o);
  ba_decisions : BenchmarkResult.decisions o = BenchmarkResult.samples_accepted o;
  ba_states : BenchmarkResult.decisions o =
    wrap 64 (BenchmarkResult.classified_elephant o + BenchmarkResult.classified_not_elephant o +
             BenchmarkResult.classified_unknown o + BenchmarkResult.classified_suspended o) }.

Lemma wrap_inc a b : wrap 64 (inc64 a + b) = inc64 (wrap 64 (a + b)).
Proof. unfold inc64, wrap. rewrite Zplus_mod_idemp_l, Zplus_mod_idemp_l. f_equal. lia. Qed.

(** A sum one of whose terms was counted up. *)
Ltac counted :=
  match goal with
  | |- _ = wrap 64 ?e =>
      match e with
      | context C [inc64 ?x] =>
          let e0 := context C [x] in
          replace e with (inc64 x + (e0 - x)) by lia; rewrite wrap_inc; replace (x + (e0 - x)) with e0 by lia; congruence
      end
  | _ => congruence
  end.

Lemma count_sample_balanced decision o : balanced o ->
  balanced (BenchmarkResult.count_sample decision o) /\
  BenchmarkResult.samples_submitted (BenchmarkResult.count_sample decision o) = inc64 (BenchmarkResult.samples_submitted o).
Proof.
  destruct o. intros []. cbn in *. destruct decision as [d|c]; cbn.
  - destruct (FlowDecision.evidence_duplicate d), (FlowClassification.state _); cbn; (split; [split; cbn; counted|done]).
  - split; [split; cbn; counted|done].
Qed.

(** A part of the run that submits [n] samples. *)
Definition submits (n : Z) (r r' : BenchmarkRun.t) : Prop :=
  balanced (BenchmarkRun.out r) ->
  balanced (BenchmarkRun.out r') /\
  BenchmarkResult.samples_submitted (BenchmarkRun.out r') = wrap 64 (BenchmarkResult.samples_submitted (BenchmarkRun.out r) + n).

Lemma submits_none r r' : BenchmarkRun.out r' = BenchmarkRun.out r -> submits 0 r r'.
Proof.
  intros E Hb. rewrite E. split; [done|]. rewrite Z.add_0_r. destruct Hb as [Hs _ _]. rewrite Hs at 2. by rewrite wrap_wrap.
Qed.

Lemma submits_trans n k r1 r2 r3 : submits n r1 r2 -> submits k r2 r3 -> submits (n + k) r1 r3.
Proof.
  intros H12 H23 Hb. destruct (H12 Hb) as [Hb2 E2]. destruct (H23 Hb2) as [Hb3 E3]. split; [done|].
  rewrite E3, E2. unfold wrap. rewrite Zplus_mod_idemp_l. f_equal. lia.
Qed.

Lemma submits_one sample r : submits 1 r (BenchmarkRun.submit sample r).
Proof.
  unfold BenchmarkRun.submit. destruct (Governor.submit_evidence sample (BenchmarkRun.governor r)) as [g d].
  intros Hb. cbn. by apply count_sample_balanced.
Qed.

Lemma windows_submit spec p n : forall w cumulative r r',
  BenchmarkRun.windows_loop spec p n w cumulative r = (r', Val tt) -> submits (Z.of_nat n) r r'.
Proof.
  induction n as [|n IH]; intros w cumulative r r'; cbn [BenchmarkRun.windows_loop].
  - intros [= ->]. by apply submits_none.
  - intros H. apply M_bind_Val in H as (r1 & sample & Hl & H). destruct (benchmark_sample _ _ _ _) as [s0|c]; [|done].
    injection Hl as <- <-. apply M_bind_Val in H as (r2 & [] & Hm & H). injection Hm as <-.
    replace (Z.of_nat (S n)) with (1 + Z.of_nat n) by lia. eapply submits_trans; [apply submits_one|by eapply IH].
Qed.

Lemma draw_windows spec index random : PopulationSpec.abandon_bp spec = 0 ->
  FlowProfile.effective_windows (snd (FlowProfile.draw spec index random)) = window_count spec.
Proof.
  intros Ha. unfold FlowProfile.draw. destruct (rate_for _ _ _) as [r1 rate]. destruct (FlowProfile.chance _ r1) as [r2 b].
  unfold FlowProfile.chance. by rewrite Ha.
Qed.

Lemma flow_submits spec index r r' : BenchmarkRun.run_flow spec index r = (r', Val tt) ->
  exists n, submits n r r' /\ (PopulationSpec.abandon_bp spec = 0 -> 0 <= window_count spec -> n = window_count spec).
Proof.
  unfold BenchmarkRun.run_flow. pose proof (draw_windows spec index (BenchmarkRun.random r)) as Hw.
  destruct (FlowProfile.draw _ _ _) as [random' p]. cbn [snd] in Hw. intros H. apply windows_submit in H.
  eexists. split; [exact H|]. intros Ha Hc. rewrite (Hw Ha). lia.
Qed.

Lemma population_submits spec indices : forall r r',
  for_each (BenchmarkRun.run_flow spec) indices r = (r', Val tt) ->
  exists n, submits n r r' /\ (PopulationSpec.abandon_bp spec = 0 -> 0 <= window_count spec -> n = size_of indices * window_count spec).
Proof.
  induction indices as [|index indices IH]; intros r r' H; cbn [for_each] in H.
  - injection H as <-. exists 0. split; [by apply submits_none|done].
  - apply M_bind_Val in H as (r1 & [] & H1 & H2). apply flow_submits in H1 as (n1 & H1 & E1). apply IH in H2 as (n2 & H2 & E2).
    exists (n1 + n2). split; [by eapply submits_trans|]. intros Ha Hc. rewrite (E1 Ha Hc), (E2 Ha Hc). unfold size_of. cbn [length]. lia.
Qed.

(** *** What does not submit *)

Definition keeps_out {A} (m : M BenchmarkRun.t A) : Prop := forall r, BenchmarkRun.out (fst (m r)) = BenchmarkRun.out r.

Lemma keeps_out_bind {A B} (m : M BenchmarkRun.t A) (k : A -> M BenchmarkRun.t B) : keeps_out m -> (forall x, keeps_out (k x)) -> keeps_out (m ≫= k).
Proof.
  intros Hm Hk r. unfold mbind, M_bind. pose proof (Hm r) as E. destruct (m r) as [r1 [x|c]]; [|exact E]. by rewrite Hk.
Qed.

Lemma keeps_out_lift {A} (x : StatusOr A) : keeps_out (lift x).
Proof. by intros r. Qed.

Lemma keeps_out_governor {A} (m : M Governor.t A) : keeps_out (on BenchmarkRun.governor m).
Proof. intros r. unfold on. destruct (m _) as [g x]. done. Qed.

Lemma keeps_out_each {A} (f : A -> M BenchmarkRun.t unit) xs : (forall x, keeps_out (f x)) -> keeps_out (for_each f xs).
Proof. intros Hf. induction xs as [|x xs IH]; [by intros r|]. apply keeps_out_bind; [apply Hf|by intros []]. Qed.

Lemma keeps_out_setup spec : keeps_out (BenchmarkRun.setup spec).
Proof.
  unfold BenchmarkRun.setup.
  repeat first [ apply keeps_out_lift | apply keeps_out_governor | apply keeps_out_bind; [|intros ?] | apply keeps_out_each; intros ? ].
Qed.

(** The counters of the samples, which the end of the run leaves alone. *)
Definition books (o : BenchmarkResult.t) : list Z := [
  BenchmarkResult.samples_submitted o; BenchmarkResult.samples_accepted o; BenchmarkResult.samples_rejected o;
  BenchmarkResult.decisions o; BenchmarkResult.classified_elephant o; BenchmarkResult.classified_not_elephant o;
  BenchmarkResult.classified_unknown o; BenchmarkResult.classified_suspended o ].

Lemma books_balanced o o' : books o' = books o -> balanced o -> balanced o'.
Proof. destruct o, o'. cbn. intros [= -> -> -> -> -> -> -> ->] []. by split. Qed.

Lemma foldl_books {A S} (f : S -> A -> S) (view : S -> list Z) : (forall s x, view (f s x) = view s) ->
  forall xs s, view (foldl f s xs) = view s.
Proof. intros Hf xs. induction xs as [|x xs IH]; intros s; [done|]. cbn [foldl]. by rewrite IH. Qed.

Lemma count_intent_books o intent : books (BenchmarkResult.count_intent o intent) = books o.
Proof. unfold BenchmarkResult.count_intent. by destruct (GovernanceIntent.state intent). Qed.

Lemma sweep_books now r : books (BenchmarkRun.out (BenchmarkRun.sweep now r)) = books (BenchmarkRun.out r).
Proof. unfold BenchmarkRun.sweep. destruct (Governor.tick _ _) as [g batch]. by destruct (ok batch). Qed.

Lemma classify_final_books now r key : books (BenchmarkRun.out (BenchmarkRun.classify_final now r key)) = books (BenchmarkRun.out r).
Proof.
  unfold BenchmarkRun.classify_final. destruct (Governor.classification _ _ _ _) as [g [cls|c]]; [|done].
  cbn. by destruct (FlowClassification.state cls).
Qed.

Lemma finish_books spec r : books (BenchmarkRun.out (BenchmarkRun.finish spec r)) = books (BenchmarkRun.out r).
Proof.
  unfold BenchmarkRun.finish. cbv zeta. set (r1 := BenchmarkRun.sweep _ r). set (r2 := foldl _ r1 _).
  transitivity (books (BenchmarkRun.out r2)).
  - exact (foldl_books BenchmarkResult.count_intent books count_intent_books _ (BenchmarkRun.out r2)).
  - unfold r2. rewrite (foldl_books _ (fun r => books (BenchmarkRun.out r)) (classify_final_books (BenchmarkRun.final_tick spec))).
    apply sweep_books.
Qed.

(** The books of a benchmark run balance: every sample submitted was accepted or rejected, every
    accepted one was a decision, every decision is counted under exactly one state, and without
    abandoned flows the number of samples is the population times the number of windows (all at
    64 bit width). *)
Theorem benchmark_books_balance spec config o digest :
  BenchmarkRun.run_once spec config = Val (o, digest) ->
  balanced o /\
  (PopulationSpec.abandon_bp spec = 0 -> 0 <= window_count spec ->
   BenchmarkResult.samples_submitted o = wrap 64 (PopulationSpec.population spec * window_count spec)).
Proof.
  unfold BenchmarkRun.run_once. set (r0 := BenchmarkRun.start spec config).
  destruct ((BenchmarkRun.setup spec ;; _) r0) as [r status] eqn:E. intros H.
  apply StatusOr_bind_Val in H as ([] & -> & H). injection H as <- _.
  apply M_bind_Val in E as (r1 & [] & E1 & E). apply M_bind_Val in E as (r2 & [] & E2 & E3). injection E3 as <-.
  pose proof (keeps_out_setup spec r0) as Hq. rewrite E1 in Hq. cbn [fst] in Hq.
  apply population_submits in E2 as (n & Hn & Hcount).
  assert (Hb : balanced (BenchmarkRun.out r1)) by (rewrite Hq; by split).
  destruct (Hn Hb) as [Hb2 Hs]. split; [by eapply books_balanced; [apply finish_books|]|].
  intros Ha Hc. assert (Hf : BenchmarkResult.samples_submitted (BenchmarkRun.out (BenchmarkRun.finish spec r2)) =
    BenchmarkResult.samples_submitted (BenchmarkRun.out r2)) by (pose proof (finish_books spec r2) as Hf; by apply (f_equal head) in Hf; injection Hf).
  rewrite Hf, Hs, Hq, (Hcount Ha Hc). cbn. unfold size_of. rewrite length_seqZ.
  assert (0 <= PopulationSpec.population spec) by (unfold PopulationSpec.population, wrap; apply Z.mod_pos_bound; lia).
  by rewrite Z2Nat.id.
Qed.

(** ** Witnesses *)

Lemma benchmark_books_balance_witness :
  exists o digest, BenchmarkRun.run_once adjacent_population GovernorConfig.default = Val (o, digest) /\
    balanced o /\ BenchmarkResult.samples_submitted o = 3.
Proof.
  destruct (BenchmarkRun.run_once adjacent_population GovernorConfig.default) as [[o digest]|c] eqn:E.
  - exists o, digest. split; [reflexivity|].
    destruct (benchmark_books_balance adjacent_population GovernorConfig.default o digest E) as [Hb Hs].
    split; [exact Hb|]. rewrite Hs; [reflexivity|reflexivity|vm_compute; congruence].
  - exfalso. rewrite adjacent_run_eq in E. discriminate E.
Defined.

Lemma benchmark_policy_selects_witness :
  exists p, make_benchmark_policy PopulationSpec.default 7 1 1000 576 = Err StatusCode.InvalidArgument /\
    make_benchmark_policy adjacent_population 7 1 1000 576 = Val p /\ PolicyDocument.validate p = Val tt.
Proof.
  destruct (benchmark_policy_selects adjacent_population 7 1 1000 576) as (p & Hp & Hv & _).
  - split; vm_compute; split; congruence.
  - reflexivity.
  - vm_compute. congruence.
  - split; vm_compute; congruence.
  - vm_compute; split; congruence.
  - lia.
  - lia.
  - lia.
  - lia.
  - exists p. split; [reflexivity|]. by split.
Defined.
