(* ===== verification/BenchmarkReport.v ===== *)
(** * The renderings of a benchmark result ([src/benchmark.cpp], lines 395 to 518)

    The JSON report and the text report are written piece by piece, as explanations are; the two
    rates go through [append_json_number]. [None] would be an undefined conversion of a rate. *)
From Stdlib Require Import String.
From S2P Require Import Prelude Status Checked Tri Tick Hash OMap Flow Tables Policy PolicyFacts Impact Classification Intervention Governor GovernorFacts GovernorRuns Restore Text TextFacts Double Json Names Explain ExplainFacts Benchmark BenchmarkFacts.

#[local] Open Scope string_scope.
#[local] Open Scope list_scope.
#[local] Open Scope Z_scope.

(** ** Rendering *)

(** [field(out, name, value, false)]. *)
Definition report_field (name : string) (value : Z) : list chunk := [key "  " name; Num value; lit ","; newline].

Definition json_counts (r : BenchmarkResult.t) : list chunk := [
  lit "{"; newline;
  key "  " "population_kind"; Str (text "SYNTHETIC"); lit ","; newline;
  key "  " "physical_network"; flag false; lit ","; newline ] ++
  report_field "flows" (BenchmarkResult.flows r) ++
  report_field "mice" (BenchmarkResult.mice r) ++
  report_field "elephants" (BenchmarkResult.elephants r) ++
  report_field "samples_submitted" (BenchmarkResult.samples_submitted r) ++
  report_field "samples_accepted" (BenchmarkResult.samples_accepted r) ++
  report_field "samples_duplicate" (BenchmarkResult.samples_duplicate r) ++
  report_field "samples_rejected" (BenchmarkResult.samples_rejected r) ++
  report_field "decisions" (BenchmarkResult.decisions r) ++
  report_field "classified_elephant" (BenchmarkResult.classified_elephant r) ++
  report_field "classified_not_elephant" (BenchmarkResult.classified_not_elephant r) ++
  report_field "classified_unknown" (BenchmarkResult.classified_unknown r) ++
  report_field "classified_suspended" (BenchmarkResult.classified_suspended r) ++
  report_field "final_elephants" (BenchmarkResult.final_elephants r) ++
  report_field "final_not_elephants" (BenchmarkResult.final_not_elephants r) ++
  report_field "final_unknown" (BenchmarkResult.final_unknown r) ++
  report_field "final_suspended" (BenchmarkResult.final_suspended r) ++
  report_field "intents_authorized" (BenchmarkResult.intents_authorized r) ++
  report_field "intents_clamped" (BenchmarkResult.intents_clamped r) ++
  report_field "intents_suppressed" (BenchmarkResult.intents_suppressed r) ++
  report_field "intents_fenced" (BenchmarkResult.intents_fenced r) ++
  report_field "intents_revoked" (BenchmarkResult.intents_revoked r) ++
  report_field "ticks" (BenchmarkResult.ticks r) ++
  report_field "elapsed_micros" (BenchmarkResult.elapsed_micros r) ++
  [ key "  " "classifications_per_second" ].

Definition json_between : list chunk := [ lit ","; newline; key "  " "samples_per_second" ].

Definition json_digests (r : BenchmarkResult.t) : list chunk := [ lit ","; newline ] ++
  report_field "decision_digest" (BenchmarkResult.decision_digest r) ++
  report_field "second_run_digest" (BenchmarkResult.second_run_digest r) ++
  [ key "  " "deterministic_replay"; flag (BenchmarkResult.deterministic_replay r); newline; lit "}"; newline ].

(** The three stretches of a report with the rates between them. *)
Definition with_rates (r : BenchmarkResult.t) (first between last : list chunk) : option (list Z) :=
  out ← append_json_number (build first) (BenchmarkResult.classifications_per_second r) 2;
  out ← append_json_number (foldl write_chunk out between) (BenchmarkResult.samples_per_second r) 2;
  Some (foldl write_chunk out last).

Definition render_benchmark_json (r : BenchmarkResult.t) : option (list Z) :=
  with_rates r (json_counts r) json_between (json_digests r).

Definition text_counts (r : BenchmarkResult.t) : list chunk := [
  lit "population: SYNTHETIC (no physical network was exercised)"; newline;
  lit "flows="; Num (BenchmarkResult.flows r);
  lit " mice="; Num (BenchmarkResult.mice r);
  lit " elephants="; Num (BenchmarkResult.elephants r); newline;
  lit "samples submitted="; Num (BenchmarkResult.samples_submitted r);
  lit " accepted="; Num (BenchmarkResult.samples_accepted r);
  lit " duplicate="; Num (BenchmarkResult.samples_duplicate r);
  lit " rejected="; Num (BenchmarkResult.samples_rejected r); newline;
  lit "decisions="; Num (BenchmarkResult.decisions r);
  lit " elephant="; Num (BenchmarkResult.classified_elephant r);
  lit " not_elephant="; Num (BenchmarkResult.classified_not_elephant r);
  lit " unknown="; Num (BenchmarkResult.classified_unknown r);
  lit " suspended="; Num (BenchmarkResult.classified_suspended r);
  lit " (decision counts)"; newline;
  lit "flows final: elephants="; Num (BenchmarkResult.final_elephants r);
  lit " not_elephants="; Num (BenchmarkResult.final_not_elephants r);
  lit " unknown="; Num (BenchmarkResult.final_unknown r);
  lit " suspended="; Num (BenchmarkResult.final_suspended r); newline;
  lit "elapsed_us="; Num (BenchmarkResult.elapsed_micros r);
  lit " classifications_per_second=" ].

Definition text_digests (r : BenchmarkResult.t) : list chunk := [ newline;
  lit "decision_digest="; Num (BenchmarkResult.decision_digest r);
  lit " replay_digest="; Num (BenchmarkResult.second_run_digest r);
  lit " deterministic="; flag (BenchmarkResult.deterministic_replay r); newline ].

Definition render_benchmark_text (r : BenchmarkResult.t) : option (list Z) :=
  with_rates r (text_counts r) [ lit " samples_per_second=" ] (text_digests r).

(** ** The document *)

(** A rate as JSON: hundredths, or [null]. *)
Definition number_json (value : Double.t) : json :=
  match hundredths value with Some n => JDecimal n 2 | None => JNull end.

Lemma spells_rate value : rate_ok value -> spells (number_text value) (number_json value).
Proof.
  intros Hv. unfold number_text, number_json. destruct (hundredths value) as [n|] eqn:E; [|apply spells_null].
  pose proof (hundredths_range value n Hv E) as Hn. unfold fixed_text.
  destruct (to_fixed_spec n 2 Hn ltac:(lia)) as (frac & -> & Hd & Hl & Hm).
  assert (Hq : u64_ok (n / 100)).
  { unfold in_range in *. split; [apply Z.div_pos; lia|]. apply Z.div_lt_upper_bound; lia. }
  pose proof (spells_decimal (n / 100) frac Hq Hd) as H. rewrite Hl, Hm in H. change (10 ^ Z.of_nat 2) with 100 in *.
  replace (n / 100 * 100 + n mod 100) with n in H by (rewrite (Z.div_mod n 100) at 1; lia). apply H. by destruct frac.
Qed.

Definition rfield ws name value := field ws name (number_text value) (number_json value).

Definition benchmark_fields (r : BenchmarkResult.t) : list (list Z * piece json) := [
  sfield (nl 2) "population_kind" (text "SYNTHETIC");
  bfield (nl 2) "physical_network" false;
  nfield (nl 2) "flows" (BenchmarkResult.flows r);
  nfield (nl 2) "mice" (BenchmarkResult.mice r);
  nfield (nl 2) "elephants" (BenchmarkResult.elephants r);
  nfield (nl 2) "samples_submitted" (BenchmarkResult.samples_submitted r);
  nfield (nl 2) "samples_accepted" (BenchmarkResult.samples_accepted r);
  nfield (nl 2) "samples_duplicate" (BenchmarkResult.samples_duplicate r);
  nfield (nl 2) "samples_rejected" (BenchmarkResult.samples_rejected r);
  nfield (nl 2) "decisions" (BenchmarkResult.decisions r);
  nfield (nl 2) "classified_elephant" (BenchmarkResult.classified_elephant r);
  nfield (nl 2) "classified_not_elephant" (BenchmarkResult.classified_not_elephant r);
  nfield (nl 2) "classified_unknown" (BenchmarkResult.classified_unknown r);
  nfield (nl 2) "classified_suspended" (BenchmarkResult.classified_suspended r);
  nfield (nl 2) "final_elephants" (BenchmarkResult.final_elephants r);
  nfield (nl 2) "final_not_elephants" (BenchmarkResult.final_not_elephants r);
  nfield (nl 2) "final_unknown" (BenchmarkResult.final_unknown r);
  nfield (nl 2) "final_suspended" (BenchmarkResult.final_suspended r);
  nfield (nl 2) "intents_authorized" (BenchmarkResult.intents_authorized r);
  nfield (nl 2) "intents_clamped" (BenchmarkResult.intents_clamped r);
  nfield (nl 2) "intents_suppressed" (BenchmarkResult.intents_suppressed r);
  nfield (nl 2) "intents_fenced" (BenchmarkResult.intents_fenced r);
  nfield (nl 2) "intents_revoked" (BenchmarkResult.intents_revoked r);
  nfield (nl 2) "ticks" (BenchmarkResult.ticks r);
  nfield (nl 2) "elapsed_micros" (BenchmarkResult.elapsed_micros r);
  rfield (nl 2) "classifications_per_second" (BenchmarkResult.classifications_per_second r);
  rfield (nl 2) "samples_per_second" (BenchmarkResult.samples_per_second r);
  nfield (nl 2) "decision_digest" (BenchmarkResult.decision_digest r);
  nfield (nl 2) "second_run_digest" (BenchmarkResult.second_run_digest r);
  bfield (nl 2) "deterministic_replay" (BenchmarkResult.deterministic_replay r) ].

Definition benchmark_json (r : BenchmarkResult.t) : json := JObject (field_meaning <$> benchmark_fields r).

(** The counts of a result: every member of type [u64]. *)
Definition counts (r : BenchmarkResult.t) : list Z := [
  BenchmarkResult.flows r; BenchmarkResult.mice r; BenchmarkResult.elephants r;
  BenchmarkResult.samples_submitted r; BenchmarkResult.samples_accepted r; BenchmarkResult.samples_duplicate r;
  BenchmarkResult.samples_rejected r; BenchmarkResult.decisions r; BenchmarkResult.classified_elephant r;
  BenchmarkResult.classified_not_elephant r; BenchmarkResult.classified_unknown r; BenchmarkResult.classified_suspended r;
  BenchmarkResult.final_elephants r; BenchmarkResult.final_not_elephants r; BenchmarkResult.final_unknown r;
  BenchmarkResult.final_suspended r; BenchmarkResult.intents_authorized r; BenchmarkResult.intents_clamped r;
  BenchmarkResult.intents_suppressed r; BenchmarkResult.intents_fenced r; BenchmarkResult.intents_revoked r;
  BenchmarkResult.ticks r; BenchmarkResult.elapsed_micros r; BenchmarkResult.decision_digest r;
  BenchmarkResult.second_run_digest r ].
Definition counts_ok (r : BenchmarkResult.t) : Prop := Forall u64_ok (counts r).

Record result_ok (r : BenchmarkResult.t) : Prop := {
  ro_counts : counts_ok r;
  ro_classifications : rate_ok (BenchmarkResult.classifications_per_second r);
  ro_samples : rate_ok (BenchmarkResult.samples_per_second r) }.

Lemma with_rates_bytes r first between last :
  rate_ok (BenchmarkResult.classifications_per_second r) -> rate_ok (BenchmarkResult.samples_per_second r) ->
  with_rates r first between last = Some (mjoin (chunk_bytes <$> first) ++ number_text (BenchmarkResult.classifications_per_second r) ++
    mjoin (chunk_bytes <$> between) ++ number_text (BenchmarkResult.samples_per_second r) ++ mjoin (chunk_bytes <$> last)).
Proof.
  intros H1 H2. unfold with_rates. rewrite build_bytes, append_number by done. cbn [mbind option_bind].
  rewrite foldl_write, append_number by done. cbn [mbind option_bind]. rewrite foldl_write, <- !app_assoc. done.
Qed.

Lemma report_bytes r : mjoin (chunk_bytes <$> json_counts r) ++ number_text (BenchmarkResult.classifications_per_second r) ++
    mjoin (chunk_bytes <$> json_between) ++ number_text (BenchmarkResult.samples_per_second r) ++ mjoin (chunk_bytes <$> json_digests r) =
  object_bytes (benchmark_fields r) [10] ++ [10].
Proof.
  unfold json_counts, json_between, json_digests, report_field, benchmark_fields, rfield.
  generalize (number_text (BenchmarkResult.classifications_per_second r)) (number_text (BenchmarkResult.samples_per_second r)).
  intros n1 n2. cbn [app]. same_bytes.
Qed.

(** ** Every result of a run is in range *)

Lemma inc64_ok v : u64_ok (inc64 v).
Proof. apply wrap_range. lia. Qed.

(** A change of the result that counts something. *)
Ltac opened H := unfold counts_ok, counts in H; repeat (apply Forall_cons in H as [? H]).
Ltac counted :=
  match goal with H : counts_ok _ |- _ => opened H end;
  unfold counts_ok, counts; cbn; repeat (apply List.Forall_cons; [first [assumption | apply inc64_ok]|]); exact (List.Forall_nil _).

Lemma count_decision_ok state o : counts_ok o -> counts_ok (BenchmarkResult.count_decision state o).
Proof. intros H. destruct state; counted. Qed.
Lemma count_final_ok state o : counts_ok o -> counts_ok (BenchmarkResult.count_final state o).
Proof. intros H. destruct state; counted. Qed.
Lemma count_intent_ok o intent : counts_ok o -> counts_ok (BenchmarkResult.count_intent o intent).
Proof. intros H. unfold BenchmarkResult.count_intent. destruct (GovernanceIntent.state intent); counted. Qed.
Lemma count_sample_ok decision o : counts_ok o -> counts_ok (BenchmarkResult.count_sample decision o).
Proof.
  intros H. unfold BenchmarkResult.count_sample. destruct decision as [d|]; [|counted].
  apply count_decision_ok. destruct (FlowDecision.evidence_duplicate d); counted.
Qed.

(** Nothing in a run touches the rates. *)
Definition rates (o : BenchmarkResult.t) : Double.t * Double.t :=
  (BenchmarkResult.classifications_per_second o, BenchmarkResult.samples_per_second o).
Definition out_ok (r : BenchmarkRun.t) : Prop :=
  counts_ok (BenchmarkRun.out r) /\ rates (BenchmarkRun.out r) = (Double.zero, Double.zero).
Definition keeps_ok {A} (m : M BenchmarkRun.t A) : Prop := forall r, out_ok r -> out_ok (fst (m r)).

Lemma keeps_ok_bind {A B} (m : M BenchmarkRun.t A) (k : A -> M BenchmarkRun.t B) :
  keeps_ok m -> (forall x, keeps_ok (k x)) -> keeps_ok (m ≫= k).
Proof.
  intros Hm Hk r Hr. specialize (Hm r Hr). unfold mbind, M_bind. destruct (m r) as [r1 [x|c]]; [by apply Hk|exact Hm].
Qed.

Lemma keeps_ok_out {A} (m : M BenchmarkRun.t A) : keeps_out m -> keeps_ok m.
Proof. intros Hm r Hr. unfold out_ok. by rewrite Hm. Qed.

Lemma keeps_ok_each {A} (f : A -> M BenchmarkRun.t unit) xs : (forall x, keeps_ok (f x)) -> keeps_ok (for_each f xs).
Proof. intros Hf. induction xs as [|x xs IH]; [by intros r Hr|]. cbn [for_each]. apply keeps_ok_bind; [apply Hf|done]. Qed.

Lemma submit_ok sample r : out_ok r -> out_ok (BenchmarkRun.submit sample r).
Proof.
  intros [Hc Hr]. unfold BenchmarkRun.submit. destruct (Governor.submit_evidence _ _) as [g decision]. split; simpl.
  - by apply count_sample_ok.
  - rewrite <- Hr. unfold BenchmarkResult.count_sample. destruct decision as [d|]; [|done].
    destruct (FlowDecision.evidence_duplicate d), (FlowClassification.state _); done.
Qed.

Lemma windows_ok spec p n : forall w cumulative, keeps_ok (BenchmarkRun.windows_loop spec p n w cumulative).
Proof.
  induction n as [|n IH]; intros w cumulative; [by intros r Hr|]. cbn [BenchmarkRun.windows_loop].
  apply keeps_ok_bind; [apply keeps_ok_out, keeps_out_lift|]. intros sample.
  apply keeps_ok_bind; [|intros _; apply IH]. intros r Hr. by apply submit_ok.
Qed.

Lemma flow_ok spec index : keeps_ok (BenchmarkRun.run_flow spec index).
Proof.
  intros r Hr. unfold BenchmarkRun.run_flow. destruct (FlowProfile.draw _ _ _) as [random p]. by apply windows_ok.
Qed.

Lemma foldl_keeps {A S} (P : S -> Prop) (f : S -> A -> S) xs : (forall s x, P s -> P (f s x)) -> forall s, P s -> P (foldl f s xs).
Proof. intros Hf. induction xs as [|x xs IH]; intros s Hs; [done|]. cbn [foldl]. by apply IH, Hf. Qed.

Lemma finish_ok spec r : u64_ok (PopulationSpec.mice spec) -> u64_ok (PopulationSpec.elephants spec) ->
  out_ok r -> out_ok (BenchmarkRun.finish spec r).
Proof.
  intros Hm He Hr. unfold BenchmarkRun.finish. cbv zeta.
  set (r1 := BenchmarkRun.sweep _ r). set (r2 := foldl _ r1 _). assert (H1 : out_ok r1).
  { subst r1. unfold BenchmarkRun.sweep. destruct (Governor.tick _ _) as [g batch]. destruct (ok batch); [|exact Hr].
    destruct Hr as [Hc Hq]. split; [simpl; counted|exact Hq]. }
  assert (H2 : out_ok r2).
  { subst r2. apply foldl_keeps; [|exact H1]. clear. intros r key [Hc Hq]. unfold BenchmarkRun.classify_final.
    destruct (Governor.classification _ _ _ _) as [g [cls|c]]; [|by split]. split; simpl; [by apply count_final_ok|].
    rewrite <- Hq. by destruct (FlowClassification.state cls). }
  pose (out := foldl BenchmarkResult.count_intent (BenchmarkRun.out r2) (IntentLedger.all_intents (Governor.intents_ (BenchmarkRun.governor r2)))).
  assert (H3 : counts_ok out /\ rates out = (Double.zero, Double.zero)).
  { subst out. apply (foldl_keeps (fun o => counts_ok o /\ rates o = (Double.zero, Double.zero))); [|exact H2].
    intros o i [Hc Hq]. split; [by apply count_intent_ok|]. rewrite <- Hq. unfold BenchmarkResult.count_intent. by destruct (GovernanceIntent.state i). }
  destruct H3 as [Hc Hq]. split; [|exact Hq]. assert (u64_ok (PopulationSpec.population spec)) by (apply wrap_range; lia).
  change (counts_ok (out <| BenchmarkResult.flows := PopulationSpec.population spec |> <| BenchmarkResult.mice := PopulationSpec.mice spec |>
    <| BenchmarkResult.elephants := PopulationSpec.elephants spec |> <| BenchmarkResult.counters := Governor.counters_ (BenchmarkRun.governor r2) |>)).
  clearbody out. counted.
Qed.

Lemma run_once_ok spec config o digest : u64_ok (PopulationSpec.mice spec) -> u64_ok (PopulationSpec.elephants spec) ->
  BenchmarkRun.run_once spec config = Val (o, digest) ->
  counts_ok o /\ rates o = (Double.zero, Double.zero) /\ u64_ok digest.
Proof.
  intros Hm He. unfold BenchmarkRun.run_once. set (r0 := BenchmarkRun.start spec config).
  destruct ((BenchmarkRun.setup spec ;; _) r0) as [r status] eqn:E. intros H.
  apply StatusOr_bind_Val in H as ([] & -> & H). injection H as <- <-.
  assert (Hr : out_ok r).
  { replace r with (fst ((BenchmarkRun.setup spec ;; for_each (BenchmarkRun.run_flow spec) (seqZ 0 (PopulationSpec.population spec)) ;;
      modify (BenchmarkRun.finish spec)) r0)) by (by rewrite E).
    apply keeps_ok_bind; [apply keeps_ok_out, keeps_out_setup| |by split; [repeat constructor|]]. intros _.
    apply keeps_ok_bind; [apply keeps_ok_each, flow_ok|]. intros _ r1 Hr1. by apply finish_ok. }
  destruct Hr as [Hc Hq]. split_and!; [done..|]. apply digest_range.
Qed.

Lemma rate_quotient a b c : 0 <= a -> 0 <= b -> 0 <= c ->
  rate_ok (Double.div (Double.of_integer a) (Double.div (Double.of_integer b) (Double.of_integer c))).
Proof.
  intros Ha Hb Hc. destruct (div_rounded _ _ (of_integer_rounded b Hb) (of_integer_rounded c Hc)) as [H| ->].
  - exact (div_rounded _ _ (of_integer_rounded a Ha) H).
  - right. by destruct (Double.of_integer a).
Qed.

Lemma run_benchmark_ok elapsed spec config r :
  u64_ok (PopulationSpec.mice spec) -> u64_ok (PopulationSpec.elephants spec) -> elapsed < 2 ^ 64 ->
  run_benchmark elapsed spec config = Val r -> result_ok r.
Proof.
  intros Hm He Hel H. unfold run_benchmark in H. apply StatusOr_bind_Val in H as ([] & _ & H).
  apply StatusOr_bind_Val in H as ([o digest] & H1 & H). cbv zeta in H. apply StatusOr_bind_Val in H as ([o2 digest2] & H2 & H).
  destruct (run_once_ok spec config o digest Hm He H1) as (Hc & Hq & Hd).
  destruct (run_once_ok spec config o2 digest2 Hm He H2) as (_ & _ & Hd2). injection H as <-.
  assert (Hel' : u64_ok (if elapsed <? 0 then 0 else elapsed)) by (destruct (Z.ltb_spec elapsed 0); unfold in_range; lia).
  assert (Hn : u64_ok (BenchmarkResult.decisions o) /\ u64_ok (BenchmarkResult.samples_accepted o))
    by (clear -Hc; opened Hc; by split).
  injection Hq as Hq1 Hq2. unfold set_rates. simpl. destruct (negb _); split; simpl.
  - counted.
  - apply (rate_quotient _ _ 1000000); [apply Hn|apply Hel'|lia].
  - apply (rate_quotient _ _ 1000000); [apply Hn|apply Hel'|lia].
  - counted.
  - rewrite Hq1. by left.
  - rewrite Hq2. by left.
Qed.

(** ** Properties *)

Lemma benchmark_fields_ok r : result_ok r -> Forall field_ok (benchmark_fields r).
Proof.
  intros [Hc H1 H2]. opened Hc. unfold benchmark_fields, rfield.
  fields_tac; first [apply spells_ascii, text_ascii; reflexivity | by apply spells_rate].
Qed.

(** C25: The report of a benchmark is a JSON document, whatever the population, the
    configuration and the time the run took: rendering is defined for every result of
    [run_benchmark], and reading the bytes gives back each count, both digests and the rates,
    which are hundredths, cut off, of the rounded quotients, or [null] when the quotient has no
    place in 64 bits. *)
Theorem benchmark_report_is_json (elapsed : Z) (spec : PopulationSpec.t) (config : GovernorConfig.t) (r : BenchmarkResult.t) :
  u64_ok (PopulationSpec.mice spec) -> u64_ok (PopulationSpec.elephants spec) -> elapsed < 2 ^ 64 ->
  run_benchmark elapsed spec config = Val r ->
  exists bs, render_benchmark_json r = Some bs /\ read_json bs = Some (benchmark_json r).
Proof.
  intros Hm He Hel Hr. pose proof (run_benchmark_ok elapsed spec config r Hm He Hel Hr) as Hok.
  destruct Hok as [Hc H1 H2] eqn:E. clear E. unfold render_benchmark_json. rewrite with_rates_bytes, report_bytes by done.
  eexists. split; [reflexivity|]. apply spells_document; [|apply (blank_nl 0)|discriminate].
  apply spells_object; [by apply benchmark_fields_ok|apply (blank_nl 0)].
Qed.

(** Two flows, timed at three microseconds. *)
Definition demo_result : StatusOr BenchmarkResult.t := Eval vm_compute in run_benchmark 3 adjacent_population GovernorConfig.default.
Lemma demo_result_eq : run_benchmark 3 adjacent_population GovernorConfig.default = demo_result.
Proof. vm_compute. reflexivity. Qed.

Lemma benchmark_report_is_json_witness :
  exists r bs, run_benchmark 3 adjacent_population GovernorConfig.default = Val r /\
    render_benchmark_json r = Some bs /\ read_json bs = Some (benchmark_json r) /\
    hundredths (BenchmarkResult.samples_per_second r) = Some 100000000.
Proof.
  destruct demo_result as [r|c] eqn:E; [|vm_compute in E; discriminate E].
  destruct (benchmark_report_is_json 3 adjacent_population GovernorConfig.default r) as (bs & H1 & H2).
  - vm_compute. split; congruence.
  - vm_compute. split; congruence.
  - reflexivity.
  - rewrite demo_result_eq. exact E.
  - exists r, bs. split; [rewrite demo_result_eq; exact E|]. split; [exact H1|]. split; [exact H2|].
    vm_compute in E. injection E as <-. vm_compute. reflexivity.
Defined.
