(* ===== verification/Scenario.v ===== *)
(** * Command line support of the programs ([apps/cli.hpp], [apps/cli.cpp])

    The reader of arguments and the synthetic scenario that the coordinator and the workers of
    a cluster derive from them. The usage text and the two helpers that read and write whole
    files are in Apps.v. *)
From Stdlib Require Import String.
From S2P Require Import Prelude Status Checked Tri Tick Hash OMap Flow Tables Policy Impact Classification Intervention Governor Journal Durable Service Text Names Explain Restore Benchmark.

#[local] Open Scope string_scope.
#[local] Open Scope list_scope.
#[local] Open Scope Z_scope.

(** ** Arguments *)

Module Args.
(** [values_]: names and values in the order they were given. *)
Definition t : Type := list (list Z * list Z).

Definition is_option (token : list Z) : bool := has_prefix (text "--") token.

(** [Args::Args], on the arguments after the program's name. *)
Fixpoint make (argv : list (list Z)) : t :=
  match argv with
  | [] => []
  | token :: argv =>
      if negb (is_option token) then make argv
      else
        let name := drop 2 token in
        match find_from name 61 0 with
        | Some equals => (take equals name, drop (equals + 1) name) :: make argv
        | None =>
            match argv with
            | next :: argv' =>
                if negb (is_option next) then (name, next) :: make argv'
                else (name, text "1") :: make argv
            | [] => [(name, text "1")]
            end
        end
  end.

Definition has (name : list Z) (a : t) : bool := existsb (fun entry => bool_decide (fst entry = name)) a.

(** The loop runs backwards. *)
Definition get (name fallback : list Z) (a : t) : list Z :=
  match list_find (fun entry : list Z * list Z => fst entry = name) (reverse a) with
  | Some (_, entry) => snd entry
  | None => fallback
  end.

Definition get_u64 (name : list Z) (fallback : Z) (a : t) : Z :=
  let raw := get name [] a in
  if bool_decide (raw = []) then fallback
  else match parse_u64 raw with None => fallback | Some value => value end.

Definition get_size (name : list Z) (fallback : Z) (a : t) : Z :=
  let value := get_u64 name fallback a in
  if value >? kMaxBenchmarkPopulation then fallback else value.

Definition get_bool (name : list Z) (fallback : bool) (a : t) : bool :=
  let raw := get name [] a in
  if bool_decide (raw = []) then fallback
  else if is_one_of ["1"; "true"; "yes"] raw then true
  else if is_one_of ["0"; "false"; "no"] raw then false
  else fallback.
End Args.

Definition population_from_args (args : Args.t) : PopulationSpec.t :=
  let size name fallback := Args.get_size (text name) fallback args in
  let number name fallback := Args.get_u64 (text name) fallback args in
  PopulationSpec.mk
    (size "mice" 64)
    (size "elephants" 16)
    (number "seed" 0x5EED1234)
    (number "ticks" 64)
    (number "window" 4)
    (number "mouse-rate-lo" 1)
    (number "mouse-rate-hi" 64)
    (number "elephant-rate-lo" 4096)
    (number "elephant-rate-hi" 16384)
    (size "resources" 4)
    (number "capacity" 65536)
    (number "reserved" 8192)
    (size "paths" 8)
    (size "path-resources" 2)
    (size "complexity" 1)
    (wrap 32 (number "protected-bp" 0))
    (wrap 32 (number "abandon-bp" 0))
    0.

(** ** Scenarios *)

Module ScenarioSpec.
Record t := mk {
  population : PopulationSpec.t;
  policy_id : PolicyId;
  policy_generation : Generation;
  policy_validity_ticks : Z }.

Definition validate (s : t) : Status :=
  PopulationSpec.validate (population s) ;;
  refuse_if (negb (id_valid (policy_id s)) || negb (id_valid (policy_generation s))) StatusCode.InvalidArgument ;;
  refuse_if (policy_validity_ticks s =? 0) StatusCode.InvalidArgument.
End ScenarioSpec.

Definition scenario_from_args (args : Args.t) : ScenarioSpec.t :=
  let population := population_from_args args in
  ScenarioSpec.mk population (Args.get_u64 (text "policy-id") 7 args) (Args.get_u64 (text "policy-generation") 1 args)
    (Args.get_u64 (text "policy-validity") (wrap 64 (wrap 64 (PopulationSpec.ticks population * 8) + 64)) args).

Definition kScenarioStartTick : Tick := 1000.

Definition make_provenance (boot : BootIdentity.t) (publisher : PublisherId) (sequence : Z) (at_ : Tick) : Provenance.t :=
  Provenance.mk (PublisherRef.mk publisher (BootIdentity.boot boot) (BootIdentity.epoch boot) sequence) at_ kSchemaVersion 0.

(** The validity of capacities and paths; the default one if it does not fit. *)
Definition fabric_validity (spec : ScenarioSpec.t) (at_ : Tick) : ValidityWindow.t :=
  value_or (make_validity at_ (wrap 64 (wrap 64 (ScenarioSpec.policy_validity_ticks spec +
                                          wrap 64 (PopulationSpec.ticks (ScenarioSpec.population spec) * 4)) + 64)))
    ValidityWindow.default.

Definition build_capacities (spec : ScenarioSpec.t) (at_ : Tick) (boot : BootIdentity.t) : list ResourceCapacity.t :=
  let population := ScenarioSpec.population spec in
  (fun r => ResourceCapacity.mk (r + 1) 1 (r + 1)
     (TickSpan.mk at_ (wrap 64 (at_ + PopulationSpec.ticks population + 1)))
     (wrap 64 (PopulationSpec.resource_capacity population * kKiloTickScale))
     (wrap 64 (PopulationSpec.resource_reserved population * kKiloTickScale))
     (fabric_validity spec at_) (make_provenance boot 1 (r + 1) at_)) <$> seqZ 0 (PopulationSpec.resources population).

Definition build_paths (spec : ScenarioSpec.t) (at_ : Tick) (boot : BootIdentity.t) : list PathDescriptor.t :=
  let population := ScenarioSpec.population spec in
  (fun p => PathDescriptor.mk (p + 1) 1 (path_binding population p) (fabric_validity spec at_)
     (make_provenance boot 1 (p + 2) at_)) <$> seqZ 0 (PopulationSpec.paths population).

Module SampleStream.
Record t := mk { samples : list FlowSample.t; first_flow : Z; flow_count : Z }.
#[global] Instance eta_t : Eta t := fun r => mk (samples r) (first_flow r) (flow_count r).
Definition empty : t := mk [] 0 0.
End SampleStream.

Section stream.
Context (spec : PopulationSpec.t) (boot : BootIdentity.t) (publisher : PublisherId).

Definition shard_sample (p : FlowProfile.t) (w cumulative : Z) : StatusOr FlowSample.t :=
  let windows := window_count spec in
  let window_id := wrap 64 (wrap 64 (FlowProfile.index p * (if windows =? 0 then 1 else windows)) + w + 1) in
  synthetic_sample kScenarioStartTick spec p w cumulative window_id
    (make_provenance boot publisher (wrap 64 (FlowProfile.index p * 1000 + w + 1))).

(** The windows of one flow, [n] from [w] on. *)
Fixpoint stream_windows (p : FlowProfile.t) (n : nat) (w cumulative : Z) : M SampleStream.t unit :=
  match n with
  | O => mret tt
  | S n =>
      let cumulative := wrap 64 (cumulative + FlowProfile.window_bytes spec p) in
      sample ← lift (shard_sample p w cumulative);
      modify (fun s => s <| SampleStream.samples ::= (fun l => l ++ [sample]) |>) ;;
      stream_windows p n (w + 1) cumulative
  end.

(** The loop over the population; the random source is drawn from for the flows of the shard only. *)
Fixpoint stream_flows (shard shards : Z) (indices : list Z) (random : SeededRandom.t) : M SampleStream.t unit :=
  match indices with
  | [] => mret tt
  | index :: indices =>
      if negb (index mod shards =? shard) then stream_flows shard shards indices random
      else
        let flow := index + 1 in
        modify (fun s => s <| SampleStream.first_flow := (if SampleStream.first_flow s =? 0 then flow else SampleStream.first_flow s) |>
                           <| SampleStream.flow_count ::= inc64 |>) ;;
        let '(random, p) := FlowProfile.draw spec index random in
        stream_windows p (Z.to_nat (FlowProfile.effective_windows p)) 0 0 ;;
        stream_flows shard shards indices random
  end.
End stream.

Definition build_stream (spec : ScenarioSpec.t) (boot : BootIdentity.t) (publisher : PublisherId) (shard shards : Z)
    : StatusOr SampleStream.t :=
  ScenarioSpec.validate spec ;;
  refuse_if ((shards =? 0) || (shard >=? shards)) StatusCode.InvalidArgument ;;
  let population := ScenarioSpec.population spec in
  let random := wrap 64 (PopulationSpec.seed population + wrap 64 (shard * 0x9E3779B97F4A7C15)) in
  let '(stream, status) :=
    stream_flows population boot publisher shard shards (seqZ 0 (PopulationSpec.population population)) random SampleStream.empty in
  status ;;
  mret stream.
