(* ===== verification/ScenarioFacts.v ===== *)
(** * What the command line scenario promises

    Options are read back as they were given and later ones win; a scenario is cut into shards
    that partition the population, each of them a stream of samples the governor's own
    validation accepts. *)
From Stdlib Require Import String.
From S2P Require Import Prelude Status Checked Tri Tick Hash OMap Flow Tables Policy Impact Classification Intervention Governor GovernorFacts GovernorRuns Journal Durable Service Text TextFacts Names Explain Restore Benchmark BenchmarkFacts Scenario.

#[local] Open Scope string_scope.
#[local] Open Scope list_scope.
#[local] Open Scope Z_scope.

(** ** Arguments *)

(** How an option may be written: as one argument or as two. *)
Inductive written : Type :=
| Joined (name value : list Z)
| Apart (name value : list Z).
Definition meant (o : written) : list Z * list Z := match o with Joined n v | Apart n v => (n, v) end.
Definition given (os : list written) : list (list Z * list Z) := meant <$> os.
Definition tokens (o : written) : list (list Z) :=
  match o with
  | Joined n v => [text "--" ++ n ++ [61] ++ v]
  | Apart n v => [text "--" ++ n; v]
  end.
Definition writable (o : written) : Prop :=
  61 ∉ fst (meant o) /\ match o with Joined _ _ => True | Apart _ v => Args.is_option v = false end.

Lemma is_option_dashes s : Args.is_option (text "--" ++ s) = true.
Proof. reflexivity. Qed.

Lemma find_from_absent s c : c ∉ s -> find_from s c 0 = None.
Proof.
  intros Hs. pose proof (find_from_split s c 0) as H. destruct (find_from s c 0); [|done].
  rewrite drop_0 in H. destruct H as (field & E & _). contradict Hs. rewrite E. apply elem_of_app. right. by constructor.
Qed.

Lemma find_from_first s c tail : c ∉ s -> find_from (s ++ c :: tail) c 0 = Some (length s).
Proof.
  intros Hs. unfold find_from. rewrite drop_0.
  assert (E : list_find (fun c0 => c0 = c) (s ++ c :: tail) = Some (length s, c)).
  { apply list_find_Some. split; [by apply list_lookup_middle|]. split; [done|]. intros j y Hj Hlt ->.
    rewrite lookup_app_l in Hj by done. apply Hs. by eapply list_elem_of_lookup_2. }
  by rewrite E.
Qed.

Lemma make_tokens o argv : writable o -> Args.make (tokens o ++ argv) = meant o :: Args.make argv.
Proof.
  intros [Hn Hv]. destruct o as [n v|n v]; cbn [meant fst tokens app] in *; cbn [Args.make]; rewrite is_option_dashes; cbn [negb].
  - change (drop 2 (text "--" ++ n ++ 61 :: v)) with (n ++ 61 :: v). rewrite find_from_first by done.
    rewrite take_app_length. replace (drop (length n + 1) (n ++ 61 :: v)) with v; [done|].
    rewrite drop_app_ge by lia. by replace (length n + 1 - length n)%nat with 1%nat by lia.
  - change (drop 2 (text "--" ++ n)) with n. rewrite find_from_absent by done. by rewrite Hv.
Qed.

Lemma get_last name value fallback a : Args.get name fallback (a ++ [(name, value)]) = value.
Proof. unfold Args.get. rewrite reverse_snoc. cbn [list_find fst]. by rewrite decide_True. Qed.

Lemma get_other name name' value fallback a : name' <> name -> Args.get name fallback (a ++ [(name', value)]) = Args.get name fallback a.
Proof.
  intros Hne. unfold Args.get. rewrite reverse_snoc. cbn [list_find fst]. rewrite decide_False by done.
  by destruct (list_find _ (reverse a)) as [[i e]|].
Qed.

(** Options written in either form are read back in order, whatever their values hold; the value of
    an option is that of its last occurrence. *)
Theorem options_read_back os :
  Forall writable os ->
  Args.make (mjoin (tokens <$> os)) = given os /\
  forall name fallback o, fst (meant o) = name ->
    Args.get name fallback (given os ++ [meant o]) = snd (meant o) /\
    forall name', name' <> name -> Args.get name' fallback (given os ++ [meant o]) = Args.get name' fallback (given os).
Proof.
  intros Hos. split.
  - unfold given. induction Hos as [|o os Ho _ IH]; [done|].
    change (mjoin (tokens <$> o :: os)) with (tokens o ++ mjoin (tokens <$> os)). by rewrite make_tokens, IH.
  - intros name fallback o <-. destruct (meant o) as [n v]. cbn [fst snd]. split; [apply get_last|].
    intros name' Hne. by apply get_other.
Qed.

(** ** Shards *)

(** A profile the generator can produce. *)
Record profile_ok (s : PopulationSpec.t) (p : FlowProfile.t) : Prop := {
  pf_index : 0 <= FlowProfile.index p < PopulationSpec.population s;
  pf_rate : 0 < FlowProfile.rate p <= PopulationSpec.elephant_rate_hi s;
  pf_windows : 1 <= FlowProfile.effective_windows p <= window_count s }.

Lemma window_count_bounds s : spec_sane s -> 1 <= window_count s /\ window_count s * PopulationSpec.window_ticks s <= PopulationSpec.ticks s.
Proof.
  intros []. unfold window_count. pose proof (Z.mul_div_le (PopulationSpec.ticks s) (PopulationSpec.window_ticks s) ltac:(lia)).
  split; [|lia]. apply Z.div_le_lower_bound; lia.
Qed.

Lemma draw_ok s index random : spec_ok s -> spec_sane s -> 0 <= index < PopulationSpec.population s ->
  profile_ok s (snd (FlowProfile.draw s index random)) /\ FlowProfile.index (snd (FlowProfile.draw s index random)) = index.
Proof.
  intros Ho Hs Hi. pose proof (window_count_bounds s Hs) as [Hw _]. destruct Ho, Hs. unfold FlowProfile.draw, rate_for.
  assert (Hr : forall elephant : bool, 0 < snd (if elephant
      then SeededRandom.next_in (PopulationSpec.elephant_rate_lo s) (PopulationSpec.elephant_rate_hi s) random
      else SeededRandom.next_in (PopulationSpec.mouse_rate_lo s) (PopulationSpec.mouse_rate_hi s) random) <= PopulationSpec.elephant_rate_hi s).
  { intros []; [pose proof (next_in_range _ _ random sp_elephant_lo sp_elephant_hi ltac:(lia))
               |pose proof (next_in_range _ _ random sp_mouse_lo sp_mouse_hi ltac:(lia))]; lia. }
  specialize (Hr (index >=? PopulationSpec.mice s)). destruct (if index >=? _ then _ else _) as [r1 rate]. cbn [snd] in Hr.
  destruct (FlowProfile.chance _ r1) as [r2 protected_flow]. destruct (FlowProfile.chance _ r2) as [r3 abandons]. cbn [snd FlowProfile.index].
  split; [|done]. split; [done|done|]. cbn [FlowProfile.effective_windows].
  destruct abandons; [|lia]. pose proof (Z.mul_div_le (window_count s) 2 ltac:(lia)).
  destruct (window_count s / 2 =? 0) eqn:E; [lia|]. assert (0 <= window_count s / 2) by (apply Z.div_pos; lia). lia.
Qed.

(** The digest of a sample does not cover itself. *)
Lemma sample_digest_stamped sample d :
  FlowSample.digest (sample <| FlowSample.provenance ::= fun v => v <| Provenance.digest := d |> |>) = FlowSample.digest sample.
Proof. destruct sample as [? ? ? ? ? ? ? ? ? ? ? ? ? ? ? [[] ? ? ?]]. unfold FlowSample.digest. cbn. reflexivity. Qed.

(** The identifiers of the windows fit too. *)
Definition serials_fit (s : PopulationSpec.t) : Prop := PopulationSpec.population s * (PopulationSpec.ticks s + 1) < 2 ^ 64.

Section samples.
Context (s : PopulationSpec.t) (boot : BootIdentity.t) (publisher : PublisherId).
Hypothesis Ho : spec_ok s.
Hypothesis Hs : spec_sane s.
Hypothesis Hf : spec_fits s.
Hypothesis Hserial : serials_fit s.
Hypothesis Hboot : BootIdentity.boot boot <> 0.
Hypothesis Hpublisher : publisher <> 0.

Lemma window_bytes_exact p : profile_ok s p ->
  FlowProfile.window_bytes s p = FlowProfile.rate p * PopulationSpec.window_ticks s /\
  (FlowProfile.effective_windows p) * (FlowProfile.rate p * PopulationSpec.window_ticks s) < 2 ^ 64.
Proof.
  intros []. destruct (window_count_bounds s Hs) as [Hw1 Hw2]. destruct Hs, Hf, Ho. unfold FlowProfile.window_bytes, in_range in *.
  assert (H1 : FlowProfile.effective_windows p * PopulationSpec.window_ticks s <= PopulationSpec.ticks s) by nia.
  assert (H2 : FlowProfile.rate p * PopulationSpec.ticks s < 2 ^ 64) by nia.
  assert (H3 : FlowProfile.rate p * PopulationSpec.window_ticks s <= FlowProfile.rate p * PopulationSpec.ticks s) by (apply Z.mul_le_mono_nonneg_l; lia).
  rewrite wrap_small by (unfold in_range; nia). split; [done|]. nia.
Qed.

Lemma shard_sample_valid p w cumulative : profile_ok s p -> 0 <= w < FlowProfile.effective_windows p ->
  FlowProfile.rate p * PopulationSpec.window_ticks s <= cumulative ->
  exists sample, shard_sample s boot publisher p w cumulative = Val sample /\ FlowSample.validate sample = Val tt /\
    FlowSample.flow sample = FlowProfile.index p + 1.
Proof.
  intros Hp Hw Hc. pose proof (window_bytes_exact p Hp) as [Hb _]. destruct Hp. destruct (window_count_bounds s Hs) as [Hw1 Hw2].
  destruct Hs, Hf, Ho. unfold serials_fit, in_range in *.
  assert (Hspan : w * PopulationSpec.window_ticks s + PopulationSpec.window_ticks s <= PopulationSpec.ticks s).
  { pose proof (Z.mul_le_mono_nonneg_r (w + 1) (window_count s) (PopulationSpec.window_ticks s)). lia. }
  assert (Hpos : 0 <= w * PopulationSpec.window_ticks s) by (apply Z.mul_nonneg_nonneg; lia).
  assert (Hwc : window_count s <= PopulationSpec.ticks s).
  { pose proof (Z.mul_le_mono_nonneg_l 1 (PopulationSpec.window_ticks s) (window_count s)). lia. }
  assert (Hid : 0 <= FlowProfile.index p * window_count s /\ FlowProfile.index p * window_count s + w + 1 < 2 ^ 64).
  { split; [apply Z.mul_nonneg_nonneg; lia|].
    pose proof (Z.mul_le_mono_nonneg (FlowProfile.index p + 1) (PopulationSpec.population s) (window_count s) (PopulationSpec.ticks s)). lia. }
  assert (Hbegin : wrap 64 (1000 + wrap 64 (w * PopulationSpec.window_ticks s)) = 1000 + w * PopulationSpec.window_ticks s).
  { rewrite (wrap_small 64 (w * _)) by (unfold in_range; lia). apply wrap_small. unfold in_range. lia. }
  assert (Hend : wrap 64 (1000 + w * PopulationSpec.window_ticks s + PopulationSpec.window_ticks s) =
                 1000 + w * PopulationSpec.window_ticks s + PopulationSpec.window_ticks s) by (apply wrap_small; unfold in_range; lia).
  assert (Hvalid : wrap 64 (wrap 64 (PopulationSpec.ticks s * 4) + 64) = PopulationSpec.ticks s * 4 + 64).
  { rewrite (wrap_small 64 (PopulationSpec.ticks s * 4)) by (unfold in_range; lia). apply wrap_small. unfold in_range. lia. }
  assert (Hwindow : wrap 64 (wrap 64 (FlowProfile.index p * (if window_count s =? 0 then 1 else window_count s)) + w + 1) <> 0).
  { replace (window_count s =? 0) with false by lia.
    rewrite (wrap_small 64 (_ * _)) by (unfold in_range; lia). rewrite wrap_small by (unfold in_range; lia). lia. }
  unfold shard_sample, synthetic_sample. change kScenarioStartTick with 1000. rewrite Hbegin, Hend, Hvalid.
  assert (Hmake : make_validity (1000 + w * PopulationSpec.window_ticks s) (PopulationSpec.ticks s * 4 + 64) =
    Val (ValidityWindow.mk (1000 + w * PopulationSpec.window_ticks s) (1000 + w * PopulationSpec.window_ticks s + (PopulationSpec.ticks s * 4 + 64)))).
  { unfold make_validity. replace (_ =? 0) with false by lia. rewrite add_overflow_spec by (unfold in_range; lia).
    by replace (_ <? _) with true by lia. }
  set (window_id := wrap 64 (wrap 64 (FlowProfile.index p * _) + w + 1)) in *. clearbody window_id.
  assert (Hmod : 0 <= FlowProfile.index p mod PopulationSpec.paths s) by (apply Z.mod_pos_bound; lia).
  destruct (if FlowProfile.protected_flow p then _ else _) as [[protection service_class] reservation].
  rewrite Hmake, Hb. cbn [mbind StatusOr_bind]. set (plain := FlowSample.mk _ _ _ _ _ _ _ _ _ _ _ _ _ _ _ _). eexists. split; [reflexivity|]. split; [|reflexivity].
  unfold FlowSample.validate. unfold id_valid, ValidityWindow.well_formed.
  do 11 (apply refuse_if_bind; split; [cbn; lia|]).
  apply refuse_if_bind. split; [by destruct (FlowProfile.elephant p)|].
  apply refuse_if_bind. split; [|apply refuse_if_bind; split; [reflexivity|]].
  - unfold Provenance.valid, PublisherRef.valid, id_valid. cbn -[FlowSample.digest].
    rewrite (proj2 (Z.eqb_neq _ _) Hpublisher), (proj2 (Z.eqb_neq _ _) Hboot). reflexivity.
  - apply refuse_if_ok, negb_false_iff, Z.eqb_eq. rewrite sample_digest_stamped. reflexivity.
Qed.
(** Samples that a governor accepts, of one flow or of several. *)
Definition valid_samples (l : list FlowSample.t) : Prop := Forall (fun x => FlowSample.validate x = Val tt) l.

Lemma stream_windows_spec p : profile_ok s p -> forall n w st, 0 <= w -> w + Z.of_nat n <= FlowProfile.effective_windows p ->
  exists l, stream_windows s boot publisher p n w (w * (FlowProfile.rate p * PopulationSpec.window_ticks s)) st =
      (st <| SampleStream.samples := SampleStream.samples st ++ l |>, Val tt) /\
    length l = n /\ valid_samples l /\ Forall (fun x => FlowSample.flow x = FlowProfile.index p + 1) l.
Proof.
  intros Hp n. destruct (window_bytes_exact p Hp) as [Hb Hlt]. pose proof (pf_rate _ _ Hp) as Hrate.
  assert (Hbytes : 0 <= FlowProfile.rate p * PopulationSpec.window_ticks s) by (destruct Hs; apply Z.mul_nonneg_nonneg; lia).
  induction n as [|n IH]; intros w st Hw Hn; cbn [stream_windows].
  - exists []. rewrite app_nil_r. split; [by destruct st|]. split; [done|]. split; constructor.
  - rewrite Hb. set (b := FlowProfile.rate p * PopulationSpec.window_ticks s) in *.
    assert (Hc : wrap 64 (w * b + b) = (w + 1) * b).
    { replace (w * b + b) with ((w + 1) * b) by lia. apply wrap_small. unfold in_range. split; [apply Z.mul_nonneg_nonneg; lia|].
      eapply Z.le_lt_trans; [|exact Hlt]. apply Z.mul_le_mono_nonneg_r; lia. }
    rewrite Hc. destruct (shard_sample_valid p w ((w + 1) * b) Hp) as (x & Hx & Hv & Hflow); [lia|fold b; nia|].
    rewrite Hx. destruct (IH (w + 1) (st <| SampleStream.samples := SampleStream.samples st ++ [x] |>)) as (l & Hl & Hlen & Hvl & Hfl); [lia|lia|].
    exists (x :: l). split; [|split; [cbn; lia|split; by constructor]].
    unfold mbind, M_bind. cbn [lift modify]. etrans; [exact Hl|]. destruct st. cbn. by rewrite <- app_assoc.
Qed.

Lemma stream_flows_spec shard shards indices : Forall (fun i => 0 <= i < PopulationSpec.population s) indices -> forall random st,
  exists st' l, stream_flows s boot publisher shard shards indices random st = (st', Val tt) /\
    SampleStream.samples st' = SampleStream.samples st ++ l /\ valid_samples l /\
    forall flow, flow ∈ FlowSample.flow <$> l <-> flow - 1 ∈ indices /\ (flow - 1) mod shards = shard.
Proof.
  intros Hi. induction Hi as [|index indices Hindex _ IH]; intros random st; cbn [stream_flows].
  - exists st, []. rewrite app_nil_r. split; [done|]. split; [done|]. split; [constructor|]. intros flow. cbn.
    split; [by intros H%elem_of_nil|by intros [H%elem_of_nil _]].
  - destruct (index mod shards =? shard) eqn:E; cbn [negb].
    + unfold mbind at 1, M_bind at 1. cbn [modify]. set (st0 := _ <| SampleStream.flow_count ::= _ |>).
      destruct (draw_ok s index random Ho Hs Hindex) as [Hp Hidx]. destruct (FlowProfile.draw s index random) as [random' p]. cbn [snd] in *.
      pose proof (pf_windows _ _ Hp) as Hw.
      destruct (stream_windows_spec p Hp (Z.to_nat (FlowProfile.effective_windows p)) 0 st0) as (l & Hl & Hlen & Hvl & Hfl); [lia|lia|].
      rewrite Z.mul_0_l in Hl. unfold mbind, M_bind. rewrite Hl.
      destruct (IH random' (st0 <| SampleStream.samples := SampleStream.samples st0 ++ l |>)) as (st' & l' & Hst & Hsm & Hvl' & Hin).
      exists st', (l ++ l'). split; [exact Hst|]. split; [rewrite Hsm; cbn; by rewrite <- app_assoc|]. split; [by apply Forall_app|].
      intros flow. rewrite fmap_app, elem_of_app, Hin, elem_of_cons.
      assert (Hone : flow ∈ FlowSample.flow <$> l <-> flow - 1 = index).
      { rewrite list_elem_of_fmap. rewrite Forall_forall in Hfl. split.
        - intros (x & -> & Hx). rewrite (Hfl x Hx). lia.
        - intros Hx. destruct l as [|x l]; [cbn in Hlen; lia|]. exists x. split; [|by constructor]. rewrite (Hfl x) by constructor. lia. }
      rewrite Hone. apply Z.eqb_eq in E. split; [intros [->|[H1 H2]]; tauto|tauto].
    + destruct (IH random st) as (st' & l & Hst & Hsm & Hvl & Hin). exists st', l. split; [exact Hst|]. split; [done|]. split; [done|].
      intros flow. rewrite Hin, elem_of_cons. apply Z.eqb_neq in E. split; [tauto|]. intros [[->|H] Hm]; [done|done].
Qed.
End samples.

(** C38: The shards of a scenario. For a validated scenario whose figures fit into 64 bits, every
    shard of every division is built, all its samples pass the validation of the governor, and the flows it
    publishes are exactly the flows of the population whose index is congruent to the shard: the
    shards partition the population, no flow is published by two workers and none is left out. *)
Theorem shards_partition_population scenario boot publisher shards shard :
  let s := ScenarioSpec.population scenario in
  spec_ok s -> 0 <= PopulationSpec.policy_complexity s -> ScenarioSpec.validate scenario = Val tt ->
  spec_fits s -> serials_fit s -> BootIdentity.boot boot <> 0 -> publisher <> 0 -> 0 <= shard < shards ->
  exists stream, build_stream scenario boot publisher shard shards = Val stream /\
    Forall (fun x => FlowSample.validate x = Val tt) (SampleStream.samples stream) /\
    forall flow, flow ∈ FlowSample.flow <$> SampleStream.samples stream <->
      1 <= flow <= PopulationSpec.population s /\ (flow - 1) mod shards = shard.
Proof.
  intros s Ho Hc Hv Hf Hser Hboot Hpub Hshard.
  assert (Hs : spec_sane s).
  { apply validate_sane; [done|done|]. unfold ScenarioSpec.validate in Hv. apply StatusOr_bind_Val in Hv as ([] & Hv & _). exact Hv. }
  unfold build_stream. rewrite Hv. cbn [mbind StatusOr_bind].
  replace ((shards =? 0) || (shard >=? shards)) with false by lia. cbn [refuse_if mbind StatusOr_bind]. fold s.
  destruct (stream_flows_spec s boot publisher Ho Hs Hf Hser Hboot Hpub shard shards (seqZ 0 (PopulationSpec.population s)))
    with (random := wrap 64 (PopulationSpec.seed s + wrap 64 (shard * 0x9E3779B97F4A7C15))) (st := SampleStream.empty)
    as (st & l & E & Hsm & Hvl & Hin).
  { apply Forall_forall. intros i Hi%elem_of_seqZ. lia. }
  rewrite E. exists st. split; [reflexivity|]. rewrite Hsm. cbn [SampleStream.samples SampleStream.empty app]. split; [exact Hvl|].
  intros flow. rewrite Hin, elem_of_seqZ. lia.
Qed.

(** ** Witnesses *)

(** The scenario of [--mice 3 --elephants=2], everything else by default. *)
Definition demo_arguments : list (list Z) := [text "--mice"; text "3"; text "--elephants=2"].
Definition demo_scenario : ScenarioSpec.t := Eval vm_compute in scenario_from_args (Args.make demo_arguments).
Lemma demo_scenario_eq : scenario_from_args (Args.make demo_arguments) = demo_scenario.
Proof. vm_compute. reflexivity. Qed.

Lemma shards_partition_population_witness :
  PopulationSpec.population (ScenarioSpec.population demo_scenario) = 5 /\
  exists stream, build_stream demo_scenario (BootIdentity.mk 4 1 0 0) 2 1 2 = Val stream /\
    forall flow, flow ∈ FlowSample.flow <$> SampleStream.samples stream <-> 1 <= flow <= 5 /\ (flow - 1) mod 2 = 1.
Proof.
  split; [reflexivity|].
  destruct (shards_partition_population demo_scenario (BootIdentity.mk 4 1 0 0) 2 2 1) as (stream & Hb & _ & Hf).
  - split; vm_compute; split; congruence.
  - vm_compute. congruence.
  - reflexivity.
  - split; vm_compute; congruence.
  - vm_compute. reflexivity.
  - cbn. lia.
  - lia.
  - lia.
  - exists stream. split; [exact Hb|exact Hf].
Defined.
