(* ===== verification/Apps.v ===== *)
(** * The programs ([apps/efg_governor.cpp], [apps/efg_bench.cpp], [apps/efg_worker.cpp],
    [apps/efg_coordinator.cpp], [examples/downstream_consumer/main.cpp])

    Each program is a function of its arguments and of the answers of the system: what it
    prints, which files it writes, and the code it exits with. The files are answered for by
    [accepts], connections by their streams, the benchmark's clock by the time that passed.
    Messages on the error stream are not modelled. *)
From Stdlib Require Import String.
From S2P Require Import Prelude Status Checked Tri Tick Hash OMap Flow Tables Policy Impact Classification Intervention Governor Codec Restore Journal Durable Text Names Explain Transport Cluster ClusterReport Double Benchmark BenchmarkReport Scenario.

#[local] Open Scope string_scope.
#[local] Open Scope list_scope.
#[local] Open Scope Z_scope.

(** ** Programs *)

(** Standard output and the files written, the last one first. *)
Record Console := mkConsole { stdout_ : list Z; files_ : list (list Z * list Z) }.
#[global] Instance eta_Console : Eta Console := fun r => mkConsole (stdout_ r) (files_ r).

(** A statement of [main]: it goes on, leaves the program, or never gets past: it waits
    for a connection or for its peer for ever, or converts a number without a defined result. *)
Inductive Outcome (A : Type) : Type := Going (x : A) | Exit (code : Z) | Stuck.
Arguments Going {A} x.
Arguments Exit {A} code.
Arguments Stuck {A}.

Definition P (A : Type) : Type := Console -> Console * Outcome A.

#[global] Instance P_ret : MRet P := fun _ x c => (c, Going x).
#[global] Instance P_bind : MBind P := fun _ _ f m c =>
  match m c with
  | (c, Going x) => f x c
  | (c, Exit code) => (c, Exit code)
  | (c, Stuck) => (c, Stuck)
  end.

Definition return_ {A} (code : Z) : P A := fun c => (c, Exit code).
Definition stuck {A} : P A := fun c => (c, Stuck).

(** [if (!r.ok()) { return code; }] *)
Definition or_return {A} (code : Z) (r : StatusOr A) : P A :=
  match r with Val x => mret x | Err _ => return_ code end.
(** The same for a method call; the object as the call leaves it. *)
Definition calls {S A} (code : Z) (m : M S A) (s : S) : P (S * A) :=
  let '(s, r) := m s in x ← or_return code r; mret (s, x).
Definition runs {S A} (code : Z) (m : M S A) (s : S) : P S := r ← calls code m s; mret (fst r).

(** A C string ends before its first zero. *)
Fixpoint c_str (s : list Z) : list Z :=
  match s with [] => [] | b :: s => if b =? 0 then [] else b :: c_str s end.
Definition fputs (s : list Z) : P unit := fun c => (c <| stdout_ ::= (fun out => out ++ c_str s) |>, Going tt).

(** The value [main] returns. *)
Definition exit_code {A} (o : Outcome A) : option Z :=
  match o with Going _ => Some 0 | Exit code => Some code | Stuck => None end.

(** ** Files *)

(** A file opened for reading: whether it can be sought, the size it tells, the bytes it holds. *)
Record Opened := mkOpened { seeks : bool; tells : Z; holds : list Z }.

Definition read_text_file (opened : option Opened) (ceiling : Z) : StatusOr (list Z) :=
  match opened with
  | None => Err StatusCode.NotFound
  | Some file =>
      refuse_if (negb (seeks file)) StatusCode.IoError ;;
      refuse_if (tells file <? 0) StatusCode.IoError ;;
      refuse_if (tells file >? ceiling) StatusCode.Oversized ;;
      let read := if tells file =? 0 then [] else take (Z.to_nat (tells file)) (holds file) in
      refuse_if (negb (size_of read =? tells file)) StatusCode.IoError ;;
      mret read
  end.

Section programs.
(** How many bytes of a text the file of that name takes; [None]: it cannot be created. *)
Context (accepts : list Z -> list Z -> option nat).

(** What the stream of the file has taken is in the file; the result of [fclose] is ignored. *)
Definition write_text_file (path text : list Z) (c : Console) : Console * Status :=
  match accepts (c_str path) text with
  | None => (c, Err StatusCode.IoError)
  | Some written =>
      (c <| files_ ::= (fun files => (c_str path, take written text) :: files) |>,
       refuse_if (negb (size_of (take written text) =? size_of text)) StatusCode.IoError)
  end.

(** [write_text_file] with [if (!written.ok()) { return code; }]. *)
Definition write_or_return (code : Z) (path text : list Z) : P unit := fun c =>
  let '(c, r) := write_text_file path text c in or_return code r c.
(** [if (!path.empty()) { ... }] around it. *)
Definition write_named (code : Z) (path text : list Z) : P unit :=
  if bool_decide (path = []) then mret tt else write_or_return code path text.

Definition arg (args : Args.t) (name : string) : list Z := Args.get (text name) [] args.
Definition number (args : Args.t) (name : string) (fallback : Z) : Z := Args.get_u64 (text name) fallback args.
Definition count (args : Args.t) (name : string) (fallback : Z) : Z := Args.get_size (text name) fallback args.

Definition usage : list Z :=
  text "options: --mice N --elephants N --seed N --ticks N --window N --resources N" ++ [kNewline] ++
  text "         --capacity N --reserved N --paths N --path-resources N --complexity N" ++ [kNewline] ++
  text "         --protected-bp N --abandon-bp N" ++ [kNewline].

Definition help (args : Args.t) : P unit :=
  if Args.has (text "help") args then fputs usage ;; return_ 0 else mret tt.

(** ** The scenario runner *)

Definition start : Tick := 1000.

(** The [BootIdentity] of a process. *)
Definition boot_from_args (args : Args.t) (boot : BootId) (spec : ScenarioSpec.t) : BootIdentity.t :=
  BootIdentity.mk (number args "boot" boot) (number args "epoch" 1) start
    (PopulationSpec.seed (ScenarioSpec.population spec)).

(** The members every program sets. *)
Definition governor_config (args : Args.t) : GovernorConfig.t :=
  GovernorConfig.default
    <| GovernorConfig.max_flows := count args "max-flows" 65536 |>
    <| GovernorConfig.samples_per_flow := count args "samples-per-flow" 8 |>
    <| GovernorConfig.classification_validity_ticks := number args "classification-validity" 512 |>
    <| GovernorConfig.intent_duration_ticks := number args "intent-duration" 64 |>.

Definition runner_config (args : Args.t) : GovernorConfig.t :=
  governor_config args
    <| GovernorConfig.max_telemetry_gap_ticks := number args "max-gap" 100 |>
    <| GovernorConfig.max_history_per_flow := count args "history" kMaxHistoryPerFlow |>.

Definition policy_of (spec : ScenarioSpec.t) : StatusOr PolicyDocument.t :=
  make_benchmark_policy (ScenarioSpec.population spec) (ScenarioSpec.policy_id spec)
    (ScenarioSpec.policy_generation spec) start (ScenarioSpec.policy_validity_ticks spec).

Definition final_tick_of (spec : ScenarioSpec.t) : Tick :=
  wrap 64 (start + PopulationSpec.ticks (ScenarioSpec.population spec) + 1).

Definition summary (g : Governor.t) : list Z :=
  let counters := Governor.counters_ g in
  build [ lit "population: SYNTHETIC"; newline;
    lit "flows="; Num (Governor.flow_count g);
    lit " evidence_accepted="; Num (GovernorCounters.evidence_accepted counters);
    lit " evidence_rejected="; Num (GovernorCounters.evidence_rejected counters);
    lit " decisions="; Num (GovernorCounters.decisions counters);
    lit " elephant="; Num (GovernorCounters.elephant_decisions counters);
    lit " not_elephant="; Num (GovernorCounters.not_elephant_decisions counters);
    lit " unknown="; Num (GovernorCounters.unknown_decisions counters);
    lit " suspended="; Num (GovernorCounters.suspended_decisions counters); newline;
    lit "intents_authorized="; Num (GovernorCounters.intents_authorized counters);
    lit " intents_clamped="; Num (GovernorCounters.intents_clamped counters);
    lit " intents_suppressed="; Num (GovernorCounters.intents_suppressed counters);
    lit " intents_fenced="; Num (GovernorCounters.intents_fenced counters);
    lit " intents_expired="; Num (GovernorCounters.intents_expired counters); newline ].

(** The loop over the flows: the elephants are explained, up to [limit] of them. *)
Fixpoint explain_elephants (limit : Z) (now : Tick) (explained : Z) (keys : list FlowKey) (g : Governor.t) : P Governor.t :=
  match keys with
  | [] => mret g
  | (flow, generation) :: keys =>
      if explained >=? limit then mret g
      else
        match explain flow generation now g with
        | (g, Err _) => explain_elephants limit now explained keys g
        | (g, Val explanation) =>
            if negb (bool_decide (Explanation.state explanation = ElephantState.Elephant))
            then explain_elephants limit now explained keys g
            else fputs (render_text explanation) ;; explain_elephants limit now (explained + 1) keys g
        end
  end.

Definition runner_report (g : Governor.t) (digest : Z) : list Z :=
  let counters := Governor.counters_ g in
  build [ lit "{"; newline; key "  " "population_kind"; Str (text "SYNTHETIC");
    lit ","; newline; key "  " "flows"; Num (Governor.flow_count g);
    lit ","; newline; key "  " "decisions"; Num (GovernorCounters.decisions counters);
    lit ","; newline; key "  " "elephant_decisions"; Num (GovernorCounters.elephant_decisions counters);
    lit ","; newline; key "  " "suspended_decisions"; Num (GovernorCounters.suspended_decisions counters);
    lit ","; newline; key "  " "intents_authorized"; Num (GovernorCounters.intents_authorized counters);
    lit ","; newline; key "  " "intents_clamped"; Num (GovernorCounters.intents_clamped counters);
    lit ","; newline; key "  " "intents_suppressed"; Num (GovernorCounters.intents_suppressed counters);
    lit ","; newline; key "  " "intents_fenced"; Num (GovernorCounters.intents_fenced counters);
    lit ","; newline; key "  " "decision_digest"; Num digest; newline; lit "}"; newline ].

(** Policy, fabric, evidence and one sweep: the governor before it is reported. *)
Definition governed (args : Args.t) (spec : ScenarioSpec.t) : P Governor.t :=
  let boot := boot_from_args args 1 spec in
  let g := Governor.set_incarnation boot (Governor.make (runner_config args)) in
  policy ← or_return 2 (policy_of spec);
  g ← runs 3 (Governor.submit_policy policy) g;
  g ← runs 3 (for_each Governor.submit_capacity (build_capacities spec start boot)) g;
  g ← runs 3 (for_each Governor.submit_path (build_paths spec start boot)) g;
  stream ← or_return 2 (build_stream spec boot 1 0 1);
  g ← runs 4 (for_each (fun sample => Governor.submit_evidence sample ;; mret tt) (SampleStream.samples stream)) g;
  runs 4 (Governor.tick (final_tick_of spec)) g.

(** [run] of the scenario runner. The benchmark report it renders first is cleared at once. *)
Definition governor_main (argv : list (list Z)) : P Governor.t :=
  let args := Args.make argv in
  help args ;;
  let spec := scenario_from_args args in
  or_return 2 (ScenarioSpec.validate spec) ;;
  g ← governed args spec;
  fputs (summary g) ;;
  g ← explain_elephants (count args "explain" 3) (final_tick_of spec) 0 (Governor.flow_keys g) g;
  let digest := decision_digest g in
  fputs (build [lit "decision_digest="; Num digest; newline]) ;;
  write_named 5 (arg args "report") (runner_report g digest) ;;
  mret g.

(** ** The benchmark tool *)

(** [elapsed]: the microseconds of the measured run. The result of [main] is the replay's. *)
Definition bench_main (elapsed : Z) (argv : list (list Z)) : P BenchmarkResult.t :=
  let args := Args.make argv in
  help args ;;
  result ← or_return 2 (run_benchmark elapsed (population_from_args args) (governor_config args));
  let json_path := arg args "json" in
  (if bool_decide (json_path = []) then mret tt
   else match render_benchmark_json result with
        | Some json => write_or_return 3 json_path json
        | None => stuck
        end) ;;
  match render_benchmark_text result with
  | Some out => fputs out
  | None => stuck
  end ;;
  if BenchmarkResult.deterministic_replay result then mret result else return_ 4.

(** ** The worker *)

(** [to_string] of whatever number [last_fence_] holds. *)
Definition fence_name (raw : Z) : list Z :=
  match List.find (fun reason => FenceReason.to_u16 reason =? raw)
    [FenceReason.None; FenceReason.EpochStale; FenceReason.EpochAhead; FenceReason.BootMismatch;
     FenceReason.WorkerUnknown; FenceReason.WorkerDuplicate; FenceReason.FrameMalformed;
     FenceReason.FrameOversized; FenceReason.IntegrityFailure; FenceReason.SchemaMismatch;
     FenceReason.GenerationRegression; FenceReason.ShuttingDown; FenceReason.PopulationCeiling] with
  | Some reason => FenceReason.to_string reason
  | None => text "none"
  end.

Definition fenced_line (name : string) (w : Worker.t) : list Z :=
  build [lit name; Put (fence_name (Worker.last_fence_ w)); lit " detail="; Put (c_str (Worker.fence_detail_ w)); newline].

(** A call of the worker, if it returns. *)
Definition awaits (m : M Worker.t unit) (w : Worker.t) : P (Worker.t * Status) :=
  let '(w, status) := m w in if TcpStream.blocked (Worker.stream_ w) then stuck else mret (w, status).
(** [if (!status.ok()) { return code; }] *)
Definition or_leaves (code : Z) (m : M Worker.t unit) (w : Worker.t) : P Worker.t :=
  r ← awaits m w; or_return code (snd r) ;; mret (fst r).
(** [if (!status.ok()) { printf(...); return code; }] *)
Definition or_fenced (code : Z) (name : string) (m : M Worker.t unit) (w : Worker.t) : P Worker.t :=
  r ← awaits m w;
  match snd r with
  | Val _ => mret (fst r)
  | Err _ => fputs (fenced_line name (fst r)) ;; return_ code
  end.

Definition worker_config (args : Args.t) (spec : ScenarioSpec.t) : WorkerConfig.t :=
  WorkerConfig.mk (wrap 16 (number args "port" 0)) (boot_from_args args 2 spec) (number args "worker-id" 0)
    (number args "nonce" 1) (Args.get (text "label") (text "worker") args) start
    (ClusterLimits.mk kMaxWorkers kMaxFramePayload (count args "max-batch" 64)).

(** The marker of the progress file; whether it could be written is ignored. *)
Definition note_progress (path : list Z) (batches : Z) : P unit := fun c =>
  if bool_decide (path = []) then (c, Going tt)
  else (fst (write_text_file path (build [Num batches; newline]) c), Going tt).

(** The loop over the samples of the shard, with the samples not yet flushed and the batches flushed. *)
Fixpoint publish (max_batch abort_after : Z) (progress : list Z) (samples : list FlowSample.t) (pending batches : Z)
    (w : Worker.t) : P Worker.t :=
  match samples with
  | [] => mret w
  | sample :: samples =>
      w ← or_leaves 5 (Worker.submit_evidence sample) w;
      let pending := inc64 pending in
      if pending >=? max_batch then
        w ← or_fenced 6 "batch_fenced=" Worker.flush w;
        let batches := inc64 batches in
        note_progress progress batches ;;
        (if negb (abort_after =? 0) && (batches >=? abort_after)
         then fputs (build [lit "aborting_after_batches="; Num batches; newline]) ;; return_ 9
         else mret tt) ;;
        publish max_batch abort_after progress samples 0 batches w
      else publish max_batch abort_after progress samples pending batches w
  end.

Definition worker_summary (w : Worker.t) : list Z :=
  build [ lit "worker="; Num (Worker.assigned_worker_ w);
    lit " frames="; Num (Worker.frames_sent_ w);
    lit " samples="; Num (Worker.samples_sent_ w);
    lit " accepted="; Num (Worker.accepted_ w);
    lit " duplicates="; Num (Worker.duplicates_ w);
    lit " rejected="; Num (Worker.rejected_ w); newline ].

(** [connected]: what the connection to the port is answered with. *)
Definition worker_main (connected : Z -> StatusOr TcpStream.t) (argv : list (list Z)) : P Worker.t :=
  let args := Args.make argv in
  help args ;;
  let spec := scenario_from_args args in
  or_return 2 (ScenarioSpec.validate spec) ;;
  let config := worker_config args spec in
  stream ← or_return 2 (build_stream spec (WorkerConfig.boot config) (number args "publisher" 2)
                          (number args "shard" 0) (number args "shards" 1));
  w ← or_return 3 (Worker.connect config (connected (WorkerConfig.port config)));
  w ← or_fenced 4 "registration_fenced=" Worker.register_session w;
  fputs (build [lit "registered_worker="; Num (Worker.assigned_worker_ w); newline]) ;;
  write_named 3 (arg args "ready-file") (text "ready" ++ [kNewline]) ;;
  w ← publish (ClusterLimits.max_batch (WorkerConfig.limits config)) (number args "abort-after" 0)
        (arg args "progress-file") (SampleStream.samples stream) 0 0 w;
  w ← or_fenced 6 "final_flush_fenced=" Worker.flush w;
  w ← or_leaves 6 (Worker.bye (text "shard complete")) w;
  fputs (worker_summary w) ;;
  write_named 7 (arg args "report") (worker_summary w) ;;
  mret w.

(** ** The coordinator *)

Definition coordinator_config (args : Args.t) (spec : ScenarioSpec.t) (policy : PolicyDocument.t) : CoordinatorConfig.t :=
  let boot := boot_from_args args 1 spec in
  CoordinatorConfig.mk boot
    (ClusterLimits.mk kMaxWorkers kMaxFramePayload (count args "max-batch" kMaxEvidenceBatch))
    (governor_config args) start 1 (count args "workers" 1) (negb (bool_decide (arg args "store" = [])))
    policy (build_capacities spec start boot) (build_paths spec start boot).

(** [--final-tick]: one more sweep, of the governor the coordinator owns. *)
Definition final_sweep (args : Args.t) (spec : ScenarioSpec.t) (c : Coordinator.t) : P Coordinator.t :=
  if Args.has (text "final-tick") args then
    let final_tick := number args "final-tick" (final_tick_of spec) in
    r ← calls 4 (on Coordinator.host_ (Host.direct (Governor.tick final_tick))) c;
    fputs (build [lit "final_sweep_suspensions="; Num (DecisionBatch.suspensions (snd r)); newline]) ;;
    mret (fst r)
  else mret c.

Section coordinator.
(** The free texts of the frames and of the sessions, the contents of the store, the port that
    is bound, and the connections that come in. *)
Context (message : Z -> list Z) (detail : nat -> list Z) (disk : Disk.t)
  (bound : StatusOr Z) (connections : list (StatusOr TcpStream.t)).

(** [Coordinator::write_report]: as [write_text_file], with messages of its own. *)
Definition write_report (path : list Z) (coordinator : Coordinator.t) : Console -> Console * Status :=
  write_text_file path (render_report detail coordinator).

Definition coordinator_main (argv : list (list Z)) : P Coordinator.t :=
  let args := Args.make argv in
  help args ;;
  let spec := scenario_from_args args in
  or_return 2 (ScenarioSpec.validate spec) ;;
  policy ← or_return 2 (policy_of spec);
  c ← or_return 3 (snd (Coordinator.create (coordinator_config args spec policy) disk));
  c ← runs 3 (Coordinator.listen bound) c;
  fputs (build [lit "coordinator_epoch="; Num (BootIdentity.epoch (boot_from_args args 1 spec));
                lit " port="; Num (Coordinator.port_ c); newline]) ;;
  write_named 3 (arg args "port-file") (build [Num (Coordinator.port_ c); newline]) ;;
  c ← match Run.run message bound connections c with
      | (_, None) => stuck
      | (c, Some r) => or_return 4 r ;; mret c
      end;
  c ← final_sweep args spec c;
  (if bool_decide (arg args "report" = []) then mret tt
   else fun console => let '(console, r) := write_report (arg args "report") c console in or_return 5 r console) ;;
  fputs (render_report detail c) ;;
  write_named 5 (arg args "done-file") (text "done" ++ [kNewline]) ;;
  mret c.
End coordinator.

End programs.

(** ** The downstream consumer *)

Definition kStart : Tick := 1000.

Definition provenance (sequence : Z) (at_ : Tick) : Provenance.t :=
  Provenance.mk (PublisherRef.mk 1 1 1 sequence) at_ kSchemaVersion 0.

Definition build_policy : PolicyDocument.t :=
  let threshold kind value := leaf (Threshold.mk kind value ServiceClass.Unknown) in
  PolicyDocument.finalize (PolicyDocument.mk 1 1
    (RuleSet.mk [
       threshold ThresholdKind.CumulativeBytes 200000;
       threshold ThresholdKind.DurationTicks 16;
       threshold ThresholdKind.SustainedRate 4000000;
       threshold ThresholdKind.ShareOfCapacity 1500;
       RuleNode.mk RuleKind.All Threshold.default [0; 1; 2; 3] ] 4)
    RuleSet.default (HysteresisSpec.mk 1 3 8000)
    (IntentAuthorization.mk true true true true true true 2500 200 4 1 1)
    (ValidityWindow.mk kStart (kStart + 100000)) (provenance 1 kStart) 0).

Definition consumer_capacity : ResourceCapacity.t :=
  ResourceCapacity.mk 1 1 1 (TickSpan.mk kStart (kStart + 64)) 10000000 1000000
    (ValidityWindow.mk kStart (kStart + 100000)) (provenance 2 kStart).

Definition consumer_path : PathDescriptor.t :=
  PathDescriptor.mk 1 1 [1] (ValidityWindow.mk kStart (kStart + 100000)) (provenance 3 kStart).

(** The sample of a window; [cumulative] includes it. *)
Definition consumer_sample (window cumulative : Z) : FlowSample.t :=
  let begin_ := kStart + (window - 1) * 10 in
  let sample := FlowSample.mk 1 1 1 1 window window (TickSpan.mk begin_ (begin_ + 10)) cumulative 90000
    ServiceClass.Standard (Priority.of_level 3) ProtectionState.Unprotected 0 0
    (ValidityWindow.mk begin_ (begin_ + 100000)) (provenance (window + 3) begin_) in
  sample <| FlowSample.provenance ::= (fun p => p <| Provenance.digest := FlowSample.digest sample |>) |>.

(** The loop over the windows: the governor and the state last decided. *)
Fixpoint consume (windows : list Z) (cumulative : Z) (state : ElephantState.t) (g : Governor.t)
    : P (Governor.t * ElephantState.t) :=
  match windows with
  | [] => mret (g, state)
  | window :: windows =>
      let cumulative := cumulative + 90000 in
      r ← calls 3 (Governor.submit_evidence (consumer_sample window cumulative)) g;
      consume windows cumulative (FlowClassification.state (FlowDecision.classification (snd r))) (fst r)
  end.

(** [std::string::find] finds something. *)
Fixpoint contains (needle s : list Z) : bool :=
  has_prefix needle s || match s with [] => false | _ :: s => contains needle s end.

Definition return_unless (code : Z) (b : bool) : P unit := if b then mret tt else return_ code.

Definition consumer_main : P Governor.t :=
  let g := Governor.set_incarnation (BootIdentity.mk 1 1 kStart 1) (Governor.make GovernorConfig.default) in
  g ← runs 2 (Governor.submit_policy build_policy) g;
  g ← runs 2 (Governor.submit_capacity consumer_capacity) g;
  g ← runs 2 (Governor.submit_path consumer_path) g;
  r ← consume (seqZ 1 6) 0 ElephantState.Unknown g;
  let '(g, state) := r in
  return_unless 4 (bool_decide (state = ElephantState.Elephant)) ;;
  r ← calls 5 (explain 1 1 (kStart + 60)) g;
  let '(g, explanation) := r in
  return_unless 6 (AuthorityVector.binds (Explanation.authority_vector explanation) kAuthorityFlowBound &&
                   AuthorityVector.binds (Explanation.authority_vector explanation) kAuthorityPolicyBound) ;;
  fputs (build [lit "library_version="; Put version_string; newline]) ;;
  fputs (build [lit "state="; Put (to_string state);
                lit " authority="; Put (to_string (Explanation.authority explanation)); newline]) ;;
  fputs (build [lit "flows="; Num (Governor.flow_count g);
                lit " intents="; Num (IntentLedger.size (Governor.intents_ g)); newline]) ;;
  let rendered := render_text explanation in
  return_unless 7 (contains (text "explanation_digest=") rendered) ;;
  fputs rendered ;;
  fputs (build [lit "decision_digest="; Num (decision_digest g); newline]) ;;
  mret g.
