(* ===== verification/AppsFacts.v ===== *)
(** * Facts about the programs

    What a process that exits with zero has done: the worker has put its whole shard on the
    wire, in order and in batches the coordinator takes, and the scenario runner reports the
    governor its operations lead to. *)
From Stdlib Require Import String.
From S2P Require Import Prelude Status Checked Tri Tick Hash OMap Flow Tables Policy Impact Classification Intervention Governor GovernorFacts GovernorRuns Codec CodecFacts Restore Journal JournalFacts Durable Text TextFacts Json Names Explain ExplainFacts Transport TransportFacts Cluster ClusterFacts ClusterAgree ClusterReport Double Benchmark BenchmarkReport Scenario ScenarioFacts Apps.

#[local] Open Scope string_scope.
#[local] Open Scope list_scope.
#[local] Open Scope Z_scope.

#[local] Opaque crc32c Governor.submit_evidence decision_digest.

(** ** Statements of [main] *)

Lemma P_bind_Going {A B} (m : P A) (k : A -> P B) c c' y :
  (m ≫= k) c = (c', Going y) <-> exists c1 x, m c = (c1, Going x) /\ k x c1 = (c', Going y).
Proof.
  unfold mbind, P_bind. destruct (m c) as [c1 [x|code|]]; split;
    [by eauto|by intros (? & ? & [= -> ->] & ?)|done|by intros (? & ? & [=] & _)|done|by intros (? & ? & [=] & _)].
Qed.

Lemma or_return_Going {A} code (r : StatusOr A) c c' x : or_return code r c = (c', Going x) <-> r = Val x /\ c' = c.
Proof. destruct r; cbn; split; [by intros [= -> ->]|by intros [[= ->] ->]|done|by intros [[=] _]]. Qed.

Lemma calls_Going {S A} code (m : M S A) s c c' s' x : calls code m s c = (c', Going (s', x)) <-> m s = (s', Val x) /\ c' = c.
Proof.
  unfold calls. destruct (m s) as [s1 r]. rewrite P_bind_Going. setoid_rewrite or_return_Going. split.
  - intros (? & ? & [-> ->] & [= -> -> ->]). done.
  - intros [[= -> ->] ->]. by exists c, x.
Qed.

Lemma runs_Going {S A} code (m : M S A) s c c' s' : runs code m s c = (c', Going s') <-> (exists x, m s = (s', Val x)) /\ c' = c.
Proof.
  unfold runs. rewrite P_bind_Going. split.
  - intros (c1 & [s1 x] & [H ->]%calls_Going & [= -> ->]). eauto.
  - intros [[x H] ->]. exists c, (s', x). split; [by apply calls_Going|done].
Qed.

Lemma awaits_Going m w c c' r :
  awaits m w c = (c', Going r) <-> m w = r /\ TcpStream.blocked (Worker.stream_ r.1) = false /\ c' = c.
Proof.
  unfold awaits. destruct (m w) as [w1 x]. destruct (TcpStream.blocked _) eqn:Hb; split.
  - done.
  - intros (<- & H & _). cbn [fst] in H. congruence.
  - by intros [= -> <-].
  - by intros (<- & _ & ->).
Qed.

Lemma or_leaves_Going code m w c c' w' :
  or_leaves code m w c = (c', Going w') <-> m w = (w', Val tt) /\ TcpStream.blocked (Worker.stream_ w') = false /\ c' = c.
Proof.
  unfold or_leaves. rewrite P_bind_Going. split.
  - intros (c1 & [w1 x] & (E & Hb & ->)%awaits_Going & (? & [] & [Hx ->]%or_return_Going & [= -> ->])%P_bind_Going).
    cbn [fst snd] in *. by subst x.
  - intros (E & Hb & ->). exists c, (w', Val tt). split; [by apply awaits_Going|done].
Qed.

Lemma or_fenced_Going code name m w c c' w' :
  or_fenced code name m w c = (c', Going w') <-> m w = (w', Val tt) /\ TcpStream.blocked (Worker.stream_ w') = false /\ c' = c.
Proof.
  unfold or_fenced. rewrite P_bind_Going. split.
  - intros (c1 & [w1 [[]|e]] & (E & Hb & ->)%awaits_Going & H); [by injection H as -> ->|done].
  - intros (E & Hb & ->). exists c, (w', Val tt). split; [by apply awaits_Going|done].
Qed.

(** Statements that leave the program with something else than zero, if at all. *)
Definition failing {A} (m : P A) : Prop := forall c c' code, m c = (c', Exit code) -> code <> 0.

Lemma failing_bind {A B} (m : P A) (k : A -> P B) : failing m -> (forall x, failing (k x)) -> failing (m ≫= k).
Proof.
  intros Hm Hk c c' code. unfold mbind, P_bind. destruct (m c) as [c1 [x|code'|]] eqn:E; [apply Hk| |done].
  intros [= _ <-]. by eapply Hm.
Qed.

Lemma failing_return {A} code : code <> 0 -> failing (return_ (A := A) code).
Proof. by intros H c c' code' [= _ <-]. Qed.
Lemma failing_ret {A} (x : A) : failing (mret x : P A).
Proof. done. Qed.
Lemma failing_stuck {A} : failing (stuck (A := A)).
Proof. done. Qed.
Lemma failing_fputs s : failing (fputs s).
Proof. done. Qed.
Lemma failing_or_return {A} code (r : StatusOr A) : code <> 0 -> failing (or_return code r).
Proof. destruct r; [done|]. apply failing_return. Qed.
#[local] Hint Resolve failing_return failing_ret failing_stuck failing_fputs failing_or_return : efg.

Lemma failing_calls {S A} code (m : M S A) s : code <> 0 -> failing (calls code m s).
Proof. intros H. unfold calls. destruct (m s). apply failing_bind; auto with efg. Qed.
#[local] Hint Resolve failing_calls : efg.
Lemma failing_runs {S A} code (m : M S A) s : code <> 0 -> failing (runs code m s).
Proof. intros H. apply failing_bind; auto with efg. Qed.
Lemma failing_awaits m w : failing (awaits m w).
Proof. unfold awaits. destruct (m w) as [w1 x]. by destruct (TcpStream.blocked _). Qed.
Lemma failing_or_fenced code name m w : code <> 0 -> failing (or_fenced code name m w).
Proof.
  intros H. apply failing_bind; [apply failing_awaits|]. intros [w1 [[]|e]]; [done|]. apply failing_bind; auto with efg.
Qed.
Lemma failing_or_leaves code m w : code <> 0 -> failing (or_leaves code m w).
Proof. intros H. apply failing_bind; [apply failing_awaits|]. intros [w1 x]. apply failing_bind; auto with efg. Qed.
Lemma failing_write accepts code path s : code <> 0 -> failing (write_or_return accepts code path s).
Proof. intros H c c' code'. unfold write_or_return. destruct (write_text_file _ _ _ c). by apply failing_or_return. Qed.
#[local] Hint Resolve failing_runs failing_or_fenced failing_or_leaves failing_write : efg.
Lemma failing_write_named accepts code path s : code <> 0 -> failing (write_named accepts code path s).
Proof. intros H. unfold write_named. case_bool_decide; auto with efg. Qed.
#[local] Hint Resolve failing_write_named : efg.

(** A program that has not been asked for help exits with zero only at its end. *)
Ltac failing_tac := repeat (apply failing_bind; [solve [auto with efg]|intros ?]); auto with efg.

Lemma zero_Going {A} (m : P A) c c' o : failing m -> m c = (c', o) -> exit_code o = Some 0 -> exists x, o = Going x.
Proof.
  intros Hm E H. destruct o as [x|code|]; [by exists x| |done]. injection H as ->. by edestruct Hm.
Qed.

(** ** What a worker puts on the wire *)

(** The bytes of a frame as the encoder writes them. *)
Definition wire (max_payload : Z) (f : Frame.t) : list Z :=
  ByteWriter.buffer_ (FrameCodec.encode max_payload f (ByteWriter.make kMaxFrameBytes)).1.

Lemma write_loop_sent fuel : forall bytes s s',
  TcpStream.write_loop fuel bytes s = (s', Val tt) -> TcpStream.sent s' = TcpStream.sent s ++ bytes.
Proof.
  induction fuel as [|fuel IH]; intros [|b bytes] s s' H; cbn [TcpStream.write_loop] in H.
  1,3: injection H as <-; by rewrite app_nil_r.
  { done. }
  set (bs := b :: bytes) in *. clearbody bs. revert H. generalize (TcpStream.chunk_of (length bs)) as k. intros k H.
  destruct (TcpStream.send (take k bs) s) as [s1 n] eqn:E. destruct (Z.leb_spec n 0) as [|Hn]; [done|]. rewrite (IH _ _ _ H).
  assert (Hs : TcpStream.sent s1 = TcpStream.sent s ++ take (Z.to_nat n) bs).
  { unfold TcpStream.send in E.
    destruct (TcpStream.shut s); [injection E as _ <-; lia|].
    assert (Hle : n <= size_of (take k bs)) by (destruct (TcpStream.sends s) as [|[] ]; injection E as _ <-; lia).
    assert (Ht : take (Z.to_nat n) (take k bs) = take (Z.to_nat n) bs).
    { rewrite take_take. f_equal. unfold size_of in Hle. rewrite length_take in Hle. lia. }
    rewrite <- Ht. destruct (TcpStream.sends s) as [|[] ]; injection E as <- <-; first [reflexivity|lia]. }
  by rewrite Hs, <- app_assoc, take_drop.
Qed.

Lemma write_frame_sent max_payload f s s' :
  write_frame max_payload f s = (s', Val tt) -> TcpStream.sent s' = TcpStream.sent s ++ wire max_payload f.
Proof.
  unfold write_frame, wire. destruct (FrameCodec.encode _ _ _) as [w encoded]. intros H.
  apply M_bind_Val in H as (s1 & u & [= -> _] & H). by apply write_loop_sent in H.
Qed.

Lemma send_inv type payload w w' :
  Worker.send type payload w = (w', Val tt) ->
  exists st, w' = w <| Worker.sequence_ ::= inc64 |> <| Worker.stream_ := st |> <| Worker.frames_sent_ ::= inc64 |> /\
    TcpStream.sent st = sent_by w ++ wire (Worker.max_payload w) (worker_frame type payload w).
Proof.
  unfold Worker.send. intros H. apply M_bind_Val in H as (? & ? & [= <- <-] & H).
  apply M_bind_Val in H as (? & ? & [= <- _] & H). apply M_bind_Val in H as (? & ? & [= <- _] & H).
  apply M_bind_Val in H as (? & ? & [= <- <-] & H). apply M_bind_Val in H as (w1 & u & H1 & [= <-]). destruct u.
  unfold on in H1. destruct (write_frame _ _ _) as [st r] eqn:E. injection H1 as <- ->. exists st. split; [done|].
  exact (write_frame_sent _ _ _ _ E).
Qed.

(** The members an answer does not touch. *)
Record unmoved (w w' : Worker.t) : Prop := {
  un_config : Worker.config_ w' = Worker.config_ w;
  un_boot : Worker.boot_ w' = Worker.boot_ w;
  un_assigned : Worker.assigned_worker_ w' = Worker.assigned_worker_ w;
  un_registered : Worker.registered_ w' = Worker.registered_ w;
  un_buffer : Worker.buffer_ w' = Worker.buffer_ w;
  un_sequence : Worker.sequence_ w' = Worker.sequence_ w;
  un_samples : Worker.samples_sent_ w' = Worker.samples_sent_ w;
  un_sent : sent_by w' = sent_by w }.

Lemma receive_unmoved w : unmoved w (Worker.receive w).1.
Proof.
  pose proof (quiet_receive w) as Hq. revert Hq. unfold Worker.receive. erewrite run_bind by reflexivity. unfold on.
  destruct (read_frame _ _) as [st r]. intros Hq. split; [done..|exact Hq].
Qed.

Lemma read_ack_unmoved payload w : unmoved w (Worker.read_ack payload w).1.
Proof.
  unfold Worker.read_ack, mbind, M_bind, Worker.read_into, Worker.read_past.
  repeat (cbv beta iota; match goal with |- context [need_u64 ?r] => destruct (need_u64 r) as [? [?|?]] end); by split.
Qed.

Lemma await_unmoved w w' : await_ack w = (w', Val tt) -> unmoved w w'.
Proof.
  unfold await_ack. intros H. apply M_bind_Val in H as (w1 & f & H1 & H).
  pose proof (receive_unmoved w) as U. rewrite H1 in U. cbn [fst] in U.
  assert (U' : unmoved w1 w').
  { destruct (FrameHeader.type _); try discriminate H.
    - exfalso. unfold Worker.fenced_by in H. by destruct (read_fence _).
    - pose proof (read_ack_unmoved (Frame.payload f) w1) as U'. by rewrite H in U'. }
  destruct U, U'. split; etrans; eassumption.
Qed.

(** The payload of a batch, and the frames of batches sent one after the other from [w] on. *)
Definition batch_payload (w : Worker.t) (batch : list FlowSample.t) : list Z :=
  ByteWriter.buffer_ (encode_evidence_batch batch (Worker.max_batch w) (ByteWriter.make kMaxFramePayload)).1.

(** The frame after [n] others. *)
Definition later_frame (w : Worker.t) (n : nat) (type : FrameType.t) (payload : list Z) : Frame.t :=
  worker_frame type payload (w <| Worker.sequence_ ::= add64 (Z.of_nat n) |>).

Definition batch_frames (w : Worker.t) (batches : list (list FlowSample.t)) : list Frame.t :=
  imap (fun n batch => later_frame w n FrameType.EvidenceBatch (batch_payload w batch)) batches.

(** [batches] were flushed between [w0] and [w]. *)
Record flushed (w0 : Worker.t) (batches : list (list FlowSample.t)) (w : Worker.t) : Prop := {
  fl_config : Worker.config_ w = Worker.config_ w0;
  fl_boot : Worker.boot_ w = Worker.boot_ w0;
  fl_assigned : Worker.assigned_worker_ w = Worker.assigned_worker_ w0;
  fl_sequence : Worker.sequence_ w = add64 (size_of batches) (Worker.sequence_ w0);
  fl_samples : Worker.samples_sent_ w = add64 (size_of (mjoin batches)) (Worker.samples_sent_ w0);
  fl_sent : sent_by w = sent_by w0 ++ mjoin (wire (Worker.max_payload w0) <$> batch_frames w0 batches);
  fl_batches : Forall (fun batch => 0 < size_of batch <= Worker.max_batch w0) batches }.

Lemma flushed_nil w : u64_ok (Worker.sequence_ w) -> u64_ok (Worker.samples_sent_ w) -> flushed w [] w.
Proof.
  intros Hs Hn. split; try done.
  1,2: unfold add64; symmetry; change (size_of _) with 0; rewrite Z.add_0_r; by apply wrap_small.
  by rewrite app_nil_r.
Qed.

Lemma add64_add64 m n z : add64 m (add64 n z) = add64 (n + m) z.
Proof. unfold add64, wrap. rewrite Zplus_mod_idemp_l. f_equal. lia. Qed.

(** The buffer does not count. *)
Lemma flushed_same w0 batches w w' : unmoved (w <| Worker.buffer_ := [] |>) (w' <| Worker.buffer_ := [] |>) ->
  flushed w0 batches w -> flushed w0 batches w'.
Proof. intros [] []. split; unfold sent_by in *; cbn in *; congruence. Qed.

Lemma flush_flushed w0 batches w w' :
  flushed w0 batches w -> Worker.flush_internal w = (w', Val tt) ->
  Worker.buffer_ w' = [] /\ Worker.registered_ w' = Worker.registered_ w /\
  exists batches', flushed w0 batches' w' /\ mjoin batches' = mjoin batches ++ Worker.buffer_ w.
Proof.
  intros F H. unfold Worker.flush_internal in H. apply M_bind_Val in H as (? & ? & [= <- <-] & H).
  case_bool_decide as Hb.
  { injection H as <-. split; [done|]. split; [done|]. exists batches. by rewrite Hb, app_nil_r. }
  destruct (encode_evidence_batch _ _ _) as [writer encoded] eqn:E.
  apply M_bind_Val in H as (? & [] & [= <- ->] & H). apply M_bind_Val in H as (w1 & [] & Hsend & H).
  apply M_bind_Val in H as (? & ? & [= <- _] & H). fold await_ack in H.
  destruct (send_inv _ _ _ _ Hsend) as (st & -> & Hsent). apply await_unmoved in H. destruct H as [U1 U2 U3 U4 U5 U6 U7 U8], F.
  cbn in *. split; [done|]. split; [done|].
  assert (Hw : worker_frame FrameType.EvidenceBatch (ByteWriter.buffer_ writer) w =
               later_frame w0 (length batches) FrameType.EvidenceBatch (batch_payload w0 (Worker.buffer_ w))).
  { unfold later_frame, worker_frame, batch_payload. cbn. unfold Worker.max_batch in *. rewrite <- fl_config0, E. cbn.
    by rewrite fl_sequence0, fl_boot0, fl_assigned0. }
  exists (batches ++ [Worker.buffer_ w]). split.
  - split; try congruence.
    + rewrite U6, fl_sequence0. unfold inc64. change (wrap 64 (?z + 1)) with (add64 1 z). rewrite add64_add64.
      f_equal. unfold size_of. rewrite length_app. cbn. lia.
    + rewrite U7, fl_samples0, add64_add64. f_equal. rewrite join_app. cbn. rewrite app_nil_r. unfold size_of. rewrite length_app. lia.
    + rewrite U8. unfold sent_by in *. cbn. rewrite Hsent, fl_sent0, Hw. unfold batch_frames. rewrite imap_app, fmap_app, join_app, <- app_assoc.
      do 2 f_equal. cbn. rewrite app_nil_r, Nat.add_0_r. unfold Worker.max_payload. by rewrite fl_config0.
    + apply Forall_app. split; [done|]. apply Forall_singleton. apply M_bind_Val in E as (? & ? & Eg & _).
      unfold lift in Eg. injection Eg as _ Eg. apply refuse_if_ok in Eg. unfold Worker.max_batch in *. rewrite <- fl_config0.
      assert (Hlen : 0 < size_of (Worker.buffer_ w)) by (destruct (Worker.buffer_ w); [done|]; unfold size_of; cbn [length]; lia).
      lia.
  - rewrite join_app. cbn. by rewrite app_nil_r.
Qed.

Lemma submit_flushed w0 batches w x w' :
  flushed w0 batches w -> Worker.submit_evidence x w = (w', Val tt) ->
  exists batches', flushed w0 batches' w' /\ mjoin batches' ++ Worker.buffer_ w' = mjoin batches ++ Worker.buffer_ w ++ [x].
Proof.
  intros F H. unfold Worker.submit_evidence in H. apply M_bind_Val in H as (w1 & ? & H1 & H).
  assert (w1 = w) as ->. { apply M_bind_Val in H1 as (? & ? & [= <- <-] & [= <- _]). done. }
  apply M_bind_Val in H as (? & ? & [= <- <-] & H). apply M_bind_Val in H as (w2 & [] & H2 & [= <-]).
  destruct (_ >=? _).
  - destruct (flush_flushed _ _ _ _ F H2) as (Hb & _ & batches' & F' & Hj). exists batches'. split; [|cbn; by rewrite Hb, Hj, <- app_assoc].
    by eapply flushed_same; [|exact F']; split.
  - injection H2 as <-. exists batches. split; [|done]. by eapply flushed_same; [|exact F]; split.
Qed.

Lemma flush_public w0 batches w w' :
  flushed w0 batches w -> Worker.flush w = (w', Val tt) ->
  Worker.buffer_ w' = [] /\ exists batches', flushed w0 batches' w' /\ mjoin batches' = mjoin batches ++ Worker.buffer_ w.
Proof.
  intros F H. unfold Worker.flush in H. apply M_bind_Val in H as (w1 & ? & H1 & H).
  assert (w1 = w) as ->. { apply M_bind_Val in H1 as (? & ? & [= <- <-] & [= <- _]). done. }
  destruct (flush_flushed _ _ _ _ F H) as (Hb & _ & Hx). done.
Qed.

Section main.
Context (accepts : list Z -> list Z -> option nat).

Lemma failing_publish max_batch abort_after progress samples : forall pending batches w,
  failing (publish accepts max_batch abort_after progress samples pending batches w).
Proof.
  induction samples as [|x samples IH]; intros pending batches w; cbn [publish]; [done|].
  apply failing_bind; [auto with efg|]. intros w1. destruct (_ >=? _); [|apply IH].
  apply failing_bind; [auto with efg|]. intros w2. apply failing_bind.
  { intros c c' code. unfold note_progress. by case_bool_decide. }
  intros _. apply failing_bind; [|intros _; apply IH]. destruct (_ && _); [|done]. failing_tac.
Qed.

Lemma publish_flushed w0 max_batch abort_after progress samples : forall pending batches_count batches w c c' w',
  flushed w0 batches w -> publish accepts max_batch abort_after progress samples pending batches_count w c = (c', Going w') ->
  exists batches', flushed w0 batches' w' /\ mjoin batches' ++ Worker.buffer_ w' = mjoin batches ++ Worker.buffer_ w ++ samples.
Proof.
  induction samples as [|x samples IH]; intros pending n batches w c c' w' F H; cbn [publish] in H.
  { injection H as _ <-. exists batches. by rewrite app_nil_r. }
  apply P_bind_Going in H as (c1 & w1 & (H1 & _ & ->)%or_leaves_Going & H).
  destruct (submit_flushed _ _ _ _ _ F H1) as (bs1 & F1 & Hj1).
  replace (x :: samples) with ([x] ++ samples) by done. rewrite (app_assoc (Worker.buffer_ w)), (app_assoc (mjoin batches)), <- Hj1, <- app_assoc.
  cbv zeta in H. destruct (_ >=? _); [|by eapply IH].
  apply P_bind_Going in H as (c2 & w2 & (H2 & _ & ->)%or_fenced_Going & H). destruct (flush_public _ _ _ _ F1 H2) as (Hb2 & bs2 & F2 & Hj2).
  apply P_bind_Going in H as (c3 & [] & _ & H). apply P_bind_Going in H as (c4 & [] & _ & H).
  destruct (IH _ _ _ _ _ _ _ F2 H) as (bs3 & F3 & Hj3). exists bs3. split; [done|]. by rewrite Hj3, Hb2, Hj2, <- app_assoc.
Qed.

(** *** Registration and farewell *)

Definition hello_frame (w : Worker.t) : Frame.t := worker_frame FrameType.Hello (ByteWriter.buffer_ (Worker.hello_payload w)) w.
Definition bye_payload : list Z :=
  ByteWriter.buffer_ (emit [put_u16 0; put_string (text "shard complete")] (ByteWriter.make 256)).

Lemma register_inv w w' : Worker.register_session w = (w', Val tt) ->
  Worker.config_ w' = Worker.config_ w /\ Worker.boot_ w' = Worker.boot_ w /\ Worker.buffer_ w' = Worker.buffer_ w /\
  Worker.sequence_ w' = inc64 (Worker.sequence_ w) /\ Worker.samples_sent_ w' = Worker.samples_sent_ w /\
  Worker.registered_ w' = true /\ sent_by w' = sent_by w ++ wire (Worker.max_payload w) (hello_frame w).
Proof.
  unfold Worker.register_session. intros H. apply M_bind_Val in H as (? & ? & [= <- <-] & H).
  apply M_bind_Val in H as (? & ? & [= <- _] & H). apply M_bind_Val in H as (w1 & [] & H1 & H).
  destruct (send_inv _ _ _ _ H1) as (st & -> & Hs). apply M_bind_Val in H as (w2 & f & H2 & H).
  pose proof (receive_unmoved (w <| Worker.sequence_ ::= inc64 |> <| Worker.stream_ := st |> <| Worker.frames_sent_ ::= inc64 |>)) as U.
  rewrite H2 in U. cbn [fst] in U. destruct U as [U1 U2 _ _ U5 U6 U7 U8]. unfold sent_by in *. cbn in *.
  assert (Ha : exists id, w' = w2 <| Worker.assigned_worker_ := id |> <| Worker.registered_ := true |>).
  { destruct (FrameHeader.type _); try discriminate H; [|unfold Worker.fenced_by in H; by destruct (read_fence _)].
    unfold Worker.accept_welcome in H. apply M_bind_Val in H as (? & [[[[id epoch] boot] digest] accepted] & [= <- _] & H).
    apply M_bind_Val in H as (? & ? & [= <- _] & H). apply M_bind_Val in H as (? & ? & [= <- <-] & H).
    destruct (negb (epoch =? _)); [done|]. apply M_bind_Val in H as (? & ? & [= <- _] & H).
    apply M_bind_Val in H as (? & ? & [= <- _] & [= <-]). by exists id. }
  destruct Ha as (id & ->). cbn. by rewrite U8, Hs.
Qed.

Lemma bye_inv w0 batches w w' :
  flushed w0 batches w -> Worker.buffer_ w = [] -> Worker.bye (text "shard complete") w = (w', Val tt) ->
  Worker.registered_ w' = false /\ TcpStream.shut (Worker.stream_ w') = true /\ Worker.buffer_ w' = [] /\
  Worker.samples_sent_ w' = Worker.samples_sent_ w /\
  sent_by w' = sent_by w ++ wire (Worker.max_payload w0) (later_frame w0 (length batches) FrameType.Bye bye_payload).
Proof.
  intros F Hb H. unfold Worker.bye in H. apply M_bind_Val in H as (w1 & ? & H1 & H).
  assert (w1 = w) as ->. { apply M_bind_Val in H1 as (? & ? & [= <- <-] & [= <- _]). done. }
  apply M_bind_Val in H as (w2 & ? & H2 & H).
  assert (w2 = w) as ->.
  { unfold Worker.flush_internal in H2. apply M_bind_Val in H2 as (? & ? & [= <- <-] & H2). by rewrite bool_decide_true in H2 by done; injection H2. }
  apply M_bind_Val in H as (w3 & [] & H3 & [= <-]). destruct (send_inv _ _ _ _ H3) as (st & -> & Hs). destruct F. unfold sent_by. cbn.
  split; [done|]. split; [done|]. split; [done|]. split; [done|]. rewrite Hs. unfold sent_by. f_equal.
  unfold Worker.max_payload. rewrite fl_config0. f_equal. unfold later_frame, worker_frame. cbn. by rewrite fl_sequence0, fl_boot0, fl_assigned0.
Qed.

Lemma write_named_stdout code path s c c' x : write_named accepts code path s c = (c', Going x) -> stdout_ c' = stdout_ c.
Proof.
  unfold write_named, write_or_return, write_text_file. case_bool_decide; [by intros [= <- _]|].
  destruct (accepts _ _); [|done]. by intros [_ ->]%or_return_Going.
Qed.

(** C16: A worker that exits with zero without having been asked for help has connected to the
    port, registered, and sent on the connection, behind its hello, the samples of its shard in
    order and without a gap, in non-empty batches that are no larger than the limit, and then
    its farewell; the line it prints counts them all. *)
Theorem worker_publishes_shard connected argv c c' o :
  let args := Args.make argv in
  let spec := scenario_from_args args in
  let config := worker_config args spec in
  Args.has (text "help") args = false -> worker_main accepts connected argv c = (c', o) -> exit_code o = Some 0 ->
  exists tcp stream greeted batches w,
    o = Going w /\ connected (WorkerConfig.port config) = Val tcp /\
    build_stream spec (WorkerConfig.boot config) (number args "publisher" 2) (number args "shard" 0) (number args "shards" 1) = Val stream /\
    Worker.register_session (Worker.make config tcp) = (greeted, Val tt) /\
    mjoin batches = SampleStream.samples stream /\
    Forall (fun batch => 0 < size_of batch <= count args "max-batch" 64) batches /\
    TcpStream.sent (Worker.stream_ w) = TcpStream.sent tcp ++ mjoin (wire kMaxFramePayload <$>
      [hello_frame (Worker.make config tcp)] ++ batch_frames greeted batches ++
      [later_frame greeted (length batches) FrameType.Bye bye_payload]) /\
    TcpStream.shut (Worker.stream_ w) = true /\ Worker.registered_ w = false /\ Worker.buffer_ w = [] /\
    Worker.samples_sent_ w = wrap 64 (size_of (SampleStream.samples stream)) /\
    exists said, stdout_ c' = said ++ c_str (worker_summary w).
Proof.
  intros args spec config Hh E Ho.
  assert (Hz : exists w, o = Going w).
  { eapply zero_Going; [|exact E|exact Ho]. apply failing_bind; [unfold help; fold args; by rewrite Hh|]. intros _. fold args spec config.
    repeat (apply failing_bind; [first [apply failing_publish|auto with efg]|intros ?]). done. }
  destruct Hz as (w & ->). unfold worker_main in E. fold args spec config in E.
  apply P_bind_Going in E as (c0 & [] & E0 & E). unfold help in E0. rewrite Hh in E0. injection E0 as <-.
  apply P_bind_Going in E as (? & [] & [_ ->]%or_return_Going & E).
  apply P_bind_Going in E as (? & stream & [Hstream ->]%or_return_Going & E).
  apply P_bind_Going in E as (? & w1 & [Hc ->]%or_return_Going & E).
  apply P_bind_Going in E as (? & w2 & (Hr & _ & ->)%or_fenced_Going & E).
  apply P_bind_Going in E as (c1 & [] & _ & E). apply P_bind_Going in E as (c2 & [] & _ & E).
  apply P_bind_Going in E as (c3 & w3 & Hp & E). apply P_bind_Going in E as (? & w4 & (Hf & _ & ->)%or_fenced_Going & E).
  apply P_bind_Going in E as (? & w5 & (Hbye & _ & ->)%or_leaves_Going & E).
  apply P_bind_Going in E as (c4 & [] & E4 & E). apply P_bind_Going in E as (c5 & [] & E5 & [= -> ->]).
  unfold Worker.connect in Hc. inv_status Hc. injection Hc as <-.
  destruct (register_inv _ _ Hr) as (R1 & R2 & R3 & R4 & R5 & R6 & R7).
  destruct (publish_flushed w2 _ _ _ _ _ _ [] w2 _ _ _ (flushed_nil w2 ltac:(rewrite R4; apply inc64_range) ltac:(by rewrite R5)) Hp) as (bs & F3 & Hj3).
  destruct (flush_public _ _ _ _ F3 Hf) as (Hb4 & batches & F4 & Hj4). destruct (bye_inv _ _ _ _ F4 Hb4 Hbye) as (B1 & B2 & B3 & B4 & B5).
  rewrite Hj3, R3 in Hj4. cbn in Hj4.
  eexists _, stream, w2, batches, w. split; [done|]. split; [eassumption|]. split; [done|]. split; [exact Hr|]. split; [exact Hj4|].
  destruct F4. assert (Hm : Worker.max_payload w2 = kMaxFramePayload) by (unfold Worker.max_payload; by rewrite R1).
  split; [unfold Worker.max_batch in fl_batches0; by rewrite R1 in fl_batches0|]. split.
  { unfold sent_by in *. rewrite B5, fl_sent0, R7, Hm. rewrite !fmap_app, !join_app. cbn. by rewrite app_nil_r, <- !app_assoc. }
  split; [exact B2|]. split; [exact B1|]. split; [exact B3|]. split; [by rewrite B4, fl_samples0, Hj4, R5|].
  exists (stdout_ c3). rewrite (write_named_stdout _ _ _ _ _ _ E5). injection E4 as <-. reflexivity.
Qed.
End main.

(** ** A worker and a coordinator *)

Definition all_taken (path s : list Z) : option nat := Some (length s).
Definition no_console : Console := mkConsole [] [].
Definition population_args : list (list Z) := [text "--mice=1"; text "--elephants=1"; text "--ticks=8"; text "--window=4"].
Definition worker_argv : list (list Z) := population_args ++ [text "--port=4000"; text "--max-batch=3"].

(** What a coordinator answers to a worker of two batches. *)
Definition answer (type : FrameType.t) (sequence : Z) (payload : list Z) : list Z :=
  wire kMaxFramePayload (Frame.mk (FrameHeader.mk type 0 sequence 1 1 1 0 0) payload).
Definition demo_answers : list Z := Eval vm_compute in
  answer FrameType.Welcome 1 (mjoin (le_bytes 8 <$> [1; 1; 1; 0]) ++ le_bytes 4 1) ++
  answer FrameType.EvidenceAck 2 (mjoin (le_bytes 8 <$> [3; 0; 0; 0; 0])) ++
  answer FrameType.EvidenceAck 3 (mjoin (le_bytes 8 <$> [4; 0; 0; 0; 0])).
Definition demo_connection (port : Z) : StatusOr TcpStream.t :=
  Val (TcpStream.mk true (match demo_answers with [] => [] | b :: bs => [Bytes b bs] end) [] [] false false).

Definition demo_worker_run : Console * Outcome Worker.t := Eval vm_compute in
  worker_main all_taken demo_connection worker_argv no_console.

Lemma demo_worker_run_eq : worker_main all_taken demo_connection worker_argv no_console = demo_worker_run.
Proof. vm_compute. reflexivity. Qed.

Lemma worker_publishes_shard_witness :
  exists stream batches w,
    demo_worker_run.2 = Going w /\ size_of (SampleStream.samples stream) = 4 /\
    mjoin batches = SampleStream.samples stream /\ Forall (fun batch => 0 < size_of batch <= 3) batches /\
    Worker.samples_sent_ w = 4.
Proof.
  destruct (worker_publishes_shard all_taken demo_connection worker_argv no_console demo_worker_run.1 demo_worker_run.2)
    as (tcp & stream & greeted & batches & w & Ho & _ & Hs & _ & Hj & Hb & _ & _ & _ & _ & Hn & _).
  - vm_compute. reflexivity.
  - rewrite demo_worker_run_eq. reflexivity.
  - reflexivity.
  - exists stream, batches, w. split; [exact Ho|].
    assert (Hsize : size_of (SampleStream.samples stream) = 4).
    { pose proof (f_equal (fun r => match r with Val st => size_of (SampleStream.samples st) | Err _ => 0 end) Hs) as Hv.
      cbv beta iota in Hv. rewrite <- Hv. vm_compute. reflexivity. }
    split; [exact Hsize|]. split; [exact Hj|]. split; [exact Hb|]. rewrite Hn, Hsize. reflexivity.
Defined.

(** The bytes of that worker, served by the coordinator's program. *)
Definition worker_connection : StatusOr TcpStream.t :=
  match demo_worker_run.2 with
  | Going w => Val (TcpStream.mk true (pieces (TcpStream.sent (Worker.stream_ w))) [] [] false false)
  | _ => Err StatusCode.Closed
  end.

Example cluster_of_two_programs :
  match coordinator_main all_taken silent (fun _ => []) no_disk (Val 4000) [worker_connection] population_args no_console with
  | (_, Going c) =>
      (fun s => (SessionOutcome.clean_bye s, SessionOutcome.fenced s, SessionOutcome.accepted s)) <$> Coordinator.sessions_ c =
      [(true, false, 4)] /\ Governor.flow_count (Coordinator.governor c) = 2
  | _ => False
  end.
Proof. vm_compute. split; reflexivity. Qed.

(** The downstream consumer reaches its end, with one flow and the intent it was granted. *)
Example consumer_succeeds :
  match consumer_main no_console with
  | (_, Going g) => Governor.flow_count g = 1 /\ IntentLedger.size (Governor.intents_ g) = 1
  | _ => False
  end.
Proof. vm_compute. split; reflexivity. Qed.

(** A file that was written is read back by [read_text_file], if it holds what was taken. *)
Lemma read_written accepts path s c c' :
  write_text_file accepts path s c = (c', Val tt) ->
  exists held, head (files_ c') = Some (c_str path, held) /\
    forall ceiling, size_of s <= ceiling -> read_text_file (Some (mkOpened true (size_of held) held)) ceiling = Val s.
Proof.
  unfold write_text_file. destruct (accepts _ _) as [n|]; [|done]. intros [= <- Hw]. apply refuse_if_ok in Hw. boolify.
  exists (take n s). split; [done|]. intros ceiling Hc.
  assert (Ht : take n s = s) by (apply take_ge; unfold size_of in Hw; rewrite length_take in Hw; lia).
  rewrite Ht. unfold read_text_file. cbn [seeks tells holds negb refuse_if]. pose proof (size_of_nonneg s) as Hp.
  replace (size_of s <? 0) with false by lia. replace (size_of s >? ceiling) with false by lia.
  assert (Hr : (if size_of s =? 0 then [] else take (Z.to_nat (size_of s)) s) = s).
  { unfold size_of. rewrite Nat2Z.id, take_ge by done. by destruct s. }
  cbv zeta. rewrite Hr, Z.eqb_refl. reflexivity.
Qed.
