(* ===== verification/RunnerFacts.v ===== *)
(** * The scenario runner reports the governor it has driven

    The run of [efg_governor] as a sequence of operations on a fresh governor, what it prints
    about the result, and the report it writes. *)
From Stdlib Require Import String.
From S2P Require Import Prelude Status Checked Tri Tick Hash OMap Flow Tables Policy Impact Classification Intervention Governor GovernorFacts GovernorRuns Codec CodecFacts Restore Text TextFacts Json Names Explain ExplainFacts Benchmark Scenario Apps AppsFacts.

#[local] Open Scope string_scope.
#[local] Open Scope list_scope.
#[local] Open Scope Z_scope.

Lemma decision_digest_ok g : u64_ok (decision_digest g).
Proof. unfold decision_digest. apply digest_range. Qed.

#[local] Opaque Governor.submit_evidence Governor.submit_policy Governor.submit_capacity Governor.submit_path Governor.tick decision_digest.

(** ** Operations that succeed *)

Definition succeeds {A} (r : StatusOr A) : Prop := exists x, r = Val x.

Definition granted (op : gov_op) (g : Governor.t) : Prop :=
  match op with
  | SubmitPolicy p => succeeds (Governor.submit_policy p g).2
  | SubmitCapacity c => succeeds (Governor.submit_capacity c g).2
  | SubmitPath p => succeeds (Governor.submit_path p g).2
  | SubmitEvidence s => succeeds (Governor.submit_evidence s g).2
  | TickTo now => succeeds (Governor.tick now g).2
  | _ => True
  end.

Fixpoint all_granted (ops : list gov_op) (g : Governor.t) : Prop :=
  match ops with
  | [] => True
  | op :: ops => granted op g /\ all_granted ops (gov_apply op g)
  end.

Lemma all_granted_app ops ops' g : all_granted (ops ++ ops') g <-> all_granted ops g /\ all_granted ops' (gov_run ops g).
Proof. revert g. induction ops as [|op ops IH]; intros g; cbn; [tauto|]. rewrite IH. tauto. Qed.

(** [g'] is where the operations lead from [g], each of them granted. *)
Definition led (ops : list gov_op) (g g' : Governor.t) : Prop := all_granted ops g /\ g' = gov_run ops g.

Lemma led_app ops ops' g g1 g2 : led ops g g1 -> led ops' g1 g2 -> led (ops ++ ops') g g2.
Proof. intros [H ->] [H' ->]. split; [by apply all_granted_app|]. unfold gov_run. by rewrite foldl_app. Qed.

Lemma led_one {A} (op : gov_op) (m : M Governor.t A) g g' x :
  gov_apply op g = (m g).1 -> (succeeds (m g).2 -> granted op g) -> m g = (g', Val x) -> led [op] g g'.
Proof. intros Ha Hg E. rewrite E in Ha, Hg. split; [split; [apply Hg; by exists x|done]|exact (eq_sym Ha)]. Qed.

Ltac led_tac E := refine (led_one _ _ _ _ _ _ _ E); [reflexivity|done].

(** A loop over methods, each the operation of its element. *)
Lemma led_each {A} (f : A -> M Governor.t unit) (op : A -> gov_op) :
  (forall a g g', f a g = (g', Val tt) -> led [op a] g g') ->
  forall l g g', for_each f l g = (g', Val tt) -> led (op <$> l) g g'.
Proof.
  intros Hf l. induction l as [|a l IH]; intros g g' H; cbn [for_each] in H.
  - injection H as <-. by split.
  - apply M_bind_Val in H as (g1 & [] & H1 & H2). exact (led_app [op a] _ _ _ _ (Hf _ _ _ H1) (IH _ _ H2)).
Qed.

(** ** The run *)

Definition runner_governor (args : Args.t) (spec : ScenarioSpec.t) : Governor.t :=
  Governor.set_incarnation (boot_from_args args 1 spec) (Governor.make (runner_config args)).

Definition runner_ops (args : Args.t) (spec : ScenarioSpec.t) (policy : PolicyDocument.t) (samples : list FlowSample.t) : list gov_op :=
  let boot := boot_from_args args 1 spec in
  [SubmitPolicy policy] ++ (SubmitCapacity <$> build_capacities spec start boot) ++
  (SubmitPath <$> build_paths spec start boot) ++ (SubmitEvidence <$> samples) ++ [TickTo (final_tick_of spec)].

Lemma governed_led args spec c c' g :
  governed args spec c = (c', Going g) ->
  c' = c /\ exists policy stream, policy_of spec = Val policy /\
    build_stream spec (boot_from_args args 1 spec) 1 0 1 = Val stream /\
    led (runner_ops args spec policy (SampleStream.samples stream)) (runner_governor args spec) g.
Proof.
  unfold governed. intros H. apply P_bind_Going in H as (? & policy & [Hp ->]%or_return_Going & H).
  apply P_bind_Going in H as (? & g1 & [[[] H1] ->]%runs_Going & H). apply P_bind_Going in H as (? & g2 & [[[] H2] ->]%runs_Going & H).
  apply P_bind_Going in H as (? & g3 & [[[] H3] ->]%runs_Going & H). apply P_bind_Going in H as (? & stream & [Hs ->]%or_return_Going & H).
  apply P_bind_Going in H as (? & g4 & [[[] H4] ->]%runs_Going & H). apply runs_Going in H as [[x H5] ->].
  split; [done|]. exists policy, stream. split; [done|]. split; [done|].
  apply (led_app _ _ _ g1); [led_tac H1|].
  apply (led_app _ _ _ g2); [refine (led_each _ _ _ _ _ _ H2); intros a ? ? E; led_tac E|].
  apply (led_app _ _ _ g3); [refine (led_each _ _ _ _ _ _ H3); intros a ? ? E; led_tac E|].
  apply (led_app _ _ _ g4); [|led_tac H5]. refine (led_each _ _ _ _ _ _ H4).
  intros a ? ? E. apply M_bind_Val in E as (? & d & E & [= <-]). led_tac E.
Qed.

(** ** The explanations *)

Definition explained_text (es : list Explanation.t) : list Z := mjoin ((fun e => c_str (render_text e)) <$> es).

Lemma printed_nil c : c <| stdout_ ::= (fun out => out ++ explained_text []) |> = c.
Proof. destruct c as [out files]. apply (f_equal (fun s => mkConsole s files)), app_nil_r. Qed.

Lemma explain_classifies flow generation now g : (explain flow generation now g).1 = gov_apply (Classify flow generation now) g.
Proof.
  unfold explain. cbn [gov_apply]. unfold Governor.classification.
  destruct (Governor.with_record _ _ g) as [g1 [d|c]]; [|done]. by destruct (OMap.find _ _).
Qed.

(** The answer to a question, if it is that the flow is an elephant. *)
Definition elephant (answer : StatusOr Explanation.t) : list Explanation.t :=
  match answer with
  | Val e => if bool_decide (Explanation.state e = ElephantState.Elephant) then [e] else []
  | Err _ => []
  end.

(** The elephants among the flows, each as [explain] finds it when asked after those before it. *)
Fixpoint elephants (now : Tick) (keys : list FlowKey) (g : Governor.t) : list Explanation.t :=
  match keys with
  | [] => []
  | (flow, generation) :: keys =>
      let '(g, answer) := explain flow generation now g in elephant answer ++ elephants now keys g
  end.

(** The loop asks about the flows of the list in order, prints the elephants among them, and stops
    at the end of the list or when it has printed enough. *)
Lemma explain_elephants_spec limit now keys : forall n g c c' g',
  explain_elephants limit now n keys g c = (c', Going g') ->
  exists asked rest, keys = asked ++ rest /\ g' = gov_run ((fun k => Classify k.1 k.2 now) <$> asked) g /\
    let es := elephants now asked g in
    c' = c <| stdout_ ::= (fun out => out ++ explained_text es) |> /\
    n + size_of es <= Z.max n limit /\ (rest = [] \/ limit <= n + size_of es).
Proof.
  induction keys as [|[flow generation] keys IH]; intros n g c c' g' H; cbn [explain_elephants] in H.
  { injection H as <- <-. exists [], []. split; [done|]. split; [done|]. split; [symmetry; apply printed_nil|].
    split; [change (size_of _) with 0; lia|by left]. }
  destruct (Z.geb_spec n limit) as [Hn|Hn].
  { injection H as <- <-. exists [], ((flow, generation) :: keys). split; [done|]. split; [done|]. split; [symmetry; apply printed_nil|].
    change (size_of _) with 0. split; [lia|right; lia]. }
  pose proof (explain_classifies flow generation now g) as Hc. destruct (explain flow generation now g) as [g1 r] eqn:E. cbn [fst] in Hc.
  assert (Hgo : forall n1 c1, explain_elephants limit now n1 keys g1 c1 = (c', Going g') ->
    n1 = n + size_of (elephant r) -> n1 <= limit -> c1 = c <| stdout_ ::= (fun out => out ++ explained_text (elephant r)) |> ->
    exists asked rest, (flow, generation) :: keys = asked ++ rest /\ g' = gov_run ((fun k => Classify k.1 k.2 now) <$> asked) g /\
    let es := elephants now asked g in
    c' = c <| stdout_ ::= (fun out => out ++ explained_text es) |> /\
    n + size_of es <= Z.max n limit /\ (rest = [] \/ limit <= n + size_of es)).
  { intros n1 c1 (asked & rest & -> & -> & -> & Hsz & Hstop)%IH -> Hlim ->. exists ((flow, generation) :: asked), rest.
    split; [done|]. split; [by rewrite Hc|]. cbn [elephants]. rewrite E, size_of_app. split; [|split; [lia|destruct Hstop; [by left|right; lia]]].
    destruct c as [out files]. apply (f_equal (fun s => mkConsole s files)). cbn. unfold explained_text.
    by rewrite fmap_app, join_app, <- app_assoc. }
  destruct r as [e|code]; cbn [elephant] in Hgo.
  2: { apply (Hgo n c H); [change (size_of _) with 0; lia|lia|symmetry; apply printed_nil]. }
  case_bool_decide as He; cbn [negb] in H.
  - apply P_bind_Going in H as (c1 & [] & [= <-] & H). apply (Hgo (n + 1) _ H); [done|lia|].
    destruct c as [out files]. apply (f_equal (fun s => mkConsole s files)). cbn. unfold explained_text. cbn. by rewrite app_nil_r.
  - apply (Hgo n c H); [change (size_of _) with 0; lia|lia|symmetry; apply printed_nil].
Qed.

(** ** The report *)

Definition runner_counts (g : Governor.t) : list Z :=
  let counters := Governor.counters_ g in [
  Governor.flow_count g; GovernorCounters.decisions counters; GovernorCounters.elephant_decisions counters;
  GovernorCounters.suspended_decisions counters; GovernorCounters.intents_authorized counters;
  GovernorCounters.intents_clamped counters; GovernorCounters.intents_suppressed counters;
  GovernorCounters.intents_fenced counters ].

Definition runner_fields (g : Governor.t) : list (list Z * piece json) :=
  let counters := Governor.counters_ g in [
  sfield (nl 2) "population_kind" (text "SYNTHETIC");
  nfield (nl 2) "flows" (Governor.flow_count g);
  nfield (nl 2) "decisions" (GovernorCounters.decisions counters);
  nfield (nl 2) "elephant_decisions" (GovernorCounters.elephant_decisions counters);
  nfield (nl 2) "suspended_decisions" (GovernorCounters.suspended_decisions counters);
  nfield (nl 2) "intents_authorized" (GovernorCounters.intents_authorized counters);
  nfield (nl 2) "intents_clamped" (GovernorCounters.intents_clamped counters);
  nfield (nl 2) "intents_suppressed" (GovernorCounters.intents_suppressed counters);
  nfield (nl 2) "intents_fenced" (GovernorCounters.intents_fenced counters);
  nfield (nl 2) "decision_digest" (decision_digest g) ].

Lemma runner_report_bytes g : runner_report g (decision_digest g) = object_bytes (runner_fields g) [10] ++ [10].
Proof. unfold runner_report, runner_fields. rewrite build_bytes. same_bytes. Qed.

Lemma runner_report_json g : Forall u64_ok (runner_counts g) ->
  read_json (runner_report g (decision_digest g)) = Some (JObject (field_meaning <$> runner_fields g)).
Proof.
  intros Hc. rewrite runner_report_bytes. apply spells_document; [|apply (blank_nl 0)|discriminate].
  pose proof (decision_digest_ok g) as Hd. unfold runner_counts in Hc. cbv zeta in Hc. rewrite !List.Forall_cons_iff in Hc. destruct_and! Hc.
  apply spells_object; [|apply (blank_nl 0)]. unfold runner_fields. fields_tac. apply spells_ascii, text_ascii. reflexivity.
Qed.

Lemma write_named_writes accepts code path s c c' x : write_named accepts code path s c = (c', Going x) -> path <> [] ->
  files_ c' = (c_str path, s) :: files_ c.
Proof.
  intros H Hp. unfold write_named in H. rewrite bool_decide_false in H by done. unfold write_or_return, write_text_file in H.
  destruct (accepts _ _) as [n|]; [|done]. apply or_return_Going in H as [Hw ->]. apply refuse_if_ok in Hw. boolify.
  cbn. do 2 f_equal. apply take_ge. unfold size_of in Hw. rewrite length_take in Hw. lia.
Qed.

(** ** The program *)

Lemma failing_governed args spec : failing (governed args spec).
Proof.
  unfold governed. repeat (apply failing_bind; [first [by apply failing_or_return|by apply failing_runs]|intros ?]). by apply failing_runs.
Qed.

Lemma failing_explain limit now keys : forall n g, failing (explain_elephants limit now n keys g).
Proof.
  induction keys as [|[flow generation] keys IH]; intros n g; cbn [explain_elephants]; [done|].
  destruct (_ >=? _); [done|]. destruct (explain _ _ _ _) as [g1 [e|code]]; [|apply IH].
  case_bool_decide; cbn [negb]; [|apply IH]. apply failing_bind; [done|]. intros _. apply IH.
Qed.

Definition digest_line (g : Governor.t) : list Z := build [lit "decision_digest="; Num (decision_digest g); newline].

(** C39: A scenario runner that exits with zero without having been asked for help has led a fresh
    governor of the configured incarnation through the policy, the capacities, the paths, every
    sample of the population and one sweep, none of them refused; it prints the summary of that
    governor; then it asks [explain] about its flows one after the other, and prints the answers
    that say elephant, until there are no more flows or it has printed as many as it was asked for;
    then it prints the digest of the governor these questions leave; and where a report is asked
    for and the counts of that governor fit 64 bits, the file holds a JSON document with these
    counts and that digest. *)
Theorem runner_reports_its_governor accepts argv c c' o :
  let args := Args.make argv in
  let spec := scenario_from_args args in
  Args.has (text "help") args = false -> governor_main accepts argv c = (c', o) -> exit_code o = Some 0 ->
  exists policy stream swept asked rest g,
    o = Going g /\ policy_of spec = Val policy /\ build_stream spec (boot_from_args args 1 spec) 1 0 1 = Val stream /\
    led (runner_ops args spec policy (SampleStream.samples stream)) (runner_governor args spec) swept /\
    Governor.flow_keys swept = asked ++ rest /\
    g = gov_run ((fun k => Classify k.1 k.2 (final_tick_of spec)) <$> asked) swept /\
    let es := elephants (final_tick_of spec) asked swept in
    stdout_ c' = stdout_ c ++ c_str (summary swept) ++ explained_text es ++ c_str (digest_line g) /\
    size_of es <= Z.max 0 (count args "explain" 3) /\ (rest = [] \/ count args "explain" 3 <= size_of es) /\
    (arg args "report" <> [] -> Forall u64_ok (runner_counts g) ->
     exists report, files_ c' = (c_str (arg args "report"), report) :: files_ c /\
       read_json report = Some (JObject (field_meaning <$> runner_fields g))).
Proof.
  intros args spec Hh E Ho.
  assert (Hz : exists g, o = Going g).
  { eapply zero_Going; [|exact E|exact Ho]. apply failing_bind; [unfold help; fold args; by rewrite Hh|]. intros _. fold args spec.
    repeat (apply failing_bind; [first [by apply failing_or_return|apply failing_governed|apply failing_explain|by apply failing_write_named|done]|intros ?]). done. }
  destruct Hz as (g & ->). unfold governor_main in E. fold args spec in E.
  apply P_bind_Going in E as (? & [] & E0 & E). unfold help in E0. rewrite Hh in E0. injection E0 as <-.
  apply P_bind_Going in E as (? & [] & [_ ->]%or_return_Going & E).
  apply P_bind_Going in E as (? & swept & (-> & policy & stream & Hp & Hs & Hled)%governed_led & E).
  apply P_bind_Going in E as (c1 & [] & [= <-] & E).
  apply P_bind_Going in E as (c2 & g' & (asked & rest & Hk & Hg & -> & Hn & Hes)%explain_elephants_spec & E).
  apply P_bind_Going in E as (c3 & [] & [= <-] & E). apply P_bind_Going in E as (c4 & [] & Hw & [= -> ->]).
  exists policy, stream, swept, asked, rest, g. split; [done|]. split; [done|]. split; [done|]. split; [done|]. split; [done|]. split; [done|].
  split; [rewrite (write_named_stdout _ _ _ _ _ _ _ Hw); cbn; by rewrite <- !app_assoc|]. split; [exact Hn|]. split; [exact Hes|].
  intros Hr Hc. exists (runner_report g (decision_digest g)). split; [exact (write_named_writes _ _ _ _ _ _ _ Hw Hr)|by apply runner_report_json].
Qed.

(** ** Witness *)

Definition runner_argv : list (list Z) :=
  [text "--mice=1"; text "--elephants=1"; text "--ticks=16"; text "--explain=2"; text "--report=r.json"].
Definition demo_runner : Console * Outcome Governor.t := Eval vm_compute in governor_main all_taken runner_argv no_console.
Lemma demo_runner_eq : governor_main all_taken runner_argv no_console = demo_runner.
Proof. vm_compute. reflexivity. Qed.

Lemma runner_reports_its_governor_witness :
  exists g swept asked rest report,
    demo_runner.2 = Going g /\ Governor.flow_keys swept = asked ++ rest /\
    size_of (elephants (final_tick_of (scenario_from_args (Args.make runner_argv))) asked swept) <= 2 /\
    files_ demo_runner.1 = [(text "r.json", report)] /\
    read_json report = Some (JObject (field_meaning <$> runner_fields g)).
Proof.
  destruct (runner_reports_its_governor all_taken runner_argv no_console demo_runner.1 demo_runner.2)
    as (policy & stream & swept & asked & rest & g & Ho & _ & _ & _ & Hk & _ & _ & Hn & _ & Hr).
  - vm_compute. reflexivity.
  - rewrite demo_runner_eq. reflexivity.
  - reflexivity.
  - destruct Hr as (report & Hf & Hj).
    + vm_compute. discriminate.
    + assert (Hg : g = match demo_runner.2 with Going g => g | _ => g end) by (rewrite Ho; reflexivity).
      rewrite Hg. clear. repeat constructor; vm_compute; congruence.
    + exists g, swept, asked, rest, report. split; [exact Ho|]. split; [exact Hk|].
      split; [exact Hn|]. split; [exact Hf|exact Hj].
Defined.
